(* ===== verification/_CoqProject ===== *)
-Q . S2P
Prelude.v
PyStr.v
Ip.v
IpText.v
Models.v
Json.v
SafeConn.v
Store.v
StoreFacts.v
StoreProps.v
Events.v
Selection.v
Failover.v
FailoverProps.v
Reconcile.v
ReconcileProps.v
Scrub.v
ConfigFiles.v
ConfigFilesProps.v
Supervisor.v
SupervisorProps.v
Config.v
Tuning.v
Routing.v
Builder.v
BuilderProps.v
RwInbound.v
RwInboundProps.v
Plan.v
Enforcement.v
EnforcementProps.v
Records.v
RecordsFacts.v
Ledgers.v
LedgersFacts.v
Host.v
Nft.v
Render.v
RenderProps.v
Linux.v
Segment.v
SegmentFacts.v
Machine.v
SegmentSteps.v
Provision.v
ProvisionFacts.v
ProvisionProps.v
LinuxProps.v
NetSettings.v
Backup.v
BackupProps.v
BackupFiles.v
ProvisionFrame.v
Restore.v
RestoreProps.v
Uri.v
Feed.v
FeedProps.v
Inject.v
Fetch.v
FetchProps.v
Traffic.v
TrafficProps.v
Web.v
Auth.v
AuthFlow.v
AuthFacts.v
GuardFacts.v
AuthProps.v
Controller.v
ControllerProps.v
Liveness.v
LivenessProps.v
Service.v
ServiceProps.v
Revocation.v
RevocationFacts.v
RevocationProps.v
RwRoutes.v
RwRoutesProps.v
