(* ===== verification/Prelude.v ===== *)
(** * v2pi: a verification library for the gateway panel

    v2pi turns a small Linux machine into a gateway: clients of a network segment are
    redirected (nftables tproxy) into a local xray process that carries their traffic
    to a chosen node.  The Python backend under [src/backend/pi_gw_panel/] keeps the
    nodes, subscriptions and settings in SQLite, renders and validates the xray
    configuration, supervises the xray process, installs the host rules, watches the
    health of the nodes and switches between them.  This library models that backend
    as executable Rocq definitions, translated from the source, and proves what makes
    each part correct.

    ** Parts and files

    - [Prelude.v], [PyStr.v]: notations, tactics, the [v2pi] and [keeps] hint databases,
      stable sorting; Python's string operations, [int(s)], [str(i)] and [float(s)].
    - [Models.v]: the dataclasses of [models.py] ([Node], [Subscription], [TuningProfile],
      ...), [Node.normalize], and the clamping of untrusted fields in [subs/parsers].
    - [SafeConn.v]: [_SafeConn] of [nodes/store.py], nested transactions on one SQLite
      connection, as a small language of client programs.
    - [Store.v], [StoreFacts.v], [StoreProps.v]: [NodeStore].  [db] has one field per table;
      [constraints] are the UNIQUE indexes, CHECKs and foreign keys; store code is the
      monad [M] (a value or an exception, and the database).
    - [Events.v]: [net_control/events.py], the connection log, incidents and downtime.
    - [Selection.v], [Failover.v], [FailoverProps.v]: [health/selection.py] and
      [health/failover.py], for any preflight and any apply.
    - [Reconcile.v], [ReconcileProps.v]: [subs/reconcile.py], the merge of
      a subscription feed into the store.
    - [Scrub.v], [ConfigFiles.v], [ConfigFilesProps.v]: [xray_config/validate.py], the
      redaction of secrets and [ConfigManager] (live file, last-good file, provenance
      marker) on a disk with power cuts.
    - [Supervisor.v], [SupervisorProps.v]: [xray_supervisor/supervisor.py], with the
      operating system's processes.
    - [Config.v], [Tuning.v], [Routing.v], [Builder.v], [BuilderProps.v]: the settings record,
      tuning profiles, routing rules and their validation, and [build_config] of [xray_config/builder.py].
    - [Json.v]: JSON documents: lookup and update of fields, equality, digests.
    - [Ip.v], [IpText.v], [RwInbound.v], [RwInboundProps.v]: the parts of Python's [ipaddress] the code
      uses, and [rw_inbound.py]: the remote-access settings, client roster, resolved
      inbound and the profiles given to clients.
    - [Plan.v], [Enforcement.v], [EnforcementProps.v]: [net_control/plan.py] and the half of
      [controller.py] that installs and records host enforcement, against the interface
      [NetHost] of a network backend.
    - [Records.v], [RecordsFacts.v], [Ledgers.v], [LedgersFacts.v]: the record layer of
      [net_control/provision.py]: reads that may not answer, verified writes, durable sets
      with their journal; the ledgers of links, addresses, survivors and the pending undo,
      and the cover read from them.
    - [Host.v], [Segment.v], [Provision.v]: the host as the interface [Kernel] (commands,
      services, rules), the probes and the emergency deny; the steps of a pass (links,
      addresses, NetworkManager, the IPv6 prefix); [host_provision], the candidate undo and
      the delegated-prefix callback.  [backend_host] shows such a host is a [NetHost].
    - [SegmentFacts.v], [SegmentSteps.v], [ProvisionFacts.v],
      [ProvisionProps.v]: the laws assumed of a host ([KernelSpec]) and what follows of every
      step.  [Machine.v]: a small machine with those laws, on which the witnesses run.
    - [Nft.v], [Render.v], [RenderProps.v]: nftables rules as trees with a
      printer and a packet semantics; [net_control/render.py], the rulesets and the dnsmasq
      configuration as text.  [Linux.v], [LinuxProps.v]: [net_control/linux.py], the backend
      that loads them ([dryrun.py] and [factory.py] beside it), proved to satisfy the laws
      ([KernelSpec]) provisioning assumes of a host.
    - [Controller.v], [ControllerProps.v]: [apply_node] with its
      recovery, and the boot reapply, over the whole gateway (database, files,
      supervisor, backend).
    - [NetSettings.v]: the validation of network settings in [config.py].  [Backup.v],
      [BackupProps.v]: [backup/__init__.py], the backup document with its
      validators, its export and its import as store code.  [BackupFiles.v]: the files kept on
      the box, the snapshot taken before a restore and the daily backup.
    - [ProvisionFrame.v]: which settings a provisioning pass may write.  [Restore.v],
      [RestoreProps.v]: [restore_backup] of [controller.py], the transaction
      around an import that disconnects the box, with its roll-back.
    - [Uri.v], [Feed.v], [FeedProps.v]: the parsers of subscription feeds
      ([subs/parsers]) over the parts of [urllib] and [base64] they use.
    - [Inject.v], [Fetch.v], [FetchProps.v]: [subs/inject.py] and
      [subs/fetcher.py], the request a feed is asked for with and the HTTP client, against a
      network that answers each hop as it likes.  [Service.v], [ServiceProps.v]: a refresh
      ([subs/service.py]), fetch, parse, merge and re-apply, over the gateway of the
      controller, with other threads at work between its steps.
    - [Traffic.v], [TrafficProps.v]: [stats/sampler.py], [stats/history.py] and the callbacks
      of [state.py]: rates, the rolling history, the durable total and the minutes, over runs
      of ticks, shutdowns and crashes.
    - [Web.v], [Auth.v], [AuthFlow.v], [AuthFacts.v], [GuardFacts.v], [AuthProps.v]: requests
      as programs whose accesses to the shared state interleave; [auth/] with the gates of
      [api/deps.py], the set-up, login, password and token routes and the audit middleware of
      [app.py]; a step relation in which any number of requests are in flight.
    - [Liveness.v], [LivenessProps.v]: [health/liveness.py], the loop that restarts a crashed
      xray, retries an interrupted revocation, probes the active node and drives failover.
    - [Revocation.v], [RevocationFacts.v], [RevocationProps.v]: the
      revocation of remote access in [api/routes.py]: cleaning the live configuration,
      pushing it to the runtime, the fail-safe stop, the durable pending marker and its
      retry, the start guard of the supervisor and the guard of a rollback.  The record
      [around] holds the outcomes of everything outside.
    - [RwRoutes.v], [RwRoutesProps.v]: the handlers on top of it: PUT /rw, the client
      roster, xray start and stop, disconnect and POST /rollback.

    The controller composes the others as the code does: [apply_node] renders the
    configuration ([Builder], [Tuning], [Routing]) from the store ([Store]), writes it
    ([ConfigFiles]), reloads xray ([Supervisor]), installs the rules ([Enforcement]) and
    records the switch ([Store], [Events]).

    ** What is proved

    - A switch of the tunnel is all or nothing: a refused apply changes nothing, a
      successful one leaves files, process, host and store in agreement, a failed one
      ends on the previous tunnel or fail-closed, and a crash in the middle converges
      forward at boot ([ControllerProps]).
    - The kill switch never opens and the reported enforcement is earned
      ([EnforcementProps]).
    - A revocation whose writes were synced is never undone by a rollback, power cuts
      included, and a rollback restores only what was replaced ([ConfigFilesProps]).
    - A revoked client is cut off: a confirmed answer is true of the files and of the
      process, a crash in between is recoverable, the retry catches up as soon as xray can
      be stopped and calls itself finished only with the marker gone, no start and no rollback gives access back, and cleaning the
      configuration is equivalent to rebuilding it ([RevocationProps],
      [RwRoutesProps]).
    - The segment is never outside the rules: at every moment of a provisioning pass, each
      interface carrying a segment address is covered and tracked, whatever command fails and
      whether store calls raise or lose a write, as long as none leaves other text; a durable
      set names what it keeps through every such fault and that one too; an undo deletes only what
      the panel created and is settled only when nothing is owed ([ProvisionProps]).
    - The rendered rules mean what they should: the text is the printed form of rules whose
      effect on every packet of the segment is stated, other interfaces are untouched, the
      dnsmasq file has no line beyond its own ([RenderProps]); so at every moment of a pass on
      a Linux host what the segment forwards to a public address is dropped or proxied
      ([LinuxProps]).
    - A restore is atomic: every crash finds the old configuration or exactly the imported
      one (an IPv6 prefix it leaves empty is generated), a refusal costs nothing, and a success leaves the box disconnected and covered
      ([RestoreProps]); a backup comes back as it was but for one column, no document reaches
      the credentials or splits a key pair ([BackupProps]).
    - What a feed can put into the panel: only usable nodes, each entry counted, and exactly
      which of these nodes make every later backup fail ([FeedProps]).
    - A fetch never reaches an internal address, redirects and a lying resolver included,
      keeps the configured headers at home and each host's cookies with it, and returns a whole, bounded body ([FetchProps]);
      a refresh that fails costs nothing, never reverts a failover, never weakens the tunnel
      and leaves the stored node as the tunnel has it ([ServiceProps]).
    - One xray child at a time, started only with the guard's consent ([SupervisorProps]).
    - The generated configuration protects the gateway's loopback services, is never
      plaintext and grants exactly what the store grants ([BuilderProps]); a revoked
      client is in no configuration, and a client's profile has exactly the lines meant
      for it ([RwInboundProps]).
    - A feed never removes or weakens the active node and shrinks in two phases
      ([ReconcileProps]); failover acts only on evidence and does not ping-pong
      ([FailoverProps], [Selection]).
    - A rotated password ends the access given out before it, however requests interleave;
      the gates let through exactly what they should, the lockout table is bounded, the audit
      log misses no mutating request ([AuthProps]).
    - "Data used" counts no byte twice across failed flushes, restarts of xray and crashes, and
      loses none but those of a panel that crashed while xray was restarted; the recorder's
      memory is bounded and its loop paced ([TrafficProps]).
    - A crash loop is retried on a growing delay (except after a restart that raises) and files two events, a pending revocation is
      retried within ten minutes, a probe's verdict is written for the active node only
      ([LivenessProps]).
    - The store's tables: bounded logs, conserved traffic, consecutive failures, round
      trips, and exactly when a deletion is refused ([StoreProps], [SafeConn]).

    ** Conventions and bounds

    Integers are [Z]; Python's are unbounded, and SQLite's 64-bit range is not reached by
    the values stored.  Times are microseconds where the code uses floats of seconds.
    Strings are byte strings.  Exceptions are values ([exn] and sums); a run of the code
    is a function, so it terminates; [str_replace] uses the length of the text as fuel,
    which its lemmas show is enough.  Locks make the operations of a component atomic,
    as in the code.  What lies outside the repository is a parameter: [xray -test], the
    SHA-256 of a configuration, the outcome of writes, spawns, signals and probes, and
    the host's answers; so are [json.loads] and [json.dumps] and the table of private
    networks of [ipaddress].  SQLite statements fail only by breaking a constraint, except
    under provisioning, where every store call takes the next entry of a list of faults: it
    may raise, and a write may keep nothing or leave something else; and where the pending
    marker of a revocation is cleared, a write the code expects to fail ([clearing]).  A pass of provisioning
    is a [world] whose past is every moment it went through: one per command and per store
    write ([through]); installing rules is one moment.

    ** Not modelled

    The other HTTP routes and the schemas ([api/]), the schema migrations, the scheduler of
    refreshes, the sweep of all nodes, the socket probes and the threads and asyncio tasks
    around the loops, the readiness report and the counters read from nftables, the thinning
    of a traffic series, the gRPC clients and diagnosis.  They are I/O around the modelled
    core.  scrypt and SHA-256 are parameters of [Auth].  [yaml.load] is PyYAML's, a parameter of [Feed]; floating-point
    numbers in a feed and the NFKC check [urlsplit] makes of a host that is not ASCII are left
    out.  TLS, HTTP framing, zlib and the cookie parser are parameters of [Fetch]. *)
From Stdlib Require Import ZArith Lia Permutation Sorted.
From stdpp Require Import base gmap strings list.

(** * Notations and tactics *)

Declare Scope v2pi_scope.
Delimit Scope v2pi_scope with v2pi.

(** [o or d]: Python's [store.get_setting(k) or d].  A missing setting and an
    empty one are both falsy, so both give the default. *)
Definition str_or (o : option string) (d : string) : string :=
  match o with
  | Some EmptyString => d
  | Some s => s
  | None => d
  end.
Notation "o 'or' d" := (str_or o d) (at level 55, no associativity) : v2pi_scope.
Open Scope v2pi_scope.

(** Python's truth value of an optional string. *)
Definition truthy (o : option string) : bool :=
  match o with
  | Some EmptyString | None => false
  | Some _ => true
  end.

(** Truth value of an optional tri-state flag ([bool | None]). *)
Definition flag (o : option bool) : bool := default false o.

Create HintDb v2pi.

(** Splits every [if] on a boolean or a decision in the goal and the context,
    and closes what becomes contradictory. *)
Ltac split_ifs :=
  repeat (case_match; simplify_eq/=; try done).

(** Reduces a hypothesis [f x = Some y] / [= inr y] / [= (a, b)] by splitting the
    matches in it. *)
Ltac inv_match H :=
  repeat match type of H with
  | context [match ?x with _ => _ end] =>
      destruct x eqn:?; simplify_eq/=; try done
  end.

(** Closes goals of linear arithmetic that mention boolean comparisons. *)
Ltac zbool := repeat case_bool_decide; simplify_eq/=; lia.

(** * Optional strings *)

Lemma truthy_or o d : truthy o = true -> Some (o or d) = o.
Proof. by destruct o as [[|]|]. Qed.

Lemma falsy_or o d : truthy o = false -> o or d = d.
Proof. by destruct o as [[|]|]. Qed.


(** * Stable sorting

    [sorted(xs, key=k)] of Python is stable, and so is its [reverse=True] form:
    equal elements keep their order in both.  [before x y] says that [x] may
    stand before [y]; the sort inserts from the right, and an element goes in
    front of the first one it may precede, hence in front of its equals. *)
Section stable_sort.
Context {A : Type} (before : A -> A -> bool).

Fixpoint sort_insert (x : A) (l : list A) : list A :=
  match l with
  | [] => [x]
  | y :: l' => if before x y then x :: l else y :: sort_insert x l'
  end.

Fixpoint stable_sort (l : list A) : list A :=
  match l with
  | [] => []
  | x :: l' => sort_insert x (stable_sort l')
  end.

Lemma sort_insert_perm x l : Permutation (sort_insert x l) (x :: l).
Proof.
  induction l as [|y l IH]; simpl; [done|]. case_match; [done|].
  rewrite IH. constructor.
Qed.

Lemma stable_sort_perm l : Permutation (stable_sort l) l.
Proof.
  induction l as [|x l IH]; simpl; [done|]. by rewrite sort_insert_perm, IH.
Qed.

Lemma stable_sort_elem x l : x ∈ stable_sort l <-> x ∈ l.
Proof. by rewrite stable_sort_perm. Qed.

Lemma stable_sort_nil l : stable_sort l = [] <-> l = [].
Proof.
  split; [|by intros ->]. intros H.
  apply Permutation_nil. rewrite <- H. apply stable_sort_perm.
Qed.

Context (before_total : forall x y, before x y = false -> before y x = true).
Context (before_trans : forall x y z,
  before x y = true -> before y z = true -> before x z = true).

Lemma sort_insert_sorted x l :
  StronglySorted (fun a b => before a b = true) l ->
  StronglySorted (fun a b => before a b = true) (sort_insert x l).
Proof.
  induction 1 as [|y l Hl IH Hy]; simpl; [repeat constructor|].
  case_match eqn:E.
  - constructor; [by constructor|]. constructor; [done|].
    eapply List.Forall_impl; [|exact Hy]; simpl; eauto.
  - constructor; [done|]. rewrite sort_insert_perm.
    constructor; eauto.
Qed.

Lemma stable_sort_sorted l :
  StronglySorted (fun a b => before a b = true) (stable_sort l).
Proof.
  induction l; simpl; [constructor|]. by apply sort_insert_sorted.
Qed.

(** The head of the result may stand before every element. *)
Lemma stable_sort_head x xs l :
  (before x x = true) -> stable_sort l = x :: xs ->
  forall y, y ∈ l -> before x y = true.
Proof.
  intros Hr E y Hy. pose proof (stable_sort_sorted l) as Hs. rewrite E in Hs.
  apply stable_sort_elem in Hy. rewrite E in Hy.
  apply StronglySorted_inv in Hs as [_ Hs].
  apply elem_of_cons in Hy as [->|Hy]; [done|].
  by apply (proj1 (Forall_forall _ _) Hs).
Qed.

(** Stability: an equivalence class keeps its order. *)
Lemma sort_insert_filter (P : A -> Prop) `{forall x, Decision (P x)} x l :
  (forall y, P x -> P y -> before x y = true) ->
  filter P (sort_insert x l) = filter P (x :: l).
Proof.
  intros HP. induction l as [|y l IH]; simpl; [done|].
  case_match eqn:E; [done|].
  rewrite (filter_cons P y), IH, !(filter_cons P x), (filter_cons P y).
  repeat case_decide; try done. by rewrite HP in E.
Qed.

Lemma stable_sort_filter (P : A -> Prop) `{forall x, Decision (P x)} l :
  (forall x y, P x -> P y -> before x y = true) ->
  filter P (stable_sort l) = filter P l.
Proof.
  intros HP. induction l as [|x l IH]; simpl; [done|].
  rewrite sort_insert_filter by eauto.
  rewrite !(filter_cons P x), IH. done.
Qed.

(** Sorting a sorted list changes nothing. *)
Lemma stable_sort_id l :
  StronglySorted (fun a b => before a b = true) l -> stable_sort l = l.
Proof.
  induction 1 as [|x l Hl IH Hx]; simpl; [done|]. rewrite IH.
  destruct l as [|y l]; simpl; [done|]. inversion Hx; subst.
  by rewrite H1.
Qed.
End stable_sort.

(** * Lists *)

(** Python's [xs[-n:]] for [n > 0]. *)
Definition last_n {A} (n : nat) (l : list A) : list A := drop (length l - n) l.

Lemma last_n_length {A} n (l : list A) : length (last_n n l) = min n (length l).
Proof. unfold last_n. rewrite length_drop. lia. Qed.

Lemma last_n_all {A} n (l : list A) : length l <= n -> last_n n l = l.
Proof. intros. unfold last_n. by replace (length l - n) with 0 by lia. Qed.

(** [MAX(col)] of SQL over a column: NULL on the empty table. *)
Definition zmax_opt (l : list Z) : option Z :=
  match l with
  | [] => None
  | x :: l' => Some (foldr Z.max x l')
  end.

Lemma foldr_max_ge (l : list Z) d x : x ∈ l -> (x <= foldr Z.max d l)%Z.
Proof. induction 1; simpl; lia. Qed.

Lemma foldr_max_base (l : list Z) d : (d <= foldr Z.max d l)%Z.
Proof. induction l; simpl; lia. Qed.

Lemma zmax_opt_ge l x : x ∈ l -> exists m, zmax_opt l = Some m /\ (x <= m)%Z.
Proof.
  destruct l as [|y l]; [by intros ?%elem_of_nil|].
  intros Hx. exists (foldr Z.max y l). split; [done|].
  apply elem_of_cons in Hx as [->|Hx]; [apply foldr_max_base|].
  by apply foldr_max_ge.
Qed.

Lemma zmax_opt_elem l m : zmax_opt l = Some m -> m ∈ l.
Proof.
  destruct l as [|y l]; simpl; [done|]. intros [= <-].
  induction l as [|z l IH]; simpl; [constructor|].
  destruct (Z.max_dec z (foldr Z.max y l)) as [-> | ->]; [constructor; constructor|].
  apply elem_of_cons in IH as [->|IH]; [constructor|]. by repeat constructor.
Qed.

Lemma zmax_opt_None l : zmax_opt l = None <-> l = [].
Proof. by destruct l. Qed.

(** Sum of a column. *)
Definition zsum (l : list Z) : Z := foldr Z.add 0%Z l.

Lemma zsum_cons x l : zsum (x :: l) = (x + zsum l)%Z.
Proof. done. Qed.

Lemma zsum_app l1 l2 : zsum (l1 ++ l2) = (zsum l1 + zsum l2)%Z.
Proof. induction l1; simpl; lia. Qed.

Lemma zsum_perm l1 l2 : Permutation l1 l2 -> zsum l1 = zsum l2.
Proof. induction 1; simpl; lia. Qed.

Lemma zsum_nonneg l : Forall (fun z => 0 <= z)%Z l -> (0 <= zsum l)%Z.
Proof. induction 1; simpl; lia. Qed.
