(* ===== verification/PyStr.v ===== *)
(** Python strings and their conversions, as the panel uses them: [str.strip],
    [split], [startswith], [replace], [lower], slices, [int(text)], [str(int)],
    [float(text)] and [str(float)].

    A string is a list of bytes (Rocq's [string]); the panel's settings, node
    fields and rule values are ASCII.  A Python [float] that counts seconds is a
    [Z] of microseconds, the resolution [datetime] keeps: [py_float] reads a
    decimal literal to six places and [str_float] prints it back.  The spellings
    [inf], [nan] and exponents are outside the model ([py_float] answers [None],
    the [ValueError] case). *)
From Stdlib Require Import ZArith Lia Ascii DecimalString DecimalZ Decimal.
From stdpp Require Import base strings list.
From S2P Require Import Prelude.
Open Scope Z_scope.

(** * Characters *)

(** [c.isspace()] for ASCII: what [str.strip()] and [int()] remove. *)
Definition is_space (c : ascii) : bool :=
  let n := N_of_ascii c in
  ((9 <=? n) && (n <=? 13) || (28 <=? n) && (n <=? 32))%N.

Definition digit_of (c : ascii) : option Z :=
  let n := Z.of_N (N_of_ascii c) in
  if (48 <=? n) && (n <=? 57) then Some (n - 48) else None.

Definition char_of_digit (d : Z) : ascii := ascii_of_N (Z.to_N (48 + d)).

Definition is_digit (c : ascii) : bool :=
  match digit_of c with Some _ => true | None => false end.

Definition lower_char (c : ascii) : ascii :=
  let n := N_of_ascii c in
  if ((65 <=? n) && (n <=? 90))%N then ascii_of_N (n + 32) else c.

(** * Strings *)

Fixpoint str_all (p : ascii -> bool) (s : string) : bool :=
  match s with
  | EmptyString => true
  | String c s' => p c && str_all p s'
  end.

Fixpoint str_map (f : ascii -> ascii) (s : string) : string :=
  match s with
  | EmptyString => EmptyString
  | String c s' => String (f c) (str_map f s')
  end.

Definition lower : string -> string := str_map lower_char.

Fixpoint lstrip (s : string) : string :=
  match s with
  | EmptyString => EmptyString
  | String c s' => if is_space c then lstrip s' else s
  end.

Fixpoint rstrip (s : string) : string :=
  match s with
  | EmptyString => EmptyString
  | String c s' =>
      match rstrip s' with
      | EmptyString => if is_space c then EmptyString else String c EmptyString
      | t => String c t
      end
  end.

Definition strip (s : string) : string := rstrip (lstrip s).

(** [s.split(c)] with a one-character separator. *)
Fixpoint split_char (p : ascii -> bool) (s : string) : list string :=
  match s with
  | EmptyString => [EmptyString]
  | String c s' =>
      if p c then EmptyString :: split_char p s'
      else match split_char p s' with
           | t :: ts => String c t :: ts
           | [] => [String c EmptyString]
           end
  end.

Definition split_on (c : ascii) : string -> list string :=
  split_char (fun d => bool_decide (d = c)).

(** [s.isascii() and s.isdigit()]: not empty, digits only. *)
Definition all_digits (s : string) : bool := negb (bool_decide (s = ""%string)) && str_all is_digit s.

(** [sep.join(l)]. *)
Fixpoint join (sep : string) (l : list string) : string :=
  match l with
  | [] => EmptyString
  | [s] => s
  | s :: l' => (s +:+ sep +:+ join sep l')%string
  end.

(** [s.startswith(t)]. *)
Definition startswith (s t : string) : bool := String.prefix t s.

(** [s[n:]] and [s[:n]] for [n >= 0]. *)
Fixpoint str_drop (n : nat) (s : string) : string :=
  match n, s with
  | O, _ => s
  | S n', String _ s' => str_drop n' s'
  | S _, EmptyString => EmptyString
  end.

Fixpoint str_take (n : nat) (s : string) : string :=
  match n, s with
  | O, _ => EmptyString
  | S n', String c s' => String c (str_take n' s')
  | S _, EmptyString => EmptyString
  end.

(** [s[-n:]] for [n > 0]. *)
Definition str_last (n : nat) (s : string) : string :=
  str_drop (String.length s - n) s.

(** [s.replace(pat, rep)]: left to right, no overlaps.  The empty pattern, which
    Python inserts everywhere, is not used by the panel and is the identity.  The
    fuel is the length of the string: every step consumes a character. *)
Fixpoint replace_fuel (fuel : nat) (pat rep s : string) : string :=
  match fuel with
  | O => s
  | S fuel' =>
      match s with
      | EmptyString => EmptyString
      | String c s' =>
          if startswith s pat
          then (rep +:+ replace_fuel fuel' pat rep (str_drop (String.length pat) s))%string
          else String c (replace_fuel fuel' pat rep s')
      end
  end.

Definition str_replace (pat rep s : string) : string :=
  match pat with
  | EmptyString => s
  | _ => replace_fuel (String.length s) pat rep s
  end.

(** [sub in s]. *)
Fixpoint contains (sub s : string) : bool :=
  startswith s sub ||
  match s with
  | EmptyString => false
  | String _ s' => contains sub s'
  end.

Lemma str_take_length n s : (String.length (str_take n s) <= n)%nat.
Proof. revert s; induction n; intros [|c s]; simpl; [lia..|]. specialize (IHn s). lia. Qed.

Lemma str_take_all n s : (String.length s <= n)%nat -> str_take n s = s.
Proof. revert s; induction n; intros [|c s]; simpl; intros; try done; [lia|]. by rewrite IHn by lia. Qed.

Lemma str_take_idem n s : str_take n (str_take n s) = str_take n s.
Proof. apply str_take_all, str_take_length. Qed.

Lemma str_drop_length n s : String.length (str_drop n s) = (String.length s - n)%nat.
Proof. revert s; induction n; intros [|c s]; simpl; try lia. apply IHn. Qed.

Lemma str_last_length n s : (String.length (str_last n s) <= n)%nat.
Proof. unfold str_last. rewrite str_drop_length. lia. Qed.

Lemma str_app_nil s : (EmptyString +:+ s)%string = s.
Proof. done. Qed.

Lemma str_app_cons c s t : (String c s +:+ t)%string = String c (s +:+ t).
Proof. done. Qed.

Lemma prefix_spec t s : startswith s t = true <-> exists u, s = (t +:+ u)%string.
Proof.
  unfold startswith. revert s. induction t as [|c t IH]; intros s; simpl.
  - split; [by exists s | by destruct s].
  - destruct s as [|d s]; simpl; [by split; [|intros [u ?]]|].
    destruct (ascii_dec c d) as [->|Hn].
    + rewrite IH. split; intros [u Hu]; exists u; [by rewrite Hu|].
      by injection Hu.
    + split; [done|]. intros [u Hu]. by injection Hu as ->.
Qed.

Lemma str_all_app p s t : str_all p (s +:+ t)%string = str_all p s && str_all p t.
Proof. induction s; [done|]. rewrite str_app_cons. simpl. by rewrite IHs, andb_assoc. Qed.

Lemma lstrip_id s : str_all (fun c => negb (is_space c)) s = true -> lstrip s = s.
Proof.
  destruct s as [|c s]; simpl; [done|]. intros [H _]%andb_prop.
  by apply negb_true_iff in H as ->.
Qed.

Lemma rstrip_id s : str_all (fun c => negb (is_space c)) s = true -> rstrip s = s.
Proof.
  induction s as [|c s IH]; simpl; [done|]. intros [H1 H2]%andb_prop.
  rewrite (IH H2). apply negb_true_iff in H1 as ->. by destruct s.
Qed.

Lemma strip_id s : str_all (fun c => negb (is_space c)) s = true -> strip s = s.
Proof. intros H. unfold strip. by rewrite lstrip_id, rstrip_id. Qed.

(** Splitting yields no separator, and joining back restores the string. *)
Lemma split_char_clean p s :
  Forall (fun t => str_all (fun c => negb (p c)) t = true) (split_char p s).
Proof.
  induction s as [|c s IH]; simpl; [by repeat constructor|].
  destruct (p c) eqn:E; [by constructor|].
  destruct (split_char p s) as [|t ts]; simpl.
  - repeat constructor. simpl. by rewrite E.
  - inversion IH; subst. constructor; [|done]. simpl. by rewrite E.
Qed.

Lemma split_char_nonnil p s : split_char p s <> [].
Proof. destruct s; simpl; [done|]. case_match; [done|]. by case_match. Qed.

(** * Integers

    [int(text)]: surrounding white space, an optional sign, decimal digits with
    single underscores between them. *)
Fixpoint py_uint (prev_digit : bool) (s : string) : option uint :=
  match s with
  | EmptyString => if prev_digit then Some Nil else None
  | String "_" s' => if prev_digit then py_uint false s' else None
  | String c s' => uint_of_char c (py_uint true s')
  end.

Definition py_int (s : string) : option Z :=
  match strip s with
  | String "+" s' => Z.of_uint <$> py_uint false s'
  | String "-" s' => (fun d => - Z.of_uint d) <$> py_uint false s'
  | s' => Z.of_uint <$> py_uint false s'
  end.

(** [str(n)]. *)
Definition str_int (z : Z) : string := NilZero.string_of_int (Z.to_int z).

Lemma py_uint_string_of_uint d :
  py_uint true (NilEmpty.string_of_uint d) = Some d.
Proof. induction d; simpl; rewrite ?IHd; done. Qed.

Lemma py_uint_nonnil d :
  d <> Nil -> py_uint false (NilEmpty.string_of_uint d) = Some d.
Proof. destruct d; simpl; rewrite ?py_uint_string_of_uint; done. Qed.

Lemma string_of_uint_nospace d :
  str_all (fun c => negb (is_space c)) (NilEmpty.string_of_uint d) = true.
Proof. induction d; simpl; rewrite ?IHd; done. Qed.

Lemma pos_to_uint_nonnil p : Pos.to_uint p <> Nil.
Proof.
  intros H. pose proof (DecimalPos.Unsigned.of_to p) as Hp. rewrite H in Hp. done.
Qed.

Lemma nilzero_string d : d <> Nil -> NilZero.string_of_uint d = NilEmpty.string_of_uint d.
Proof. by destruct d. Qed.

Lemma py_int_digits d : d <> Nil -> py_int (NilEmpty.string_of_uint d) = Some (Z.of_uint d).
Proof.
  intros Hd. unfold py_int. rewrite (strip_id _ (string_of_uint_nospace d)).
  destruct d; try done; cbn [NilEmpty.string_of_uint py_uint uint_of_char];
    by rewrite py_uint_string_of_uint.
Qed.

(** Printing an integer and reading it back gives the integer. *)
Lemma py_int_str_int z : py_int (str_int z) = Some z.
Proof.
  unfold str_int. destruct z as [|p|p]; [done| |]; simpl.
  - rewrite nilzero_string, py_int_digits by apply pos_to_uint_nonnil.
    f_equal. apply (DecimalZ.of_to (Z.pos p)).
  - rewrite nilzero_string by apply pos_to_uint_nonnil.
    unfold py_int. rewrite strip_id by (simpl; apply string_of_uint_nospace).
    rewrite py_uint_nonnil by apply pos_to_uint_nonnil. simpl. f_equal.
    apply (DecimalZ.of_to (Z.neg p)).
Qed.

Lemma str_int_nonempty z : str_int z <> EmptyString.
Proof. intros H. pose proof (py_int_str_int z) as E. rewrite H in E. done. Qed.

Lemma truthy_str_int z : truthy (Some (str_int z)) = true.
Proof. pose proof (str_int_nonempty z). by destruct (str_int z). Qed.

Lemma str_int_inj z1 z2 : str_int z1 = str_int z2 -> z1 = z2.
Proof. intros H. pose proof (py_int_str_int z1) as E. rewrite H, py_int_str_int in E. congruence. Qed.

(** * Seconds *)

(** One second, in the model's microseconds. *)
Definition sec (n : Z) : Z := n * 1000000.

(** The fraction, digit by digit: [pad] completes it to six places and drops
    what is beyond the sixth; [trim] removes trailing zeros, keeping one digit. *)
Fixpoint frac_pad (n : nat) (l : list Z) : list Z :=
  match n, l with
  | O, _ => []
  | S n', [] => 0 :: frac_pad n' []
  | S n', d :: l' => d :: frac_pad n' l'
  end.

Fixpoint frac_trim0 (l : list Z) : list Z :=
  match l with
  | [] => []
  | d :: l' => match frac_trim0 l' with
               | [] => if d =? 0 then [] else [d]
               | t => d :: t
               end
  end.

Definition frac_trim (l : list Z) : list Z :=
  match frac_trim0 l with [] => [0] | t => t end.

Definition digits6 (f : Z) : list Z :=
  [f / 100000; f / 10000 mod 10; f / 1000 mod 10; f / 100 mod 10; f / 10 mod 10; f mod 10].

Definition digits_val (l : list Z) : Z := fold_left (fun a d => 10 * a + d) l 0.

Fixpoint digits_str (l : list Z) : string :=
  match l with
  | [] => EmptyString
  | d :: l' => String (char_of_digit d) (digits_str l')
  end.

Fixpoint str_digits (s : string) : option (list Z) :=
  match s with
  | EmptyString => Some []
  | String c s' => d ← digit_of c; l ← str_digits s'; Some (d :: l)
  end.

(** [str(x)] of a float: whole seconds, a point, the trimmed fraction. *)
Definition str_float (x : Z) : string :=
  let a := Z.abs x in
  ((if (x <? 0)%Z then "-" else "") +:+ str_int (a / 1000000) +:+ "." +:+
   digits_str (frac_trim (digits6 (a mod 1000000))))%string.

(** [float(text)] on decimal literals with an optional sign and fraction. *)
Definition py_ufloat (s : string) : option Z :=
  match split_on "." s with
  | [w] => (fun n => sec n) <$> (Z.of_uint <$> py_uint false w)
  | [w; f] =>
      n ← (if decide (w = "") then Some 0 else Z.of_uint <$> py_uint false w);
      ds ← str_digits f;
      if decide (w = "" /\ f = "") then None
      else Some (sec n + digits_val (frac_pad 6 ds))
  | _ => None
  end.

Definition py_float (s : string) : option Z :=
  match strip s with
  | String "+" s' => py_ufloat s'
  | String "-" s' => Z.opp <$> py_ufloat s'
  | s' => py_ufloat s'
  end.

Lemma frac_pad_trim0 l : frac_pad (length l) (frac_trim0 l) = l.
Proof.
  induction l as [|d l IH]; simpl; [done|].
  destruct (frac_trim0 l) as [|e t] eqn:E; simpl in *; [|by rewrite IH].
  destruct (d =? 0) eqn:Ed; simpl; rewrite IH; [|done]. f_equal. lia.
Qed.

Lemma frac_pad_trim l : length l = 6%nat -> frac_pad 6 (frac_trim l) = l.
Proof.
  intros H. pose proof (frac_pad_trim0 l) as E. rewrite H in E. unfold frac_trim.
  by destruct (frac_trim0 l).
Qed.

Lemma digits6_val f : 0 <= f < 1000000 -> digits_val (digits6 f) = f.
Proof. intros H. unfold digits_val, digits6. cbn [fold_left]. Z.to_euclidean_division_equations. lia. Qed.

Lemma digits6_range f : 0 <= f < 1000000 -> Forall (fun d => 0 <= d <= 9) (digits6 f).
Proof. intros H. unfold digits6. repeat constructor; Z.to_euclidean_division_equations; lia. Qed.

Lemma digit_of_char d : 0 <= d <= 9 -> digit_of (char_of_digit d) = Some d.
Proof.
  intros H. assert (d = 0 \/ d = 1 \/ d = 2 \/ d = 3 \/ d = 4 \/ d = 5 \/ d = 6 \/ d = 7 \/ d = 8 \/ d = 9)
    as Hd by lia.
  by repeat destruct Hd as [->|Hd]; try subst d.
Qed.

Lemma str_digits_str l :
  Forall (fun d => 0 <= d <= 9) l -> str_digits (digits_str l) = Some l.
Proof. induction 1 as [|d l Hd Hl IH]; simpl; [done|]. by rewrite digit_of_char, IH. Qed.

Lemma frac_trim0_range (P : Z -> Prop) l : Forall P l -> Forall P (frac_trim0 l).
Proof. induction 1; simpl; [done|]. destruct (frac_trim0 l); [case_match|]; auto using Forall_cons_2. Qed.

Lemma frac_trim_range l :
  Forall (fun d => 0 <= d <= 9) l -> Forall (fun d => 0 <= d <= 9) (frac_trim l).
Proof.
  intros H. unfold frac_trim. pose proof (frac_trim0_range _ l H).
  destruct (frac_trim0 l); [repeat constructor; lia|done].
Qed.

Lemma split_char_single p s :
  str_all (fun c => negb (p c)) s = true -> split_char p s = [s].
Proof.
  induction s as [|c s IH]; simpl; [done|]. intros [H1 H2]%andb_prop.
  apply negb_true_iff in H1 as ->. by rewrite IH.
Qed.

Lemma split_char_app p s c t :
  str_all (fun c => negb (p c)) s = true -> p c = true ->
  split_char p (s +:+ String c t)%string = s :: split_char p t.
Proof.
  intros Hs Hc. induction s as [|d s IH]; [by rewrite str_app_nil; simpl; rewrite Hc|].
  simpl in Hs. apply andb_prop in Hs as [H1 H2]. rewrite str_app_cons. simpl.
  apply negb_true_iff in H1 as ->. by rewrite IH.
Qed.

Lemma digits_str_all (q : ascii -> bool) l :
  (forall d, 0 <= d <= 9 -> q (char_of_digit d) = true) ->
  Forall (fun d => 0 <= d <= 9) l -> str_all q (digits_str l) = true.
Proof. intros Hq. induction 1; simpl; [done|]. by rewrite Hq. Qed.

Lemma digit_cases (P : Z -> Prop) :
  P 0 -> P 1 -> P 2 -> P 3 -> P 4 -> P 5 -> P 6 -> P 7 -> P 8 -> P 9 ->
  forall d, 0 <= d <= 9 -> P d.
Proof.
  intros. assert (d = 0 \/ d = 1 \/ d = 2 \/ d = 3 \/ d = 4 \/ d = 5 \/ d = 6 \/ d = 7 \/ d = 8 \/ d = 9)
    as Hd by lia.
  by repeat destruct Hd as [->|Hd]; try subst d.
Qed.

Lemma string_of_uint_all (q : ascii -> bool) d :
  (forall x, 0 <= x <= 9 -> q (char_of_digit x) = true) ->
  str_all q (NilEmpty.string_of_uint d) = true.
Proof.
  intros Hq. induction d; simpl; try done; rewrite IHd, andb_true_r;
  [apply (Hq 0)|apply (Hq 1)|apply (Hq 2)|apply (Hq 3)|apply (Hq 4)
  |apply (Hq 5)|apply (Hq 6)|apply (Hq 7)|apply (Hq 8)|apply (Hq 9)]; lia.
Qed.

(** A non-negative integer prints as digits. *)
Lemma str_int_uint n : 0 <= n ->
  exists d, str_int n = NilEmpty.string_of_uint d /\ d <> Nil /\ Z.of_uint d = n.
Proof.
  intros Hn. destruct n as [|p|p]; [|exists (Pos.to_uint p)|lia].
  - by exists (D0 Nil).
  - pose proof (pos_to_uint_nonnil p) as Hp. split_and!; [|done|].
    + unfold str_int. simpl. by rewrite nilzero_string.
    + apply (DecimalZ.of_to (Z.pos p)).
Qed.

Lemma py_ufloat_repr n ds :
  0 <= n -> Forall (fun d => 0 <= d <= 9) ds ->
  py_ufloat (str_int n +:+ "." +:+ digits_str ds)%string =
  Some (sec n + digits_val (frac_pad 6 ds)).
Proof.
  intros Hn Hds. destruct (str_int_uint n Hn) as (d & -> & Hd & Hv).
  unfold py_ufloat, split_on. rewrite str_app_cons, str_app_nil.
  rewrite split_char_app; [|apply string_of_uint_all; by apply digit_cases|done].
  rewrite split_char_single by (apply digits_str_all; [by apply digit_cases|done]).
  rewrite decide_False by (by destruct d).
  rewrite py_uint_nonnil by done. simpl. rewrite str_digits_str by done. simpl.
  rewrite decide_False by (intros [? _]; by destruct d). by rewrite Hv.
Qed.

Lemma py_float_unsigned n ds :
  0 <= n -> Forall (fun d => 0 <= d <= 9) ds ->
  py_float (str_int n +:+ "." +:+ digits_str ds)%string =
  py_ufloat (str_int n +:+ "." +:+ digits_str ds)%string.
Proof.
  intros Hn Hds. unfold py_float. destruct (str_int_uint n Hn) as (d & -> & Hd & _).
  rewrite strip_id; [by destruct d|].
  rewrite !str_all_app, string_of_uint_nospace, digits_str_all; [done| |done].
  by apply digit_cases.
Qed.

(** Printing a float and reading it back gives the float. *)
Lemma py_float_str_float x : py_float (str_float x) = Some x.
Proof.
  unfold str_float. pose proof (Z.mod_pos_bound (Z.abs x) 1000000) as Hm.
  set (ds := frac_trim _).
  assert (Forall (fun d => 0 <= d <= 9) ds) as Hds
    by (apply frac_trim_range, digits6_range; lia).
  assert (0 <= Z.abs x / 1000000) as Hq by (apply Z.div_pos; lia).
  assert (sec (Z.abs x / 1000000) + digits_val (frac_pad 6 ds) = Z.abs x) as Hv.
  { unfold ds. rewrite frac_pad_trim by done. rewrite digits6_val by lia.
    unfold sec. pose proof (Z.div_mod (Z.abs x) 1000000). lia. }
  destruct (x <? 0) eqn:E.
  - rewrite str_app_cons, str_app_nil. unfold py_float.
    rewrite strip_id.
    + rewrite py_ufloat_repr by done. rewrite Hv. simpl. f_equal. lia.
    + simpl. destruct (str_int_uint _ Hq) as (d & -> & _ & _).
      rewrite !str_all_app, string_of_uint_nospace, digits_str_all; [done| |done].
      by apply digit_cases.
  - rewrite str_app_nil, py_float_unsigned, py_ufloat_repr by done. rewrite Hv. f_equal. lia.
Qed.

Lemma truthy_str_float x : truthy (Some (str_float x)) = true.
Proof.
  pose proof (py_float_str_float x) as E.
  destruct (str_float x) eqn:H; [|done]. done.
Qed.

(** * White space and joined texts *)

Lemma str_all_strip p s : str_all p s = true -> str_all p (strip s) = true.
Proof.
  assert (forall s, str_all p s = true -> str_all p (lstrip s) = true) as Hl.
  { induction s0 as [|c s0 IH]; [done|]. cbn [str_all lstrip]. rewrite andb_true_iff. intros [H1 H2].
    destruct (is_space c); [auto|]. cbn [str_all]. by rewrite H1. }
  assert (forall s, str_all p s = true -> str_all p (rstrip s) = true) as Hr.
  { induction s0 as [|c s0 IH]; [done|]. cbn [str_all rstrip]. rewrite andb_true_iff. intros [H1 H2].
    specialize (IH H2). destruct (rstrip s0).
    - destruct (is_space c); [done|]. cbn [str_all]. by rewrite H1.
    - cbn [str_all] in *. by rewrite H1. }
  intros H. unfold strip. auto.
Qed.

Lemma lstrip_head s : match lstrip s with EmptyString => True | String c _ => is_space c = false end.
Proof. induction s as [|c s IH]; [done|]. simpl. destruct (is_space c) eqn:E; done. Qed.

Lemma rstrip_idem s : rstrip (rstrip s) = rstrip s.
Proof.
  induction s as [|c s IH]; [done|]. simpl. destruct (rstrip s) as [|d t] eqn:E.
  - destruct (is_space c) eqn:Ec; [done|]. simpl. by rewrite Ec.
  - change (rstrip (String c (String d t))) with
      (match rstrip (String d t) with EmptyString => if is_space c then EmptyString else String c EmptyString | u => String c u end).
    by rewrite IH.
Qed.

Lemma strip_idem s : strip (strip s) = strip s.
Proof.
  unfold strip. pose proof (lstrip_head s) as Hh. set (u := lstrip s) in *. clearbody u.
  assert (lstrip (rstrip u) = rstrip u) as ->; [|apply rstrip_idem].
  destruct u as [|c u]; [done|]. simpl. destruct (rstrip u); simpl; rewrite Hh; simpl; by rewrite ?Hh.
Qed.

(** Splitting a joined text gives back the pieces, when none of them holds a separator. *)
Lemma split_char_join p c l :
  p c = true -> l <> [] -> Forall (fun t => str_all (fun d => negb (p d)) t = true) l ->
  split_char p (join (String c "") l) = l.
Proof.
  intros Hc Hne HF. induction l as [|t l IH]; [done|]. inversion HF as [|? ? Ht HF']; subst.
  destruct l as [|u l]; [by apply split_char_single|].
  change (join (String c "") (t :: u :: l)) with (t +:+ String c "" +:+ join (String c "") (u :: l))%string.
  rewrite str_app_cons, str_app_nil, split_char_app by done. f_equal. by apply IH.
Qed.

Lemma split_on_join c l :
  l <> [] -> Forall (fun t => str_all (fun d => negb (bool_decide (d = c))) t = true) l ->
  split_on c (join (String c "") l) = l.
Proof. apply split_char_join. by apply bool_decide_true. Qed.

Create Rewrite HintDb pystr.
#[export] Hint Rewrite py_int_str_int py_float_str_float truthy_str_int truthy_str_float : pystr.
