(* ===== verification/Ip.v ===== *)
(** What the panel uses of Python's [ipaddress]: parsing IPv4 and IPv6 addresses and
    networks from text.  An address is its integer; a network is its version, its
    network address and its prefix length.  [None] is a ValueError. *)
From Stdlib Require Import ZArith Lia Ascii.
From stdpp Require Import base strings list.
From S2P Require Import Prelude PyStr.
Open Scope string_scope.
Open Scope list_scope.
Open Scope Z_scope.

(** * IPv4 *)

Definition leading_zero (s : string) : bool :=
  match s with String "0" (String _ _) => true | _ => false end.

Definition parse_octet (s : string) : option Z :=
  if negb (all_digits s) then None
  else if (3 <? String.length s)%nat then None
  else if leading_zero s then None
  else match py_int s with
       | Some v => if v <=? 255 then Some v else None
       | None => None
       end.

Definition ip4_parse (s : string) : option Z :=
  match mapM parse_octet (split_on "."%char s) with
  | Some [a; b; c; d] => Some (((a * 256 + b) * 256 + c) * 256 + d)
  | _ => None
  end.

Definition ip4_str (z : Z) : string :=
  join "." (str_int <$> [z / 16777216 mod 256; z / 65536 mod 256; z / 256 mod 256; z mod 256]).

(** * IPv6 *)

Definition hex_digit (c : ascii) : option Z :=
  let n := Z.of_N (N_of_ascii c) in
  if (48 <=? n) && (n <=? 57) then Some (n - 48)
  else if (65 <=? n) && (n <=? 70) then Some (n - 55)
  else if (97 <=? n) && (n <=? 102) then Some (n - 87)
  else None.

Definition is_hex (c : ascii) : bool := bool_decide (is_Some (hex_digit c)).

Fixpoint hex_val (acc : Z) (s : string) : option Z :=
  match s with
  | EmptyString => Some acc
  | String c s' => match hex_digit c with Some v => hex_val (16 * acc + v) s' | None => None end
  end.

(** [int("", 16)] raises. *)
Definition parse_hextet (s : string) : option Z :=
  if (4 <? String.length s)%nat then None
  else match s with EmptyString => None | _ => hex_val 0 s end.

(** The parts of the text, an IPv4 suffix read as two hextets: a hextet is its text or its value. *)
Inductive part := PText (s : string) | PVal (v : Z).

Definition part_val (p : part) : option Z :=
  match p with PText s => parse_hextet s | PVal v => Some v end.
Definition part_empty (p : part) : bool :=
  match p with PText s => bool_decide (s = "") | PVal _ => false end.

Definition ip6_parts (s : string) : option (list part) :=
  let parts := split_on ":"%char s in
  let suffix := List.last parts "" in
  if (length parts <? 3)%nat then None
  else if contains "." suffix then
    match ip4_parse suffix with
    | Some v => Some ((PText <$> take (length parts - 1) parts) ++ [PVal (v / 65536); PVal (v mod 65536)])
    | None => None
    end
  else Some (PText <$> parts).

(** The indices of the empty parts, the two ends left out. *)
Definition inner_empty (parts : list part) : list nat :=
  filter (fun i => from_option part_empty false (parts !! i) = true)
    (seq 1 (length parts - 2)).

Definition hextets_val (l : list Z) : Z := foldl (fun acc v => acc * 65536 + v) 0 l.

Definition ip6_int (s : string) : option Z :=
  match ip6_parts s with
  | None => None
  | Some parts =>
      if (9 <? length parts)%nat then None
      else
        let first_empty := from_option part_empty false (head parts) in
        let last_empty := from_option part_empty false (last parts) in
        match inner_empty parts with
        | [] =>
            if negb (bool_decide (length parts = 8%nat)) || first_empty || last_empty then None
            else hextets_val <$> mapM part_val parts
        | [i] =>
            let hi := if first_empty then (i - 1)%nat else i in
            let lo := if last_empty then (length parts - i - 2)%nat else (length parts - i - 1)%nat in
            if first_empty && negb (bool_decide (hi = 0%nat)) then None
            else if last_empty && negb (bool_decide (lo = 0%nat)) then None
            else if (8 <? hi + lo + 1)%nat then None
            else match mapM part_val (take hi parts), mapM part_val (drop (length parts - lo) parts) with
                 | Some h, Some l =>
                     Some (hextets_val (h ++ repeat 0 (8 - (hi + lo)) ++ l))
                 | _, _ => None
                 end
        | _ => None
        end
  end.

(** [ip_str.partition('%')]: the scope may be any text without another ['%']. *)
Fixpoint partition_pct (s : string) : string * option string :=
  match s with
  | EmptyString => (EmptyString, None)
  | String "%" s' => (EmptyString, Some s')
  | String c s' => let '(a, r) := partition_pct s' in (String c a, r)
  end.

Definition ip6_parse (s : string) : option Z :=
  if contains "/" s then None
  else match partition_pct s with
       | (a, None) => ip6_int a
       | (a, Some scope) =>
           if bool_decide (scope = "") || contains "%" scope then None else ip6_int a
       end.

(** * Networks *)

Record ipnet := IpNet { net_version : Z; net_addr : Z; net_prefix : Z }.

Definition net_width (v : Z) : Z := if v =? 4 then 32 else 128.

(** The length of a netmask written as [1*0*], from its value. *)
Fixpoint trailing_zeros (n : nat) (z : Z) : nat :=
  match n with
  | O => O
  | S n' => if Z.testbit z 0 then O else S (trailing_zeros n' (Z.shiftr z 1))
  end.

Definition prefix_from_ip_int (z : Z) : option Z :=
  let tz := Z.of_nat (trailing_zeros 32 z) in
  let p := 32 - tz in
  if Z.shiftr z tz =? Z.shiftl 1 p - 1 then Some p else None.

Definition prefix_from_prefix_string (width : Z) (s : string) : option Z :=
  if all_digits s then
    match py_int s with Some p => if p <=? width then Some p else None | None => None end
  else None.

Definition make_netmask4 (s : string) : option Z :=
  match prefix_from_prefix_string 32 s with
  | Some p => Some p
  | None =>
      match ip4_parse s with
      | None => None
      | Some z => match prefix_from_ip_int z with
                  | Some p => Some p
                  | None => prefix_from_ip_int (Z.lxor z 4294967295)
                  end
      end
  end.

(** [strict=False]: the host bits are cleared. *)
Definition mask_addr (width p z : Z) : Z := Z.shiftl (Z.shiftr z (width - p)) (width - p).

Definition ip4_network (s : string) : option ipnet :=
  match split_on "/"%char s with
  | [a] => (fun z => IpNet 4 z 32) <$> ip4_parse a
  | [a; m] =>
      match ip4_parse a, make_netmask4 m with
      | Some z, Some p => Some (IpNet 4 (mask_addr 32 p z) p)
      | _, _ => None
      end
  | _ => None
  end.

Definition ip6_network (s : string) : option ipnet :=
  match split_on "/"%char s with
  | [a] => (fun z => IpNet 6 z 128) <$> ip6_parse a
  | [a; m] =>
      match ip6_parse a, prefix_from_prefix_string 128 m with
      | Some z, Some p => Some (IpNet 6 (mask_addr 128 p z) p)
      | _, _ => None
      end
  | _ => None
  end.

(** [ip_network(s, strict=False)] and [ip_address(s)]. *)
Definition ip_network (s : string) : option ipnet :=
  match ip4_network s with Some n => Some n | None => ip6_network s end.

(** The version and the value. *)
Definition ip_address (s : string) : option (Z * Z) :=
  match ip4_parse s with
  | Some z => Some (4, z)
  | None => (fun z => (6, z)) <$> ip6_parse s
  end.

Definition net_broadcast (n : ipnet) : Z :=
  net_addr n + Z.shiftl 1 (net_width (net_version n) - net_prefix n) - 1.

(** [n.is_loopback] and [n.is_link_local]: both ends of the network are. *)
Definition addr_in (a base p width : Z) : bool := mask_addr width p a =? base.
Definition addr_loopback (v a : Z) : bool := if v =? 4 then addr_in a 2130706432 8 32 else a =? 1.
Definition addr_link_local (v a : Z) : bool :=
  if v =? 4 then addr_in a 2851995648 16 32 else addr_in a (Z.shiftl 65152 112) 10 128.
Definition net_loopback (n : ipnet) : bool :=
  addr_loopback (net_version n) (net_addr n) && addr_loopback (net_version n) (net_broadcast n).
Definition net_link_local (n : ipnet) : bool :=
  addr_link_local (net_version n) (net_addr n) && addr_link_local (net_version n) (net_broadcast n).

(** * Examples *)

Example ip4_ex1 : ip4_parse "192.168.10.2" = Some 3232238082.
Proof. by vm_compute. Qed.
Example ip4_ex2 : (ip4_parse "192.168.010.2", ip4_parse "1.2.3", ip4_parse "1.2.3.256", ip4_parse "") = (None, None, None, None).
Proof. by vm_compute. Qed.
Example ip6_ex : ip6_parse "fe80::1" = Some (Z.shiftl 65152 112 + 1) /\ ip6_parse "::" = Some 0 /\
  ip6_parse "1::2::3" = None /\ ip6_parse "1:2:3:4:5:6:7" = None /\ ip6_parse ":1::" = None /\
  ip6_parse "::ffff:1.2.3.4" = Some 281470698652420 /\ ip6_parse "1:2:3:4:5:6:7::" = Some 5192455318486707404433266433261568 /\
  ip6_parse "fe80::1%eth0" = ip6_parse "fe80::1" /\ ip6_parse "fe80::1%" = None.
Proof. by vm_compute. Qed.
Example net_ex : ip_network "10.1.2.3/8" = Some (IpNet 4 167772160 8) /\
  ip_network "10.0.0.0/255.0.0.0" = Some (IpNet 4 167772160 8) /\
  ip_network "10.0.0.0/0.255.255.255" = Some (IpNet 4 167772160 8) /\
  ip_network "fe80::/10" = Some (IpNet 6 (Z.shiftl 65152 112) 10) /\ ip_network "1.2.3.4/33" = None /\
  ip_network "10.0.0.0/255.0.255.0" = None.
Proof. by vm_compute. Qed.

(** * Which characters an accepted text has *)

Lemma split_char_all p q s : Forall (fun t => str_all q t = true) (split_char p s) -> str_all (fun c => p c || q c) s = true.
Proof.
  induction s as [|c s IH]; [done|]. simpl. destruct (p c); simpl.
  - intros HF. apply Forall_cons in HF as [_ HF]. auto.
  - pose proof (split_char_nonnil p s) as Hn. destruct (split_char p s) as [|t ts]; [done|].
    intros HF. apply Forall_cons in HF as [Ht HF]. simpl in Ht. apply andb_true_iff in Ht as [-> Ht].
    apply IH. by constructor.
Qed.

Lemma str_all_impl (p q : ascii -> bool) s :
  (forall c, p c = true -> q c = true) -> str_all p s = true -> str_all q s = true.
Proof.
  intros Hpq. induction s as [|c s IH]; [done|]. simpl. rewrite !andb_true_iff. intros [H1 H2]. auto.
Qed.

Definition addr_char (c : ascii) : bool := is_digit c || bool_decide (c = "."%char) || bool_decide (c = "/"%char).

Lemma all_digits_addr s : all_digits s = true -> str_all addr_char s = true.
Proof.
  unfold all_digits. rewrite andb_true_iff. intros [_ H]. eapply str_all_impl; [|exact H].
  intros c Hc. unfold addr_char. by rewrite Hc.
Qed.

Lemma parse_octet_digits s v : parse_octet s = Some v -> all_digits s = true.
Proof. unfold parse_octet. by destruct (all_digits s). Qed.

Lemma ip4_chars s z : ip4_parse s = Some z -> str_all addr_char s = true.
Proof.
  unfold ip4_parse. destruct (mapM parse_octet (split_on "." s)) as [l|] eqn:E; [|done]. intros _.
  apply mapM_Some in E. eapply str_all_impl; [|apply (split_char_all (fun d => bool_decide (d = "."%char)) is_digit)].
  - intros c. unfold addr_char. destruct (is_digit c), (bool_decide (c = "."%char)); done.
  - apply Forall_forall. intros t Ht. eapply list_elem_of_lookup in Ht as [i Hi].
    destruct (Forall2_lookup_l _ _ _ _ _ E Hi) as (v & _ & Hv). apply parse_octet_digits in Hv.
    unfold all_digits in Hv. by apply andb_true_iff in Hv as [_ Hv].
Qed.

Lemma ip4_network_chars s n : ip4_network s = Some n -> str_all addr_char s = true.
Proof.
  unfold ip4_network. intros E.
  assert (Forall (fun t => str_all addr_char t = true) (split_on "/"%char s)) as HF.
  { destruct (split_on "/"%char s) as [|a [|m [|]]]; try done.
    - destruct (ip4_parse a) eqn:Ea; [|done]. repeat constructor. by eapply ip4_chars.
    - destruct (ip4_parse a) eqn:Ea; [|done]. destruct (make_netmask4 m) as [p|] eqn:Em; [|done].
      constructor; [by eapply ip4_chars|]. repeat constructor. unfold make_netmask4, prefix_from_prefix_string in Em.
      destruct (all_digits m) eqn:Ed; [by apply all_digits_addr|].
      destruct (ip4_parse m) eqn:E4; [by eapply ip4_chars|done]. }
  apply split_char_all in HF. eapply str_all_impl; [|exact HF]. intros c. unfold addr_char.
  destruct (bool_decide (c = "/"%char)); rewrite ?orb_true_r; done.
Qed.
