(* ===== verification/IpText.v ===== *)
(** Printing addresses: what the panel uses of Python's [ipaddress.ip_interface] and of
    the text of an address.  [ip_interface] reads an address with its prefix length and
    [with_prefixlen] prints it in one canonical spelling: IPv4 in dotted decimal, IPv6 as
    lower-case hextets with the first longest run of zeros written ["::"].  Printing and
    reading are inverse, so the canonical spelling is a fixed point of reading. *)
From Stdlib Require Import ZArith Lia Ascii.
From stdpp Require Import base strings list.
From S2P Require Import Prelude PyStr Ip.
Open Scope string_scope.
Open Scope list_scope.
Open Scope Z_scope.

(** * Printing IPv6 *)

Definition hex_char (d : Z) : ascii := ascii_of_N (Z.to_N (if d <? 10 then 48 + d else 87 + d)).

(** ['%x' % v] for [0 <= v < 65536]. *)
Definition hextet_str (v : Z) : string :=
  let d3 := v / 4096 in let d2 := v / 256 mod 16 in let d1 := v / 16 mod 16 in let d0 := v mod 16 in
  if 0 <? d3 then String (hex_char d3) (String (hex_char d2) (String (hex_char d1) (String (hex_char d0) "")))
  else if 0 <? d2 then String (hex_char d2) (String (hex_char d1) (String (hex_char d0) ""))
  else if 0 <? d1 then String (hex_char d1) (String (hex_char d0) "")
  else String (hex_char d0) "".

Definition hextets (z : Z) : list Z :=
  (fun i => z / 2 ^ (16 * i) mod 65536) <$> [7; 6; 5; 4; 3; 2; 1; 0].

(** The loop of [_compress_hextets]: the first longest run of zeros, as start and length. *)
Record runs := Runs { best_start : nat; best_len : nat; cur_start : option nat; cur_len : nat }.
Definition run_step (r : runs) (ix : nat * string) : runs :=
  if bool_decide (ix.2 = "0") then
    let len := S (cur_len r) in
    let start := default ix.1 (cur_start r) in
    if (best_len r <? len)%nat then Runs start len (Some start) len
    else Runs (best_start r) (best_len r) (Some start) len
  else Runs (best_start r) (best_len r) None 0.
Definition best_run (hs : list string) : nat * nat :=
  let r := foldl run_step (Runs 0 0 None 0) (imap pair hs) in (best_start r, best_len r).

Definition compress (start len : nat) (hs : list string) : list string :=
  if (1 <? len)%nat then
    let stop := (start + len)%nat in
    let hs' := if (stop =? length hs)%nat then hs ++ [""] else hs in
    let hs'' := take start hs' ++ [""] ++ drop stop hs' in
    if (start =? 0)%nat then "" :: hs'' else hs''
  else hs.

Definition ip6_str (z : Z) : string :=
  let hs := hextet_str <$> hextets z in
  let '(start, len) := best_run hs in join ":" (compress start len hs).

(** * Interfaces: an address with a prefix length *)

Record ipface := IpFace { if_version : Z; if_addr : Z; if_prefix : Z }.
#[export] Instance ipface_eq : EqDecision ipface.
Proof. solve_decision. Defined.

Definition ip4_interface (s : string) : option ipface :=
  match split_on "/"%char s with
  | [a] => (fun z => IpFace 4 z 32) <$> ip4_parse a
  | [a; m] =>
      match ip4_parse a, make_netmask4 m with
      | Some z, Some p => Some (IpFace 4 z p)
      | _, _ => None
      end
  | _ => None
  end.

Definition ip6_interface (s : string) : option ipface :=
  match split_on "/"%char s with
  | [a] => (fun z => IpFace 6 z 128) <$> ip6_parse a
  | [a; m] =>
      match ip6_parse a, prefix_from_prefix_string 128 m with
      | Some z, Some p => Some (IpFace 6 z p)
      | _, _ => None
      end
  | _ => None
  end.

Definition ip_interface (s : string) : option ipface :=
  match ip4_interface s with Some f => Some f | None => ip6_interface s end.

Definition addr_str (version z : Z) : string := if version =? 4 then ip4_str z else ip6_str z.
Definition with_prefixlen (f : ipface) : string :=
  addr_str (if_version f) (if_addr f) +:+ "/" +:+ str_int (if_prefix f).

(** * Reading back *)

(** Decides a property of every byte by evaluation. *)
Definition bytes_list : list Z := Eval vm_compute in (Z.of_nat <$> seq 0 256).
Lemma for_byte (P : Z -> bool) : forallb P bytes_list = true -> forall v, 0 <= v < 256 -> P v = true.
Proof.
  intros H v Hv. rewrite forallb_forall in H. apply H. change bytes_list with (map Z.of_nat (seq 0 256)).
  apply in_map_iff. exists (Z.to_nat v). split; [lia|]. apply in_seq. lia.
Qed.
Definition hex_plain (c : ascii) : bool := is_hex c && negb (bool_decide (c = ":"%char)) && negb (bool_decide (c = "."%char)).

Lemma hex_char_facts d : 0 <= d < 16 -> hex_digit (hex_char d) = Some d /\ hex_plain (hex_char d) = true.
Proof.
  intros Hd. pose proof (for_byte (fun d => (16 <=? d) || (bool_decide (hex_digit (hex_char d) = Some d) && hex_plain (hex_char d)))) as H.
  specialize (H ltac:(by vm_compute) d ltac:(lia)). simpl in H. destruct (Z.leb_spec 16 d); [lia|].
  apply andb_true_iff in H as [H ?]. by apply bool_decide_eq_true in H.
Qed.

Lemma hextet_facts v : 0 <= v < 65536 ->
  parse_hextet (hextet_str v) = Some v /\ str_all hex_plain (hextet_str v) = true /\ hextet_str v <> "" /\
  (hextet_str v = "0" -> v = 0).
Proof.
  intros Hv. pose proof (Z.div_mod v 4096 ltac:(lia)) as E3. pose proof (Z.div_mod (v / 256) 16 ltac:(lia)) as E2.
  pose proof (Z.div_mod (v / 16) 16 ltac:(lia)) as E1. pose proof (Z.div_mod v 16 ltac:(lia)) as E0.
  rewrite Z.div_div in E2, E1 by lia. change (256 * 16) with 4096 in E2. change (16 * 16) with 256 in E1.
  pose proof (Z.div_pos v 4096 ltac:(lia) ltac:(lia)). pose proof (Z.div_lt_upper_bound v 4096 16 ltac:(lia) ltac:(lia)).
  pose proof (Z.mod_pos_bound (v / 256) 16 ltac:(lia)). pose proof (Z.mod_pos_bound (v / 16) 16 ltac:(lia)).
  pose proof (Z.mod_pos_bound v 16 ltac:(lia)).
  destruct (hex_char_facts (v / 4096) ltac:(lia)) as [D3 P3]. destruct (hex_char_facts (v / 256 mod 16) ltac:(lia)) as [D2 P2].
  destruct (hex_char_facts (v / 16 mod 16) ltac:(lia)) as [D1 P1]. destruct (hex_char_facts (v mod 16) ltac:(lia)) as [D0 P0].
  unfold hextet_str, parse_hextet.
  destruct (Z.ltb_spec 0 (v / 4096)); [|destruct (Z.ltb_spec 0 (v / 256 mod 16)); [|destruct (Z.ltb_spec 0 (v / 16 mod 16))]];
    cbn -[hex_char Z.mul Z.add Z.div Z.modulo]; rewrite ?P3, ?P2, ?P1, ?P0, ?D3, ?D2, ?D1, ?D0;
    (split_and!; [f_equal; lia|done|done|]); try discriminate.
  intros [= E]. rewrite E in D0. injection D0 as E'. lia.
Qed.

Lemma octet_facts v : 0 <= v < 256 -> parse_octet (str_int v) = Some v /\ str_all is_digit (str_int v) = true.
Proof.
  intros Hv. pose proof (for_byte (fun v => bool_decide (parse_octet (str_int v) = Some v) && str_all is_digit (str_int v))) as H.
  specialize (H ltac:(by vm_compute) v Hv). simpl in H. apply andb_true_iff in H as [H ?].
  by apply bool_decide_eq_true in H.
Qed.

Definition zeros (hs : list string) (start len : nat) : Prop :=
  forall i, (start <= i < start + len)%nat -> hs !! i = Some "0".

Lemma best_run_zeros hs :
  let r := foldl run_step (Runs 0 0 None 0) (imap pair hs) in
  (best_start r + best_len r <= length hs)%nat /\ zeros hs (best_start r) (best_len r) /\
  match cur_start r with
  | Some c => (c + cur_len r)%nat = length hs /\ zeros hs c (cur_len r)
  | None => cur_len r = 0%nat
  end.
Proof.
  assert (forall hs x a n, zeros hs a n -> (a + n <= length hs)%nat -> zeros (hs ++ [x]) a n) as Hold.
  { intros l x a n Hz Hn i Hi. rewrite lookup_app_l by lia. by apply Hz. }
  induction hs as [|x hs (Hb & Hz & Hc)] using rev_ind; simpl; [split_and!; [lia|intros i Hi; lia|done]|].
  rewrite imap_app, foldl_app. simpl. rewrite Nat.add_0_r, length_app. simpl.
  set (r := foldl run_step _ _) in *. unfold run_step. simpl. case_bool_decide as Ex; [subst x|].
  - assert (default (length hs) (cur_start r) + S (cur_len r) = length hs + 1)%nat as Hlen
      by (destruct (cur_start r); simpl; lia).
    assert (zeros (hs ++ ["0"]) (default (length hs) (cur_start r)) (S (cur_len r))) as Hcz.
    { intros i Hi. destruct (decide (i = length hs)) as [->|].
      - by rewrite lookup_app_r, Nat.sub_diag by lia.
      - rewrite lookup_app_l by lia. destruct (cur_start r) as [c|]; simpl in *; [apply Hc; lia|lia]. }
    destruct (Nat.ltb_spec (best_len r) (S (cur_len r))); simpl; split_and!; try done; try lia. by apply Hold.
  - simpl. split_and!; [lia|by apply Hold|done].
Qed.

Definition word (v : Z) : Prop := 0 <= v < 65536.

Lemma plain_no_colon t : str_all hex_plain t = true -> str_all (fun d => negb (bool_decide (d = ":"%char))) t = true.
Proof.
  apply str_all_impl. intros c. unfold hex_plain. rewrite !andb_true_iff. by intros [[_ ?] _].
Qed.
Lemma contains_none c t : str_all (fun d => negb (bool_decide (d = c))) t = true -> contains (String c "") t = false.
Proof.
  induction t as [|d t IH]; [done|]. cbn [str_all contains]. rewrite andb_true_iff. intros [Hd Ht]. rewrite IH, orb_false_r by done.
  apply not_true_iff_false. intros [u Hu]%prefix_spec. rewrite str_app_cons in Hu. injection Hu as -> _.
  by rewrite bool_decide_true in Hd.
Qed.
Lemma plain_no_dot t : str_all hex_plain t = true -> contains "." t = false.
Proof.
  intros H. apply contains_none. eapply str_all_impl; [|exact H]. intros c. unfold hex_plain. rewrite !andb_true_iff. by intros [_ ?].
Qed.

Lemma read_parts parts :
  (3 <= length parts)%nat -> Forall (fun t => str_all hex_plain t = true) parts ->
  ip6_parts (join ":" parts) = Some (PText <$> parts).
Proof.
  intros Hl HF. unfold ip6_parts. rewrite split_on_join.
  - destruct (Nat.ltb_spec (length parts) 3); [lia|]. rewrite plain_no_dot; [done|].
    destruct parts as [|t ts _] using rev_ind; [done|]. rewrite List.last_last. apply Forall_app in HF as [_ HF]. by inversion HF.
  - intros ->. simpl in Hl. lia.
  - eapply Forall_impl; [exact HF|]. intros t. apply plain_no_colon.
Qed.

(** Eight hextets, printed with any run of zeros of them compressed, read back. *)
Lemma read_compressed l start len :
  length l = 8%nat -> Forall word l -> (start + len <= 8)%nat -> zeros (hextet_str <$> l) start len ->
  ip6_int (join ":" (compress start len (hextet_str <$> l))) = Some (hextets_val l).
Proof.
  intros Hl HF Hn Hz.
  destruct l as [|a [|b [|c [|d [|e [|f [|g [|h [|]]]]]]]]]; try done.
  repeat match goal with H : Forall word (_ :: _) |- _ => apply Forall_cons in H as [? H] end. clear HF Hl.
  assert (forall v i, word v -> (hextet_str <$> [a; b; c; d; e; f; g; h]) !! i = Some (hextet_str v) ->
    (start <= i < start + len)%nat -> v = 0) as Hzero.
  { intros v i Hv Hi Hr. rewrite (Hz i Hr) in Hi. injection Hi as Hi. by apply hextet_facts. }
  assert (forall v, word v -> parse_hextet (hextet_str v) = Some v /\ str_all hex_plain (hextet_str v) = true /\
    bool_decide (hextet_str v = "") = false) as Hf.
  { intros v Hv. destruct (hextet_facts v Hv) as (? & ? & ? & _). by rewrite bool_decide_false. }
  clear Hz. unfold ip6_int. cbn [fmap list_fmap] in *.
  destruct start as [|[|[|[|[|[|[|[|[|]]]]]]]]]; [..|lia]; destruct len as [|[|[|[|[|[|[|[|[|]]]]]]]]]; try lia; clear Hn.
  all: try (assert (a = 0) as -> by (apply (Hzero a 0%nat); [done|done|lia])).
  all: try (assert (b = 0) as -> by (apply (Hzero b 1%nat); [done|done|lia])).
  all: try (assert (c = 0) as -> by (apply (Hzero c 2%nat); [done|done|lia])).
  all: try (assert (d = 0) as -> by (apply (Hzero d 3%nat); [done|done|lia])).
  all: try (assert (e = 0) as -> by (apply (Hzero e 4%nat); [done|done|lia])).
  all: try (assert (f = 0) as -> by (apply (Hzero f 5%nat); [done|done|lia])).
  all: try (assert (g = 0) as -> by (apply (Hzero g 6%nat); [done|done|lia])).
  all: try (assert (h = 0) as -> by (apply (Hzero h 7%nat); [done|done|lia])).
  all: clear Hzero.
  all: rewrite read_parts; [|by cbn; lia|cbn; repeat (apply Forall_cons; split; [first [done|by apply Hf]|]); apply Forall_nil_2].
  all: unfold inner_empty; cbn -[hextet_str parse_hextet hextets_val].
  all: repeat match goal with Hw : word ?v |- context [bool_decide (hextet_str ?v = "")] => rewrite (proj2 (proj2 (Hf v Hw))) end.
  all: lazy -[hextet_str parse_hextet hextets_val].
  all: repeat match goal with Hw : word ?v |- context [parse_hextet (hextet_str ?v)] => rewrite (proj1 (Hf v Hw)); lazy -[hextet_str parse_hextet hextets_val] end.
  all: reflexivity.
Qed.

Lemma hextets_facts z : 0 <= z < 2 ^ 128 ->
  length (hextets z) = 8%nat /\ Forall word (hextets z) /\ hextets_val (hextets z) = z.
Proof.
  intros Hz. split; [done|]. split.
  { unfold hextets. apply Forall_fmap, Forall_true. intros i. apply Z.mod_pos_bound. lia. }
  unfold hextets, hextets_val. cbn [fmap list_fmap foldl].
  set (q i := z / 2 ^ (16 * i)).
  assert (forall i j, 0 <= i -> j = i + 1 -> q i = 65536 * q j + q i mod 65536) as Hd.
  { intros i j Hi ->. unfold q. rewrite Z.mul_add_distr_l, Z.pow_add_r, <- Z.div_div by lia. apply Z.div_mod. lia. }
  assert (q 8 = 0) as H8 by (apply Z.div_small; lia). assert (q 0 = z) as H0 by (apply Z.div_1_r).
  change (z / 2 ^ (16 * 7)) with (q 7). change (z / 2 ^ (16 * 6)) with (q 6). change (z / 2 ^ (16 * 5)) with (q 5).
  change (z / 2 ^ (16 * 4)) with (q 4). change (z / 2 ^ (16 * 3)) with (q 3). change (z / 2 ^ (16 * 2)) with (q 2).
  change (z / 2 ^ (16 * 1)) with (q 1). change (z / 2 ^ (16 * 0)) with (q 0). transitivity (q 0); [|done]. clearbody q.
  pose proof (Hd 0 1). pose proof (Hd 1 2). pose proof (Hd 2 3). pose proof (Hd 3 4).
  pose proof (Hd 4 5). pose proof (Hd 5 6). pose proof (Hd 6 7). pose proof (Hd 7 8). lia.
Qed.

Definition face_char (c : ascii) : bool := is_hex c || bool_decide (c = ":"%char) || bool_decide (c = "."%char) || bool_decide (c = "/"%char).

Lemma str_all_join (q : ascii -> bool) sep l :
  str_all q sep = true -> Forall (fun t => str_all q t = true) l -> str_all q (join sep l) = true.
Proof.
  intros Hs HF. induction HF as [|t l Ht HF IH]; [done|]. destruct l as [|u l]; [done|].
  change (join sep (t :: u :: l)) with (t +:+ sep +:+ join sep (u :: l)). by rewrite !str_all_app, Ht, Hs, IH.
Qed.

Lemma contains_app_l c s t : contains c s = true -> contains c (s +:+ t) = true.
Proof.
  induction s as [|d s IH]; [|].
  - destruct c; [|done]. by destruct t.
  - rewrite str_app_cons. cbn [contains]. rewrite !orb_true_iff. intros [H|H]; [left|right; auto].
    apply prefix_spec in H as [u Hu]. apply prefix_spec. exists (u +:+ t). rewrite <- str_app_cons, Hu.
    clear. induction c as [|e c IH]; [done|]. by rewrite !str_app_cons, IH.
Qed.
Lemma contains_suffix c s t : contains c t = true -> contains c (s +:+ t) = true.
Proof.
  intros H. induction s as [|d s IH]; [done|]. rewrite str_app_cons. cbn [contains]. by rewrite IH, orb_true_r.
Qed.
Lemma contains_join (sep t u : string) l : contains sep (join sep (t :: u :: l)) = true.
Proof.
  change (join sep (t :: u :: l)) with (t +:+ sep +:+ join sep (u :: l)). apply contains_suffix, contains_app_l. destruct sep as [|c sep]; [done|].
  cbn [contains]. rewrite orb_true_iff. left. apply prefix_spec. exists "". clear. induction sep as [|e sep IH]; [done|].
  injection IH as IH. by rewrite !str_app_cons, <- IH.
Qed.

(** The text of an IPv6 address reads back as the address. *)
Lemma ip6_str_read z : 0 <= z < 2 ^ 128 ->
  ip6_int (ip6_str z) = Some z /\ str_all (fun c => is_hex c || bool_decide (c = ":"%char)) (ip6_str z) = true /\
  contains ":" (ip6_str z) = true.
Proof.
  intros Hz. destruct (hextets_facts z Hz) as (Hl & HF & Hv). unfold ip6_str, best_run.
  set (hs := hextet_str <$> hextets z). destruct (best_run_zeros hs) as (Hb & Hr & _).
  set (r := foldl run_step _ _) in *. assert (length hs = 8%nat) as H8 by done.
  pose proof (read_compressed (hextets z) (best_start r) (best_len r) Hl HF ltac:(lia) Hr) as E. rewrite Hv in E. fold hs in E.
  split; [exact E|]. assert (Forall (fun t => str_all hex_plain t = true) hs) as Hp.
  { apply Forall_fmap. eapply Forall_impl; [exact HF|]. intros v Hw. by apply hextet_facts. }
  assert (Forall (fun t => str_all hex_plain t = true) (compress (best_start r) (best_len r) hs)) as Hc.
  { unfold compress. clear E. clearbody hs r.
    assert (Forall (fun t => str_all hex_plain t = true) (if (best_start r + best_len r =? length hs)%nat then hs ++ [""] else hs)) as Hh.
    { destruct (_ =? _)%nat; [|done]. apply Forall_app. split; [done|by repeat constructor]. }
    destruct (1 <? best_len r)%nat; [|done]. set (hs' := if (_ =? _)%nat then _ else _) in *.
    assert (Forall (fun t => str_all hex_plain t = true) (take (best_start r) hs' ++ [""] ++ drop (best_start r + best_len r) hs')) as Hi.
    { apply Forall_app. split; [by apply Forall_take|]. constructor; [done|by apply Forall_drop]. }
    destruct (best_start r =? 0)%nat; [by constructor|done]. }
  split.
  - apply str_all_join; [done|]. eapply Forall_impl; [exact Hc|]. intros t. apply str_all_impl. intros c.
    unfold hex_plain. rewrite !andb_true_iff. by intros [[-> _] _].
  - destruct (compress (best_start r) (best_len r) hs) as [|t [|u l]] eqn:Ec; [| |apply contains_join].
    + done.
    + simpl in E. unfold ip6_int, ip6_parts in E. unfold split_on in E. rewrite split_char_single in E; [done|].
      apply Forall_cons in Hc as [Ht _]. by apply plain_no_colon.
Qed.

(** * The canonical spelling is a fixed point *)

Lemma uint_nonneg d : 0 <= Z.of_uint d.
Proof. unfold Z.of_uint. lia. Qed.

Lemma digits_nonneg s v : all_digits s = true -> py_int s = Some v -> 0 <= v.
Proof.
  unfold all_digits. rewrite andb_true_iff. intros [Hne Hd]. unfold py_int. rewrite strip_id.
  - destruct s as [|c s]; [done|]. simpl in Hd. apply andb_true_iff in Hd as [Hc _]. intros E.
    assert (c <> "-"%char) as Hm by (intros ->; done). assert (c <> "+"%char) as Hp by (intros ->; done).
    assert (Z.of_uint <$> py_uint false (String c s) = Some v) as E'.
    { rewrite <- E. clear -Hm Hp. destruct c as [[] [] [] [] [] [] [] []]; congruence || done. }
    destruct (py_uint false (String c s)) as [d|]; [|done]. injection E' as <-. apply uint_nonneg.
  - eapply str_all_impl; [|exact Hd]. intros c. unfold is_digit, is_space. destruct c as [[] [] [] [] [] [] [] []]; done.
Qed.

Lemma octet_range s v : parse_octet s = Some v -> 0 <= v < 256.
Proof.
  intros E. pose proof (parse_octet_digits s v E) as Hd. unfold parse_octet in E. rewrite Hd in E. simpl in E.
  destruct (3 <? _)%nat; [done|]. destruct (leading_zero s); [done|]. destruct (py_int s) as [w|] eqn:Ew; [|done].
  apply digits_nonneg in Ew; [|done]. destruct (Z.leb_spec w 255); simplify_eq. lia.
Qed.

Lemma ip4_range s z : ip4_parse s = Some z -> 0 <= z < 2 ^ 32.
Proof.
  unfold ip4_parse. destruct (mapM parse_octet _) as [l|] eqn:E; [|done]. apply mapM_Some in E.
  assert (Forall (fun v => 0 <= v < 256) l) as HF.
  { apply Forall_lookup. intros i v Hi. destruct (Forall2_lookup_r _ _ _ _ _ E Hi) as (t & _ & Ht). by eapply octet_range. }
  destruct l as [|a [|b [|c [|d [|]]]]]; try done. intros [= <-].
  repeat match goal with H : Forall _ (_ :: _) |- _ => apply Forall_cons in H as [? H] end. lia.
Qed.

Lemma hextet_range s v : parse_hextet s = Some v -> word v.
Proof.
  assert (forall c v, hex_digit c = Some v -> 0 <= v < 16) as Hc.
  { intros c w. unfold hex_digit. set (n := Z.of_N _). destruct ((48 <=? n) && (n <=? 57)) eqn:E1.
    - intros [= <-]. lia.
    - destruct ((65 <=? n) && (n <=? 70)) eqn:E2; [intros [= <-]; lia|].
      destruct ((97 <=? n) && (n <=? 102)) eqn:E3; [intros [= <-]; lia|done]. }
  unfold parse_hextet. destruct (Nat.ltb_spec 4 (String.length s)); [done|].
  destruct s as [|a [|b [|c [|d [|]]]]]; simpl in *; try lia; try done; intros E; unfold word;
    repeat match type of E with context [hex_digit ?x] => destruct (hex_digit x) as [?|] eqn:?; [|done] end;
    repeat match goal with H : hex_digit _ = Some _ |- _ => apply Hc in H end; simplify_eq; lia.
Qed.

Lemma hextets_val_range l : Forall word l -> 0 <= hextets_val l < 65536 ^ Z.of_nat (length l).
Proof.
  intros HF. unfold hextets_val. induction l as [|v l IH] using rev_ind; [done|].
  apply Forall_app in HF as [HF Hv%Forall_inv]. specialize (IH HF). rewrite foldl_app, length_app. simpl. rewrite Nat2Z.inj_add, Z.pow_add_r by lia. unfold word in *.
  change (65536 ^ Z.of_nat 1) with 65536. nia.
Qed.

Definition part_ok (p : part) : Prop := match p with PVal v => word v | PText _ => True end.

Lemma parts_words ps l : Forall part_ok ps -> mapM part_val ps = Some l -> Forall word l /\ length l = length ps.
Proof.
  intros Hp E. apply mapM_Some in E. split; [|symmetry; by eapply Forall2_length].
  apply Forall_lookup. intros i v Hi. destruct (Forall2_lookup_r _ _ _ _ _ E Hi) as (p & Hj & Ht).
  apply (Forall_lookup_1 _ _ _ _ Hp) in Hj. destruct p as [t|w]; simpl in *; [by eapply hextet_range|by simplify_eq].
Qed.

Lemma ip6_parts_ok s ps : ip6_parts s = Some ps -> Forall part_ok ps.
Proof.
  assert (forall l : list string, Forall part_ok (PText <$> l)) as Ht by (intros l; by apply Forall_fmap, Forall_true).
  unfold ip6_parts. destruct (_ <? 3)%nat; [done|]. destruct (contains "." _); [|by intros [= <-]].
  destruct (ip4_parse _) as [w|] eqn:E4; [|done]. intros [= <-]. apply ip4_range in E4.
  apply Forall_app. split; [done|]. repeat constructor; try apply Z.mod_pos_bound; try lia.
  - apply Z.div_pos; lia.
  - apply Z.div_lt_upper_bound; lia.
Qed.

Lemma ip6_range s z : ip6_int s = Some z -> 0 <= z < 2 ^ 128.
Proof.
  unfold ip6_int. destruct (ip6_parts s) as [ps|] eqn:Hp; [|done]. apply ip6_parts_ok in Hp.
  destruct (Nat.ltb_spec 9 (length ps)); [done|].
  assert (forall l, Forall word l -> (length l <= 8)%nat -> 0 <= hextets_val l < 2 ^ 128) as H8.
  { intros l Hw Hl. pose proof (hextets_val_range l Hw) as Hr.
    assert (65536 ^ Z.of_nat (length l) <= 65536 ^ 8) by (apply Z.pow_le_mono_r; lia). lia. }
  set (fe := from_option _ _ (head ps)). set (le := from_option _ _ (last ps)). clearbody fe le.
  destruct (inner_empty ps) as [|i [|]]; [| |done].
  - destruct (bool_decide (length ps = 8%nat)) eqn:El; [|done]. apply bool_decide_eq_true in El.
    destruct fe; [done|]. destruct le; [done|]. simpl. destruct (mapM part_val ps) as [l|] eqn:E; [|done].
    intros [= <-]. apply parts_words in E as [Hw Hl]; [|done]. apply H8; [done|lia].
  - set (hi := if fe then _ else _). set (lo := if le then _ else _). clearbody hi lo.
    destruct (fe && _); [done|]. destruct (le && _); [done|]. destruct (Nat.ltb_spec 8 (hi + lo + 1)); [done|].
    destruct (mapM part_val (take hi ps)) as [l|] eqn:E1; [|done].
    destruct (mapM part_val (drop (length ps - lo) ps)) as [l'|] eqn:E2; [|done]. intros [= <-].
    apply parts_words in E1 as [Hw1 Hl1]; [|by apply Forall_take]. apply parts_words in E2 as [Hw2 Hl2]; [|by apply Forall_drop].
    rewrite length_take in Hl1. rewrite length_drop in Hl2. apply H8.
    + apply Forall_app. split; [done|]. apply Forall_app. split; [|done].
      induction (8 - (hi + lo))%nat; constructor; [unfold word; lia|done].
    + rewrite !length_app, repeat_length. lia.
Qed.

(** The interfaces Python builds: an address and a prefix length within the bounds of the version. *)
Definition face_valid (f : ipface) : Prop :=
  (if_version f = 4 /\ 0 <= if_addr f < 2 ^ 32 /\ 0 <= if_prefix f <= 32) \/
  (if_version f = 6 /\ 0 <= if_addr f < 2 ^ 128 /\ 0 <= if_prefix f <= 128).

Lemma prefix_string_range w s p : prefix_from_prefix_string w s = Some p -> 0 <= p <= w.
Proof.
  unfold prefix_from_prefix_string. destruct (all_digits s) eqn:Ed; [|done]. destruct (py_int s) as [v|] eqn:Ev; [|done].
  apply digits_nonneg in Ev; [|done]. destruct (Z.leb_spec v w); intros; simplify_eq; lia.
Qed.

Lemma netmask4_range s p : make_netmask4 s = Some p -> 0 <= p <= 32.
Proof.
  assert (forall n z, (trailing_zeros n z <= n)%nat) as Htz.
  { intros n. induction n as [|n IH]; intros z; cbn [trailing_zeros]; [lia|]. destruct (Z.testbit z 0); [lia|]. specialize (IH (Z.shiftr z 1)). lia. }
  assert (forall z q, prefix_from_ip_int z = Some q -> 0 <= q <= 32) as Hi.
  { intros z q. unfold prefix_from_ip_int. pose proof (Htz 32%nat z). set (t := trailing_zeros 32 z) in *. clearbody t.
    destruct (_ =? _); intros; simplify_eq; lia. }
  unfold make_netmask4. destruct (prefix_from_prefix_string 32 s) eqn:E; [intros [= <-]; by eapply prefix_string_range|].
  destruct (ip4_parse s); [|done]. destruct (prefix_from_ip_int _) eqn:E1; [intros [= <-]; by eapply Hi|]. by apply Hi.
Qed.

Lemma ip_interface_valid s f : ip_interface s = Some f -> face_valid f.
Proof.
  unfold ip_interface. destruct (ip4_interface s) as [g|] eqn:E4.
  - intros [= <-]. left. unfold ip4_interface in E4. destruct (split_on _ s) as [|a [|m [|]]]; try done.
    + destruct (ip4_parse a) eqn:Ea; [|done]. injection E4 as <-. apply ip4_range in Ea. simpl. lia.
    + destruct (ip4_parse a) eqn:Ea; [|done]. destruct (make_netmask4 m) eqn:Em; [|done]. injection E4 as <-.
      apply ip4_range in Ea. apply netmask4_range in Em. simpl. lia.
  - intros E6. right. assert (forall t z, ip6_parse t = Some z -> 0 <= z < 2 ^ 128) as Hr.
    { intros t z. unfold ip6_parse. destruct (contains "/" t); [done|]. destruct (partition_pct t) as [a [sc|]].
      - destruct (_ || _); [done|]. apply ip6_range.
      - apply ip6_range. }
    unfold ip6_interface in E6. destruct (split_on _ s) as [|a [|m [|]]]; try done.
    + destruct (ip6_parse a) eqn:Ea; [|done]. injection E6 as <-. apply Hr in Ea. simpl. lia.
    + destruct (ip6_parse a) eqn:Ea; [|done]. destruct (prefix_from_prefix_string _ m) eqn:Em; [|done]. injection E6 as <-.
      apply Hr in Ea. apply prefix_string_range in Em. simpl. lia.
Qed.

Lemma digits_char s : str_all is_digit s = true -> str_all face_char s = true.
Proof.
  apply str_all_impl. intros c. unfold face_char, is_hex, hex_digit, is_digit.
  destruct c as [[] [] [] [] [] [] [] []]; vm_compute; congruence.
Qed.

Lemma str_int_digits p : 0 <= p -> all_digits (str_int p) = true /\ str_all is_digit (str_int p) = true.
Proof.
  intros Hp. destruct (str_int_uint p Hp) as (d & E & Hd & _).
  assert (str_all is_digit (str_int p) = true) as Ha.
  { rewrite E. apply string_of_uint_all. intros x Hx. revert x Hx. by apply digit_cases. }
  split; [|done]. unfold all_digits. by rewrite bool_decide_false by apply str_int_nonempty.
Qed.

Lemma ip4_str_read z : 0 <= z < 2 ^ 32 -> ip4_parse (ip4_str z) = Some z /\ str_all addr_char (ip4_str z) = true /\
  str_all (fun d => negb (bool_decide (d = "/"%char))) (ip4_str z) = true.
Proof.
  intros Hz. unfold ip4_str. set (l := [_; _; _; _]).
  assert (Forall (fun v => 0 <= v < 256) l) as HF by (repeat constructor; apply Z.mod_pos_bound; lia).
  assert (Forall (fun t => str_all is_digit t = true) (str_int <$> l)) as Hd.
  { apply Forall_fmap. eapply Forall_impl; [exact HF|]. intros v Hv. by apply octet_facts. }
  assert (forall q, q "."%char = true -> (forall c, is_digit c = true -> q c = true) -> str_all q (join "." (str_int <$> l)) = true) as Hq.
  { intros q H1 H2. apply str_all_join; [simpl; by rewrite H1|]. eapply Forall_impl; [exact Hd|]. intros t. by apply str_all_impl. }
  split_and!.
  - unfold ip4_parse. rewrite split_on_join; [|done|].
    + assert (mapM parse_octet (str_int <$> l) = Some l) as ->.
      { apply mapM_Some. clear Hd Hq. induction HF as [|v l' Hv HF IH]; [constructor|]. constructor; [by apply octet_facts|done]. }
      unfold l. f_equal. pose proof (Z.div_mod z 256 ltac:(lia)). pose proof (Z.div_mod (z / 256) 256 ltac:(lia)) as E1.
      pose proof (Z.div_mod (z / 65536) 256 ltac:(lia)) as E2. pose proof (Z.div_mod (z / 16777216) 256 ltac:(lia)) as E3.
      rewrite Z.div_div in E1, E2, E3 by lia. change (256 * 256) with 65536 in E1. change (65536 * 256) with 16777216 in E2.
      change (16777216 * 256) with (2 ^ 32) in E3. rewrite (Z.div_small z (2 ^ 32)) in E3 by lia. lia.
    + eapply Forall_impl; [exact Hd|]. intros t. apply str_all_impl. intros c. unfold is_digit.
      destruct c as [[] [] [] [] [] [] [] []]; vm_compute; congruence.
  - apply Hq; [done|]. intros c Hc. unfold addr_char. by rewrite Hc.
  - apply Hq; [done|]. intros c. unfold is_digit. destruct c as [[] [] [] [] [] [] [] []]; vm_compute; congruence.
Qed.

Lemma partition_none s : contains "%" s = false -> partition_pct s = (s, None).
Proof.
  induction s as [|c s IH]; [done|]. cbn [contains]. rewrite orb_false_iff. intros [Hp Hc].
  assert (c <> "%"%char) as Hne.
  { intros ->. apply not_true_iff_false in Hp. apply Hp, prefix_spec. by exists s. }
  change (partition_pct (String c s)) with
    (match c with "%"%char => (EmptyString, Some s) | _ => let '(a, r) := partition_pct s in (String c a, r) end).
  rewrite IH by done. destruct c as [[] [] [] [] [] [] [] []]; done.
Qed.

Lemma contains_char_false (q : ascii -> bool) c s : str_all q s = true -> q c = false -> contains (String c "") s = false.
Proof.
  intros Hs Hq. apply contains_none. eapply str_all_impl; [|exact Hs]. intros d Hd. apply negb_true_iff, bool_decide_eq_false.
  intros ->. congruence.
Qed.

(** Reading the canonical spelling gives back the address and the prefix length. *)
Theorem interface_roundtrip f : face_valid f -> ip_interface (with_prefixlen f) = Some f.
Proof.
  destruct f as [v z p]. unfold with_prefixlen, addr_str. simpl. intros [(Hv & Hz & Hp)|(Hv & Hz & Hp)]; simpl in *; subst v; simpl.
  - destruct (ip4_str_read z Hz) as (Ep & _ & Hs). destruct (str_int_digits p ltac:(lia)) as [Hd Hd'].
    unfold ip_interface, ip4_interface. rewrite str_app_cons, str_app_nil. unfold split_on.
    rewrite split_char_app; [|done|done]. rewrite split_char_single.
    + rewrite Ep. unfold make_netmask4, prefix_from_prefix_string. rewrite Hd, py_int_str_int.
      destruct (Z.leb_spec p 32); [done|lia].
    + eapply str_all_impl; [|exact Hd']. intros c. unfold is_digit. destruct c as [[] [] [] [] [] [] [] []]; vm_compute; congruence.
  - destruct (ip6_str_read z Hz) as (Ep & Hs & Hc). destruct (str_int_digits p ltac:(lia)) as [Hd Hd'].
    assert (str_all (fun d => negb (bool_decide (d = "/"%char))) (ip6_str z) = true) as Hsl.
    { eapply str_all_impl; [|exact Hs]. intros c. unfold is_hex, hex_digit. destruct c as [[] [] [] [] [] [] [] []]; vm_compute; congruence. }
    assert (split_on "/" (ip6_str z +:+ "/" +:+ str_int p) = [ip6_str z; str_int p]) as Esp.
    { rewrite str_app_cons, str_app_nil. unfold split_on. rewrite split_char_app; [|done|done]. rewrite split_char_single; [done|].
      eapply str_all_impl; [|exact Hd']. intros c. unfold is_digit. destruct c as [[] [] [] [] [] [] [] []]; vm_compute; congruence. }
    unfold ip_interface, ip4_interface, ip6_interface. rewrite Esp.
    assert (ip4_parse (ip6_str z) = None) as ->.
    { destruct (ip4_parse (ip6_str z)) eqn:E4; [|done]. apply ip4_chars in E4.
      pose proof (contains_char_false addr_char ":" _ E4 eq_refl). congruence. }
    unfold ip6_parse. rewrite (contains_none "/") by done. rewrite partition_none.
    + rewrite Ep. unfold prefix_from_prefix_string. rewrite Hd, py_int_str_int. destruct (Z.leb_spec p 128); [done|lia].
    + by eapply contains_char_false; [exact Hs|].
Qed.

(** The characters of the canonical spelling: no white space, no scope, one slash. *)
Lemma with_prefixlen_chars f : face_valid f -> str_all face_char (with_prefixlen f) = true /\ contains "/" (with_prefixlen f) = true.
Proof.
  destruct f as [v z p]. unfold with_prefixlen, addr_str. simpl. intros Hf.
  split; [|by apply contains_suffix, contains_app_l]. rewrite !str_all_app. simpl.
  assert (0 <= p) as Hp by (destruct Hf; simpl in *; lia). rewrite (digits_char (str_int p)) by (by apply str_int_digits).
  rewrite !andb_true_r. destruct Hf as [(Hv & Hz & _)|(Hv & Hz & _)]; simpl in *; subst v; simpl.
  - eapply str_all_impl; [|exact (proj1 (proj2 (ip4_str_read z Hz)))]. intros c. unfold addr_char, face_char.
    destruct (is_digit c) eqn:Ed; simpl.
    + intros _. pose proof (digits_char (String c "")) as H. simpl in H. rewrite Ed in H. specialize (H eq_refl).
      rewrite andb_true_r in H. exact H.
    + rewrite orb_true_iff. intros [-> | ->]; by rewrite ?orb_true_r.
  - eapply str_all_impl; [|exact (proj1 (proj2 (ip6_str_read z Hz)))]. intros c. unfold face_char. rewrite orb_true_iff.
    intros [-> | ->]; by rewrite ?orb_true_r.
Qed.
