(* ===== verification/Models.v ===== *)
(** The data model of [models.py]: nodes and their normalisation, subscriptions,
    tuning profiles, routing rules, reservations, health snapshots; and the two
    functions that bound what a feed may put in a node ([ss_password_issue],
    [clamp_node_fields]). *)
From Stdlib Require Import ZArith Lia Ascii.
From stdpp Require Import base gmap strings list.
From S2P Require Import Prelude PyStr.
Open Scope Z_scope.

(** * JSON values, as [json.loads] returns them (integers only) *)
Inductive json :=
  | JNull
  | JBool (b : bool)
  | JNum (z : Z)
  | JStr (s : string)
  | JArr (l : list json)
  | JObj (kvs : list (string * json)).

(** [d.get(k)] of a dict. *)
Fixpoint assoc {V} (k : string) (kvs : list (string * V)) : option V :=
  match kvs with
  | [] => None
  | (k', v) :: kvs' => if decide (k = k') then Some v else assoc k kvs'
  end.

Definition jget (k : string) (j : json) : option json :=
  match j with
  | JObj kvs => assoc k kvs
  | _ => None
  end.

(** Python's truth value. *)
Definition jtruthy (j : json) : bool :=
  match j with
  | JNull => false
  | JBool b => b
  | JNum z => negb (z =? 0)
  | JStr s => negb (bool_decide (s = ""))
  | JArr l => negb (bool_decide (length l = 0%nat))
  | JObj l => negb (bool_decide (length l = 0%nat))
  end.

Definition is_obj (j : json) : bool := match j with JObj _ => true | _ => false end.

(** * Nodes *)

Definition PROTOCOLS : list string := ["vless"; "trojan"; "shadowsocks"].
Definition SS_METHODS : list string :=
  ["aes-128-gcm"; "aes-256-gcm"; "chacha20-poly1305"; "chacha20-ietf-poly1305";
   "xchacha20-poly1305"; "2022-blake3-aes-128-gcm"; "2022-blake3-aes-256-gcm";
   "2022-blake3-chacha20-poly1305"].
Definition DEFAULT_SS_METHOD : string := "aes-128-gcm".

Definition SS2022_KEY_BYTES : list (string * Z) :=
  [("2022-blake3-aes-128-gcm", 16); ("2022-blake3-aes-256-gcm", 32);
   ("2022-blake3-chacha20-poly1305", 32)].

(** [base64.b64decode(s, validate=True)], reduced to the length of the decoded
    bytes: alphabet characters, then at most two [=], in a string whose length is
    a multiple of four.  [None] is [binascii.Error]. *)
Definition b64_char (c : ascii) : bool :=
  let n := N_of_ascii c in
  ((65 <=? n) && (n <=? 90) || (97 <=? n) && (n <=? 122) ||
   (48 <=? n) && (n <=? 57) || (n =? 43) || (n =? 47))%N.

Fixpoint b64_split (s : string) : nat * string :=
  match s with
  | String c s' => if b64_char c then let '(n, t) := b64_split s' in (S n, t) else (O, s)
  | EmptyString => (O, EmptyString)
  end.

Definition b64decode_len (s : string) : option Z :=
  let '(n, tail) := b64_split s in
  let n := Z.of_nat n in
  if decide (tail = "") then if n mod 4 =? 0 then Some (3 * (n / 4)) else None
  else if decide (tail = "=") then if n mod 4 =? 3 then Some (3 * (n / 4) + 2) else None
  else if decide (tail = "==") then if n mod 4 =? 2 then Some (3 * (n / 4) + 1) else None
  else None.

(** [ss_password_issue]: [None] is "usable"; the messages are the two refusals. *)
Inductive ss_issue := NotBase64 (needed : Z) | WrongLength (needed got : Z).

Definition ss_password_issue (method password : string) : option ss_issue :=
  match assoc method SS2022_KEY_BYTES with
  | None => None
  | Some needed =>
      match b64decode_len password with
      | None => Some (NotBase64 needed)
      | Some n => if n =? needed then None else Some (WrongLength needed n)
      end
  end.

Record node := Node {
  n_id : option Z;
  n_name : string;
  n_address : string;
  n_port : Z;
  n_uuid : string;
  n_protocol : string;
  n_password : string;
  n_method : string;
  n_transport : string;
  n_sni : string;
  n_public_key : string;
  n_short_id : string;
  n_fingerprint : string;
  n_flow : string;
  n_network : string;
  n_security : string;
  n_path : string;
  n_host : string;
  n_mode : string;
  n_alpn : string;
  n_note : string;
  n_subscription_id : option Z;
  n_stale : bool;
  n_tuning_profile_id : option Z;
  n_position : Z
}.

#[export] Instance node_eq_dec : EqDecision node.
Proof. solve_decision. Defined.

(** A node with the dataclass defaults, the required fields given. *)
Definition mk_node (name address : string) (port : Z) (uuid : string) : node :=
  Node None name address port uuid "vless" "" "" "vision" "" "" "" "chrome"
       "xtls-rprx-vision" "tcp" "reality" "" "" "" "" "" None false None 0.

(** Field updates. *)
Definition with_id (i : option Z) (n : node) : node :=
  Node i (n_name n) (n_address n) (n_port n) (n_uuid n) (n_protocol n) (n_password n)
    (n_method n) (n_transport n) (n_sni n) (n_public_key n) (n_short_id n)
    (n_fingerprint n) (n_flow n) (n_network n) (n_security n) (n_path n) (n_host n)
    (n_mode n) (n_alpn n) (n_note n) (n_subscription_id n) (n_stale n)
    (n_tuning_profile_id n) (n_position n).

(** The columns a reconcile owns: id, subscription, stale flag, position,
    tuning profile and note. *)
Definition with_owned (i sub : option Z) (stale : bool) (pos : Z) (prof : option Z)
    (note : string) (n : node) : node :=
  Node i (n_name n) (n_address n) (n_port n) (n_uuid n) (n_protocol n) (n_password n)
    (n_method n) (n_transport n) (n_sni n) (n_public_key n) (n_short_id n)
    (n_fingerprint n) (n_flow n) (n_network n) (n_security n) (n_path n) (n_host n)
    (n_mode n) (n_alpn n) note sub stale prof pos.

Definition with_stale (b : bool) (n : node) : node :=
  with_owned (n_id n) (n_subscription_id n) b (n_position n) (n_tuning_profile_id n) (n_note n) n.
Definition with_subscription (s : option Z) (n : node) : node :=
  with_owned (n_id n) s (n_stale n) (n_position n) (n_tuning_profile_id n) (n_note n) n.
Definition with_profile (p : option Z) (n : node) : node :=
  with_owned (n_id n) (n_subscription_id n) (n_stale n) (n_position n) p (n_note n) n.
Definition with_position (p : Z) (n : node) : node :=
  with_owned (n_id n) (n_subscription_id n) (n_stale n) p (n_tuning_profile_id n) (n_note n) n.

(** The stream fields [normalize] owns. *)
Definition with_stream (protocol method transport flow network security path host mode : string)
    (n : node) : node :=
  Node (n_id n) (n_name n) (n_address n) (n_port n) (n_uuid n) protocol (n_password n)
    method transport (n_sni n) (n_public_key n) (n_short_id n)
    (n_fingerprint n) flow network security path host
    mode (n_alpn n) (n_note n) (n_subscription_id n) (n_stale n)
    (n_tuning_profile_id n) (n_position n).

(** The last two tests of [normalize]: only reality and tls are honoured, and
    reality needs a public key. *)
Definition normal_security (security public_key : string) : string :=
  let s := if decide (security = "reality" \/ security = "tls") then security
           else if decide (public_key = "") then "tls" else "reality" in
  if decide (s = "reality" /\ public_key = "") then "tls" else s.

Definition normalize (n : node) : node :=
  let protocol := if decide (n_protocol n ∈ PROTOCOLS) then n_protocol n else "vless" in
  let sec' := normal_security (n_security n) (n_public_key n) in
  if decide (protocol = "vless") then
    if decide (n_transport n = "xhttp") then
      with_stream protocol (n_method n) (n_transport n) "" "xhttp" sec'
        (n_path n) (n_host n) (n_mode n) n
    else
      with_stream protocol (n_method n) (n_transport n)
        (if decide (n_flow n = "") then "xtls-rprx-vision" else n_flow n) "tcp" sec'
        (n_path n) (n_host n) (n_mode n) n
  else if decide (protocol = "shadowsocks") then
    with_stream protocol
      (if decide (n_method n = "") then DEFAULT_SS_METHOD else n_method n)
      "vision" "" "tcp" "none" "" "" "" n
  else
    with_stream protocol (n_method n) "vision" "" "tcp" sec' "" "" "" n.

(** * The other records *)

Record subscription := Subscription {
  s_id : option Z;
  s_name : string;
  s_url : string;
  s_injection : json;
  s_interval_sec : Z;
  s_enabled : bool;
  s_default_profile_id : option Z;
  s_last_fetched : option Z;
  s_last_status : option string;
  s_last_path : option string;
  s_last_error : option string;
  s_up_bytes : option Z;
  s_down_bytes : option Z;
  s_total_bytes : option Z;
  s_expire_at : option Z;
  s_last_skipped : list (string * Z)
}.

(** One UDP noise entry [{type, packet, delay}] of a profile; a missing key is "". *)
Record noise := Noise { noise_type : string; noise_packet : string; noise_delay : string }.

Record profile := Profile {
  p_id : option Z;
  p_name : string;
  p_fingerprint : string;
  p_frag_enabled : bool;
  p_frag_packets : string;
  p_frag_length : string;
  p_frag_interval : string;
  p_mux_enabled : bool;
  p_doh_enabled : bool;
  p_doh_url : string;
  p_quic : string;
  p_noise_enabled : bool;
  p_noises : list noise;
  p_xhttp_padding : string;
  p_xmux_max_concurrency : string;
  p_xmux_max_connections : string;
  p_mux_concurrency : string;
  p_xudp_proxy_udp443 : string;
  p_alpn : string;
  p_tls_min : string;
  p_tls_max : string
}.

(** The dataclass defaults. *)
Definition mk_profile (i : option Z) (name : string) : profile :=
  Profile i name "chrome" false "tlshello" "100-200" "10-20" false true "" "allow" false []
    "" "" "" "" "" "" "" "".

Record rule := Rule {
  r_id : option Z;
  r_position : Z;
  r_type : string;
  r_value : string;
  r_action : string;
  r_enabled : bool;
  r_label : string;
  r_dataset : string
}.

Record reservation := Reservation {
  res_id : option Z;
  res_mac : string;
  res_ip : string;
  res_name : string;
  res_created_at : Z
}.

(** [checked_at] is an ISO-8601 UTC text in the table; the model keeps the instant
    (microseconds), on which the texts [datetime.isoformat] writes are ordered as
    SQLite orders them. *)
Record health := Health {
  h_node_id : Z;
  h_tcp_ok : option bool;
  h_tcp_ms : option Z;
  h_http_ok : option bool;
  h_http_ms : option Z;
  h_real_ok : option bool;
  h_real_ms : option Z;
  h_egress_ip : option string;
  h_egress_ip6 : option string;
  h_checked_at : option Z;
  h_fail_count : Z;
  h_lat_history : list Z
}.

#[export] Instance health_eq_dec : EqDecision health.
Proof. solve_decision. Defined.

(** * Bounding feed strings ([subs/parsers/__init__.py]) *)

Definition STR_LIMITS : list (string * nat) :=
  [("name", 256%nat); ("address", 253%nat); ("sni", 253%nat); ("host", 253%nat); ("uuid", 128%nat)].
Definition DEFAULT_STR_LIMIT : nat := 512.

Definition limit_of (attr : string) : nat := default DEFAULT_STR_LIMIT (assoc attr STR_LIMITS).
Definition clamp (attr v : string) : string := str_take (limit_of attr) v.

Definition clamp_node_fields (n : node) : node :=
  Node (n_id n) (clamp "name" (n_name n)) (clamp "address" (n_address n)) (n_port n)
    (clamp "uuid" (n_uuid n)) (n_protocol n) (clamp "password" (n_password n))
    (clamp "method" (n_method n)) (clamp "transport" (n_transport n)) (clamp "sni" (n_sni n))
    (clamp "public_key" (n_public_key n)) (clamp "short_id" (n_short_id n))
    (clamp "fingerprint" (n_fingerprint n)) (clamp "flow" (n_flow n)) (n_network n)
    (clamp "security" (n_security n)) (clamp "path" (n_path n)) (clamp "host" (n_host n))
    (clamp "mode" (n_mode n)) (clamp "alpn" (n_alpn n)) (clamp "note" (n_note n))
    (n_subscription_id n) (n_stale n) (n_tuning_profile_id n) (n_position n).

(** [safe_port]: an integer or a text, [None] for garbage or an out-of-range port. *)
Inductive port_value := PvNone | PvInt (z : Z) | PvStr (s : string).

Definition safe_port (v : port_value) (dflt : Z) : option Z :=
  port ← match v with
         | PvNone => Some dflt
         | PvInt z => Some z
         | PvStr s => if decide (s = "") then Some dflt else py_int s
         end;
  if (1 <=? port) && (port <=? 65535) then Some port else None.

(** * Properties *)

(** What the rest of the program relies on about a node it reads. *)
Definition normal (n : node) : Prop :=
  n_protocol n ∈ PROTOCOLS /\
  match decide (n_protocol n = "shadowsocks") with
  | left _ => n_security n = "none" /\ n_method n <> ""
  | right _ => (n_security n = "reality" /\ n_public_key n <> "") \/ n_security n = "tls"
  end /\
  (n_protocol n <> "vless" ->
     n_transport n = "vision" /\ n_network n = "tcp" /\ n_flow n = "" /\ n_path n = "" /\ n_host n = "" /\ n_mode n = "") /\
  (n_protocol n = "vless" ->
     (n_transport n = "xhttp" /\ n_network n = "xhttp" /\ n_flow n = "") \/
     (n_transport n <> "xhttp" /\ n_network n = "tcp" /\ n_flow n <> "")).

Lemma normal_security_ok s pk :
  (normal_security s pk = "reality" /\ pk <> "") \/ normal_security s pk = "tls".
Proof. unfold normal_security. repeat case_decide; naive_solver. Qed.

Lemma normal_security_idem s pk :
  normal_security (normal_security s pk) pk = normal_security s pk.
Proof. unfold normal_security. repeat case_decide; naive_solver. Qed.

Lemma protocols_cases p :
  p ∈ PROTOCOLS -> p = "vless" \/ p = "trojan" \/ p = "shadowsocks".
Proof. unfold PROTOCOLS. set_solver. Qed.

Lemma normalize_normal_aux n : normal (normalize n).
Proof.
  unfold normal, normalize. pose proof (normal_security_ok (n_security n) (n_public_key n)) as Hs.
  destruct (decide (n_protocol n ∈ PROTOCOLS)) as [Hp|Hp].
  - destruct (protocols_cases _ Hp) as [E|[E|E]]; rewrite E; repeat case_decide; simplify_eq/=;
      (split; [unfold PROTOCOLS; set_solver|]); repeat case_decide; naive_solver.
  - rewrite decide_True by done. repeat case_decide; simplify_eq/=;
      (split; [unfold PROTOCOLS; set_solver|]); repeat case_decide; naive_solver.
Qed.

(** Normalising a normal node changes nothing. *)
Lemma normal_security_fixed s pk :
  (s = "reality" /\ pk <> "") \/ s = "tls" -> normal_security s pk = s.
Proof. unfold normal_security. intros. repeat case_decide; naive_solver. Qed.

Lemma normalize_fixed n : normal n -> normalize n = n.
Proof.
  intros (Hp & Hs & Hn & Hv). unfold normalize.
  rewrite (decide_True (P := n_protocol n ∈ _)) by done.
  destruct n; simpl in *.
  destruct (protocols_cases _ Hp) as [-> | [-> | ->]]; simpl in *.
  - rewrite normal_security_fixed by done.
    destruct Hv as [(-> & -> & ->) | (? & -> & ?)]; [done..|];
      by repeat case_decide.
  - rewrite normal_security_fixed by done.
    by destruct Hn as (-> & -> & -> & -> & -> & ->).
  - destruct Hs as [-> Hm], Hn as (-> & -> & -> & -> & -> & ->); [done|].
    by rewrite decide_False.
Qed.

Module Normalize.
(** every node the panel reads or builds is coherent after [normalize]: its
    protocol is a known one, its transport security is reality (with a public key)
    or tls unless it is a Shadowsocks node (never plaintext VLESS or Trojan), XHTTP
    is used exactly by VLESS nodes that ask for it, and a Vision flow only over TCP;
    and a second [normalize] changes nothing. *)
Theorem normalize_coherent n : normal (normalize n) /\ normalize (normalize n) = normalize n.
Proof. split; [|apply normalize_fixed]; apply normalize_normal_aux. Qed.
End Normalize.

(** Normalising leaves the identity and the operator-owned columns alone, apart
    from the path a non-VLESS node may not carry. *)
Lemma normalize_owned n :
  n_id (normalize n) = n_id n /\ n_subscription_id (normalize n) = n_subscription_id n /\
  n_stale (normalize n) = n_stale n /\ n_tuning_profile_id (normalize n) = n_tuning_profile_id n /\
  n_position (normalize n) = n_position n /\ n_note (normalize n) = n_note n.
Proof. unfold normalize. by repeat case_decide. Qed.

Lemma normalize_endpoint n :
  n_address (normalize n) = n_address n /\ n_port (normalize n) = n_port n /\
  n_uuid (normalize n) = n_uuid n /\ n_sni (normalize n) = n_sni n /\
  n_short_id (normalize n) = n_short_id n /\ n_public_key (normalize n) = n_public_key n.
Proof. unfold normalize. by repeat case_decide. Qed.

Lemma normal_path n : normal n -> n_path (normalize n) = n_path n.
Proof. intros. by rewrite normalize_fixed. Qed.

(** The bound on feed strings. *)
Lemma clamp_length attr v : (String.length (clamp attr v) <= limit_of attr)%nat.
Proof. apply str_take_length. Qed.

Lemma clamp_short attr v : (String.length v <= limit_of attr)%nat -> clamp attr v = v.
Proof. apply str_take_all. Qed.

Lemma clamp_idem attr v : clamp attr (clamp attr v) = clamp attr v.
Proof. apply clamp_short, clamp_length. Qed.

Lemma clamp_node_fields_idem n : clamp_node_fields (clamp_node_fields n) = clamp_node_fields n.
Proof. unfold clamp_node_fields. cbn -[clamp]. by rewrite !clamp_idem. Qed.

Lemma safe_port_range v d p : safe_port v d = Some p -> 1 <= p <= 65535.
Proof.
  unfold safe_port. intros (z & _ & H)%bind_Some. case_match; [|done]. simplify_eq. lia.
Qed.
