(* ===== verification/Json.v ===== *)
(** JSON values as Python handles them: decidable equality, an encoding, the updates of a
    dict, and equality up to the order of keys, which is what a digest of the
    canonical text ([sort_keys=True]) sees. *)
From Stdlib Require Import ZArith Lia Ascii.
From stdpp Require Import base gmap strings list countable.
From S2P Require Import Prelude PyStr Models.
Open Scope string_scope.
Open Scope list_scope.

(** * Induction, equality, encoding *)

Section json_induction.
Context (P : json -> Prop).
Context (Hnull : P JNull) (Hbool : forall b, P (JBool b)) (Hnum : forall z, P (JNum z)) (Hstr : forall s, P (JStr s)).
Context (Harr : forall l, Forall P l -> P (JArr l)).
Context (Hobj : forall kvs, Forall (fun kv => P kv.2) kvs -> P (JObj kvs)).

Fixpoint json_rect' (j : json) : P j :=
  match j with
  | JNull => Hnull
  | JBool b => Hbool b
  | JNum z => Hnum z
  | JStr s => Hstr s
  | JArr l => Harr l ((fix go l := match l return Forall P l with
                                   | [] => Forall_nil_2 _
                                   | x :: l' => Forall_cons_2 _ _ _ (json_rect' x) (go l')
                                   end) l)
  | JObj kvs => Hobj kvs ((fix go l := match l return Forall (fun kv => P kv.2) l with
                                       | [] => Forall_nil_2 _
                                       | x :: l' => Forall_cons_2 _ _ _ (json_rect' x.2) (go l')
                                       end) kvs)
  end.
End json_induction.

(** A value as a tree whose leaves are scalars and keys. *)
Definition scalar : Type := bool + Z + string.
Fixpoint to_tree (j : json) : gen_tree scalar :=
  match j with
  | JNull => GenNode 0 []
  | JBool b => GenLeaf (inl (inl b))
  | JNum z => GenLeaf (inl (inr z))
  | JStr s => GenLeaf (inr s)
  | JArr l => GenNode 1 (to_tree <$> l)
  | JObj kvs => GenNode 2 ((fun kv => GenNode 3 [GenLeaf (inr kv.1); to_tree kv.2]) <$> kvs)
  end.
Fixpoint of_tree (t : gen_tree scalar) : json :=
  match t with
  | GenLeaf (inl (inl b)) => JBool b
  | GenLeaf (inl (inr z)) => JNum z
  | GenLeaf (inr s) => JStr s
  | GenNode 1 l => JArr (of_tree <$> l)
  | GenNode 2 l =>
      JObj ((fun x => match x with GenNode 3 [GenLeaf (inr k); v] => (k, of_tree v) | _ => ("", JNull) end) <$> l)
  | _ => JNull
  end.

Lemma of_to_tree j : of_tree (to_tree j) = j.
Proof.
  induction j as [| | | |l IH|kvs IH] using json_rect'; simpl; try done; f_equal;
    rewrite <-list_fmap_compose; (etrans; [|apply list_fmap_id]); apply Forall_fmap_ext_1.
  - exact IH.
  - refine (Forall_impl _ _ IH). intros [k v] E. simpl in *. by rewrite E.
Qed.

#[global] Instance json_eq_dec : EqDecision json.
Proof. refine (fun a b => cast_if (decide (to_tree a = to_tree b))); [|congruence].
  by rewrite <-(of_to_tree a), <-(of_to_tree b), e. Defined.
#[global] Instance json_countable : Countable json :=
  inj_countable' to_tree of_tree of_to_tree.

(** * Dicts *)

(** [d[k] = v], [d.pop(k, None)] *)
Fixpoint kv_set {V} (k : string) (v : V) (l : list (string * V)) : list (string * V) :=
  match l with
  | [] => [(k, v)]
  | (k', x) :: l' => if decide (k = k') then (k, v) :: l' else (k', x) :: kv_set k v l'
  end.
Definition kv_del {V} (k : string) (l : list (string * V)) : list (string * V) := filter (fun kv => kv.1 <> k) l.
Definition jset (k : string) (v : json) (j : json) : json :=
  match j with JObj kvs => JObj (kv_set k v kvs) | j => j end.
Definition jdel (k : string) (j : json) : json :=
  match j with JObj kvs => JObj (kv_del k kvs) | j => j end.

Lemma assoc_set {V} k k' (v : V) l : assoc k' (kv_set k v l) = if decide (k = k') then Some v else assoc k' l.
Proof.
  induction l as [|[q x] l IH]; simpl; [repeat case_decide; congruence|].
  destruct (decide (k = q)) as [->|]; simpl; repeat case_decide; try congruence; rewrite IH; by case_decide.
Qed.
Lemma assoc_del {V} k k' (l : list (string * V)) : assoc k' (kv_del k l) = if decide (k = k') then None else assoc k' l.
Proof.
  unfold kv_del. induction l as [|[q x] l IH]; simpl; [by case_decide|]. rewrite filter_cons; simpl.
  destruct (decide (q <> k)) as [|Hq]; simpl.
  - rewrite IH. repeat case_decide; congruence.
  - apply dec_stable in Hq as ->. rewrite IH. repeat case_decide; congruence.
Qed.
Lemma kv_set_id {V} k (v : V) l : assoc k l = Some v -> kv_set k v l = l.
Proof. induction l as [|[q x] l IH]; simpl; [done|]. case_decide; [by intros [= ->]; subst|]. intros. by rewrite IH. Qed.
Lemma kv_set_set {V} k (v w : V) l : kv_set k w (kv_set k v l) = kv_set k w l.
Proof. induction l as [|[q x] l IH]; simpl; repeat (case_decide; simpl); try done. by rewrite IH. Qed.

Lemma jget_jset k k' v j : is_obj j = true -> jget k' (jset k v j) = if decide (k = k') then Some v else jget k' j.
Proof. destruct j; try done. intros _. apply assoc_set. Qed.
Lemma jget_jdel k k' j : jget k' (jdel k j) = if decide (k = k') then None else jget k' j.
Proof. destruct j; simpl; try (by case_decide). apply assoc_del. Qed.
Lemma jget_obj k j v : jget k j = Some v -> is_obj j = true.
Proof. by destruct j. Qed.
Lemma jset_id k v j : jget k j = Some v -> jset k v j = j.
Proof. destruct j; try done. simpl. intros. by rewrite kv_set_id. Qed.
Lemma jset_jset k v w j : jset k w (jset k v j) = jset k w j.
Proof. destruct j; try done. simpl. by rewrite kv_set_set. Qed.
Lemma is_obj_jset k v j : is_obj (jset k v j) = is_obj j.
Proof. by destruct j. Qed.

(** * Equality up to the order of keys *)

Inductive jeq : json -> json -> Prop :=
  | jeq_same j : jeq j j
  | jeq_arr l l' : Forall2 jeq l l' -> jeq (JArr l) (JArr l')
  | jeq_obj kvs kvs' : (forall k, option_Forall2 jeq (assoc k kvs) (assoc k kvs')) -> jeq (JObj kvs) (JObj kvs').

Definition leaf (j : json) : Prop := match j with JArr _ | JObj _ => False | _ => True end.

Lemma jeq_leaf a b : jeq a b -> leaf a -> b = a.
Proof. by destruct 1. Qed.
Lemma jeq_get k a b : jeq a b -> option_Forall2 jeq (jget k a) (jget k b).
Proof. destruct 1 as [j| |]; simpl; [destruct (jget k j); by repeat constructor|constructor|done]. Qed.
Lemma jeq_is_obj a b : jeq a b -> is_obj a = is_obj b.
Proof. by destruct 1. Qed.
Lemma jeq_arr_inv l b : jeq (JArr l) b -> exists l', b = JArr l' /\ Forall2 jeq l l'.
Proof.
  inversion 1 as [j|l1 l2 HF|]; subst; [|by eauto]. exists l. split; [done|].
  apply Forall_Forall2_diag, Forall_true. intros. apply jeq_same.
Qed.
Lemma jeq_leaves l l' : Forall2 jeq l l' -> Forall leaf l -> l' = l.
Proof. induction 1 as [|x y l l' Hxy _ IH]; [done|]. inversion_clear 1. by rewrite (jeq_leaf x y), IH. Qed.

(** A digest without collisions sees a configuration up to the order of its keys. *)
Definition collision_free (digest : json -> string) : Prop := forall a b, digest a = digest b -> jeq a b.

(** One such function: the encoding, in binary. *)
Fixpoint bits (p : positive) : string :=
  match p with
  | xH => "1"
  | xO p => String "0" (bits p)
  | xI p => String "1" (bits p)
  end.
Lemma bits_nonempty p : bits p <> "".
Proof. by destruct p. Qed.
Lemma bits_inj p q : bits p = bits q -> p = q.
Proof.
  revert q. induction p as [p IH|p IH|]; intros [q|q|]; simpl; try done; intros [= E]; try (f_equal; auto; fail).
  - by destruct (bits_nonempty p).
  - symmetry in E. by destruct (bits_nonempty q).
Qed.
Definition binary_digest (j : json) : string := bits (encode j).
Lemma binary_digest_collision_free : collision_free binary_digest.
Proof. intros a b E. apply bits_inj, encode_inj in E as ->. apply jeq_same. Qed.
