(* ===== verification/SafeConn.v ===== *)
(** The transaction layer of [nodes/store.py]: [_SafeConn], one SQLite connection
    behind a re-entrant lock, with nested [with conn:] blocks that share one
    SQLite transaction and a rollback-only flag.

    The connection is generic in the database [D] and in the exceptions [E] its
    statements raise.  [work] is what the connection reads and writes, [durable]
    what a commit has made permanent; outside a transaction every statement
    commits by itself (the connection is opened in autocommit mode).  The lock is
    held from [__enter__] to [__exit__], so a transaction is a sequential program:
    [prog] is the language of such client programs (statements, sequencing, nested
    [with] blocks, and [try/except] that swallows).  [COMMIT] itself is taken to
    succeed. *)
From Stdlib Require Import Lia.
From stdpp Require Import base list.
From S2P Require Import Prelude.

Section safe_conn.
Context {D E : Type}.

Inductive conn_error :=
  | StmtError (e : E)            (* raised by a statement *)
  | TransactionRolledBack        (* the outermost block discarded its writes *)
  | ClosedError                  (* sqlite3.ProgrammingError *)
  | BusyClose.                   (* RuntimeError: close during a transaction *)

Record conn := Conn {
  durable : D;
  work : D;
  depth : nat;
  rollback_only : bool;
  closed : bool
}.

Definition connect (d : D) : conn := Conn d d 0 false false.

(** [execute]: one statement, on the connection's own view of the database. *)
Definition execute (f : D -> E + D) (c : conn) : conn * option conn_error :=
  if closed c then (c, Some ClosedError)
  else match f (work c) with
       | inl e => (c, Some (StmtError e))
       | inr d => (Conn (if decide (depth c = 0) then d else durable c) d
                        (depth c) (rollback_only c) (closed c), None)
       end.

(** [__enter__]: [BEGIN] only at depth 0. *)
Definition enter (c : conn) : conn_error + conn :=
  if closed c then inl ClosedError
  else if decide (depth c = 0)
  then inr (Conn (durable c) (durable c) 1 false (closed c))
  else inr (Conn (durable c) (work c) (S (depth c)) (rollback_only c) (closed c)).

(** [__exit__]: an exception poisons the whole unit; the outermost block commits
    or rolls back, and a clean exit of a poisoned unit raises. *)
Definition exit (c : conn) (exc : option conn_error) : conn * option conn_error :=
  let ro := if exc then true else rollback_only c in
  let depth' := pred (depth c) in
  if decide (depth' = 0) then
    if ro
    then (Conn (durable c) (durable c) 0 false (closed c),
          match exc with Some e => Some e | None => Some TransactionRolledBack end)
    else (Conn (work c) (work c) 0 false (closed c), None)
  else (Conn (durable c) (work c) depth' ro (closed c), exc).

Definition close (c : conn) : conn * option conn_error :=
  if closed c then (c, None)
  else if decide (depth c = 0)
  then (Conn (durable c) (work c) 0 (rollback_only c) true, None)
  else (c, Some BusyClose).

(** Client programs. *)
Inductive prog :=
  | Skip
  | Stmt (f : D -> E + D)
  | Seq (p q : prog)
  | IfP (b : D -> bool) (p q : prog)
  | Tx (p : prog)                (* with store.transaction(): p *)
  | Try (p : prog)               (* try: p  except Exception: pass *)
  | RaiseP (e : E).

Fixpoint run (p : prog) (c : conn) : conn * option conn_error :=
  match p with
  | Skip => (c, None)
  | Stmt f => execute f c
  | Seq p q => match run p c with
               | (c', None) => run q c'
               | r => r
               end
  | IfP b p q => if b (work c) then run p c else run q c
  | Tx p => match enter c with
            | inl e => (c, Some e)
            | inr c1 => let '(c2, o) := run p c1 in exit c2 o
            end
  | Try p => let '(c', _) := run p c in (c', None)
  | RaiseP e => (c, Some (StmtError e))
  end.

(** What holds of an open connection between two client calls. *)
Definition idle (c : conn) : Prop :=
  depth c = 0 /\ closed c = false /\ rollback_only c = false /\ work c = durable c.

(** Inside a transaction: nothing durable changes, the depth is balanced, and a
    set rollback-only flag stays set. *)
Definition inside (c c' : conn) : Prop :=
  durable c' = durable c /\ depth c' = depth c /\ closed c' = closed c /\
  (rollback_only c = true -> rollback_only c' = true).

#[local] Instance inside_trans : Transitive inside.
Proof. unfold inside. intros c1 c2 c3. naive_solver congruence. Qed.

Lemma exit_nested c o :
  1 < depth c ->
  exit c o = (Conn (durable c) (work c) (pred (depth c))
                (if o then true else rollback_only c) (closed c), o).
Proof. intros. unfold exit. by rewrite decide_False by lia. Qed.

Lemma run_inside p c : 0 < depth c -> inside c (run p c).1.
Proof.
  revert c. induction p; intros c Hd; cbn [run]; try done.
  - unfold execute. case_match; [done|]. case_match; [done|].
    rewrite decide_False by lia. done.
  - specialize (IHp1 c Hd). destruct (run p1 c) as [c' [e|]]; simpl in *; [done|].
    etrans; [exact IHp1|]. apply IHp2. by rewrite (proj1 (proj2 IHp1)).
  - case_match; eauto.
  - unfold enter. destruct (closed c) eqn:Hc; [done|]. rewrite decide_False by lia.
    set (c1 := Conn _ _ _ _ _). specialize (IHp c1 ltac:(simpl; lia)).
    destruct (run p c1) as [c2 o]. destruct IHp as (Hdur & Hdep & Hcl & Hro); simpl in *.
    rewrite exit_nested by lia. unfold inside. simpl.
    rewrite Hdur, Hdep, Hcl, Hc. split_and!; try done. intros ?. destruct o; auto.
  - specialize (IHp c Hd). destruct (run p c). done.
Qed.

(** An exception raised inside a transaction block poisons it, whatever the code
    above does with it. *)
Lemma run_tx_fail_poisons p c c' e :
  0 < depth c -> run (Tx p) c = (c', Some e) -> closed c = false -> rollback_only c' = true.
Proof.
  intros Hd H Hc. cbn [run] in H. unfold enter in H. rewrite Hc, decide_False in H by lia.
  set (c1 := Conn _ _ _ _ _) in H. pose proof (run_inside p c1 ltac:(simpl; lia)) as Hi.
  destruct (run p c1) as [c2 o]. destruct Hi as (_ & Hdep & _); simpl in *.
  rewrite exit_nested in H by lia. by simplify_eq/=.
Qed.

(** The body of an outermost block. *)
Definition body (p : prog) (c : conn) : conn * option conn_error :=
  run p (Conn (durable c) (durable c) 1 false false).

Lemma run_tx_idle p c :
  idle c ->
  run (Tx p) c =
    let '(c2, o) := body p c in
    if (if o then true else rollback_only c2)
    then (Conn (durable c) (durable c) 0 false false,
          match o with Some e => Some e | None => Some TransactionRolledBack end)
    else (Conn (work c2) (work c2) 0 false false, None).
Proof.
  intros (Hd & Hc & Hr & Hw). cbn [run]. unfold enter. rewrite Hc, decide_True by done.
  fold (body p c). unfold body.
  set (c1 := Conn _ _ _ _ _). pose proof (run_inside p c1 ltac:(simpl; lia)) as Hi.
  destruct (run p c1) as [c2 o]. destruct Hi as (Hdur & Hdep & Hcl & _); simpl in *.
  unfold exit. rewrite Hdep, Hdur, Hcl. simpl. done.
Qed.

End safe_conn.
Arguments conn : clear implicits.
Arguments prog : clear implicits.
Arguments conn_error : clear implicits.

(** A body with two writes, the second one poisoned by a swallowed failure. *)
Definition demo_swallowed : prog nat nat :=
  Seq (Stmt (fun d => inr (S d))) (Try (Tx (RaiseP 7))).

Module Transactions.
Section props.
Context {D E : Type}.

(** atomicity and no silent loss.  Whatever a client does between the
    outermost [__enter__] and [__exit__] of a transaction on an idle connection
    (nested blocks, failing statements, swallowed exceptions), the connection is
    idle again afterwards, and either the block returned normally and exactly the
    state its statements built is durable, or it raised and the durable state is
    the one before the block: a normal return never hides a rollback. *)
Theorem transaction_all_or_nothing (p : prog D E) (c : conn D) :
  idle c ->
  idle (run (Tx p) c).1 /\
  match (run (Tx p) c).2 with
  | None => durable (run (Tx p) c).1 = work (body p c).1 /\ (body p c).2 = None
  | Some _ => durable (run (Tx p) c).1 = durable c
  end.
Proof.
  intros Hi. rewrite run_tx_idle by done. destruct (body p c) as [c2 o] eqn:Hb.
  destruct o as [e|]; simpl; [by split|]. destruct (rollback_only c2); simpl; done.
Qed.

(** a failure inside a nested block that the caller swallows still discards
    the whole unit and surfaces: the outermost block raises
    [TransactionRolledBack] instead of reporting the lost writes as a success. *)
Theorem swallowed_failure_surfaces (p q : prog D E) (c : conn D) e c1 :
  idle c ->
  (body p c).2 = None ->
  run (Tx q) (body p c).1 = (c1, Some e) ->
  (run (Tx (Seq p (Try (Tx q)))) c).2 = Some TransactionRolledBack /\
  durable (run (Tx (Seq p (Try (Tx q)))) c).1 = durable c.
Proof.
  intros Hi Hp Hq. rewrite run_tx_idle by done.
  unfold body in *. cbn [run] in *.
  pose proof (run_inside p (Conn (durable c) (durable c) 1 false false) ltac:(simpl; lia)) as Hin.
  destruct (run p _) as [c0 o0]. simpl in *. subst o0.
  destruct Hin as (_ & Hd & Hc & _). simpl in Hd, Hc.
  assert (rollback_only c1 = true) as Hro
    by (eapply (run_tx_fail_poisons q c0); [lia|exact Hq|done]).
  rewrite Hq. simpl. by rewrite Hro.
Qed.
End props.

Lemma transaction_all_or_nothing_witness :
  idle (connect 5) /\
  durable (run (Tx (Stmt (E := nat) (fun d => inr (d + 2)))) (connect 5)).1 = 7.
Proof.
  split; [by split_and!|].
  exact (proj1 (proj2 (transaction_all_or_nothing (Stmt (E := nat) (fun d => inr (d + 2)))
                         (connect 5) ltac:(by split_and!)))).
Defined.

Lemma swallowed_failure_surfaces_witness :
  (run (Tx demo_swallowed) (connect 5)).2 = Some TransactionRolledBack /\
  durable (run (Tx demo_swallowed) (connect 5)).1 = 5.
Proof.
  exact (swallowed_failure_surfaces (Stmt (fun d => inr (S d))) (RaiseP 7) (connect 5)
           (StmtError 7) (Conn 5 6 1 true false) ltac:(by split_and!) eq_refl eq_refl).
Defined.
End Transactions.
