(* ===== verification/Store.v ===== *)
(** [NodeStore] of [nodes/store.py] over the schema of [db.py].

    [db] has one field per table: a finite map from the primary key, or a list in
    primary-key order where the code prunes or numbers by it; an AUTOINCREMENT
    table carries the last id it handed out.  [constraints] are the schema's UNIQUE
    indexes, CHECKs and foreign keys (SQLite runs with [foreign_keys = ON]); a
    statement that would break one raises [IntegrityError] and changes nothing.

    [M A] is the monad of store code: a database in, a value or an exception and
    the database out.  [tx] is [with self._conn:] (see [SafeConn]): an exception
    restores the database the block started from. *)
From Stdlib Require Import ZArith Lia Permutation.
From stdpp Require Import base gmap strings list fin_maps.
From S2P Require Import Prelude PyStr Models.
Open Scope Z_scope.

(** * Exceptions and the store monad *)
Inductive exn :=
  | IntegrityError
  | AssertionError
  | ValueError (msg : string)
  | RuntimeError (msg : string).

Record token := Token {
  tk_name : string;
  tk_hash : string;
  tk_scope : string;
  tk_prefix : string;
  tk_created_at : Z;
  tk_last_used_at : option Z;
  tk_expires_at : option Z
}.

Record audit := Audit { a_ts : Z; a_actor : string; a_method : string; a_path : string; a_status : Z }.
Record event := Event { e_ts : Z; e_kind : string; e_detail : string }.

Record db := Db {
  d_nodes : gmap Z node;
  d_node_seq : Z;
  d_settings : gmap string string;
  d_health : gmap Z health;
  d_subs : gmap Z subscription;
  d_sub_seq : Z;
  d_profiles : gmap Z profile;
  d_profile_seq : Z;
  d_routing : list rule;
  d_reservations : gmap Z reservation;
  d_res_seq : Z;
  d_tokens : gmap Z token;
  d_token_seq : Z;
  d_audit : list (Z * audit);
  d_audit_seq : Z;
  d_events : list (Z * event);
  d_event_seq : Z;
  d_traffic : gmap Z (Z * Z);
  d_device : gmap (string * Z) (Z * Z)
}.

Definition empty_db : db :=
  Db ∅ 0 ∅ ∅ ∅ 0 ∅ 0 [] ∅ 0 ∅ 0 [] 0 [] 0 ∅ ∅.

Definition set_nodes x d :=
  Db x (d_node_seq d) (d_settings d) (d_health d) (d_subs d) (d_sub_seq d) (d_profiles d)
    (d_profile_seq d) (d_routing d) (d_reservations d) (d_res_seq d) (d_tokens d) (d_token_seq d)
    (d_audit d) (d_audit_seq d) (d_events d) (d_event_seq d) (d_traffic d) (d_device d).
Definition set_node_seq x d :=
  Db (d_nodes d) x (d_settings d) (d_health d) (d_subs d) (d_sub_seq d) (d_profiles d)
    (d_profile_seq d) (d_routing d) (d_reservations d) (d_res_seq d) (d_tokens d) (d_token_seq d)
    (d_audit d) (d_audit_seq d) (d_events d) (d_event_seq d) (d_traffic d) (d_device d).
Definition set_settings x d :=
  Db (d_nodes d) (d_node_seq d) x (d_health d) (d_subs d) (d_sub_seq d) (d_profiles d)
    (d_profile_seq d) (d_routing d) (d_reservations d) (d_res_seq d) (d_tokens d) (d_token_seq d)
    (d_audit d) (d_audit_seq d) (d_events d) (d_event_seq d) (d_traffic d) (d_device d).
Definition set_health x d :=
  Db (d_nodes d) (d_node_seq d) (d_settings d) x (d_subs d) (d_sub_seq d) (d_profiles d)
    (d_profile_seq d) (d_routing d) (d_reservations d) (d_res_seq d) (d_tokens d) (d_token_seq d)
    (d_audit d) (d_audit_seq d) (d_events d) (d_event_seq d) (d_traffic d) (d_device d).
Definition set_subs x y d :=
  Db (d_nodes d) (d_node_seq d) (d_settings d) (d_health d) x y (d_profiles d)
    (d_profile_seq d) (d_routing d) (d_reservations d) (d_res_seq d) (d_tokens d) (d_token_seq d)
    (d_audit d) (d_audit_seq d) (d_events d) (d_event_seq d) (d_traffic d) (d_device d).
Definition set_profiles x y d :=
  Db (d_nodes d) (d_node_seq d) (d_settings d) (d_health d) (d_subs d) (d_sub_seq d) x
    y (d_routing d) (d_reservations d) (d_res_seq d) (d_tokens d) (d_token_seq d)
    (d_audit d) (d_audit_seq d) (d_events d) (d_event_seq d) (d_traffic d) (d_device d).
Definition set_routing x d :=
  Db (d_nodes d) (d_node_seq d) (d_settings d) (d_health d) (d_subs d) (d_sub_seq d) (d_profiles d)
    (d_profile_seq d) x (d_reservations d) (d_res_seq d) (d_tokens d) (d_token_seq d)
    (d_audit d) (d_audit_seq d) (d_events d) (d_event_seq d) (d_traffic d) (d_device d).
Definition set_reservations x y d :=
  Db (d_nodes d) (d_node_seq d) (d_settings d) (d_health d) (d_subs d) (d_sub_seq d) (d_profiles d)
    (d_profile_seq d) (d_routing d) x y (d_tokens d) (d_token_seq d)
    (d_audit d) (d_audit_seq d) (d_events d) (d_event_seq d) (d_traffic d) (d_device d).
Definition set_tokens x y d :=
  Db (d_nodes d) (d_node_seq d) (d_settings d) (d_health d) (d_subs d) (d_sub_seq d) (d_profiles d)
    (d_profile_seq d) (d_routing d) (d_reservations d) (d_res_seq d) x y
    (d_audit d) (d_audit_seq d) (d_events d) (d_event_seq d) (d_traffic d) (d_device d).
Definition set_audit x y d :=
  Db (d_nodes d) (d_node_seq d) (d_settings d) (d_health d) (d_subs d) (d_sub_seq d) (d_profiles d)
    (d_profile_seq d) (d_routing d) (d_reservations d) (d_res_seq d) (d_tokens d) (d_token_seq d)
    x y (d_events d) (d_event_seq d) (d_traffic d) (d_device d).
Definition set_events x y d :=
  Db (d_nodes d) (d_node_seq d) (d_settings d) (d_health d) (d_subs d) (d_sub_seq d) (d_profiles d)
    (d_profile_seq d) (d_routing d) (d_reservations d) (d_res_seq d) (d_tokens d) (d_token_seq d)
    (d_audit d) (d_audit_seq d) x y (d_traffic d) (d_device d).
Definition set_traffic x d :=
  Db (d_nodes d) (d_node_seq d) (d_settings d) (d_health d) (d_subs d) (d_sub_seq d) (d_profiles d)
    (d_profile_seq d) (d_routing d) (d_reservations d) (d_res_seq d) (d_tokens d) (d_token_seq d)
    (d_audit d) (d_audit_seq d) (d_events d) (d_event_seq d) x (d_device d).
Definition set_device x d :=
  Db (d_nodes d) (d_node_seq d) (d_settings d) (d_health d) (d_subs d) (d_sub_seq d) (d_profiles d)
    (d_profile_seq d) (d_routing d) (d_reservations d) (d_res_seq d) (d_tokens d) (d_token_seq d)
    (d_audit d) (d_audit_seq d) (d_events d) (d_event_seq d) (d_traffic d) x.

Definition M (A : Type) : Type := db -> (exn + A) * db.

Definition mret {A} (a : A) : M A := fun d => (inr a, d).
Definition mraise {A} (e : exn) : M A := fun d => (inl e, d).
Definition mbind {A B} (m : M A) (k : A -> M B) : M B :=
  fun d => match m d with
           | (inr a, d') => k a d'
           | (inl e, d') => (inl e, d')
           end.
Definition mget {A} (f : db -> A) : M A := fun d => (inr (f d), d).

(** [with self._conn:] *)
Definition tx {A} (m : M A) : M A :=
  fun d => match m d with
           | (inr a, d') => (inr a, d')
           | (inl e, _) => (inl e, d)
           end.

Declare Scope store_scope.
Delimit Scope store_scope with store.
Notation "x <- m ;; k" := (mbind m (fun x => k))
  (at level 100, m at next level, right associativity) : store_scope.
Notation "m ;;; k" := (mbind m (fun _ => k)) (at level 100, right associativity) : store_scope.
Open Scope store_scope.

Fixpoint mfor {A} (l : list A) (f : A -> M unit) : M unit :=
  match l with
  | [] => mret tt
  | x :: l' => f x ;;; mfor l' f
  end.

(** * Constraints of the schema *)

(** [uq_nodes_identity]. *)
Definition ident_key (n : node) : Z * string * Z * string * string * string * string :=
  (default (-1) (n_subscription_id n), n_address n, n_port n, n_uuid n, n_path n, n_sni n, n_short_id n).

Definition SCOPES : list string := ["monitor"; "read"; "readwrite"].

(** A REFERENCES clause. *)
Definition refs {V} (k : option Z) (m : gmap Z V) : Prop :=
  match k with None => True | Some i => is_Some (m !! i) end.
#[export] Instance refs_dec {V} k (m : gmap Z V) : Decision (refs k m).
Proof. unfold refs. destruct k; apply _. Defined.

(** A UNIQUE column or expression of a table. *)
Definition unique_by {V B} `{EqDecision B} (f : V -> B) (m : gmap Z V) : Prop :=
  map_Forall (fun i x => map_Forall (fun j y => f x = f y -> i = j) m) m.
#[export] Instance unique_by_dec {V B} `{EqDecision B} (f : V -> B) (m : gmap Z V) :
  Decision (unique_by f m).
Proof. unfold unique_by. apply _. Defined.

Definition constraints (d : db) : Prop :=
  unique_by ident_key (d_nodes d) /\
  map_Forall (fun _ n => refs (n_subscription_id n) (d_subs d)) (d_nodes d) /\
  map_Forall (fun _ n => refs (n_tuning_profile_id n) (d_profiles d)) (d_nodes d) /\
  map_Forall (fun i (_ : health) => refs (Some i) (d_nodes d)) (d_health d) /\
  map_Forall (fun _ s => refs (s_default_profile_id s) (d_profiles d)) (d_subs d) /\
  unique_by tk_hash (d_tokens d) /\
  map_Forall (fun _ t => tk_scope t ∈ SCOPES) (d_tokens d) /\
  unique_by res_mac (d_reservations d) /\
  unique_by res_ip (d_reservations d) /\
  NoDup (r_position <$> d_routing d).
#[export] Instance constraints_dec d : Decision (constraints d).
Proof. unfold constraints. apply _. Defined.

(** One SQL statement. *)
Definition stmt (f : db -> db) : M unit :=
  fun d => if decide (constraints (f d)) then (inr tt, f d) else (inl IntegrityError, d).

(** * Nodes *)

(** [SELECT ... ORDER BY position, id]. *)
Definition pos_id_before (a b : Z * node) : bool :=
  (n_position a.2 <? n_position b.2) ||
  ((n_position a.2 =? n_position b.2) && (a.1 <=? b.1)).

Definition rows_by_position (m : gmap Z node) : list (Z * node) :=
  stable_sort pos_id_before (map_to_list m).

(** [_row_to_node]: the dataclass normalises what it is built from. *)
Definition row_to_node (i : Z) (r : node) : node := normalize (with_id (Some i) r).

Definition add_node (n : node) : M Z :=
  i <- mget (fun d => d_node_seq d + 1) ;;
  stmt (fun d => set_node_seq i (set_nodes (<[i := with_id (Some i) n]> (d_nodes d)) d)) ;;;
  mret i.

Definition get_node (i : Z) (d : db) : option node := row_to_node i <$> d_nodes d !! i.

(** The columns [get_node_by_identity] matches; [subscription_id IS ?] matches
    NULL too. *)
Definition same_identity (sub : option Z) (address : string) (port : Z)
    (uuid path sni short_id : string) (n : node) : Prop :=
  n_subscription_id n = sub /\ n_address n = address /\ n_port n = port /\ n_uuid n = uuid /\
  n_path n = path /\ n_sni n = sni /\ n_short_id n = short_id.
#[export] Instance same_identity_dec s a p u pa sn sh n : Decision (same_identity s a p u pa sn sh n).
Proof. unfold same_identity. apply _. Defined.

Definition get_node_by_identity (sub : option Z) (address : string) (port : Z)
    (uuid path sni short_id : string) (d : db) : option node :=
  match filter (fun r : Z * node => same_identity sub address port uuid path sni short_id r.2)
          (map_to_list (d_nodes d)) with
  | (i, r) :: _ => Some (row_to_node i r)
  | [] => None
  end.

Definition list_nodes (d : db) : list node :=
  (fun r => row_to_node r.1 r.2) <$> rows_by_position (d_nodes d).

Definition list_nodes_for_sub (sub : Z) (d : db) : list node :=
  (fun r => row_to_node r.1 r.2) <$>
    stable_sort pos_id_before
      (filter (fun r : Z * node => n_subscription_id r.2 = Some sub) (map_to_list (d_nodes d))).

Definition node_counts_by_sub (d : db) (sub : Z) : nat :=
  length (filter (fun r : Z * node => n_subscription_id r.2 = Some sub) (map_to_list (d_nodes d))).

Definition update_node (n : node) : M unit :=
  match n_id n with
  | None => mraise AssertionError
  | Some i => stmt (fun d => set_nodes (alter (fun _ => n) i (d_nodes d)) d)
  end.

Definition delete_node (i : Z) : M unit :=
  tx (stmt (fun d => set_health (delete i (d_health d)) d) ;;;
      stmt (fun d => set_nodes (delete i (d_nodes d)) d)).

Fixpoint reorder_from (k : Z) (ids : list Z) : M unit :=
  match ids with
  | [] => mret tt
  | i :: ids' =>
      stmt (fun d => set_nodes (alter (with_position k) i (d_nodes d)) d) ;;;
      reorder_from (k + 1) ids'
  end.
Definition reorder_nodes (ids : list Z) : M unit := tx (reorder_from 0 ids).

(** One autocommitted statement per node: no transaction around the loop. *)
Definition detach_nodes (ids : list Z) : M unit :=
  mfor ids (fun i => stmt (fun d => set_nodes (alter (with_subscription None) i (d_nodes d)) d)).

Definition mark_stale (i : Z) (b : bool) : M unit :=
  stmt (fun d => set_nodes (alter (with_stale b) i (d_nodes d)) d).

(** * Settings *)

Definition set_setting (k v : string) : M unit :=
  stmt (fun d => set_settings (<[k := v]> (d_settings d)) d).

Definition get_setting (k : string) (d : db) : option string := d_settings d !! k.
Definition get_settings_map (d : db) : gmap string string := d_settings d.

(** * API tokens *)

Definition create_token (name scope hash prefix : string) (expires : option Z) (now : Z) : M Z :=
  i <- mget (fun d => d_token_seq d + 1) ;;
  stmt (fun d => set_tokens (<[i := Token name hash scope prefix now None expires]> (d_tokens d)) i d) ;;;
  mret i.

Definition list_tokens (d : db) : list (Z * token) :=
  stable_sort (fun a b => a.1 <=? b.1) (map_to_list (d_tokens d)).

Definition get_token_by_hash (h : string) (d : db) : option (Z * token) :=
  head (filter (fun r : Z * token => tk_hash r.2 = h) (map_to_list (d_tokens d))).

Definition touch_token (i now : Z) : M unit :=
  stmt (fun d => set_tokens
    (alter (fun t =>
       if match tk_last_used_at t with None => true | Some u => u <? now - 60 end
       then Token (tk_name t) (tk_hash t) (tk_scope t) (tk_prefix t) (tk_created_at t) (Some now)
              (tk_expires_at t)
       else t) i (d_tokens d)) (d_token_seq d) d).

Definition delete_token (i : Z) : M bool :=
  tx (found <- mget (fun d => bool_decide (is_Some (d_tokens d !! i))) ;;
      if found
      then stmt (fun d => set_tokens (delete i (d_tokens d)) (d_token_seq d) d) ;;; mret true
      else mret false).

(** * Audit log *)

Definition AUDIT_CAP : Z := 2000.

Definition add_audit (a : audit) : M unit :=
  tx (i <- mget (fun d => d_audit_seq d + 1) ;;
      stmt (fun d => set_audit (d_audit d ++ [(i, a)]) i d) ;;;
      stmt (fun d => set_audit (filter (fun r : Z * audit => i - AUDIT_CAP < r.1) (d_audit d))
                       (d_audit_seq d) d)).

Definition list_audit (limit : Z) (d : db) : list audit :=
  snd <$> take (Z.to_nat (Z.max 1 (Z.min limit AUDIT_CAP))) (reverse (d_audit d)).

(** * Connection events *)

Definition EVENT_RETENTION_SEC : Z := 30 * 86400.
Definition EVENT_CAP : Z := 5000.

(** The prune anchor: the newest row already stored, or the new timestamp where
    it is older. *)
Definition anchor (newest : option Z) (ts : Z) : Z :=
  match newest with None => ts | Some m => Z.min ts m end.

Definition prune_cap {A} (cap : Z) (l : list (Z * A)) : list (Z * A) :=
  match zmax_opt l.*1 with
  | None => l
  | Some m => filter (fun r : Z * A => m - cap < r.1) l
  end.

Definition add_event (ts : Z) (kind detail : string) : M unit :=
  tx (newest <- mget (fun d => zmax_opt ((fun r => e_ts r.2) <$> d_events d)) ;;
      i <- mget (fun d => d_event_seq d + 1) ;;
      stmt (fun d => set_events
        (d_events d ++ [(i, Event ts (str_take 64 kind) (str_take 512 detail))]) i d) ;;;
      stmt (fun d => set_events
        (filter (fun r : Z * event => anchor newest ts - EVENT_RETENTION_SEC <= e_ts r.2) (d_events d))
        (d_event_seq d) d) ;;;
      stmt (fun d => set_events (prune_cap EVENT_CAP (d_events d)) (d_event_seq d) d)).

(** Newest last. *)
Definition list_events (since : Z) (kind : string) (limit : Z) (d : db) : list event :=
  last_n (Z.to_nat (Z.max 1 (Z.min limit EVENT_CAP)))
    (filter (fun e => since <= e_ts e /\ (kind = "" \/ e_kind e = kind)) (d_events d).*2).

Definition count_events (kind : string) (since : Z) (d : db) : nat :=
  length (filter (fun e => e_kind e = kind /\ since <= e_ts e) (d_events d).*2).

(** * Traffic *)

Definition TRAFFIC_RETENTION_MIN : Z := 90 * 24 * 60.

(** The upsert adds to a row that exists. *)
Definition add_bytes {K} `{Countable K} (k : K) (up down : Z) (m : gmap K (Z * Z)) : gmap K (Z * Z) :=
  <[k := match m !! k with None => (up, down) | Some (u, v) => (u + up, v + down) end]> m.

Definition add_traffic_minute (ts_min up down : Z) : M unit :=
  tx (newest <- mget (fun d => zmax_opt (map_to_list (d_traffic d)).*1) ;;
      stmt (fun d => set_traffic (add_bytes ts_min up down (d_traffic d)) d) ;;;
      stmt (fun d => set_traffic
        (filter (fun r : Z * (Z * Z) => anchor newest ts_min - TRAFFIC_RETENTION_MIN <= r.1) (d_traffic d)) d)).

Definition in_window (since : Z) (until : option Z) (t : Z) : bool :=
  (since <=? t) && match until with None => true | Some u => t <? u end.

Definition traffic_rows (since : Z) (until : option Z) (d : db) : list (Z * (Z * Z)) :=
  filter (fun r : Z * (Z * Z) => in_window since until r.1 = true) (map_to_list (d_traffic d)).

Definition traffic_total (since : Z) (until : option Z) (d : db) : Z * Z :=
  (zsum ((fun r => r.2.1) <$> traffic_rows since until d),
   zsum ((fun r => r.2.2) <$> traffic_rows since until d)).

Definition traffic_minutes (since : Z) (d : db) : list (Z * (Z * Z)) :=
  stable_sort (fun a b => a.1 <=? b.1) (traffic_rows since None d).

(** The day a minute falls in on the gateway's clock; [/] of SQLite truncates. *)
Definition day_of (tz ts_min : Z) : Z := Z.quot (ts_min * 60 + tz) 86400.

Definition traffic_days (since tz : Z) (d : db) : list (Z * (Z * Z)) :=
  let rows := traffic_rows since None d in
  let days := stable_sort Z.leb (remove_dups ((fun r => day_of tz r.1) <$> rows)) in
  (fun day =>
     let mine := filter (fun r : Z * (Z * Z) => day_of tz r.1 = day) rows in
     (day, (zsum ((fun r => r.2.1) <$> mine), zsum ((fun r => r.2.2) <$> mine)))) <$> days.

Definition add_device_minute (ip : string) (ts_min up down : Z) : M unit :=
  tx (newest <- mget (fun d => zmax_opt ((fun r => r.1.2) <$> map_to_list (d_device d))) ;;
      stmt (fun d => set_device (add_bytes (ip, ts_min) up down (d_device d)) d) ;;;
      stmt (fun d => set_device
        (filter (fun r : (string * Z) * (Z * Z) =>
           anchor newest ts_min - TRAFFIC_RETENTION_MIN <= r.1.2) (d_device d)) d)).

Definition device_usage (since : Z) (d : db) : list (string * (Z * Z)) :=
  let rows := filter (fun r : (string * Z) * (Z * Z) => since <= r.1.2) (map_to_list (d_device d)) in
  let ips := remove_dups ((fun r => r.1.1) <$> rows) in
  stable_sort (fun a b => b.2.1 + b.2.2 <=? a.2.1 + a.2.2)
    ((fun ip =>
        let mine := filter (fun r : (string * Z) * (Z * Z) => r.1.1 = ip) rows in
        (ip, (zsum ((fun r => r.2.1) <$> mine), zsum ((fun r => r.2.2) <$> mine)))) <$> ips).

Definition device_minutes (ip : string) (since : Z) (d : db) : list (Z * (Z * Z)) :=
  stable_sort (fun a b => a.1 <=? b.1)
    ((fun r : (string * Z) * (Z * Z) => (r.1.2, r.2)) <$> filter (fun r => r.1.1 = ip /\ since <= r.1.2) (map_to_list (d_device d))).

(** * Subscriptions *)

Definition with_sub_id (i : Z) (s : subscription) : subscription :=
  Subscription (Some i) (s_name s) (s_url s) (s_injection s) (s_interval_sec s) (s_enabled s)
    (s_default_profile_id s) None None None None None None None None [].

(** The INSERT names six columns; the others take their defaults. *)
Definition add_subscription (s : subscription) : M Z :=
  i <- mget (fun d => d_sub_seq d + 1) ;;
  stmt (fun d => set_subs (<[i := with_sub_id i s]> (d_subs d)) i d) ;;;
  mret i.

Definition get_subscription (i : Z) (d : db) : option subscription := d_subs d !! i.

Definition list_subscriptions (d : db) : list subscription :=
  snd <$> stable_sort (fun a b : Z * subscription => a.1 <=? b.1) (map_to_list (d_subs d)).

(** Every column but [last_skipped]. *)
Definition update_subscription (s : subscription) : M unit :=
  match s_id s with
  | None => mraise AssertionError
  | Some i =>
      stmt (fun d => set_subs
        (alter (fun o => Subscription (Some i) (s_name s) (s_url s) (s_injection s)
           (s_interval_sec s) (s_enabled s) (s_default_profile_id s) (s_last_fetched s)
           (s_last_status s) (s_last_path s) (s_last_error s) (s_up_bytes s) (s_down_bytes s)
           (s_total_bytes s) (s_expire_at s) (s_last_skipped o)) i (d_subs d)) (d_sub_seq d) d)
  end.

(** Only the columns a fetch owns, so a concurrent edit survives. *)
Definition update_subscription_refresh (s : subscription) (success : bool) : M unit :=
  match s_id s with
  | None => mraise AssertionError
  | Some i =>
      stmt (fun d => set_subs
        (alter (fun o => Subscription (Some i) (s_name o) (s_url o) (s_injection o)
           (s_interval_sec o) (s_enabled o) (s_default_profile_id o)
           (if success then s_last_fetched s else s_last_fetched o)
           (s_last_status s) (s_last_path s) (s_last_error s) (s_up_bytes s) (s_down_bytes s)
           (s_total_bytes s) (s_expire_at s) (s_last_skipped s)) i (d_subs d)) (d_sub_seq d) d)
  end.

(** [subscription_shrink:<id>] *)
Definition shrink_key (sub : Z) : string := "subscription_shrink:" +:+ str_int sub.

Definition detach_sub (sub : Z) (n : node) : node :=
  if decide (n_subscription_id n = Some sub) then with_subscription None n else n.

Definition delete_subscription (sub : Z) : M unit :=
  tx (stmt (fun d => set_nodes (detach_sub sub <$> d_nodes d) d) ;;;
      stmt (fun d => set_subs (delete sub (d_subs d)) (d_sub_seq d) d) ;;;
      stmt (fun d => set_settings (delete (shrink_key sub) (d_settings d)) d)).

(** * Tuning profiles *)

Definition with_profile_id (i : Z) (p : profile) : profile :=
  Profile (Some i) (p_name p) (p_fingerprint p) (p_frag_enabled p) (p_frag_packets p)
    (p_frag_length p) (p_frag_interval p) (p_mux_enabled p) (p_doh_enabled p) (p_doh_url p)
    (p_quic p) (p_noise_enabled p) (p_noises p) (p_xhttp_padding p) (p_xmux_max_concurrency p)
    (p_xmux_max_connections p) (p_mux_concurrency p) (p_xudp_proxy_udp443 p) (p_alpn p)
    (p_tls_min p) (p_tls_max p).

Definition add_profile (p : profile) : M Z :=
  i <- mget (fun d => d_profile_seq d + 1) ;;
  stmt (fun d => set_profiles (<[i := with_profile_id i p]> (d_profiles d)) i d) ;;;
  mret i.

Definition get_profile (i : Z) (d : db) : option profile := d_profiles d !! i.

Definition list_profiles (d : db) : list profile :=
  snd <$> stable_sort (fun a b : Z * profile => a.1 <=? b.1) (map_to_list (d_profiles d)).

Definition update_profile (p : profile) : M unit :=
  match p_id p with
  | None => mraise AssertionError
  | Some i => stmt (fun d => set_profiles (alter (fun _ => p) i (d_profiles d)) (d_profile_seq d) d)
  end.

Definition detach_profile (pid : Z) (n : node) : node :=
  if decide (n_tuning_profile_id n = Some pid) then with_profile None n else n.

Definition delete_profile (pid : Z) : M unit :=
  tx (stmt (fun d => set_nodes (detach_profile pid <$> d_nodes d) d) ;;;
      stmt (fun d => set_profiles (delete pid (d_profiles d)) (d_profile_seq d) d)).

(** [int(did)] raises on a malformed setting: the outer [option] is that. *)
Definition get_default_profile (d : db) : option (option profile) :=
  match get_setting "default_profile_id" d with
  | Some (String _ _ as did) => (fun i => get_profile i d) <$> py_int did
  | _ => Some None
  end.

Definition set_default_profile (i : Z) : M unit := set_setting "default_profile_id" (str_int i).

(** * Routing rules *)

Definition get_routing (d : db) : list rule :=
  stable_sort (fun a b => r_position a <=? r_position b) (d_routing d).

Fixpoint insert_rules (i : Z) (rs : list rule) : M unit :=
  match rs with
  | [] => mret tt
  | r :: rs' =>
      stmt (fun d => set_routing
        (d_routing d ++ [Rule None i (r_type r) (r_value r) (r_action r) (r_enabled r) (r_label r)
                           (r_dataset r)]) d) ;;;
      insert_rules (i + 1) rs'
  end.

Definition replace_routing (rs : list rule) : M unit :=
  tx (stmt (fun d => set_routing [] d) ;;; insert_rules 0 rs).

(** * DHCP reservations *)

Definition list_reservations (d : db) : list reservation :=
  stable_sort (fun a b => String.leb (res_ip a) (res_ip b)) (map_to_list (d_reservations d)).*2.

Definition add_reservation (r : reservation) : M Z :=
  i <- mget (fun d => d_res_seq d + 1) ;;
  stmt (fun d => set_reservations
    (<[i := Reservation (Some i) (res_mac r) (res_ip r) (res_name r) (res_created_at r)]>
       (d_reservations d)) i d) ;;;
  mret i.

Definition rename_reservation (i : Z) (name : string) : M unit :=
  stmt (fun d => set_reservations
    (alter (fun r => Reservation (res_id r) (res_mac r) (res_ip r) name (res_created_at r)) i
       (d_reservations d)) (d_res_seq d) d).

Definition delete_reservation (i : Z) : M unit :=
  stmt (fun d => set_reservations (delete i (d_reservations d)) (d_res_seq d) d).

(** * Node health *)

Definition upsert_health (h : health) : M unit :=
  stmt (fun d => set_health
    (partial_alter (fun o => Some (Health (h_node_id h) (h_tcp_ok h) (h_tcp_ms h) (h_http_ok h)
       (h_http_ms h) (h_real_ok h) (h_real_ms h) (h_egress_ip h) (h_egress_ip6 h) (h_checked_at h)
       (h_fail_count h) (from_option h_lat_history [] o))) (h_node_id h) (d_health d)) d).

(** The row a direct probe leaves; [checked_at] never moves back. *)
Definition direct_row (i : Z) (tcp_ok : bool) (tcp_ms : option Z) (http_ok : bool)
    (http_ms : option Z) (checked_at : option Z) (o : option health) : health :=
  match o with
  | None => Health i (Some tcp_ok) tcp_ms (Some http_ok) http_ms None None None None checked_at 0 []
  | Some h =>
      Health i (Some tcp_ok) tcp_ms (Some http_ok) http_ms (h_real_ok h) (h_real_ms h)
        (h_egress_ip h) (h_egress_ip6 h)
        match checked_at, h_checked_at h with
        | None, old => old
        | Some t, None => Some t
        | Some t, Some u => if u <=? t then Some t else Some u
        end
        (h_fail_count h) (h_lat_history h)
  end.

Definition update_health_direct (i : Z) (tcp_ok : bool) (tcp_ms : option Z) (http_ok : bool)
    (http_ms : option Z) (checked_at : option Z) : M unit :=
  stmt (fun d => set_health
    (partial_alter (fun o => Some (direct_row i tcp_ok tcp_ms http_ok http_ms checked_at o))
       i (d_health d)) d).

(** Is the new result at least as recent as the stored one? *)
Definition newer (t : Z) (h : health) : bool :=
  match h_checked_at h with None => true | Some u => u <=? t end.

(** The row a real request through the node leaves: stale results change nothing
    but cost nothing either, and [fail_count] counts consecutive failures. *)
Definition real_row (i : Z) (real_ok : bool) (real_ms : option Z) (ip ip6 : option string) (t : Z)
    (o : option health) : health :=
  match o with
  | None => Health i None None None None (Some real_ok) real_ms ip ip6 (Some t)
              (if real_ok then 0 else 1) []
  | Some h =>
      if newer t h
      then Health i (h_tcp_ok h) (h_tcp_ms h) (h_http_ok h) (h_http_ms h) (Some real_ok) real_ms
             ip ip6 (Some t) (if real_ok then 0 else h_fail_count h + 1) (h_lat_history h)
      else Health i (h_tcp_ok h) (h_tcp_ms h) (h_http_ok h) (h_http_ms h) (h_real_ok h) (h_real_ms h)
             (h_egress_ip h) (h_egress_ip6 h) (h_checked_at h) (h_fail_count h) (h_lat_history h)
  end.

Definition update_health_real (i : Z) (real_ok : bool) (real_ms : option Z) (ip ip6 : option string)
    (t : Z) : M unit :=
  stmt (fun d => set_health
    (partial_alter (fun o => Some (real_row i real_ok real_ms ip ip6 t o)) i (d_health d)) d).

Definition get_health (i : Z) (d : db) : option health := d_health d !! i.

Definition list_health (d : db) : list health :=
  snd <$> stable_sort (fun a b : Z * health => a.1 <=? b.1) (map_to_list (d_health d)).

Definition LAT_CAP : nat := 20.

Definition record_latency (i ms : Z) : M unit :=
  tx (stmt (fun d => set_health
    (alter (fun h => Health (h_node_id h) (h_tcp_ok h) (h_tcp_ms h) (h_http_ok h) (h_http_ms h)
       (h_real_ok h) (h_real_ms h) (h_egress_ip h) (h_egress_ip6 h) (h_checked_at h)
       (h_fail_count h) (last_n LAT_CAP (h_lat_history h ++ [ms]))) i (d_health d)) d)).
