(* ===== verification/StoreFacts.v ===== *)
(** Lemmas about the store that the components use: which statements can fail,
    what each operation leaves behind, and that every operation keeps the schema's
    constraints. *)
From Stdlib Require Import ZArith Lia Permutation Sorted.
From stdpp Require Import base gmap strings list fin_maps.
From S2P Require Import Prelude PyStr Models Store.
Open Scope Z_scope.

(** * The monad *)

Lemma stmt_ok f d : constraints (f d) -> stmt f d = (inr tt, f d).
Proof. intros H. unfold stmt. destruct (decide _); [done|contradiction]. Qed.

Lemma stmt_eq f d d1 : f d = d1 -> constraints d1 -> stmt f d = (inr tt, d1).
Proof. intros <-. apply stmt_ok. Qed.

Lemma stmt_fail f d : ~ constraints (f d) -> stmt f d = (inl IntegrityError, d).
Proof. intros H. unfold stmt. destruct (decide _); [contradiction|done]. Qed.

(** An operation that keeps the constraints, whether it returns or raises. *)
Definition keeps {A} (m : M A) : Prop := forall d, constraints d -> constraints (m d).2.

Lemma keeps_ret {A} (a : A) : keeps (mret a).
Proof. by intros d H. Qed.
Lemma keeps_get {A} (f : db -> A) : keeps (mget f).
Proof. by intros d H. Qed.
Lemma keeps_raise {A} e : keeps (@mraise A e).
Proof. by intros d H. Qed.
Lemma keeps_stmt f : keeps (stmt f).
Proof. intros d H. unfold stmt. by case_decide. Qed.
Lemma keeps_bind {A B} (m : M A) (k : A -> M B) :
  keeps m -> (forall a, keeps (k a)) -> keeps (mbind m k).
Proof.
  intros Hm Hk d Hd. unfold mbind. specialize (Hm d Hd).
  destruct (m d) as [[e|a] d']; [done|]. by apply Hk.
Qed.
Lemma keeps_tx {A} (m : M A) : keeps m -> keeps (tx m).
Proof.
  intros Hm d Hd. unfold tx. specialize (Hm d Hd). by destruct (m d) as [[e|a] d'].
Qed.
Lemma keeps_for {A} (l : list A) f : (forall x, keeps (f x)) -> keeps (mfor l f).
Proof. intros Hf. induction l; simpl; [apply keeps_ret|]. by apply keeps_bind. Qed.
Lemma keeps_if {A} (b : bool) (m1 m2 : M A) : keeps m1 -> keeps m2 -> keeps (if b then m1 else m2).
Proof. by destruct b. Qed.

Create HintDb keeps.
#[export] Hint Resolve keeps_ret keeps_get keeps_raise keeps_stmt keeps_bind keeps_tx keeps_for
  keeps_if : keeps.
#[export] Hint Extern 1 (keeps _) => progress intros : keeps.

(** A transaction that raises leaves the database as it was. *)
Lemma tx_atomic {A} (m : M A) d e d' : tx m d = (inl e, d') -> d' = d.
Proof. unfold tx. intros H. by inv_match H. Qed.

(** * Statements that cannot fail: tables without constraints *)

Lemma constraints_settings x d : constraints d -> constraints (set_settings x d).
Proof. done. Qed.
Lemma constraints_events x y d : constraints d -> constraints (set_events x y d).
Proof. done. Qed.
Lemma constraints_audit x y d : constraints d -> constraints (set_audit x y d).
Proof. done. Qed.
Lemma constraints_traffic x d : constraints d -> constraints (set_traffic x d).
Proof. done. Qed.
Lemma constraints_device x d : constraints d -> constraints (set_device x d).
Proof. done. Qed.
#[export] Hint Resolve constraints_settings constraints_events constraints_audit
  constraints_traffic constraints_device : v2pi.

(** Runs store code whose statements cannot fail. *)
Ltac run_stmt := unfold mbind, mget, tx, mret; cbn beta iota zeta;
  repeat (rewrite stmt_ok by eauto with v2pi; cbn beta iota zeta).

Lemma set_setting_run k v d :
  constraints d -> set_setting k v d = (inr tt, set_settings (<[k := v]> (d_settings d)) d).
Proof. intros. unfold set_setting. rewrite stmt_ok; auto with v2pi. Qed.

Lemma get_set_setting k v k' d :
  get_setting k' (set_settings (<[k := v]> (d_settings d)) d) =
  if decide (k = k') then Some v else get_setting k' d.
Proof.
  unfold get_setting. simpl. case_decide as Hk; [subst; by rewrite lookup_insert_eq|].
  by rewrite lookup_insert_ne.
Qed.

(** * Uniqueness and references under table updates *)

Lemma unique_by_alt {V B} `{EqDecision B} (f : V -> B) (m : gmap Z V) :
  unique_by f m <->
  (forall i j x y, m !! i = Some x -> m !! j = Some y -> f x = f y -> i = j).
Proof. unfold unique_by, map_Forall. naive_solver. Qed.

Lemma unique_by_insert {V B} `{EqDecision B} (f : V -> B) (m : gmap Z V) i x :
  unique_by f m -> (forall j y, m !! j = Some y -> i <> j -> f x <> f y) ->
  unique_by f (<[i := x]> m).
Proof.
  rewrite !unique_by_alt. intros Hm Hx a b y z Ha Hb Heq.
  destruct (decide (i = a)) as [<-|Na], (decide (i = b)) as [<-|Nb]; simplify_map_eq;
    [done|by destruct (Hx b z)|by destruct (Hx a y)|by eapply Hm].
Qed.

Lemma unique_by_alter {V B} `{EqDecision B} (f : V -> B) (g : V -> V) (m : gmap Z V) i :
  unique_by f m ->
  (forall x, m !! i = Some x ->
     f (g x) = f x \/ forall j y, m !! j = Some y -> i <> j -> f (g x) <> f y) ->
  unique_by f (alter g i m).
Proof.
  intros Hm Hx. destruct (m !! i) as [x|] eqn:E; [|by rewrite alter_id by naive_solver].
  assert (alter g i m = <[i := g x]> m) as ->.
  { apply map_eq. intros j. rewrite lookup_alter, lookup_insert. case_decide; subst; [|done].
    by rewrite E. }
  apply unique_by_insert; [done|]. intros j y Hj Hij. destruct (Hx x eq_refl) as [Hg|Hg]; [|eauto].
  rewrite Hg. intros Heq. apply Hij. by eapply (proj1 (unique_by_alt f m) Hm).
Qed.

Lemma unique_by_delete {V B} `{EqDecision B} (f : V -> B) (m : gmap Z V) i :
  unique_by f m -> unique_by f (delete i m).
Proof.
  rewrite !unique_by_alt. intros Hm a b y z Ha Hb.
  apply lookup_delete_Some in Ha as [_ Ha], Hb as [_ Hb]. by eapply Hm.
Qed.

Lemma unique_by_fmap {V B} `{EqDecision B} (f : V -> B) (g : V -> V) (m : gmap Z V) :
  unique_by f m -> (forall x, f (g x) = f x) -> unique_by f (g <$> m).
Proof.
  rewrite !unique_by_alt. intros Hm Hg a b y z Ha Hb.
  rewrite lookup_fmap in Ha, Hb.
  apply fmap_Some in Ha as (x & Ha & ->), Hb as (w & Hb & ->). rewrite !Hg. by eapply Hm.
Qed.

Lemma refs_insert {V} k i (x : V) m : refs k m -> refs k (<[i := x]> m).
Proof.
  destruct k as [j|]; simpl; [|done]. intros [y Hy]. rewrite lookup_insert. case_decide; eauto.
Qed.

Lemma refs_alter {V} k i (g : V -> V) m : refs k m -> refs k (alter g i m).
Proof.
  destruct k as [j|]; simpl; [|done]. intros [y Hy]. rewrite lookup_alter.
  case_decide as Hij; [|eauto]. subst. rewrite Hy. eauto.
Qed.

Lemma refs_fmap {V W} k (g : V -> W) (m : gmap Z V) : refs k m -> refs k (g <$> m).
Proof. destruct k as [j|]; simpl; [|done]. intros [y Hy]. rewrite lookup_fmap, Hy. eauto. Qed.

Lemma map_Forall_alter {V} (P : Z -> V -> Prop) (g : V -> V) i (m : gmap Z V) :
  map_Forall P m -> (forall x, m !! i = Some x -> P i (g x)) -> map_Forall P (alter g i m).
Proof.
  intros Hm Hg j y Hj. rewrite lookup_alter in Hj. case_decide; simplify_eq/=; [|by apply Hm].
  apply fmap_Some in Hj as (x & Hx & ->). by apply Hg.
Qed.

Lemma map_Forall_fmap' {V} (P : Z -> V -> Prop) (g : V -> V) (m : gmap Z V) :
  map_Forall P m -> (forall i x, m !! i = Some x -> P i x -> P i (g x)) -> map_Forall P (g <$> m).
Proof.
  intros Hm Hg j y Hj. rewrite lookup_fmap in Hj. apply fmap_Some in Hj as (x & Hx & ->). eauto.
Qed.

(** * What single operations do *)

Lemma constraints_health h d :
  constraints d -> map_Forall (fun i (_ : health) => refs (Some i) (d_nodes d)) h ->
  constraints (set_health h d).
Proof. unfold constraints. simpl. tauto. Qed.

Lemma map_Forall_partial_alter {V} (P : Z -> V -> Prop) g i (m : gmap Z V) :
  map_Forall P m -> (forall x, g (m !! i) = Some x -> P i x) -> map_Forall P (partial_alter g i m).
Proof.
  intros Hm Hg j y Hj. rewrite lookup_partial_alter in Hj. case_decide; subst; eauto.
Qed.

Lemma constraints_health_alter g i d :
  constraints d -> is_Some (d_nodes d !! i) ->
  constraints (set_health (partial_alter g i (d_health d)) d).
Proof.
  intros Hc Hi. apply constraints_health; [done|]. apply map_Forall_partial_alter; [apply Hc|done].
Qed.
#[export] Hint Resolve constraints_health_alter : v2pi.

Lemma update_health_real_run i ok ms ip ip6 t d :
  constraints d -> is_Some (d_nodes d !! i) ->
  update_health_real i ok ms ip ip6 t d =
    (inr tt, set_health (<[i := real_row i ok ms ip ip6 t (d_health d !! i)]> (d_health d)) d).
Proof.
  intros Hc Hi. unfold update_health_real. rewrite stmt_ok by auto with v2pi. do 2 f_equal.
  apply map_eq. intros j. rewrite lookup_partial_alter, lookup_insert. by case_decide; subst.
Qed.

(** A health row needs its node. *)
Lemma update_health_real_orphan i ok ms ip ip6 t d :
  d_nodes d !! i = None -> update_health_real i ok ms ip ip6 t d = (inl IntegrityError, d).
Proof.
  intros Hi. unfold update_health_real. apply stmt_fail. intros (_ & _ & _ & H & _).
  specialize (H i). simpl in H. rewrite lookup_partial_alter_eq in H.
  specialize (H _ eq_refl) as [x Hx]. by rewrite Hi in Hx.
Qed.

Lemma delete_node_run i d :
  constraints d ->
  delete_node i d =
    (inr tt, set_nodes (delete i (d_nodes d)) (set_health (delete i (d_health d)) d)).
Proof.
  intros Hc. unfold delete_node, tx, mbind.
  assert (constraints (set_health (delete i (d_health d)) d)) as Hc1.
  { apply constraints_health; [done|]. apply map_Forall_delete, Hc. }
  rewrite stmt_ok by done. rewrite stmt_ok; [done|].
  destruct Hc as (Hu & Hs & Hp & Hh & Hrest). unfold constraints; simpl. split_and!; try apply Hrest.
  - by apply unique_by_delete.
  - by apply map_Forall_delete.
  - by apply map_Forall_delete.
  - intros j h Hj. apply lookup_delete_Some in Hj as [Hij Hj].
    specialize (Hh j h Hj) as [n Hn]. exists n. by rewrite lookup_delete_ne.
Qed.

Lemma keeps_delete_node i : keeps (delete_node i).
Proof. unfold delete_node. auto 10 with keeps. Qed.
