(* ===== verification/StoreProps.v ===== *)
(** What the store promises its callers: bounded, clock-safe logs; conservation of
    the traffic counters; the consecutive-failure counter failover decides on; the
    routing table's round trip; and exactly when a deletion is refused. *)
From Stdlib Require Import ZArith Lia Permutation Sorted.
From stdpp Require Import base gmap strings list fin_maps.
From S2P Require Import Prelude PyStr Models Store StoreFacts.
Open Scope Z_scope.

Module Logs.

(** Row ids are distinct and were all handed out. *)
Definition ids_ok {A} (seq : Z) (l : list (Z * A)) : Prop :=
  StronglySorted Z.lt l.*1 /\ Forall (fun i => i <= seq) l.*1.

Lemma zmax_snoc (l : list Z) x : Forall (fun y => y <= x) l -> zmax_opt (l ++ [x]) = Some x.
Proof.
  intros H. destruct (zmax_opt_ge (l ++ [x]) x) as (m & Hm & Hx); [set_solver|].
  rewrite Hm. f_equal. apply zmax_opt_elem in Hm. rewrite Forall_forall in H.
  apply elem_of_app in Hm as [Hm|Hm]; [specialize (H _ Hm); lia|]. set_solver.
Qed.

Lemma prune_cap_snoc {A} cap (l : list (Z * A)) i x :
  Forall (fun j => j <= i) l.*1 ->
  prune_cap cap (l ++ [(i, x)]) = filter (fun r : Z * A => i - cap < r.1) (l ++ [(i, x)]).
Proof. intros H. unfold prune_cap. rewrite fmap_app. simpl. by rewrite zmax_snoc. Qed.

(** Distinct integers in a window of [n] are at most [n]. *)
Lemma window_length (l : list Z) lo n :
  StronglySorted Z.lt l -> Forall (fun i => lo < i <= lo + Z.of_nat n) l -> (length l <= n)%nat.
Proof.
  revert lo n. induction l as [|x l IH]; intros lo n Hs Hb; simpl; [lia|].
  apply StronglySorted_inv in Hs as [Hs Hx]. apply Forall_cons in Hb as [Hb Hl].
  destruct n as [|n]; [lia|].
  cut (length l <= Z.to_nat (lo + Z.of_nat (S n) - x))%nat; [lia|].
  apply (IH x); [done|]. rewrite Forall_forall in *. intros y Hy.
  specialize (Hx y Hy). specialize (Hl y Hy). lia.
Qed.

Lemma ssorted_filter {A} (R : Z -> Z -> Prop) (P : Z * A -> Prop) `{forall x, Decision (P x)} l :
  StronglySorted R l.*1 -> StronglySorted R (filter P l).*1.
Proof.
  induction l as [|x l IH]; simpl; [done|]. intros [Hs Hx]%StronglySorted_inv.
  rewrite filter_cons. case_decide; [|by apply IH]. simpl. constructor; [by apply IH|].
  rewrite Forall_forall in *. intros y Hy. apply Hx.
  apply list_elem_of_fmap in Hy as (z & -> & Hz). apply list_elem_of_filter in Hz as [_ Hz].
  by apply list_elem_of_fmap_2.
Qed.

Lemma ssorted_snoc (l : list Z) x : StronglySorted Z.lt l -> Forall (fun y => y < x) l ->
  StronglySorted Z.lt (l ++ [x]).
Proof.
  induction 1 as [|y l Hl IH Hy]; simpl; intros Hx; [repeat constructor|].
  apply Forall_cons in Hx as [Hyx Hx]. constructor; [by apply IH|].
  apply Forall_app. split; [done|]. by repeat constructor.
Qed.

(** The rows a new event leaves. *)
Definition kept (seq : Z) (newest : option Z) (ts : Z) (l : list (Z * event)) (e : event) :=
  filter (fun r : Z * event => seq + 1 - EVENT_CAP < r.1)
    (filter (fun r : Z * event => anchor newest ts - EVENT_RETENTION_SEC <= e_ts r.2) l
       ++ [(seq + 1, e)]).

Lemma add_event_run ts kind detail d :
  constraints d -> ids_ok (d_event_seq d) (d_events d) ->
  add_event ts kind detail d =
    (inr tt, set_events
       (kept (d_event_seq d) (zmax_opt ((fun r => e_ts r.2) <$> d_events d)) ts (d_events d)
          (Event ts (str_take 64 kind) (str_take 512 detail)))
       (d_event_seq d + 1) d).
Proof.
  intros Hc [Hs Hi]. unfold add_event. run_stmt. unfold kept, set_events; simpl. do 2 f_equal.
  set (newest := zmax_opt _). simpl. rewrite filter_app, filter_cons, filter_nil.
  rewrite decide_True by (simpl; destruct newest; unfold EVENT_RETENTION_SEC; simpl; lia).
  rewrite prune_cap_snoc; [done|]. rewrite Forall_forall in *. intros x Hx.
  apply list_elem_of_fmap in Hx as (z & -> & Hz). apply list_elem_of_filter in Hz as [_ Hz].
  apply (list_elem_of_fmap_2 fst) in Hz. specialize (Hi _ Hz). lia.
Qed.

(** The newest timestamp of a log. *)
Definition newest_row (l : list (Z * event)) (s : Z * event) : Prop :=
  s ∈ l /\ forall u, u ∈ l -> e_ts u.2 <= e_ts s.2.

Lemma newest_spec l m :
  zmax_opt ((fun r : Z * event => e_ts r.2) <$> l) = Some m ->
  exists s, newest_row l s /\ e_ts s.2 = m.
Proof.
  intros Hm. pose proof (zmax_opt_elem _ _ Hm) as (s & -> & Hs)%list_elem_of_fmap.
  exists s. split_and!; [|done]. split; [done|]. intros u Hu.
  destruct (zmax_opt_ge _ _ (list_elem_of_fmap_2 (fun r => e_ts r.2) _ _ Hu)) as (m' & Hm' & ?).
  rewrite Hm' in Hm. by simplify_eq.
Qed.

Lemma kept_ids seq newest ts l e : ids_ok seq l -> ids_ok (seq + 1) (kept seq newest ts l e).
Proof.
  intros [Hs Hi]. unfold kept. split.
  - apply ssorted_filter. rewrite fmap_app. apply ssorted_snoc; [by apply ssorted_filter|].
    rewrite Forall_forall in *. intros x (z & -> & [_ Hz]%list_elem_of_filter)%list_elem_of_fmap.
    apply (list_elem_of_fmap_2 fst) in Hz. specialize (Hi _ Hz). simpl in *. lia.
  - rewrite Forall_forall in *. intros x (z & -> & [_ Hz]%list_elem_of_filter)%list_elem_of_fmap.
    apply elem_of_app in Hz as [[_ Hz]%list_elem_of_filter| ->%list_elem_of_singleton]; [|done].
    apply (list_elem_of_fmap_2 fst) in Hz. specialize (Hi _ Hz). simpl in *. lia.
Qed.

Lemma kept_length seq newest ts l e :
  ids_ok seq l -> Z.of_nat (length (kept seq newest ts l e)) <= EVENT_CAP.
Proof.
  intros [Hs Hi]%(kept_ids seq newest ts l e). rewrite <- (length_fmap fst).
  enough (length (kept seq newest ts l e).*1 <= Z.to_nat EVENT_CAP)%nat by (unfold EVENT_CAP in *; lia).
  apply (window_length _ (seq + 1 - EVENT_CAP)); [done|].
  rewrite Forall_forall in *. intros x Hx. specialize (Hi x Hx).
  apply list_elem_of_fmap in Hx as (z & -> & [Hz _]%list_elem_of_filter).
  unfold EVENT_CAP in *. lia.
Qed.

(** A row is recent when it is at most 30 days older than the new timestamp or
    than the newest row. *)
Definition recent (ts : Z) (l : list (Z * event)) (r : Z * event) : Prop :=
  ts - EVENT_RETENTION_SEC <= e_ts r.2 \/
  exists s, newest_row l s /\ e_ts s.2 - EVENT_RETENTION_SEC <= e_ts r.2.

Lemma anchor_recent ts l r : r ∈ l ->
  anchor (zmax_opt ((fun r : Z * event => e_ts r.2) <$> l)) ts - EVENT_RETENTION_SEC <= e_ts r.2 <->
  recent ts l r.
Proof.
  intros Hr. unfold recent, anchor. destruct (zmax_opt _) as [m|] eqn:Em.
  - destruct (newest_spec _ _ Em) as (s & Hs & <-). split.
    + intros Ha. destruct (Z.min_spec ts (e_ts s.2)) as [[_ E]|[_ E]]; rewrite E in Ha; eauto.
    + intros [Hts|(s' & [_ Hmax] & Hts)]; [lia|]. specialize (Hmax s (proj1 Hs)). lia.
  - apply zmax_opt_None, fmap_nil_inv in Em. subst. by apply elem_of_nil in Hr.
Qed.

(** recording an event never fails and never loses the event; the log holds
    at most 5000 rows and its ids stay distinct; and an old row is dropped only
    when it is 5000 ids old or more than 30 days older than both the new timestamp
    and the newest row already stored, so one timestamp from a clock that jumped
    forward drops nothing that was not already outdated. *)
Theorem add_event_bounded ts kind detail d (Hc : constraints d)
    (Hi : ids_ok (d_event_seq d) (d_events d)) :
  exists d', add_event ts kind detail d = (inr tt, d') /\
    ids_ok (d_event_seq d') (d_events d') /\
    Z.of_nat (length (d_events d')) <= EVENT_CAP /\
    (forall r, r ∈ d_events d' <->
       r = (d_event_seq d + 1, Event ts (str_take 64 kind) (str_take 512 detail)) \/
       (r ∈ d_events d /\ d_event_seq d + 1 - EVENT_CAP < r.1 /\ recent ts (d_events d) r)).
Proof.
  rewrite add_event_run by done. eexists; split; [done|]. simpl.
  split; [by apply kept_ids|]. split; [by apply kept_length|].
  intros r. unfold kept. rewrite list_elem_of_filter, elem_of_app, list_elem_of_filter,
    list_elem_of_singleton. split.
  - intros [Hcap [[Ha Hr]| ->]]; [right|by left]. rewrite <- anchor_recent; done.
  - intros [-> |(Hr & Hcap & Hts)]; [split; [simpl; unfold EVENT_CAP; lia|by right]|].
    rewrite <- anchor_recent in Hts by done. auto.
Qed.

Example add_event_bounded_witness :
  exists d', add_event 10 "boot" "" empty_db = (inr tt, d') /\ Z.of_nat (length (d_events d')) <= EVENT_CAP.
Proof.
  destruct (add_event_bounded 10 "boot" "" empty_db) as (d' & H & _ & Hl & _).
  - apply (bool_decide_unpack _). by vm_compute.
  - split; constructor.
  - exists d'. by split.
Defined.

End Logs.

(** * Traffic *)
Module Traffic.

Section sums.
Context {K V : Type} `{Countable K}.
Implicit Types (w : K * V -> Z) (m : gmap K V).

(** A weight summed over a table. *)
Definition msum w m : Z := zsum (w <$> map_to_list m).

Lemma msum_insert w m k v : msum w (<[k := v]> m) = w (k, v) + msum w (delete k m).
Proof.
  unfold msum. rewrite <- insert_delete_eq.
  rewrite (zsum_perm _ (w <$> ((k, v) :: map_to_list (delete k m)))); [done|].
  apply fmap_Permutation, map_to_list_insert, lookup_delete_eq.
Qed.

Lemma msum_delete w m k v : m !! k = Some v -> msum w m = w (k, v) + msum w (delete k m).
Proof.
  intros Hk. unfold msum. rewrite (zsum_perm _ (w <$> ((k, v) :: map_to_list (delete k m)))); [done|].
  apply fmap_Permutation. by rewrite map_to_list_delete.
Qed.

(** Removing rows of weight 0 does not change a sum. *)
Lemma msum_filter w (P : K * V -> Prop) `{forall r, Decision (P r)} m :
  (forall r, ~ P r -> w r = 0) -> msum w (filter P m) = msum w m.
Proof.
  intros Hw. induction m as [|k v m Hk IH] using map_ind; [by rewrite map_filter_empty|].
  rewrite map_filter_insert, msum_insert, (delete_id m) by done. case_decide as HP.
  - rewrite msum_insert, delete_id by (by rewrite map_lookup_filter, Hk). by rewrite IH.
  - rewrite IH, Hw by done. lia.
Qed.
End sums.

Lemma zsum_filter {A} (P : A -> Prop) `{forall x, Decision (P x)} (g : A -> Z) l :
  zsum (g <$> filter P l) = zsum ((fun x => if decide (P x) then g x else 0) <$> l).
Proof.
  induction l as [|x l IH]; [done|]. rewrite filter_cons. simpl. case_decide; simpl; [f_equal|]; exact IH.
Qed.

(** Rows grouped by a key and summed per group sum to the whole. *)
Lemma group_sum {A K} `{EqDecision K} (f : A -> K) (g : A -> Z) (ks : list K) l :
  NoDup ks -> (forall x, x ∈ l -> f x ∈ ks) ->
  zsum ((fun k => zsum (g <$> filter (fun x => f x = k) l)) <$> ks) = zsum (g <$> l).
Proof.
  intros Hn. revert l. induction Hn as [|k ks Hk Hn IH]; intros l Hl.
  - destruct l as [|x l]; [done|]. destruct (elem_of_nil (f x)) as [H _]. destruct H. apply Hl. constructor.
  - rewrite fmap_cons, zsum_cons, (zsum_filter (fun x => f x = k)).
    assert (zsum ((fun k0 => zsum (g <$> filter (fun x => f x = k0) l)) <$> ks) =
            zsum (g <$> filter (fun x => f x <> k) l)) as ->.
    { rewrite <- (IH (filter (fun x => f x <> k) l)).
      - f_equal. apply list_fmap_ext. intros ? k' Hk'%list_elem_of_lookup_2. f_equal.
        rewrite list_filter_filter_l; [done|]. intros x Hx. congruence.
      - intros x [Hx Hin]%list_elem_of_filter. apply Hl in Hin. set_solver. }
    rewrite zsum_filter. clear. induction l as [|x l IH]; [done|].
    rewrite !fmap_cons, !zsum_cons, <- IH. repeat case_decide; try done; lia.
Qed.

(** the per-day table is a partition of the minutes: whatever the window and
    the time-zone offset, the days' sums add up to the totals the accounting page
    shows, and no day appears twice. *)
Theorem traffic_days_total since tz d :
  NoDup (traffic_days since tz d).*1 /\
  zsum ((fun r => r.2.1) <$> traffic_days since tz d) = (traffic_total since None d).1 /\
  zsum ((fun r => r.2.2) <$> traffic_days since tz d) = (traffic_total since None d).2.
Proof.
  unfold traffic_days, traffic_total. set (rows := traffic_rows since None d).
  set (days := stable_sort _ _).
  assert (Hn : NoDup days) by (unfold days; rewrite stable_sort_perm; apply NoDup_remove_dups).
  assert (Hd : forall x, x ∈ rows -> day_of tz x.1 ∈ days).
  { intros x Hx. apply stable_sort_elem, elem_of_remove_dups.
    by apply (list_elem_of_fmap_2 (fun r : Z * (Z * Z) => day_of tz r.1)). }
  rewrite <- !list_fmap_compose. unfold compose; simpl. rewrite list_fmap_id. split; [done|].
  split; by apply (group_sum (fun r : Z * (Z * Z) => day_of tz r.1)).
Qed.

(** The oldest minute a sample at [ts] leaves in the table. *)
Definition floor (ts : Z) (d : db) : Z :=
  anchor (zmax_opt (map_to_list (d_traffic d)).*1) ts - TRAFFIC_RETENTION_MIN.

Definition window_weight (g : Z * Z -> Z) since until (r : Z * (Z * Z)) : Z :=
  if decide (in_window since until r.1 = true) then g r.2 else 0.

Lemma window_weight_at g since until ts p :
  window_weight g since until (ts, p) = if in_window since until ts then g p else 0.
Proof. unfold window_weight; simpl. by destruct (in_window since until ts). Qed.

Lemma total_msum since until d :
  traffic_total since until d =
    (msum (window_weight fst since until) (d_traffic d),
     msum (window_weight snd since until) (d_traffic d)).
Proof.
  unfold traffic_total, traffic_rows, msum, window_weight. f_equal;
    by rewrite (zsum_filter (fun r : Z * (Z * Z) => in_window since until r.1 = true)).
Qed.

Lemma add_bytes_msum (g : Z * Z -> Z) since until ts up down m :
  (forall u v u' v', g (u + u', v + v') = g (u, v) + g (u', v')) ->
  msum (window_weight g since until) (add_bytes ts up down m) =
  msum (window_weight g since until) m + window_weight g since until (ts, (up, down)).
Proof.
  intros Hg. unfold add_bytes. rewrite msum_insert, !window_weight_at.
  destruct (m !! ts) as [[u v]|] eqn:E.
  - rewrite (msum_delete _ m ts (u, v)), window_weight_at, Hg by done. case_match; lia.
  - rewrite delete_id by done. lia.
Qed.

(** a recorded minute adds exactly its bytes to every total whose window
    starts after the retention floor, on a minute that has a row already too, and
    never fails; the floor never passes the newest stored minute less 90 days, so a
    far-future sample removes nothing inside them. *)
Theorem traffic_conserved ts up down since until d (Hc : constraints d) (Hs : floor ts d <= since) :
  exists d', add_traffic_minute ts up down d = (inr tt, d') /\
    traffic_total since until d' =
      ((traffic_total since until d).1 + (if in_window since until ts then up else 0),
       (traffic_total since until d).2 + (if in_window since until ts then down else 0)).
Proof.
  unfold add_traffic_minute. run_stmt. eexists; split; [done|].
  rewrite !total_msum. cbn [d_traffic set_traffic]. fold (floor ts d).
  assert (forall g (r : Z * (Z * Z)), ~ floor ts d <= r.1 -> window_weight g since until r = 0) as Hw.
  { intros g r Hr. unfold window_weight. rewrite decide_False; [done|]. unfold in_window.
    destruct (Z.leb_spec since r.1); [lia|done]. }
  rewrite !msum_filter by auto. rewrite !add_bytes_msum by (intros; simpl; lia).
  by rewrite !window_weight_at.
Qed.

Example traffic_conserved_witness :
  exists d', add_traffic_minute 5 10 20 empty_db = (inr tt, d') /\ traffic_total 0 None d' = (10, 20).
Proof.
  destruct (traffic_conserved 5 10 20 0 None empty_db) as (d' & H & Ht).
  - apply (bool_decide_unpack _). by vm_compute.
  - vm_compute. discriminate.
  - exists d'. split; [done|]. by rewrite Ht.
Defined.

End Traffic.

(** * Health *)
Module HealthRows.

(** The results [update_health_real] does not discard: those at least as recent
    as every earlier one. *)
Fixpoint accepted (last : option Z) (l : list (bool * Z)) : list bool :=
  match l with
  | [] => []
  | (ok, t) :: l' =>
      if match last with None => true | Some u => u <=? t end
      then ok :: accepted (Some t) l' else accepted last l'
  end.

(** [k] failures since the last success. *)
Definition trailing_failures (l : list bool) (k : Z) : Prop :=
  exists pre, l = pre ++ replicate (Z.to_nat k) false /\ 0 <= k /\
    (pre = [] \/ exists pre', pre = pre' ++ [true]).

Lemma trailing_snoc_false l k : trailing_failures l k -> trailing_failures (l ++ [false]) (k + 1).
Proof.
  intros (pre & -> & Hk & Hp). exists pre. split_and!; [|lia|done].
  rewrite <- (assoc_L (++)). f_equal. replace (Z.to_nat (k + 1)) with (Z.to_nat k + 1)%nat by lia.
  by rewrite replicate_add.
Qed.

Lemma trailing_snoc_true l : trailing_failures (l ++ [true]) 0.
Proof. exists (l ++ [true]). simpl; rewrite app_nil_r. split_and!; [done|lia|eauto]. Qed.

(** The real-request results of one node, written in order. *)
Definition record_all (i : Z) (results : list (bool * Z)) : M unit :=
  mfor results (fun r => update_health_real i r.1 None None None r.2).

Lemma record_all_row i results : forall d pre h,
  constraints d -> is_Some (d_nodes d !! i) ->
  get_health i d = Some h -> trailing_failures pre (h_fail_count h) ->
  exists d' h', record_all i results d = (inr tt, d') /\ get_health i d' = Some h' /\
    trailing_failures (pre ++ accepted (h_checked_at h) results) (h_fail_count h').
Proof.
  induction results as [|[ok t] results IH]; intros d pre h Hc Hi Hh Ht.
  { exists d, h. simpl. simpl; rewrite app_nil_r. done. }
  unfold record_all. simpl mfor. unfold mbind. rewrite update_health_real_run by done.
  set (d1 := set_health _ _). unfold get_health in Hh.
  assert (constraints d1) as Hc1.
  { apply constraints_health; [done|]. apply map_Forall_insert_2; [done|apply Hc]. }
  assert (get_health i d1 = Some (real_row i ok None None None t (Some h))) as Hh1.
  { unfold get_health, d1; simpl. by rewrite lookup_insert_eq, Hh. }
  unfold real_row, newer in Hh1. cbn [accepted]. destruct (h_checked_at h) as [u|] eqn:Eu.
  - destruct (u <=? t).
    + rewrite (cons_middle ok), (assoc_L (++)). apply (IH d1 (pre ++ [ok]) _ Hc1 Hi Hh1). simpl.
      destruct ok; [apply trailing_snoc_true|by apply trailing_snoc_false].
    + destruct (IH d1 pre _ Hc1 Hi Hh1 Ht) as (d' & h' & E1 & E2 & E3); eauto.
  - rewrite (cons_middle ok), (assoc_L (++)). apply (IH d1 (pre ++ [ok]) _ Hc1 Hi Hh1). simpl.
    destruct ok; [apply trailing_snoc_true|by apply trailing_snoc_false].
Qed.

(** [fail_count], which failover compares with its hysteresis, is the number
    of failed real requests since the last successful one, over every sequence of
    results including late ones: a result older than one already stored is
    discarded and neither counts nor resets. *)
Theorem fail_count_consecutive i ok t results d (Hc : constraints d)
    (Hi : is_Some (d_nodes d !! i)) (Hn : get_health i d = None) :
  exists d' h, record_all i ((ok, t) :: results) d = (inr tt, d') /\
    get_health i d' = Some h /\
    trailing_failures (accepted None ((ok, t) :: results)) (h_fail_count h).
Proof.
  unfold record_all. simpl mfor. unfold mbind. rewrite update_health_real_run by done.
  unfold get_health in Hn. rewrite Hn.
  apply (record_all_row i results _ [ok] (real_row i ok None None None t None)); [|done|..].
  - apply constraints_health; [done|]. apply map_Forall_insert_2; [done|apply Hc].
  - unfold get_health; simpl. by rewrite lookup_insert_eq.
  - destruct ok; [apply (trailing_snoc_true [])|].
    apply (trailing_snoc_false [] 0). exists []. split_and!; [done|lia|by left].
Qed.

Definition one_node : db :=
  set_nodes {[ 1 := mk_node "n1" "10.0.0.1" 443 "u" ]} empty_db.

Example fail_count_consecutive_witness :
  exists d' h, record_all 1 [(false, 10); (true, 20); (false, 30); (true, 25); (false, 40)] one_node = (inr tt, d') /\
    get_health 1 d' = Some h /\ trailing_failures [false; true; false; false] (h_fail_count h).
Proof.
  destruct (fail_count_consecutive 1 false 10 [(true, 20); (false, 30); (true, 25); (false, 40)] one_node)
    as (d' & h & E1 & E2 & E3).
  - apply (bool_decide_unpack _). by vm_compute.
  - eexists. reflexivity.
  - reflexivity.
  - exists d', h. auto.
Defined.

End HealthRows.

(** * Routing rules *)
Module RoutingTable.

(** The row of a rule saved at position [i]. *)
Definition at_position (i : Z) (r : rule) : rule :=
  Rule None i (r_type r) (r_value r) (r_action r) (r_enabled r) (r_label r) (r_dataset r).

Fixpoint positioned (i : Z) (rs : list rule) : list rule :=
  match rs with [] => [] | r :: rs' => at_position i r :: positioned (i + 1) rs' end.

Lemma positioned_from i rs : Forall (fun r => i <= r_position r) (positioned i rs).
Proof.
  revert i. induction rs as [|r rs IH]; intros i; simpl; [constructor|].
  constructor; [simpl; lia|]. eapply Forall_impl; [apply IH|]. simpl. lia.
Qed.

Lemma positioned_sorted i rs :
  StronglySorted (fun a b => (r_position a <=? r_position b) = true) (positioned i rs).
Proof.
  revert i. induction rs as [|r rs IH]; intros i; simpl; [constructor|]. constructor; [apply IH|].
  eapply Forall_impl; [apply positioned_from|]. simpl. lia.
Qed.

Lemma insert_rules_run rs : forall i d,
  constraints d -> Forall (fun r => r_position r < i) (d_routing d) ->
  insert_rules i rs d = (inr tt, set_routing (d_routing d ++ positioned i rs) d).
Proof.
  induction rs as [|r rs IH]; intros i d Hc Hd; simpl.
  { rewrite app_nil_r. by destruct d. }
  unfold mbind.
  assert (constraints (set_routing (d_routing d ++ [at_position i r]) d)) as Hc1.
  { unfold constraints; simpl. split_and!; try apply Hc. rewrite fmap_app. apply NoDup_app. split_and!.
    - apply Hc.
    - intros x (y & -> & Hy)%list_elem_of_fmap Hx%list_elem_of_singleton.
      rewrite Forall_forall in Hd. specialize (Hd y Hy). simpl in Hx. lia.
    - apply NoDup_singleton. }
  rewrite stmt_ok by done. rewrite IH; [|done|].
  - unfold set_routing; simpl. by rewrite <- (assoc_L (++)).
  - simpl. apply Forall_app. split; [eapply Forall_impl; [exact Hd|]; simpl; lia|].
    constructor; [simpl; lia|constructor].
Qed.

(** saving a routing table always succeeds, whatever was stored, and reading
    it back gives the same rules in the same order, at positions 0, 1, 2, ... *)
Theorem routing_roundtrip rs d (Hc : constraints d) :
  exists d', replace_routing rs d = (inr tt, d') /\ get_routing d' = positioned 0 rs.
Proof.
  unfold replace_routing, tx, mbind.
  assert (constraints (set_routing [] d)) as Hc1.
  { unfold constraints; simpl. split_and!; try apply Hc. constructor. }
  rewrite stmt_ok by done. rewrite insert_rules_run by (done || constructor).
  eexists. split; [done|]. apply stable_sort_id, positioned_sorted.
Qed.

Example routing_roundtrip_witness :
  exists d', replace_routing [Rule (Some 9) 7 "domain" "a.example" "block" true "" ""] empty_db = (inr tt, d') /\
    get_routing d' = [Rule None 0 "domain" "a.example" "block" true "" ""].
Proof. apply routing_roundtrip. apply (bool_decide_unpack _). by vm_compute. Defined.

End RoutingTable.

(** * Deletions *)
Module Deletions.

(** A subscription that gives its nodes the profile. *)
Definition default_of_sub (pid : Z) (d : db) : Prop :=
  exists i s, d_subs d !! i = Some s /\ s_default_profile_id s = Some pid.

Lemma detach_profile_ident pid n : ident_key (detach_profile pid n) = ident_key n.
Proof. unfold detach_profile. by case_decide. Qed.

Lemma constraints_detach_profile pid d :
  constraints d -> constraints (set_nodes (detach_profile pid <$> d_nodes d) d).
Proof.
  intros (Hu & Hs & Hp & Hh & Hrest). unfold constraints; simpl. split_and!; try apply Hrest.
  - apply unique_by_fmap; [done|apply detach_profile_ident].
  - apply map_Forall_fmap'; [done|]. intros i x _. unfold detach_profile. by case_decide.
  - apply map_Forall_fmap'; [done|]. intros i x _. unfold detach_profile. by case_decide.
  - intros i h Hi. apply (refs_fmap (Some i)). by apply (Hh i h).
Qed.

#[local] Instance default_of_sub_dec pid d : Decision (default_of_sub pid d).
Proof.
  destruct (decide (map_Forall (fun _ s => s_default_profile_id s <> Some pid) (d_subs d))) as [H|H].
  - right. intros (i & s & Hi & Hs). by apply (H i s).
  - left. apply map_not_Forall in H as (i & s & Hi & Hs); [|apply _]. exists i, s. split; [done|].
    by apply dec_stable.
Defined.

(** The profile's row can go once the nodes are detached, unless a subscription
    refers to it. *)
Lemma constraints_drop_profile pid d :
  constraints d ->
  constraints (set_profiles (delete pid (d_profiles d)) (d_profile_seq d)
                 (set_nodes (detach_profile pid <$> d_nodes d) d)) <-> ~ default_of_sub pid d.
Proof.
  intros Hc%(constraints_detach_profile pid). split.
  - intros (_ & _ & _ & _ & H & _) (i & s & Hi & Hs). specialize (H i s Hi). simpl in H.
    rewrite Hs in H. simpl in H. rewrite lookup_delete_eq in H. by apply is_Some_None in H.
  - intros Hno. destruct Hc as (Hu & Hs & Hp & Hh & Hd & Hrest). unfold constraints; simpl in *.
    split_and!; try apply Hrest; try done.
    + intros i n Hi. specialize (Hp i n Hi). rewrite lookup_fmap in Hi.
      apply fmap_Some in Hi as (n0 & _ & ->). unfold detach_profile in *. case_decide as E; [done|].
      destruct (n_tuning_profile_id n0) as [q|]; [|done]. simpl in *.
      by rewrite lookup_delete_ne by congruence.
    + intros i s Hi. specialize (Hd i s Hi). simpl in Hd.
      destruct (s_default_profile_id s) as [q|] eqn:E; [|done]. simpl in *.
      rewrite lookup_delete_ne; [done|]. intros ->. apply Hno. by exists i, s.
Qed.

(** deleting a tuning profile detaches it from every node and removes it, or
    is refused with [IntegrityError] and changes nothing; it is refused exactly
    when some subscription has it as its default, since only the nodes are
    detached. *)
Theorem delete_profile_refused_iff pid d (Hc : constraints d) :
  (delete_profile pid d = (inl IntegrityError, d) <-> default_of_sub pid d) /\
  (~ default_of_sub pid d ->
     delete_profile pid d =
       (inr tt, set_profiles (delete pid (d_profiles d)) (d_profile_seq d)
                  (set_nodes (detach_profile pid <$> d_nodes d) d))).
Proof.
  unfold delete_profile, tx, mbind. rewrite stmt_ok by (by apply constraints_detach_profile).
  destruct (decide (default_of_sub pid d)) as [H|H].
  - rewrite stmt_fail; [done|]. intros Hd. by apply (constraints_drop_profile pid d Hc) in Hd.
  - rewrite stmt_ok by (by apply (constraints_drop_profile pid d Hc)). done.
Qed.

Definition profile_in_use : db :=
  set_subs {[ 1 := Subscription (Some 1) "feed" "https://x" JNull 0 true (Some 4) None None None None None None None None [] ]} 1
    (set_profiles {[ 4 := mk_profile (Some 4) "p" ]} 4 empty_db).

Example delete_profile_refused_iff_witness :
  delete_profile 4 profile_in_use = (inl IntegrityError, profile_in_use).
Proof.
  apply delete_profile_refused_iff; [apply (bool_decide_unpack _); by vm_compute|].
  by exists 1, (Subscription (Some 1) "feed" "https://x" JNull 0 true (Some 4) None None None None None None None None []).
Defined.

(** The identity a node has when no subscription owns it. *)
Definition manual_key (n : node) := ident_key (with_subscription None n).

(** A node of the subscription has the identity columns of a manual node. *)
Definition clash (sub : Z) (d : db) : Prop :=
  exists i j a b, d_nodes d !! i = Some a /\ d_nodes d !! j = Some b /\
    n_subscription_id a = Some sub /\ n_subscription_id b = None /\ manual_key a = ident_key b.

(** Subscription ids are positive: they are never the [-1] the identity index
    stands for NULL. *)
Definition sub_ids_ok (d : db) : Prop := map_Forall (fun i (_ : subscription) => 0 < i) (d_subs d).

Lemma manual_ident n : n_subscription_id n = None -> ident_key n = manual_key n.
Proof. unfold manual_key, ident_key. destruct n; simpl. by intros ->. Qed.

Lemma manual_key_inj a b :
  n_subscription_id a = n_subscription_id b -> manual_key a = manual_key b -> ident_key a = ident_key b.
Proof. unfold manual_key, ident_key; simpl. intros -> H. injection H; congruence. Qed.

Lemma detach_unique sub d :
  constraints d -> sub_ids_ok d ->
  unique_by ident_key (detach_sub sub <$> d_nodes d) <-> ~ clash sub d.
Proof.
  intros (Hu & Hs & _) Hpos. rewrite !unique_by_alt in *. split.
  - intros H (i & j & a & b & Hi & Hj & Ha & Hb & Hab).
    assert (i = j); [|subst j; assert (a = b) by congruence; congruence].
    apply (H i j (detach_sub sub a) (detach_sub sub b)); [by rewrite lookup_fmap, ?Hi, ?Hj..|].
    unfold detach_sub, manual_key in *. repeat case_decide; congruence.
  - intros Hno i j x y Hi Hj Hxy. rewrite lookup_fmap in Hi, Hj.
    apply fmap_Some in Hi as (a & Hi & ->), Hj as (b & Hj & ->).
    assert (forall i n, d_nodes d !! i = Some n -> n_subscription_id n = None \/
              exists q, n_subscription_id n = Some q /\ 0 < q) as Hq.
    { intros k n Hk. specialize (Hs k n Hk). simpl in Hs. destruct (n_subscription_id n) as [q|]; [right|by left].
      destruct Hs as [s Hs]. specialize (Hpos q s Hs). eauto. }
    unfold detach_sub in Hxy.
    destruct (decide (n_subscription_id a = Some sub)) as [Ea|Ea],
      (decide (n_subscription_id b = Some sub)) as [Eb|Eb].
    + apply (Hu i j a b Hi Hj), manual_key_inj; [congruence|done].
    + destruct (Hq _ _ Hj) as [Hb|(q & Hb & ?)]; [destruct Hno; exists i, j, a, b; auto|].
      exfalso. unfold manual_key, ident_key in Hxy. rewrite Hb in Hxy. simpl in Hxy. injection Hxy. lia.
    + destruct (Hq _ _ Hi) as [Ha|(q & Ha & ?)]; [destruct Hno; exists j, i, b, a; auto|].
      exfalso. unfold manual_key, ident_key in Hxy. rewrite Ha in Hxy. simpl in Hxy. injection Hxy. lia.
    + by apply (Hu i j a b).
Qed.

Lemma constraints_detach_sub sub d :
  constraints d -> sub_ids_ok d -> ~ clash sub d ->
  constraints (set_nodes (detach_sub sub <$> d_nodes d) d).
Proof.
  intros Hc Hp Hno. pose proof (proj2 (detach_unique sub d Hc Hp) Hno).
  destruct Hc as (_ & Hs & Hpr & Hh & Hrest). unfold constraints; simpl. split_and!; try apply Hrest.
  - done.
  - apply map_Forall_fmap'; [done|]. intros i x _. unfold detach_sub. by case_decide.
  - apply map_Forall_fmap'; [done|]. intros i x _. unfold detach_sub. by case_decide.
  - intros i h Hi. apply (refs_fmap (Some i)). by apply (Hh i h).
Qed.

(** No detached node refers to the subscription's row. *)
Lemma constraints_drop_sub sub d :
  constraints (set_nodes (detach_sub sub <$> d_nodes d) d) ->
  constraints (set_subs (delete sub (d_subs d)) (d_sub_seq d)
                 (set_nodes (detach_sub sub <$> d_nodes d) d)).
Proof.
  intros (Hu & Hs & Hpr & Hh & Hd & Hrest). unfold constraints; simpl in *.
  split_and!; try apply Hrest; try done; [|by apply map_Forall_delete].
  intros i n Hi. specialize (Hs i n Hi). simpl in *. rewrite lookup_fmap in Hi.
  apply fmap_Some in Hi as (n0 & _ & ->). unfold detach_sub in *. case_decide; [done|].
  destruct (n_subscription_id n0) as [q|]; [|done]. simpl in *. by rewrite lookup_delete_ne by congruence.
Qed.

(** deleting a subscription keeps its nodes as manual ones, removes the
    subscription and its shrink marker, or is refused with [IntegrityError] and
    changes nothing; it is refused exactly when one of its nodes has the identity
    of a node that is manual already. *)
Theorem delete_subscription_refused_iff sub d (Hc : constraints d) (Hp : sub_ids_ok d) :
  (clash sub d -> delete_subscription sub d = (inl IntegrityError, d)) /\
  (~ clash sub d ->
     delete_subscription sub d =
       (inr tt, set_settings (delete (shrink_key sub) (d_settings d))
                  (set_subs (delete sub (d_subs d)) (d_sub_seq d)
                     (set_nodes (detach_sub sub <$> d_nodes d) d)))).
Proof.
  unfold delete_subscription, tx, mbind. split.
  - intros H. rewrite stmt_fail; [done|]. intros (Hu & _). by apply (detach_unique sub d Hc Hp) in Hu.
  - intros H. pose proof (constraints_detach_sub sub d Hc Hp H).
    rewrite stmt_ok by done. rewrite stmt_ok by (by apply (constraints_drop_sub sub d)).
    rewrite stmt_ok; [done|]. by apply constraints_settings, (constraints_drop_sub sub d).
Qed.

(** One feed with a node that is also saved by hand. *)
Definition feed_and_manual : db :=
  set_subs {[ 1 := Subscription (Some 1) "feed" "https://x" JNull 0 true None None None None None None None None None [] ]} 1
    (set_nodes {[ 1 := mk_node "a" "10.0.0.1" 443 "u";
                  2 := with_subscription (Some 1) (mk_node "b" "10.0.0.1" 443 "u") ]} empty_db).

Example delete_subscription_refused_iff_witness :
  delete_subscription 1 feed_and_manual = (inl IntegrityError, feed_and_manual).
Proof.
  apply delete_subscription_refused_iff.
  - apply (bool_decide_unpack _). by vm_compute.
  - apply (bool_decide_unpack _). by vm_compute.
  - exists 2, 1, (with_subscription (Some 1) (mk_node "b" "10.0.0.1" 443 "u")), (mk_node "a" "10.0.0.1" 443 "u").
    by vm_compute.
Defined.

End Deletions.
