(* ===== verification/Events.v ===== *)
(** [net_control/events.py]: the connection-event log and the incidents computed
    from it.

    [record] is store code that swallows every failure; [incidents] scans the log
    for spans in which the tunnel was down; [downtime] adds up the part of each
    span inside a window.  Timestamps are whole seconds. *)
From Stdlib Require Import ZArith Lia Sorted.
From stdpp Require Import base strings list.
From S2P Require Import Prelude PyStr Models Store StoreFacts.
Open Scope string_scope.
Open Scope Z_scope.

(** [int(now)] of a float of seconds. *)
Definition int_sec (now : Z) : Z := Z.quot now 1000000.

(** Never raises. *)
Definition record (kind detail : string) (now : Z) : M unit :=
  fun d => match add_event (int_sec now) kind detail d with
           | (inr _, d') => (inr tt, d')
           | (inl _, d') => (inr tt, d')
           end.

Definition RECENT_CAP : Z := 40.
Definition recent (limit : Z) (d : db) : list event := list_events 0 "" limit d.

Definition DOWN_KINDS : list string := ["disconnect"; "xray-stop"; "all-nodes-down"; "stale-active"].
Definition UP_KINDS : list string := ["connect"; "failover"; "xray-restart"].

Definition is_down (e : event) : bool := bool_decide (e_kind e ∈ DOWN_KINDS).
Definition is_up (e : event) : bool := bool_decide (e_kind e ∈ UP_KINDS).

Record span := Span {
  sp_started : Z;
  sp_ended : Z;
  sp_seconds : Z;
  sp_kind : string;
  sp_detail : string;
  sp_ongoing : bool
}.

(** A span that ends at [t]. *)
Definition close_span (e : event) (t : Z) (ongoing : bool) : span :=
  Span (e_ts e) t (Z.max 0 (t - e_ts e)) (e_kind e) (e_detail e) ongoing.

(** The loop of [incidents]: [o] is [open_span]. *)
Fixpoint scan (o : option event) (events : list event) (now : Z) : list span :=
  match events with
  | [] => match o with Some s => [close_span s now true] | None => [] end
  | e :: events' =>
      match o with
      | None => if is_down e then scan (Some e) events' now else scan None events' now
      | Some s => if is_up e then close_span s (e_ts e) false :: scan None events' now
                  else scan (Some s) events' now
      end
  end.

Definition incidents (events : list event) (now : Z) : list span := reverse (scan None events now).

Definition downtime (spans : list span) (since : Z) : Z :=
  zsum ((fun s => let start := Z.max (sp_started s) since in
                  if start <? sp_ended s then sp_ended s - start else 0) <$> spans).

(** * The log and the reference *)

Lemma record_ok kind detail now d : exists d', record kind detail now d = (inr tt, d').
Proof. unfold record. destruct (add_event _ _ _ d) as [[|] d']; eauto. Qed.

Module Downtime.

(** The event that opened the current outage, after a log. *)
Definition step (o : option event) (e : event) : option event :=
  match o with
  | None => if is_down e then Some e else None
  | Some s => if is_up e then None else Some s
  end.

(** Was the tunnel down at second [t]: the outage opened by the events up to [t]
    is still open. *)
Definition open_at (o : option event) (events : list event) (t : Z) : bool :=
  match foldl step o (filter (fun e => e_ts e <= t) events) with
  | Some s => e_ts s <=? t
  | None => false
  end.
Definition down_at (events : list event) (t : Z) : bool := open_at None events t.

(** Seconds of the window [since, now) that satisfy [p]. *)
Definition seconds (p : Z -> bool) (since now : Z) : Z :=
  zsum ((fun t => if p t then 1 else 0) <$> seqZ since (now - since)).

Lemma seconds_ext p q since now :
  (forall t, p t = q t) -> seconds p since now = seconds q since now.
Proof. intros H. unfold seconds. f_equal. apply list_fmap_ext. intros ? t _. by rewrite H. Qed.

Lemma seconds_split (p q r : Z -> bool) since now :
  (forall t, (if p t then 1 else 0) = (if q t then 1 else 0) + (if r t then 1 else 0)) ->
  seconds p since now = seconds q since now + seconds r since now.
Proof.
  intros H. unfold seconds. induction (seqZ since (now - since)) as [|t l IH]; [done|].
  rewrite !fmap_cons, !zsum_cons, IH, H. lia.
Qed.

Lemma seconds_none p since now : (forall t, p t = false) -> seconds p since now = 0.
Proof.
  intros H. unfold seconds. induction (seqZ since (now - since)) as [|t l IH]; [done|].
  rewrite fmap_cons, zsum_cons, IH, H. lia.
Qed.

(** An interval's length, counted. *)
Lemma seconds_interval a b since now :
  b <= now -> seconds (fun t => (a <=? t) && (t <? b)) since now = Z.max 0 (b - Z.max a since).
Proof.
  intros Hb. unfold seconds. destruct (Z.le_gt_cases (now - since) 0) as [Hn|Hn].
  { rewrite seqZ_nil by done. simpl. lia. }
  remember (Z.to_nat (now - since)) as n eqn:En.
  revert since En Hn. induction n as [|n IH]; intros since En Hn; [lia|].
  rewrite seqZ_cons, fmap_cons, zsum_cons by lia.
  destruct (Z.eq_dec (now - since) 1) as [E1|E1].
  - rewrite E1. simpl. destruct (Z.leb_spec a since), (Z.ltb_spec since b); simpl; lia.
  - specialize (IH (Z.succ since)). replace (Z.pred (now - since)) with (now - Z.succ since) by lia.
    rewrite IH by lia. destruct (Z.leb_spec a since), (Z.ltb_spec since b); simpl; lia.
Qed.

Lemma downtime_cons s l since :
  downtime (s :: l) since = Z.max 0 (sp_ended s - Z.max (sp_started s) since) + downtime l since.
Proof.
  unfold downtime. rewrite fmap_cons, zsum_cons. f_equal.
  destruct (Z.ltb_spec (Z.max (sp_started s) since) (sp_ended s)); lia.
Qed.

Lemma downtime_reverse l since : downtime (reverse l) since = downtime l since.
Proof. unfold downtime. apply zsum_perm. by rewrite reverse_Permutation. Qed.

(** Events in time order, after [from]. *)
Definition ordered (from : Z) (events : list event) : Prop :=
  StronglySorted (fun a b => e_ts a <= e_ts b) events /\ Forall (fun e => from <= e_ts e) events.

Lemma ordered_tail from e events : ordered from (e :: events) -> ordered (e_ts e) events.
Proof. intros [H _]. apply StronglySorted_inv in H as [??]. done. Qed.

Lemma filter_early from events t :
  ordered from events -> t < from -> filter (fun e => e_ts e <= t) events = [].
Proof.
  intros [_ H] Ht. induction H as [|e l He H IH]; [done|].
  rewrite filter_cons, decide_False by lia. done.
Qed.

Lemma open_at_early o from events t : ordered from events -> t < from ->
  open_at o events t = match o with Some s => e_ts s <=? t | None => false end.
Proof. intros Ho Ht. unfold open_at. by rewrite (filter_early from). Qed.

Lemma open_at_cons o e events t :
  ordered (e_ts e) events ->
  open_at o (e :: events) t = if e_ts e <=? t then open_at (step o e) events t
                              else match o with Some s => e_ts s <=? t | None => false end.
Proof.
  intros Ho. unfold open_at. rewrite filter_cons. destruct (Z.leb_spec (e_ts e) t).
  - by rewrite decide_True by done.
  - rewrite decide_False by lia. by rewrite (filter_early (e_ts e)).
Qed.

Lemma scan_seconds events since now : forall o from,
  ordered from events -> Forall (fun e => e_ts e <= now) events ->
  match o with Some s => e_ts s <= from | None => True end ->
  downtime (scan o events now) since = seconds (open_at o events) since now.
Proof.
  induction events as [|e events IH]; intros o from Ho Hn Hs.
  - destruct o as [s|]; simpl; [|by rewrite seconds_none].
    rewrite downtime_cons; simpl. rewrite <- (seconds_interval (e_ts s) now since now) by lia.
    unfold downtime; simpl. rewrite Z.add_0_r. unfold seconds. f_equal. apply list_fmap_ext.
    intros i t Ht%lookup_seqZ. unfold open_at. simpl. destruct (Z.ltb_spec t now); [|lia].
    by rewrite andb_true_r.
  - pose proof (ordered_tail _ _ _ Ho) as Ht. apply Forall_cons in Hn as [Hen Hn].
    destruct Ho as [_ Hfrom]. apply Forall_cons in Hfrom as [Hfrom _].
    assert (forall t, open_at None events t = (e_ts e <=? t) && open_at None events t) as Hearly.
    { intros t. destruct (Z.leb_spec (e_ts e) t); [done|]. by rewrite (open_at_early _ (e_ts e)). }
    destruct o as [s|]; simpl; [destruct (is_up e) eqn:Eu|destruct (is_down e) eqn:Ed].
    + rewrite downtime_cons; simpl. rewrite <- (seconds_interval (e_ts s) (e_ts e) since now) by lia.
      rewrite (IH None (e_ts e)) by done. symmetry. apply seconds_split. intros t.
      rewrite open_at_cons by done. simpl. rewrite Eu, Hearly.
      destruct (Z.leb_spec (e_ts e) t), (Z.leb_spec (e_ts s) t), (Z.ltb_spec t (e_ts e)); simpl; lia.
    + rewrite (IH (Some s) (e_ts e)) by (done || simpl; lia). apply seconds_ext. intros t.
      rewrite open_at_cons by done. simpl. rewrite Eu.
      destruct (Z.leb_spec (e_ts e) t); [done|]. by rewrite (open_at_early _ (e_ts e)).
    + rewrite (IH (Some e) (e_ts e)) by (done || simpl; lia). apply seconds_ext. intros t.
      rewrite open_at_cons by done. simpl. rewrite Ed.
      destruct (Z.leb_spec (e_ts e) t); [done|]. rewrite (open_at_early _ (e_ts e)) by done.
      destruct (Z.leb_spec (e_ts e) t); [lia|done].
    + rewrite (IH None (e_ts e)) by done. apply seconds_ext. intros t.
      rewrite open_at_cons by done. simpl. rewrite Ed. apply Hearly.
Qed.

(** the downtime the panel reports is the number of seconds of the window at
    which the tunnel was down: the last outage the log opened by then was not
    closed yet.  Repeated down events open no second span, an unrelated event
    neither opens nor closes one, and an outage still open counts up to now. *)
Theorem downtime_counts_seconds events now since
    (Ho : StronglySorted (fun a b => e_ts a <= e_ts b) events)
    (Hn : Forall (fun e => e_ts e <= now) events) :
  downtime (incidents events now) since = seconds (down_at events) since now.
Proof.
  unfold incidents. rewrite downtime_reverse. destruct events as [|e events].
  - simpl. by rewrite seconds_none.
  - apply (scan_seconds _ _ _ None (e_ts e)); [|done|done]. split; [done|].
    apply StronglySorted_inv in Ho as [_ H]. by constructor.
Qed.

Example downtime_counts_seconds_witness :
  downtime (incidents [Event 10 "disconnect" ""; Event 20 "xray-stop" ""; Event 25 "connect" "";
                       Event 40 "stale-active" ""] 50) 12 =
  seconds (down_at [Event 10 "disconnect" ""; Event 20 "xray-stop" ""; Event 25 "connect" "";
                    Event 40 "stale-active" ""]) 12 50.
Proof. apply downtime_counts_seconds; repeat constructor; simpl; lia. Defined.

Example downtime_value :
  downtime (incidents [Event 10 "disconnect" ""; Event 20 "xray-stop" ""; Event 25 "connect" "";
                       Event 40 "stale-active" ""] 50) 12 = 23.
Proof. reflexivity. Qed.

End Downtime.
