(* ===== verification/Selection.v ===== *)
(** [health/selection.py]: ranking nodes by their health, shared by failover and
    the manual connect-best action.

    [hs] is the dict ([health] in the source) from node id to its row.  Times are microseconds; [now] is
    the clock the caller reads. *)
From Stdlib Require Import ZArith Lia Permutation Sorted.
From stdpp Require Import base gmap strings list fin_maps.
From S2P Require Import Prelude PyStr Models Store.
Open Scope string_scope.
Open Scope Z_scope.

Definition DEFAULT_FRESHNESS_TTL : Z := sec 180.
Definition DEFAULT_ACTIVE_INTERVAL : Z := sec 60.
Definition DEFAULT_SWEEP_INTERVAL : Z := sec 1800.
Definition FRESHNESS_SLACK : Z := 2.

Definition positive_float (key : string) (dflt : Z) (d : db) : Z :=
  match get_setting key d with
  | None => dflt
  | Some raw => match py_float raw with
                | Some v => if 0 <? v then v else dflt
                | None => dflt
                end
  end.

Definition sweep_enabled (d : db) : bool :=
  bool_decide (get_setting "health_enabled" d or "1" = "1") &&
  bool_decide (get_setting "health_sweep_enabled" d or "1" = "1").

Definition active_freshness_ttl (d : db) : Z :=
  Z.max DEFAULT_FRESHNESS_TTL
    (positive_float "health_active_interval" DEFAULT_ACTIVE_INTERVAL d * FRESHNESS_SLACK).

Definition standby_freshness_ttl (d : db) : option Z :=
  if sweep_enabled d
  then Some (Z.max (active_freshness_ttl d)
               (positive_float "health_interval" DEFAULT_SWEEP_INTERVAL d * FRESHNESS_SLACK))
  else None.

Definition lat (v : option Z) : Z := - default (10 ^ 9) v.

Definition health_score (h : option health) : Z * Z :=
  match h with
  | None => (0, 0)
  | Some h =>
      if flag (h_real_ok h) then (3, lat (h_real_ms h))
      else if flag (h_http_ok h) then (2, lat (h_http_ms h))
      else if flag (h_tcp_ok h) then (1, lat (h_tcp_ms h))
      else (0, 0)
  end.

Definition alive (h : option health) : bool :=
  match h with
  | None => false
  | Some h => flag (h_real_ok h) || flag (h_http_ok h) || flag (h_tcp_ok h)
  end.

Definition checked_at_age_seconds (checked_at : option Z) (now : Z) : option Z :=
  (fun t => Z.max 0 (now - t)) <$> checked_at.

Definition health_age_seconds (h : option health) (now : Z) : option Z :=
  checked_at_age_seconds (h ≫= h_checked_at) now.

Definition health_fresh (h : option health) (now ttl : Z) : bool :=
  match health_age_seconds h now with
  | Some age => age <=? ttl
  | None => false
  end.

Definition rank_key (h : option health) (max_fail_count : option Z) : Z * Z * Z :=
  let trusted := match max_fail_count, h with
                 | Some m, Some h => if m <=? h_fail_count h then 0 else 1
                 | _, _ => 1
                 end in
  (trusted, (health_score h).1, (health_score h).2).

(** Tuples compare lexicographically. *)
Definition key_le (a b : Z * Z * Z) : bool :=
  let '(a1, a2, a3) := a in
  let '(b1, b2, b3) := b in
  (a1 <? b1) || ((a1 =? b1) && ((a2 <? b2) || ((a2 =? b2) && (a3 <=? b3)))).

(** [health.get(n.id)] *)
Definition hget (hs : gmap Z health) (n : node) : option health := n_id n ≫= (hs !!.).

Section ranking.
Context (nodes : list node) (hs : gmap Z health).
Context (exclude_id : option Z) (require_alive : bool) (now : Z) (freshness_ttl : option Z).
Context (exclude_ids : list Z) (max_fail_count : option Z).

Definition excluded (n : node) : bool :=
  bool_decide (n_id n = exclude_id) || bool_decide (n_id n ∈ Some <$> exclude_ids).

(** The three filters of [ranked_nodes]. *)
Definition eligible (n : node) : bool :=
  negb (n_stale n) && negb (excluded n) &&
  match freshness_ttl with None => true | Some ttl => health_fresh (hget hs n) now ttl end &&
  (negb require_alive || alive (hget hs n)).

Definition node_key (n : node) := rank_key (hget hs n) max_fail_count.

(** [sorted(..., reverse=True)] keeps equal nodes in their order. *)
Definition ranked_nodes : list node :=
  stable_sort (fun a b => key_le (node_key b) (node_key a))
    (filter (fun n => eligible n = true) nodes).

Definition best_node : option node := head ranked_nodes.

End ranking.

(** * Lemmas *)

Lemma key_le_total a b : key_le a b = false -> key_le b a = true.
Proof. destruct a as [[a1 a2] a3], b as [[b1 b2] b3]; simpl. lia. Qed.

Lemma key_le_trans a b c : key_le a b = true -> key_le b c = true -> key_le a c = true.
Proof. destruct a as [[a1 a2] a3], b as [[b1 b2] b3], c as [[c1 c2] c3]; simpl. lia. Qed.

Lemma key_le_refl a : key_le a a = true.
Proof. destruct a as [[a1 a2] a3]; simpl. lia. Qed.

#[global] Arguments key_le : simpl never.
#[global] Arguments node_key : simpl never.

Section ranking_facts.
Context (nodes : list node) (hs : gmap Z health).
Context (exclude_id : option Z) (require_alive : bool) (now : Z) (freshness_ttl : option Z).
Context (exclude_ids : list Z) (max_fail_count : option Z).

Notation ranked := (ranked_nodes nodes hs exclude_id require_alive now freshness_ttl
                      exclude_ids max_fail_count).
Notation elig := (eligible hs exclude_id require_alive now freshness_ttl exclude_ids).
Notation key := (node_key hs max_fail_count).

Lemma ranked_elem n : n ∈ ranked <-> n ∈ nodes /\ elig n = true.
Proof. unfold ranked_nodes. rewrite stable_sort_elem, list_elem_of_filter. tauto. Qed.

Lemma ranked_sorted : StronglySorted (fun a b => key_le (key b) (key a) = true) ranked.
Proof.
  apply stable_sort_sorted; [intros; by apply key_le_total|]. eauto using key_le_trans.
Qed.

Lemma eligible_not_excluded n : elig n = true -> n_id n <> exclude_id /\ n_id n ∉ Some <$> exclude_ids.
Proof.
  unfold eligible, excluded. rewrite !andb_true_iff, !negb_true_iff, orb_false_iff.
  intros (((_ & H1 & H2) & _) & _). by apply bool_decide_eq_false in H1, H2.
Qed.

Lemma eligible_not_stale n : elig n = true -> n_stale n = false.
Proof. unfold eligible. rewrite !andb_true_iff, negb_true_iff. tauto. Qed.
End ranking_facts.

Module BestNode.

(** the node chosen is an eligible one with the greatest rank (trusted before
    sustained failures, then real before http before tcp evidence, then the lower
    latency), the first of them in the panel's order; none is chosen exactly when
    no node is eligible. *)
Theorem best_node_optimal nodes hs ex alive_only now ttl exs mfc :
  match best_node nodes hs ex alive_only now ttl exs mfc with
  | None => forall n, n ∈ nodes -> eligible hs ex alive_only now ttl exs n = false
  | Some b =>
      b ∈ nodes /\ eligible hs ex alive_only now ttl exs b = true /\
      (forall n, n ∈ nodes -> eligible hs ex alive_only now ttl exs n = true ->
         key_le (node_key hs mfc n) (node_key hs mfc b) = true) /\
      head (filter (fun n => eligible hs ex alive_only now ttl exs n = true /\
                             node_key hs mfc n = node_key hs mfc b) nodes) = Some b
  end.
Proof.
  unfold best_node. set (elig := eligible _ _ _ _ _ _). set (key := node_key _ _).
  pose proof (ranked_elem nodes hs ex alive_only now ttl exs mfc) as Hin.
  pose proof (ranked_sorted nodes hs ex alive_only now ttl exs mfc) as Hs.
  destruct (ranked_nodes _ _ _ _ _ _ _ _) as [|b l] eqn:E; simpl.
  - intros n Hn. destruct (elig n) eqn:En; [|done].
    destruct (elem_of_nil n) as [[] _]. by apply Hin.
  - destruct (proj1 (Hin b)) as [Hb Hel]; [constructor|]. split_and!; [done..| |].
    + intros n Hn Hne. apply StronglySorted_inv in Hs as [_ Hs].
      assert (n ∈ b :: l) as [->|H]%elem_of_cons by (by apply Hin); [apply key_le_refl|].
      by apply (proj1 (Forall_forall _ _) Hs).
    + unfold ranked_nodes in E.
      pose proof (stable_sort_filter (fun a b => key_le (key b) (key a)) (fun n => key n = key b)
        (filter (fun n => elig n = true) nodes)) as Hst.
      subst elig key. rewrite E, list_filter_filter in Hst.
      erewrite (list_filter_iff _ (fun n => node_key hs mfc n = node_key hs mfc b /\
        eligible hs ex alive_only now ttl exs n = true)) by (intros; apply and_comm).
      rewrite <- Hst by (intros x y -> ->; apply key_le_refl).
      rewrite filter_cons, decide_True by done. done.
Qed.

End BestNode.
