(* ===== verification/Failover.v ===== *)
(** [health/failover.py]: leaving a failing active node.

    [real_through] (the preflight, [health/probe.py]) and [apply_fn]
    ([controller.apply_node]) are arguments of [run] in the source and of the model:
    store computations, so that whatever other threads commit while the preflight
    runs without the lock is part of what the preflight may do to the database.
    [try_candidates] is the [for] loop of [run]. *)
From Stdlib Require Import ZArith Lia Sorted.
From stdpp Require Import base gmap strings list fin_maps.
From S2P Require Import Prelude PyStr Models Store StoreFacts Events Selection.
Open Scope string_scope.
Open Scope Z_scope.

Definition DEFAULT_HYSTERESIS : Z := 3.
Definition DEFAULT_COOLDOWN : Z := sec 120.
Definition DEMOTION_GRACE : Z := sec 600.
Definition MAX_PREFLIGHTS : nat := 5.
Definition DEFAULT_PROBE_URL : string := "https://api.ipify.org?format=json".

(** [int(v) if v else None] *)
Definition opt_int (key : string) : M (option Z) :=
  v <- mget (get_setting key) ;;
  match v with
  | Some (String _ _ as s) =>
      match py_int s with Some i => mret (Some i) | None => mraise (ValueError "invalid literal for int()") end
  | _ => mret None
  end.

(** [float(v) if v else None] *)
Definition opt_float (key : string) : M (option Z) :=
  v <- mget (get_setting key) ;;
  match v with
  | Some (String _ _ as s) =>
      match py_float s with Some x => mret (Some x) | None => mraise (ValueError "could not convert string to float") end
  | _ => mret None
  end.

(** [try: ... except Exception] around a computation. *)
Definition attempt {A} (m : M A) : M (exn + A) := fun d => let '(r, d') := m d in (inr r, d').

Definition exn_str (e : exn) : string :=
  match e with
  | IntegrityError => "UNIQUE constraint failed"
  | AssertionError => ""
  | ValueError s | RuntimeError s => s
  end.

(** [_int_setting]: malformed is absent. *)
Definition int_setting (key : string) (d : db) : option Z :=
  match get_setting key d with
  | Some (String _ _ as s) => py_int s
  | _ => None
  end.

Definition recently_demoted (now : Z) (last_failover_at : option Z) (d : db) : list Z :=
  match int_setting "last_demoted_node_id" d, last_failover_at with
  | Some demoted, Some t => if now - t <? DEMOTION_GRACE then [demoted] else []
  | _, _ => []
  end.

(** Within the debounce window of an instant. *)
Definition within (window now : Z) (at_ : option Z) : bool :=
  match at_ with Some t => now - t <? window | None => false end.

Definition maybe_report_all_down (hs : gmap Z health) (nodes : list node) (active_id : option Z)
    (hysteresis cooldown now : Z) (last_failover_at : option Z) (candidates_exhausted : bool)
    (active_ttl : Z) (standby_ttl : option Z) (exclude_ids : list Z) : M unit :=
  match active_id ≫= (hs !!.) with
  | None => mret tt
  | Some ah =>
      if h_fail_count ah <? hysteresis then mret tt
      else if negb (health_fresh (Some ah) now active_ttl) then mret tt
      else if within cooldown now last_failover_at then mret tt
      else if negb candidates_exhausted &&
              bool_decide (is_Some (best_node nodes hs active_id (bool_decide (is_Some standby_ttl))
                                      now standby_ttl exclude_ids None))
      then mret tt
      else last_v <- opt_float "last_all_down_at" ;;
           if within cooldown now last_v then mret tt
           else set_setting "last_all_down_at" (str_float now) ;;;
                record "all-nodes-down" "active node failing and no alive node to fail over to" now
  end.

(** [freshness_ttl] gates the active node, [standby_ttl] the candidates; the
    caller that leaves the second out passes the first. *)
Definition decide_failover (hs : gmap Z health) (nodes : list node) (active_id : option Z)
    (hysteresis cooldown now : Z) (last_failover_at freshness_ttl standby_ttl : option Z)
    (exclude_ids : list Z) (require_alive : bool) : option Z :=
  match active_id ≫= (hs !!.) with
  | None => None
  | Some ah =>
      if h_fail_count ah <? hysteresis then None
      else if match freshness_ttl with
              | Some ttl => negb (health_fresh (Some ah) now ttl)
              | None => false
              end then None
      else if within cooldown now last_failover_at then None
      else best_node nodes hs active_id require_alive now standby_ttl exclude_ids (Some hysteresis)
             ≫= n_id
  end.

Definition probe_result : Type := bool * option Z * option string * option string.

(** [probe.operator_added] *)
Definition operator_added (n : node) : bool := bool_decide (n_subscription_id n = None).

Definition node_id (n : node) : Z := default 0 (n_id n).

(** How the loop over the candidates ends. *)
Inductive outcome := Returned (r : option Z) | Exhausted (preflight_errors : list string).

Section run.
Context (real_through : node -> string -> bool -> M probe_result).
Context (apply_fn : node -> M bool).

Fixpoint try_candidates (active_id : option Z) (now : Z) (probe_url : string)
    (candidates : list node) (errors : list string) : M outcome :=
  match candidates with
  | [] => mret (Exhausted errors)
  | node :: rest =>
      cur <- opt_int "active_node_id" ;;
      if negb (bool_decide (cur = active_id)) then mret (Returned None)
      else
        res <- attempt (real_through node probe_url (operator_added node)) ;;
        match res with
        | inl exc =>
            try_candidates active_id now probe_url rest
              (errors ++ ["node " +:+ str_int (node_id node) +:+ ": " +:+ exn_str exc])
        | inr (real_ok, real_ms, egress, egress6) =>
            cur <- opt_int "active_node_id" ;;
            if negb (bool_decide (cur = active_id)) then mret (Returned None)
            else
              update_health_real (node_id node) real_ok real_ms egress egress6 now ;;;
              if negb real_ok then try_candidates active_id now probe_url rest errors
              else
                ok <- apply_fn node ;;
                if (ok : bool) then
                  set_setting "last_failover_at" (str_float now) ;;;
                  set_setting "last_demoted_node_id"
                    (match active_id with Some i => str_int i | None => "" end) ;;;
                  mret (Returned (n_id node))
                else try_candidates active_id now probe_url rest errors
        end
  end.

(** [{h.node_id: h for h in store.list_health()}] *)
Definition health_map (l : list health) : gmap Z health :=
  foldl (fun m h => <[h_node_id h := h]> m) ∅ l.

Definition run (now : Z) : M (option Z) :=
  enabled <- mget (get_setting "failover_enabled") ;;
  if negb (bool_decide (enabled or "1" = "1")) then mret None
  else
    hysteresis <- opt_int "health_hysteresis" ;;
    cooldown <- opt_float "failover_cooldown" ;;
    let hysteresis := default DEFAULT_HYSTERESIS hysteresis in
    let cooldown := default DEFAULT_COOLDOWN cooldown in
    nodes <- mget list_nodes ;;
    hs <- mget (fun d => health_map (list_health d)) ;;
    active_id <- opt_int "active_node_id" ;;
    last_failover_at <- opt_float "last_failover_at" ;;
    active_ttl <- mget active_freshness_ttl ;;
    standby_ttl <- mget standby_freshness_ttl ;;
    let require_alive := bool_decide (is_Some standby_ttl) in
    demoted <- mget (recently_demoted now last_failover_at) ;;
    match decide_failover hs nodes active_id hysteresis cooldown now last_failover_at (Some active_ttl)
            standby_ttl demoted require_alive with
    | None =>
        maybe_report_all_down hs nodes active_id hysteresis cooldown now last_failover_at false
          active_ttl standby_ttl demoted ;;;
        mret None
    | Some _ =>
        let candidates := take MAX_PREFLIGHTS
          (ranked_nodes nodes hs active_id require_alive now standby_ttl demoted (Some hysteresis)) in
        probe_url <- mget (fun d => get_setting "health_probe_url" d or DEFAULT_PROBE_URL) ;;
        res <- try_candidates active_id now probe_url candidates [] ;;
        match res with
        | Returned r => mret r
        | Exhausted errors =>
            if bool_decide (errors <> []) && bool_decide (length errors = length candidates)
            then mraise (RuntimeError ("no failover preflight could run: " +:+ join "; " errors))
            else
              maybe_report_all_down hs nodes active_id hysteresis cooldown now last_failover_at true
                active_ttl standby_ttl demoted ;;;
              mret None
        end
    end.

End run.
