(* ===== verification/FailoverProps.v ===== *)
(** What failover guarantees, whatever the preflight and the apply do: it leaves a
    node only on fresh, sustained evidence and outside the cooldown, moves only to a
    node that just carried a real request, never hands the LAN straight back, and
    does move when a ranked candidate works. *)
From Stdlib Require Import ZArith Lia Sorted.
From stdpp Require Import base gmap strings list fin_maps.
From S2P Require Import Prelude PyStr Models Store StoreFacts Events Selection Failover.
Open Scope string_scope.
Open Scope Z_scope.

(** * Reading settings *)

Definition float_setting (key : string) (d : db) : option Z :=
  match get_setting key d with
  | Some (String _ _ as s) => py_float s
  | _ => None
  end.

Lemma opt_int_inv key d v d' : opt_int key d = (inr v, d') -> d' = d /\ v = int_setting key d.
Proof.
  unfold opt_int, int_setting, mbind, mget, mret, mraise. intros H.
  destruct (get_setting key d) as [[|c s]|]; [by simplify_eq| |by simplify_eq].
  destruct (py_int (String c s)); by simplify_eq.
Qed.

Lemma opt_float_inv key d v d' : opt_float key d = (inr v, d') -> d' = d /\ v = float_setting key d.
Proof.
  unfold opt_float, float_setting, mbind, mget, mret, mraise. intros H.
  destruct (get_setting key d) as [[|c s]|]; [by simplify_eq| |by simplify_eq].
  destruct (py_float (String c s)); by simplify_eq.
Qed.

Lemma int_setting_str k z d : get_setting k d = Some (str_int z) -> int_setting k d = Some z.
Proof.
  intros H. unfold int_setting. rewrite H. pose proof (py_int_str_int z). by destruct (str_int z).
Qed.

Lemma float_setting_str k x d : get_setting k d = Some (str_float x) -> float_setting k d = Some x.
Proof.
  intros H. unfold float_setting. rewrite H. pose proof (py_float_str_float x). by destruct (str_float x).
Qed.

Lemma set_setting_inv k v d r d' :
  set_setting k v d = (inr r, d') -> d' = set_settings (<[k := v]> (d_settings d)) d.
Proof. unfold set_setting, stmt. intros H. by inv_match H. Qed.

(** Inversion of a bind that returned. *)
Lemma mbind_inv {A B} (m : M A) (k : A -> M B) d b d' :
  mbind m k d = (inr b, d') -> exists a d1, m d = (inr a, d1) /\ k a d1 = (inr b, d').
Proof. unfold mbind. destruct (m d) as [[e|a] d1]; [done|eauto]. Qed.

Lemma attempt_inv {A} (m : M A) d r d' : attempt m d = (inr r, d') -> m d = (r, d').
Proof. unfold attempt. destruct (m d). by intros [= <- <-]. Qed.

(** Peels one step off a hypothesis [H : (x <- m ;; k) d = (inr b, d')]. *)
Ltac peel H a d1 E :=
  apply mbind_inv in H as (a & d1 & E & H).

Ltac peel_get H :=
  let a := fresh "v" in let d1 := fresh "d" in let E := fresh "E" in
  apply mbind_inv in H as (a & d1 & E & H);
  first [apply opt_int_inv in E as [-> ->] | apply opt_float_inv in E as [-> ->]
        | injection E as <- <-].

Section facts.
Context (real_through : node -> string -> bool -> M probe_result).
Context (apply_fn : node -> M bool).

(** What the loop did when it returned a node: the preflight of that node
    succeeded, the active node was still the one being left, and the apply
    succeeded. *)
Definition promoted (active_id : option Z) (now : Z) (url : string) (n : node) (d' : db) : Prop :=
  exists d1 d2 d3 d4 ms ip ip6,
    real_through n url (operator_added n) d1 = (inr (true, ms, ip, ip6), d2) /\
    int_setting "active_node_id" d2 = active_id /\
    update_health_real (node_id n) true ms ip ip6 now d2 = (inr tt, d3) /\
    apply_fn n d3 = (inr true, d4) /\
    d' = set_settings
      (<["last_demoted_node_id" := match active_id with Some i => str_int i | None => "" end]>
       (<["last_failover_at" := str_float now]> (d_settings d4))) d4.

Lemma try_candidates_promoted active_id now url cands : forall errors d i d',
  try_candidates real_through apply_fn active_id now url cands errors d = (inr (Returned (Some i)), d') ->
  exists n, n ∈ cands /\ n_id n = Some i /\ promoted active_id now url n d'.
Proof.
  induction cands as [|n cands IH]; intros errors d i d' H; simpl in H; [by simplify_eq|].
  assert (forall errs d0, try_candidates real_through apply_fn active_id now url cands errs d0 =
            (inr (Returned (Some i)), d') -> exists n0, n0 ∈ n :: cands /\ n_id n0 = Some i /\
              promoted active_id now url n0 d') as Hnext.
  { intros errs d0 (m & Hm & ?)%IH. exists m. split; [by right|done]. }
  peel_get H. destruct (negb _); [by simplify_eq|].
  peel H res d2 Er. apply attempt_inv in Er. destruct res as [exc|[[[ok ms] ip] ip6]]; [by eapply Hnext|].
  peel_get H. destruct (bool_decide _) eqn:Ea; simpl in H; [|by simplify_eq].
  apply bool_decide_eq_true in Ea. peel H u d3 Eu. destruct ok; simpl in H; [|by eapply Hnext].
  peel H ok d4 Eo. destruct ok; [|by eapply Hnext].
  peel H u1 d5 E1. peel H u2 d6 E2. apply set_setting_inv in E1, E2. simplify_eq/=.
  injection H as Hn <-. exists n. split_and!; [by left|done|]. destruct u.
  exists d, d2, d3, d4, ms, ip, ip6. split_and!; try done.
Qed.

Definition run_hysteresis (d : db) : Z := default DEFAULT_HYSTERESIS (int_setting "health_hysteresis" d).
Definition run_cooldown (d : db) : Z := default DEFAULT_COOLDOWN (float_setting "failover_cooldown" d).
Definition run_health (d : db) : gmap Z health := health_map (list_health d).
Definition run_demoted (now : Z) (d : db) : list Z :=
  recently_demoted now (float_setting "last_failover_at" d) d.

(** When [run] looks for a candidate at all. *)
Definition warranted (now : Z) (d : db) (active : Z) : Prop :=
  get_setting "failover_enabled" d or "1" = "1" /\
  int_setting "active_node_id" d = Some active /\
  (exists ah, run_health d !! active = Some ah /\ run_hysteresis d <= h_fail_count ah /\
     health_fresh (Some ah) now (active_freshness_ttl d) = true) /\
  (forall t, float_setting "last_failover_at" d = Some t -> run_cooldown d <= now - t).

(** The nodes [run] may move to. *)
Definition candidate (now : Z) (d : db) (active : Z) (n : node) : Prop :=
  n ∈ list_nodes d /\
  eligible (run_health d) (Some active) (bool_decide (is_Some (standby_freshness_ttl d))) now
    (standby_freshness_ttl d) (run_demoted now d) n = true.

Lemma within_false window now o :
  within window now o = false <-> forall t, o = Some t -> window <= now - t.
Proof.
  destruct o as [t|]; simpl; [|done]. rewrite Z.ltb_ge. split; [by intros ? ? [= ->]|auto].
Qed.

Lemma decide_inv hs nodes a hy cd now last ttl sttl ex alive c :
  decide_failover hs nodes a hy cd now last (Some ttl) sttl ex alive = Some c ->
  exists active ah, a = Some active /\ hs !! active = Some ah /\ hy <= h_fail_count ah /\
    health_fresh (Some ah) now ttl = true /\ (forall t, last = Some t -> cd <= now - t).
Proof.
  unfold decide_failover. destruct a as [active|]; simpl; [|done].
  destruct (hs !! active) as [ah|] eqn:Eh; [|done].
  destruct (Z.ltb_spec (h_fail_count ah) hy); [done|].
  destruct (health_fresh (Some ah) now ttl) eqn:Ef; simpl; [|done].
  destruct (within cd now last) eqn:Ew; [done|]. intros _.
  exists active, ah. split_and!; try done. by apply within_false.
Qed.

Lemma run_promoted now d new d' :
  run real_through apply_fn now d = (inr (Some new), d') ->
  exists active n, warranted now d active /\ candidate now d active n /\ n_id n = Some new /\
    promoted (Some active) now (get_setting "health_probe_url" d or DEFAULT_PROBE_URL) n d'.
Proof.
  intros H. unfold run in H. peel_get H. destruct (bool_decide _) eqn:Een; simpl in H; [|by simplify_eq].
  apply bool_decide_eq_true in Een. do 8 peel_get H. peel_get H.
  destruct (decide_failover _ _ _ _ _ _ _ _ _ _ _) as [c|] eqn:Ed.
  2: { peel H u d1 E. by simplify_eq. }
  apply decide_inv in Ed as (active & ah & Ea & Eh & Hh & Hf & Hc). rewrite Ea in H.
  peel_get H. peel H res d1 Er. destruct res as [r|errs].
  2: { destruct (_ && _); [done|]. peel H u d2 E. by simplify_eq. }
  injection H as -> ->. apply try_candidates_promoted in Er as (n & Hn & Hi & Hp).
  assert (n ∈ ranked_nodes (list_nodes d) (run_health d) (Some active)
            (bool_decide (is_Some (standby_freshness_ttl d))) now (standby_freshness_ttl d)
            (run_demoted now d) (Some (run_hysteresis d))) as Hr.
  { by eapply elem_of_take in Hn as (? & Hn%list_elem_of_lookup_2 & _). }
  apply ranked_elem in Hr. exists active, n. split_and!; try done. 
  split_and!; try done. by exists ah.
Qed.
End facts.

(** The sweep of the standby nodes is on. *)
Definition sweeps (d : db) : Prop := forall k, k ∈ ["health_enabled"; "health_sweep_enabled"] ->
  get_setting k d = None \/ get_setting k d = Some "" \/ get_setting k d = Some "1".
(** How old a health row may be: of the active node, twice its interval and three minutes at least; of a standby,
    twice the interval of the sweep if that is longer. *)
Definition active_window (d : db) : Z := Z.max (sec 180) (2 * positive_float "health_active_interval" (sec 60) d).
Definition standby_window (d : db) : Z := Z.max (active_window d) (2 * positive_float "health_interval" (sec 1800) d).
Definition seen_within (window now : Z) (h : health) : Prop := exists t, h_checked_at h = Some t /\ now - t <= window.
Definition answered (h : health) : Prop := h_real_ok h = Some true \/ h_http_ok h = Some true \/ h_tcp_ok h = Some true.

Lemma fresh_seen h now ttl : health_fresh (Some h) now ttl = true -> seen_within ttl now h.
Proof.
  unfold health_fresh, health_age_seconds, checked_at_age_seconds, seen_within. simpl. destruct (h_checked_at h) as [t|]; simpl; [|done].
  intros H%Z.leb_le. exists t. split; [done|lia].
Qed.
Lemma active_window_ttl d : active_freshness_ttl d = active_window d.
Proof. unfold active_freshness_ttl, active_window, DEFAULT_FRESHNESS_TTL, DEFAULT_ACTIVE_INTERVAL, FRESHNESS_SLACK. lia. Qed.
Lemma sweeps_ttl d : sweeps d -> standby_freshness_ttl d = Some (standby_window d).
Proof.
  intros Hs. assert (forall k, k ∈ ["health_enabled"; "health_sweep_enabled"] -> bool_decide (get_setting k d or "1" = "1") = true) as Hk.
  { intros k Hk. apply bool_decide_eq_true. by destruct (Hs k Hk) as [-> | [-> | ->]]. }
  unfold standby_freshness_ttl, sweep_enabled. rewrite !Hk by set_solver. cbn [andb]. rewrite active_window_ttl. f_equal.
  unfold standby_window, DEFAULT_SWEEP_INTERVAL, FRESHNESS_SLACK. lia.
Qed.
(** A candidate of a sweep that is on has a row that is recent and shows an answer. *)
Lemma candidate_fit now d active n i : n_id n = Some i -> candidate now d active n -> sweeps d ->
  exists h, run_health d !! i = Some h /\ seen_within (standby_window d) now h /\ answered h.
Proof.
  intros Hi [_ He] Hs. rewrite (sweeps_ttl d Hs) in He. unfold eligible in He. rewrite bool_decide_eq_true_2 in He by done.
  apply andb_true_iff in He as [[_ Hf]%andb_true_iff Ha]. unfold hget in *. rewrite Hi in *. simpl in Hf, Ha.
  destruct (run_health d !! i) as [h|]; [|done]. exists h. split; [done|]. split; [by apply fresh_seen|].
  unfold alive, flag in Ha. unfold answered. destruct (h_real_ok h) as [[]|], (h_http_ok h) as [[]|], (h_tcp_ok h) as [[]|]; try done; auto.
Qed.

(** C34: a failover happens only when it is enabled, the active node has at least [hysteresis] consecutive
    failures by a row of its own that is recent, and the cooldown has passed; it moves to a stored, non-stale
    node other than the active one and, for ten minutes, the one fled last, which, when standby nodes are
    swept, has a recent row in which it answered; whose preflight carried a real request while the active node
    was still the same, and whose apply succeeded; and it records when it moved and what it fled.  This holds
    for every preflight and apply, whatever they and the other threads do to the database. *)
Theorem failover_only_on_evidence real_through apply_fn now d new d'
    (H : run real_through apply_fn now d = (inr (Some new), d')) :
  exists active n,
    warranted now d active /\
    (exists ah, run_health d !! active = Some ah /\ run_hysteresis d <= h_fail_count ah /\ seen_within (active_window d) now ah) /\
    n ∈ list_nodes d /\ n_id n = Some new /\ new <> active /\ n_stale n = false /\
    (int_setting "last_demoted_node_id" d = Some new -> forall t, float_setting "last_failover_at" d = Some t -> sec 600 <= now - t) /\
    (sweeps d -> exists h, run_health d !! new = Some h /\ seen_within (standby_window d) now h /\ answered h) /\
    promoted real_through apply_fn (Some active) now
      (get_setting "health_probe_url" d or DEFAULT_PROBE_URL) n d' /\
    int_setting "last_demoted_node_id" d' = Some active /\
    float_setting "last_failover_at" d' = Some now.
Proof.
  destruct (run_promoted _ _ _ _ _ _ H) as (active & n & Hw & Hcand & Hi & Hp). pose proof Hcand as [Hn He].
  pose proof (eligible_not_excluded _ _ _ _ _ _ _ He) as [Hne Hnd].
  apply eligible_not_stale in He. rewrite Hi in Hne, Hnd. exists active, n. split_and!; try done.
  - destruct Hw as (_ & _ & (ah & H1 & H2 & H3) & _). exists ah. split_and!; [done..|]. rewrite <- active_window_ttl. by apply fresh_seen.
  - congruence.
  - intros Hd t Ht. unfold run_demoted, recently_demoted in Hnd. rewrite Hd, Ht in Hnd.
    destruct (Z.ltb_spec (now - t) DEMOTION_GRACE); [set_solver|done].
  - by eapply candidate_fit.
  - destruct Hp as (? & ? & ? & ? & ? & ? & ? & _ & _ & _ & _ & ->).
    apply int_setting_str. unfold get_setting; simpl. by rewrite lookup_insert_eq.
  - destruct Hp as (? & ? & ? & ? & ? & ? & ? & _ & _ & _ & _ & ->).
    apply float_setting_str. unfold get_setting; simpl. rewrite lookup_insert_ne by done.
    by rewrite lookup_insert_eq.
Qed.

(** no ping-pong.  After a failover from a node, the next one, with any
    changes to the database in between that keep what the first recorded, happens
    no sooner than the cooldown, and returns to that node no sooner than the
    ten-minute grace. *)
Theorem failover_no_pingpong real_through apply_fn t1 t2 d1 d1' d2 d2' b c
    (H1 : run real_through apply_fn t1 d1 = (inr (Some b), d1'))
    (Hkeep : forall k, k ∈ ["last_failover_at"; "last_demoted_node_id"] -> get_setting k d2 = get_setting k d1')
    (H2 : run real_through apply_fn t2 d2 = (inr (Some c), d2')) :
  run_cooldown d2 <= t2 - t1 /\
  (int_setting "active_node_id" d1 = Some c -> DEMOTION_GRACE <= t2 - t1).
Proof.
  destruct (run_promoted _ _ _ _ _ _ H1) as (a & n1 & (_ & Ha & _) & _ & _ & Hp1).
  destruct Hp1 as (? & ? & ? & d4 & ? & ? & ? & _ & _ & _ & _ & ->).
  destruct (run_promoted _ _ _ _ _ _ H2) as (a2 & n2 & (_ & _ & _ & Hcool) & [_ He] & Hi & _).
  assert (float_setting "last_failover_at" d2 = Some t1) as Hf.
  { apply float_setting_str. rewrite Hkeep by set_solver. unfold get_setting; simpl.
    rewrite lookup_insert_ne by done. by rewrite lookup_insert_eq. }
  assert (int_setting "last_demoted_node_id" d2 = Some a) as Hd.
  { apply int_setting_str. rewrite Hkeep by set_solver. unfold get_setting; simpl.
    by rewrite lookup_insert_eq. }
  split; [by apply Hcool|]. rewrite Ha. intros [= ->].
  apply eligible_not_excluded in He as [_ He]. rewrite Hi in He.
  unfold run_demoted, recently_demoted in He. rewrite Hf, Hd in He.
  destruct (Z.ltb_spec (t2 - t1) DEMOTION_GRACE); [|done]. set_solver.
Qed.

(** * Progress *)
Lemma list_nodes_id d n : n ∈ list_nodes d -> is_Some (n_id n).
Proof.
  unfold list_nodes. intros ([i r] & -> & _)%list_elem_of_fmap. unfold row_to_node; simpl.
  destruct (normalize_owned (with_id (Some i) r)) as [-> _]. by eexists.
Qed.

Section progress.
(** Each node's preflight has one outcome and nothing else touches the database
    while it runs; every apply succeeds. *)
Context (f : node -> exn + probe_result) (apply_fn : node -> M bool).
Context (apply_ok : forall n d, constraints d -> exists d', apply_fn n d = (inr true, d') /\ constraints d').

Definition preflight (n : node) (_ : string) (_ : bool) : M probe_result := fun d => (f n, d).

Definition works (n : node) : bool :=
  match f n with inr (ok, _, _, _) => ok | inl _ => false end.

Lemma opt_int_same k d d' : get_setting k d' = get_setting k d ->
  forall v, opt_int k d = (inr v, d) -> opt_int k d' = (inr v, d').
Proof.
  unfold opt_int, mbind, mget, mret, mraise. intros -> v.
  destruct (get_setting k d) as [[|c s]|]; [by intros [= <-]| |by intros [= <-]].
  destruct (py_int (String c s)); [by intros [= <-]|done].
Qed.

Lemma opt_int_id k d v d' : opt_int k d = (inr v, d') -> opt_int k d = (inr v, d).
Proof. intros H. destruct (opt_int_inv _ _ _ _ H) as [-> _]. done. Qed.

Lemma constraints_real_row i ok ms ip ip6 t d :
  constraints d -> is_Some (d_nodes d !! i) ->
  constraints (set_health (<[i := real_row i ok ms ip ip6 t (d_health d !! i)]> (d_health d)) d).
Proof.
  intros Hc Hi. apply constraints_health; [done|]. apply map_Forall_insert_2; [done|apply Hc].
Qed.

Lemma try_candidates_works a now url n cands : forall errors d,
  constraints d -> opt_int "active_node_id" d = (inr a, d) ->
  Forall (fun m => is_Some (d_nodes d !! node_id m)) cands ->
  head (filter (fun m => works m = true) cands) = Some n ->
  exists d', try_candidates preflight apply_fn a now url cands errors d = (inr (Returned (n_id n)), d') /\
    constraints d'.
Proof.
  induction cands as [|m cands IH]; intros errors d Hc Ha Hn Hw; [done|].
  apply Forall_cons in Hn as [Hm Hn]. 
  assert (head (if works m then m :: filter (fun m => works m = true) cands
                else filter (fun m => works m = true) cands) = Some n) as Hw'.
  { rewrite filter_cons in Hw. case_decide as E; by destruct (works m). }
  clear Hw. rename Hw' into Hw. unfold works in Hw at 1.
  simpl. unfold mbind. rewrite Ha, bool_decide_eq_true_2 by done. simpl.
  unfold attempt, preflight at 1. destruct (f m) as [e|[[[ok ms] ip] ip6]] eqn:Ef; [by apply IH|].
  rewrite Ha, bool_decide_eq_true_2 by done. simpl. rewrite update_health_real_run by done.
  pose proof (constraints_real_row (node_id m) ok ms ip ip6 now d Hc Hm) as Hc1.
  destruct ok; simpl in *.
  - injection Hw as ->. destruct (apply_ok n _ Hc1) as (d4 & -> & Hc4).
    rewrite set_setting_run by done. rewrite set_setting_run by auto with v2pi.
    eexists. split; [done|]. auto with v2pi.
  - apply IH; [done| |done|done]. by eapply opt_int_same; [|exact Ha].
Qed.

Lemma list_nodes_stored d n : n ∈ list_nodes d -> is_Some (d_nodes d !! node_id n).
Proof.
  unfold list_nodes, rows_by_position. intros ([i r] & -> & Hr)%list_elem_of_fmap.
  apply stable_sort_elem, elem_of_map_to_list in Hr. unfold node_id, row_to_node; simpl.
  destruct (normalize_owned (with_id (Some i) r)) as [-> _]. simpl. eauto.
Qed.

(** The nodes [run] preflights, in order. *)
Definition run_candidates (now : Z) (d : db) (active : Z) : list node :=
  take MAX_PREFLIGHTS
    (ranked_nodes (list_nodes d) (run_health d) (Some active)
       (bool_decide (is_Some (standby_freshness_ttl d))) now (standby_freshness_ttl d)
       (run_demoted now d) (Some (run_hysteresis d))).

Lemma decide_warranted now d active n l :
  warranted now d active -> run_candidates now d active = n :: l -> is_Some (n_id n) ->
  decide_failover (run_health d) (list_nodes d) (Some active) (run_hysteresis d) (run_cooldown d) now
    (float_setting "last_failover_at" d) (Some (active_freshness_ttl d)) (standby_freshness_ttl d)
    (run_demoted now d) (bool_decide (is_Some (standby_freshness_ttl d))) = n_id n.
Proof.
  intros (_ & _ & (ah & Hh & Hf & Hfr) & Hc) Hr Hn. unfold decide_failover. simpl. rewrite Hh.
  destruct (Z.ltb_spec (h_fail_count ah) (run_hysteresis d)); [lia|]. rewrite Hfr. simpl.
  rewrite (proj2 (within_false _ _ _)) by done.
  unfold best_node. unfold run_candidates, MAX_PREFLIGHTS in Hr.
  destruct (ranked_nodes _ _ _ _ _ _ _ _); [done|]. simpl in *. by simplify_eq.
Qed.

Lemma opt_int_ok k d : is_Some (int_setting k d) \/ truthy (get_setting k d) = false ->
  opt_int k d = (inr (int_setting k d), d).
Proof.
  unfold opt_int, int_setting, mbind, mget, mret, mraise.
  destruct (get_setting k d) as [[|c s]|]; [done| |done]. intros [[i ->]|H]; done.
Qed.

Lemma opt_float_ok k d : is_Some (float_setting k d) \/ truthy (get_setting k d) = false ->
  opt_float k d = (inr (float_setting k d), d).
Proof.
  unfold opt_float, float_setting, mbind, mget, mret, mraise.
  destruct (get_setting k d) as [[|c s]|]; [done| |done]. intros [[i ->]|H]; done.
Qed.

(** The numbers [run] reads are numbers, or absent. *)
Definition settings_wf (d : db) : Prop :=
  (is_Some (int_setting "health_hysteresis" d) \/ truthy (get_setting "health_hysteresis" d) = false) /\
  (is_Some (float_setting "failover_cooldown" d) \/ truthy (get_setting "failover_cooldown" d) = false) /\
  (is_Some (float_setting "last_failover_at" d) \/ truthy (get_setting "last_failover_at" d) = false).

(** when a failover is warranted, [run] moves to the first of the five best
    candidates whose preflight works, past candidates that fail or whose preflight
    could not run at all. *)
Theorem failover_promotes now d active n (Hc : constraints d) (Hs : settings_wf d)
    (Hw : warranted now d active)
    (Hn : head (filter (fun m => works m = true) (run_candidates now d active)) = Some n) :
  exists d', run preflight apply_fn now d = (inr (n_id n), d').
Proof.
  pose proof Hw as (Hen & Ha & _). destruct Hs as (Hs1 & Hs2 & Hs3).
  assert (Forall (fun m => is_Some (d_nodes d !! node_id m) /\ is_Some (n_id m)) (run_candidates now d active)) as Hst.
  { rewrite Forall_forall. intros m Hm. unfold run_candidates in Hm.
    apply elem_of_take in Hm as (? & Hm%list_elem_of_lookup_2 & _). apply ranked_elem in Hm as [Hm _].
    split; [by apply list_nodes_stored|]. by apply list_nodes_id in Hm. }
  unfold run, mbind, mget. rewrite bool_decide_eq_true_2 by done. cbn [negb].
  rewrite opt_int_ok by done. rewrite opt_float_ok by done. rewrite opt_int_ok by (left; by rewrite Ha).
  rewrite opt_float_ok by done. rewrite Ha. cbn zeta.
  destruct (run_candidates now d active) as [|m l] eqn:El; [done|].
  fold (run_health d) (run_hysteresis d) (run_cooldown d) (run_demoted now d).
  pose proof Hst as [[_ Hm] _]%Forall_cons. destruct Hm as [i Hi].
  rewrite (decide_warranted now d active m l) by (rewrite ?Hi; eauto). rewrite Hi.
  fold (run_candidates now d active). rewrite El.
  destruct (try_candidates_works (Some active) now (get_setting "health_probe_url" d or DEFAULT_PROBE_URL)
    n (m :: l) [] d) as (d' & -> & _); [done|rewrite <- Ha; apply opt_int_ok; left; by rewrite Ha| |done|by eexists].
  eapply Forall_impl; [exact Hst|]. by intros ? [??].
Qed.

End progress.

(** * A concrete gateway *)

(** Node 1 is active and failed three times, node 2 answers. *)
Definition failing_gateway : db :=
  set_health
    {[ 1 := Health 1 None None None None (Some false) None None None (Some (sec 990)) 3 [];
       2 := Health 2 (Some true) (Some 30) (Some true) (Some 60) None None None None (Some (sec 900)) 0 [] ]}
    (set_settings {[ "active_node_id" := "1" ]}
       (set_nodes {[ 1 := mk_node "a" "10.0.0.1" 443 "u"; 2 := mk_node "b" "10.0.0.2" 443 "u" ]} empty_db)).

Definition good_probe (n : node) : exn + probe_result := inr (true, Some 42, Some "203.0.113.9", None).

(** An apply that records the node and succeeds. *)
Definition simple_apply (n : node) : M bool :=
  set_setting "active_node_id" (str_int (node_id n)) ;;; mret true.

Example failover_only_on_evidence_witness :
  exists d', run (preflight good_probe) simple_apply (sec 1000) failing_gateway = (inr (Some 2), d') /\
    int_setting "last_demoted_node_id" d' = Some 1 /\
    exists h, run_health failing_gateway !! 2 = Some h /\ seen_within (standby_window failing_gateway) (sec 1000) h /\ answered h.
Proof.
  eexists. split; [vm_compute; reflexivity|].
  edestruct (failover_only_on_evidence (preflight good_probe) simple_apply (sec 1000) failing_gateway 2)
    as (active & n & (_ & Ha & _) & _ & _ & _ & _ & _ & _ & Hfit & _ & Hd & _); [vm_compute; reflexivity|].
  split; [rewrite Hd, <- Ha; reflexivity|]. apply Hfit. intros k [-> | ->%list_elem_of_singleton]%elem_of_cons; by left.
Defined.

Example failover_promotes_witness :
  exists d', run (preflight good_probe) simple_apply (sec 1000) failing_gateway = (inr (Some 2), d').
Proof.
  apply (failover_promotes good_probe simple_apply) with (active := 1)
    (n := row_to_node 2 (mk_node "b" "10.0.0.2" 443 "u")).
  - intros n d Hd. eexists. unfold simple_apply, mbind, mret. rewrite set_setting_run by done.
    split; [done|]. by apply constraints_settings.
  - apply (bool_decide_unpack _). by vm_compute.
  - unfold settings_wf; split_and!; right; by vm_compute.
  - unfold warranted; split_and!; [by vm_compute|by vm_compute| |by intros t Ht; vm_compute in Ht].
    exists (Health 1 None None None None (Some false) None None None (Some (sec 990)) 3 []).
    by vm_compute.
  - by vm_compute.
Defined.

(** The same gateway after the move, node 2 failing in turn. *)
Definition moved : db := (run (preflight good_probe) simple_apply (sec 1000) failing_gateway).2.
Definition failing_again : db :=
  set_health
    {[ 2 := Health 2 None None None None (Some false) None None None (Some (sec 1990)) 3 [];
       1 := Health 1 (Some true) (Some 30) (Some true) (Some 60) None None None None (Some (sec 1900)) 0 [] ]}
    moved.

Example failover_no_pingpong_witness :
  exists d2, run (preflight good_probe) simple_apply (sec 2000) failing_again = (inr (Some 1), d2) /\
    DEMOTION_GRACE <= sec 2000 - sec 1000.
Proof.
  eexists. split; [vm_compute; reflexivity|].
  eapply (failover_no_pingpong (preflight good_probe) simple_apply (sec 1000) (sec 2000)
    failing_gateway moved failing_again _ 2 1); [by vm_compute| |by vm_compute|by vm_compute].
  intros k Hk. done.
Defined.
