(* ===== verification/Reconcile.v ===== *)
(** [subs/reconcile.py]: merging a subscription feed into the stored nodes.

    [reconcile] runs in one transaction.  Its two loops are [merge_all] (over the
    parsed nodes) and [sweep_all] (over the nodes stored before); each threads the
    counters and flags the Python locals keep.  [digest] stands for
    [hashlib.sha256(repr(...)).hexdigest()] of the sorted identities. *)
From Stdlib Require Import ZArith Lia.
From stdpp Require Import base gmap strings list fin_maps.
From S2P Require Import Prelude PyStr Models Store.
Open Scope string_scope.
Open Scope Z_scope.

(** [_CONFIG_FIELDS], as the function that compares them. *)
Definition config_fields (n : node) : list string :=
  [n_address n; str_int (n_port n); n_uuid n; n_transport n; n_sni n; n_public_key n; n_short_id n;
   n_fingerprint n; n_flow n; n_network n; n_security n; n_path n; n_host n; n_mode n; n_alpn n].

Definition config_differs (a b : node) : bool := negb (bool_decide (config_fields a = config_fields b)).

Definition SECURITY_RANK : list (string * Z) := [("tls", 1); ("reality", 2)].
Definition security_rank (s : string) : Z := default 0 (assoc s SECURITY_RANK).

Definition security_kept (old new : option node) : bool :=
  match old, new with
  | Some o, Some n => security_rank (n_security o) <=? security_rank (n_security n)
  | _, _ => true
  end.

Definition identity_t : Type := string * Z * string * string * string * string.

Definition identity (n : node) : identity_t :=
  (n_address n, n_port n, n_uuid n, n_path n, n_sni n, n_short_id n).

(** [by_key[_identity(p)] = p]: the key keeps its place, the last value wins. *)
Fixpoint put (p : node) (l : list node) : list node :=
  match l with
  | [] => [p]
  | q :: l' => if decide (identity q = identity p) then p :: l' else q :: put p l'
  end.

Definition dedupe (parsed : list node) : list node := foldl (fun l p => put p l) [] parsed.

(** Tuples compare lexicographically. *)
Definition identity_le (a b : identity_t) : bool :=
  let '(a1, a2, a3, a4, a5, a6) := a in
  let '(b1, b2, b3, b4, b5, b6) := b in
  if negb (String.eqb a1 b1) then String.leb a1 b1
  else if negb (a2 =? b2) then a2 <=? b2
  else if negb (String.eqb a3 b3) then String.leb a3 b3
  else if negb (String.eqb a4 b4) then String.leb a4 b4
  else if negb (String.eqb a5 b5) then String.leb a5 b5
  else String.leb a6 b6.

(** The dict [reconcile] returns. *)
Record outcome := Outcome {
  o_added : Z;
  o_updated : Z;
  o_removed : Z;
  o_active_changed : bool;
  o_active_replacement : option Z;
  o_skipped_deletes : Z;
  o_active_downgrade : option (string * string)
}.

(** Locals of the first loop. *)
Record merge_st := MergeSt {
  m_added : Z;
  m_updated : Z;
  m_active_changed : bool;
  m_active_downgrade : option (string * string)
}.

(** Locals of the second loop. *)
Record sweep_st := SweepSt { w_removed : Z; w_skipped : Z; w_vanished : bool }.

Section reconcile.
Context (digest : list identity_t -> string).
Context (sub_id : Z) (active_node_id default_profile_id : option Z).

Definition shrink_fingerprint (parsed : list node) : string :=
  digest (stable_sort identity_le (identity <$> parsed)).

Definition get_by (key : identity_t) (d : db) : option node :=
  let '(address, port, uuid, path, sni, short_id) := key in
  get_node_by_identity (Some sub_id) address port uuid path sni short_id d.

(** One iteration of [for pos, p in enumerate(parsed)]. *)
Definition merge_one (pos : Z) (p : node) (st : merge_st) : M merge_st :=
  cur <- mget (get_by (identity p)) ;;
  match cur with
  | None =>
      add_node (with_owned None (Some sub_id) false pos default_profile_id (n_note p) p) ;;;
      mret (MergeSt (m_added st + 1) (m_updated st) (m_active_changed st) (m_active_downgrade st))
  | Some c =>
      let p' := with_owned (n_id c) (Some sub_id) false pos (n_tuning_profile_id c) (n_note c) p in
      let is_active := bool_decide (n_id c = active_node_id) in
      if is_active && negb (security_kept (Some c) (Some p')) then
        mret (MergeSt (m_added st) (m_updated st) (m_active_changed st)
                (Some (n_security c, n_security p')))
      else
        let changed := m_active_changed st || (is_active && config_differs c p') in
        update_node p' ;;;
        mret (MergeSt (m_added st) (m_updated st + 1) changed (m_active_downgrade st))
  end.

Fixpoint merge_all (pos : Z) (parsed : list node) (st : merge_st) : M merge_st :=
  match parsed with
  | [] => mret st
  | p :: parsed' => st' <- merge_one pos p st ;; merge_all (pos + 1) parsed' st'
  end.

(** One iteration of [for n in existing]. *)
Definition sweep_one (parsed : list node) (anomalous confirmed : bool) (n : node) (st : sweep_st) :
    M sweep_st :=
  if bool_decide (identity n ∈ identity <$> parsed) then mret st
  else if bool_decide (parsed = []) then mret (SweepSt (w_removed st) (w_skipped st + 1) (w_vanished st))
  else if anomalous && (negb confirmed || negb (n_stale n)) then
    mark_stale (default 0 (n_id n)) true ;;;
    mret (SweepSt (w_removed st) (w_skipped st + 1) (w_vanished st))
  else if bool_decide (n_id n = active_node_id) then
    mark_stale (default 0 (n_id n)) true ;;;
    mret (SweepSt (w_removed st) (w_skipped st) true)
  else
    delete_node (default 0 (n_id n)) ;;;
    mret (SweepSt (w_removed st + 1) (w_skipped st) (w_vanished st)).

Fixpoint sweep_all (parsed : list node) (anomalous confirmed : bool) (existing : list node)
    (st : sweep_st) : M sweep_st :=
  match existing with
  | [] => mret st
  | n :: existing' =>
      st' <- sweep_one parsed anomalous confirmed n st ;;
      sweep_all parsed anomalous confirmed existing' st'
  end.

(** [bool(parsed) and len(existing) > 0 and len(parsed) < len(existing) * 0.5] *)
Definition anomalous_shrink (parsed existing : list node) : bool :=
  negb (bool_decide (parsed = [])) && negb (bool_decide (existing = [])) &&
  (2 * length parsed <? length existing)%nat.

(** The [with store.transaction():] block. *)
Definition merge_block (parsed : list node) : M (merge_st * sweep_st) :=
  existing <- mget (list_nodes_for_sub sub_id) ;;
  let anomalous := anomalous_shrink parsed existing in
  let fingerprint := if anomalous then shrink_fingerprint parsed else "" in
  stored <- mget (get_setting (shrink_key sub_id)) ;;
  let confirmed := anomalous && bool_decide (stored = Some fingerprint) in
  set_setting (shrink_key sub_id) fingerprint ;;;
  ms <- merge_all 0 parsed (MergeSt 0 0 false None) ;;
  ws <- sweep_all parsed anomalous confirmed existing (SweepSt 0 0 false) ;;
  mret (ms, ws).

Definition reconcile (feed : list node) : M outcome :=
  let parsed := dedupe (clamp_node_fields <$> feed) in
  r <- tx (merge_block parsed) ;;
  let '(ms, ws) := r in
  fresh <- mget (fun d => filter (fun n => n_stale n = false) (list_nodes_for_sub sub_id d)) ;;
  let replacement := if w_vanished ws
                     then match fresh with [n] => n_id n | _ => None end else None in
  mret (Outcome (m_added ms) (m_updated ms) (w_removed ws) (m_active_changed ms) replacement
          (w_skipped ws) (m_active_downgrade ms)).

End reconcile.
