(* ===== verification/ReconcileProps.v ===== *)
(** What a feed refresh may do to the stored nodes: it never fails, never touches
    another subscription's nodes, keeps the operator's columns, never removes or
    weakens the active node, ends with exactly the feed's servers, and does not
    delete on the first anomalous shrink. *)
From Stdlib Require Import ZArith Lia.
From stdpp Require Import base gmap strings list fin_maps.
From S2P Require Import Prelude PyStr Models Store StoreFacts Reconcile.
Open Scope string_scope.
Open Scope Z_scope.

(** * Lemmas *)

(** Lemmas on [Reconcile]: what one iteration of each loop does to the node table,
    and the invariants the loops keep. *)

(** * Rows *)

(** A stored row: its key is its id, AUTOINCREMENT handed it out, and its path is
    what a read gives (the dataclass clears the path of a non-VLESS node). *)
Definition row_ok (d : db) (i : Z) (r : node) : Prop :=
  n_id r = Some i /\ i <= d_node_seq d /\ n_path (normalize r) = n_path r.

Definition wf (d : db) : Prop := constraints d /\ map_Forall (row_ok d) (d_nodes d).

#[export] Instance wf_dec d : Decision (wf d).
Proof. unfold wf, row_ok. apply _. Defined.

Lemma with_id_same i r : n_id r = Some i -> with_id (Some i) r = r.
Proof. destruct r; simpl. by intros ->. Qed.

Lemma row_to_node_ok d i r : row_ok d i r -> row_to_node i r = normalize r.
Proof. intros (H & _). unfold row_to_node. by rewrite with_id_same. Qed.

Lemma identity_normalize r : n_path (normalize r) = n_path r -> identity (normalize r) = identity r.
Proof.
  intros H. destruct (normalize_endpoint r) as (Ha & Hp & Hu & Hs & Hsh & _).
  unfold identity. by rewrite Ha, Hp, Hu, Hs, Hsh, H.
Qed.

Lemma identity_key a b :
  n_subscription_id a = n_subscription_id b -> identity a = identity b -> ident_key a = ident_key b.
Proof. unfold identity, ident_key. intros -> H. injection H. congruence. Qed.

Lemma key_identity s a b :
  0 <= s -> n_subscription_id a = Some s -> ident_key a = ident_key b ->
  n_subscription_id b = Some s /\ identity a = identity b.
Proof.
  unfold identity, ident_key. intros Hs Ha H. rewrite Ha in H. simpl in H. injection H.
  intros. destruct (n_subscription_id b) as [t|]; simpl in *; [split; congruence|lia].
Qed.

(** * Normal nodes stay normal *)

Lemma str_take_nil n s : (0 < n)%nat -> str_take n s = "" -> s = "".
Proof. destruct n; [lia|]. by destruct s. Qed.

Lemma clamp_nonempty attr v : v <> "" -> clamp attr v <> "".
Proof.
  intros Hv H. apply Hv. eapply str_take_nil; [|exact H]. unfold limit_of, STR_LIMITS; simpl.
  repeat case_match; simpl; unfold DEFAULT_STR_LIMIT; lia.
Qed.

Lemma str_take_short n s w : (String.length w < n)%nat -> str_take n s = w -> s = w.
Proof.
  revert s w. induction n as [|n IH]; intros s w Hw; [lia|]. destruct s as [|c s]; simpl; [done|].
  destruct w as [|c' w]; [done|]. simpl in Hw. intros H. injection H as -> H.
  f_equal. apply IH; [lia|done].
Qed.

Lemma clamp_normal n : normal n -> normal (clamp_node_fields n).
Proof.
  intros (Hp & Hs & Hn & Hv). unfold normal, clamp_node_fields; cbn -[clamp decide].
  split; [done|]. split_and!.
  - destruct (decide (n_protocol n = "shadowsocks")).
    + destruct Hs as [-> Hm]. split; [done|by apply clamp_nonempty].
    + destruct Hs as [[-> Hk]| ->]; [left|by right]. split; [done|by apply clamp_nonempty].
  - intros H. by destruct (Hn H) as (-> & -> & -> & -> & -> & ->).
  - intros H. destruct (Hv H) as [(-> & -> & ->)|(Ht & -> & Hf)]; [by left|right].
    split_and!; [|done|by apply clamp_nonempty].
    intros E. apply Ht. eapply str_take_short; [|exact E]. unfold limit_of, DEFAULT_STR_LIMIT. simpl. lia.
Qed.

Lemma with_owned_identity i s b pos pr note n : identity (with_owned i s b pos pr note n) = identity n.
Proof. done. Qed.

Lemma stale_security b n : n_security (normalize (with_stale b n)) = n_security (normalize n).
Proof. unfold normalize; simpl. by repeat case_decide. Qed.

(** * Deduplication *)

Lemma put_identity p l k : k ∈ identity <$> put p l <-> k = identity p \/ k ∈ identity <$> l.
Proof.
  induction l as [|q l IH]; simpl; [set_solver|]. case_decide as E; simpl.
  - rewrite E. set_solver.
  - rewrite !elem_of_cons, IH. tauto.
Qed.

Lemma put_NoDup p l : NoDup (identity <$> l) -> NoDup (identity <$> put p l).
Proof.
  induction l as [|q l IH]; simpl; intros H; [apply NoDup_singleton|].
  apply NoDup_cons in H as [Hq Hl]. case_decide as E; simpl; apply NoDup_cons.
  - by rewrite <- E.
  - split; [|by apply IH]. rewrite put_identity. intros [?|?]; [by symmetry in H|done].
Qed.

Lemma put_Forall (P : node -> Prop) p l : P p -> Forall P l -> Forall P (put p l).
Proof. intros Hp Hl. induction Hl as [|q l Hq Hl IH]; simpl; [by constructor|]. case_decide; by constructor. Qed.

Lemma dedupe_spec feed :
  NoDup (identity <$> dedupe feed) /\
  (forall k, k ∈ identity <$> dedupe feed <-> k ∈ identity <$> feed) /\
  (forall P : node -> Prop, Forall P feed -> Forall P (dedupe feed)).
Proof.
  unfold dedupe. cut (forall acc, NoDup (identity <$> acc) ->
    let r := foldl (fun l p => put p l) acc feed in
    NoDup (identity <$> r) /\
    (forall k, k ∈ identity <$> r <-> k ∈ identity <$> acc \/ k ∈ identity <$> feed) /\
    (forall P : node -> Prop, Forall P acc -> Forall P feed -> Forall P r)).
  { intros H. destruct (H []) as (H1 & H2 & H3); [constructor|]. split; [done|]. split.
    - intros k. rewrite H2. set_solver.
    - intros P HP. by apply H3. }
  induction feed as [|p feed IH]; intros acc Ha; simpl.
  - split; [done|]. split; [set_solver|done].
  - destruct (IH (put p acc)) as (H1 & H2 & H3); [by apply put_NoDup|]. split; [done|]. split.
    + intros k. rewrite H2, put_identity, elem_of_cons. tauto.
    + intros P Hacc [Hp Hf]%Forall_cons. apply H3; [by apply put_Forall|done].
Qed.

(** * One iteration of the merge *)
Section steps.
Context (sub : Z) (active dprof : option Z).
Context (sub_pos : 0 <= sub).

(** What a merge of [p] at [pos] does to the rows. *)
Inductive merged (pos : Z) (p : node) (d d' : db) : Prop :=
  | merged_added i
      (Hi : i = d_node_seq d + 1)
      (Hnew : forall j r, d_nodes d !! j = Some r -> n_subscription_id r = Some sub -> identity r <> identity p)
      (Hd : d' = set_node_seq i (set_nodes
              (<[i := with_owned (Some i) (Some sub) false pos dprof (n_note p) p]> (d_nodes d)) d))
  | merged_refused i r
      (Hr : d_nodes d !! i = Some r) (Hs : n_subscription_id r = Some sub)
      (Hk : identity r = identity p) (Ha : Some i = active) (Hd : d' = d)
  | merged_updated i r
      (Hr : d_nodes d !! i = Some r) (Hs : n_subscription_id r = Some sub)
      (Hk : identity r = identity p)
      (Hrank : Some i = active -> security_rank (n_security (normalize r)) <= security_rank (n_security p))
      (Hd : d' = set_nodes
              (<[i := with_owned (Some i) (Some sub) false pos (n_tuning_profile_id r) (n_note r) p]>
                 (d_nodes d)) d).

Lemma get_by_spec k d :
  wf d ->
  match get_by sub k d with
  | Some c => exists i r, d_nodes d !! i = Some r /\ c = normalize r /\ n_id c = Some i /\
                n_subscription_id r = Some sub /\ identity r = k
  | None => forall j r, d_nodes d !! j = Some r -> n_subscription_id r = Some sub -> identity r <> k
  end.
Proof.
  intros [_ Hw]. destruct k as [[[[[a p] u] pa] sn] sh]. unfold get_by, get_node_by_identity.
  destruct (filter _ _) as [|[i r] l] eqn:E.
  - intros j r Hj Hs Hk. assert ((j, r) ∈ @nil (Z * node)) as []%elem_of_nil.
    rewrite <- E. apply list_elem_of_filter. split; [|by apply elem_of_map_to_list].
    unfold identity in Hk. unfold same_identity; simpl. by injection Hk.
  - assert ((i, r) ∈ (i, r) :: l) as Hin by constructor. rewrite <- E in Hin.
    apply list_elem_of_filter in Hin as [Hsame Hin]. apply elem_of_map_to_list in Hin.
    pose proof (Hw i r Hin) as Hok. exists i, r. rewrite (row_to_node_ok d) by done.
    destruct Hsame as (Hs & Ha & Hp & Hu & Hpa & Hsn & Hsh); simpl in *. split_and!; try done.
    + destruct (normalize_owned r) as [-> _]. apply Hok.
    + unfold identity. congruence.
Qed.

Lemma add_row_ok d r :
  wf d -> is_Some (d_subs d !! sub) -> refs (n_tuning_profile_id r) (d_profiles d) ->
  n_subscription_id r = Some sub -> n_id r = Some (d_node_seq d + 1) ->
  n_path (normalize r) = n_path r ->
  (forall j q, d_nodes d !! j = Some q -> n_subscription_id q = Some sub -> identity q <> identity r) ->
  let d' := set_node_seq (d_node_seq d + 1) (set_nodes (<[d_node_seq d + 1 := r]> (d_nodes d)) d) in
  wf d'.
Proof.
  intros [Hc Hw] Hsub Hprof Hs Hid Hpath Hnew d'.
  destruct Hc as (Hu & Hns & Hnp & Hh & Hrest). split.
  - unfold constraints; simpl. split_and!; try apply Hrest.
    + apply unique_by_insert; [done|]. intros j q Hj _ Hkey.
      destruct (key_identity sub r q) as [Hq Hk]; [done..|]. by eapply Hnew.
    + apply map_Forall_insert_2; [by rewrite Hs|done].
    + by apply map_Forall_insert_2.
    + intros j h Hj. apply (refs_insert (Some j)). by apply (Hh j h).
  - simpl. apply map_Forall_insert_2.
    + unfold row_ok; simpl. split_and!; [done|lia|done].
    + intros j q Hj. destruct (Hw j q Hj) as (H1 & H2 & H3). unfold row_ok; simpl. split_and!; [done|lia|done].
Qed.

Lemma update_row_ok d i r r' :
  wf d -> d_nodes d !! i = Some r -> n_subscription_id r' = n_subscription_id r ->
  identity r' = identity r -> n_tuning_profile_id r' = n_tuning_profile_id r ->
  n_id r' = Some i -> n_path (normalize r') = n_path r' ->
  wf (set_nodes (<[i := r']> (d_nodes d)) d).
Proof.
  intros [Hc Hw] Hr Hs Hk Hp Hid Hpath. destruct Hc as (Hu & Hns & Hnp & Hh & Hrest). split.
  - unfold constraints; simpl. split_and!; try apply Hrest.
    + apply unique_by_insert; [done|]. intros j q Hj Hij Hkey. apply Hij.
      eapply (proj1 (unique_by_alt _ _) Hu i j r q); [done..|]. rewrite <- Hkey.
      symmetry. by apply identity_key.
    + apply map_Forall_insert_2; [|done]. rewrite Hs. by apply (Hns i r).
    + apply map_Forall_insert_2; [|done]. rewrite Hp. by apply (Hnp i r).
    + intros j h Hj. apply (refs_insert (Some j)). by apply (Hh j h).
  - simpl. apply map_Forall_insert_2; [|done]. destruct (Hw i r Hr) as (_ & H2 & _).
    unfold row_ok; simpl. by split_and!.
Qed.

Lemma alter_insert_same (g : node -> node) i r (m : gmap Z node) :
  m !! i = Some r -> alter g i m = <[i := g r]> m.
Proof.
  intros H. apply map_eq. intros j. rewrite lookup_alter, lookup_insert.
  case_decide; subst; [by rewrite H|done].
Qed.

Lemma merge_one_step pos p st d :
  wf d -> is_Some (d_subs d !! sub) -> refs dprof (d_profiles d) -> normal p ->
  exists st' d', merge_one sub active dprof pos p st d = (inr st', d') /\ wf d' /\ merged pos p d d'.
Proof.
  intros Hw Hsub Hprof Hp. unfold merge_one, mbind at 1, mget. pose proof (get_by_spec (identity p) d Hw) as Hg.
  destruct (get_by sub (identity p) d) as [c|].
  - destruct Hg as (i & r & Hr & -> & Hid & Hs & Hk). rewrite Hid.
    destruct (normalize_owned r) as (_ & _ & _ & Hpr & _ & Hnote). rewrite Hpr, Hnote.
    destruct (bool_decide (Some i = active) && _) eqn:Eref.
    + eexists _, d. split; [done|]. split; [done|]. apply andb_true_iff in Eref as [Ea _].
      apply bool_decide_eq_true in Ea. by eapply merged_refused.
    + assert (wf (set_nodes (<[i := with_owned (Some i) (Some sub) false pos (n_tuning_profile_id r)
                (n_note r) p]> (d_nodes d)) d)) as Hw'.
      { eapply update_row_ok; [done|done|by simpl|by rewrite with_owned_identity|done|done|].
        by rewrite normalize_fixed. }
      unfold update_node, mbind; simpl.
      erewrite stmt_eq by (try apply Hw'; simpl; by rewrite (alter_insert_same _ i r) by done).
      eexists _, _. split; [done|]. split; [done|].
      eapply merged_updated; [done..| |done]. intros Ea. rewrite bool_decide_eq_true_2 in Eref by done.
      simpl in Eref. by apply negb_false_iff, Z.leb_le in Eref.
  - unfold add_node, mbind, mget, mret. cbn beta iota.
    assert (wf (set_node_seq (d_node_seq d + 1) (set_nodes (<[d_node_seq d + 1 :=
              with_owned (Some (d_node_seq d + 1)) (Some sub) false pos dprof (n_note p) p]> (d_nodes d)) d))) as Hw'.
    { apply add_row_ok; try done. by rewrite normalize_fixed. }
    rewrite stmt_ok by apply Hw'. eexists _, _. split; [done|]. split; [done|].
    by eapply merged_added.
Qed.

(** The steps of the merge loop. *)
Inductive merged_seq : Z -> list node -> db -> db -> Prop :=
  | merged_nil pos d : merged_seq pos [] d d
  | merged_cons pos p l d1 d2 d3 :
      merged pos p d1 d2 -> merged_seq (pos + 1) l d2 d3 -> merged_seq pos (p :: l) d1 d3.

(** The tables the merge leaves alone. *)
Definition same_tables (d d' : db) : Prop :=
  d_subs d' = d_subs d /\ d_profiles d' = d_profiles d /\ d_settings d' = d_settings d.

Lemma merged_tables pos p d d' : merged pos p d d' -> same_tables d d'.
Proof. by destruct 1; subst. Qed.

Lemma merge_all_steps parsed : forall pos st d,
  wf d -> is_Some (d_subs d !! sub) -> refs dprof (d_profiles d) -> Forall normal parsed ->
  exists st' d', merge_all sub active dprof pos parsed st d = (inr st', d') /\ wf d' /\
    same_tables d d' /\ merged_seq pos parsed d d'.
Proof.
  induction parsed as [|p parsed IH]; intros pos st d Hw Hs Hp Hn; simpl.
  - exists st, d. split_and!; [done|done|done|constructor].
  - apply Forall_cons in Hn as [Hnp Hn]. unfold mbind.
    destruct (merge_one_step pos p st d Hw Hs Hp Hnp) as (st1 & d1 & -> & Hw1 & Hm).
    destruct (merged_tables _ _ _ _ Hm) as (E1 & E2 & E3).
    destruct (IH (pos + 1) st1 d1 Hw1) as (st2 & d2 & E & Hw2 & (F1 & F2 & F3) & Hseq);
      [by rewrite E1|by rewrite E2|done|]. exists st2, d2.
    split_and!; [done|done| |by econstructor]. unfold same_tables. by rewrite F1, F2, F3.
Qed.

Lemma merged_wf pos p d d' :
  merged pos p d d' -> wf d -> is_Some (d_subs d !! sub) -> refs dprof (d_profiles d) -> normal p -> wf d'.
Proof.
  intros Hm Hw Hs Hp Hn. destruct Hm as [i -> Hnew ->|i r Hr Hsr Hk Ha ->|i r Hr Hsr Hk Hrank ->]; [|done|].
  - apply add_row_ok; try done. by rewrite normalize_fixed.
  - eapply update_row_ok; [done|done|by simpl|by rewrite with_owned_identity|done|done|].
    by rewrite normalize_fixed.
Qed.

(** ** What the merge keeps *)

(** A row of the feed after the merge: same subscription, identity, tuning
    profile and note; the active one no weaker. *)
Definition row_kept (i : Z) (r0 r : node) : Prop :=
  n_subscription_id r = n_subscription_id r0 /\ identity r = identity r0 /\
  n_tuning_profile_id r = n_tuning_profile_id r0 /\ n_note r = n_note r0 /\
  (Some i = active ->
     security_rank (n_security (normalize r0)) <= security_rank (n_security (normalize r))).

Definition rows_kept (d0 d : db) : Prop :=
  forall i r0, d_nodes d0 !! i = Some r0 ->
    exists r, d_nodes d !! i = Some r /\ row_kept i r0 r /\
      (n_subscription_id r0 <> Some sub -> r = r0).

Lemma rows_kept_refl d : rows_kept d d.
Proof. intros i r Hi. exists r. split; [done|]. split; [|done]. by split_and!. Qed.

Lemma rows_kept_trans d1 d2 d3 : rows_kept d1 d2 -> rows_kept d2 d3 -> rows_kept d1 d3.
Proof.
  intros H12 H23 i r1 Hi. destruct (H12 i r1 Hi) as (r2 & Hi2 & (A1 & A2 & A3 & A4 & A5) & A6).
  destruct (H23 i r2 Hi2) as (r3 & Hi3 & (B1 & B2 & B3 & B4 & B5) & B6).
  exists r3. split; [done|]. split.
  - unfold row_kept. split_and!; [congruence..|]. intros Ha. specialize (A5 Ha). specialize (B5 Ha). lia.
  - intros Hs. rewrite B6 by congruence. by apply A6.
Qed.

Lemma merged_rows_kept pos p d d' : wf d -> normal p -> merged pos p d d' -> rows_kept d d'.
Proof.
  intros [_ Hw] Hp Hm i r0 Hi. destruct Hm as [j Hj Hnew ->|j r Hr Hs Hk Ha ->|j r Hr Hs Hk Hrank ->].
  - destruct (Hw i r0 Hi) as (_ & ? & _). simpl. rewrite lookup_insert_ne by lia.
    by apply rows_kept_refl.
  - by apply rows_kept_refl.
  - simpl. destruct (decide (j = i)) as [->|Hne].
    + rewrite lookup_insert_eq. eexists. split; [done|]. assert (r = r0) as -> by congruence. split; [|done].
      unfold row_kept. rewrite with_owned_identity. split_and!; try done. intros Ha.
      rewrite (normalize_fixed (with_owned _ _ _ _ _ _ p)) by exact Hp. by apply Hrank.
    + rewrite lookup_insert_ne by done. by apply rows_kept_refl.
Qed.

Lemma merged_seq_rows_kept pos l d d' :
  merged_seq pos l d d' -> wf d -> is_Some (d_subs d !! sub) -> refs dprof (d_profiles d) ->
  Forall normal l -> rows_kept d d' /\ wf d'.
Proof.
  induction 1 as [|pos p l d1 d2 d3 Hm Hseq IH]; intros Hw Hs Hp Hn; [by split; [apply rows_kept_refl|]|].
  apply Forall_cons in Hn as [Hnp Hn].
  destruct (merged_tables _ _ _ _ Hm) as (E1 & E2 & E3).
  assert (wf d2) as Hw2 by (by eapply merged_wf).
  destruct IH as [IH Hw3]; [done|by rewrite E1|by rewrite E2|done|]. split; [|done].
  eapply rows_kept_trans; [|done]. by eapply merged_rows_kept.
Qed.

(** After the merge every parsed identity has a row, and a row that was not there
    before belongs to the feed and has a parsed identity. *)
Lemma merged_seq_present pos l d d' :
  merged_seq pos l d d' -> wf d -> is_Some (d_subs d !! sub) -> refs dprof (d_profiles d) ->
  Forall normal l ->
  (forall k, k ∈ identity <$> l ->
     exists i r, d_nodes d' !! i = Some r /\ n_subscription_id r = Some sub /\ identity r = k) /\
  (forall i r, d_nodes d' !! i = Some r -> d_nodes d !! i = None ->
     n_subscription_id r = Some sub /\ identity r ∈ identity <$> l).
Proof.
  induction 1 as [|pos p l d1 d2 d3 Hm Hseq IH]; intros Hw Hs Hp Hn.
  { split; [by intros k ?%elem_of_nil|]. intros i r H1 H2. congruence. }
  apply Forall_cons in Hn as [Hnp Hn].
  destruct (merged_tables _ _ _ _ Hm) as (E1 & E2 & E3).
  assert (wf d2) as Hw2 by (by eapply merged_wf).
  assert (is_Some (d_subs d2 !! sub)) as Hs2 by (by rewrite E1).
  assert (refs dprof (d_profiles d2)) as Hp2 by (by rewrite E2).
  destruct (IH Hw2 Hs2 Hp2 Hn) as [IH1 IH2].
  destruct (merged_seq_rows_kept _ _ _ _ Hseq Hw2 Hs2 Hp2 Hn) as [Hkept _]. split.
  - intros k [->|Hk]%elem_of_cons; [|by apply IH1].
    assert (exists i r, d_nodes d2 !! i = Some r /\ n_subscription_id r = Some sub /\
              identity r = identity p) as (i & r & Hi & Hr & Hid).
    { destruct Hm as [j Hj Hnew ->|j r Hr Hsr Hk Ha ->|j r Hr Hsr Hk Hrank ->]; [|by exists j, r|];
        eexists j, _; (split; [by apply lookup_insert_eq|done]). }
    destruct (Hkept i r Hi) as (r' & Hi' & (K1 & K2 & _) & _). exists i, r'. split_and!; congruence.
  - intros i r H3 H1. destruct (d_nodes d2 !! i) as [r2|] eqn:H2.
    + destruct (Hkept i r2 H2) as (r' & Hi' & (K1 & K2 & _) & _). assert (r' = r) as -> by congruence.
      destruct Hm as [j Hj Hnew ->|j q Hr Hsr Hk Ha ->|j q Hr Hsr Hk Hrank ->]; simpl in H2;
        [|congruence|]; (destruct (decide (j = i)) as [->|Hne];
          [|rewrite lookup_insert_ne in H2 by done; congruence]); [|congruence].
      rewrite lookup_insert_eq in H2. injection H2 as <-. rewrite K1, K2. split; [done|]. by left.
    + destruct (IH2 i r H3 H2) as [? ?]. split; [done|]. by right.
Qed.
End steps.

(** * The sweep *)
Section sweep.
Context (active : option Z) (parsed : list node) (anomalous confirmed : bool).

(** What an iteration does to the node table. *)
Definition sweep_rows (m : gmap Z node) (n : node) : gmap Z node :=
  let i := default 0 (n_id n) in
  if bool_decide (identity n ∈ identity <$> parsed) || bool_decide (parsed = []) then m
  else if (anomalous && (negb confirmed || negb (n_stale n))) || bool_decide (n_id n = active)
  then alter (with_stale true) i m
  else delete i m.

Lemma mark_stale_ok i d : wf d ->
  exists d', mark_stale i true d = (inr tt, d') /\ wf d' /\ same_tables d d' /\
    d_nodes d' = alter (with_stale true) i (d_nodes d).
Proof.
  intros Hw. unfold mark_stale. destruct (d_nodes d !! i) as [r|] eqn:Hr.
  - pose proof Hw as [_ Hrow]. destruct (Hrow i r Hr) as (H1 & H2 & H3).
    assert (wf (set_nodes (<[i := with_stale true r]> (d_nodes d)) d)) as Hw'.
    { eapply update_row_ok; try done.
      unfold normalize; simpl. unfold normalize in H3. repeat case_decide; simpl in *; congruence. }
    erewrite stmt_eq by (try apply Hw'; simpl; by rewrite (alter_insert_same _ i r) by done).
    eexists. split_and!; try done. simpl. by rewrite (alter_insert_same _ i r).
  - assert (alter (with_stale true) i (d_nodes d) = d_nodes d) as Hid by (apply alter_id; congruence).
    rewrite (stmt_eq _ d d); [|rewrite Hid; by destruct d|apply Hw]. exists d. by split_and!.
Qed.

Lemma delete_node_ok i d : wf d ->
  exists d', delete_node i d = (inr tt, d') /\ wf d' /\ same_tables d d' /\
    d_nodes d' = delete i (d_nodes d).
Proof.
  intros [Hc Hw]. rewrite delete_node_run by done. eexists. split_and!; try done. split.
  - pose proof (keeps_delete_node i d Hc) as H. by rewrite delete_node_run in H.
  - by apply map_Forall_delete.
Qed.

Lemma sweep_one_ok n st d : wf d ->
  exists st' d', sweep_one active parsed anomalous confirmed n st d = (inr st', d') /\ wf d' /\
    same_tables d d' /\ d_nodes d' = sweep_rows (d_nodes d) n.
Proof.
  intros Hw. unfold sweep_one, sweep_rows.
  destruct (bool_decide (identity n ∈ _)); simpl; [eexists _, d; by split_and!|].
  destruct (bool_decide (parsed = [])); simpl; [eexists _, d; by split_and!|].
  destruct (anomalous && _); simpl; [|destruct (bool_decide (n_id n = active)); simpl].
  - destruct (mark_stale_ok (default 0 (n_id n)) d Hw) as (d' & E & H). unfold mbind. rewrite E.
    eexists _, d'. by split.
  - destruct (mark_stale_ok (default 0 (n_id n)) d Hw) as (d' & E & H). unfold mbind. rewrite E.
    eexists _, d'. by split.
  - destruct (delete_node_ok (default 0 (n_id n)) d Hw) as (d' & E & H). unfold mbind. rewrite E.
    eexists _, d'. by split.
Qed.

Lemma sweep_all_ok l : forall st d, wf d ->
  exists st' d', sweep_all active parsed anomalous confirmed l st d = (inr st', d') /\ wf d' /\
    same_tables d d' /\ d_nodes d' = foldl sweep_rows (d_nodes d) l.
Proof.
  induction l as [|n l IH]; intros st d Hw; simpl; [exists st, d; by split_and!|]. unfold mbind.
  destruct (sweep_one_ok n st d Hw) as (st1 & d1 & -> & Hw1 & (E1 & E2 & E3) & En).
  destruct (IH st1 d1 Hw1) as (st2 & d2 & -> & Hw2 & (F1 & F2 & F3) & Fn). exists st2, d2.
  split_and!; [done|done|unfold same_tables; by rewrite F1, F2, F3|]. by rewrite Fn, En.
Qed.

(** The rows the sweep takes away or marks. *)
Definition swept (n : node) : Prop := identity n ∉ identity <$> parsed /\ parsed <> [].

Lemma sweep_rows_lookup m n i :
  sweep_rows m n !! i = m !! i \/
  (i = default 0 (n_id n) /\ swept n /\
   (sweep_rows m n !! i = with_stale true <$> m !! i \/
    (sweep_rows m n !! i = None /\ n_id n <> active /\ (anomalous = true -> confirmed = true /\ n_stale n = true)))).
Proof.
  unfold sweep_rows, swept. destruct (bool_decide_reflect (identity n ∈ identity <$> parsed)); simpl; [by left|].
  destruct (bool_decide_reflect (parsed = [])); simpl; [by left|].
  destruct (decide (i = default 0 (n_id n))) as [->|Hne].
  - right. split_and!; try done. destruct (_ || _) eqn:E.
    + left. by rewrite lookup_alter_eq.
    + right. rewrite lookup_delete_eq. apply orb_false_iff in E as [E1 E2].
      apply bool_decide_eq_false in E2. split_and!; try done. intros ->. simpl in E1.
      apply orb_false_iff in E1 as [E1 E3]. by apply negb_false_iff in E1, E3.
  - left. destruct (_ || _); [by rewrite lookup_alter_ne|by rewrite lookup_delete_ne].
Qed.

(** A row after the sweep is the row before, perhaps marked stale. *)
Definition row_swept (r0 r : node) : Prop := r = r0 \/ r = with_stale true r0.

Lemma row_swept_trans a b c : row_swept a b -> row_swept b c -> row_swept a c.
Proof. unfold row_swept. intros [-> | ->] [-> | ->]; auto. Qed.

Lemma sweep_back l : forall m i r,
  foldl sweep_rows m l !! i = Some r -> exists r0, m !! i = Some r0 /\ row_swept r0 r.
Proof.
  induction l as [|n l IH]; simpl; intros m i r H; [exists r; split; [done|by left]|].
  destruct (IH _ _ _ H) as (r1 & H1 & Hr).
  destruct (sweep_rows_lookup m n i) as [E|(_ & _ & [E|[E _]])]; rewrite E in H1; [by exists r1| |done].
  apply fmap_Some in H1 as (r0 & H0 & ->). exists r0. split; [done|].
  eapply row_swept_trans; [by right|done].
Qed.

(** A row that disappears was not active, was not parsed, and under an anomalous
    shrink had been marked stale by the refresh this one confirms. *)
Lemma sweep_gone l : forall m i r0,
  m !! i = Some r0 -> foldl sweep_rows m l !! i = None ->
  exists n, n ∈ l /\ default 0 (n_id n) = i /\ swept n /\ n_id n <> active /\
    (anomalous = true -> confirmed = true /\ n_stale n = true).
Proof.
  induction l as [|n l IH]; simpl; intros m i r0 H0 H; [congruence|].
  destruct (sweep_rows_lookup m n i) as [E|(Hi & Hs & [E|(E & Ha & Hc)])].
  - destruct (IH _ i r0 (eq_trans E H0) H) as (n' & Hn & ?). exists n'. split; [by right|done].
  - rewrite H0 in E. destruct (IH _ i _ E H) as (n' & Hn & ?). exists n'. split; [by right|done].
  - exists n. split_and!; try done. by left.
Qed.

Lemma sweep_untouched l : forall m i,
  (forall n, n ∈ l -> default 0 (n_id n) <> i) -> foldl sweep_rows m l !! i = m !! i.
Proof.
  induction l as [|n l IH]; simpl; intros m i H; [done|]. rewrite IH by (intros; apply H; by right).
  destruct (sweep_rows_lookup m n i) as [E|(Hi & _)]; [done|]. destruct (H n); [by left|done].
Qed.

Lemma sweep_none l : forall m i, m !! i = None -> foldl sweep_rows m l !! i = None.
Proof.
  induction l as [|n l IH]; simpl; intros m i H; [done|]. apply IH.
  destruct (sweep_rows_lookup m n i) as [E|(_ & _ & [E|[E _]])]; rewrite E, ?H; done.
Qed.

(** Outside a shrink, a swept row that is not the active node is gone. *)
Lemma sweep_deleted l : forall m i n,
  anomalous = false -> n ∈ l -> swept n -> default 0 (n_id n) = i -> n_id n <> active ->
  foldl sweep_rows m l !! i = None.
Proof.
  intros m i n Han. revert m. induction l as [|n0 l IH]; intros m Hn Hs Hi Ha; [by apply elem_of_nil in Hn|].
  apply elem_of_cons in Hn as [->|Hn]; [|by apply IH]. simpl. apply sweep_none.
  destruct Hs as [Hs1 Hs2]. unfold sweep_rows. rewrite Han.
  rewrite (bool_decide_eq_false_2 (identity n0 ∈ _)), (bool_decide_eq_false_2 (parsed = [])),
    (bool_decide_eq_false_2 (n_id n0 = active)) by done.
  simpl. by rewrite Hi, lookup_delete_eq.
Qed.

(** A swept row is gone, or it is marked stale. *)
Lemma sweep_marked l : forall m i r n,
  n ∈ l -> swept n -> default 0 (n_id n) = i -> foldl sweep_rows m l !! i = Some r ->
  n_stale r = true.
Proof.
  induction l as [|n0 l IH]; intros m i r n Hn Hs Hi H; [by apply elem_of_nil in Hn|].
  apply elem_of_cons in Hn as [->|Hn]; [|by eapply (IH _ i r n)]. simpl in H.
  destruct (sweep_back l _ _ _ H) as (r1 & H1 & [-> | ->]); [|done].
  destruct Hs as [Hs1 Hs2]. unfold sweep_rows in H1.
  rewrite (bool_decide_eq_false_2 (identity n0 ∈ _)), (bool_decide_eq_false_2 (parsed = [])) in H1 by done.
  simpl in H1. rewrite Hi in H1. destruct (_ || _); [|by rewrite lookup_delete_eq in H1].
  rewrite lookup_alter_eq in H1. apply fmap_Some in H1 as (? & _ & ->). done.
Qed.
End sweep.

(** * Properties *)

Section props.
Context (digest : list identity_t -> string).
Context (sub : Z) (active dprof : option Z) (feed : list node) (d : db).

(** The nodes a refresh works with. *)
Definition parsed_of (feed : list node) : list node := dedupe (clamp_node_fields <$> feed).
Definition is_shrink : bool := anomalous_shrink (parsed_of feed) (list_nodes_for_sub sub d).
Definition is_confirmed : bool :=
  is_shrink && bool_decide (get_setting (shrink_key sub) d = Some (shrink_fingerprint digest (parsed_of feed))).

(** The database is well formed, the subscription and its default profile exist,
    and the feed's nodes are as the parsers build them. *)
Definition ready : Prop :=
  wf d /\ 0 <= sub /\ is_Some (d_subs d !! sub) /\ refs dprof (d_profiles d) /\ Forall normal feed.

Lemma existing_elem n : wf d ->
  n ∈ list_nodes_for_sub sub d <->
  exists i r, d_nodes d !! i = Some r /\ n_subscription_id r = Some sub /\ n = normalize r /\
    n_id n = Some i /\ identity n = identity r /\ n_stale n = n_stale r.
Proof.
  intros [_ Hw]. unfold list_nodes_for_sub. rewrite list_elem_of_fmap. split.
  - intros ([i r] & -> & Hr). apply stable_sort_elem, list_elem_of_filter in Hr as [Hs Hr].
    apply elem_of_map_to_list in Hr. pose proof (Hw i r Hr) as Hok. simpl. rewrite (row_to_node_ok d) by done.
    destruct (normalize_owned r) as (Hi & _ & Hst & _). destruct Hok as (Hid & _ & Hpath).
    exists i, r. split_and!; try done; [congruence|by apply identity_normalize].
  - intros (i & r & Hr & Hs & -> & _). exists (i, r). split; [by rewrite (row_to_node_ok d) by (by apply Hw)|].
    apply stable_sort_elem, list_elem_of_filter. split; [done|]. by apply elem_of_map_to_list.
Qed.

Lemma parsed_normal : Forall normal feed -> Forall normal (parsed_of feed).
Proof.
  intros H. apply dedupe_spec. apply Forall_fmap. eapply Forall_impl; [exact H|]. apply clamp_normal.
Qed.

Lemma parsed_nonempty : feed <> [] -> parsed_of feed <> [].
Proof.
  intros Hf H. destruct feed as [|n l]; [done|]. unfold parsed_of in H.
  assert (identity (clamp_node_fields n) ∈ identity <$> @nil node) as []%elem_of_nil.
  rewrite <- H. apply dedupe_spec. simpl. by left.
Qed.

(** The run of a refresh: the marker, the merge, the sweep. *)
Lemma reconcile_run : ready ->
  exists o d1 d', reconcile digest sub active dprof feed d = (inr o, d') /\ wf d' /\
    get_setting (shrink_key sub) d' =
      Some (if is_shrink then shrink_fingerprint digest (parsed_of feed) else "") /\
    d_nodes d' = foldl (sweep_rows active (parsed_of feed) is_shrink is_confirmed) (d_nodes d1)
                   (list_nodes_for_sub sub d) /\
    rows_kept sub active d d1 /\
    (forall k, k ∈ identity <$> parsed_of feed ->
       exists i r, d_nodes d1 !! i = Some r /\ n_subscription_id r = Some sub /\ identity r = k) /\
    (forall i r, d_nodes d1 !! i = Some r -> d_nodes d !! i = None ->
       n_subscription_id r = Some sub /\ identity r ∈ identity <$> parsed_of feed).
Proof.
  intros (Hw & Hpos & Hs & Hp & Hn). pose proof (parsed_normal Hn) as Hpn.
  set (marker := if is_shrink then shrink_fingerprint digest (parsed_of feed) else "").
  set (d0 := set_settings (<[shrink_key sub := marker]> (d_settings d)) d). assert (wf d0) as Hw0.
  { destruct Hw as [Hc Hrow]. split; [by apply constraints_settings|done]. }
  destruct (merge_all_steps sub active dprof Hpos (parsed_of feed) 0 (MergeSt 0 0 false None) d0)
    as (ms & d1 & Em & Hw1 & (_ & _ & S1) & Hseq); [done..|].
  destruct (sweep_all_ok active (parsed_of feed) is_shrink is_confirmed (list_nodes_for_sub sub d)
    (SweepSt 0 0 false) d1 Hw1) as (ws & d2 & Ew & Hw2 & (_ & _ & S2) & Hrows).
  unfold reconcile. fold (parsed_of feed). unfold mbind at 1, tx, merge_block, mbind, mget.
  fold is_shrink marker. rewrite set_setting_run by apply Hw. fold d0. rewrite Em.
  replace (is_shrink && bool_decide _) with is_confirmed.
  2: { unfold is_confirmed, marker. by destruct is_shrink. }
  rewrite Ew. simpl.
  eexists _, d1, d2. do 2 (split; [done|]).
  split; [unfold get_setting; rewrite S2, S1; simpl; by rewrite lookup_insert_eq|]. split; [done|]. split.
  - by apply (merged_seq_rows_kept sub active dprof Hpos _ _ _ _ Hseq).
  - by apply (merged_seq_present sub active dprof Hpos _ _ _ _ Hseq).
Qed.

(** C19: a refresh never removes the active node, whatever the feed says and
    whichever subscription it is of: the row keeps its identity, its subscription,
    its tuning profile and its note, and the transport security it is read with
    never goes down the ladder (plain, tls, reality). *)
Theorem reconcile_active_safe a r0 (Hr : ready) (Ha : active = Some a)
    (H0 : d_nodes d !! a = Some r0) :
  exists o d' r, reconcile digest sub active dprof feed d = (inr o, d') /\
    d_nodes d' !! a = Some r /\ n_subscription_id r = n_subscription_id r0 /\
    identity r = identity r0 /\ n_tuning_profile_id r = n_tuning_profile_id r0 /\
    n_note r = n_note r0 /\
    security_rank (n_security (normalize r0)) <= security_rank (n_security (normalize r)).
Proof.
  destruct (reconcile_run Hr) as (o & d1 & d' & -> & _ & _ & Hd & Hkept & _).
  destruct (Hkept a r0 H0) as (r1 & H1 & (K1 & K2 & K3 & K4 & K5) & _).
  destruct (d_nodes d' !! a) as [r|] eqn:E.
  - exists o, d', r. rewrite Hd in E. destruct (sweep_back _ _ _ _ _ _ _ _ E) as (r1' & E1 & Hsw).
    assert (r1' = r1) as -> by congruence. symmetry in Ha. specialize (K5 Ha).
    destruct Hsw as [-> | ->]; rewrite ?stale_security, ?Hd; by split_and!.
  - rewrite Hd in E. destruct (sweep_gone _ _ _ _ _ _ _ _ H1 E) as (n & Hn & Hi & _ & Hna & _).
    exfalso. apply Hna. destruct Hr as [Hw _].
    apply (existing_elem n Hw) in Hn as (i & r & _ & _ & _ & Hid & _). rewrite Hid in *. simpl in Hi. congruence.
Qed.

(** a refresh touches nothing of the other subscriptions and of the manual
    nodes, and a node of its own that survives keeps its identity and the
    operator's columns, the tuning profile and the note. *)
Theorem reconcile_keeps_owned i r0 (Hr : ready) (H0 : d_nodes d !! i = Some r0) :
  exists o d', reconcile digest sub active dprof feed d = (inr o, d') /\
    (n_subscription_id r0 <> Some sub -> d_nodes d' !! i = Some r0) /\
    (forall r, d_nodes d' !! i = Some r ->
       n_subscription_id r = n_subscription_id r0 /\ identity r = identity r0 /\
       n_tuning_profile_id r = n_tuning_profile_id r0 /\ n_note r = n_note r0).
Proof.
  destruct (reconcile_run Hr) as (o & d1 & d' & -> & _ & _ & Hd & Hkept & _).
  destruct (Hkept i r0 H0) as (r1 & H1 & (K1 & K2 & K3 & K4 & _) & Hother). destruct Hr as [Hw _].
  exists o, d'. split; [done|]. split.
  - intros Hs. rewrite Hd, sweep_untouched; [by rewrite H1, (Hother Hs)|].
    intros n Hn Hi. apply (existing_elem n Hw) in Hn as (j & r & Hj & Hsj & _ & Hid & _).
    rewrite Hid in Hi. simpl in Hi. congruence.
  - intros r E. rewrite Hd in E. destruct (sweep_back _ _ _ _ _ _ _ _ E) as (r1' & E1 & Hsw).
    assert (r1' = r1) as -> by congruence. by destruct Hsw as [-> | ->]; split_and!.
Qed.

(** a refresh always succeeds and keeps the store well formed; when it is not
    an anomalous shrink, the subscription then has exactly the feed's servers: each
    one has a row, and each row is one of them or the vanished active node, marked
    stale. *)
Theorem reconcile_exact (Hr : ready) (Hne : feed <> []) (Hsh : is_shrink = false) :
  exists o d', reconcile digest sub active dprof feed d = (inr o, d') /\ wf d' /\
    (forall k, k ∈ identity <$> parsed_of feed ->
       exists i r, d_nodes d' !! i = Some r /\ n_subscription_id r = Some sub /\ identity r = k) /\
    (forall i r, d_nodes d' !! i = Some r -> n_subscription_id r = Some sub ->
       identity r ∈ identity <$> parsed_of feed \/ (Some i = active /\ n_stale r = true)).
Proof.
  destruct (reconcile_run Hr) as (o & d1 & d' & -> & Hw' & _ & Hd & Hkept & Hpres & Hnew).
  pose proof Hr as [Hw _]. exists o, d'. split; [done|]. split; [done|]. split.
  - intros k Hk. destruct (Hpres k Hk) as (i & r1 & H1 & Hs & Hid).
    destruct (d_nodes d' !! i) as [r|] eqn:E.
    + exists i, r. split; [done|]. rewrite Hd in E.
      destruct (sweep_back _ _ _ _ _ _ _ _ E) as (r1' & E1 & Hsw).
      assert (r1' = r1) as -> by congruence. by destruct Hsw as [-> | ->].
    + rewrite Hd in E. destruct (sweep_gone _ _ _ _ _ _ _ _ H1 E) as (n & Hn & Hi & [Hsw _] & _).
      apply (existing_elem n Hw) in Hn as (j & r & Hj & _ & _ & Hidn & Hidr & _).
      rewrite Hidn in Hi. simpl in Hi. subst j. destruct (Hkept i r Hj) as (r' & H1' & (_ & K2 & _) & _).
      exfalso. apply Hsw. rewrite Hidr. by replace (identity r) with k by congruence.
  - intros i r E Hs. rewrite Hd in E. destruct (sweep_back _ _ _ _ _ _ _ _ E) as (r1 & E1 & Hsw).
    assert (identity r = identity r1 /\ n_subscription_id r1 = Some sub) as [Hk Hs1].
    { by destruct Hsw as [-> | ->]. }
    destruct (decide (identity r ∈ identity <$> parsed_of feed)) as [Hin|Hout]; [by left|right].
    destruct (d_nodes d !! i) as [r0|] eqn:H0.
    2: { destruct (Hnew i r1 E1 H0) as [_ ?]. congruence. }
    destruct (Hkept i r0 H0) as (r1' & E1' & (K1 & K2 & _) & _). assert (r1' = r1) as -> by congruence.
    assert (normalize r0 ∈ list_nodes_for_sub sub d) as Hin.
    { apply (existing_elem _ Hw). apply Hw in H0 as Hok. destruct Hok as (Hi & _ & Hpath).
      destruct (normalize_owned r0) as (Hid0 & _ & Hst & _). exists i, r0. split_and!; try done;
        [congruence|congruence|by apply identity_normalize]. }
    assert (swept (parsed_of feed) (normalize r0)) as Hswept.
    { apply Hw in H0 as (_ & _ & Hpath). split; [rewrite identity_normalize by done; congruence|].
      by apply parsed_nonempty. }
    assert (default 0 (n_id (normalize r0)) = i) as Hi.
    { apply Hw in H0 as (Hi & _). destruct (normalize_owned r0) as (-> & _). by rewrite Hi. }
    split; [|by eapply sweep_marked].
    apply dec_stable. intros Hna. rewrite (sweep_deleted _ _ _ _ _ _ _ (normalize r0)) in E; try done.
    apply Hw in H0 as (Hi0 & _). destruct (normalize_owned r0) as (-> & _). congruence.
Qed.

(** a feed that suddenly has under half of the stored servers deletes
    nothing the first time: a row disappears only if the previous refresh stored
    the fingerprint of the same server list, and the row was stale already; and
    this refresh stores that fingerprint, so that the next one can confirm it. *)
Theorem reconcile_shrink_two_phase (Hr : ready) (Hsh : is_shrink = true) :
  exists o d', reconcile digest sub active dprof feed d = (inr o, d') /\
    get_setting (shrink_key sub) d' = Some (shrink_fingerprint digest (parsed_of feed)) /\
    (forall i r0, d_nodes d !! i = Some r0 -> d_nodes d' !! i = None ->
       get_setting (shrink_key sub) d = Some (shrink_fingerprint digest (parsed_of feed)) /\
       n_stale r0 = true).
Proof.
  destruct (reconcile_run Hr) as (o & d1 & d' & -> & _ & Hm & Hd & Hkept & _).
  rewrite Hsh in Hm. exists o, d'. split; [done|]. split; [done|]. intros i r0 H0 E.
  destruct (Hkept i r0 H0) as (r1 & H1 & _). rewrite Hd in E.
  destruct (sweep_gone _ _ _ _ _ _ _ _ H1 E) as (n & Hn & Hi & _ & _ & Hc).
  destruct (Hc Hsh) as [Hconf Hst]. destruct Hr as [Hw _].
  apply (existing_elem n Hw) in Hn as (j & r & Hj & _ & _ & Hid & _ & Hs).
  rewrite Hid in Hi. simpl in Hi. subst j. assert (r = r0) as -> by congruence.
  unfold is_confirmed in Hconf. apply andb_true_iff in Hconf as [_ Hconf].
  apply bool_decide_eq_true in Hconf. split; congruence.
Qed.
End props.

(** * A concrete feed *)
Module FeedExample.

Definition trojan (i : option Z) (addr password : string) (stale : bool) : node :=
  normalize (Node i "t" addr 443 "" "trojan" password "" "" "a.example" "" "" "chrome" "" "tcp" "tls"
    "" "" "" "" "" (if i then Some 1 else None) stale None 0).

Definition feed_db : db :=
  set_node_seq 3 (set_nodes {[ 1 := trojan (Some 1) "192.0.2.1" "old" false;
                               2 := trojan (Some 2) "192.0.2.2" "x" true;
                               3 := trojan (Some 3) "192.0.2.3" "y" false ]}
    (set_subs {[ 1 := Subscription (Some 1) "feed" "https://x" JNull 0 true None None None None None None None None None [] ]} 1
       empty_db)).

Definition demo_digest (l : list identity_t) : string := join "," ((fun k => k.1.1.1.1.1) <$> l).

Lemma feed_ready feed : Forall normal feed -> ready 1 None feed feed_db.
Proof.
  intros. split; [apply (bool_decide_unpack _); by vm_compute|]. split; [lia|].
  split; [by eexists|]. split; [exact I|done].
Qed.

Lemma trojan_normal i a p s : normal (trojan i a p s).
Proof. apply normalize_normal_aux. Qed.

Example reconcile_active_safe_witness :
  exists o d' r, reconcile demo_digest 1 (Some 1) None [trojan None "192.0.2.2" "x" false] feed_db = (inr o, d') /\
    d_nodes d' !! 1 = Some r.
Proof.
  destruct (reconcile_active_safe demo_digest 1 (Some 1) None [trojan None "192.0.2.2" "x" false] feed_db 1
    (trojan (Some 1) "192.0.2.1" "old" false)) as (o & d' & r & E & Hr & _).
  - apply feed_ready. repeat first [apply Forall_nil_2 | apply Forall_cons_2; [apply trojan_normal|]].
  - reflexivity.
  - reflexivity.
  - eauto.
Defined.

Example reconcile_keeps_owned_witness :
  exists o d', reconcile demo_digest 1 None None [trojan None "192.0.2.2" "x" false] feed_db = (inr o, d') /\
    forall r, d_nodes d' !! 2 = Some r -> n_note r = "".
Proof.
  destruct (reconcile_keeps_owned demo_digest 1 None None [trojan None "192.0.2.2" "x" false] feed_db 2
    (trojan (Some 2) "192.0.2.2" "x" true)) as (o & d' & E & _ & H).
  - apply feed_ready. repeat first [apply Forall_nil_2 | apply Forall_cons_2; [apply trojan_normal|]].
  - reflexivity.
  - exists o, d'. split; [done|]. intros r Hr. by destruct (H r Hr) as (_ & _ & _ & ->).
Defined.

Example reconcile_exact_witness :
  exists o d', reconcile demo_digest 1 (Some 1) None
      [trojan None "192.0.2.2" "x" false; trojan None "192.0.2.4" "z" false] feed_db = (inr o, d') /\ wf d'.
Proof.
  destruct (reconcile_exact demo_digest 1 (Some 1) None
      [trojan None "192.0.2.2" "x" false; trojan None "192.0.2.4" "z" false] feed_db) as (o & d' & E & Hw & _).
  - apply feed_ready. repeat first [apply Forall_nil_2 | apply Forall_cons_2; [apply trojan_normal|]].
  - done.
  - reflexivity.
  - eauto.
Defined.

Example reconcile_shrink_two_phase_witness :
  exists o d', reconcile demo_digest 1 None None [trojan None "192.0.2.1" "old" false] feed_db = (inr o, d') /\
    get_setting (shrink_key 1) d' = Some "192.0.2.1" /\
    forall i r, d_nodes feed_db !! i = Some r -> d_nodes d' !! i = None -> False.
Proof.
  destruct (reconcile_shrink_two_phase demo_digest 1 None None [trojan None "192.0.2.1" "old" false] feed_db)
    as (o & d' & E & Hm & Hg).
  - apply feed_ready. repeat first [apply Forall_nil_2 | apply Forall_cons_2; [apply trojan_normal|]].
  - reflexivity.
  - exists o, d'. split; [done|]. split; [exact Hm|]. intros i r H1 H2. by destruct (Hg i r H1 H2).
Defined.

(** A feed that rotates the password of the active Trojan node rewrites the row,
    which changes the generated configuration, and still reports that the active
    node's configuration did not change. *)
Example password_rotation_unreported :
  let '(r, d') := reconcile demo_digest 1 (Some 1) None
      [trojan None "192.0.2.1" "new" false; trojan None "192.0.2.2" "x" false] feed_db in
  o_active_changed <$> (match r with inr o => Some o | inl _ => None end) = Some false /\
  n_password <$> get_node 1 feed_db = Some "old" /\ n_password <$> get_node 1 d' = Some "new".
Proof. vm_compute. done. Qed.

End FeedExample.
