(* ===== verification/Scrub.v ===== *)
(** Redaction of xray's output ([scrub_output] of [xray_config/validate.py]).

    [collect_secrets] walks a configuration for the strings under secret keys;
    [scrub_output] replaces each of them, longest first.  The [set] the secrets are
    collected in is a list without duplicates: the theorem does not depend on the
    order of equally long ones.  [secret_in] says what a secret is. *)
From Stdlib Require Import ZArith Lia Ascii Permutation Sorted.
From stdpp Require Import base strings list sets sorting.
From S2P Require Import Prelude PyStr Models.
Open Scope string_scope.

Definition SECRET_KEYS : list string :=
  ["uuid"; "id"; "password"; "publickey"; "privatekey"; "shortid"; "shortids";
   "public_key"; "private_key"; "short_id"; "short_ids"].

(** [_add_secret]: every string reachable through lists. *)
Fixpoint add_secret (v : json) : list string :=
  match v with
  | JStr s => if bool_decide (s = "") then [] else [s]
  | JArr l => concat (map add_secret l)
  | _ => []
  end.

Fixpoint collect_secrets (obj : json) : list string :=
  match obj with
  | JObj kvs =>
      concat (map (fun kv => app (if bool_decide (lower kv.1 ∈ SECRET_KEYS) then add_secret kv.2 else [])
                                 (collect_secrets kv.2)) kvs)
  | JArr l => concat (map collect_secrets l)
  | _ => []
  end.

Definition scrub_order (secrets : list string) : list string :=
  stable_sort (fun a b => String.length b <=? String.length a)%nat (remove_dups secrets).

Definition scrub_output (text : string) (cfg : json) : string :=
  foldl (fun t s => str_replace s "***" t) text (scrub_order (collect_secrets cfg)).

(** * Replacing *)

Definition star_free (s : string) : Prop := str_all (fun c => negb (Ascii.eqb c "*")) s = true.

Lemma star_free_cons c s : star_free (String c s) -> c <> "*"%char /\ star_free s.
Proof.
  unfold star_free. simpl. rewrite andb_true_iff, negb_true_iff, Ascii.eqb_neq. tauto.
Qed.

Lemma startswith_cons c s d t : startswith (String c s) (String d t) = true <-> c = d /\ startswith s t = true.
Proof.
  unfold startswith. simpl. destruct (ascii_dec d c) as [->|Hne]; [tauto|].
  split; [done|]. intros [-> _]. done.
Qed.

Lemma startswith_nil s : startswith s "" = true.
Proof. by destruct s. Qed.

#[local] Arguments startswith : simpl never.

Lemma contains_cons sub c s : contains sub (String c s) = startswith (String c s) sub || contains sub s.
Proof. done. Qed.

Lemma contains_drop n sub s : contains sub (str_drop n s) = true -> contains sub s = true.
Proof.
  revert s. induction n as [|n IH]; intros [|c s]; simpl str_drop; try done.
  intros H%IH. rewrite contains_cons, H. apply orb_true_r.
Qed.

(** The stars of a replacement are not part of any star-free string. *)
Lemma contains_stars sub t :
  star_free sub -> sub <> "" -> contains sub ("***" +:+ t) = contains sub t.
Proof.
  intros Hs Hne. destruct sub as [|c sub]; [done|]. apply star_free_cons in Hs as [Hc _].
  rewrite !str_app_cons, str_app_nil.
  assert (forall u, startswith (String "*" u) (String c sub) = false) as Hst.
  { intros u. apply not_true_is_false. rewrite startswith_cons. intros [? _]. congruence. }
  by rewrite !contains_cons, !Hst.
Qed.

Section replace.
Context (pat : string).
Notation R n t := (replace_fuel n pat "***" t).

Lemma replace_prefix n : forall s t, star_free s -> startswith (R n t) s = true -> startswith t s = true.
Proof.
  induction n as [|n IH]; intros s t Hs H; [done|]. destruct s as [|c s]; [apply startswith_nil|].
  destruct t as [|d t]; [done|]. apply star_free_cons in Hs as [Hc Hs]. simpl in H.
  destruct (startswith (String d t) pat).
  - rewrite !str_app_cons in H. apply startswith_cons in H as [? _]. congruence.
  - apply startswith_cons in H as [-> H]. apply startswith_cons. eauto.
Qed.

(** Replacing creates no occurrence of a star-free string. *)
Lemma replace_no_new n : forall s t, star_free s -> s <> "" -> contains s (R n t) = true -> contains s t = true.
Proof.
  induction n as [|n IH]; intros s t Hs Hne H; [done|]. destruct t as [|d t]; [done|].
  pose proof (replace_prefix (S n) s (String d t) Hs) as Hp. simpl in H, Hp.
  destruct (startswith (String d t) pat).
  - rewrite contains_stars in H by done. apply IH in H; [|done..]. by eapply contains_drop.
  - rewrite contains_cons in H. apply orb_true_iff in H as [H|H]; rewrite contains_cons.
    + by rewrite Hp.
    + rewrite (IH s t) by done. apply orb_true_r.
Qed.

(** Replacing removes every occurrence of the pattern. *)
Lemma replace_removes n : forall t, star_free pat -> pat <> "" -> (String.length t <= n)%nat ->
  contains pat (R n t) = false.
Proof.
  induction n as [|n IH]; intros t Hs Hne Hl.
  - destruct t; [|simpl in Hl; lia]. by destruct pat.
  - destruct t as [|d t]; [by destruct pat|]. pose proof (replace_prefix (S n) pat (String d t) Hs) as Hp.
    simpl in *. destruct (startswith (String d t) pat) eqn:E.
    + rewrite contains_stars by done. apply IH; [done..|]. rewrite str_drop_length.
      destruct pat; [done|]. simpl in *. lia.
    + rewrite contains_cons, (IH t) by (done || lia). apply orb_false_iff. split; [|done].
      apply not_true_is_false. intros H. by apply Hp in H.
Qed.
End replace.

Lemma scrub_fold l : forall text s, Forall (fun q => q <> "") l ->
  star_free s -> s <> "" -> s ∈ l \/ contains s text = false ->
  contains s (foldl (fun t q => str_replace q "***" t) text l) = false.
Proof.
  induction l as [|q l IH]; intros text s Hl Hs Hne H; simpl.
  - destruct H as [H|H]; [by apply elem_of_nil in H|done].
  - apply Forall_cons in Hl as [Hqne Hl]. apply IH; [done..|].
    unfold str_replace. destruct H as [[->|H]%elem_of_cons|H]; [right|by left|right].
    + destruct q as [|c q]; [done|]. by apply replace_removes.
    + destruct q as [|c q]; [done|]. apply not_true_is_false. intros Hc.
      apply replace_no_new in Hc; congruence.
Qed.

Lemma add_secret_nonempty : forall v s, s ∈ add_secret v -> s <> "".
Proof.
  fix IH 1. intros v s; destruct v as [| | |t|l|kvs]; simpl; try by intros ?%elem_of_nil.
  - case_bool_decide; [by intros ?%elem_of_nil|]. by intros ->%list_elem_of_singleton.
  - induction l as [|v l IHl]; simpl; [by intros ?%elem_of_nil|].
    rewrite elem_of_app. intros [H|H]; [exact (IH v s H)|exact (IHl H)].
Qed.

Lemma collect_secrets_nonempty : forall v s, s ∈ collect_secrets v -> s <> "".
Proof.
  fix IH 1. intros v s; destruct v as [| | |t|l|kvs]; simpl; try by intros ?%elem_of_nil.
  - induction l as [|v l IHl]; simpl; [by intros ?%elem_of_nil|].
    rewrite elem_of_app. intros [H|H]; [exact (IH v s H)|exact (IHl H)].
  - induction kvs as [|[k v] kvs IHl]; simpl; [by intros ?%elem_of_nil|].
    rewrite !elem_of_app. intros [[H|H]|H]; [|exact (IH v s H)|exact (IHl H)].
    case_bool_decide; [by eapply add_secret_nonempty|by apply elem_of_nil in H].
Qed.

(** * What a secret is *)

(** A string that is a value, or stands in a list of them. *)
Inductive reaches : json -> string -> Prop :=
  | reach_str s : s <> "" -> reaches (JStr s) s
  | reach_list v l s : v ∈ l -> reaches v s -> reaches (JArr l) s.

(** A secret of a configuration stands, alone or in lists, under one of these keys (in any case), at any depth. *)
Inductive secret_in : json -> string -> Prop :=
  | secret_here k v kvs s : (k, v) ∈ kvs ->
      lower k ∈ ["id"; "uuid"; "password"; "privatekey"; "private_key"; "publickey"; "public_key"; "shortid"; "short_id"; "shortids"; "short_ids"] ->
      reaches v s -> secret_in (JObj kvs) s
  | secret_below k v kvs s : (k, v) ∈ kvs -> secret_in v s -> secret_in (JObj kvs) s
  | secret_listed v l s : v ∈ l -> secret_in v s -> secret_in (JArr l) s.

Lemma elem_concat_map {A} (f : A -> list string) l s : s ∈ concat (map f l) <-> exists x, x ∈ l /\ s ∈ f x.
Proof.
  induction l as [|x l IH]; simpl; [split; [by intros ?%elem_of_nil|by intros (? & ?%elem_of_nil & _)]|].
  rewrite elem_of_app, IH. split.
  - intros [H|(y & Hy & H)]; [exists x; split; [left|done]|exists y; split; [by right|done]].
  - intros (y & [-> | Hy]%elem_of_cons & H); [by left|right; eauto].
Qed.
Lemma add_secret_reaches v s : reaches v s -> s ∈ add_secret v.
Proof.
  induction 1 as [s Hs|v l s Hv _ IH]; simpl; [rewrite bool_decide_eq_false_2 by done; by left|]. apply elem_concat_map. eauto.
Qed.
Lemma collect_complete cfg s : secret_in cfg s -> s ∈ collect_secrets cfg.
Proof.
  induction 1 as [k v kvs s Hin Hk Hr|k v kvs s Hin _ IH|v l s Hin _ IH]; simpl; apply elem_concat_map; [exists (k, v)..|eauto]; (split; [done|]); simpl;
    apply elem_of_app; [left|by right].
  rewrite bool_decide_eq_true_2; [by apply add_secret_reaches|]. clear -Hk. unfold SECRET_KEYS. set_solver.
Qed.
Lemma add_secret_sound : forall v s, s ∈ add_secret v -> reaches v s.
Proof.
  fix IH 1. intros v s; destruct v as [| | |t|l|kvs]; simpl; try by intros ?%elem_of_nil.
  - case_bool_decide; [by intros ?%elem_of_nil|]. intros ->%list_elem_of_singleton. by constructor.
  - intros H. assert (exists x, x ∈ l /\ reaches x s) as (x & Hx & Hr); [|by econstructor].
    induction l as [|v l IHl]; simpl in H; [by apply elem_of_nil in H|].
    apply elem_of_app in H as [H|H]; [exists v; split; [left|exact (IH v s H)]|].
    destruct (IHl H) as (x & Hx & Hr). exists x. split; [by right|done].
Qed.
Lemma collected_secret : forall v s, s ∈ collect_secrets v -> secret_in v s.
Proof.
  fix IH 1. intros v s; destruct v as [| | |t|l|kvs]; simpl; try by intros ?%elem_of_nil.
  - intros H. assert (exists x, x ∈ l /\ secret_in x s) as (x & Hx & Hr); [|by eapply secret_listed].
    induction l as [|v l IHl]; simpl in H; [by apply elem_of_nil in H|].
    apply elem_of_app in H as [H|H]; [exists v; split; [left|exact (IH v s H)]|].
    destruct (IHl H) as (x & Hx & Hr). exists x. split; [by right|done].
  - intros H. assert (exists k x, (k, x) ∈ kvs /\ ((lower k ∈ SECRET_KEYS /\ reaches x s) \/ secret_in x s)) as (k & x & Hx & Hr).
    { induction kvs as [|[k v] kvs IHl]; simpl in H; [by apply elem_of_nil in H|].
      apply elem_of_app in H as [[H|H]%elem_of_app|H].
      - case_bool_decide as Hk; [|by apply elem_of_nil in H]. exists k, v. split; [left|left; split; [done|by apply add_secret_sound]].
      - exists k, v. split; [left|right; exact (IH v s H)].
      - destruct (IHl H) as (k' & x & Hx & Hr). exists k', x. split; [by right|done]. }
    destruct Hr as [[Hk Hr]|Hr]; [|by eapply secret_below]. eapply secret_here; [done| |done]. clear -Hk. unfold SECRET_KEYS in Hk. set_solver.
Qed.

(** * Longest first *)

(** The character is in no part of the string. *)
Definition free_of (c : ascii) (s : string) : Prop := str_all (fun d => negb (Ascii.eqb d c)) s = true.

Lemma startswith_sep c pat a t : free_of c pat -> startswith (a +:+ String c t) pat = startswith a pat.
Proof.
  revert a. induction pat as [|p pat IH]; intros a Hf; [by rewrite !startswith_nil|]. unfold free_of in Hf. simpl in Hf.
  apply andb_true_iff in Hf as [Hp Hf]. apply negb_true_iff, Ascii.eqb_neq in Hp.
  destruct a as [|x a]; rewrite ?str_app_nil, ?str_app_cons; unfold startswith in *; simpl; destruct (ascii_dec p _); try done. by apply IH.
Qed.
Lemma startswith_length t pat : startswith t pat = true -> (String.length pat <= String.length t)%nat.
Proof. revert t. induction pat as [|p pat IH]; intros [|c t]; simpl; try (done || lia). intros [_ H]%startswith_cons. apply IH in H. lia. Qed.
Lemma str_drop_sep n a u : (n <= String.length a)%nat -> str_drop n (a +:+ u) = str_drop n a +:+ u.
Proof. revert a. induction n as [|n IH]; intros [|x a] Hn; simpl in *; [done..|lia|]. apply IH. lia. Qed.
Lemma str_app_assoc3 a b c : (a +:+ b) +:+ c = a +:+ (b +:+ c).
Proof. induction a as [|x a IH]; [done|]. rewrite !str_app_cons. by rewrite IH. Qed.
Lemma str_app_length a b : String.length (a +:+ b) = (String.length a + String.length b)%nat.
Proof. induction a as [|x a IH]; [done|]. rewrite str_app_cons. simpl. by rewrite IH. Qed.

Section whole.
Context (pat : string) (Hne : pat <> "").
Notation R n t := (replace_fuel n pat "***" t).

Lemma drop_shorter d t : (String.length (str_drop (String.length pat) (String d t)) <= String.length t)%nat.
Proof. rewrite str_drop_length. destruct pat; [done|]. simpl. lia. Qed.
Lemma fuel_enough n : forall m t, (String.length t <= n)%nat -> (String.length t <= m)%nat -> R n t = R m t.
Proof.
  induction n as [|n IH]; intros m t Hn Hm; destruct t as [|d t]; simpl in Hn; [by destruct m|lia|by destruct m|].
  destruct m as [|m]; simpl in Hm; [lia|]. simpl. pose proof (drop_shorter d t).
  destruct (startswith (String d t) pat); f_equal; apply IH; lia.
Qed.
(** A character that is not in the pattern splits a replacement. *)
Lemma replace_sep c n : forall a t, free_of c pat -> (String.length (a +:+ String c t) <= n)%nat ->
  R n (a +:+ String c t) = R n a +:+ String c (R n t).
Proof.
  induction n as [|n IH]; intros a t Hf Hn; [rewrite str_app_length in Hn; simpl in Hn; lia|].
  rewrite (fuel_enough (S n) n t) by (rewrite str_app_length in Hn; simpl in Hn; lia).
  pose proof (startswith_sep c pat a t Hf) as Hs. destruct a as [|x a].
  - rewrite str_app_nil in *. simpl in Hn. cbn [replace_fuel]. rewrite Hs. assert (startswith "" pat = false) as -> by (by destruct pat).
    by rewrite str_app_nil.
  - rewrite str_app_cons in *. simpl in Hn. cbn [replace_fuel]. rewrite Hs. destruct (startswith (String x a) pat) eqn:E.
    + rewrite <- str_app_cons, str_drop_sep by (by apply startswith_length). rewrite IH; [|done|].
      * by rewrite str_app_assoc3.
      * rewrite str_app_length in *. pose proof (drop_shorter x a). simpl in *. lia.
    + rewrite str_app_cons. f_equal. by rewrite IH by (done || lia).
Qed.
Lemma replace_absent n : forall t, contains pat t = false -> R n t = t.
Proof.
  induction n as [|n IH]; intros [|d t] H; try done. rewrite contains_cons in H. apply orb_false_iff in H as [H1 H2]. cbn [replace_fuel]. by rewrite H1, IH.
Qed.
Lemma replace_self : str_replace pat "***" pat = "***".
Proof.
  unfold str_replace. destruct pat as [|c q] eqn:E; [done|]. rewrite <- E. assert (String.length pat = S (String.length q)) as -> by (by rewrite E).
  rewrite E. cbn [replace_fuel]. assert (startswith (String c q) (String c q) = true) as -> by (apply prefix_spec; exists ""; clear; induction (String c q) as [|x t IH]; [done|]; by rewrite str_app_cons, <- IH).
  assert (str_drop (String.length (String c q)) (String c q) = "") as ->; [|by destruct (String.length q)].
  pose proof (str_drop_length (String.length (String c q)) (String c q)) as Hl. destruct (str_drop _ _); [done|simpl in Hl; lia].
Qed.
End whole.

Lemma str_replace_sep q c a t : free_of c q -> str_replace q "***" (a +:+ String c t) = str_replace q "***" a +:+ String c (str_replace q "***" t).
Proof.
  intros Hf. destruct q as [|x q]; [done|]. unfold str_replace. rewrite (replace_sep (String x q)) by done.
  rewrite str_app_length. f_equal; [|f_equal]; apply fuel_enough; simpl; (done || lia).
Qed.
Lemma fold_sep l c : Forall (free_of c) l -> forall a t,
  foldl (fun t q => str_replace q "***" t) (a +:+ String c t) l =
  foldl (fun t q => str_replace q "***" t) a l +:+ String c (foldl (fun t q => str_replace q "***" t) t l).
Proof. induction 1 as [|q l Hq _ IH]; intros a t; simpl; [done|]. by rewrite str_replace_sep, IH. Qed.

Lemma contains_length q t : contains q t = true -> (String.length q <= String.length t)%nat.
Proof.
  induction t as [|c t IH]; simpl; [rewrite orb_false_r; apply startswith_length|]. intros [H%startswith_length|H%IH]%orb_true_iff; simpl in *; lia.
Qed.
Lemma contains_long q t : contains q t = true -> (String.length t <= String.length q)%nat -> q = t.
Proof.
  destruct t as [|c t].
  - intros Hc%contains_length _. destruct q; [done|simpl in Hc; lia].
  - rewrite contains_cons. intros [[u E]%prefix_spec|H%contains_length]%orb_true_iff Hl; [|simpl in Hl; lia].
    rewrite E in *. rewrite str_app_length in Hl. assert (u = "") as -> by (destruct u; [done|simpl in Hl; lia]).
    clear. induction q as [|x q IH]; [done|]. rewrite str_app_cons. by f_equal.
Qed.
Lemma str_replace_absent q t : contains q t = false -> str_replace q "***" t = t.
Proof. destruct q as [|x q]; [done|]. intros H. unfold str_replace. by apply replace_absent. Qed.
Lemma stars_kept l : Forall (fun q => star_free q /\ q <> "") l -> foldl (fun t q => str_replace q "***" t) "***" l = "***".
Proof.
  induction 1 as [|q l [Hq Hne] _ IH]; simpl; [done|]. rewrite str_replace_absent; [done|].
  change "***" with ("***" +:+ ""). rewrite contains_stars by done. by destruct q.
Qed.

Lemma scrub_order_split l s : s ∈ l -> exists l1 l2, scrub_order l = app l1 (s :: l2) /\
  Forall (fun q => (String.length s <= String.length q)%nat /\ q <> s) l1.
Proof.
  intros Hs. assert (s ∈ scrub_order l) as (l1 & l2 & E)%list_elem_of_split by (unfold scrub_order; by rewrite stable_sort_elem, elem_of_remove_dups).
  exists l1, l2. split; [done|]. apply Forall_forall. intros q Hq.
  assert (NoDup (scrub_order l)) as Hn by (unfold scrub_order; rewrite stable_sort_perm; apply NoDup_remove_dups).
  assert (StronglySorted (fun a b => (String.length b <=? String.length a)%nat = true) (scrub_order l)) as Hsort.
  { apply stable_sort_sorted; [intros a b Hab; apply Nat.leb_gt in Hab; apply Nat.leb_le; lia|]. intros a b c. rewrite !Nat.leb_le. lia. }
  rewrite E in Hn, Hsort. split.
  - apply Nat.leb_le. refine (StronglySorted_app_1_elem_of _ _ _ q s Hsort Hq _). left.
  - intros ->. apply NoDup_app in Hn as (_ & Hn & _). apply (Hn s Hq). left.
Qed.

Module Redaction.

(** C40: no secret of the configuration survives in the redacted output: whatever xray printed, a string found
    under a secret key, directly, in a list or nested deeper, is no substring of what the panel logs or
    serves, if it holds no star (as uuids, base64 keys and hex ids do not).  And when no secret holds one, a
    secret that stands between two characters no secret has is replaced whole, also when another secret is a
    part of it: nothing of it is left beside the stars. *)
Theorem scrub_output_hides cfg s (Hs : secret_in cfg s) :
  (forall text, star_free s -> contains s (scrub_output text cfg) = false) /\
  ((forall q, secret_in cfg q -> star_free q) -> forall pre c d post, (forall q, secret_in cfg q -> free_of c q /\ free_of d q) ->
     scrub_output (pre +:+ String c (s +:+ String d post)) cfg =
     scrub_output pre cfg +:+ String c ("***" +:+ String d (scrub_output post cfg))).
Proof.
  apply collect_complete in Hs.
  assert (forall q, q ∈ scrub_order (collect_secrets cfg) <-> q ∈ collect_secrets cfg) as Hin.
  { intros q. unfold scrub_order. by rewrite stable_sort_elem, elem_of_remove_dups. }
  split.
  - intros text Hstar. unfold scrub_output. apply scrub_fold; [|done|by eapply collect_secrets_nonempty|left; by apply Hin].
    apply Forall_forall. intros q Hq%Hin. by eapply collect_secrets_nonempty.
  - intros Hstar pre c d post Hsep. unfold scrub_output. rewrite !fold_sep.
    2, 3: apply Forall_forall; intros q Hq%Hin%collected_secret; by apply Hsep.
    do 3 f_equal. destruct (scrub_order_split _ _ Hs) as (l1 & l2 & E & Hl1). rewrite E, foldl_app. cbn [foldl].
    assert (foldl (fun t q => str_replace q "***" t) s l1 = s) as ->.
    { clear E. induction Hl1 as [|q l [Hl Hq] _ IH]; simpl; [done|]. rewrite str_replace_absent; [done|].
      apply not_true_is_false. intros Hc. by apply Hq, contains_long. }
    rewrite replace_self by (by eapply collect_secrets_nonempty). apply stars_kept, Forall_forall. intros q Hq.
    assert (q ∈ collect_secrets cfg) as Hqc by (apply Hin; rewrite E; apply elem_of_app; right; by right).
    split; [by apply Hstar, collected_secret|by eapply collect_secrets_nonempty].
Qed.

Definition demo_cfg : json :=
  JObj [("inbounds", JArr [JObj [("streamSettings", JObj [("shortIds", JArr [JStr "ab12"; JStr "ab12cd"])])]]);
        ("users", JArr [JObj [("id", JStr "11111111-2222")]])].

Lemma demo_secrets q : secret_in demo_cfg q -> q ∈ ["ab12"; "ab12cd"; "11111111-2222"].
Proof. intros H%collect_complete. exact H. Qed.
(** One short id is the beginning of the other: the longer one leaves no remainder. *)
Example scrub_output_hides_witness :
  contains "ab12cd" (scrub_output "bad shortId 'ab12cd' for 11111111-2222" demo_cfg) = false /\
  scrub_output ("bad shortId " +:+ String "'" ("ab12cd" +:+ String "'" " for 11111111-2222")) demo_cfg =
  scrub_output "bad shortId " demo_cfg +:+ String "'" ("***" +:+ String "'" (scrub_output " for 11111111-2222" demo_cfg)).
Proof.
  assert (secret_in demo_cfg "ab12cd") as Hs by (apply collected_secret; apply (bool_decide_unpack _); by vm_compute).
  destruct (scrub_output_hides demo_cfg "ab12cd" Hs) as [H1 H2]. split; [by apply H1|]. apply H2.
  - intros q Hq%demo_secrets. apply (proj1 (Forall_forall star_free _)) with (x := q) in Hq; [done|]. by repeat constructor.
  - intros q Hq%demo_secrets. apply (proj1 (Forall_forall (fun q => free_of "'" q /\ free_of "'" q) _)) with (x := q) in Hq; [done|]. by repeat constructor.
Defined.

Example scrub_value :
  scrub_output "bad shortId ab12cd for 11111111-2222" demo_cfg = "bad shortId *** for ***".
Proof. reflexivity. Qed.

End Redaction.
