(* ===== verification/ConfigFiles.v ===== *)
(** [ConfigManager] of [xray_config/validate.py]: the live configuration, the
    last-good snapshot and the marker that pairs them.

    A file is what a read sees now ([cur]) and the contents a power cut may bring
    back ([pending]): every write or unlink leaves the old contents pending until a
    directory fsync succeeds.  [oracle] says how the write to each path ends (no
    operation writes a path twice); [xray] is the outcome of [xray -test] on a
    configuration and [config_digest] the SHA-256 of its canonical JSON.

    [steps] are the runs of the manager, with power cuts and edits of the
    configuration files over SSH between its operations; [log] is a ghost list of
    the (replaced, live) pairs whose undo the operator is entitled to. *)
From Stdlib Require Import ZArith Lia.
From stdpp Require Import base strings list relations.
From S2P Require Import Prelude PyStr Models Scrub.
Open Scope string_scope.

(** * Files *)

(** What [json.load] finds: a value, text that is no JSON or cannot be read, or
    bytes that are no UTF-8 (a [UnicodeDecodeError], which is no [JSONDecodeError]). *)
Inductive content := CJson (j : json) | CBadJson | CBadUtf8.

Record file := File { cur : option content; pending : list (option content) }.

Inductive path := PConfig | PLastgood | PMarker.

Record disk := Disk { f_config : file; f_lastgood : file; f_marker : file }.

Definition at_path (p : path) (d : disk) : file :=
  match p with PConfig => f_config d | PLastgood => f_lastgood d | PMarker => f_marker d end.
Definition set_path (p : path) (f : file) (d : disk) : disk :=
  match p with
  | PConfig => Disk f (f_lastgood d) (f_marker d)
  | PLastgood => Disk (f_config d) f (f_marker d)
  | PMarker => Disk (f_config d) (f_lastgood d) f
  end.

(** [_fsync_dir]: a file system without directory fsync counts as durable. *)
Inductive fsync_result := Fsynced | FsyncUnsupported | FsyncFailed.
Definition fsync_dir (r : fsync_result) : bool :=
  match r with FsyncFailed => false | _ => true end.

(** A write raises before the rename, or renames. *)
Inductive write_result := WRaise | WDone (r : fsync_result).
Definition oracle : Type := path -> write_result.

Definition replace_file (r : fsync_result) (c : option content) (f : file) : file :=
  File c (match r with Fsynced => [] | _ => cur f :: pending f end).

(** [_write_atomic]: [None] is an exception. *)
Definition write_atomic (w : oracle) (p : path) (j : json) (d : disk) : option bool * disk :=
  match w p with
  | WRaise => (None, d)
  | WDone r => (Some (fsync_dir r), set_path p (replace_file r (Some (CJson j)) (at_path p d)) d)
  end.

(** * Validation *)

(** How [subprocess.run([xray, "-test", ...])] ends. *)
Inductive test_result :=
  | Exited (code : Z) (out : string)
  | TimedOut
  | NotFound
  | OsFailed (strerror : string).

Section manager.
Context (xray : json -> test_result).
Context (config_digest : json -> string).

Definition validate_config (cfg : json) : bool * string :=
  match xray cfg with
  | TimedOut => (false, "validation timed out")
  | NotFound => (false, "xray executable not found")
  | OsFailed e => (false, "unable to run xray validation: " +:+ e)
  | Exited code out => (bool_decide (code = 0%Z), scrub_output (strip out) cfg)
  end.

(** * Operations *)

Definition pair_marker (a b : json) : json :=
  JObj [("lastgood", JStr (config_digest a)); ("live", JStr (config_digest b))].
Definition invalid_marker : json := JObj [("invalidated", JBool true)].

(** What an operation raises. *)
Inductive failure := OSError | UnicodeDecodeError.

(** [_invalidate_provenance]: an unlink, its failure only logged. *)
Definition invalidate_provenance (w : oracle) (d : disk) : disk :=
  match w PMarker with
  | WRaise => d
  | WDone _ => Disk (f_config d) (f_lastgood d)
                 (File None (cur (f_marker d) :: pending (f_marker d)))
  end.

Definition apply (w : oracle) (cfg : json) (d : disk) : (failure + bool * string) * disk :=
  let '(ok, out) := validate_config cfg in
  if negb ok then (inr (false, out), d)
  else
    let finish (d : disk) :=
      match write_atomic w PConfig cfg d with
      | (None, d') => (inl OSError, d')
      | (Some _, d') => (inr (true, out), d')
      end in
    match cur (f_config d) with
    | Some CBadUtf8 => (inl UnicodeDecodeError, d)
    | Some (CJson previous) =>
        match write_atomic w PLastgood previous d with
        | (None, d1) => (inl OSError, d1)
        | (Some _, d1) =>
            match write_atomic w PMarker (pair_marker previous cfg) d1 with
            | (None, d2) => (inl OSError, d2)
            | (Some _, d2) => finish d2
            end
        end
    | Some CBadJson | None => finish (invalidate_provenance w d)
    end.

(** [_invalidate_provenance_durably] and [invalidate_rollback]: never raises. *)
Definition invalidate_provenance_durably (w : oracle) (d : disk) : bool * disk :=
  match write_atomic w PMarker invalid_marker d with
  | (None, d') => (false, d')
  | (Some durable, d') => (durable, d')
  end.
Definition invalidate_rollback := invalidate_provenance_durably.

Definition apply_irreversible (w : oracle) (cfg : json) (d : disk) : (failure + bool * string) * disk :=
  let '(ok, out) := validate_config cfg in
  if negb ok then (inr (false, out), d)
  else
    match invalidate_provenance_durably w d with
    | (false, d1) =>
        (inr (false, "refusing to apply: the rollback provenance marker could not be durably invalidated, and this config must not be reversible"), d1)
    | (true, d1) =>
        match write_atomic w PConfig cfg d1 with
        | (None, d2) => (inl OSError, d2)
        | (Some _, d2) => (inr (true, out), d2)
        end
    end.

Definition marker_matches (marker lastgood live : json) : bool :=
  match jget "lastgood" marker, jget "live" marker with
  | Some (JStr a), Some (JStr b) =>
      bool_decide (a = config_digest lastgood) && bool_decide (b = config_digest live)
  | _, _ => false
  end.

Definition rollback_target (d : disk) : failure + option json :=
  match cur (f_lastgood d) with
  | None | Some CBadJson => inr None
  | Some CBadUtf8 => inl UnicodeDecodeError
  | Some (CJson lastgood) =>
      match cur (f_marker d) with
      | None | Some CBadJson => inr None
      | Some CBadUtf8 => inl UnicodeDecodeError
      | Some (CJson marker) =>
          match cur (f_config d) with
          | None | Some CBadJson => inr None
          | Some CBadUtf8 => inl UnicodeDecodeError
          | Some (CJson live) =>
              if is_obj marker && from_option jtruthy false (jget "invalidated" marker) then inr None
              else if negb (is_obj marker) || negb (marker_matches marker lastgood live) then inr None
              else inr (Some lastgood)
          end
      end
  end.

Definition rollback_available (d : disk) : failure + bool :=
  match rollback_target d with
  | inl e => inl e
  | inr t => inr (bool_decide (is_Some t))
  end.

Definition rollback (w : oracle) (d : disk) : (failure + bool) * disk :=
  match rollback_target d with
  | inl e => (inl e, d)
  | inr None => (inr false, d)
  | inr (Some lastgood) =>
      match write_atomic w PConfig lastgood d with
      | (None, d1) => (inl OSError, d1)
      | (Some _, d1) =>
          match write_atomic w PMarker (pair_marker lastgood lastgood) d1 with
          | (None, d2) => (inl OSError, d2)
          | (Some _, d2) => (inr true, d2)
          end
      end
  end.

(** * Runs *)

(** A power cut: each file is what it was, or something a fsync had not settled. *)
Definition survives (f f' : file) : Prop :=
  pending f' = [] /\ (cur f' = cur f \/ cur f' ∈ pending f).
Definition crash (d d' : disk) : Prop := forall p, survives (at_path p d) (at_path p d').

(** The file system has directory fsync. *)
Definition syncs (w : oracle) : Prop := forall p, w p <> WDone FsyncUnsupported.

(** A disk and the pairs whose undo is legitimate: (replaced, live). *)
Definition world : Type := disk * list (json * json).

Inductive op := OpApply (cfg : json) | OpIrreversible (cfg : json) | OpInvalidate | OpRollback
  | OpCrash | OpEdit (p : path).

Inductive step : op -> world -> world -> Prop :=
  | step_apply w cfg d log r d' :
      syncs w -> apply w cfg d = (r, d') ->
      step (OpApply cfg) (d, log)
        (d', match cur (f_config d) with Some (CJson prev) => (prev, cfg) :: log | _ => log end)
  | step_irreversible w cfg d log r d' :
      syncs w -> apply_irreversible w cfg d = (r, d') ->
      step (OpIrreversible cfg) (d, log)
        (d', match r with inr (true, _) => [] | _ => log end)
  | step_invalidate w d log r d' :
      syncs w -> invalidate_rollback w d = (r, d') ->
      step OpInvalidate (d, log) (d', if r then [] else log)
  | step_rollback w d log r d' :
      syncs w -> rollback w d = (r, d') ->
      step OpRollback (d, log)
        (d', match rollback_target d with inr (Some lg) => (lg, lg) :: log | _ => log end)
  | step_crash d log d' : crash d d' -> step OpCrash (d, log) (d', log)
  | step_edit p c d log :
      p <> PMarker ->
      step (OpEdit p) (d, log) (set_path p (File c (cur (at_path p d) :: pending (at_path p d))) d, log).

Inductive steps : list op -> world -> world -> Prop :=
  | steps_nil s : steps [] s s
  | steps_cons o os s1 s2 s3 : step o s1 s2 -> steps os s2 s3 -> steps (o :: os) s1 s3.

End manager.
