(* ===== verification/ConfigFilesProps.v ===== *)
(** Undo and revocation: what a rollback may install, over every run of the manager
    with failing writes, power cuts and edits from outside. *)
From Stdlib Require Import ZArith Lia.
From stdpp Require Import base strings list relations.
From S2P Require Import Prelude PyStr Models Scrub ConfigFiles.
Open Scope string_scope.

Section facts.
Context (xray : json -> test_result) (digest : json -> string).

(** What may be in the marker file: nothing usable, or a pairing of the log. *)
Definition justified (log : list (json * json)) (c : option content) : Prop :=
  match c with
  | Some (CJson m) => m = invalid_marker \/ exists a b, (a, b) ∈ log /\ m = pair_marker digest a b
  | _ => True
  end.

Definition marker_ok (s : world) : Prop :=
  justified s.2 (cur (f_marker s.1)) /\ Forall (justified s.2) (pending (f_marker s.1)).

Lemma justified_cons ab log c : justified log c -> justified (ab :: log) c.
Proof.
  destruct c as [[m| |]|]; simpl; try done. intros [->|(a & b & Hin & ->)]; [by left|right].
  exists a, b. split; [by right|done].
Qed.

Lemma marker_ok_cons ab d log : marker_ok (d, log) -> marker_ok (d, ab :: log).
Proof.
  intros [H1 H2]. split; [by apply justified_cons|]. eapply Forall_impl; [exact H2|]. intros c. apply justified_cons.
Qed.

Lemma marker_ok_nil d log : marker_ok (d, []) -> marker_ok (d, log).
Proof.
  intros H. induction log as [|ab log IH]; [done|]. by apply marker_ok_cons.
Qed.

Lemma marker_ok_same d d' log : f_marker d' = f_marker d -> marker_ok (d, log) -> marker_ok (d', log).
Proof. unfold marker_ok; simpl. by intros ->. Qed.

Lemma write_marker_ok w m d log r d' :
  justified log (Some (CJson m)) -> marker_ok (d, log) ->
  write_atomic w PMarker m d = (r, d') -> marker_ok (d', log).
Proof.
  unfold write_atomic. intros Hm [H1 H2] H. destruct (w PMarker) as [|[]]; simplify_eq/=; [done|..];
    (split; [done|]); simpl; by repeat constructor.
Qed.

Lemma write_other w p m d r d' :
  p <> PMarker -> write_atomic w p m d = (r, d') -> f_marker d' = f_marker d.
Proof. unfold write_atomic. intros Hp H. destruct (w p); simplify_eq; [done|]. by destruct p. Qed.

Lemma write_config w m d r d' : write_atomic w PConfig m d = (r, d') -> f_marker d' = f_marker d.
Proof. by apply write_other. Qed.
Lemma write_lastgood w m d r d' : write_atomic w PLastgood m d = (r, d') -> f_marker d' = f_marker d.
Proof. by apply write_other. Qed.

Lemma unlink_ok w d log : marker_ok (d, log) -> marker_ok (invalidate_provenance w d, log).
Proof.
  unfold invalidate_provenance. destruct (w PMarker); [done|]. intros [H1 H2]. split; [done|]. by constructor.
Qed.

Lemma apply_ok w cfg d log r d' :
  marker_ok (d, log) -> apply xray digest w cfg d = (r, d') ->
  marker_ok (d', match cur (f_config d) with Some (CJson prev) => (prev, cfg) :: log | _ => log end).
Proof.
  intros Hok H. unfold apply in H. destruct (validate_config xray cfg) as [[] out]; simpl in H.
  2: { simplify_eq. destruct (cur (f_config d')) as [[]|]; try done. by apply marker_ok_cons. }
  destruct (cur (f_config d)) as [[prev| |]|]; [| |by simplify_eq|].
  - apply (marker_ok_cons (prev, cfg)) in Hok.
    assert (justified ((prev, cfg) :: log) (Some (CJson (pair_marker digest prev cfg)))) as Hj.
    { right. exists prev, cfg. split; [by left|done]. }
    destruct (write_atomic w PLastgood prev d) as [[b|] d1] eqn:E1;
      apply write_lastgood in E1; apply (marker_ok_same _ _ _ E1) in Hok; [|by simplify_eq].
    destruct (write_atomic w PMarker _ d1) as [[b'|] d2] eqn:E2;
      (eapply write_marker_ok in E2; [|exact Hj|exact Hok]); [|by simplify_eq].
    destruct (write_atomic w PConfig cfg d2) as [[b''|] d3] eqn:E3; simplify_eq;
      apply write_config in E3; by eapply marker_ok_same.
  - apply (unlink_ok w) in Hok. destruct (write_atomic w PConfig cfg _) as [[b|] d1] eqn:E; simplify_eq;
      apply write_config in E; by eapply marker_ok_same.
  - apply (unlink_ok w) in Hok. destruct (write_atomic w PConfig cfg _) as [[b|] d1] eqn:E; simplify_eq;
      apply write_config in E; by eapply marker_ok_same.
Qed.

(** A durable invalidation leaves nothing a power cut could bring back. *)
Lemma invalidate_ok w d log r d' :
  syncs w -> marker_ok (d, log) -> invalidate_provenance_durably w d = (r, d') ->
  marker_ok (d', if r then [] else log) /\ f_config d' = f_config d.
Proof.
  intros Hs Hok H. unfold invalidate_provenance_durably, write_atomic in H. specialize (Hs PMarker).
  destruct Hok as [H1 H2]. destruct (w PMarker) as [|[]]; simplify_eq/=; try done;
    (split; [split|done]); simpl; auto.
Qed.

(** A successful revocation resets the marker whatever it was. *)
Lemma irreversible_fresh w cfg d out d' :
  syncs w -> apply_irreversible xray w cfg d = (inr (true, out), d') -> marker_ok (d', []).
Proof.
  intros Hs H. unfold apply_irreversible in H.
  destruct (validate_config xray cfg) as [[] o]; simpl in H; [|by simplify_eq].
  unfold invalidate_provenance_durably, write_atomic in H. specialize (Hs PMarker).
  destruct (w PMarker) as [|[]]; simpl in H; try done.
  destruct (w PConfig); simplify_eq. split; simpl; auto.
Qed.

Lemma irreversible_ok w cfg d log r d' :
  syncs w -> marker_ok (d, log) -> apply_irreversible xray w cfg d = (r, d') ->
  marker_ok (d', match r with inr (true, _) => [] | _ => log end).
Proof.
  intros Hs Hok H. unfold apply_irreversible in H.
  destruct (validate_config xray cfg) as [[] out]; simpl in H; [|by simplify_eq].
  destruct (invalidate_provenance_durably w d) as [b d1] eqn:E.
  destruct (invalidate_ok w d log b d1 Hs Hok E) as [Hok1 _]. destruct b; [|by simplify_eq].
  destruct (write_atomic w PConfig cfg d1) as [[b|] d2] eqn:E2; simplify_eq; apply write_config in E2.
  - by eapply marker_ok_same.
  - eapply (marker_ok_same d1); [done|]. by apply marker_ok_nil.
Qed.

Lemma rollback_ok w d log r d' :
  marker_ok (d, log) -> rollback digest w d = (r, d') ->
  marker_ok (d', match rollback_target digest d with inr (Some lg) => (lg, lg) :: log | _ => log end).
Proof.
  intros Hok H. unfold rollback in H.
  destruct (rollback_target digest d) as [e|[lg|]]; [by simplify_eq| |by simplify_eq].
  apply (marker_ok_cons (lg, lg)) in Hok.
  assert (justified ((lg, lg) :: log) (Some (CJson (pair_marker digest lg lg)))) as Hj.
  { right. exists lg, lg. split; [by left|done]. }
  destruct (write_atomic w PConfig lg d) as [[b|] d1] eqn:E1;
    apply write_config in E1; apply (marker_ok_same _ _ _ E1) in Hok; [|by simplify_eq].
  destruct (write_atomic w PMarker _ d1) as [[b'|] d2] eqn:E2; simplify_eq;
    (eapply write_marker_ok in E2; [exact E2|exact Hj|exact Hok]).
Qed.

Lemma crash_ok d d' log : crash d d' -> marker_ok (d, log) -> marker_ok (d', log).
Proof.
  intros Hc [H1 H2]. specialize (Hc PMarker) as [Hp Hcur]. simpl in *. split; simpl; rewrite ?Hp; [|done].
  destruct Hcur as [->|Hin]; [done|]. by apply (proj1 (Forall_forall _ _) H2).
Qed.

Lemma step_ok o s s' : step xray digest o s s' -> marker_ok s -> marker_ok s'.
Proof.
  destruct 1 as [w cfg d log r d' Hs E|w cfg d log r d' Hs E|w d log r d' Hs E|w d log r d' Hs E
                |d log d' Hc|p c d log Hp]; intros Hok.
  - by eapply apply_ok.
  - by eapply irreversible_ok.
  - by eapply invalidate_ok.
  - by eapply rollback_ok.
  - by eapply crash_ok.
  - eapply marker_ok_same; [|exact Hok]. by destruct p.
Qed.

Lemma steps_ok os s s' : steps xray digest os s s' -> marker_ok s -> marker_ok s'.
Proof. induction 1; eauto using step_ok. Qed.

(** A target is the snapshot a logged pairing names, over the live file it names. *)
Lemma target_logged d log lg :
  marker_ok (d, log) -> rollback_target digest d = inr (Some lg) ->
  exists live a b, cur (f_lastgood d) = Some (CJson lg) /\ cur (f_config d) = Some (CJson live) /\
    (a, b) ∈ log /\ digest a = digest lg /\ digest b = digest live.
Proof.
  intros [Hm _] H. unfold rollback_target in H. simpl in Hm.
  destruct (cur (f_lastgood d)) as [[lg'| |]|]; try done.
  destruct (cur (f_marker d)) as [[m| |]|]; try done.
  destruct (cur (f_config d)) as [[live| |]|]; try done.
  destruct Hm as [->|(a & b & Hin & ->)]; simpl in H; [done|].
  unfold marker_matches in H; simpl in H.
  destruct (bool_decide_reflect (digest a = digest lg')) as [Ha|], (bool_decide_reflect (digest b = digest live)) as [Hb|];
    simpl in H; simplify_eq. by exists live, a, b.
Qed.

Lemma log_stays_empty os s s' :
  steps xray digest os s s' -> marker_ok s -> s.2 = [] -> Forall (fun o => forall c, o <> OpApply c) os -> s'.2 = [].
Proof.
  induction 1 as [|o os s1 s2 s3 Hst Hsts IH]; intros Hok Hl Hno; [done|].
  apply Forall_cons in Hno as [Hno Hnos]. apply IH; [by eapply step_ok| |done].
  destruct Hst as [w cfg d log r d' Hs E|w cfg d log r d' Hs E|w d log r d' Hs E|w d log r d' Hs E
                |d log d' Hc|p c d log Hp]; simpl in *; subst; try done.
  - by destruct (Hno cfg).
  - by destruct r as [|[[] ?]].
  - by destruct r.
  - destruct (rollback_target digest d) as [|[lg|]] eqn:Et; [done| |done].
    destruct (target_logged d [] lg Hok Et) as (? & ? & ? & _ & _ & Hin & _). by apply elem_of_nil in Hin.
Qed.
End facts.

(** A marker that pairs the two files makes the snapshot the target. *)
Lemma target_of_pair digest d prev live :
  cur (f_lastgood d) = Some (CJson prev) -> cur (f_config d) = Some (CJson live) ->
  cur (f_marker d) = Some (CJson (pair_marker digest prev live)) ->
  rollback_target digest d = inr (Some prev).
Proof.
  intros H1 H2 H3. unfold rollback_target. rewrite H1, H3, H2. unfold marker_matches; simpl.
  by rewrite !bool_decide_eq_true_2.
Qed.

Module Undo.

(** a rollback can only ever install the configuration that an apply
    replaced by the one now live, content for content (by digest), an apply made
    since the last successful revocation; never an unrelated older snapshot.  This
    holds in every state reached by applies, revocations, rollbacks and
    invalidations with any of their writes failing, by power cuts, and by edits of
    the two configuration files from outside. *)
Theorem rollback_only_replaced xray digest os d0 d log lg
    (H0 : f_marker d0 = File None [])
    (Hs : steps xray digest os (d0, []) (d, log))
    (Ht : rollback_target digest d = inr (Some lg)) :
  exists live replaced applied,
    cur (f_lastgood d) = Some (CJson lg) /\ cur (f_config d) = Some (CJson live) /\
    (replaced, applied) ∈ log /\ digest replaced = digest lg /\ digest applied = digest live.
Proof.
  eapply target_logged; [|done]. eapply (steps_ok xray digest os (d0, [])); [done|].
  unfold marker_ok; simpl. by rewrite H0.
Qed.

(** C33: a revocation cannot be undone: once [apply_irreversible] succeeds, on any
    disk whose directory syncs work, no sequence of rollbacks, further revocations,
    power cuts and outside edits (but of the marker) leaves a rollback target, until a
    new configuration is applied. *)
Theorem revocation_irreversible xray digest w cfg d1 out d2 os d3 log lg
    (Hw : syncs w)
    (Hr : apply_irreversible xray w cfg d1 = (inr (true, out), d2))
    (Hs : steps xray digest os (d2, []) (d3, log))
    (Hno : Forall (fun o => forall c, o <> OpApply c) os) :
  rollback_target digest d3 <> inr (Some lg).
Proof.
  assert (marker_ok digest (d2, [])) as Hok by (by eapply irreversible_fresh).
  intros Ht. pose proof (log_stays_empty _ _ _ _ _ Hs Hok eq_refl Hno) as Hl. simpl in Hl. subst log.
  pose proof (steps_ok _ _ _ _ _ Hs Hok) as Hok3.
  destruct (target_logged _ _ _ _ Hok3 Ht) as (? & ? & ? & _ & _ & Hin & _). by apply elem_of_nil in Hin.
Qed.

(** rollback undoes an apply: after a successful apply over a readable live
    configuration that configuration is the rollback target, and a rollback whose
    writes succeed makes it the live one again, itself still a provable no-op to
    repeat. *)
Theorem apply_rollback_roundtrip xray digest w w' cfg prev out d d1
    (Hlive : cur (f_config d) = Some (CJson prev))
    (Ha : apply xray digest w cfg d = (inr (true, out), d1))
    (Hw : forall p, w' p <> WRaise) :
  rollback_target digest d1 = inr (Some prev) /\
  exists d2, rollback digest w' d1 = (inr true, d2) /\ cur (f_config d2) = Some (CJson prev) /\
    rollback_target digest d2 = inr (Some prev).
Proof.
  assert (cur (f_lastgood d1) = Some (CJson prev) /\ cur (f_config d1) = Some (CJson cfg) /\
          cur (f_marker d1) = Some (CJson (pair_marker digest prev cfg))) as (H1 & H2 & H3).
  { unfold apply in Ha. destruct (validate_config xray cfg) as [[] o]; simpl in Ha; [|done].
    rewrite Hlive in Ha. unfold write_atomic in Ha.
    destruct (w PLastgood); [done|]. destruct (w PMarker); [done|]. destruct (w PConfig); [done|].
    simplify_eq. done. }
  assert (rollback_target digest d1 = inr (Some prev)) as Ht by (by eapply target_of_pair).
  split; [done|]. unfold rollback. rewrite Ht. unfold write_atomic.
  pose proof (Hw PConfig). pose proof (Hw PMarker).
  destruct (w' PConfig) as [|r1]; [done|]. destruct (w' PMarker) as [|r2]; [done|].
  eexists. split; [done|]. split; [done|]. by eapply target_of_pair.
Qed.

(** A live file that is not UTF-8 makes every apply raise and change nothing, so
    no apply can ever repair it. *)
Theorem apply_stuck_on_bad_utf8 xray digest w cfg d
    (Hbad : cur (f_config d) = Some CBadUtf8) (Hv : (validate_config xray cfg).1 = true) :
  apply xray digest w cfg d = (inl UnicodeDecodeError, d).
Proof.
  unfold apply. destruct (validate_config xray cfg) as [ok out]; simpl in Hv; subst ok. simpl. by rewrite Hbad.
Qed.

(** ** A concrete manager *)

Definition yes (_ : json) : test_result := Exited 0 "Configuration OK.".
Definition demo_digest (j : json) : string := match j with JNum z => str_int z | _ => "" end.
Definition fine (_ : path) : write_result := WDone Fsynced.
Definition demo_disk : disk := Disk (File (Some (CJson (JNum 1))) []) (File None []) (File None []).
Definition applied : disk := (apply yes demo_digest fine (JNum 2) demo_disk).2.
Definition revoked : disk := (apply_irreversible yes fine (JNum 3) applied).2.

Lemma fine_syncs : syncs fine.
Proof. by intros p. Qed.

Example rollback_only_replaced_witness :
  exists live replaced new,
    cur (f_lastgood applied) = Some (CJson (JNum 1)) /\ cur (f_config applied) = Some (CJson live) /\
    (replaced, new) ∈ [(JNum 1, JNum 2)] /\ demo_digest replaced = "1" /\ demo_digest new = demo_digest live.
Proof.
  apply (rollback_only_replaced yes demo_digest [OpApply (JNum 2)] demo_disk applied); [done| |done].
  eapply steps_cons; [|constructor].
  apply (step_apply yes demo_digest fine (JNum 2) demo_disk [] (inr (true, "Configuration OK.")) applied);
    [apply fine_syncs|done].
Defined.

(** The replaced configuration is put back under its name by hand, and a rollback is tried. *)
Definition planted : disk := set_path PLastgood (File (Some (CJson (JNum 2))) (cur (at_path PLastgood revoked) :: pending (at_path PLastgood revoked))) revoked.
Definition tried : disk := (rollback demo_digest fine planted).2.
Example revocation_irreversible_witness : rollback_target demo_digest tried <> inr (Some (JNum 2)).
Proof.
  apply (revocation_irreversible yes demo_digest fine (JNum 3) applied "Configuration OK." revoked [OpEdit PLastgood; OpRollback] tried []);
    [apply fine_syncs|done| |by repeat constructor].
  eapply steps_cons; [by apply step_edit|]. eapply steps_cons; [|constructor].
  exact (step_rollback yes demo_digest fine planted [] (rollback demo_digest fine planted).1 tried fine_syncs (surjective_pairing _)).
Defined.

Example apply_rollback_roundtrip_witness :
  rollback_target demo_digest applied = inr (Some (JNum 1)) /\
  exists d2, rollback demo_digest fine applied = (inr true, d2) /\ cur (f_config d2) = Some (CJson (JNum 1)) /\
    rollback_target demo_digest d2 = inr (Some (JNum 1)).
Proof.
  apply (apply_rollback_roundtrip yes demo_digest fine fine (JNum 2) (JNum 1) "Configuration OK." demo_disk);
    [done|done|by intros p].
Defined.

End Undo.
