(* ===== verification/Supervisor.v ===== *)
(** [XraySupervisor] of [xray_supervisor/supervisor.py].

    [sup] has the object's fields; [os] the processes it ever spawned, each with the
    configuration it was started on (a ghost the digest is compared with).  What
    the outside decides during one call is in [env]: the start guard's answer, what
    the configuration file holds, whether the spawn works, whether the child dies on
    SIGTERM and SIGKILL within their timeouts, and what each readiness poll finds
    (the list ends where the two-second budget does).

    The operations hold [_lock] throughout, so they are atomic here; between them a
    child may exit on its own ([ev_exit]) and its standard error may arrive
    ([capture_stderr]). *)
From Stdlib Require Import ZArith Lia.
From stdpp Require Import base gmap strings list fin_maps.
From S2P Require Import Prelude PyStr Models Scrub ConfigFiles.
Open Scope string_scope.
Open Scope Z_scope.

Definition STDERR_WITHHELD : string :=
  "xray's output is withheld: the panel could not read its config, so it cannot redact the secrets that output may quote".
Definition STDERR_TAIL_CHARS : nat := 8192.

Inductive pstate := Alive (started_on : option content) | Gone (code : Z).

Record os := Os { procs : gmap Z pstate; next_pid : Z }.

Record sup := Sup {
  proc : option Z;
  want_running : bool;
  last_exit_code : option Z;
  stderr_tail : string;
  redaction_config : option json;
  loaded_digest : option string
}.

Definition set_proc x s := Sup x (want_running s) (last_exit_code s) (stderr_tail s) (redaction_config s) (loaded_digest s).
Definition set_want x s := Sup (proc s) x (last_exit_code s) (stderr_tail s) (redaction_config s) (loaded_digest s).
Definition set_exit x s := Sup (proc s) (want_running s) x (stderr_tail s) (redaction_config s) (loaded_digest s).
Definition set_tail x s := Sup (proc s) (want_running s) (last_exit_code s) x (redaction_config s) (loaded_digest s).
Definition set_redaction x s := Sup (proc s) (want_running s) (last_exit_code s) (stderr_tail s) x (loaded_digest s).
Definition set_loaded x s := Sup (proc s) (want_running s) (last_exit_code s) (stderr_tail s) (redaction_config s) x.

Inductive spawn_result := Spawned | SpawnNotFound | SpawnFailed (strerror : string).
Inductive ready_poll := PollDied (code : Z) | PollReady | PollNot.

Record env := Env {
  guard : bool;
  on_disk : option content;
  spawn : spawn_result;
  on_term : option Z;
  on_kill : option Z;
  polls : option (list ready_poll)
}.

Definition state_t : Type := sup * os.

(** [proc.poll()]: [None] while the child runs. *)
Definition poll (o : os) (pid : Z) : option Z :=
  match procs o !! pid with
  | Some (Gone c) => Some c
  | Some (Alive _) => None
  | None => Some 0
  end.

Definition running (s : state_t) : bool :=
  match proc s.1 with Some pid => bool_decide (poll s.2 pid = None) | None => false end.

Definition set_gone (pid c : Z) (o : os) : os := Os (<[pid := Gone c]> (procs o)) (next_pid o).

Section supervisor.
Context (config_digest : json -> string).

(** The part of [start] after the guard: reading the file, spawning. *)
Definition launch (e : env) (st : state_t) : option failure * state_t :=
  let '(s, o) := st in
  match on_disk e with
  | Some CBadUtf8 => (Some UnicodeDecodeError, (s, o))
  | _ =>
      let s1 := match on_disk e with
                | Some (CJson (JObj kvs)) =>
                    set_loaded (Some (config_digest (JObj kvs))) (set_redaction (Some (JObj kvs)) s)
                | _ => s
                end in
      match spawn e with
      | Spawned =>
          (None, (set_proc (Some (next_pid o)) s1,
                  Os (<[next_pid o := Alive (on_disk e)]> (procs o)) (next_pid o + 1)))
      | SpawnNotFound =>
          (None, (set_tail "xray executable not found" (set_loaded None (set_proc None s1)), o))
      | SpawnFailed m =>
          (None, (set_tail ("unable to start xray: " +:+ m) (set_loaded None (set_proc None s1)), o))
      end
  end.

Definition start (e : env) (st : state_t) : option failure * state_t :=
  let '(s, o) := st in
  let s := set_want true s in
  if running (s, o) then (None, (s, o))
  else
    let s := set_tail "" (set_loaded None (set_exit None (set_proc None s))) in
    if negb (guard e) then
      (None, (set_tail "refusing to start xray: the config on disk still grants access that has been revoked" s, o))
    else launch e (s, o).

(** One chunk of a child's standard error. *)
Definition capture_stderr (chunk : string) (s : sup) : sup :=
  match redaction_config s with
  | None => set_tail STDERR_WITHHELD s
  | Some _ => set_tail (str_last STDERR_TAIL_CHARS (stderr_tail s +:+ chunk)) s
  end.

Definition stop_child (e : env) (st : state_t) : bool * state_t :=
  let '(s, o) := st in
  match proc s with
  | None => (true, (set_loaded None (set_proc None s), o))
  | Some pid =>
      let finish c o := (true, (set_loaded None (set_proc None (set_exit (Some c) s)), o)) in
      match poll o pid with
      | Some c => finish c o
      | None =>
          match on_term e with
          | Some c => finish c (set_gone pid c o)
          | None => match on_kill e with
                    | Some c => finish c (set_gone pid c o)
                    | None => (false, (s, o))
                    end
          end
      end
  end.

Definition stop (e : env) (st : state_t) : bool * state_t :=
  stop_child e (set_want false st.1, st.2).

(** The polling loop of [_wait_ready]: each iteration looks at the process first. *)
Fixpoint poll_ready (e : env) (pid : Z) (l : list ready_poll) (st : state_t) : bool * state_t :=
  match l with
  | [] => (false, (stop_child e st).2)
  | p :: l' =>
      match poll st.2 pid, p with
      | Some c, _ => (false, (set_exit (Some c) st.1, st.2))
      | None, PollDied c => (false, (set_exit (Some c) st.1, set_gone pid c st.2))
      | None, PollReady => (true, st)
      | None, PollNot => poll_ready e pid l' st
      end
  end.

Definition wait_ready (e : env) (st : state_t) : bool * state_t :=
  match proc st.1 with
  | None => (false, st)
  | Some pid =>
      match polls e with
      | None => (bool_decide (poll st.2 pid = None), st)
      | Some l => poll_ready e pid l st
      end
  end.

Definition reload (e : env) (st : state_t) : (failure + bool) * state_t :=
  match stop e st with
  | (false, st1) => (inr false, st1)
  | (true, st1) =>
      match start e st1 with
      | (Some f, st2) => (inl f, st2)
      | (None, st2) => let '(b, st3) := wait_ready e st2 in (inr b, st3)
      end
  end.

Definition reload_if_running (e : env) (st : state_t) : (failure + option bool) * state_t :=
  if running st then
    match reload e st with
    | (inl f, st') => (inl f, st')
    | (inr b, st') => (inr (Some b), st')
    end
  else (inr None, st).

Record status_t := Status {
  st_running : bool;
  st_pid : option Z;
  st_last_exit_code : option Z;
  st_last_error : string;
  st_loaded_config_digest : option string
}.

Definition status (st : state_t) : status_t * state_t :=
  let r := running st in
  let s := match proc st.1 with
           | Some pid => match poll st.2 pid with Some c => set_exit (Some c) st.1 | None => st.1 end
           | None => st.1
           end in
  (Status r (if r then proc s else None) (last_exit_code s)
     (scrub_output (stderr_tail s) (default (JObj []) (redaction_config s))) (loaded_digest s),
   (s, st.2)).

Definition state (st : state_t) : string :=
  if running st then "working" else if want_running st.1 then "error" else "stopped".

(** * Runs *)

Inductive call := CStart | CStop | CReload | CReloadIfRunning | CStatus | CExit (pid code : Z) | CStderr (chunk : string).

Inductive sstep : call -> state_t -> state_t -> Prop :=
  | s_start e st : sstep CStart st (start e st).2
  | s_stop e st : sstep CStop st (stop e st).2
  | s_reload e st : sstep CReload st (reload e st).2
  | s_reload_if e st : sstep CReloadIfRunning st (reload_if_running e st).2
  | s_status st : sstep CStatus st (status st).2
  | s_exit pid code st c :
      procs st.2 !! pid = Some (Alive c) -> sstep (CExit pid code) st (st.1, set_gone pid code st.2)
  | s_stderr chunk st : sstep (CStderr chunk) st (capture_stderr chunk st.1, st.2).

Definition init : state_t := (Sup None false None "" None None, Os ∅ 1).

Inductive reachable : state_t -> Prop :=
  | reach_init : reachable init
  | reach_step c st st' : reachable st -> sstep c st st' -> reachable st'.

End supervisor.
