(* ===== verification/SupervisorProps.v ===== *)
(** The supervisor never runs two children, never starts one the guard refuses or
    nobody asked for, and knows what the running one loaded. *)
From Stdlib Require Import ZArith Lia.
From stdpp Require Import base gmap strings list fin_maps.
From S2P Require Import Prelude PyStr Models Scrub ConfigFiles Supervisor.
Open Scope string_scope.
Open Scope Z_scope.

Section facts.
Context (digest : json -> string).

(** A child that runs is the one the supervisor holds, and the digest it reports,
    if any, is of what that child was started on. *)
Definition inv (st : state_t) : Prop :=
  (forall pid c, procs st.2 !! pid = Some (Alive c) -> proc st.1 = Some pid /\
     forall dg, loaded_digest st.1 = Some dg -> exists kvs, c = Some (CJson (JObj kvs)) /\ dg = digest (JObj kvs)) /\
  (forall pid, is_Some (procs st.2 !! pid) -> pid < next_pid st.2) /\
  (forall pid, proc st.1 = Some pid -> is_Some (procs st.2 !! pid)).

Lemma poll_alive o pid : poll o pid = None <-> exists c, procs o !! pid = Some (Alive c).
Proof. unfold poll. destruct (procs o !! pid) as [[c|c]|]; naive_solver. Qed.

Lemma not_running_none st pid c : inv st -> running st = false -> procs st.2 !! pid <> Some (Alive c).
Proof.
  intros [H _] Hr Hp. destruct (H pid c Hp) as [Hproc _]. unfold running in Hr. rewrite Hproc in Hr.
  apply bool_decide_eq_false in Hr. apply Hr, poll_alive. eauto.
Qed.

(** Changing only the bookkeeping fields keeps the invariant. *)
Lemma inv_fields s s' o :
  proc s' = proc s -> loaded_digest s' = loaded_digest s -> inv (s, o) -> inv (s', o).
Proof. unfold inv; simpl. intros -> ->. done. Qed.

Lemma inv_no_child s s' o :
  (forall pid c, procs o !! pid <> Some (Alive c)) -> proc s' = None -> inv (s, o) -> inv (s', o).
Proof.
  intros Hno Hp (_ & H2 & _). split_and!; simpl; [|done|].
  - intros pid c H. by destruct (Hno pid c).
  - intros pid. by rewrite Hp.
Qed.

Lemma gone_lookup pid c o pid' :
  procs (set_gone pid c o) !! pid' = if decide (pid = pid') then Some (Gone c) else procs o !! pid'.
Proof. unfold set_gone; simpl. rewrite lookup_insert. done. Qed.

Lemma inv_gone s o pid code : proc s = Some pid -> inv (s, o) ->
  inv (s, set_gone pid code o) /\ forall q c, procs (set_gone pid code o) !! q <> Some (Alive c).
Proof.
  intros Hp (H1 & H2 & H3). assert (forall q c, procs (set_gone pid code o) !! q <> Some (Alive c)) as Hno.
  { intros q c. rewrite gone_lookup. case_decide as E; [done|]. intros Hq.
    destruct (H1 q c Hq) as [Hq' _]. simpl in Hq'. congruence. }
  split; [|done]. split_and!; simpl.
  - intros q c Hq. by destruct (Hno q c).
  - intros q [x Hq]. rewrite lookup_insert in Hq. case_decide as E; [|eauto].
    subst. apply H2, H3. done.
  - intros q Hq. rewrite lookup_insert. case_decide; [by eexists|]. by apply H3.
Qed.

Lemma stop_child_inv e st : inv st ->
  let '(b, st') := stop_child e st in
  inv st' /\
  (if b then proc st'.1 = None /\ forall pid c, procs st'.2 !! pid <> Some (Alive c)
   else st' = st /\ running st = true) /\
  want_running st'.1 = want_running st.1 /\ next_pid st'.2 = next_pid st.2.
Proof.
  destruct st as [s o]. intros Hi. unfold stop_child. destruct (proc s) as [pid|] eqn:Ep.
  - destruct (poll o pid) as [c|] eqn:Epoll.
    + assert (running (s, o) = false) as Hr.
      { unfold running; simpl. rewrite Ep. apply bool_decide_eq_false. congruence. }
      split_and!; simpl; try done; [|intros ??; by apply (not_running_none (s, o))].
      eapply inv_no_child; [|done|exact Hi]. intros ??; by apply (not_running_none (s, o)).
    + destruct (on_term e) as [c|]; [|destruct (on_kill e) as [c|]].
      * destruct (inv_gone s o pid c Ep Hi) as [Hi' Hno]. split_and!; simpl; try done.
        by eapply inv_no_child.
      * destruct (inv_gone s o pid c Ep Hi) as [Hi' Hno]. split_and!; simpl; try done.
        by eapply inv_no_child.
      * split_and!; try done. unfold running; simpl. rewrite Ep. by apply bool_decide_eq_true.
  - assert (forall pid c, procs o !! pid <> Some (Alive c)) as Hno.
    { intros pid c. apply (not_running_none (s, o)); [done|]. unfold running; simpl. by rewrite Ep. }
    split_and!; simpl; try done. by eapply inv_no_child.
Qed.

Lemma start_inv e st : inv st ->
  let '(f, st') := start digest e st in
  inv st' /\ want_running st'.1 = true /\
  (running st = true -> f = None /\ st' = (set_want true st.1, st.2)) /\
  (forall pid c, procs st'.2 !! pid = Some (Alive c) -> procs st.2 !! pid <> Some (Alive c) ->
     guard e = true /\ c = on_disk e).
Proof.
  destruct st as [s o]. intros Hi. unfold start.
  assert (running (set_want true s, o) = running (s, o)) as Hrw by done. rewrite Hrw.
  destruct (running (s, o)) eqn:Er.
  { split_and!; try done; by eapply inv_fields. }
  assert (forall pid c, procs o !! pid <> Some (Alive c)) as Hno.
  { intros pid c. by apply (not_running_none (s, o)). }
  assert (forall s', proc s' = None -> inv (s', o)) as Hinv by (intros; by eapply inv_no_child).
  destruct (guard e) eqn:Eg; simpl.
  2: { split_and!; try done; by apply Hinv. }
  assert (forall s1, (forall dg, loaded_digest s1 = Some dg ->
              exists kvs, on_disk e = Some (CJson (JObj kvs)) /\ dg = digest (JObj kvs)) ->
            inv (set_proc (Some (next_pid o)) s1, Os (<[next_pid o := Alive (on_disk e)]> (procs o)) (next_pid o + 1)))
    as Hspawn.
  { intros s1 Hd. destruct Hi as (_ & H2 & _). split_and!; simpl.
    - intros pid c H. rewrite lookup_insert in H. case_decide; [|by destruct (Hno pid c)].
      simplify_eq. done.
    - intros pid [x H]. rewrite lookup_insert in H. case_decide; [lia|].
      specialize (H2 pid). simpl in H2. assert (pid < next_pid o) by eauto. lia.
    - intros pid [= <-]. rewrite lookup_insert_eq. eauto. }
  assert (forall pid c, <[next_pid o := Alive (on_disk e)]> (procs o) !! pid = Some (Alive c) ->
            true = true /\ c = on_disk e) as Hnew.
  { intros pid c H. rewrite lookup_insert in H. case_decide; [by simplify_eq|by destruct (Hno pid c)]. }
  unfold launch. destruct (on_disk e) as [[[]| |]|] eqn:Ed; try (destruct (spawn e));
    split_and!; try done; try (by apply Hinv); try (intros pid c H1; by destruct (Hno pid c));
    try (intros; by eapply Hnew); apply Hspawn; simpl; try done.
  intros dg [= <-]. eauto.
Qed.

Lemma poll_ready_inv e pid l st : inv st -> proc st.1 = Some pid ->
  let '(b, st') := poll_ready e pid l st in
  inv st' /\ (b = true -> st' = st /\ running st = true) /\ want_running st'.1 = want_running st.1 /\
  (forall q c, procs st'.2 !! q = Some (Alive c) -> procs st.2 !! q = Some (Alive c)).
Proof.
  intros Hi Hp. induction l as [|p l IH]; simpl.
  - pose proof (stop_child_inv e st Hi) as H. destruct (stop_child e st) as [b st'].
    destruct H as (Hi' & Hb & Hw & _). split_and!; try done. intros q c Hq.
    destruct b; [by destruct Hb as [_ Hb]; destruct (Hb q c)|by destruct Hb as [-> _]].
  - destruct st as [s o]; simpl in *. destruct (poll o pid) as [c|] eqn:Ep; simpl.
    + split_and!; try done; by eapply inv_fields.
    + destruct p as [c| |]; [| |done].
      * destruct (inv_gone s o pid c Hp Hi) as [Hi' Hno]. split_and!; try done; try (by eapply inv_fields).
        intros q c' Hq. by destruct (Hno q c').
      * split_and!; try done. intros _. split; [done|]. unfold running; simpl. rewrite Hp.
        by apply bool_decide_eq_true.
Qed.

Lemma wait_ready_inv e st : inv st ->
  let '(b, st') := wait_ready e st in
  inv st' /\ (b = true -> st' = st /\ running st = true) /\ want_running st'.1 = want_running st.1 /\
  (forall q c, procs st'.2 !! q = Some (Alive c) -> procs st.2 !! q = Some (Alive c)).
Proof.
  intros Hi. unfold wait_ready. destruct (proc st.1) as [pid|] eqn:Ep; [|done].
  destruct (polls e) as [l|]; [by apply poll_ready_inv|]. split_and!; try done.
  intros Hb. split; [done|]. unfold running. by rewrite Ep.
Qed.

(** What a reload leaves: nothing new without the guard, and on success the child
    it started. *)
Lemma reload_inv e st : inv st ->
  let '(r, st') := reload digest e st in
  inv st' /\
  (r = inr true -> running st' = true /\ want_running st'.1 = true /\ guard e = true /\
     forall pid c, procs st'.2 !! pid = Some (Alive c) -> c = on_disk e) /\
  (forall pid c, procs st'.2 !! pid = Some (Alive c) -> procs st.2 !! pid <> Some (Alive c) ->
     guard e = true /\ c = on_disk e).
Proof.
  intros Hi. unfold reload, stop.
  pose proof (stop_child_inv e (set_want false st.1, st.2)) as Hs.
  destruct (stop_child e (set_want false st.1, st.2)) as [b st1].
  destruct Hs as (Hi1 & Hb & _); [destruct st; by eapply inv_fields|].
  destruct b. 2: { destruct Hb as [-> _]. by split_and!. }
  destruct Hb as [_ Hno]. pose proof (start_inv e st1 Hi1) as Hst.
  destruct (start digest e st1) as [[f|] st2]; destruct Hst as (Hi2 & Hw & _ & Hnew).
  - split_and!; try done. intros pid c H1 _. apply (Hnew pid c H1). apply Hno.
  - pose proof (wait_ready_inv e st2 Hi2) as Hwr. destruct (wait_ready e st2) as [b st3].
    destruct Hwr as (Hi3 & Hready & Hw3 & Hsub).
    assert (forall pid c, procs st3.2 !! pid = Some (Alive c) -> guard e = true /\ c = on_disk e) as Hall.
    { intros pid c H. apply (Hnew pid c); [by apply Hsub|apply Hno]. }
    split_and!; try done; [|by intros; apply (Hall pid)].
    intros [= ->]. destruct (Hready eq_refl) as [-> Hr]. split_and!; try done.
    + unfold running in Hr. destruct (proc st2.1) as [pid|]; [|done]. apply bool_decide_eq_true in Hr.
      apply poll_alive in Hr as [c Hc]. by apply (Hall pid c).
    + intros pid c H. by apply (Hall pid).
Qed.

Lemma sstep_inv c st st' : inv st -> sstep digest c st st' -> inv st'.
Proof.
  intros Hi Hs. destruct Hs as [e st|e st|e st|e st|st|pid code st c Hc|chunk st].
  - pose proof (start_inv e st Hi) as H. destruct (start digest e st) as [f st']. apply H.
  - unfold stop. pose proof (stop_child_inv e (set_want false st.1, st.2)) as H.
    destruct (stop_child e _) as [b st']. apply H. destruct st; by eapply inv_fields.
  - pose proof (reload_inv e st Hi) as H. destruct (reload digest e st) as [r st']. apply H.
  - unfold reload_if_running. destruct (running st); [|done].
    pose proof (reload_inv e st Hi) as H. destruct (reload digest e st) as [[f|b] st']; apply H.
  - unfold status; simpl. destruct st as [s o]; simpl. destruct (proc s); [|done].
    destruct (poll o z); [|done]. by eapply inv_fields.
  - destruct st as [s o]. destruct Hi as (H1 & H2 & H3). destruct (H1 pid c Hc) as [Hp _].
    by apply inv_gone.
  - destruct st as [s o]. unfold capture_stderr; simpl. destruct (redaction_config s); by eapply inv_fields.
Qed.

Lemma reachable_inv st : reachable digest st -> inv st.
Proof.
  induction 1 as [|c st st' _ IH Hs]; [|by eapply sstep_inv].
  split_and!; simpl; [intros pid c H|intros pid [x H]|done]; by rewrite lookup_empty in H.
Qed.
End facts.

Module OneChild.

(** C36: at any time at most one xray child is running, and it is the one the
    supervisor holds, so [status] and [stop] are about it; and the digest [status]
    reports, when it reports one, is the digest of the configuration that child was
    started on, not of what the file says by now.  This holds after every sequence of
    starts, stops, reloads, crashes and output, with any of the spawns, signals and
    readiness checks failing. *)
Theorem one_child digest st p q c c' (Hr : reachable digest st)
    (Hp : procs st.2 !! p = Some (Alive c)) (Hq : procs st.2 !! q = Some (Alive c')) :
  p = q /\ proc st.1 = Some p /\ state st = "working" /\
  (forall dg, st_loaded_config_digest (status st).1 = Some dg ->
     exists kvs, c = Some (CJson (JObj kvs)) /\ dg = digest (JObj kvs)).
Proof.
  destruct (reachable_inv digest st Hr) as (H1 & _ & _).
  destruct (H1 p c Hp) as [Ep Hd], (H1 q c' Hq) as [Eq _]. split_and!; [congruence|done| |].
  - unfold state, running. rewrite Ep, bool_decide_eq_true_2; [done|]. apply poll_alive. eauto.
  - intros dg. unfold status; simpl. rewrite Ep.
    assert (poll st.2 p = None) as -> by (apply poll_alive; eauto). apply Hd.
Qed.

(** no call brings up a process the start guard refuses: whatever runs after a
    start or a reload and did not before was started with the guard's consent, on
    the configuration then on disk; and a reload of a child that is not running
    starts nothing and changes nothing. *)
Theorem start_guarded digest e st pid c (Hr : reachable digest st)
    (Hnew : procs st.2 !! pid <> Some (Alive c)) :
  (procs (start digest e st).2.2 !! pid = Some (Alive c) -> guard e = true /\ c = on_disk e) /\
  (procs (reload digest e st).2.2 !! pid = Some (Alive c) -> guard e = true /\ c = on_disk e) /\
  (procs (reload_if_running digest e st).2.2 !! pid = Some (Alive c) ->
     running st = true /\ guard e = true /\ c = on_disk e) /\
  (running st = false -> reload_if_running digest e st = (inr None, st)).
Proof.
  apply reachable_inv in Hr as Hi. pose proof (start_inv digest e st Hi) as Hs.
  pose proof (reload_inv digest e st Hi) as Hl. unfold reload_if_running.
  destruct (start digest e st) as [f st1], (reload digest e st) as [r st2].
  destruct Hs as (_ & _ & _ & Hs), Hl as (_ & _ & Hl). split_and!.
  - intros H. by apply (Hs pid c).
  - intros H. by apply (Hl pid c).
  - destruct (running st); [|done]. intros H. split; [done|]. destruct r; by apply (Hl pid c).
  - by intros ->.
Qed.

(** the answers can be trusted: [stop] reports success exactly when no child
    runs any more, and on failure still holds the surviving one, which nothing
    else replaces; a reload reports success only with a running child started, with
    the guard's consent, on the configuration then on disk. *)
Theorem answers_are_true digest e st (Hr : reachable digest st) :
  (let '(b, st') := stop e st in
   want_running st'.1 = false /\
   if b then forall pid c, procs st'.2 !! pid <> Some (Alive c)
   else running st' = true /\ st'.2 = st.2 /\ proc st'.1 = proc st.1) /\
  (let '(r, st') := reload digest e st in
   r = inr true -> running st' = true /\ guard e = true /\
     forall pid c, procs st'.2 !! pid = Some (Alive c) -> c = on_disk e).
Proof.
  apply reachable_inv in Hr as Hi. split.
  - unfold stop. pose proof (stop_child_inv digest e (set_want false st.1, st.2)) as H.
    destruct (stop_child e _) as [b st']. destruct H as (_ & Hb & Hw & _); [destruct st; by eapply inv_fields|].
    split; [done|]. destruct b; [apply Hb|]. destruct Hb as [-> Hrun]. done.
  - pose proof (reload_inv digest e st Hi) as H. destruct (reload digest e st) as [r st'].
    destruct H as (_ & H & _). intros Hr'. destruct (H Hr') as (? & _ & ? & ?). done.
Qed.

(** ** A concrete run *)

Definition demo_digest (j : json) : string := match j with JObj [] => "empty" | _ => "other" end.
Definition demo_env : env := Env true (Some (CJson (JObj []))) Spawned (Some 0) (Some (-9)) (Some [PollNot; PollReady]).
Definition started : state_t := (start demo_digest demo_env init).2.

Lemma started_reachable : reachable demo_digest started.
Proof. eapply reach_step; [apply reach_init|]. apply (s_start demo_digest demo_env init). Qed.

Example one_child_witness :
  1 = 1 /\ proc started.1 = Some 1 /\ state started = "working" /\
  (forall dg, st_loaded_config_digest (status started).1 = Some dg ->
     exists kvs, Some (CJson (JObj [])) = Some (CJson (JObj kvs)) /\ dg = demo_digest (JObj kvs)).
Proof.
  apply (one_child demo_digest started 1 1 _ (Some (CJson (JObj []))));
    [apply started_reachable|reflexivity|reflexivity].
Defined.

Example start_guarded_witness :
  procs (reload demo_digest demo_env started).2.2 !! 2 = Some (Alive (Some (CJson (JObj [])))) /\
  guard demo_env = true.
Proof.
  split; [reflexivity|].
  apply (start_guarded demo_digest demo_env started 2 (Some (CJson (JObj []))));
    [apply started_reachable|discriminate|reflexivity].
Defined.

Example answers_are_true_witness :
  want_running (stop demo_env started).2.1 = false.
Proof.
  pose proof (answers_are_true demo_digest demo_env started started_reachable) as [H _].
  destruct (stop demo_env started) as [b st']. apply H.
Defined.

End OneChild.
