(* ===== verification/Config.v ===== *)
(** [config.Settings], the fields the modelled components read. *)
From Stdlib Require Import ZArith.
From stdpp Require Import base strings.
Open Scope string_scope.
Open Scope Z_scope.

Record settings := Settings {
  c_data_dir : string;
  c_tproxy_port : Z;
  c_tproxy_port6 : Z;
  c_fwmark : Z;
  c_egress_mark : Z;
  c_table : Z;
  c_segment_iface : string;
  c_segment_ip : string;
  c_segment_ip6 : string;
  c_dhcp_start : string;
  c_dhcp_end : string;
  c_dhcp_lease : string;
  c_client_dns : string;
  c_client_dns6 : string;
  c_dnsmasq_leases : string;
  c_mgmt_iface : string;
  c_mgmt_ip : string;
  c_lan_access : bool;
  c_doh_url : string;
  c_local_proxy_port : Z
}.

(** The dataclass defaults. *)
Definition default_settings : settings :=
  Settings "data" 52345 52346 64 128 100 "eth0.2" "192.168.10.2" "" "192.168.10.30" "192.168.10.200"
    "12h" "1.1.1.1" "2606:4700:4700::1111" "data/dnsmasq.leases" "eth0" "192.168.1.120" true
    "https://1.1.1.1/dns-query" 10808.
