(* ===== verification/Tuning.v ===== *)
(** [xray_config/tuning.py]: validation and resolution of tuning profiles.

    A validation error is a value of [profile_error]; the source formats it into a
    sentence. *)
From Stdlib Require Import ZArith Lia Ascii.
From stdpp Require Import base gmap strings list.
From S2P Require Import Prelude PyStr Models Store.
Open Scope string_scope.
Open Scope Z_scope.

Definition FP : list string :=
  ["chrome"; "firefox"; "safari"; "ios"; "android"; "edge"; "random"; "randomized";
   "randomizednoalpn"; ""].

(** [allow_range] admits ["a-b"] beside ["a"]. *)
Definition bounded_number (value : string) (minimum maximum : Z) (allow_range : bool) : bool :=
  let parts := split_on "-"%char value in
  if negb (bool_decide (length parts = 1%nat) || (allow_range && bool_decide (length parts = 2%nat))) then false
  else if negb (forallb all_digits parts) then false
  else match mapM py_int parts with
       | Some numbers =>
           forallb (fun n => (minimum <=? n) && (n <=? maximum)) numbers &&
           match numbers with
           | a :: _ => a <=? List.last numbers a
           | [] => false
           end
       | None => false
       end.

Inductive profile_error :=
  | BadQuic (v : string)
  | BadFingerprint (v : string)
  | BadFragment (field v : string)
  | BadDoh
  | BadNoise (field v : string)
  | BadKnob (field v : string).

(** One entry of [noises]. *)
Definition validate_noise (n : noise) : option profile_error :=
  if negb (bool_decide (noise_type n ∈ ["rand"; "str"; "base64"; "hex"])) then
    Some (BadNoise "type" (noise_type n))
  else if bool_decide (noise_type n = "rand") && negb (bool_decide (noise_packet n = "")) &&
          negb (bounded_number (noise_packet n) 1 65535 true) then
    Some (BadNoise "packet" (noise_packet n))
  else if negb (bool_decide (noise_delay n = "")) && negb (bounded_number (noise_delay n) 0 60000 true) then
    Some (BadNoise "delay" (noise_delay n))
  else None.

(** The first error of a list of checks. *)
Definition first_error {A} (f : A -> option profile_error) (l : list A) : option profile_error :=
  head (omap f l).

Definition validate_knob (k : string * string * Z * Z * bool) : option profile_error :=
  let '(fld, v, minimum, maximum, allow_range) := k in
  if negb (bool_decide (v = "")) && negb (bounded_number v minimum maximum allow_range)
  then Some (BadKnob fld v) else None.

Definition validate_fragment (p : profile) : option profile_error :=
  if negb (p_frag_enabled p) then None
  else if negb (bool_decide (p_frag_packets p = "tlshello") || bounded_number (p_frag_packets p) 1 65535 true)
  then Some (BadFragment "packets" (p_frag_packets p))
  else if negb (bounded_number (p_frag_length p) 1 65535 true)
  then Some (BadFragment "length" (p_frag_length p))
  else if negb (bounded_number (p_frag_interval p) 0 60000 true)
  then Some (BadFragment "interval" (p_frag_interval p))
  else None.

(** [None] is [(True, "")]. *)
Definition validate_profile (p : profile) : option profile_error :=
  if negb (bool_decide (p_quic p ∈ ["allow"; "drop"; "proxy"])) then Some (BadQuic (p_quic p))
  else if negb (bool_decide (p_fingerprint p ∈ FP)) then Some (BadFingerprint (p_fingerprint p))
  else match validate_fragment p with
  | Some e => Some e
  | None =>
      if negb (bool_decide (p_doh_url p = "")) &&
         (negb (startswith (p_doh_url p) "https://") ||
          bool_decide (str_drop (String.length "https://") (p_doh_url p) = ""))
      then Some BadDoh
      else match first_error validate_noise (p_noises p) with
      | Some e => Some e
      | None =>
          first_error validate_knob
            [("xhttp_padding", p_xhttp_padding p, 0, 1000000, true);
             ("xmux_max_concurrency", p_xmux_max_concurrency p, 0, 65535, true);
             ("xmux_max_connections", p_xmux_max_connections p, 0, 65535, true);
             ("mux_concurrency", p_mux_concurrency p, 1, 1024, false)]
      end
  end.

(** The profile that governs a node: its own, else the default; [int(did)] of a
    malformed default id raises. *)
Definition resolve_profile (n : node) (d : db) : exn + option profile :=
  let fallback :=
    match get_default_profile d with
    | Some p => inr p
    | None => inl (ValueError "invalid literal for int()")
    end in
  match n_tuning_profile_id n with
  | Some i => match get_profile i d with Some p => inr (Some p) | None => fallback end
  | None => fallback
  end.

(** * Lemmas *)

Lemma first_error_none {A} (f : A -> option profile_error) l :
  first_error f l = None -> forall x, x ∈ l -> f x = None.
Proof.
  unfold first_error. induction l as [|y l IH]; simpl; intros H x Hx; [by apply elem_of_nil in Hx|].
  destruct (f y) eqn:E; [done|]. apply elem_of_cons in Hx as [->|Hx]; [done|by apply IH].
Qed.

Lemma split_char_one p s x : split_char p s = [x] -> x = s.
Proof.
  revert x. induction s as [|c s IH]; simpl; intros x H; [by simplify_eq|].
  destruct (p c).
  - destruct (split_char p s) as [|y l] eqn:E; [|by simplify_eq]. by apply split_char_nonnil in E.
  - destruct (split_char p s) as [|y [|z l]] eqn:E; simplify_eq; [by apply split_char_nonnil in E|].
    by rewrite (IH y eq_refl).
Qed.

(** A value that passes without a range is a number. *)
Lemma bounded_number_int v lo hi :
  bounded_number v lo hi false = true -> exists z, py_int v = Some z /\ lo <= z <= hi.
Proof.
  unfold bounded_number. intros H.
  destruct (split_on "-" v) as [|x [|y l]] eqn:E; simpl in H; try done.
  unfold split_on in E. apply split_char_one in E as ->.
  destruct (all_digits v); simpl in H; [|done]. destruct (py_int v) as [z|]; simpl in H; [|done].
  exists z. split; [done|]. lia.
Qed.

(** What a validated profile guarantees its builder. *)
Lemma validate_profile_ok p :
  validate_profile p = None ->
  (p_doh_url p = "" \/ startswith (p_doh_url p) "https://" = true) /\
  (p_mux_concurrency p = "" \/ exists z, py_int (p_mux_concurrency p) = Some z /\ 1 <= z <= 1024).
Proof.
  unfold validate_profile. intros H.
  destruct (bool_decide (p_quic p ∈ _)); simpl in H; [|done].
  destruct (bool_decide (p_fingerprint p ∈ _)); simpl in H; [|done].
  destruct (validate_fragment p); [done|].
  destruct (negb (bool_decide (p_doh_url p = "")) && _) eqn:Ed; [done|].
  destruct (first_error validate_noise _); [done|]. split.
  - destruct (bool_decide_reflect (p_doh_url p = "")); [by left|right]. simpl in Ed.
    apply orb_false_iff in Ed as [Ed _]. by apply negb_false_iff in Ed.
  - pose proof (first_error_none _ _ H ("mux_concurrency", p_mux_concurrency p, 1, 1024, false)) as Hm.
    simpl in Hm. destruct (bool_decide_reflect (p_mux_concurrency p = "")); [by left|right].
    apply bounded_number_int. simpl in Hm.
    destruct (bounded_number (p_mux_concurrency p) 1 1024 false); [done|]. by discriminate Hm; set_solver.
Qed.
