(* ===== verification/Routing.v ===== *)
(** [xray_config/routing.py]: the presets, the validation of rules, and stored rules as
    xray routing rules.  [is_private] is the table of private ranges of [ipaddress]. *)
From Stdlib Require Import ZArith Lia Ascii.
From stdpp Require Import base gmap strings list.
From S2P Require Import Prelude PyStr Ip Models.
Open Scope string_scope.
Open Scope Z_scope.

(** [geo_data.EXT_FILES]; a missing key raises [KeyError]. *)
Definition EXT_FILES : list (string * list (string * string)) :=
  [("ru", [("geoip", "geoip_ru.dat"); ("geosite", "geosite_ru.dat")])].

Record preset := Preset {
  pr_title : string;
  pr_dataset : string;
  pr_default_action : string;
  pr_rules : list (string * string * string)
}.

Definition PRESETS : list (string * preset) :=
  [("ru-direct", Preset "RU-direct — keep Russian traffic off the tunnel" "" ""
      [("geoip", "ru", "direct"); ("geosite", "category-ru", "direct")]);
   ("block-ads", Preset "Block ads & trackers" "" "" [("geosite", "category-ads-all", "block")]);
   ("cn-direct", Preset "CN-direct — Chinese traffic off the tunnel" "" ""
      [("geoip", "cn", "direct"); ("geosite", "cn", "direct")]);
   ("lan-direct", Preset "LAN-direct — private ranges direct (explicit)" "" ""
      [("ip", "192.168.0.0/16", "direct"); ("ip", "10.0.0.0/8", "direct")]);
   ("ru-blocked-only", Preset "Only blocked-in-RU through the tunnel (needs the RU geo data)" "ru" "direct"
      [("geosite", "ru-blocked", "proxy"); ("geoip", "ru-blocked", "proxy")])].

Definition is_geo (t : string) : bool := bool_decide (t ∈ ["geoip"; "geosite"]).

Fixpoint number_rules (dataset : string) (i : Z) (l : list (string * string * string)) : list rule :=
  match l with
  | [] => []
  | (t, v, a) :: l' =>
      Rule None i t v a true "" (if is_geo t then dataset else "") :: number_rules dataset (i + 1) l'
  end.

Definition preset_rules (name : string) : option (list rule) :=
  (fun spec => number_rules (pr_dataset spec) 0 (pr_rules spec)) <$> assoc name PRESETS.

(** [re.split(r"[,\n]", value)], trimmed, the empty tokens dropped. *)
Definition is_sep (c : Ascii.ascii) : bool :=
  bool_decide (c = ","%char) || bool_decide (c = Ascii.ascii_of_nat 10).
Definition split_values (value : string) : list string :=
  filter (fun v => v <> "") (strip <$> split_char is_sep value).

(** * Validation *)

Definition TYPES : list string := ["geoip"; "geosite"; "domain"; "ip"; "port"; "device"].
Definition ACTIONS : list string := ["direct"; "proxy"; "block"].
(** The keys of [geo_data.DATASETS]. *)
Definition DATASETS : list string := ["stock"; "ru"].

Inductive rule_error :=
  | UnknownRuleType (t : string)
  | UnknownDataset (d : string)
  | DatasetOnLiterals (t : string)
  | UnknownAction (a : string)
  | EmptyValue
  | NotIPv4 (v : string)
  | DeviceIPv6
  | BadPort (v : string)
  | BadCidr (v : string)
  | ShadowedByPrivate (v : string).

(** The first value that is wrong. *)
Fixpoint first_bad (f : string -> option rule_error) (l : list string) : option rule_error :=
  match l with
  | [] => None
  | v :: l' => match f v with Some e => Some e | None => first_bad f l' end
  end.

Definition device_value (v : string) : option rule_error :=
  match ip_address v with
  | None => Some (NotIPv4 v)
  | Some (version, _) => if version =? 4 then None else Some DeviceIPv6
  end.

(** [re.fullmatch(r"\d{1,5}(-\d{1,5})?", v)] and the bounds. *)
Definition port_value (v : string) : option rule_error :=
  let parts := split_on "-"%char v in
  if negb (forallb (fun s => all_digits s && (String.length s <=? 5)%nat) parts && (length parts <=? 2)%nat)
  then Some (BadPort v)
  else match mapM py_int parts with
       | Some bounds =>
           let first := default 0 (head bounds) in
           if forallb (fun p => (1 <=? p) && (p <=? 65535)) bounds && (first <=? List.last bounds first)
           then None else Some (BadPort v)
       | None => Some (BadPort v)
       end.

Definition ip_value (v : string) : option rule_error :=
  match ip_network v with Some _ => None | None => Some (BadCidr v) end.

Section validation.
Context (is_private : ipnet -> bool).

Definition is_private_net (value : string) : bool :=
  match ip_network value with
  | None => false
  | Some n => is_private n || net_loopback n || net_link_local n
  end.

Definition shadowed_by_private (r : rule) (vals : list string) : option rule_error :=
  if bool_decide (r_action r = "direct") then None
  else if bool_decide (r_type r = "ip") then
    first_bad (fun v => if is_private_net v then Some (ShadowedByPrivate v) else None) vals
  else if bool_decide (r_type r = "geoip") then
    if existsb (fun v => bool_decide (lower v = "private")) vals then Some (ShadowedByPrivate "geoip:private") else None
  else None.

Definition validate_dataset (r : rule) : option rule_error :=
  if bool_decide (r_dataset r = "") then None
  else if negb (bool_decide (r_dataset r ∈ DATASETS)) || bool_decide (r_dataset r = "stock")
  then Some (UnknownDataset (r_dataset r))
  else if negb (is_geo (r_type r)) then Some (DatasetOnLiterals (r_type r)) else None.

Definition validate_values (r : rule) (vals : list string) : option rule_error :=
  if bool_decide (r_type r = "device") then first_bad device_value vals
  else if bool_decide (r_type r = "port") then first_bad port_value vals
  else if bool_decide (r_type r = "ip") then first_bad ip_value vals
  else None.

Definition validate_rule (r : rule) : option rule_error :=
  if negb (bool_decide (r_type r ∈ TYPES)) then Some (UnknownRuleType (r_type r))
  else match validate_dataset r with
  | Some e => Some e
  | None =>
      if negb (bool_decide (r_action r ∈ ACTIONS)) then Some (UnknownAction (r_action r))
      else
        let vals := split_values (r_value r) in
        if bool_decide (length vals = 0%nat) then Some EmptyValue
        else match validate_values r vals with
             | Some e => Some e
             | None => shadowed_by_private r vals
             end
  end.

(** [inr (i, e)]: rule [i] is wrong; [inl a]: an unknown default action. *)
Fixpoint validate_rules (i : Z) (rules : list rule) : option (Z * rule_error) :=
  match rules with
  | [] => None
  | r :: rules' => match validate_rule r with
                   | Some e => Some (i, e)
                   | None => validate_rules (i + 1) rules'
                   end
  end.

Definition validate_routing (rules : list rule) (default_action : string) : option (string + Z * rule_error) :=
  if negb (bool_decide (default_action ∈ ACTIONS)) then Some (inl default_action)
  else inr <$> validate_rules 1 rules.

Lemma validate_rules_ok i rules : validate_rules i rules = None -> Forall (fun r => validate_rule r = None) rules.
Proof.
  revert i. induction rules as [|r rules IH]; simpl; intros i E; [constructor|].
  destruct (validate_rule r) eqn:Er; [done|]. constructor; eauto.
Qed.

(** A rule that passed has a known type and action, and a dataset only where a file exists for it. *)
Lemma validate_rule_known r :
  validate_rule r = None -> r_type r ∈ TYPES /\ r_action r ∈ ACTIONS /\ (r_dataset r = "" \/ r_dataset r = "ru").
Proof.
  unfold validate_rule. case_bool_decide as Ht; simpl; [|done]. unfold validate_dataset.
  case_bool_decide as Hd; simpl.
  - case_bool_decide as Ha; simpl; [|done]. intros _. auto.
  - destruct (bool_decide_reflect (r_dataset r ∈ DATASETS)) as [Hin|]; simpl; [|done].
    case_bool_decide as Hs; [done|]. destruct (is_geo (r_type r)); simpl; [|done].
    case_bool_decide as Ha; simpl; [|done]. intros _. split_and!; [done..|]. right.
    unfold DATASETS in Hin. rewrite !elem_of_cons, elem_of_nil in Hin. by destruct Hin as [?|[?|[]]].
Qed.

End validation.

(** * Translation *)

Inductive routing_error := KeyError (key : string) | UnknownType (t : string).

Definition values_field (r : rule) : routing_error + list string :=
  let vals := split_values (r_value r) in
  if is_geo (r_type r) then
    if bool_decide (r_dataset r = "") then inr ((fun v => r_type r +:+ ":" +:+ v) <$> vals)
    else match assoc (r_dataset r) EXT_FILES ≫= assoc (r_type r) with
         | Some file => inr ((fun v => "ext:" +:+ file +:+ ":" +:+ v) <$> vals)
         | None => inl (KeyError (r_dataset r))
         end
  else inr vals.

Definition jstrs (l : list string) : json := JArr (JStr <$> l).

(** The matcher key and value a rule contributes. *)
Definition rule_matcher (r : rule) : routing_error + (string * json) :=
  if bool_decide (r_type r = "device") then inr ("source", jstrs (split_values (r_value r)))
  else if bool_decide (r_type r ∈ ["geoip"; "ip"]) then
    match values_field r with inr v => inr ("ip", jstrs v) | inl e => inl e end
  else if bool_decide (r_type r ∈ ["geosite"; "domain"]) then
    match values_field r with inr v => inr ("domain", jstrs v) | inl e => inl e end
  else if bool_decide (r_type r = "port") then inr ("port", JStr (join "," (split_values (r_value r))))
  else inl (UnknownType (r_type r)).

Definition rule_to_field (r : rule) : routing_error + json :=
  match rule_matcher r with
  | inr (k, v) => inr (JObj [("type", JStr "field"); ("outboundTag", JStr (r_action r)); (k, v)])
  | inl e => inl e
  end.

Definition private_rule : json :=
  JObj [("type", JStr "field"); ("ip", jstrs ["geoip:private"]); ("outboundTag", JStr "direct")].
Definition catch_all (action : string) : json :=
  JObj [("type", JStr "field"); ("network", JStr "tcp,udp"); ("outboundTag", JStr action)].

Fixpoint fields_of (rs : list rule) : routing_error + list json :=
  match rs with
  | [] => inr []
  | r :: rs' =>
      if r_enabled r then
        match rule_to_field r with
        | inl e => inl e
        | inr f => match fields_of rs' with inl e => inl e | inr fs => inr (f :: fs) end
        end
      else fields_of rs'
  end.

Definition rules_to_xray (rules : list rule) (default_action : string) : routing_error + list json :=
  match fields_of (stable_sort (fun a b => r_position a <=? r_position b) rules) with
  | inl e => inl e
  | inr fs => inr (private_rule :: (fs ++ [catch_all default_action])%list)
  end.
