(* ===== verification/Builder.v ===== *)
(** [xray_config/builder.py]: the xray configuration of a node.

    Python builds one dict and inserts into its lists; here the same sequence of
    insertions is applied to [parts] (the inbounds, the outbounds, the rules and the
    optional sections), assembled at the end in the dict's key order.  A [raise
    ValueError] is a value of [build_error]. *)
From Stdlib Require Import ZArith Lia Ascii.
From stdpp Require Import base gmap strings list.
From S2P Require Import Prelude PyStr Models Config Routing.
Open Scope string_scope.
Open Scope list_scope.
Open Scope Z_scope.

Definition LOOPBACK_NETS : list string :=
  ["0.0.0.0/8"; "127.0.0.0/8"; "169.254.0.0/16"; "::/128"; "::1/128"; "fe80::/10"].
Definition RW_TAG : string := "rw-in".
Definition DIRECT_LAN_TAG : string := "direct-lan".

(** The dict [rw_inbound.resolve] returns. *)
Record rw := Rw {
  rw_port : Z;
  rw_dest : string;
  rw_server_names : list string;
  rw_private_key : string;
  rw_short_ids : list string;
  rw_clients : list (string * string);
  rw_hosts : list (string * string)
}.

Definition sniffing (route_only : bool) : json :=
  JObj ([("enabled", JBool true); ("destOverride", jstrs ["http"; "tls"; "quic"])]
        ++ (if route_only then [("routeOnly", JBool true)] else [])).

Definition rw_inbound_block (r : rw) : json :=
  JObj [("tag", JStr RW_TAG); ("listen", JStr "0.0.0.0"); ("port", JNum (rw_port r));
        ("protocol", JStr "vless");
        ("settings", JObj
           [("clients", JArr ((fun c => JObj [("id", JStr c.1); ("flow", JStr "xtls-rprx-vision"); ("email", JStr c.2)])
                              <$> rw_clients r));
            ("decryption", JStr "none")]);
        ("streamSettings", JObj
           [("network", JStr "tcp"); ("security", JStr "reality");
            ("realitySettings", JObj
               [("show", JBool false); ("dest", JStr (rw_dest r)); ("xver", JNum 0);
                ("serverNames", jstrs (rw_server_names r)); ("privateKey", JStr (rw_private_key r));
                ("shortIds", jstrs (rw_short_ids r))])]);
        ("sniffing", sniffing true)].

(** A grant: its namespace and the value it names ([repr] of it in the source). *)
Definition grant : Type := string * option json.

Definition list_grants (key ns : string) (v : option json) : list grant :=
  match v with
  | Some (JArr vals) => (fun x => (ns, Some x)) <$> vals
  | _ => [(key, v)]
  end.

Definition rw_grants (block : json) : list grant :=
  match block with
  | JObj _ =>
      let clients := jget "settings" block ≫= jget "clients" in
      let reality := match jget "streamSettings" block ≫= jget "realitySettings" with
                     | Some (JObj kvs) => JObj kvs
                     | _ => JObj []
                     end in
      [("port", jget "port" block)]
      ++ match clients with
         | Some (JArr cs) => (fun c => ("client", if is_obj c then jget "id" c else Some c)) <$> cs
         | _ => [("clients", clients)]
         end
      ++ [("privateKey", jget "privateKey" reality); ("dest", jget "dest" reality)]
      ++ list_grants "shortIds" "shortId" (jget "shortIds" reality)
      ++ list_grants "serverNames" "serverName" (jget "serverNames" reality)
  | _ => []
  end.

Definition mark_opt (s : settings) : json := JObj [("sockopt", JObj [("mark", JNum (c_egress_mark s))])].

Definition rw_lan_outbound (s : settings) : json :=
  JObj [("tag", JStr DIRECT_LAN_TAG); ("protocol", JStr "freedom");
        ("settings", JObj [("domainStrategy", JStr "UseIP")]); ("streamSettings", mark_opt s)].

Definition rw_lan_rule (hosts : list (string * string)) : json :=
  JObj [("type", JStr "field");
        ("domain", jstrs ((fun n => "full:" +:+ n) <$> stable_sort String.leb hosts.*1));
        ("outboundTag", JStr DIRECT_LAN_TAG)].

Inductive build_error :=
  | PlaintextDoh (url : string)
  | BadCipher (method : string)
  | BadSecurity (security : string)
  | BadConcurrency (v : string)
  | BadRouting (e : routing_error).

(** [(protocol, settings)]; the address can be overridden. *)
Definition proxy_settings (n : node) (address : option string) : build_error + string * json :=
  let addr := address or n_address n in
  if bool_decide (n_protocol n = "trojan") then
    inr ("trojan", JObj [("servers", JArr [JObj [("address", JStr addr); ("port", JNum (n_port n));
                                               ("password", JStr (n_password n))]])])
  else if bool_decide (n_protocol n = "shadowsocks") then
    if negb (bool_decide (n_method n ∈ SS_METHODS)) then inl (BadCipher (n_method n))
    else inr ("shadowsocks", JObj [("servers", JArr [JObj [("address", JStr addr); ("port", JNum (n_port n));
                                               ("method", JStr (n_method n)); ("password", JStr (n_password n))]])])
  else
    let user := JObj ([("id", JStr (n_uuid n)); ("encryption", JStr "none")]
                      ++ (if bool_decide (n_flow n = "") then [] else [("flow", JStr (n_flow n))])) in
    inr ("vless", JObj [("vnext", JArr [JObj [("address", JStr addr); ("port", JNum (n_port n));
                                            ("users", JArr [user])]])]).

Definition security_choices (n : node) : list string :=
  if bool_decide (n_protocol n = "shadowsocks") then ["none"] else ["reality"; "tls"].

(** A key of a dict that is only set when the string is not empty. *)
Definition opt_str (k v : string) : list (string * json) :=
  if bool_decide (v = "") then [] else [(k, JStr v)].

(** An optional profile's field, [""] without a profile. *)
Definition pfield (f : profile -> string) (p : option profile) : string := from_option f "" p.

Section build.
Context (n : node) (s : settings) (p : option profile).
Context (routing : option (list rule * string)) (tunneled_fetch : bool) (stats : option Z).
Context (dns_intercept : bool) (domain_strategy : string) (ipv6_tproxy profile_explicit : bool).
Context (r : option rw).

Definition fingerprint : string :=
  match p with
  | Some q => if profile_explicit then p_fingerprint q else n_fingerprint n
  | None => n_fingerprint n
  end.

Definition doh_on : bool := match p with Some q => p_doh_enabled q | None => true end.
Definition doh_url : string :=
  match p with
  | Some q => if bool_decide (p_doh_url q = "") then c_doh_url s else p_doh_url q
  | None => c_doh_url s
  end.

Definition dns_servers : build_error + list json :=
  if dns_intercept || doh_on then
    if startswith doh_url "https://" then inr [JObj [("address", JStr doh_url)]] else inl (PlaintextDoh doh_url)
  else inr [JStr "localhost"].

Definition node_network : string := if bool_decide (n_network n = "") then "tcp" else n_network n.
Definition node_security : string := if bool_decide (n_security n = "") then "reality" else n_security n.

(** [[a.strip() for a in alpn.split(",") if a.strip()]] *)
Definition alpn_list (alpn : string) : list string :=
  filter (fun a => a <> "") (strip <$> split_on ","%char alpn).

Definition tls_settings : json :=
  let alpn := if profile_explicit && negb (bool_decide (pfield p_alpn p = "")) then pfield p_alpn p else n_alpn n in
  JObj ([("serverName", JStr (n_sni n)); ("fingerprint", JStr fingerprint)]
        ++ (if bool_decide (alpn = "") then [] else [("alpn", jstrs (alpn_list alpn))])
        ++ opt_str "minVersion" (pfield p_tls_min p) ++ opt_str "maxVersion" (pfield p_tls_max p)).

Definition xhttp_settings : json :=
  let xmux := opt_str "maxConcurrency" (pfield p_xmux_max_concurrency p)
              ++ opt_str "maxConnections" (pfield p_xmux_max_connections p) in
  let extra := opt_str "xPaddingBytes" (pfield p_xhttp_padding p)
               ++ (if bool_decide (length xmux = 0%nat) then [] else [("xmux", JObj xmux)]) in
  JObj (opt_str "path" (n_path n) ++ opt_str "host" (n_host n) ++ opt_str "mode" (n_mode n)
        ++ (if bool_decide (length extra = 0%nat) then [] else [("extra", JObj extra)])).

(** The fragment outbound exists. *)
Definition has_fragment : bool :=
  match p with
  | Some q => p_frag_enabled q || (p_noise_enabled q && negb (bool_decide (length (p_noises q) = 0%nat)))
  | None => false
  end.

Definition stream : json :=
  JObj ([("network", JStr node_network); ("security", JStr node_security);
         ("sockopt", JObj ([("mark", JNum (c_egress_mark s))]
                           ++ (if has_fragment then [("dialerProxy", JStr "fragment")] else [])))]
        ++ (if bool_decide (node_security = "reality") then
              [("realitySettings", JObj [("serverName", JStr (n_sni n)); ("fingerprint", JStr fingerprint);
                                         ("publicKey", JStr (n_public_key n)); ("shortId", JStr (n_short_id n))])]
            else if bool_decide (node_security = "tls") then [("tlsSettings", tls_settings)]
            else [])
        ++ (if bool_decide (node_network = "xhttp") then [("xhttpSettings", xhttp_settings)] else [])).

(** The [mux] key of the proxy outbound. *)
Definition mux : build_error + list (string * json) :=
  match p with
  | Some q =>
      if bool_decide (n_flow n = "") && negb (bool_decide (n_protocol n = "shadowsocks")) then
        match (if p_mux_enabled q && negb (bool_decide (strip (p_mux_concurrency q) = ""))
               then (fun c => [("concurrency", JNum c)]) <$> py_int (p_mux_concurrency q)
               else Some []) with
        | None => inl (BadConcurrency (p_mux_concurrency q))
        | Some conc =>
            inr [("mux", JObj ([("enabled", JBool (p_mux_enabled q))] ++ conc
                   ++ (if p_mux_enabled q then opt_str "xudpProxyUDP443" (p_xudp_proxy_udp443 q) else [])))]
        end
      else inr []
  | None => inr []
  end.

Definition noise_json (x : noise) : json :=
  JObj (opt_str "type" (noise_type x) ++ opt_str "packet" (noise_packet x) ++ opt_str "delay" (noise_delay x)).

Definition fragment_outbound (q : profile) : json :=
  JObj [("tag", JStr "fragment"); ("protocol", JStr "freedom");
        ("settings", JObj
           ((if p_frag_enabled q then
               [("fragment", JObj [("packets", JStr (p_frag_packets q)); ("length", JStr (p_frag_length q));
                                   ("interval", JStr (p_frag_interval q))])]
             else [])
            ++ (if p_noise_enabled q && negb (bool_decide (length (p_noises q) = 0%nat))
                then [("noises", JArr (noise_json <$> p_noises q))] else [])));
        ("streamSettings", mark_opt s)].

Definition tproxy_inbound (tag : string) (listen : list (string * json)) (port : Z) : json :=
  JObj ([("tag", JStr tag); ("protocol", JStr "dokodemo-door")] ++ listen ++
        [("port", JNum port); ("settings", JObj [("network", JStr "tcp,udp"); ("followRedirect", JBool true)]);
         ("sniffing", sniffing false);
         ("streamSettings", JObj [("sockopt", JObj [("tproxy", JStr "tproxy"); ("mark", JNum (c_egress_mark s))])])]).

Definition inbounds : list json :=
  [tproxy_inbound "tproxy-in" [] (c_tproxy_port s)]
  ++ (if ipv6_tproxy then [tproxy_inbound "tproxy-in6" [("listen", JStr "::")] (c_tproxy_port6 s)] else [])
  ++ (match stats with
      | Some port => [JObj [("tag", JStr "api"); ("protocol", JStr "dokodemo-door"); ("listen", JStr "127.0.0.1");
                            ("port", JNum port); ("settings", JObj [("address", JStr "127.0.0.1")])]]
      | None => []
      end)
  ++ (if tunneled_fetch then
        [JObj [("tag", JStr "sub-fetch"); ("protocol", JStr "http"); ("listen", JStr "127.0.0.1");
               ("port", JNum (c_local_proxy_port s)); ("settings", JObj [])]]
      else [])
  ++ (match r with Some x => [rw_inbound_block x] | None => [] end).

Definition lan_hosts : list (string * string) := from_option rw_hosts [] r.

Definition outbounds (protocol : string) (settings_block : json) (mux_kv : list (string * json)) : list json :=
  [JObj ([("tag", JStr "proxy"); ("protocol", JStr protocol); ("settings", settings_block);
          ("streamSettings", stream)] ++ mux_kv)]
  ++ (match p with Some q => if has_fragment then [fragment_outbound q] else [] | None => [] end)
  ++ [JObj [("tag", JStr "direct"); ("protocol", JStr "freedom"); ("settings", JObj []);
            ("streamSettings", mark_opt s)];
      JObj [("tag", JStr "block"); ("protocol", JStr "blackhole"); ("settings", JObj [])]]
  ++ (if dns_intercept then [JObj [("protocol", JStr "dns"); ("tag", JStr "dns-out")]] else [])
  ++ (if bool_decide (length lan_hosts = 0%nat) then [] else [rw_lan_outbound s]).

(** [r.get("ip") == ["geoip:private"] and r.get("outboundTag") == "direct"] *)
Definition is_private_rule (j : json) : bool :=
  match jget "ip" j, jget "outboundTag" j with
  | Some (JArr [JStr x]), Some (JStr t) => bool_decide (x = "geoip:private") && bool_decide (t = "direct")
  | _, _ => false
  end.

(** Insertion after the first private rule, in front without one. *)
Fixpoint insert_after_private (x : json) (l : list json) : option (list json) :=
  match l with
  | [] => None
  | y :: l' => if is_private_rule y then Some (y :: x :: l')
               else (fun m => y :: m) <$> insert_after_private x l'
  end.

Definition quic_rule (tag : string) : json :=
  JObj [("type", JStr "field"); ("protocol", jstrs ["quic"]); ("outboundTag", JStr tag)].

Definition add_quic (l : list json) : list json :=
  match p with
  | Some q =>
      if bool_decide (p_quic q ∈ ["drop"; "proxy"]) then
        let x := quic_rule (if bool_decide (p_quic q = "drop") then "block" else "proxy") in
        default (x :: l) (insert_after_private x l)
      else l
  | None => l
  end.

Definition add_dns (l : list json) : list json :=
  if dns_intercept then
    JObj [("type", JStr "field"); ("inboundTag", jstrs (if ipv6_tproxy then ["tproxy-in"; "tproxy-in6"] else ["tproxy-in"]));
          ("port", JNum 53); ("outboundTag", JStr "dns-out")] :: l
  else l.

Definition add_api (l : list json) : list json :=
  match stats with
  | Some _ => JObj [("type", JStr "field"); ("inboundTag", jstrs ["api"]); ("outboundTag", JStr "api")] :: l
  | None => l
  end.

(** [rlist.insert(len(rlist) - 1, x)] *)
Definition insert_before_last (x : json) (l : list json) : list json :=
  take (length l - 1) l ++ [x] ++ drop (length l - 1) l.

Definition add_lan (l : list json) : list json :=
  if bool_decide (length lan_hosts = 0%nat) then l else insert_before_last (rw_lan_rule lan_hosts) l.

Definition client_facing : list string :=
  ["tproxy-in"] ++ (if ipv6_tproxy then ["tproxy-in6"] else []) ++ (if r then [RW_TAG] else []).

Definition loopback_block : json :=
  JObj [("type", JStr "field"); ("inboundTag", jstrs client_facing); ("ip", jstrs LOOPBACK_NETS);
        ("outboundTag", JStr "block")].

Definition rules : build_error + list json :=
  let base := match routing with
              | None => inr [private_rule; catch_all "proxy"]
              | Some (rs, action) => rules_to_xray rs action
              end in
  match base with
  | inl e => inl (BadRouting e)
  | inr l => inr (loopback_block :: add_lan (add_api (add_dns (add_quic l))))
  end.

Definition build_config : build_error + json :=
  match dns_servers with
  | inl e => inl e
  | inr servers =>
  match proxy_settings n None with
  | inl e => inl e
  | inr (protocol, block) =>
  if negb (bool_decide (node_security ∈ security_choices n)) then inl (BadSecurity node_security)
  else
  match mux with
  | inl e => inl e
  | inr mux_kv =>
  match rules with
  | inl e => inl e
  | inr rl =>
      inr (JObj
        ([("log", JObj [("loglevel", JStr "warning"); ("access", JStr "none")]);
          ("dns", JObj ([("servers", JArr servers)]
                        ++ (if bool_decide (length lan_hosts = 0%nat) then []
                            else [("hosts", JObj ((fun h => (h.1, JStr h.2)) <$> lan_hosts))])));
          ("inbounds", JArr inbounds);
          ("outbounds", JArr (outbounds protocol block mux_kv));
          ("routing", JObj [("domainStrategy", JStr domain_strategy); ("rules", JArr rl)])]
         ++ (match stats with
             | Some _ =>
                 [("stats", JObj []);
                  ("policy", JObj [("system", JObj [("statsOutboundUplink", JBool true);
                                                    ("statsOutboundDownlink", JBool true)])]);
                  ("api", JObj [("tag", JStr "api"); ("services", jstrs ["StatsService"; "RoutingService"])])]
             | None => []
             end)))
  end end end end.

End build.
