(* ===== verification/BuilderProps.v ===== *)
(** What every configuration the panel writes guarantees: no client-facing inbound
    reaches the gateway's own services, DNS is encrypted unless switched off,
    the tunnel is never plaintext, xray's own traffic is marked, the QUIC switch
    cannot be overridden by a rule, remote access grants exactly what the store
    lists; and that valid stored data always builds. *)
From Stdlib Require Import ZArith Lia Ascii.
From stdpp Require Import base gmap strings list.
From S2P Require Import Prelude PyStr Models Config Store Tuning Routing Builder.
Open Scope string_scope.
Open Scope list_scope.
Open Scope Z_scope.

(** * Reading a configuration *)

Definition jlist (o : option json) : list json := match o with Some (JArr l) => l | _ => [] end.
Definition cfg_inbounds (cfg : json) : list json := jlist (jget "inbounds" cfg).
Definition cfg_outbounds (cfg : json) : list json := jlist (jget "outbounds" cfg).
Definition cfg_rules (cfg : json) : list json := jlist (jget "routing" cfg ≫= jget "rules").
Definition cfg_servers (cfg : json) : list json := jlist (jget "dns" cfg ≫= jget "servers").
Definition tags_of (rule : json) : list string :=
  omap (fun j => match j with JStr t => Some t | _ => None end) (jlist (jget "inboundTag" rule)).

Definition tagged (t : string) (j : json) : bool :=
  match jget "tag" j with Some (JStr x) => bool_decide (x = t) | _ => false end.

Lemma jlist_strs (l : list string) : omap (fun j => match j with JStr t => Some t | _ => None end) (JStr <$> l) = l.
Proof. induction l; simpl; [done|]. by f_equal. Qed.

Section facts.
Context (n : node) (s : settings) (p : option profile).
Context (routing : option (list rule * string)) (tunneled_fetch : bool) (stats : option Z).
Context (dns_intercept : bool) (domain_strategy : string) (ipv6_tproxy profile_explicit : bool).
Context (r : option rw).

Notation build := (build_config n s p routing tunneled_fetch stats dns_intercept domain_strategy
                     ipv6_tproxy profile_explicit r).

(** The parts of a configuration that was built. *)
Lemma build_parts cfg : build = inr cfg ->
  exists servers protocol block mux_kv rl,
    dns_servers s p dns_intercept = inr servers /\ proxy_settings n None = inr (protocol, block) /\
    node_security n ∈ security_choices n /\ mux n p = inr mux_kv /\
    rules p routing stats dns_intercept ipv6_tproxy r = inr rl /\
    cfg_servers cfg = servers /\ cfg_rules cfg = rl /\
    cfg_inbounds cfg = inbounds s tunneled_fetch stats ipv6_tproxy r /\
    cfg_outbounds cfg = outbounds n s p dns_intercept profile_explicit r protocol block mux_kv.
Proof.
  unfold build_config. intros H.
  destruct (dns_servers _ _ _) as [|servers] eqn:E1; [done|].
  destruct (proxy_settings n None) as [|[protocol block]] eqn:E2; [done|].
  destruct (bool_decide_reflect (node_security n ∈ security_choices n)) as [E3|]; simpl in H; [|done].
  destruct (mux n p) as [|mux_kv] eqn:E4; [done|].
  destruct (rules _ _ _ _ _ _) as [|rl] eqn:E5; [done|]. injection H as <-.
  exists servers, protocol, block, mux_kv, rl. split_and!; try done.
Qed.

(** An inbound only the gateway itself reaches, or one the first rule names. *)
Definition covered (ib : json) : Prop :=
  jget "listen" ib = Some (JStr "127.0.0.1") \/
  exists tag, jget "tag" ib = Some (JStr tag) /\ tag ∈ tags_of (loopback_block ipv6_tproxy r).

Lemma inbounds_covered : Forall covered (inbounds s tunneled_fetch stats ipv6_tproxy r).
Proof.
  assert (forall tag ib, jget "tag" ib = Some (JStr tag) -> tag ∈ client_facing ipv6_tproxy r -> covered ib) as Hc.
  { intros tag ib Ht Hin. right. exists tag. split; [done|]. unfold tags_of. simpl. by rewrite jlist_strs. }
  unfold inbounds. rewrite !Forall_app. split_and!.
  - apply Forall_singleton. eapply Hc; [done|]. by left.
  - destruct ipv6_tproxy eqn:E; [|constructor]. apply Forall_singleton. eapply Hc; [done|].
    unfold client_facing. right. by left.
  - destruct stats; [|constructor]. apply Forall_singleton. by left.
  - destruct tunneled_fetch; [|constructor]. apply Forall_singleton. by left.
  - destruct r as [x|]; [|constructor]. apply Forall_singleton. eapply Hc; [done|].
    unfold client_facing. destruct ipv6_tproxy; simpl; set_solver.
Qed.

(** whatever the node, the profile and the routing rules, the first routing
    rule blocks the loopback and unspecified ranges for every inbound that is not
    itself bound to loopback, so nothing a client sends reaches the unauthenticated
    services of the gateway, and no user rule can come first. *)
Theorem loopback_blocked_first cfg (H : build = inr cfg) :
  exists rest, cfg_rules cfg = loopback_block ipv6_tproxy r :: rest /\
    jget "outboundTag" (loopback_block ipv6_tproxy r) = Some (JStr "block") /\
    jget "ip" (loopback_block ipv6_tproxy r) = Some (jstrs LOOPBACK_NETS) /\
    (forall ib, ib ∈ cfg_inbounds cfg -> covered ib).
Proof.
  destruct (build_parts cfg H) as (_ & _ & _ & _ & rl & _ & _ & _ & _ & Hr & _ & -> & -> & _).
  unfold rules in Hr. destruct routing as [[rs a]|]; [destruct (rules_to_xray rs a)|]; simplify_eq;
    (eexists; split; [done|split; [done|split; [done|]]]); apply Forall_forall, inbounds_covered.
Qed.

(** names are resolved through one DNS-over-HTTPS server, never through a
    plaintext one beside it; the host resolver is used only when the operator's
    profile switched DoH off and the gateway does not intercept DNS. *)
Theorem dns_encrypted cfg (H : build = inr cfg) :
  (exists url, cfg_servers cfg = [JObj [("address", JStr url)]] /\ startswith url "https://" = true) \/
  (cfg_servers cfg = [JStr "localhost"] /\ dns_intercept = false /\
   exists q, p = Some q /\ p_doh_enabled q = false).
Proof.
  destruct (build_parts cfg H) as (servers & _ & _ & _ & _ & Hd & _ & _ & _ & _ & -> & _).
  unfold dns_servers in Hd. destruct (dns_intercept || doh_on p) eqn:E.
  - destruct (startswith (doh_url s p) "https://") eqn:Es; simplify_eq. left. eauto.
  - simplify_eq. right. apply orb_false_iff in E as [-> E]. split_and!; try done.
    unfold doh_on in E. destruct p as [q|]; [eauto|done].
Qed.

(** The AEAD ciphers of Shadowsocks. *)
Definition AEAD : list string :=
  ["aes-128-gcm"; "aes-256-gcm"; "chacha20-poly1305"; "chacha20-ietf-poly1305"; "xchacha20-poly1305";
   "2022-blake3-aes-128-gcm"; "2022-blake3-aes-256-gcm"; "2022-blake3-chacha20-poly1305"].

(** What an outbound says about its encryption: a VLESS or Trojan one is in TLS, with settings that name the
    server and do not switch the verification of certificates off, or in Reality, with settings that name the
    server and its public key; a Shadowsocks one has a single server with an AEAD cipher. *)
Definition encrypted (server_name public_key : string) (ob : json) : Prop :=
  (exists protocol stream, jget "protocol" ob = Some (JStr protocol) /\ protocol ∈ ["vless"; "trojan"] /\
     jget "streamSettings" ob = Some stream /\
     ((exists tls, jget "security" stream = Some (JStr "tls") /\ jget "tlsSettings" stream = Some tls /\
         jget "serverName" tls = Some (JStr server_name) /\ jget "allowInsecure" tls = None) \/
      (exists reality, jget "security" stream = Some (JStr "reality") /\ jget "realitySettings" stream = Some reality /\
         jget "serverName" reality = Some (JStr server_name) /\ jget "publicKey" reality = Some (JStr public_key)))) \/
  (jget "protocol" ob = Some (JStr "shadowsocks") /\
   exists server method, (jget "settings" ob ≫= jget "servers") = Some (JArr [server]) /\ jget "method" server = Some (JStr method) /\ method ∈ AEAD).

Lemma jget_app k (l1 l2 : list (string * json)) : jget k (JObj (l1 ++ l2)) = match jget k (JObj l1) with Some v => Some v | None => jget k (JObj l2) end.
Proof. induction l1 as [|[x v] l1 IH]; [done|]. simpl in *. case_decide; [done|exact IH]. Qed.
Lemma opt_str_other k k' v : k <> k' -> jget k (JObj (opt_str k' v)) = None.
Proof. intros Hne. unfold opt_str. case_bool_decide; [done|]. simpl. by rewrite decide_False. Qed.

Lemma tls_settings_strict : jget "serverName" (tls_settings n p profile_explicit) = Some (JStr (n_sni n)) /\ jget "allowInsecure" (tls_settings n p profile_explicit) = None.
Proof.
  unfold tls_settings. split; [done|]. rewrite !jget_app. rewrite !opt_str_other by done. simpl. by case_bool_decide.
Qed.

(** C39: the tunnel is never plaintext.  The first outbound of every configuration that is built, the one tagged
    proxy, is VLESS or Trojan in TLS (certificates verified) or in Reality, to the node's server name and
    public key, or Shadowsocks with an AEAD cipher: what the emitted JSON itself says. *)
Theorem tunnel_never_plaintext cfg (H : build = inr cfg) :
  exists proxy rest, cfg_outbounds cfg = proxy :: rest /\ jget "tag" proxy = Some (JStr "proxy") /\
    encrypted (n_sni n) (n_public_key n) proxy.
Proof.
  destruct (build_parts cfg H) as (_ & protocol & block & mux_kv & _ & _ & Hp & Hs & _ & _ & _ & _ & _ & ->).
  eexists _, _. split; [done|]. split; [done|].
  unfold security_choices in Hs. unfold proxy_settings in Hp.
  destruct (bool_decide_reflect (n_protocol n = "shadowsocks")) as [E|E].
  - right. rewrite bool_decide_eq_false_2 in Hp by (rewrite E; done). simpl in Hp.
    destruct (bool_decide_reflect (n_method n ∈ SS_METHODS)) as [Hm|]; simpl in Hp; [|done]. injection Hp as <- <-. split; [done|].
    eexists _, (n_method n). split; [done|]. split; [done|]. exact Hm.
  - left. exists protocol, (stream n s p profile_explicit). split; [done|]. split.
    { destruct (bool_decide (n_protocol n = "trojan")); injection Hp as <- _; set_solver. }
    split; [done|]. apply elem_of_cons in Hs as [Hs|Hs%list_elem_of_singleton]; [right|left].
    + eexists. unfold stream. rewrite Hs. simpl. done.
    + exists (tls_settings n p profile_explicit). unfold stream. rewrite Hs. simpl. split_and!; [done|done|apply tls_settings_strict..].
Qed.

(** An outbound that dials: it carries the mark the firewall lets out. *)
Definition marked (ob : json) : Prop :=
  ((jget "streamSettings" ob ≫= jget "sockopt") ≫= jget "mark") = Some (JNum (c_egress_mark s)).

(** every outbound that opens connections carries the egress mark the
    firewall exempts, so xray's own traffic is never redirected back into xray; the
    other two, the blackhole and the resolver, open none. *)
Theorem outbounds_marked cfg ob (H : build = inr cfg) (Ho : ob ∈ cfg_outbounds cfg) :
  marked ob \/ jget "protocol" ob = Some (JStr "blackhole") \/ jget "protocol" ob = Some (JStr "dns").
Proof.
  destruct (build_parts cfg H) as (_ & protocol & block & mux_kv & _ & _ & _ & _ & _ & _ & _ & _ & _ & E).
  rewrite E in Ho. unfold outbounds in Ho. rewrite !elem_of_app in Ho.
  destruct Ho as [Ho|[Ho|[Ho|[Ho|Ho]]]].
  - apply list_elem_of_singleton in Ho as ->. by left.
  - destruct p as [q|]; [|by apply elem_of_nil in Ho]. destruct (has_fragment _); [|by apply elem_of_nil in Ho].
    apply list_elem_of_singleton in Ho as ->. by left.
  - apply elem_of_cons in Ho as [->|Ho]; [by left|]. apply list_elem_of_singleton in Ho as ->. auto.
  - destruct dns_intercept; [|by apply elem_of_nil in Ho]. apply list_elem_of_singleton in Ho as ->. auto.
  - destruct (bool_decide _); [by apply elem_of_nil in Ho|]. apply list_elem_of_singleton in Ho as ->. by left.
Qed.

(** The rules of the panel itself that may come before the QUIC rule. *)
Definition system_rule (j : json) : Prop :=
  j = loopback_block ipv6_tproxy r \/ j = private_rule \/
  jget "outboundTag" j = Some (JStr "dns-out") \/ jget "outboundTag" j = Some (JStr "api").

Ltac system_rules :=
  repeat first [apply Forall_nil_2 | apply Forall_cons_2; [unfold system_rule; simpl; auto|]].

Lemma base_private l :
  match routing with None => inr [private_rule; catch_all "proxy"] | Some (rs, a) => rules_to_xray rs a end = inr l ->
  exists l' , l = private_rule :: l' /\ l' <> [].
Proof.
  destruct routing as [[rs a]|]; [|intros [= <-]; eauto]. unfold rules_to_xray.
  destruct (fields_of _) as [e|fs]; intros; simplify_eq. exists (fs ++ [catch_all a]). split; [done|].
  by destruct fs.
Qed.

(** Inserting before the last rule leaves the rules in front alone. *)
Lemma insert_before_last_app x pre y l : l <> [] ->
  insert_before_last x (pre ++ y :: l) = pre ++ y :: insert_before_last x l.
Proof.
  intros Hl. unfold insert_before_last. rewrite !length_app; simpl.
  replace (length pre + S (length l) - 1)%nat with (length pre + S (length l - 1))%nat.
  2: { destruct l; [done|]. simpl. lia. }
  rewrite take_app_add, drop_app_add. simpl. by rewrite <- (assoc_L (++)).
Qed.

(** the QUIC switch cannot be overridden: when a profile drops QUIC or sends
    it to the tunnel, that rule stands before every rule of the user and after rules
    of the panel only (loopback block, api, intercepted DNS, private ranges). *)
Theorem quic_before_user_rules cfg q (H : build = inr cfg) (Hp : p = Some q)
    (Hq : p_quic q = "drop" \/ p_quic q = "proxy") :
  exists pre rest, cfg_rules cfg = pre ++ quic_rule (if bool_decide (p_quic q = "drop") then "block" else "proxy") :: rest /\
    Forall system_rule pre.
Proof.
  destruct (build_parts cfg H) as (_ & _ & _ & _ & rl & _ & _ & _ & _ & Hr & _ & -> & _).
  unfold rules in Hr. pose proof base_private as Hb.
  destruct (match routing with None => _ | Some _ => _ end) as [|base]; [done|].
  destruct (Hb base eq_refl) as (l & -> & Hl). injection Hr as <-. rewrite Hp.
  unfold add_quic. rewrite bool_decide_eq_true_2 by (destruct Hq as [-> | ->]; set_solver). simpl.
  set (x := quic_rule _).
  assert (exists pre, add_api stats (add_dns dns_intercept ipv6_tproxy (private_rule :: x :: l)) = pre ++ x :: l /\
            Forall system_rule pre) as (pre & -> & Hpre).
  { unfold add_api, add_dns. destruct stats, dns_intercept; simpl.
    - eexists [_; _; _]. split; [done|]. system_rules.
    - eexists [_; _]. split; [done|]. system_rules.
    - eexists [_; _]. split; [done|]. system_rules.
    - eexists [_]. split; [done|]. system_rules. }
  assert (system_rule (loopback_block ipv6_tproxy r)) as Hlb by (by left).
  unfold add_lan. case_bool_decide.
  - exists (loopback_block ipv6_tproxy r :: pre), l. split; [done|]. by constructor.
  - rewrite insert_before_last_app by done. eexists (loopback_block ipv6_tproxy r :: pre), _. split; [done|].
    by constructor.
Qed.

(** remote access grants exactly what it was built from: without it there is
    no such inbound; with it there is one, and what that inbound grants is the port,
    the listed client ids, the key, the destination, the short ids and the server
    names of the store, and nothing else. *)
Theorem rw_grants_exact cfg (H : build = inr cfg) :
  filter (fun ib => tagged RW_TAG ib = true) (cfg_inbounds cfg) =
    match r with Some x => [rw_inbound_block x] | None => [] end /\
  forall x, rw_grants (rw_inbound_block x) =
    [("port", Some (JNum (rw_port x)))]
    ++ ((fun c => ("client", Some (JStr c.1))) <$> rw_clients x)
    ++ [("privateKey", Some (JStr (rw_private_key x))); ("dest", Some (JStr (rw_dest x)))]
    ++ ((fun i => ("shortId", Some (JStr i))) <$> rw_short_ids x)
    ++ ((fun i => ("serverName", Some (JStr i))) <$> rw_server_names x).
Proof.
  split.
  - destruct (build_parts cfg H) as (_ & _ & _ & _ & _ & _ & _ & _ & _ & _ & _ & _ & -> & _).
    unfold inbounds. destruct ipv6_tproxy, stats, tunneled_fetch, r; reflexivity.
  - intros x. unfold rw_grants, list_grants; simpl. by rewrite <- !list_fmap_compose.
Qed.
End facts.

(** * Valid data always builds *)

(** What matters of a validated rule here: a known type, and a geo dataset only where a file
    exists for it. *)
Definition rule_ok (x : rule) : Prop :=
  r_type x ∈ ["geoip"; "geosite"; "domain"; "ip"; "port"; "device"] /\
  (r_dataset x = "" \/ r_dataset x = "ru").

Lemma rule_to_field_ok x : rule_ok x -> exists j, rule_to_field x = inr j.
Proof.
  intros [Ht Hd]. unfold rule_to_field, rule_matcher, values_field, is_geo.
  rewrite !elem_of_cons, elem_of_nil in Ht.
  destruct Ht as [->|[->|[->|[->|[->|[->|[]]]]]]], Hd as [-> | ->]; simpl; eauto.
Qed.

Lemma fields_of_ok l : Forall rule_ok l -> exists fs, fields_of l = inr fs.
Proof.
  induction 1 as [|x l Hx _ [fs IH]]; simpl; [eauto|]. destruct (r_enabled x); [|eauto].
  destruct (rule_to_field_ok x Hx) as [j ->]. rewrite IH. eauto.
Qed.

Lemma rules_to_xray_ok l a : Forall rule_ok l -> exists js, rules_to_xray l a = inr js.
Proof.
  intros H. unfold rules_to_xray.
  destruct (fields_of_ok (stable_sort (fun a b => r_position a <=? r_position b) l)) as [fs ->]; [|eauto].
  by rewrite stable_sort_perm.
Qed.

Lemma validated_ok is_private rs a : validate_routing is_private rs a = None -> Forall rule_ok rs.
Proof.
  unfold validate_routing. case_match; [done|]. destruct (validate_rules is_private 1 rs) eqn:E; [done|]. intros _.
  apply validate_rules_ok in E. eapply Forall_impl; [exact E|]. intros x Hx.
  destruct (validate_rule_known is_private x Hx) as (? & _ & ?). by split.
Qed.

Lemma mux_ok n p : from_option (fun q => validate_profile q = None) True p -> exists kv, mux n p = inr kv.
Proof.
  intros Hp. unfold mux. destruct p as [q|]; simpl in Hp; [|eauto].
  destruct (bool_decide (n_flow n = "") && _); [|eauto].
  destruct (p_mux_enabled q); simpl; [|eauto].
  destruct (validate_profile_ok q Hp) as [_ [->|(z & -> & _)]]; [simpl; eauto|].
  destruct (negb _); simpl; eauto.
Qed.

Lemma dns_ok s p dns_intercept :
  startswith (c_doh_url s) "https://" = true ->
  from_option (fun q => validate_profile q = None) True p ->
  exists l, dns_servers s p dns_intercept = inr l.
Proof.
  intros Hs Hp. unfold dns_servers. destruct (dns_intercept || doh_on p); [|eauto].
  assert (startswith (doh_url s p) "https://" = true) as ->; [|eauto].
  unfold doh_url. destruct p as [q|]; [|done]. simpl in Hp.
  case_bool_decide; [done|]. by destruct (validate_profile_ok q Hp) as [[?|?] _].
Qed.

(** valid stored data never fails to build: a normalised node (with a
    supported cipher if it is Shadowsocks), a validated profile or none and
    validated routing rules always give a configuration, whatever the other
    switches. *)
Theorem valid_data_builds is_private n s p routing tunneled stats dns strategy ipv6 explicit r
    (Hn : normal n) (Hc : n_protocol n = "shadowsocks" -> n_method n ∈ SS_METHODS)
    (Hs : startswith (c_doh_url s) "https://" = true)
    (Hp : from_option (fun q => validate_profile q = None) True p)
    (Hr : from_option (fun ra => validate_routing is_private ra.1 ra.2 = None) True routing) :
  exists cfg, build_config n s p routing tunneled stats dns strategy ipv6 explicit r = inr cfg.
Proof.
  unfold build_config. destruct (dns_ok s p dns Hs Hp) as [servers ->].
  assert (exists protocol block, proxy_settings n None = inr (protocol, block)) as (protocol & block & ->).
  { unfold proxy_settings. case_bool_decide; [eauto|]. case_bool_decide as E; [|eauto].
    rewrite bool_decide_eq_true_2 by auto. simpl. eauto. }
  assert (node_security n ∈ security_choices n) as Hsec.
  { destruct Hn as (_ & Hsec & _). unfold node_security, security_choices.
    destruct (bool_decide_reflect (n_protocol n = "shadowsocks")) as [E|E].
    - rewrite decide_True in Hsec by done. destruct Hsec as [-> _]. simpl. set_solver.
    - rewrite decide_False in Hsec by done. destruct Hsec as [[-> _]| ->]; simpl; set_solver. }
  rewrite bool_decide_eq_true_2 by done. simpl. destruct (mux_ok n p Hp) as [kv ->].
  unfold rules. destruct routing as [[rs a]|]; simpl in Hr; [|eauto].
  destruct (rules_to_xray_ok rs a (validated_ok is_private rs a Hr)) as [js ->]. eauto.
Qed.

(** * A concrete configuration *)
Module Demo.

Definition demo_node : node :=
  Node (Some 1) "n" "192.0.2.1" 443 "u" "vless" "" "" "vision" "www.example.com" "pk" "ab" "chrome"
    "xtls-rprx-vision" "tcp" "reality" "" "" "" "" "" None false None 0.
Definition demo_profile : profile :=
  Profile (Some 1) "p" "chrome" true "tlshello" "100-200" "10-20" false true "" "drop" false []
    "" "" "" "" "" "" "" "".
Definition demo_rw : rw := Rw 8443 "www.example.com:443" ["www.example.com"] "priv" ["ab"] [("id1", "phone")] [].
Definition demo_rules : list rule := [Rule None 0 "geosite" "google" "proxy" true "" ""].
Definition demo_build : build_error + json :=
  build_config demo_node default_settings (Some demo_profile) (Some (demo_rules, "proxy")) true (Some 10085)
    true "IPIfNonMatch" true true (Some demo_rw).
Definition demo_cfg : json := match demo_build with inr c => c | inl _ => JNull end.

Example demo_built : demo_build = inr demo_cfg.
Proof. reflexivity. Qed.

Example loopback_blocked_first_witness :
  exists rest, cfg_rules demo_cfg = loopback_block true (Some demo_rw) :: rest.
Proof.
  destruct (loopback_blocked_first demo_node default_settings (Some demo_profile) (Some (demo_rules, "proxy")) true
    (Some 10085) true "IPIfNonMatch" true true (Some demo_rw) demo_cfg) as (rest & H & _); [reflexivity|eauto].
Defined.

Example dns_encrypted_witness :
  (exists url, cfg_servers demo_cfg = [JObj [("address", JStr url)]] /\ startswith url "https://" = true) \/
  (cfg_servers demo_cfg = [JStr "localhost"] /\ true = false /\
   exists q, Some demo_profile = Some q /\ p_doh_enabled q = false).
Proof.
  apply (dns_encrypted demo_node default_settings (Some demo_profile) (Some (demo_rules, "proxy")) true
    (Some 10085) true "IPIfNonMatch" true true (Some demo_rw)). reflexivity.
Defined.

Example tunnel_never_plaintext_witness :
  exists proxy rest, cfg_outbounds demo_cfg = proxy :: rest /\ jget "tag" proxy = Some (JStr "proxy") /\
    encrypted "www.example.com" "pk" proxy.
Proof.
  apply (tunnel_never_plaintext demo_node default_settings (Some demo_profile) (Some (demo_rules, "proxy")) true
    (Some 10085) true "IPIfNonMatch" true true (Some demo_rw) demo_cfg). reflexivity.
Defined.

Definition demo_block : json := JObj [("tag", JStr "block"); ("protocol", JStr "blackhole"); ("settings", JObj [])].

Example outbounds_marked_witness :
  marked default_settings demo_block \/ jget "protocol" demo_block = Some (JStr "blackhole") \/
  jget "protocol" demo_block = Some (JStr "dns").
Proof.
  apply (outbounds_marked demo_node default_settings (Some demo_profile) (Some (demo_rules, "proxy")) true
    (Some 10085) true "IPIfNonMatch" true true (Some demo_rw) demo_cfg); [reflexivity|].
  unfold demo_cfg, demo_block; simpl. repeat (apply elem_of_cons; first [left; reflexivity|right]).
Defined.

Example quic_before_user_rules_witness :
  exists pre rest, cfg_rules demo_cfg = pre ++ quic_rule "block" :: rest /\ Forall (system_rule true (Some demo_rw)) pre.
Proof.
  apply (quic_before_user_rules demo_node default_settings (Some demo_profile) (Some (demo_rules, "proxy")) true
    (Some 10085) true "IPIfNonMatch" true true (Some demo_rw) demo_cfg demo_profile); [reflexivity|reflexivity|by left].
Defined.

Example rw_grants_exact_witness :
  filter (fun ib => tagged RW_TAG ib = true) (cfg_inbounds demo_cfg) = [rw_inbound_block demo_rw].
Proof.
  apply (rw_grants_exact demo_node default_settings (Some demo_profile) (Some (demo_rules, "proxy")) true
    (Some 10085) true "IPIfNonMatch" true true (Some demo_rw) demo_cfg). reflexivity.
Defined.

Example valid_data_builds_witness : exists cfg, demo_build = inr cfg.
Proof.
  apply (valid_data_builds (fun _ => false)).
  - split; [unfold PROTOCOLS; set_solver|]. split; [by left|]. split; [done|]. intros _. by right.
  - done.
  - reflexivity.
  - reflexivity.
  - by vm_compute.
Defined.

End Demo.
