(* ===== verification/RwInbound.v ===== *)
(** [rw_inbound.py]: the road-warrior inbound.  Its settings are stored as text in the
    settings table, the clients and the host names as JSON; [resolve] re-validates all
    of it into what [build_config] takes, and [shadowrocket_conf] and [link] render it
    for a client device.

    [json_loads] and [json_dumps] are Python's [json] ([None] is a ValueError), and a
    ValueError of this file is a value of [rw_error].  Regular expressions that end in
    [$] are matched with [re.match], so they also accept one final newline ([re_end]). *)
From Stdlib Require Import ZArith Lia Ascii.
From stdpp Require Import base gmap strings list.
From S2P Require Import Prelude PyStr Ip Models Store Config Routing Builder.
Open Scope string_scope.
Open Scope list_scope.
Open Scope Z_scope.

Definition newline : ascii := ascii_of_nat 10.

(** * Regular expressions *)

(** [s] without its final newline, if it ends with one. *)
Fixpoint chomp (s : string) : option string :=
  match s with
  | EmptyString => None
  | String c EmptyString => if bool_decide (c = newline) then Some EmptyString else None
  | String c s' => String c <$> chomp s'
  end.

Definition re_end (full : string -> bool) (s : string) : bool :=
  full s || match chomp s with Some t => full t | None => false end.

Definition char_in (lo hi : Z) (c : ascii) : bool :=
  let n := Z.of_N (N_of_ascii c) in (lo <=? n) && (n <=? hi).
Definition is_upper : ascii -> bool := char_in 65 90.
Definition is_lower : ascii -> bool := char_in 97 122.
Definition is_alnum (c : ascii) : bool := is_digit c || is_upper c || is_lower c.
Definition is_lower_alnum (c : ascii) : bool := is_digit c || is_lower c.
Definition one_of (l : list ascii) (c : ascii) : bool := bool_decide (c ∈ l).

(** [[a]([a-]*[a])?] for an alphabet [a]. *)
Definition label_ok (alnum : ascii -> bool) (s : string) : bool :=
  negb (bool_decide (s = "")) && str_all (fun c => alnum c || bool_decide (c = "-"%char)) s &&
  negb (startswith s "-") && negb (bool_decide (str_last 1 s = "-")).

Definition labels (s : string) : list string := split_on "."%char s.

Definition ANY_HOSTNAME : string -> bool := re_end (fun s => forallb (label_ok is_alnum) (labels s)).
Definition HOSTNAME : string -> bool :=
  re_end (fun s => (2 <=? length (labels s))%nat && forallb (label_ok is_lower_alnum) (labels s)).
Definition EMAIL : string -> bool :=
  re_end (fun s => (1 <=? String.length s)%nat && (String.length s <=? 40)%nat &&
                   str_all (fun c => is_alnum c || one_of ["."; "_"; "-"]%char c) s).
Definition B64_KEY : string -> bool :=
  re_end (fun s => (43 <=? String.length s)%nat &&
                   str_all (fun c => is_alnum c || one_of ["+"; "/"; "_"; "-"]%char c) (str_take 43 s) &&
                   bool_decide (str_drop 43 s ∈ [""; "="])).
Definition UUID : string -> bool :=
  re_end (fun s => bool_decide (String.length <$> split_on "-"%char s = [8; 4; 4; 4; 12]%nat) &&
                   forallb (str_all is_hex) (split_on "-"%char s)).

(** * Settings *)

Definition DEFAULTS : list (string * string) :=
  [("rw_enabled", "0"); ("rw_port", "443"); ("rw_dest", "www.microsoft.com:443");
   ("rw_server_names", "www.microsoft.com"); ("rw_short_ids", ""); ("rw_endpoint", "");
   ("rw_clients", "[]"); ("rw_hosts", "{}"); ("rw_routed_nets", "")].

Definition get (key : string) (d : db) : string :=
  match get_setting key d with Some v => v | None => default "" (assoc key DEFAULTS) end.

Definition parse_csv (raw : string) : list string :=
  filter (fun v => v <> "") (strip <$> split_on ","%char raw).

(** Without duplicates, the first of each kept. *)
Definition parse_nets (raw : string) : list string :=
  foldl (fun out n => if bool_decide (n ∈ out) then out else out ++ [n]) [] (parse_csv raw).

Definition MAX_DNS_NAME : nat := 253.
Definition MAX_HOSTS : nat := 32.
Definition MAX_HOST_NAME : nat := 40.
Definition MAX_CLIENTS : nat := 16.

Inductive rw_error :=
  | NotInteger (what raw : string)
  | OutOfRange (what : string) (z : Z)
  | EmptyField (what : string)
  | TooLong (what : string)
  | NotHostname (what name : string)
  | NoServerNames
  | NotHostPort (dest : string)
  | BadIPv6 (text : string)
  | BadKey (what : string)
  | BadKeyLength (what : string)
  | BadShortId (sid : string)
  | TooManyHosts (n : nat)
  | BadHostName (name : string)
  | LocalHostName (name : string)
  | BadHostIp (name : string)
  | BadNet (net : string)
  | BadEmail
  | DuplicateClient (email : string)
  | TooManyClients
  | MissingEndpoint
  | MissingPublicKey
  | BadClientId.

(** Results: [let? x := m in k] stops at the first error. *)
Definition rbind {A B} (m : rw_error + A) (k : A -> rw_error + B) : rw_error + B :=
  match m with inl e => inl e | inr a => k a end.
Notation "'let?' x := m 'in' k" := (rbind m (fun x => k)) (at level 200, x name, m at level 100, k at level 200).

Fixpoint rmap {A B} (f : A -> rw_error + B) (l : list A) : rw_error + list B :=
  match l with
  | [] => inr []
  | x :: l' => let? y := f x in let? ys := rmap f l' in inr (y :: ys)
  end.

(** * Validators *)

Definition validate_port (raw : string) : rw_error + Z :=
  match py_int raw with
  | None => inl (NotInteger "rw_port" raw)
  | Some port => if (1 <=? port) && (port <=? 65535) then inr port else inl (OutOfRange "rw_port" port)
  end.

Definition validate_hostname (raw what : string) : rw_error + string :=
  let name := strip raw in
  if bool_decide (name = "") then inl (EmptyField what)
  else if (MAX_DNS_NAME <? String.length name)%nat then inl (TooLong what)
  else if negb (ANY_HOSTNAME name) || existsb (fun l => (63 <? String.length l)%nat) (labels name)
  then inl (NotHostname what name)
  else inr name.

Definition validate_server_names (names : list string) : rw_error + list string :=
  if bool_decide (names = []) then inl NoServerNames
  else rmap (fun n => validate_hostname n "server name") names.

(** [s.rpartition(c)]: at the last occurrence. *)
Fixpoint rpartition (c : ascii) (s : string) : option (string * string) :=
  match s with
  | EmptyString => None
  | String x s' =>
      match rpartition c s' with
      | Some (a, b) => Some (String x a, b)
      | None => if bool_decide (x = c) then Some ("", s') else None
      end
  end.

Definition bracketed (s : string) : bool :=
  startswith s "[" && bool_decide (str_last 1 s = "]").
(** [s[1:-1]] *)
Definition inside_brackets (s : string) : string := str_drop 1 (str_take (String.length s - 1) s).

Definition validate_dest (raw : string) : rw_error + string :=
  let dest := strip raw in
  match rpartition ":"%char dest with
  | None => inl (NotHostPort dest)
  | Some (host, port) =>
      if bool_decide (host = "") || bool_decide (port = "") then inl (NotHostPort dest)
      else
        let? _ := (if bracketed host then
                     match ip6_parse (inside_brackets host) with
                     | Some _ => inr host
                     | None => inl (BadIPv6 dest)
                     end
                   else validate_hostname host "the rw_dest host") in
        match py_int port with
        | None => inl (NotInteger "rw_dest port" port)
        | Some p => if (1 <=? p) && (p <=? 65535) then inr (host +:+ ":" +:+ str_int p)
                    else inl (OutOfRange "rw_dest port" p)
        end
  end.

(** The bytes that [n] base64 digits decode to. *)
Definition b64_bytes (n : nat) : nat := (n * 6 / 8)%nat.

Definition validate_key (raw what : string) : rw_error + string :=
  let key := strip raw in
  if negb (B64_KEY key) then inl (BadKey what)
  else if negb (bool_decide (b64_bytes (String.length (str_take 43 key)) = 32%nat)) then inl (BadKeyLength what)
  else inr key.

Definition validate_endpoint (raw : string) : rw_error + string :=
  let endpoint := strip raw in
  if bool_decide (endpoint = "") then inl (EmptyField "the external endpoint")
  else if bracketed endpoint then
    match ip6_parse (inside_brackets endpoint) with
    | Some _ => inr endpoint
    | None => inl (BadIPv6 endpoint)
    end
  else match ip4_parse endpoint with
       | Some _ => inr endpoint
       | None => validate_hostname endpoint "the external endpoint"
       end.

Definition short_id_ok (sid : string) : bool :=
  let n := String.length sid in
  Nat.even n && (2 <=? n)%nat && (n <=? 16)%nat && str_all is_hex sid.

Definition validate_short_ids (ids : list string) : rw_error + list string :=
  rmap (fun sid => if short_id_ok sid then inr sid else inl (BadShortId sid)) ids.

(** [s.rstrip(".")] *)
Fixpoint rstrip_dots (s : string) : string :=
  match s with
  | EmptyString => EmptyString
  | String c s' =>
      match rstrip_dots s' with
      | EmptyString => if bool_decide (c = "."%char) then EmptyString else String c EmptyString
      | t => String c t
      end
  end.

(** [out[k] = v] *)
Fixpoint dict_put (k v : string) (l : list (string * string)) : list (string * string) :=
  match l with
  | [] => [(k, v)]
  | (k', v') :: l' => if bool_decide (k = k') then (k', v) :: l' else (k', v') :: dict_put k v l'
  end.

(** [str(ip)] of a value that is no string never reads as an IPv4 address. *)
Definition validate_host (name : string) (ip : json) : rw_error + string * string :=
  let name := rstrip_dots (lower (strip name)) in
  if (MAX_HOST_NAME <? String.length name)%nat then inl (TooLong name)
  else if negb (HOSTNAME name) then inl (BadHostName name)
  else if bool_decide (str_last 6 name = ".local") then inl (LocalHostName name)
  else match ip with
       | JStr v => match ip4_parse (strip v) with
                   | Some _ => inr (name, strip v)
                   | None => inl (BadHostIp name)
                   end
       | _ => inl (BadHostIp name)
       end.

Definition validate_hosts (hosts : list (string * json)) : rw_error + list (string * string) :=
  if (MAX_HOSTS <? length hosts)%nat then inl (TooManyHosts (length hosts))
  else let? l := rmap (fun h => validate_host h.1 h.2) hosts in
       inr (foldl (fun out h => dict_put h.1 h.2 out) [] l).

Definition validate_nets (nets : list string) : rw_error + list string :=
  rmap (fun n => match ip4_network n with Some _ => inr n | None => inl (BadNet n) end) nets.

Definition validate_email (email : string) : rw_error + string :=
  let email := strip email in if EMAIL email then inr email else inl BadEmail.

(** * Clients *)

Record client := Client { cl_id : string; cl_email : string; cl_enabled : bool }.
#[export] Instance client_eq_dec : EqDecision client.
Proof. solve_decision. Defined.

(** [str(v or "")] of a JSON value; the text of a list or a dict starts with a bracket, which no
    pattern here admits, and is left out. *)
Definition py_str (v : option json) : option string :=
  match v with
  | Some (JStr s) => Some s
  | Some (JNum z) => Some (if z =? 0 then "" else str_int z)
  | Some (JBool b) => Some (if b then "True" else "")
  | Some (JArr []) | Some (JObj []) | Some JNull | None => Some ""
  | Some (JArr _) | Some (JObj _) => None
  end.

Definition read_client (c : json) : option client :=
  match c with
  | JObj _ =>
      match py_str (jget "id" c), py_str (jget "email" c) with
      | Some i, Some e =>
          if UUID i && EMAIL e then Some (Client i e (from_option jtruthy true (jget "enabled" c))) else None
      | _, _ => None
      end
  | _ => None
  end.

Definition client_json (c : client) : json :=
  JObj [("id", JStr (cl_id c)); ("email", JStr (cl_email c)); ("enabled", JBool (cl_enabled c))].

Section rw.
Context (json_loads : string -> option json).
Context (json_dumps : json -> string).

(** The stored entries, or why they could not be read. *)
Definition roster (d : db) : list json * string :=
  match json_loads (get "rw_clients" d) with
  | None => ([], "the stored client list is not valid JSON")
  | Some (JArr l) => (l, "")
  | Some _ => ([], "the stored client list is not a list")
  end.

Definition roster_issue (d : db) : string := (roster d).2.

Definition get_clients (d : db) : list client := omap read_client (roster d).1.

Definition set_clients (l : list client) : M unit :=
  set_setting "rw_clients" (json_dumps (JArr (client_json <$> l))).

(** [fresh] is the new uuid. *)
Definition add_client (email fresh : string) : M (rw_error + client) :=
  fun d =>
    match validate_email email with
    | inl e => (inr (inl e), d)
    | inr email =>
        let clients := get_clients d in
        if existsb (fun c => bool_decide (cl_email c = email)) clients then (inr (inl (DuplicateClient email)), d)
        else if (MAX_CLIENTS <=? length clients)%nat then (inr (inl TooManyClients), d)
        else
          let client := Client fresh email true in
          (set_clients (clients ++ [client]) ;;; mret (inr client)) d
    end.

Definition delete_client (id : string) : M bool :=
  fun d =>
    let clients := get_clients d in
    let kept := filter (fun c => cl_id c <> id) clients in
    if bool_decide (length kept = length clients) then (inr false, d)
    else (set_clients kept ;;; mret true) d.

Definition enable_in (id : string) (b : bool) (c : client) : client :=
  if bool_decide (cl_id c = id) then Client (cl_id c) (cl_email c) b else c.

Definition set_client_enabled (id : string) (b : bool) : M bool :=
  fun d =>
    let clients := get_clients d in
    if existsb (fun c => bool_decide (cl_id c = id)) clients
    then (set_clients (enable_in id b <$> clients) ;;; mret true) d
    else (inr false, d).

Definition get_hosts (d : db) : rw_error + list (string * string) :=
  match json_loads (get "rw_hosts" d) with
  | Some (JObj kvs) => validate_hosts kvs
  | _ => inr []
  end.

(** * The funnel *)

Definition server_names (d : db) : list string :=
  let names := parse_csv (get "rw_server_names" d) in
  if bool_decide (names = []) then parse_csv "www.microsoft.com" else names.

Definition resolve (d : db) : rw_error + option rw :=
  if negb (bool_decide (get "rw_enabled" d = "1")) then inr None
  else
    let private_key := strip (get "rw_private_key" d) in
    if bool_decide (private_key = "") then inr None
    else
      let clients := filter (fun c => cl_enabled c = true) (get_clients d) in
      if bool_decide (length clients = 0%nat) then inr None
      else
        let dest := Some (strip (get "rw_dest" d)) or "www.microsoft.com:443" in
        let? port := validate_port (get "rw_port" d) in
        let? dest := validate_dest dest in
        let? names := validate_server_names (server_names d) in
        let? key := validate_key private_key "the Reality private key" in
        let? sids := validate_short_ids (parse_csv (get "rw_short_ids" d)) in
        let? hosts := get_hosts d in
        inr (Some (Rw port dest names key sids ((fun c => (cl_id c, cl_email c)) <$> clients) hosts)).

(** * What a client device is given *)

Record artifact := Artifact {
  af_endpoint : string;
  af_public_key : string;
  af_names : list string;
  af_sids : list string;
  af_port : Z
}.

Definition artifact_fields (d : db) : rw_error + artifact :=
  let endpoint := strip (get "rw_endpoint" d) in
  if bool_decide (endpoint = "") then inl MissingEndpoint
  else
    let public_key := strip (get "rw_public_key" d) in
    if bool_decide (public_key = "") then inl MissingPublicKey
    else
      let? e := validate_endpoint endpoint in
      let? k := validate_key public_key "the Reality public key" in
      let? names := validate_server_names (server_names d) in
      let? sids := validate_short_ids (parse_csv (get "rw_short_ids" d)) in
      let? port := validate_port (get "rw_port" d) in
      inr (Artifact e k names sids port).

Definition artifact_client (c : client) : rw_error + string * string :=
  if negb (UUID (cl_id c)) then inl BadClientId
  else let? email := validate_email (cl_email c) in inr (cl_id c, email).

(** [urllib.parse.quote]: letters, digits and [_.-~/] stay, every other byte is [%XX]. *)
Definition hex_char (z : Z) : ascii := ascii_of_N (Z.to_N (if z <? 10 then 48 + z else 55 + z)).
Fixpoint quote (s : string) : string :=
  match s with
  | EmptyString => EmptyString
  | String c s' =>
      if is_alnum c || one_of ["_"; "."; "-"; "~"; "/"]%char c then String c (quote s')
      else let n := Z.of_N (N_of_ascii c) in
           String "%" (String (hex_char (n / 16)) (String (hex_char (n mod 16)) (quote s')))
  end.

Definition link (c : client) (d : db) : rw_error + string :=
  let? a := artifact_fields d in
  let? ce := artifact_client c in
  inr ("vless://" +:+ ce.1 +:+ "@" +:+ af_endpoint a +:+ ":" +:+ str_int (af_port a) +:+
       "?type=tcp&security=reality&encryption=none&flow=xtls-rprx-vision&fp=chrome&sni=" +:+
       quote (default "" (head (af_names a))) +:+ "&pbk=" +:+ quote (af_public_key a) +:+ "&sid=" +:+
       quote (default "" (head (af_sids a))) +:+ "#" +:+ quote ce.2).

(** [re.sub(r"[^A-Za-z0-9._-]", "-", email) or "v2pi"] *)
Definition tag_of (email : string) : string :=
  Some (str_map (fun c => if is_alnum c || one_of ["."; "_"; "-"]%char c then c else "-"%char) email) or "v2pi".

(** [sorted({name.rsplit(".", 1)[-1] for name in hosts})] *)
Definition host_suffixes (hosts : list (string * string)) : list string :=
  stable_sort String.leb (remove_dups ((fun h => List.last (labels h.1) "") <$> hosts)).

Definition proxy_line (a : artifact) (cid tag : string) : string :=
  tag +:+ " = vless, " +:+ af_endpoint a +:+ ", " +:+ str_int (af_port a) +:+ ", username=" +:+ cid +:+
  ", tls=true, network=tcp, flow=xtls-rprx-vision, sni=" +:+ default "" (head (af_names a)) +:+
  ", fingerprint=chrome, reality-public-key=" +:+ af_public_key a +:+
  ", reality-short-id=" +:+ default "" (head (af_sids a)) +:+ ", udp=true".

Definition conf_lines (a : artifact) (cid tag : string) (suffixes nets : list string) : list string :=
  ["#!name = " +:+ tag; "# generated by pi-gw-panel — import into Shadowrocket"; ""; "[General]";
   "bypass-system = true"; "ipv6 = false"; "skip-proxy = 127.0.0.1, ::1, localhost, *.local"; "";
   "[Proxy]"; proxy_line a cid tag; ""; "[Rule]"]
  ++ ((fun sfx => "DOMAIN-SUFFIX," +:+ sfx +:+ "," +:+ tag) <$> suffixes)
  ++ ((fun net => "IP-CIDR," +:+ net +:+ "," +:+ tag +:+ ",no-resolve") <$> nets)
  ++ ["FINAL," +:+ tag; ""].

Definition shadowrocket_conf (c : client) (nets : list string) (d : db) : rw_error + string :=
  let? a := artifact_fields d in
  let? ce := artifact_client c in
  let? hosts := get_hosts d in
  let? nets := validate_nets nets in
  inr (join (String newline EmptyString) (conf_lines a ce.1 (tag_of ce.2) (host_suffixes hosts) nets)).

End rw.
