(* ===== verification/RwInboundProps.v ===== *)
(** The road-warrior inbound: the roster operations are exact, a revoked client is in
    no configuration, a resolved inbound is well formed, and the generated profile has
    exactly the lines it was written with. *)
From Stdlib Require Import ZArith Lia Ascii.
From stdpp Require Import base gmap strings list.
From S2P Require Import Prelude PyStr Ip Models Store StoreFacts Config Routing Builder BuilderProps RwInbound.
Open Scope string_scope.
Open Scope list_scope.
Open Scope Z_scope.

(** * Results *)

Lemma rbind_inr {A B} (m : rw_error + A) (k : A -> rw_error + B) b :
  rbind m k = inr b -> exists a, m = inr a /\ k a = inr b.
Proof. destruct m; [done|]. simpl. eauto. Qed.

Lemma rmap_inr {A B} (f : A -> rw_error + B) l l' :
  rmap f l = inr l' -> Forall2 (fun x y => f x = inr y) l l'.
Proof.
  revert l'. induction l as [|x l IH]; simpl; intros l' E; [by simplify_eq; constructor|].
  apply rbind_inr in E as (y & Hy & E). apply rbind_inr in E as (ys & Hys & E). simplify_eq. constructor; auto.
Qed.

(** * Characters *)

(** Neither a comma nor a newline: what a value may contain inside a line of the profile. *)
Definition plain (c : ascii) : bool := negb (bool_decide (c = newline)) && negb (bool_decide (c = ","%char)).

(** The check of a class of characters, on all 256 of them. *)
Definition chars : list ascii := ascii_of_nat <$> seq 0 256.

Lemma chars_all c : c ∈ chars.
Proof.
  unfold chars. rewrite <-(ascii_nat_embedding c). apply list_elem_of_fmap_2. apply elem_of_seq.
  pose proof (nat_ascii_bounded c). lia.
Qed.

Lemma char_class (p q : ascii -> bool) :
  forallb (fun c => negb (p c) || q c) chars = true -> forall c, p c = true -> q c = true.
Proof.
  intros Hf c Hc. rewrite forallb_forall in Hf. specialize (Hf c).
  rewrite Hc in Hf. apply Hf. apply list_elem_of_In, chars_all.
Qed.

Ltac class := apply char_class; by vm_compute.

Lemma chomp_newline s t : chomp s = Some t -> str_all (fun c => negb (bool_decide (c = newline))) s = false.
Proof.
  revert t. induction s as [|c s IH]; [done|]. intros t. simpl. destruct s as [|c' s].
  - case_bool_decide; [by subst|done].
  - destruct (chomp (String c' s)) as [u|]; [|done]. intros _. rewrite (IH u eq_refl). by rewrite andb_false_r.
Qed.

Lemma re_end_plain full s :
  re_end full s = true -> str_all (fun c => negb (bool_decide (c = newline))) s = true -> full s = true.
Proof.
  unfold re_end. intros H Hs. apply orb_true_iff in H as [H|H]; [done|].
  destruct (chomp s) as [t|] eqn:E; [|done]. apply chomp_newline in E. congruence.
Qed.

Lemma chomp_rstrip s : chomp (rstrip s) = None.
Proof.
  induction s as [|c s IH]; [done|]. simpl. destruct (rstrip s) as [|c' t].
  - destruct (is_space c) eqn:E; [done|]. simpl. case_bool_decide; [by subst|done].
  - simpl in *. destruct t; by rewrite IH.
Qed.

Lemma re_end_strip full s : re_end full (strip s) = true -> full (strip s) = true.
Proof. unfold re_end, strip. rewrite chomp_rstrip, orb_false_r. done. Qed.

Lemma labels_all (q : ascii -> bool) s :
  forallb (str_all q) (labels s) = true -> str_all (fun c => bool_decide (c = "."%char) || q c) s = true.
Proof.
  intros H. apply split_char_all. apply Forall_forall. intros t Ht. rewrite forallb_forall in H.
  apply H. by apply list_elem_of_In.
Qed.

Lemma label_ok_all alnum s : label_ok alnum s = true -> str_all (fun c => alnum c || bool_decide (c = "-"%char)) s = true.
Proof. unfold label_ok. rewrite !andb_true_iff. tauto. Qed.

Lemma hostname_plain alnum s :
  (forall c, alnum c = true -> plain c = true) -> forallb (label_ok alnum) (labels s) = true -> str_all plain s = true.
Proof.
  intros Ha H. eapply str_all_impl; [|apply (labels_all (fun c => alnum c || bool_decide (c = "-"%char)))].
  - intros c. simpl. destruct (bool_decide (c = "."%char)) eqn:E1; [intros _; by apply bool_decide_eq_true in E1 as ->|].
    destruct (alnum c) eqn:E2; [auto|]. destruct (bool_decide (c = "-"%char)) eqn:E3; [|done].
    intros _; by apply bool_decide_eq_true in E3 as ->.
  - rewrite forallb_forall in *. intros t Ht. apply label_ok_all. auto.
Qed.

Lemma alnum_plain c : is_alnum c = true -> plain c = true.
Proof. revert c. class. Qed.

(** ** IPv6 text without a scope *)

Definition text6 (c : ascii) : bool := is_hex c || addr_char c || bool_decide (c = ":"%char).

Lemma hex_val_hex acc s v : hex_val acc s = Some v -> str_all is_hex s = true.
Proof.
  revert acc. induction s as [|c s IH]; [done|]. intros acc. simpl. unfold is_hex.
  destruct (hex_digit c) eqn:E; [|done]. intros H. rewrite bool_decide_eq_true_2 by eauto. simpl. by eapply IH.
Qed.

Lemma parse_hextet_hex s v : parse_hextet s = Some v -> str_all is_hex s = true.
Proof. unfold parse_hextet. case_match; [done|]. destruct s; [done|]. apply hex_val_hex. Qed.

Definition part_ok (p : part) : Prop := match p with PText s => str_all is_hex s = true | PVal _ => True end.

Lemma part_val_ok p v : part_val p = Some v -> part_ok p.
Proof. destruct p; [apply parse_hextet_hex|done]. Qed.

Lemma part_empty_ok p : part_empty p = true -> part_ok p.
Proof. destruct p as [s|]; [|done]. simpl. intros H%bool_decide_eq_true. by subst. Qed.

Lemma mapM_part_ok l vs : mapM part_val l = Some vs -> Forall part_ok l.
Proof.
  intros E%mapM_Some. eapply Forall2_Forall_l; [exact E|]. apply Forall_forall. intros v _ p. apply part_val_ok.
Qed.

Lemma inner_empty_part i parts : inner_empty parts = [i] -> exists p, parts !! i = Some p /\ part_empty p = true /\ (1 <= i < length parts - 1)%nat.
Proof.
  intros E. assert (i ∈ inner_empty parts) as Hi by (rewrite E; by left).
  apply list_elem_of_filter in Hi as [Hp Hs]. apply elem_of_seq in Hs.
  destruct (parts !! i) as [p|]; [|done]. exists p. split_and!; try done; lia.
Qed.

Lemma ip6_int_parts s z : ip6_int s = Some z -> exists parts, ip6_parts s = Some parts /\ Forall part_ok parts.
Proof.
  unfold ip6_int. destruct (ip6_parts s) as [parts|]; [|done]. intros E. exists parts. split; [done|].
  destruct (9 <? length parts)%nat; [done|]. cbn zeta in E.
  set (fe := from_option part_empty false (head parts)) in *.
  set (le := from_option part_empty false (last parts)) in *.
  destruct (inner_empty parts) as [|i [|]] eqn:Ei; [|apply inner_empty_part in Ei as (p & Hp & Hpe & Hi)|done].
  - destruct (_ || _ || le); [done|]. destruct (mapM part_val parts) eqn:Em; [|done]. by eapply mapM_part_ok.
  - set (hi := if fe then (i - 1)%nat else i) in *.
    set (lo := if le then (length parts - i - 2)%nat else (length parts - i - 1)%nat) in *.
    destruct (fe && _) eqn:Ef; [done|]. destruct (le && _) eqn:El; [done|]. destruct (8 <? _)%nat; [done|].
    destruct (mapM part_val (take hi parts)) eqn:E1; [|done].
    destruct (mapM part_val (drop (length parts - lo) parts)) eqn:E2; [|done].
    apply mapM_part_ok in E1, E2. apply Forall_forall. intros q [j Hj]%list_elem_of_lookup.
    apply lookup_lt_Some in Hj as Hlen.
    destruct (decide (j < hi)%nat); [rewrite Forall_lookup in E1; apply (E1 j); by rewrite lookup_take_lt|].
    destruct (decide (length parts - lo <= j)%nat).
    { rewrite Forall_lookup in E2. apply (E2 (j - (length parts - lo))%nat). rewrite lookup_drop. rewrite <-Hj. f_equal. lia. }
    apply part_empty_ok.
    assert (j = i \/ (fe = true /\ j = 0%nat) \/ (le = true /\ j = length parts - 1)%nat) as [->|[[Hf ->]|[Hl ->]]].
    { unfold hi, lo in *. destruct fe, le; simpl in Ef, El;
        rewrite ?negb_false_iff in Ef; rewrite ?negb_false_iff in El; 
        try apply bool_decide_eq_true in Ef; try apply bool_decide_eq_true in El; lia. }
    + congruence.
    + unfold fe in Hf. by rewrite head_lookup, Hj in Hf.
    + unfold le in Hl. rewrite last_lookup in Hl. replace (pred (length parts)) with (length parts - 1)%nat in Hl by lia.
      by rewrite Hj in Hl.
Qed.

Lemma hex_text6 c : is_hex c = true -> text6 c = true.
Proof. unfold text6. by intros ->. Qed.
Lemma addr_text6 c : addr_char c = true -> text6 c = true.
Proof. unfold text6. intros ->. by rewrite orb_true_r. Qed.

Lemma ip6_int_text s z : ip6_int s = Some z -> str_all text6 s = true.
Proof.
  intros (parts & Hp & HF)%ip6_int_parts. unfold ip6_parts in Hp.
  set (ps := split_on ":"%char s) in *.
  assert (Forall (fun t => str_all text6 t = true) ps) as HA.
  { destruct (length ps <? 3)%nat; [done|]. destruct (contains "." (List.last ps "")).
    - destruct (ip4_parse (List.last ps "")) as [v|] eqn:E4; [|done]. injection Hp as <-.
      apply Forall_app in HF as [HF _]. apply ip4_chars in E4.
      assert (ps = take (length ps - 1) ps ++ [List.last ps ""]) as ->.
      { pose proof (split_char_nonnil (fun d => bool_decide (d = ":"%char)) s) as Hne. fold (split_on ":"%char s) in Hne.
        fold ps in Hne. destruct (exists_last Hne) as (l & x & El). rewrite El.
        rewrite List.last_last, length_app. simpl. replace (length l + 1 - 1)%nat with (length l) by lia.
        by rewrite take_app_length. }
      apply Forall_app. split.
      + rewrite Forall_fmap in HF. eapply Forall_impl; [exact HF|]. intros t Ht. eapply str_all_impl; [|exact Ht]. apply hex_text6.
      + repeat constructor. eapply str_all_impl; [|exact E4]. apply addr_text6.
    - injection Hp as <-. rewrite Forall_fmap in HF. eapply Forall_impl; [exact HF|].
      intros t Ht. eapply str_all_impl; [|exact Ht]. apply hex_text6. }
  apply split_char_all in HA. eapply str_all_impl; [|exact HA]. intros c. unfold text6.
  destruct (bool_decide (c = ":"%char)); rewrite ?orb_true_r; done.
Qed.

Lemma partition_pct_none s a : partition_pct s = (a, None) -> s = a.
Proof.
  revert a. induction s as [|c s IH]; intros a; [by intros [= <-]|]. simpl.
  destruct (partition_pct s) as [b r]. intros E.
  assert (r = None /\ a = String c b) as [-> ->] by (destruct c as [[] [] [] [] [] [] [] []]; by simplify_eq).
  by rewrite (IH b).
Qed.

(** * What the validators let through *)

Lemma validate_hostname_plain raw what v : validate_hostname raw what = inr v -> str_all plain v = true.
Proof.
  unfold validate_hostname. case_match; [done|]. case_match; [done|].
  destruct (ANY_HOSTNAME (strip raw)) eqn:E; simpl; [|done]. case_match; [done|]. intros [= <-].
  apply re_end_strip in E. by apply hostname_plain in E; [|apply alnum_plain].
Qed.

Lemma validate_names_plain names l :
  validate_server_names names = inr l -> l <> [] /\ Forall (fun v => str_all plain v = true) l.
Proof.
  unfold validate_server_names. case_bool_decide as Hn; [done|]. intros E%rmap_inr. split.
  - intros ->. by inversion E; subst.
  - eapply Forall2_Forall_r; [exact E|]. apply Forall_forall. intros n _ v. apply validate_hostname_plain.
Qed.

Lemma b64_plain c : (is_alnum c || one_of ["+"; "/"; "_"; "-"]%char c) = true -> plain c = true.
Proof. revert c. class. Qed.

Lemma take_drop_app n s : str_take n s +:+ str_drop n s = s.
Proof.
  revert s. induction n as [|n IH]; intros s; simpl; [apply str_app_nil|].
  destruct s as [|c s]; [done|]. rewrite str_app_cons. by rewrite IH.
Qed.

Lemma validate_key_plain raw what v : validate_key raw what = inr v -> str_all plain v = true.
Proof.
  unfold validate_key. destruct (B64_KEY (strip raw)) eqn:E; simpl; [|done]. case_match; [done|]. intros [= <-].
  apply re_end_strip in E. rewrite !andb_true_iff in E. destruct E as [[_ E1] E2].
  rewrite <-(take_drop_app 43 (strip raw)), str_all_app. apply andb_true_iff. split.
  - eapply str_all_impl; [apply b64_plain|exact E1].
  - apply bool_decide_eq_true in E2. rewrite elem_of_cons, list_elem_of_singleton in E2. by destruct E2 as [-> | ->].
Qed.

Lemma hex_plain c : is_hex c = true -> plain c = true.
Proof. revert c. class. Qed.
Lemma text6_plain c : text6 c = true -> plain c = true.
Proof. revert c. class. Qed.
Lemma addr_plain c : addr_char c = true -> plain c = true.
Proof. revert c. class. Qed.

Lemma validate_short_ids_plain ids l :
  validate_short_ids ids = inr l -> Forall (fun v => short_id_ok v = true /\ str_all plain v = true) l.
Proof.
  intros E%rmap_inr. eapply Forall2_Forall_r; [exact E|]. apply Forall_forall. intros n _ v.
  destruct (short_id_ok n) eqn:Es; [|done]. intros [= <-]. split; [done|]. unfold short_id_ok in Es.
  rewrite !andb_true_iff in Es. eapply str_all_impl; [apply hex_plain|apply Es].
Qed.

Lemma partition_pct_some s a r : partition_pct s = (a, Some r) -> contains "%" s = true.
Proof.
  revert a. induction s as [|c s IH]; intros a; [done|]. simpl.
  destruct (partition_pct s) as [b q]. intros E.
  destruct (decide (c = "%"%char)) as [->|Hc]; [by destruct s|].
  assert (q = Some r) as -> by (destruct c as [[] [] [] [] [] [] [] []]; by simplify_eq).
  rewrite (IH b eq_refl). by rewrite orb_true_r.
Qed.

Lemma ip6_parse_plain s z : ip6_parse s = Some z -> contains "%" s = false -> str_all plain s = true.
Proof.
  unfold ip6_parse. destruct (contains "/" s); [done|]. destruct (partition_pct s) as [a [r|]] eqn:E.
  - apply partition_pct_some in E. congruence.
  - apply partition_pct_none in E as <-. intros H _. apply ip6_int_text in H.
    eapply str_all_impl; [apply text6_plain|exact H].
Qed.

Lemma contains_app_r p s t : contains p (s +:+ t) = false -> contains p t = false.
Proof.
  induction s as [|c s IH]; [by rewrite str_app_nil|]. rewrite str_app_cons. simpl.
  rewrite orb_false_iff. intros [_ H]. auto.
Qed.

Lemma contains_pct_all s : contains "%" s = false <-> str_all (fun c => negb (bool_decide (c = "%"%char))) s = true.
Proof.
  induction s as [|c s IH]; [done|]. cbn [contains str_all]. rewrite orb_false_iff, andb_true_iff, IH, negb_true_iff.
  rewrite bool_decide_eq_false. split; intros [H ?]; (split; [|done]).
  - intros ->. by destruct s.
  - unfold startswith. cbn [String.prefix]. destruct (ascii_dec _ _) as [E|E]; [by destruct H|done].
Qed.

Lemma str_all_drop p n s : str_all p s = true -> str_all p (str_drop n s) = true.
Proof. rewrite <-(take_drop_app n s) at 1. rewrite str_all_app. by intros [_ H]%andb_true_iff. Qed.
Lemma str_all_take p n s : str_all p s = true -> str_all p (str_take n s) = true.
Proof. rewrite <-(take_drop_app n s) at 1. rewrite str_all_app. by intros [H _]%andb_true_iff. Qed.

Lemma bracketed_split s : bracketed s = true -> (2 <= String.length s)%nat -> s = "[" +:+ inside_brackets s +:+ "]".
Proof.
  unfold bracketed, inside_brackets. intros H Hl. apply andb_true_iff in H as [H1 H2]. apply bool_decide_eq_true in H2.
  destruct s as [|c s]; [done|]. unfold startswith in H1. cbn [String.prefix] in H1. destruct (ascii_dec _ _) as [<-|]; [|done].
  unfold str_last in H2. rewrite <-(take_drop_app (String.length (String "[" s) - 1) (String "[" s)) at 1.
  rewrite H2. simpl in Hl. simpl String.length. destruct (S (String.length s) - 1)%nat as [|k] eqn:Ek; [lia|].
  simpl str_take. simpl str_drop. by rewrite !str_app_cons, str_app_nil.
Qed.

Lemma validate_endpoint_plain raw v :
  validate_endpoint raw = inr v -> contains "%" v = false -> str_all plain v = true.
Proof.
  unfold validate_endpoint. case_match; [done|]. destruct (bracketed (strip raw)) eqn:Eb.
  - destruct (ip6_parse _) as [z|] eqn:E6; [|done]. intros [= <-] Hp.
    assert (2 <= String.length (strip raw))%nat as Hl.
    { unfold inside_brackets in E6. destruct (strip raw) as [|c [|c' s]]; simpl in *; [done|done|lia]. }
    pose proof (bracketed_split _ Eb Hl) as Es. rewrite Es, !str_all_app. simpl.
    rewrite (ip6_parse_plain _ _ E6); [done|]. apply contains_pct_all, str_all_drop, str_all_take, contains_pct_all, Hp.
  - destruct (ip4_parse (strip raw)) eqn:E4.
    + intros [= <-] _. apply ip4_chars in E4. eapply str_all_impl; [apply addr_plain|exact E4].
    + intros Hv _. by eapply validate_hostname_plain.
Qed.

Lemma uuid_plain s : UUID s = true -> str_all (fun c => negb (bool_decide (c = newline))) s = true -> str_all plain s = true.
Proof.
  intros H Hn. apply (re_end_plain _ _ H) in Hn. apply andb_true_iff in Hn as [_ Hn].
  eapply str_all_impl; [|apply (split_char_all (fun d => bool_decide (d = "-"%char)) is_hex)].
  - apply char_class. by vm_compute.
  - apply Forall_forall. intros t Ht. rewrite forallb_forall in Hn. apply Hn. by apply list_elem_of_In.
Qed.

Lemma tag_plain e : str_all plain (tag_of e) = true.
Proof.
  unfold tag_of. set (f := fun c => _). assert (forall s, str_all plain (str_map f s) = true) as H.
  { induction s as [|c s IH]; [done|]. simpl. rewrite IH, andb_true_r. unfold f.
    destruct (is_alnum c || one_of ["."; "_"; "-"]%char c) eqn:E; [|done]. revert c E. class. }
  specialize (H e). by destruct (str_map f e).
Qed.

Lemma validate_nets_plain nets l : validate_nets nets = inr l -> l = nets /\ Forall (fun v => str_all plain v = true) l.
Proof.
  intros E%rmap_inr. split.
  - induction E as [|x y l l' Hxy _ IH]; [done|]. destruct (ip4_network x); [|done]. simplify_eq. by f_equal.
  - eapply Forall2_Forall_r; [exact E|]. apply Forall_forall. intros n _ v.
    destruct (ip4_network n) eqn:En; [|done]. intros [= <-]. apply ip4_network_chars in En.
    eapply str_all_impl; [apply addr_plain|exact En].
Qed.

(** ** Host names *)

Lemma dict_put_keys (P : string -> Prop) k v l :
  P k -> Forall (fun h => P h.1) l -> Forall (fun h => P h.1) (dict_put k v l).
Proof.
  intros Hk. induction l as [|[k' v'] l IH]; simpl; intros HF; [by repeat constructor|].
  apply Forall_cons in HF as [H1 HF]. case_bool_decide; constructor; auto.
Qed.

Lemma dict_put_values (P : string -> Prop) k v l :
  P v -> Forall (fun h => P h.2) l -> Forall (fun h => P h.2) (dict_put k v l).
Proof.
  intros Hk. induction l as [|[k' v'] l IH]; simpl; intros HF; [by repeat constructor|].
  apply Forall_cons in HF as [H1 HF]. case_bool_decide; constructor; auto.
Qed.

Lemma dict_put_length k v l : (length (dict_put k v l) <= S (length l))%nat.
Proof. induction l as [|[k' v'] l IH]; simpl; [lia|]. case_bool_decide; simpl; lia. Qed.

Lemma foldl_dict (P Q : string -> Prop) l out :
  Forall (fun h => P h.1 /\ Q h.2) l ->
  Forall (fun h => P h.1) out -> Forall (fun h => Q h.2) out ->
  let out' := foldl (fun out h => dict_put h.1 h.2 out) out l in
  Forall (fun h => P h.1) out' /\ Forall (fun h => Q h.2) out' /\ (length out' <= length out + length l)%nat.
Proof.
  revert out. induction l as [|[k v] l IH]; simpl; intros out HF HP HQ; [split_and!; [done|done|lia]|].
  apply Forall_cons in HF as [[H1 H2] HF]. pose proof (dict_put_length k v out).
  destruct (IH (dict_put k v out) HF) as (? & ? & ?); [by apply dict_put_keys|by apply dict_put_values|].
  split_and!; try done. simpl in *. lia.
Qed.

Lemma validate_hosts_ok kvs l :
  validate_hosts kvs = inr l ->
  (length l <= MAX_HOSTS)%nat /\ Forall (fun h => HOSTNAME h.1 = true) l /\ Forall (fun h => is_Some (ip4_parse h.2)) l.
Proof.
  unfold validate_hosts. destruct (Nat.ltb_spec MAX_HOSTS (length kvs)) as [|Hn]; [done|].
  intros (hs & E & [= <-])%rbind_inr. apply rmap_inr in E.
  assert (Forall (fun h => HOSTNAME h.1 = true /\ is_Some (ip4_parse h.2)) hs) as HF.
  { eapply Forall2_Forall_r; [exact E|]. apply Forall_forall. intros h _ y. unfold validate_host.
    case_match; [done|]. destruct (HOSTNAME _) eqn:Eh; simpl; [|done]. case_match; [done|].
    destruct (h.2); try done. destruct (ip4_parse (strip s)) eqn:E4; [|done]. intros [= <-]. simpl. rewrite E4. eauto. }
  destruct (foldl_dict (fun k => HOSTNAME k = true) (fun v => is_Some (ip4_parse v)) hs [] HF) as (? & ? & Hl);
    [constructor..|]. split_and!; try done. apply Forall2_length in E. simpl in Hl. lia.
Qed.

Lemma suffix_plain name :
  HOSTNAME name = true -> str_all (fun c => negb (bool_decide (c = newline))) name = true ->
  str_all plain (List.last (labels name) "") = true.
Proof.
  intros H Hn. apply (re_end_plain _ _ H) in Hn. apply andb_true_iff in Hn as [_ Hn]. rewrite forallb_forall in Hn.
  assert (List.In (List.last (labels name) "") (labels name)) as Hin.
  { pose proof (split_char_nonnil (fun d => bool_decide (d = "."%char)) name) as Hne.
    fold (split_on "."%char name) in Hne. fold (labels name) in Hne.
    destruct (exists_last Hne) as (l & x & ->). rewrite List.last_last. apply in_app_iff. right. by left. }
  apply Hn in Hin. apply label_ok_all in Hin. eapply str_all_impl; [|exact Hin]. class.
Qed.

(** * Lines and fields *)

Fixpoint count (c : ascii) (s : string) : nat :=
  match s with
  | EmptyString => 0
  | String x s' => (if bool_decide (x = c) then 1 else 0) + count c s'
  end%nat.

Lemma count_app c s t : count c (s +:+ t) = (count c s + count c t)%nat.
Proof.
  induction s as [|x s IH]; [by rewrite str_app_nil|]. rewrite str_app_cons. cbn [count]. rewrite IH. lia.
Qed.

Lemma plain_no_comma s : str_all plain s = true -> count ","%char s = 0%nat.
Proof.
  induction s as [|x s IH]; [done|]. cbn [str_all count]. rewrite andb_true_iff. intros [H1 H2].
  rewrite IH by done. unfold plain in H1. apply andb_true_iff in H1 as [_ H1]. apply negb_true_iff in H1. by rewrite H1.
Qed.

Lemma plain_line s : str_all plain s = true -> str_all (fun x => negb (bool_decide (x = newline))) s = true.
Proof. apply str_all_impl. class. Qed.

Lemma str_int_plain z : 0 <= z -> str_all plain (str_int z) = true.
Proof.
  intros Hz. destruct (str_int_uint z Hz) as (d & -> & _). apply string_of_uint_all. by apply digit_cases.
Qed.

Definition one_line (s : string) : Prop := str_all (fun x => negb (bool_decide (x = newline))) s = true.

Lemma artifact_plain d a :
  artifact_fields d = inr a -> contains "%" (af_endpoint a) = false ->
  str_all plain (af_endpoint a) = true /\ str_all plain (af_public_key a) = true /\
  str_all plain (default "" (head (af_names a))) = true /\ str_all plain (default "" (head (af_sids a))) = true /\
  0 <= af_port a.
Proof.
  unfold artifact_fields. case_match; [done|]. case_match; [done|].
  intros (e & He & E)%rbind_inr. apply rbind_inr in E as (k & Hk & E). apply rbind_inr in E as (ns & Hn & E).
  apply rbind_inr in E as (ss & Hs & E). apply rbind_inr in E as (p & Hp & E). injection E as <-. simpl. intros Hpct.
  split_and!.
  - by eapply validate_endpoint_plain.
  - by eapply validate_key_plain.
  - apply validate_names_plain in Hn as [Hne HF]. destruct ns; [done|]. by apply Forall_cons in HF as [Hx _].
  - apply validate_short_ids_plain in Hs. destruct ss; [done|]. by apply Forall_cons in Hs as [[_ Hx] _].
  - unfold validate_port in Hp. destruct (py_int _); [|done]. case_match; [|done]. simplify_eq. lia.
Qed.

(** A concatenation is one line when its pieces are. *)
Ltac pieces := unfold one_line; rewrite !str_all_app;
  repeat (apply andb_true_iff; split); first [by apply plain_line | by vm_compute].

Lemma conf_lines_one_line a cid tag suffixes nets :
  str_all plain (af_endpoint a) = true -> str_all plain (af_public_key a) = true ->
  str_all plain (default "" (head (af_names a))) = true -> str_all plain (default "" (head (af_sids a))) = true ->
  0 <= af_port a -> str_all plain cid = true -> str_all plain tag = true ->
  Forall (fun v => str_all plain v = true) suffixes -> Forall (fun v => str_all plain v = true) nets ->
  Forall one_line (conf_lines a cid tag suffixes nets) /\ count ","%char (proxy_line a cid tag) = 11%nat.
Proof.
  intros He Hk Hn Hs Hp Hc Ht Hsf Hnets. pose proof (str_int_plain _ Hp) as Hport. split.
  - unfold conf_lines. rewrite !Forall_app. split_and!.
    + repeat (apply Forall_cons; split; [|]); try apply Forall_nil; try (by vm_compute); try done.
      all: unfold proxy_line; pieces.
    + apply Forall_fmap. eapply Forall_impl; [exact Hsf|]. intros x Hx. simpl. pieces.
    + apply Forall_fmap. eapply Forall_impl; [exact Hnets|]. intros x Hx. simpl. pieces.
    + repeat constructor. pieces.
  - unfold proxy_line. rewrite !count_app.
    rewrite (plain_no_comma tag), (plain_no_comma cid), (plain_no_comma (af_endpoint a)) by done.
    rewrite (plain_no_comma (af_public_key a)), (plain_no_comma (str_int _)) by done.
    rewrite (plain_no_comma (default "" (head (af_names a)))), (plain_no_comma (default "" (head (af_sids a)))) by done.
    by vm_compute.
Qed.

Lemma artifact_endpoint d a :
  artifact_fields d = inr a -> contains "%" (strip (get "rw_endpoint" d)) = false ->
  contains "%" (af_endpoint a) = false.
Proof.
  unfold artifact_fields. case_match; [done|]. case_match; [done|].
  intros (e & He & Ha)%rbind_inr Hend. repeat (apply rbind_inr in Ha as (? & _ & Ha)). injection Ha as <-. simpl.
  apply contains_pct_all. apply contains_pct_all in Hend. apply str_all_strip in Hend as Hend2.
  apply str_all_strip in Hend2 as Hend3. unfold validate_endpoint, validate_hostname in He.
  repeat (case_match; try done); by simplify_eq.
Qed.

Lemma suffixes_plain json_loads d hosts :
  get_hosts json_loads d = inr hosts -> Forall (fun h => one_line h.1) hosts ->
  Forall (fun v => str_all plain v = true) (host_suffixes hosts).
Proof.
  intros Hh Hl. assert (Forall (fun h => HOSTNAME h.1 = true) hosts) as Hn.
  { unfold get_hosts in Hh. destruct (json_loads _) as [[]|]; simplify_eq; try constructor.
    by apply validate_hosts_ok in Hh as (_ & ? & _). }
  apply Forall_forall. intros v Hv. unfold host_suffixes in Hv.
  apply stable_sort_elem, elem_of_remove_dups, list_elem_of_fmap in Hv as (h & -> & Hin).
  rewrite Forall_forall in Hl. rewrite Forall_forall in Hn.
  apply suffix_plain; [exact (Hn h Hin)|exact (Hl h Hin)].
Qed.

(** the generated Shadowrocket profile has exactly the lines it was written with, and its proxy
    line exactly its twelve fields, whatever the stored settings are: no endpoint, server name,
    key, short id, host name, network or label can add a line, a section or a field.  This needs
    the client id and the mapped host names to be single lines, and an endpoint without a
    ['%']; the validators do not ensure these three. *)
Theorem conf_exact json_loads c nets d text
    (E : shadowrocket_conf json_loads c nets d = inr text)
    (Hid : one_line (cl_id c))
    (Hhosts : forall l, get_hosts json_loads d = inr l -> Forall (fun h => one_line h.1) l)
    (Hend : contains "%" (strip (get "rw_endpoint" d)) = false) :
  exists a hosts email, artifact_fields d = inr a /\ get_hosts json_loads d = inr hosts /\
    validate_email (cl_email c) = inr email /\
    split_on newline text = conf_lines a (cl_id c) (tag_of email) (host_suffixes hosts) nets /\
    count ","%char (proxy_line a (cl_id c) (tag_of email)) = 11%nat.
Proof.
  unfold shadowrocket_conf in E. apply rbind_inr in E as (a & Ha & E). apply rbind_inr in E as ([cid email] & Hc & E).
  apply rbind_inr in E as (hosts & Hh & E). apply rbind_inr in E as (nets' & Hn & E). injection E as <-.
  unfold artifact_client in Hc. destruct (UUID (cl_id c)) eqn:Eu; simpl in Hc; [|done].
  apply rbind_inr in Hc as (em & Hem & Hc). injection Hc as <- <-. cbn [fst snd].
  destruct (artifact_plain d a Ha (artifact_endpoint d a Ha Hend)) as (He & Hk & Hns & Hs & Hp).
  apply validate_nets_plain in Hn as [-> Hnp].
  destruct (conf_lines_one_line a (cl_id c) (tag_of em) (host_suffixes hosts) nets) as [Hl Hcount];
    try done; [by apply uuid_plain|apply tag_plain|by eapply suffixes_plain; [|apply Hhosts]|].
  exists a, hosts, em. split_and!; try done.
  by apply (split_on_join newline (conf_lines a (cl_id c) (tag_of em) (host_suffixes hosts) nets)).
Qed.

(** * The roster *)

Definition client_ok (c : client) : Prop := UUID (cl_id c) = true /\ EMAIL (cl_email c) = true.

Lemma read_client_json c : client_ok c -> read_client (client_json c) = Some c.
Proof. intros [H1 H2]. unfold read_client, client_json. simpl. rewrite H1, H2. by destruct c, cl_enabled. Qed.

Lemma read_client_ok j c : read_client j = Some c -> client_ok c.
Proof.
  unfold read_client. destruct j; try done. destruct (py_str _); [|done]. destruct (py_str _); [|done].
  destruct (UUID s) eqn:E1, (EMAIL s0) eqn:E2; simpl; try done. by intros [= <-].
Qed.

Lemma omap_read l : Forall client_ok l -> omap read_client (client_json <$> l) = l.
Proof.
  induction 1 as [|c l Hok _ IH]; [done|].
  change (match read_client (client_json c) with
          | Some y => y :: omap read_client (client_json <$> l)
          | None => omap read_client (client_json <$> l)
          end = c :: l).
  rewrite read_client_json by done. by rewrite IH.
Qed.

Section roster.
Context (loads : string -> option json) (dumps : json -> string).

(** [json.loads(json.dumps(l)) == l] for a list of clients. *)
Definition json_roundtrip (l : list client) : Prop :=
  loads (dumps (JArr (client_json <$> l))) = Some (JArr (client_json <$> l)).

Lemma get_clients_ok d : Forall client_ok (get_clients loads d).
Proof.
  apply Forall_forall. intros c Hc. unfold get_clients in Hc. apply list_elem_of_omap in Hc as (j & _ & Hj).
  by eapply read_client_ok.
Qed.

Lemma set_clients_run l d :
  json_roundtrip l -> constraints d -> Forall client_ok l ->
  exists d', set_clients dumps l d = (inr tt, d') /\ get_clients loads d' = l /\ constraints d' /\
    forall k, k <> "rw_clients" -> get_setting k d' = get_setting k d.
Proof.
  intros Hrt Hc Hl. unfold set_clients. rewrite set_setting_run by done. eexists; split; [done|]. split_and!.
  - unfold get_clients, roster, get. rewrite get_set_setting, decide_True, Hrt by done. simpl.
    by apply omap_read.
  - by apply constraints_settings.
  - intros k Hk. by rewrite get_set_setting, decide_False.
Qed.

Lemma delete_client_run id d :
  json_roundtrip (filter (fun c => cl_id c <> id) (get_clients loads d)) -> constraints d -> exists b d', delete_client loads dumps id d = (inr b, d') /\
    get_clients loads d' = filter (fun c => cl_id c <> id) (get_clients loads d) /\ constraints d' /\
    (forall k, k <> "rw_clients" -> get_setting k d' = get_setting k d) /\
    (b = true <-> exists c, c ∈ get_clients loads d /\ cl_id c = id).
Proof.
  intros Hrt Hc. unfold delete_client. set (clients := get_clients loads d).
  pose proof (get_clients_ok d) as Hok. fold clients in Hok.
  assert (length (filter (fun c => cl_id c <> id) clients) = length clients <-> ~ exists c, c ∈ clients /\ cl_id c = id) as Hlen.
  { clear Hok. induction clients as [|c l IH]; [split; [intros _ (? & H & _); by apply elem_of_nil in H|done]|].
    rewrite filter_cons. case_decide as Hd; simpl.
    - split; [intros E (x & [->|Hx]%elem_of_cons & Hi); [done|]|].
      + apply IH; [lia|eauto].
      + intros Hn. f_equal. apply IH. intros (x & Hx & Hi). apply Hn. exists x. split; [by right|done].
    - split; [|intros Hn; exfalso; apply Hn; exists c; split; [by left|destruct (decide (cl_id c = id)); done]].
      intros E. pose proof (length_filter (fun c => cl_id c <> id) l). lia. }
  case_bool_decide as E.
  - exists false, d. split_and!; try done.
    + fold clients. symmetry. clear -E. induction clients as [|c l IH]; [done|]. rewrite filter_cons in *.
      case_decide; simpl in E; [f_equal; apply IH; lia|].
      pose proof (length_filter (fun c => cl_id c <> id) l). lia.
    + split; [done|]. intros Hx. by apply Hlen in E.
  - destruct (set_clients_run (filter (fun c => cl_id c <> id) clients) d Hrt Hc) as (d' & E1 & Hg & Hc' & Hs).
    { rewrite Forall_forall in Hok |- *. intros c [_ Hin]%list_elem_of_filter. auto. }
    exists true, d'. unfold mbind. rewrite E1. split_and!; try done. split; [|done]. intros _.
    destruct (decide (Exists (fun c => cl_id c = id) clients)) as [Hx|Hx].
    + apply Exists_exists in Hx as (c & ? & ?). eauto.
    + exfalso. apply E, Hlen. intros (c & ? & ?). apply Hx, Exists_exists. eauto.
Qed.

Lemma set_enabled_run id b d :
  json_roundtrip (enable_in id b <$> get_clients loads d) -> constraints d -> exists r d', set_client_enabled loads dumps id b d = (inr r, d') /\
    get_clients loads d' = enable_in id b <$> get_clients loads d /\ constraints d' /\
    (forall k, k <> "rw_clients" -> get_setting k d' = get_setting k d) /\
    (r = true <-> exists c, c ∈ get_clients loads d /\ cl_id c = id).
Proof.
  intros Hrt Hc. unfold set_client_enabled. set (clients := get_clients loads d).
  pose proof (get_clients_ok d) as Hok. fold clients in Hok.
  destruct (existsb _ clients) eqn:E.
  - destruct (set_clients_run (enable_in id b <$> clients) d Hrt Hc) as (d' & E1 & Hg & Hc' & Hs).
    { apply Forall_fmap. eapply Forall_impl; [exact Hok|]. intros c Hx. simpl. unfold enable_in. by case_bool_decide. }
    exists true, d'. unfold mbind. rewrite E1. split_and!; try done. split; [|done]. intros _.
    apply existsb_exists in E as (c & Hin & Hid). exists c. split; [by apply list_elem_of_In|by apply bool_decide_eq_true in Hid].
  - exists false, d. split_and!; try done.
    + fold clients. assert (Forall (fun c => cl_id c <> id) clients) as HF.
      { apply Forall_forall. intros c Hin Hid. rewrite <-not_true_iff_false in E. apply E, existsb_exists.
        exists c. split; [by apply list_elem_of_In|by apply bool_decide_eq_true]. }
      clear -HF. induction HF as [|c l Hx _ IH]; [done|]. rewrite fmap_cons. f_equal; [|done].
      unfold enable_in. by rewrite bool_decide_eq_false_2.
    + split; [done|]. intros (c & Hin & Hid). rewrite <-not_true_iff_false in E. destruct E. apply existsb_exists.
      exists c. split; [by apply list_elem_of_In|by apply bool_decide_eq_true].
Qed.

End roster.

(** What [resolve] gives is the enabled part of the roster and validated settings. *)
Lemma resolve_inv loads d r :
  resolve loads d = inr (Some r) ->
  get "rw_enabled" d = "1" /\ 1 <= rw_port r <= 65535 /\
  rw_clients r = (fun c => (cl_id c, cl_email c)) <$> filter (fun c => cl_enabled c = true) (get_clients loads d) /\
  rw_clients r <> [] /\
  (rw_server_names r <> [] /\ Forall (fun v => str_all plain v = true) (rw_server_names r)) /\
  Forall (fun v => short_id_ok v = true) (rw_short_ids r) /\
  ((length (rw_hosts r) <= MAX_HOSTS)%nat /\ Forall (fun h => is_Some (ip4_parse h.2)) (rw_hosts r)).
Proof.
  unfold resolve. destruct (bool_decide_reflect (get "rw_enabled" d = "1")) as [He|]; simpl; [|done].
  destruct (bool_decide (strip (get "rw_private_key" d) = "")); [done|].
  destruct (bool_decide_reflect (length (filter (fun c => cl_enabled c = true) (get_clients loads d)) = 0%nat)) as [|Hl]; [done|].
  intros (port & Hp & E)%rbind_inr. apply rbind_inr in E as (dest & Hd & E). apply rbind_inr in E as (ns & Hn & E).
  apply rbind_inr in E as (k & Hk & E). apply rbind_inr in E as (ss & Hs & E). apply rbind_inr in E as (hs & Hh & E).
  injection E as <-. cbn [rw_port rw_dest rw_server_names rw_private_key rw_short_ids rw_clients rw_hosts].
  assert (1 <= port <= 65535).
  { unfold validate_port in Hp. destruct (py_int _) as [z|]; [|done].
    destruct ((1 <=? z) && (z <=? 65535)) eqn:Ez; [|done]. simplify_eq. lia. }
  split_and!; try done; try lia.
  - intros E. apply Hl. by rewrite <-(length_fmap (fun c => (cl_id c, cl_email c))), E.
  - apply (validate_names_plain _ _ Hn).
  - apply (validate_names_plain _ _ Hn).
  - apply validate_short_ids_plain in Hs. eapply Forall_impl; [exact Hs|]. by intros ? [].
  - unfold get_hosts in Hh. destruct (loads _) as [[]|]; simplify_eq; simpl; try lia.
    by apply validate_hosts_ok in Hh as (? & _ & _).
  - unfold get_hosts in Hh. destruct (loads _) as [[]|]; simplify_eq; try constructor.
    by apply validate_hosts_ok in Hh as (_ & _ & ?).
Qed.

(** After a deletion or a suspension the id is not enabled, and every other client is as it was. *)
Lemma revoked_roster loads dumps id d op :
  constraints d ->
  json_roundtrip loads dumps (filter (fun c => cl_id c <> id) (get_clients loads d)) ->
  json_roundtrip loads dumps (enable_in id false <$> get_clients loads d) ->
  op = delete_client loads dumps id \/ op = set_client_enabled loads dumps id false ->
  exists b d', op d = (inr b, d') /\ constraints d' /\ (forall k, k <> "rw_clients" -> get_setting k d' = get_setting k d) /\
    (b = true <-> exists c, c ∈ get_clients loads d /\ cl_id c = id) /\
    (forall c, c ∈ get_clients loads d' -> cl_enabled c = true -> cl_id c <> id) /\
    (forall c, c ∈ get_clients loads d -> cl_enabled c = true -> cl_id c <> id -> c ∈ get_clients loads d').
Proof.
  intros Hc Hdel Hsus [-> | ->].
  - destruct (delete_client_run loads dumps id d Hdel Hc) as (b & d' & E & Hg & Hc' & Hk & Hb).
    exists b, d'. rewrite Hg. split_and!; try done; intros c; rewrite list_elem_of_filter; naive_solver.
  - destruct (set_enabled_run loads dumps id false d Hsus Hc) as (b & d' & E & Hg & Hc' & Hk & Hb).
    exists b, d'. rewrite Hg. split_and!; try done.
    + intros c (c' & -> & _)%list_elem_of_fmap. unfold enable_in. by case_bool_decide.
    + intros c Hin _ Hne. apply list_elem_of_fmap. exists c. split; [|done]. unfold enable_in.
      by rewrite bool_decide_eq_false_2.
Qed.

Lemma block_grants x :
  rw_grants (rw_inbound_block x) =
    [("port", Some (JNum (rw_port x)))] ++ ((fun c => ("client", Some (JStr c.1))) <$> rw_clients x)
    ++ [("privateKey", Some (JStr (rw_private_key x))); ("dest", Some (JStr (rw_dest x)))]
    ++ ((fun i => ("shortId", Some (JStr i))) <$> rw_short_ids x)
    ++ ((fun i => ("serverName", Some (JStr i))) <$> rw_server_names x).
Proof. unfold rw_grants, list_grants; simpl. by rewrite <- !list_fmap_compose. Qed.

(** An inbound grants exactly the enabled ids. *)
Lemma granted_ids loads d x id :
  resolve loads d = inr (Some x) ->
  ("client", Some (JStr id)) ∈ rw_grants (rw_inbound_block x) <->
  exists c, c ∈ get_clients loads d /\ cl_enabled c = true /\ cl_id c = id.
Proof.
  intros Hr. apply resolve_inv in Hr as (_ & _ & Hcl & _). rewrite block_grants, Hcl, <-list_fmap_compose. split.
  - rewrite !elem_of_app, !list_elem_of_fmap. intros [Hin|[Hin|[Hin|[Hin|Hin]]]].
    + set_solver.
    + destruct Hin as (c & Hq & [Hen Hin]%list_elem_of_filter). simpl in Hq. injection Hq as ->. by exists c.
    + set_solver.
    + by destruct Hin as (? & ? & _).
    + by destruct Hin as (? & ? & _).
  - intros (c & Hin & Hen & <-). rewrite !elem_of_app. right. left. apply list_elem_of_fmap. exists c. split; [done|].
    by apply list_elem_of_filter.
Qed.

(** a revoked client is in no configuration.  Once a client has been deleted or suspended, every
    configuration built from the store has no inbound that grants its id, and every other enabled
    client is still granted when remote access resolves; the operation answers yes exactly when
    the id was in the roster.  [json.loads] is taken to read back the roster [json.dumps] wrote. *)
Theorem revoked_not_granted loads dumps id d (Hc : constraints d)
    (Hdel : json_roundtrip loads dumps (filter (fun c => cl_id c <> id) (get_clients loads d)))
    (Hsus : json_roundtrip loads dumps (enable_in id false <$> get_clients loads d)) :
  forall op, op = delete_client loads dumps id \/ op = set_client_enabled loads dumps id false ->
  exists b d', op d = (inr b, d') /\
    (b = true <-> exists c, c ∈ get_clients loads d /\ cl_id c = id) /\
    forall n s p routing tunneled stats dns strategy ipv6 explicit r cfg,
      resolve loads d' = inr r ->
      build_config n s p routing tunneled stats dns strategy ipv6 explicit r = inr cfg ->
      (forall ib, ib ∈ cfg_inbounds cfg -> ("client", Some (JStr id)) ∉ rw_grants ib) /\
      (forall c x, r = Some x -> c ∈ get_clients loads d -> cl_enabled c = true -> cl_id c <> id ->
         ("client", Some (JStr (cl_id c))) ∈ rw_grants (rw_inbound_block x)).
Proof.
  intros op Hop. destruct (revoked_roster loads dumps id d op Hc Hdel Hsus Hop) as (b & d' & E & _ & _ & Hb & Hgone & Hkept).
  exists b, d'. split_and!; try done. intros n s p routing tunneled stats dns strategy ipv6 explicit r cfg Hr Hcfg.
  apply build_parts in Hcfg as (_ & _ & _ & _ & _ & _ & _ & _ & _ & _ & _ & _ & Hib & _). split.
  - intros ib Hin. rewrite Hib in Hin. unfold inbounds in Hin. rewrite !elem_of_app in Hin.
    destruct Hin as [Hin|[Hin|[Hin|[Hin|Hin]]]].
    1-4: repeat case_match; try (by apply elem_of_nil in Hin); apply list_elem_of_singleton in Hin as ->; set_solver.
    destruct r as [x|]; [|by apply elem_of_nil in Hin]. apply list_elem_of_singleton in Hin as ->.
    rewrite (granted_ids loads d' x id Hr). intros (c & Hin & Hen & Hid). by apply (Hgone c).
  - intros c x -> Hin Hen Hne. apply (granted_ids loads d' x (cl_id c) Hr). exists c. auto.
Qed.

(** Two clients, one of them lost. *)
Module Roster.

Definition id1 : string := "11111111-2222-3333-4444-555555555555".
Definition id2 : string := "aaaaaaaa-bbbb-cccc-dddd-eeeeeeeeeeee".
Definition phone : client := Client id1 "phone" true.
Definition laptop : client := Client id2 "laptop" true.

Definition text_of (r : rw_error + string) : string := match r with inr t => t | inl _ => "" end.

(** Enough of [json] for these rosters: the printed form of a list of clients, and reading it back. *)
Definition print_client (j : json) : string :=
  match j with
  | JObj [(_, JStr i); (_, JStr e); (_, JBool b)] => i +:+ " " +:+ e +:+ (if b then " 1;" else " 0;")
  | _ => "?"
  end.
Definition dumps0 (v : json) : string :=
  match v with JArr l => foldr (fun j s => print_client j +:+ s) "" l | _ => "?" end.
Definition rosters : list (list client) :=
  [[phone; laptop]; [laptop]; [phone]; [Client id1 "phone" false; laptop]; []].
Definition loads0 (s : string) : option json :=
  (fun l => JArr (client_json <$> l)) <$> head (filter (fun l => dumps0 (JArr (client_json <$> l)) = s) rosters).

Definition key43 : string := "AAAAAAAAAAAAAAAAAAAAAAAAAAAAAAAAAAAAAAAAAAA".
Definition rw_db (endpoint : string) : db :=
  set_settings {[ "rw_enabled" := "1"; "rw_private_key" := key43; "rw_public_key" := key43;
                  "rw_endpoint" := endpoint; "rw_clients" := dumps0 (JArr (client_json <$> [phone; laptop])) ]} empty_db.

Example rw_resolves :
  resolve loads0 (rw_db "home.example.com") =
  inr (Some (Rw 443 "www.microsoft.com:443" ["www.microsoft.com"] key43 [] [(id1, "phone"); (id2, "laptop")] [])).
Proof. by vm_compute. Qed.

Lemma revoked_not_granted_witness :
  exists b d', delete_client loads0 dumps0 id1 (rw_db "home.example.com") = (inr b, d') /\ b = true /\
    resolve loads0 d' = inr (Some (Rw 443 "www.microsoft.com:443" ["www.microsoft.com"] key43 [] [(id2, "laptop")] [])).
Proof.
  destruct (revoked_not_granted loads0 dumps0 id1 (rw_db "home.example.com")) with
    (op := delete_client loads0 dumps0 id1) as (b & d' & E & Hb & _).
  - apply (bool_decide_unpack _). by vm_compute.
  - by vm_compute.
  - by vm_compute.
  - by left.
  - exists b, d'. split; [exact E|]. split.
    + apply Hb. exists phone. split; [|done]. apply (bool_decide_unpack _). by vm_compute.
    + assert (d' = (delete_client loads0 dumps0 id1 (rw_db "home.example.com")).2) as -> by (by rewrite E).
      by vm_compute.
Defined.

Lemma conf_exact_witness :
  exists a hosts email, artifact_fields (rw_db "home.example.com") = inr a /\
    get_hosts loads0 (rw_db "home.example.com") = inr hosts /\
    validate_email (cl_email phone) = inr email /\
    count ","%char (proxy_line a (cl_id phone) (tag_of email)) = 11%nat.
Proof.
  destruct (conf_exact loads0 phone ["192.168.1.0/24"] (rw_db "home.example.com")
    (text_of (shadowrocket_conf loads0 phone ["192.168.1.0/24"] (rw_db "home.example.com")))) as (a & hosts & em & Ha & Hh & Hm & _ & Hc).
  - by vm_compute.
  - by vm_compute.
  - assert (get_hosts loads0 (rw_db "home.example.com") = inr []) as -> by (by vm_compute). intros l [= <-]. constructor.
  - by vm_compute.
  - by exists a, hosts, em.
Defined.

(** What the validators let through: a scope in an IPv6 endpoint is any text, so it can carry
    lines of its own; and a stored id may end in a newline. *)
Definition evil : string :=
  "[fe80::1%x" +:+ String newline "[Rule]" +:+ String newline "FINAL,DIRECT" +:+ String newline "#]".

Lemma endpoint_injects_lines :
  let conf := shadowrocket_conf loads0 phone [] (rw_db evil) in
  conf = inr (text_of conf) /\ "FINAL,DIRECT" ∈ split_on newline (text_of conf).
Proof. split; [by vm_compute|]. apply (bool_decide_unpack _). by vm_compute. Qed.

Lemma id_newline_accepted :
  read_client (client_json (Client (id1 +:+ String newline "") "phone" true)) =
    Some (Client (id1 +:+ String newline "") "phone" true) /\
  let conf := shadowrocket_conf loads0 (Client (id1 +:+ String newline "") "phone" true) [] (rw_db "home.example.com") in
  conf = inr (text_of conf) /\
    ", tls=true, network=tcp, flow=xtls-rprx-vision, sni=www.microsoft.com, fingerprint=chrome, reality-public-key="
      +:+ key43 +:+ ", reality-short-id=, udp=true" ∈ split_on newline (text_of conf).
Proof. split; [by vm_compute|]. split; [by vm_compute|]. apply (bool_decide_unpack _). by vm_compute. Qed.

(** A destination with a space before the colon is accepted and kept. *)
Lemma dest_space_kept : validate_dest "www.microsoft.com :443" = inr "www.microsoft.com :443".
Proof. by vm_compute. Qed.

End Roster.
