(* ===== verification/Plan.v ===== *)
(** [net_control/plan.py]: the network plan, from the configuration and the
    operator's overrides in the settings table. *)
From Stdlib Require Import ZArith Lia Ascii.
From stdpp Require Import base gmap strings list.
From S2P Require Import Prelude PyStr Models Config Store.
Open Scope string_scope.
Open Scope Z_scope.

Record plan := Plan {
  np_tproxy_port : Z;
  np_fwmark : Z;
  np_egress_mark : Z;
  np_table : Z;
  np_segment_iface : string;
  np_segment_ip : string;
  np_dhcp_start : string;
  np_dhcp_end : string;
  np_dhcp_lease : string;
  np_client_dns : string;
  np_client_dns6 : string;
  np_dnsmasq_leases : string;
  np_kill_switch : bool;
  np_ipv6_enabled : bool;
  np_segment_ip6 : string;
  np_tproxy_port6 : Z;
  np_lan_access : bool;
  np_mgmt_iface : string;
  np_mgmt_ip : string;
  np_extra_ifaces : list string;
  np_reservations : list (string * string * string)
}.

(** [os.path.isabs], [os.path.basename] and [os.path.join] on POSIX. *)
Definition isabs (p : string) : bool := startswith p "/".
Definition basename (p : string) : string := List.last (split_on "/"%char p) "".
Definition path_join (a b : string) : string :=
  if isabs b then b
  else if bool_decide (a = "") then b
  else if bool_decide (str_last 1 a = "/") then a +:+ b else a +:+ "/" +:+ b.

Definition abs_leases (path data_dir : string) : string :=
  let path := if bool_decide (path = "") then "data/dnsmasq.leases" else path in
  if isabs path then path else path_join data_dir (basename path).

Definition from_settings (s : settings) : plan :=
  Plan (c_tproxy_port s) (c_fwmark s) (c_egress_mark s) (c_table s) (c_segment_iface s) (c_segment_ip s)
    (c_dhcp_start s) (c_dhcp_end s) (c_dhcp_lease s) (c_client_dns s) (c_client_dns6 s)
    (abs_leases (c_dnsmasq_leases s) (c_data_dir s)) false false (c_segment_ip6 s) (c_tproxy_port6 s)
    (c_lan_access s) (c_mgmt_iface s) (c_mgmt_ip s) [] [].

Definition flag_setting (key dflt : string) (d : db) : bool := bool_decide (get_setting key d or dflt = "1").

Definition from_store (d : db) (s : settings) : plan :=
  Plan (c_tproxy_port s) (c_fwmark s) (c_egress_mark s) (c_table s)
    (get_setting "segment_iface" d or c_segment_iface s) (get_setting "segment_ip" d or c_segment_ip s)
    (get_setting "dhcp_start" d or c_dhcp_start s) (get_setting "dhcp_end" d or c_dhcp_end s)
    (get_setting "dhcp_lease" d or c_dhcp_lease s) (get_setting "client_dns" d or c_client_dns s)
    (get_setting "client_dns6" d or c_client_dns6 s)
    (abs_leases (c_dnsmasq_leases s) (c_data_dir s))
    (flag_setting "kill_switch_enabled" "1" d) (flag_setting "ipv6_enabled" "0" d)
    (get_setting "segment_ip6" d or c_segment_ip6 s) (c_tproxy_port6 s)
    (flag_setting "lan_access_enabled" (if c_lan_access s then "1" else "0") d)
    (c_mgmt_iface s) (c_mgmt_ip s) []
    ((fun r => (res_mac r, res_ip r, res_name r)) <$> list_reservations d).

(** [provision.covering_plan] *)
Definition covering_plan (p : plan) (extra : list string) : plan :=
  Plan (np_tproxy_port p) (np_fwmark p) (np_egress_mark p) (np_table p) (np_segment_iface p)
    (np_segment_ip p) (np_dhcp_start p) (np_dhcp_end p) (np_dhcp_lease p) (np_client_dns p)
    (np_client_dns6 p) (np_dnsmasq_leases p) (np_kill_switch p) (np_ipv6_enabled p) (np_segment_ip6 p)
    (np_tproxy_port6 p) (np_lan_access p) (np_mgmt_iface p) (np_mgmt_ip p) extra (np_reservations p).

Record net_result := NetResult { nr_ok : bool; nr_rendered : string; nr_error : string; nr_warning : string }.
Definition net_failed (error : string) : net_result := NetResult false "" error "".
Definition net_fine : net_result := NetResult true "" "" "".
