(* ===== verification/Enforcement.v ===== *)
(** The half of [controller.py] that installs and records host enforcement:
    [_record_enforcement], [_call_net], [apply_net], [stop_net], [sync_net],
    [sync_net_plan] and [boot_guard].

    [NetHost] is the interface the controller uses of the network backend and of
    [net_control/provision.py]: three calls that may change the host and may answer
    anything, the release of the emergency deny, its note, and the record of the
    interfaces that may still carry the segment.  [net] is the long-lived backend
    object: the host, the enforcement snapshot the API reads, and (a ghost) the
    calls made so far, in order. *)
From Stdlib Require Import ZArith Lia.
From stdpp Require Import base gmap strings list.
From S2P Require Import Prelude PyStr Models Config Store Plan.
Open Scope string_scope.
Open Scope Z_scope.

(** What calling a backend method gives. *)
Inductive net_call := CallRaised (exc : string) | CallNotResult | CallResult (r : net_result).

(** [provision.Cover] *)
Record cover := Cover { cv_names : list string; cv_unknown : list string }.
Definition cover_known (c : cover) : bool := bool_decide (cv_unknown c = []).
Definition cover_why (c : cover) : string := join "; " (cv_unknown c).

Class NetHost (H : Type) := {
  nh_apply_tproxy : plan -> H -> net_call * H;
  nh_apply_guard : option (plan -> H -> net_call * H);
  nh_teardown : H -> net_call * H;
  nh_release_emergency : H -> (string + string) * H;
  nh_fallback_note : H -> string;
  nh_enforcement_cover : db -> string -> string + cover
}.

(** A call on the host. *)
Inductive net_op := OpTproxy (p : plan) | OpGuard (p : plan) | OpTeardown.

Record net (H : Type) := Net {
  n_host : H;
  n_status : string;
  n_wan_blocked : option bool;
  n_error : string;
  n_warning : string;
  n_calls : list net_op
}.
Arguments Net {H}.
Arguments n_host {H}.
Arguments n_status {H}.
Arguments n_wan_blocked {H}.
Arguments n_error {H}.
Arguments n_warning {H}.
Arguments n_calls {H}.

Definition set_host {H} (h : H) (x : net H) : net H :=
  Net h (n_status x) (n_wan_blocked x) (n_error x) (n_warning x) (n_calls x).
Definition log_call {H} (o : net_op) (x : net H) : net H :=
  Net (n_host x) (n_status x) (n_wan_blocked x) (n_error x) (n_warning x) (n_calls x ++ [o])%list.

Section enforcement.
Context `{NetHost H}.
Context (s : settings).

(** [str(exc) or exc.__class__.__name__] is the exception's text here. *)
Definition release_emergency_deny (x : net H) : string * net H :=
  let '(res, h) := nh_release_emergency (n_host x) in
  let x' := set_host h x in
  let why := match res with
             | inr w => w
             | inl exc => "the segment enforcement is installed, but the emergency deny on forwarded traffic could not be removed, so segment clients may still have no network: " +:+ exc
             end in
  (Some why or nh_fallback_note h, x').

Definition record_enforcement (r : net_result) (wan : option bool) (x : net H) : net_result * net H :=
  let '(r, x) :=
    if nr_ok r then
      let '(held, x') := release_emergency_deny x in
      if bool_decide (held = "") then (r, x')
      else (NetResult false (nr_rendered r) held "", x')
    else (r, x) in
  (r, Net (n_host x) (if nr_ok r then "ok" else "error") (if nr_ok r then wan else None)
        (if nr_ok r then "" else Some (nr_error r) or "network operation failed")
        (if nr_ok r then nr_warning r else "") (n_calls x)).

Definition op_name (o : net_op) : string :=
  match o with OpTproxy _ => "apply_tproxy" | OpGuard _ => "apply_guard" | OpTeardown => "teardown" end.

(** [getattr(net, method)(plan)]; a backend without [apply_guard] is asked about before. *)
Definition perform (o : net_op) (h : H) : net_call * H :=
  match o with
  | OpTproxy p => nh_apply_tproxy p h
  | OpGuard p => match nh_apply_guard with Some f => f p h | None => (CallNotResult, h) end
  | OpTeardown => nh_teardown h
  end.

Definition call_net (o : net_op) (wan : option bool) (x : net H) : net_result * net H :=
  let '(c, h) := perform o (n_host x) in
  let r := match c with
           | CallRaised exc => net_failed (op_name o +:+ " raised: " +:+ exc)
           | CallNotResult => net_failed (op_name o +:+ " returned no NetResult")
           | CallResult r => r
           end in
  record_enforcement r wan (log_call o (set_host h x)).

Definition refuse_enforcement (reason : string) (x : net H) : net_result * net H :=
  record_enforcement (net_failed reason) None x.

(** How rendering a plan ends: an exception, a refusal, a plan. *)
Inductive rendered := RenderRaised (exc : string) | RenderRefused (why : string) | RenderPlan (p : plan).

Definition enforcement_plan (d : db) : rendered :=
  let p := from_store d s in
  match nh_enforcement_cover d (np_segment_iface p) with
  | inl exc => RenderRaised exc
  | inr c =>
      if negb (cover_known c) then
        RenderRefused ("the interfaces that may still be carrying the segment could not be established, so the enforcement already on the host was left exactly as it is: " +:+ cover_why c)
      else RenderPlan (if bool_decide (cv_names c = []) then p else covering_plan p (cv_names c))
  end.

(** [inl] is an exception that reaches the caller. *)
Definition apply_net (d : db) (x : net H) : (string + net_result) * net H :=
  match enforcement_plan d with
  | RenderRaised exc => (inl exc, x)
  | RenderRefused why => let '(r, x') := refuse_enforcement why x in (inr r, x')
  | RenderPlan p => let '(r, x') := call_net (OpTproxy p) (Some false) x in (inr r, x')
  end.

Definition kill_switch_on (d : db) : bool := flag_setting "kill_switch_enabled" "1" d.

Definition NO_GUARD : string := "network backend cannot install fail-closed guard".

Definition stop_net (d : db) (x : net H) : net_result * net H :=
  if kill_switch_on d then
    match nh_apply_guard with
    | None => record_enforcement (net_failed NO_GUARD) None x
    | Some _ =>
        match enforcement_plan d with
        | RenderRefused why => refuse_enforcement why x
        | RenderRaised exc => record_enforcement (net_failed ("could not render the net plan: " +:+ exc)) None x
        | RenderPlan p => call_net (OpGuard p) (Some true) x
        end
    end
  else call_net OpTeardown (Some false) x.

Inductive mode := ModeTproxy | ModeGuard | ModeTeardown.

Definition enforcement_mode (running : bool) (d : db) : mode :=
  if running && truthy (get_setting "active_node_id" d) then ModeTproxy
  else if kill_switch_on d then ModeGuard else ModeTeardown.

Definition sync_net (running : bool) (d : db) (x : net H) : (string + net_result) * net H :=
  match enforcement_mode running d with
  | ModeTproxy => apply_net d x
  | _ => let '(r, x') := stop_net d x in (inr r, x')
  end.

Definition sync_net_plan (running : bool) (p : plan) (d : db) (x : net H) : net_result * net H :=
  match enforcement_mode running d with
  | ModeTproxy => call_net (OpTproxy p) (Some false) x
  | ModeGuard =>
      match nh_apply_guard with
      | None => record_enforcement (net_failed NO_GUARD) None x
      | Some _ => call_net (OpGuard p) (Some true) x
      end
  | ModeTeardown => call_net OpTeardown (Some false) x
  end.

(** [None]: the kill switch is off and a disconnect is a teardown. *)
Definition disconnected_guard_plan (d : db) : option rendered :=
  if kill_switch_on d then Some (enforcement_plan d) else None.

Definition boot_guard (d : db) (x : net H) : net_result * net H :=
  if kill_switch_on d then stop_net d x else (net_fine, x).

(** * What the recording guarantees *)

(** The snapshot says what the result says. *)
Lemma record_snapshot r wan x :
  let '(r', x') := record_enforcement r wan x in
  (n_status x' = "ok" <-> nr_ok r' = true) /\
  (nr_ok r' = true -> nr_ok r = true /\ n_wan_blocked x' = wan /\ n_error x' = "" /\
     exists h, nh_release_emergency (n_host x) = (inr "", h) /\ nh_fallback_note h = "" /\ n_host x' = h) /\
  (nr_ok r' = false -> n_error x' <> "" /\ n_wan_blocked x' = None /\ n_warning x' = "") /\
  n_calls x' = n_calls x /\ (nr_ok r = false -> n_host x' = n_host x).
Proof.
  unfold record_enforcement, release_emergency_deny.
  assert (forall e, Some e or "network operation failed" <> "") as Herr by (by intros []).
  destruct (nr_ok r) eqn:Er; simpl.
  - destruct (nh_release_emergency (n_host x)) as [res h]. simpl. case_bool_decide as Eh; simpl.
    + rewrite Er. destruct res as [exc|w]; [by destruct exc|]. destruct w; [|done]. simpl in Eh.
      split_and!; try done. intros _. split_and!; try done. by exists h.
    + split_and!; try done. intros _. split_and!; [apply Herr|done|done].
  - rewrite Er. split_and!; try done. intros _. split_and!; [apply Herr|done|done].
Qed.

End enforcement.
