(* ===== verification/EnforcementProps.v ===== *)
(** Properties of the host-enforcement half of [controller.py] ([Enforcement.v]), for
    any network backend and any sequence of enforcement requests: the snapshot the
    API reads is earned, the kill switch never opens the segment, and what is
    installed covers every interface that may still carry it. *)
From Stdlib Require Import ZArith Lia.
From stdpp Require Import base gmap strings list.
From S2P Require Import Prelude PyStr Models Config Store Plan Enforcement.
Open Scope string_scope.
Open Scope Z_scope.

(** A request to the enforcement layer, with whether xray runs at that moment. *)
Inductive request :=
  | RApply | RStop | RSync (running : bool) | RSyncPlan (running : bool) (p : plan) | RBoot.

Section requests.
Context `{NetHost H}.
Context (s : settings).

(** The request is served: the backend object after it.  [apply_net] may raise to its caller. *)
Definition serve (d : db) (r : request) (x : net H) : net H :=
  match r with
  | RApply => (apply_net s d x).2
  | RStop => (stop_net s d x).2
  | RSync running => (sync_net s running d x).2
  | RSyncPlan running p => (sync_net_plan running p d x).2
  | RBoot => (boot_guard s d x).2
  end.

Definition serve_all (l : list (db * request)) (x : net H) : net H :=
  foldl (fun x q => serve q.1 q.2 x) x l.

(** How one request can end: nothing touched, a recorded refusal, one call. *)
Definition calls_of (d : db) (o : net_op) : Prop :=
  match o with
  | OpTproxy p | OpGuard p => enforcement_plan s d = RenderPlan p
  | OpTeardown => kill_switch_on d = false
  end.

Inductive outcome (x : net H) : net H -> Prop :=
  | out_same : outcome x x
  | out_refused r : nr_ok r = false -> outcome x (record_enforcement r None x).2
  | out_called o : outcome x (call_net o (Some (match o with OpGuard _ => true | _ => false end)) x).2.

Lemma snd_let {A B C} (g : A -> C) (f : A * B) : (let '(r, y) := f in (g r, y)).2 = f.2.
Proof. by destruct f. Qed.

Lemma apply_outcome d x : outcome x (apply_net s d x).2.
Proof.
  unfold apply_net, refuse_enforcement. destruct (enforcement_plan s d) as [exc|why|p].
  - constructor.
  - rewrite (snd_let inr). by apply out_refused.
  - rewrite (snd_let inr). apply (out_called x (OpTproxy p)).
Qed.

Lemma stop_outcome d x : outcome x (stop_net s d x).2.
Proof.
  unfold stop_net, refuse_enforcement. destruct (kill_switch_on d); [|apply (out_called x OpTeardown)].
  destruct nh_apply_guard as [g|]; [|by apply out_refused].
  destruct (enforcement_plan s d) as [exc|why|p]; [by apply out_refused..|apply (out_called x (OpGuard p))].
Qed.

Lemma serve_outcome d r x : outcome x (serve d r x).
Proof.
  destruct r as [| |running|running p|]; simpl.
  - apply apply_outcome.
  - apply stop_outcome.
  - unfold sync_net. destruct (enforcement_mode running d); [apply apply_outcome|..].
    all: rewrite (snd_let inr); apply stop_outcome.
  - unfold sync_net_plan. destruct (enforcement_mode running d).
    + apply (out_called x (OpTproxy p)).
    + destruct nh_apply_guard as [g|]; [apply (out_called x (OpGuard p))|by apply out_refused].
    + apply (out_called x OpTeardown).
  - unfold boot_guard. destruct (kill_switch_on d); [apply stop_outcome|constructor].
Qed.

(** The snapshot is earned: "ok" needs a last call, a forward path nothing holds, and no error
    text; [wan_blocked] says which ruleset that call installed. *)
Definition earned (x : net H) : Prop :=
  (n_status x = "ok" ->
     nh_fallback_note (n_host x) = "" /\ n_error x = "" /\
     exists o, last (n_calls x) = Some o /\ n_wan_blocked x = Some (match o with OpGuard _ => true | _ => false end)) /\
  (n_status x <> "ok" -> n_wan_blocked x = None).

Lemma outcome_earned x x' : outcome x x' -> earned x -> earned x'.
Proof.
  destruct 1 as [|r Hr|o]; intros He; [done|..].
  - pose proof (record_snapshot r None x) as Hrec. destruct (record_enforcement r None x) as [r' y]. simpl.
    destruct Hrec as ((Hok & _) & Hyes & Hno & _ & _). split; intros Hst.
    + destruct (Hyes (Hok Hst)) as (Ht & _). congruence.
    + destruct (nr_ok r') eqn:Er; [|by apply Hno].
      destruct (Hyes eq_refl) as (Ht & _). congruence.
  - unfold call_net. destruct (perform o (n_host x)) as [c h]. simpl.
    set (w := Some _). set (r := match c with CallRaised _ => _ | _ => _ end).
    pose proof (record_snapshot r w (log_call o (set_host h x))) as Hrec.
    destruct (record_enforcement r w _) as [r' y]. simpl.
    destruct Hrec as (Hst & Hyes & Hno & Hcalls & _). split; intros Hs.
    + destruct (Hyes (proj1 Hst Hs)) as (_ & Hw & He' & h' & _ & Hnote & Hh).
      rewrite Hh. split_and!; [done..|]. exists o. rewrite Hcalls, Hw. split; [|done].
      simpl. by rewrite last_snoc.
    + destruct (nr_ok r') eqn:Er; [|by apply Hno]. by destruct Hs; apply Hst.
Qed.

(** The plan of the stored settings, widened to every interface of the cover. *)
Definition covered (d : db) (c : cover) : plan := covering_plan (from_store d s) (cv_names c).
(** The cover of the stored segment, with no source that could not answer. *)
Definition full_cover (d : db) (c : cover) : Prop :=
  nh_enforcement_cover d (np_segment_iface (from_store d s)) = inr c /\ cv_unknown c = [].

(** What a request installs under the kill switch: with xray running on an active node the
    tunnel's rules, else the guard; for the stored plan and its whole cover, or for the plan the
    caller of a retarget passes. *)
Definition rules_for (up : bool) (p : plan) : net_op := if up then OpTproxy p else OpGuard p.
Definition tunnel_wanted (running : bool) (d : db) : bool := running && truthy (get_setting "active_node_id" d).
Definition closing (d : db) (o : net_op) (r : request) : Prop :=
  match r with
  | RApply => exists c, full_cover d c /\ o = rules_for true (covered d c)
  | RStop | RBoot => exists c, full_cover d c /\ o = rules_for false (covered d c)
  | RSync running => exists c, full_cover d c /\ o = rules_for (tunnel_wanted running d) (covered d c)
  | RSyncPlan running p => o = rules_for (tunnel_wanted running d) p
  end.

Lemma closing_closed d o r : closing d o r -> o <> OpTeardown.
Proof.
  intros Hc ->. destruct r; cbn in Hc; try (destruct Hc as (c & _ & Hc)); try discriminate Hc; by destruct (tunnel_wanted _ _).
Qed.

Lemma enforcement_plan_covers d p :
  enforcement_plan s d = RenderPlan p -> exists c, full_cover d c /\ p = covered d c.
Proof.
  unfold enforcement_plan, full_cover, covered. destruct (nh_enforcement_cover _ _) as [|c]; [done|].
  unfold cover_known. case_bool_decide as Hu; [|done]. simpl.
  case_bool_decide as Hn; intros [= <-]; exists c; split; try done. by rewrite Hn.
Qed.

Lemma call_net_calls o w x : n_calls (call_net o w x).2 = (n_calls x ++ [o])%list.
Proof.
  unfold call_net. destruct (perform o (n_host x)) as [c h].
  set (r := match c with CallRaised _ => _ | _ => _ end).
  pose proof (record_snapshot r w (log_call o (set_host h x))) as Hrec.
  destruct (record_enforcement r w _). by destruct Hrec as (_ & _ & _ & Hc & _).
Qed.

(** A recorded failure touches neither the host nor the list of calls. *)
Lemma refused_untouched r x :
  nr_ok r = false ->
  let x' := (record_enforcement r None x).2 in
  n_host x' = n_host x /\ n_calls x' = n_calls x /\ n_status x' = "error" /\ n_error x' <> "".
Proof.
  intros Hr. pose proof (record_snapshot r None x) as Hrec.
  unfold record_enforcement in *. rewrite Hr in *. simpl in *. rewrite Hr in *.
  destruct Hrec as (_ & _ & Hno & _ & _). split_and!; try done. by apply Hno.
Qed.

Lemma apply_closing d x :
  n_calls (apply_net s d x).2 = n_calls x \/
  exists o, closing d o RApply /\ n_calls (apply_net s d x).2 = (n_calls x ++ [o])%list.
Proof.
  unfold apply_net, refuse_enforcement. destruct (enforcement_plan s d) as [exc|why|p] eqn:Ep; [by left|left|right].
  - rewrite (snd_let inr). by apply refused_untouched.
  - exists (OpTproxy p). split; [|rewrite (snd_let inr); apply call_net_calls].
    destruct (enforcement_plan_covers _ _ Ep) as (c & Hc & ->). by exists c.
Qed.

Lemma stop_closing d x :
  kill_switch_on d = true ->
  n_calls (stop_net s d x).2 = n_calls x \/
  exists o, closing d o RStop /\ n_calls (stop_net s d x).2 = (n_calls x ++ [o])%list.
Proof.
  intros Hk. unfold stop_net, refuse_enforcement. rewrite Hk.
  destruct nh_apply_guard as [g|]; [|left; by apply refused_untouched].
  destruct (enforcement_plan s d) as [exc|why|p] eqn:Ep; [left; by apply refused_untouched..|right].
  exists (OpGuard p). split; [|apply call_net_calls].
  destruct (enforcement_plan_covers _ _ Ep) as (c & Hc & ->). by exists c.
Qed.

Lemma serve_closing d r x :
  kill_switch_on d = true ->
  n_calls (serve d r x) = n_calls x \/
  exists o, closing d o r /\ n_calls (serve d r x) = (n_calls x ++ [o])%list.
Proof.
  intros Hk. destruct r as [| |running|running p|]; simpl; [apply apply_closing|by apply stop_closing|..].
  - unfold sync_net, enforcement_mode. fold (tunnel_wanted running d). rewrite Hk.
    destruct (tunnel_wanted running d); [apply apply_closing|]. rewrite (snd_let inr). by apply stop_closing.
  - unfold sync_net_plan, enforcement_mode. fold (tunnel_wanted running d). rewrite Hk.
    destruct (tunnel_wanted running d); [right; exists (OpTproxy p); split; [done|apply call_net_calls]|].
    destruct nh_apply_guard as [g|]; [right; exists (OpGuard p); split; [done|apply call_net_calls]|].
    left. by apply refused_untouched.
  - unfold boot_guard. rewrite Hk. by apply stop_closing.
Qed.

End requests.

(** the enforcement snapshot the API reads is earned.  For every backend and every sequence of
    enforcement requests served from any stores: whenever the recorded status is "ok", the last
    call on the host succeeded, nothing is recorded as still holding the forward path (the
    emergency deny is gone), there is no error text, and [wan_blocked] says exactly whether that
    last call installed the fail-closed guard; a status other than "ok" makes no claim on it. *)
Theorem snapshot_earned `{NetHost H} (s : settings) (l : list (db * request)) (x : net H) :
  earned x -> earned (serve_all s l x).
Proof.
  revert x. induction l as [|[d r] l IH]; intros x He; [done|]. simpl.
  apply IH. eapply outcome_earned; [apply serve_outcome|done].
Qed.

(** C4: the kill switch never opens the segment.  While the stored kill switch is on, no sequence
    of enforcement requests (apply, disconnect, sync, a retarget's own plan, boot) ever asks the
    backend for a teardown, whatever the backend answers or raises.  What an apply, disconnect,
    sync or boot installs is the plan of the stored settings, widened to exactly the interfaces
    the cover names, and only once every source of the cover has answered: the tunnel's rules when
    xray runs on an active node, else the guard.  A retarget installs the plan its caller passes. *)
Theorem kill_switch_never_opens `{NetHost H} (s : settings) (l : list (db * request)) (x : net H) :
  Forall (fun q => kill_switch_on q.1 = true) l ->
  exists ops, n_calls (serve_all s l x) = (n_calls x ++ ops)%list /\ OpTeardown ∉ ops /\
    Forall (fun o => exists q, q ∈ l /\ closing s q.1 o q.2) ops.
Proof.
  intros Hl.
  enough (exists ops, n_calls (serve_all s l x) = (n_calls x ++ ops)%list /\
    Forall (fun o => exists q, q ∈ l /\ closing s q.1 o q.2) ops) as (ops & Hc & Ho).
  { exists ops. split_and!; [done| |done]. intros Hin. rewrite Forall_forall in Ho. destruct (Ho _ Hin) as (q & _ & Hcl). by apply closing_closed in Hcl. }
  revert x Hl. induction l as [|[d r] l IH]; intros x Hl; [by exists []; rewrite app_nil_r|].
  apply Forall_cons in Hl as [Hk Hl].
  change (serve_all s ((d, r) :: l) x) with (serve_all s l (serve s d r x)).
  destruct (IH (serve s d r x) Hl) as (ops & Hc & Hops).
  assert (Forall (fun o => exists q, q ∈ (d, r) :: l /\ closing s q.1 o q.2) ops) as Hops'.
  { eapply Forall_impl; [done|]. intros o (q & Hq & ?). exists q. split; [by right|done]. }
  destruct (serve_closing s d r x Hk) as [Hsame|(o & Ho & Hone)].
  - exists ops. by rewrite Hc, Hsame.
  - exists (o :: ops). rewrite Hc, Hone, <-app_assoc. split; [done|].
    constructor; [|done]. exists (d, r). split; [by left|done].
Qed.

(** a cover the panel cannot complete changes nothing.  With the kill switch on and one of the
    cover sources unable to answer, apply, disconnect, sync and the boot guard leave the host
    exactly as it was, make no backend call, and record an error with its reason. *)
Theorem unknown_cover_untouched `{NetHost H} (s : settings) (d : db) (c : cover) (r : request) (x : net H) :
  kill_switch_on d = true ->
  nh_enforcement_cover d (np_segment_iface (from_store d s)) = inr c -> cv_unknown c <> [] ->
  match r with RSyncPlan _ _ => False | _ => True end ->
  let x' := serve s d r x in
  n_host x' = n_host x /\ n_calls x' = n_calls x /\ n_status x' = "error" /\ n_error x' <> "".
Proof.
  intros Hk Hc Hu Hr.
  assert (exists why, enforcement_plan s d = RenderRefused why) as (why & Hp).
  { unfold enforcement_plan. rewrite Hc. unfold cover_known. rewrite bool_decide_false by done. simpl. eauto. }
  pose proof (refused_untouched (net_failed why) x eq_refl) as Hun.
  assert (forall f, f = (refuse_enforcement why x) -> let x' := f.2 in
    n_host x' = n_host x /\ n_calls x' = n_calls x /\ n_status x' = "error" /\ n_error x' <> "") as Href.
  { intros f ->. done. }
  assert (let x' := (apply_net s d x).2 in
    n_host x' = n_host x /\ n_calls x' = n_calls x /\ n_status x' = "error" /\ n_error x' <> "") as Happly.
  { unfold apply_net. rewrite Hp, (snd_let inr). by apply Href. }
  assert (let x' := (stop_net s d x).2 in
    n_host x' = n_host x /\ n_calls x' = n_calls x /\ n_status x' = "error" /\ n_error x' <> "") as Hstop.
  { unfold stop_net. rewrite Hk, Hp. destruct nh_apply_guard as [g|]; [by apply Href|by apply refused_untouched]. }
  destruct r as [| |running| |]; simpl; [done|done|..|].
  - unfold sync_net. destruct (enforcement_mode running d); [done|..].
    all: by rewrite (snd_let inr).
  - done.
  - unfold boot_guard. by rewrite Hk.
Qed.

(** A backend for the witnesses: the host is the list of the rulesets put on it, a teardown
    clears it, and an interface "eth0.9" is covered. *)
Module TestHost.

Definition host : Type := list string.

#[export] Instance test_host : NetHost host := {|
  nh_apply_tproxy p h := (CallResult (NetResult true "tproxy" "" ""), ("tproxy " +:+ np_segment_iface p) :: h);
  nh_apply_guard := Some (fun p h => (CallResult (NetResult true "guard" "" ""), ("guard " +:+ np_segment_iface p) :: h));
  nh_teardown h := (CallResult net_fine, []);
  nh_release_emergency h := (inr "", h);
  nh_fallback_note h := "";
  nh_enforcement_cover d i :=
    inr (if bool_decide (get_setting "survivors" d or "" = "unreadable") then Cover [] ["survivors: database is locked"]
         else Cover ["eth0.9"] [])
|}.

Definition fresh : net host := Net [] "unknown" None "" "" [].
Definition on_db : db := set_settings {[ "kill_switch_enabled" := "1"; "active_node_id" := "1" ]} empty_db.
Definition broken_db : db := set_settings {[ "survivors" := "unreadable" ]} empty_db.
Definition session : list (db * request) := [(on_db, RBoot); (on_db, RSync true); (on_db, RStop)].

Lemma snapshot_earned_witness :
  earned (serve_all default_settings session fresh) /\
  n_status (serve_all default_settings session fresh) = "ok" /\
  n_wan_blocked (serve_all default_settings session fresh) = Some true.
Proof.
  split; [|by vm_compute].
  apply (snapshot_earned default_settings session fresh). by split.
Defined.

Lemma kill_switch_never_opens_witness :
  exists ops, n_calls (serve_all default_settings session fresh) = (n_calls fresh ++ ops)%list /\ OpTeardown ∉ ops /\
    Forall (fun o => exists q, q ∈ session /\ closing default_settings q.1 o q.2) ops.
Proof.
  apply (kill_switch_never_opens default_settings session fresh).
  repeat constructor; by vm_compute.
Defined.

Lemma unknown_cover_untouched_witness :
  let x := serve_all default_settings session fresh in
  let x' := serve default_settings broken_db RStop x in
  n_host x' = n_host x /\ n_calls x' = n_calls x /\ n_status x' = "error" /\ n_error x' <> "".
Proof.
  apply (unknown_cover_untouched default_settings broken_db (Cover [] ["survivors: database is locked"]) RStop);
    by vm_compute.
Defined.

End TestHost.
