(* ===== verification/Records.v ===== *)
(** The durable records of [net_control/provision.py] (lines 60-392): what the panel
    remembers between passes lives in the settings table, and every read and write of it
    goes through the operations here.

    The store may fail in the ways the code defends against: a call may raise, a write may
    return having written nothing, or leave something else behind.  [w_faults] says what
    becomes of each coming store call, in order; with none left the store works.  A value
    of the table is text, or something that is not ([w_odd], by its [repr]).

    [world H] is everything a provisioning pass sees: the database, the backend (of type
    [net H]) and the last pass result.  [w_past] (a ghost) lists the earlier moments, so
    that a theorem can speak of a process killed half way. *)
From Stdlib Require Import ZArith Lia Ascii.
From stdpp Require Import base gmap strings list.
From S2P Require Import Prelude PyStr Models Store Plan Enforcement.
Open Scope string_scope.
Open Scope list_scope.
Open Scope Z_scope.

(** * Text *)

(** The ends of a line for [str.splitlines] (ASCII). *)
Definition is_line_end (c : ascii) : bool :=
  let n := N_of_ascii c in ((10 <=? n) && (n <=? 13) || (28 <=? n) && (n <=? 30))%N.

(** [repr(s)] of a string. *)
Definition hex_of (d : N) : ascii := ascii_of_N (if (d <? 10)%N then 48 + d else 87 + d)%N.
Definition repr_char (q c : ascii) : string :=
  let n := N_of_ascii c in
  if bool_decide (c = q \/ c = "\"%char) then String "\" (String c "")
  else if (n =? 10)%N then "\n" else if (n =? 13)%N then "\r" else if (n =? 9)%N then "\t"
  else if ((n <? 32) || (n =? 127))%N then String "\" (String "x" (String (hex_of (n / 16)) (String (hex_of (n mod 16)) "")))
  else String c "".
Fixpoint repr_body (q : ascii) (s : string) : string :=
  match s with EmptyString => "" | String c s' => repr_char q c +:+ repr_body q s' end.
Definition repr (s : string) : string :=
  let q := if contains "'" s && negb (contains (String "034" "") s) then "034"%char else "'"%char in
  String q (repr_body q s +:+ String q "").
Definition repr_list (l : list string) : string := "[" +:+ join ", " (repr <$> l) +:+ "]".

(** A list in order, without repeats: the first occurrence stays. *)
Definition uniq_add {A} `{EqDecision A} (out : list A) (x : A) : list A := if decide (x ∈ out) then out else out ++ [x].
Definition uniq {A} `{EqDecision A} (l : list A) : list A := foldl uniq_add [] l.

(** [s.split()]: the words of a text. *)
Definition words (s : string) : list string := filter (fun t => t <> "") (split_char is_space s).

(** [render._IFACE_RE.fullmatch]: one legal interface name. *)
Definition iface_char (c : ascii) : bool :=
  let n := N_of_ascii c in
  ((48 <=? n) && (n <=? 57) || (65 <=? n) && (n <=? 90) || (97 <=? n) && (n <=? 122))%N ||
  bool_decide (c = "."%char) || bool_decide (c = "_"%char) || bool_decide (c = "@"%char) ||
  bool_decide (c = ":"%char) || bool_decide (c = "-"%char).
Definition iface_re (s : string) : bool :=
  negb (bool_decide (s = "")) && (String.length s <=? 15)%nat && str_all iface_char s.

(** A result or the text of an exception. *)
Definition ok_map {A B} (f : A -> B) (r : string + A) : string + B := match r with inl e => inl e | inr x => inr (f x) end.

(** * The world of a pass *)

Record moment (H : Type) := Moment { m_db : db; m_odd : gmap string string; m_net : net H }.
Arguments Moment {H}.
Arguments m_db {H}.
Arguments m_odd {H}.
Arguments m_net {H}.

(** What a store write leaves in the table. *)
Inductive cell := Text (s : string) | Odd (repr : string).
Inductive effect := Wrote | Kept | Left (c : option cell).
Record fault := Fault { f_effect : effect; f_raise : option string }.
Definition no_fault : fault := Fault Wrote None.

Record world (H : Type) := World {
  w_now : moment H;
  w_faults : list fault;
  w_result : option net_result;
  w_past : list (moment H)
}.
Arguments World {H}.
Arguments w_now {H}.
Arguments w_faults {H}.
Arguments w_result {H}.
Arguments w_past {H}.

Section records.
Context {H : Type}.
Implicit Types (m : moment H) (w : world H).

Definition advance m w : world H := World m (w_faults w) (w_result w) (w_now w :: w_past w).
Definition next_fault w : fault * world H :=
  (default no_fault (head (w_faults w)), World (w_now w) (tail (w_faults w)) (w_result w) (w_past w)).

Definition cell_at (k : string) m : option cell :=
  match m_odd m !! k with
  | Some r => Some (Odd r)
  | None => Text <$> get_setting k (m_db m)
  end.
Definition put_cell (k : string) (c : option cell) m : moment H :=
  match c with
  | Some (Text s) => Moment (set_settings (<[k := s]> (d_settings (m_db m))) (m_db m)) (delete k (m_odd m)) (m_net m)
  | Some (Odd r) => Moment (set_settings (delete k (d_settings (m_db m))) (m_db m)) (<[k := r]> (m_odd m)) (m_net m)
  | None => Moment (set_settings (delete k (d_settings (m_db m))) (m_db m)) (delete k (m_odd m)) (m_net m)
  end.

(** [store.get_setting(key)]; [inl] is the text of the exception. *)
Definition store_read (k : string) w : (string + option cell) * world H :=
  let '(f, w) := next_fault w in
  (match f_raise f with Some e => inl e | None => inr (cell_at k (w_now w)) end, w).

(** [store.set_setting(key, value)]; [Some] is the text of the exception. *)
Definition store_write (k v : string) w : option string * world H :=
  let '(f, w) := next_fault w in
  let w := match f_effect f with
           | Wrote => advance (put_cell k (Some (Text v)) (w_now w)) w
           | Kept => w
           | Left c => advance (put_cell k c (w_now w)) w
           end in
  (f_raise f, w).

(** * Reading *)

(** [Record]: the content, or unknown with the reason. *)
Inductive record := Known (raw : string) | Unknown (reason : string).

Definition known (r : record) : bool := match r with Known _ => true | Unknown _ => false end.
Definition unknown_text (reason : string) : string := Some reason or "the record could not be read".

(** The content of a record; [inl] is RecordUnknown with its text. *)
Definition rec_content (r : record) : string + string :=
  match r with Known raw => inr raw | Unknown reason => inl (unknown_text reason) end.
Definition rec_text (r : record) : string + string := ok_map strip (rec_content r).

Definition text_lines (raw : string) : list string :=
  uniq (filter (fun t => t <> "") (strip <$> split_char is_line_end raw)).
Definition rec_lines (r : record) : string + list string := ok_map text_lines (rec_content r).

Definition bad_name (entry : string) : string :=
  "the record holds " +:+ repr (str_take 80 entry) +:+ ", which is not one interface name, so what it names cannot be read in full".
Fixpoint check_all {A} (check : A -> bool) (why : A -> string) (l : list A) : string + list A :=
  match l with
  | [] => inr []
  | x :: l' => if check x then ok_map (cons x) (check_all check why l') else inl (why x)
  end.
Definition rec_names (r : record) : string + list string :=
  match rec_lines r with
  | inl e => inl e
  | inr l => ok_map uniq (check_all iface_re bad_name l)
  end.

Definition bad_pair (entry : string) : string :=
  "the record holds " +:+ repr (str_take 80 entry) +:+ ", which is not an interface and an address, so what it names cannot be read in full".
Definition pair_of (entry : string) : option (string * string) :=
  match words entry with [i; a] => Some (i, a) | _ => None end.
Definition rec_pairs (r : record) : string + list (string * string) :=
  match rec_lines r with
  | inl e => inl e
  | inr l => ok_map (fun l => uniq (omap pair_of l)) (check_all (fun t => bool_decide (is_Some (pair_of t))) bad_pair l)
  end.

(** [_store_get] tells the two failures of a read apart; [read_record] and [_read_scalar] use it. *)
Definition not_text (r : string) : string := "it holds " +:+ r +:+ ", which is not text".
Definition read_record (k : string) w : record * world H :=
  let '(r, w) := store_read k w in
  (match r with
   | inl e => Unknown e
   | inr None => Known ""
   | inr (Some (Text s)) => Known s
   | inr (Some (Odd v)) => Unknown (not_text v)
   end, w).

Definition scalar_not_text (k v : string) : string :=
  k +:+ " holds " +:+ v +:+ ", which is not text, so what the panel claims there cannot be read as anything it wrote".
Definition read_scalar (k : string) w : (record * string) * world H :=
  let '(r, w) := store_read k w in
  (match r with
   | inl e => (Unknown e, "")
   | inr None => (Known "", "")
   | inr (Some (Text s)) => (Known s, "")
   | inr (Some (Odd v)) => (Unknown (scalar_not_text k v), scalar_not_text k v)
   end, w).

(** * Writing *)

(** The read-back of a write; [""] when the record holds what it should. *)
Definition read_back (k text : string) (expect : option (list string)) (back : record) : string :=
  match back with
  | Unknown reason => k +:+ " could not be read back after being written: " +:+ reason
  | Known raw =>
      match expect with
      | None =>
          if bool_decide (strip raw = strip text) then ""
          else k +:+ " reads back as " +:+ repr (str_take 80 (strip raw)) +:+ ", not the " +:+
               repr (str_take 80 (strip text)) +:+ " that was written"
      | Some l =>
          let held := text_lines raw in
          if bool_decide (held = l) then ""
          else
            let missing := filter (fun e => e ∉ held) l in
            if bool_decide (missing = []) then
              k +:+ " reads back as " +:+ repr_list held +:+ " after " +:+ repr_list l +:+ " was written"
            else k +:+ " does not name " +:+ join "; " missing +:+ " after being written"
      end
  end.

Definition verified_write (k text : string) (expect : option (list string)) w : string * world H :=
  let '(e, w) := store_write k text w in
  match e with
  | Some exc => (k +:+ " could not be written: " +:+ exc, w)
  | None => let '(back, w) := read_record k w in (read_back k text expect back, w)
  end.

Definition write_record (k text : string) w : string * world H := verified_write k text None w.

Definition journal_key (k : string) : string := k +:+ "_journal".

Definition read_set (k : string) w : record * world H :=
  let '(held, w) := read_record k w in
  match rec_lines held with
  | inl _ => (held, w)
  | inr l =>
      let '(journalled, w) := read_record (journal_key k) w in
      (match journalled with
       | Unknown reason => Unknown reason
       | Known raw => Known (join (String "010" "") (l ++ text_lines raw))
       end, w)
  end.

Definition blank (k : string) w : world H := (store_write k "" w).2.

Definition expected (entries : list string) : list string := uniq (filter (fun t => t <> "") (strip <$> entries)).

Definition write_set (k : string) (entries : list string) w : string * world H :=
  let expect := expected entries in
  let text := join (String "010" "") expect in
  match verified_write (journal_key k) text (Some expect) w with
  | ("", w) =>
      match verified_write k text (Some expect) w with
      | ("", w) => ("", blank (journal_key k) w)
      | (why, w) => (why, w)
      end
  | (why, w) => (why, w)
  end.

Definition clear_record (k terminal : string) w : string * world H :=
  if bool_decide (terminal = "") then verified_write k "" None w
  else match write_record k terminal w with
       | ("", w) => ("", blank k w)
       | (why, w) => (why, w)
       end.

End records.
