(* ===== verification/RecordsFacts.v ===== *)
(** What a durable record holds after its operations, whatever the store does: reading
    changes nothing and never reads a record it could not read as empty; a verified write
    that reports success is in the table; a ledger that is being replaced names, at every
    moment, everything it named before and is meant to keep. *)
From Stdlib Require Import ZArith Lia Ascii.
From stdpp Require Import base gmap strings list.
From S2P Require Import Prelude PyStr Models Store Plan Enforcement Records.
Open Scope string_scope.
Open Scope list_scope.

(** * Lists without repeats *)

Section uniq_facts.
Context {A : Type} `{EqDecision A}.
Implicit Types l out : list A.

Lemma uniq_fold_elem x l out : x ∈ foldl uniq_add out l <-> x ∈ out \/ x ∈ l.
Proof.
  revert out. induction l as [|y l IH]; intros out; simpl; [set_solver|].
  rewrite IH. unfold uniq_add. case_decide; set_solver.
Qed.
Lemma elem_of_uniq x l : x ∈ uniq l <-> x ∈ l.
Proof. unfold uniq. rewrite uniq_fold_elem. set_solver. Qed.

Lemma uniq_fold_nodup l out : NoDup out -> NoDup (foldl uniq_add out l).
Proof.
  revert out. induction l as [|y l IH]; intros out Ho; simpl; [done|]. apply IH. unfold uniq_add. case_decide; [done|].
  apply NoDup_app. split_and!; [done| |apply NoDup_singleton]. intros x Hx ->%list_elem_of_singleton. done.
Qed.
Lemma NoDup_uniq l : NoDup (uniq l).
Proof. apply uniq_fold_nodup. constructor. Qed.

Lemma uniq_fold_id l out : NoDup (out ++ l) -> foldl uniq_add out l = out ++ l.
Proof.
  revert out. induction l as [|y l IH]; intros out Ho; simpl; [by rewrite app_nil_r|]. unfold uniq_add at 2.
  rewrite decide_False.
  - rewrite IH; rewrite <- app_assoc; [done|exact Ho].
  - apply NoDup_app in Ho as (_ & Hd & _). intros Hy. by apply (Hd y Hy); constructor.
Qed.
Lemma uniq_id l : NoDup l -> uniq l = l.
Proof. intros. unfold uniq. by rewrite uniq_fold_id. Qed.

Lemma uniq_nil l : uniq l = [] <-> l = [].
Proof.
  split; [|by intros ->]. intros E. destruct l as [|x l]; [done|]. assert (x ∈ uniq (x :: l)) as Hx by (apply elem_of_uniq; constructor).
  rewrite E in Hx. by apply elem_of_nil in Hx.
Qed.
End uniq_facts.

(** * Entries and their text *)

(** A ledger entry: stripped, not blank, on one line. *)
Definition clean (t : string) : Prop := strip t = t /\ t <> "" /\ str_all (fun c => negb (is_line_end c)) t = true.

Lemma text_lines_clean raw : Forall clean (text_lines raw).
Proof.
  apply Forall_forall. intros t Ht. unfold text_lines in Ht. apply elem_of_uniq, list_elem_of_filter in Ht as [Hne Ht].
  apply list_elem_of_fmap in Ht as (u & -> & Hu). split_and!; [apply strip_idem|done|].
  apply str_all_strip. by apply (proj1 (Forall_forall _ _) (split_char_clean is_line_end raw)).
Qed.

Lemma text_lines_nodup raw : NoDup (text_lines raw).
Proof. apply NoDup_uniq. Qed.

Lemma text_lines_join l : Forall clean l -> text_lines (join (String "010" "") l) = uniq l.
Proof.
  intros HF. unfold text_lines. f_equal. destruct l as [|t l]; [done|]. rewrite split_char_join; [|done|done|].
  - induction HF as [|u l' (Hs & Hne & _) HF IH]; [done|]. rewrite fmap_cons, filter_cons, Hs, decide_True, IH by done. done.
  - eapply Forall_impl; [exact HF|]. by intros u (_ & _ & ?).
Qed.

Lemma text_lines_blank : text_lines "" = [].
Proof. done. Qed.

Lemma expected_facts entries :
  Forall (fun t => str_all (fun c => negb (is_line_end c)) t = true) entries ->
  Forall clean (expected entries) /\ NoDup (expected entries).
Proof.
  intros HF. split; [|apply NoDup_uniq]. apply Forall_forall. intros t Ht.
  unfold expected in Ht. apply elem_of_uniq, list_elem_of_filter in Ht as [Hne Ht].
  apply list_elem_of_fmap in Ht as (u & -> & Hu). split_and!; [apply strip_idem|done|].
  apply str_all_strip. by apply (proj1 (Forall_forall _ _) HF).
Qed.

(** * The store *)

Section store_facts.
Context {H : Type}.
Implicit Types (m : moment H) (w : world H).

Definition cell_text (c : option cell) : option string :=
  match c with None => Some "" | Some (Text s) => Some s | Some (Odd _) => None end.
(** The text of a record, [None] when it is not text. *)
Definition held (k : string) m : option string := cell_text (cell_at k m).

(** What a ledger names, with its journal; [None] when a half of it is not text. *)
Definition entries_of (k : string) m : option (list string) :=
  match held k m, held (journal_key k) m with
  | Some a, Some b => Some (text_lines a ++ text_lines b)
  | _, _ => None
  end.

(** The ledger has an entry [Q], or cannot be read at all. *)
Definition names_or_unknown (k : string) (Q : string -> Prop) m : Prop :=
  match entries_of k m with Some l => exists e, e ∈ l /\ Q e | None => True end.

Lemma cell_at_put k k' c m : cell_at k' (put_cell k c m) = if decide (k = k') then c else cell_at k' m.
Proof.
  unfold cell_at, put_cell, get_setting. case_decide as E; [subst k'|].
  - destruct c as [[s|r]|]; simpl; rewrite ?lookup_delete_eq, ?lookup_insert_eq; simpl; rewrite ?lookup_insert_eq, ?lookup_delete_eq; done.
  - destruct c as [[s|r]|]; simpl; rewrite ?lookup_delete_ne, ?lookup_insert_ne by done; simpl; done.
Qed.

Lemma put_cell_net k c m : m_net (put_cell k c m) = m_net m.
Proof. by destruct c as [[]|]. Qed.

Lemma held_put k k' c m : held k' (put_cell k c m) = if decide (k = k') then cell_text c else held k' m.
Proof. unfold held. rewrite cell_at_put. by case_decide. Qed.

Lemma journal_key_ne k : journal_key k <> k.
Proof.
  unfold journal_key. induction k as [|c k IH]; [done|]. rewrite str_app_cons. by intros [= E].
Qed.

(** Nothing but the pending faults changed. *)
Definition same w w' : Prop := w_now w' = w_now w /\ w_past w' = w_past w /\ w_result w' = w_result w.
#[global] Instance same_pre : PreOrder same.
Proof. split; [done|]. intros a b c (H1 & H2 & H3) (H4 & H5 & H6). split_and!; congruence. Qed.

Lemma store_read_facts k w r w' : store_read k w = (r, w') ->
  same w w' /\ match r with inr c => c = cell_at k (w_now w) | inl _ => True end.
Proof. unfold store_read. simpl. destruct (f_raise _); by intros [= <- <-]. Qed.

Lemma read_record_facts k w r w' : read_record k w = (r, w') ->
  same w w' /\ match r with Known raw => held k (w_now w) = Some raw | Unknown _ => True end.
Proof.
  unfold read_record. destruct (store_read k w) as [x w1] eqn:E. apply store_read_facts in E as [Hs Hx].
  intros [= <- <-]. split; [done|]. destruct x as [|[[|]|]]; try done; unfold held; by rewrite <- Hx.
Qed.

Lemma read_scalar_facts k w r v w' : read_scalar k w = ((r, v), w') ->
  same w w' /\
  match r with Known raw => held k (w_now w) = Some raw /\ v = "" | Unknown _ => v <> "" -> held k (w_now w) = None end.
Proof.
  unfold read_scalar. destruct (store_read k w) as [x w1] eqn:E. apply store_read_facts in E as [Hs Hx].
  destruct x as [|[[|]|]]; intros [= <- <- <-]; (split; [done|]); try done; unfold held; by rewrite <- Hx.
Qed.

(** A scalar that is text reads as that text, or the store did not answer. *)
Lemma scalar_read k w r v w' t : read_scalar k w = ((r, v), w') -> held k (w_now w) = Some t ->
  (if negb (known r) && bool_decide (v = "") then false else true) = true -> r = Known t /\ v = "".
Proof.
  intros [_ Hr]%read_scalar_facts Ht. destruct r as [raw|reason]; simpl.
  - intros _. destruct Hr as [Hr ->]. by rewrite Hr in Ht; simplify_eq.
  - case_bool_decide as Ev; [done|]. intros _. by rewrite Hr in Ht.
Qed.

(** A write of [v] under [k]: nothing, [v], or what a broken write left. *)
Definition garbled (f : fault) : Prop := match f_effect f with Left _ => True | _ => False end.
Definition no_garble w : Prop := Forall (fun f => ~ garbled f) (w_faults w).

Definition wrote (k v : string) w w' : Prop :=
  same w w' \/
  (w_past w' = w_now w :: w_past w /\ w_result w' = w_result w /\
   exists c, w_now w' = put_cell k c (w_now w) /\ (no_garble w -> c = Some (Text v))).

Lemma faults_tail (P : fault -> Prop) (l : list fault) : Forall P l -> Forall P (tail l).
Proof. by destruct 1. Qed.

Lemma store_write_facts k v w e w' : store_write k v w = (e, w') -> wrote k v w w' /\ (no_garble w -> no_garble w').
Proof.
  unfold store_write, wrote, same, no_garble, next_fault. simpl.
  assert (Forall (fun f => ~ garbled f) (w_faults w) -> ~ garbled (default no_fault (head (w_faults w)))) as Hg.
  { intros [|f l Hf _]; simpl; [exact (fun h => h)|done]. }
  destruct (f_effect (default no_fault (head (w_faults w)))) as [| |c] eqn:Ef; intros [= <- <-]; simpl;
    (split; [|apply faults_tail]); [right|by left|right].
  - split_and!; [done|done|]. by exists (Some (Text v)).
  - split_and!; [done|done|]. exists c. split; [done|]. intros HF. exfalso. apply (Hg HF). unfold garbled. by rewrite Ef.
Qed.

Lemma read_keeps_faults k w : no_garble w -> no_garble (read_record k w).2.
Proof.
  unfold read_record, store_read, no_garble. destruct (next_fault w) as [f w1] eqn:E. injection E as <- <-. simpl. apply faults_tail.
Qed.

(** What the read-back of a write proves. *)
Definition proven (text : string) (expect : option (list string)) (raw : string) : Prop :=
  match expect with None => strip raw = strip text | Some l => text_lines raw = l end.

Lemma read_back_proven k text expect back : read_back k text expect back = "" ->
  exists raw, back = Known raw /\ proven text expect raw.
Proof.
  assert (forall a b, a +:+ b = "" -> b = "") as Happ by (by intros [] b).
  destruct back as [raw|reason]; simpl; [|by intros E%Happ]. intros E. exists raw. split; [done|].
  destruct expect as [l|]; simpl.
  - case_bool_decide; [done|]. case_bool_decide; apply Happ in E; by destruct k.
  - case_bool_decide; [done|]. by apply Happ in E.
Qed.

Lemma verified_write_facts k text expect w why w' : verified_write k text expect w = (why, w') ->
  wrote k text w w' /\ (no_garble w -> no_garble w') /\
  (why = "" -> exists raw, held k (w_now w') = Some raw /\ proven text expect raw).
Proof.
  unfold verified_write. destruct (store_write k text w) as [e w1] eqn:E1. apply store_write_facts in E1 as [H1 Hg1].
  assert (forall a b, a +:+ b = "" -> b = "") as Happ by (by intros [] b).
  destruct e as [exc|].
  - intros [= <- <-]. split_and!; [done|done|]. by intros E%Happ.
  - pose proof (read_keeps_faults k w1) as Hg2. destruct (read_record k w1) as [back w2] eqn:E2. intros [= <- <-].
    apply read_record_facts in E2 as [(Hn & Hp & Hr) Hk]. split_and!.
    + destruct H1 as [(H1 & H2 & H3)|(H1 & H2 & c & H3 & H4)]; [left|right].
      * split_and!; congruence.
      * split_and!; [congruence|congruence|]. exists c. split; [congruence|done].
    + auto.
    + intros (raw & -> & Hpr)%read_back_proven. exists raw. by rewrite Hn.
Qed.

(** * Sets *)

(** The moments between two worlds, the last included. *)
Definition through w w' (P : moment H -> Prop) : Prop :=
  exists past, w_past w' = past ++ w_past w /\ Forall P past /\ P (w_now w').

Lemma through_same w w' (P : moment H -> Prop) : same w w' -> P (w_now w) -> through w w' P.
Proof. intros (Hn & Hp & _) HP. exists []. rewrite Hn. by split_and!. Qed.

Lemma through_trans w w1 w2 (P : moment H -> Prop) : through w w1 P -> through w1 w2 P -> through w w2 P.
Proof.
  intros (p1 & E1 & F1 & P1) (p2 & E2 & F2 & P2). exists (p2 ++ p1). rewrite E2, E1, app_assoc.
  split_and!; [done|by apply Forall_app|done].
Qed.

Lemma through_impl w w' (P Q : moment H -> Prop) : (forall m, P m -> Q m) -> through w w' P -> through w w' Q.
Proof. intros HPQ (p & E & F & HP). exists p. split_and!; [done| |auto]. eapply Forall_impl; [exact F|done]. Qed.

Lemma through_now w w' (P : moment H -> Prop) : through w w' P -> P (w_now w').
Proof. by intros (? & ? & ? & ?). Qed.

Lemma wrote_through k v w w' (P : moment H -> Prop) :
  wrote k v w w' -> P (w_now w) ->
  (forall c, (no_garble w -> c = Some (Text v)) -> P (put_cell k c (w_now w))) -> through w w' P.
Proof.
  intros [Hs|(Hp & _ & c & Hn & Hc)] HP Hput; [by apply through_same|]. exists [w_now w]. rewrite Hn.
  split_and!; [done|by repeat constructor|by apply Hput].
Qed.

Lemma write_set_steps k entries w why w' : write_set k entries w = (why, w') ->
  (no_garble w -> no_garble w') /\
  exists w1 w2, wrote (journal_key k) (join (String "010" "") (expected entries)) w w1 /\ (no_garble w -> no_garble w1) /\
    (same w1 w' /\ why <> "" \/
     (exists j, held (journal_key k) (w_now w1) = Some j /\ text_lines j = expected entries) /\
     wrote k (join (String "010" "") (expected entries)) w1 w2 /\ (no_garble w1 -> no_garble w2) /\
     (same w2 w' /\ why <> "" \/
      (exists r, held k (w_now w2) = Some r /\ text_lines r = expected entries) /\ why = "" /\
      wrote (journal_key k) "" w2 w')).
Proof.
  unfold write_set. set (text := join _ _).
  destruct (verified_write (journal_key k) text (Some (expected entries)) w) as [y1 w1] eqn:E1.
  apply verified_write_facts in E1 as (Hw1 & Hg1 & Hp1). destruct y1 as [|c1 y1].
  2: { intros [= <- <-]. split; [done|]. exists w1, w1. split_and!; [done|done|]. by left. }
  destruct (Hp1 eq_refl) as (j & Hj & Hjt). simpl in Hjt.
  destruct (verified_write k text (Some (expected entries)) w1) as [y2 w2] eqn:E2.
  apply verified_write_facts in E2 as (Hw2 & Hg2 & Hp2). destruct y2 as [|c2 y2].
  2: { intros [= <- <-]. split; [auto|]. exists w1, w2. split_and!; [done|done|]. right. split_and!; [by exists j|done|done|]. by left. }
  destruct (Hp2 eq_refl) as (r & Hr & Hrt). simpl in Hrt. unfold blank.
  destruct (store_write (journal_key k) "" w2) as [e w3] eqn:E3. apply store_write_facts in E3 as [Hw3 Hg3].
  intros [= <- <-]. simpl. split; [auto|]. exists w1, w2. split_and!; [done|done|]. right. split_and!; [by exists j|done|done|].
  right. split_and!; [by exists r|done|done].
Qed.

(** The ledger half of a set, alone. *)
Definition ledger (k : string) m : option (list string) := text_lines <$> held k m.

Lemma entries_l k (Q : string -> Prop) m : (forall l, ledger k m = Some l -> exists e, e ∈ l /\ Q e) -> names_or_unknown k Q m.
Proof.
  unfold names_or_unknown, entries_of, ledger. destruct (held k m) as [a|]; [|done]. simpl. intros Hl.
  destruct (held (journal_key k) m); [|done]. destruct (Hl _ eq_refl) as (e & He & HQ). exists e. split; [apply elem_of_app; by left|done].
Qed.
Lemma entries_r k (Q : string -> Prop) m : (forall l, ledger (journal_key k) m = Some l -> exists e, e ∈ l /\ Q e) -> names_or_unknown k Q m.
Proof.
  unfold names_or_unknown, entries_of, ledger. destruct (held k m) as [a|]; [|done].
  destruct (held (journal_key k) m) as [b|]; [|done]. simpl. intros Hl. destruct (Hl _ eq_refl) as (e & He & HQ).
  exists e. split; [apply elem_of_app; by right|done].
Qed.

Definition one_line (t : string) : Prop := str_all (fun c => negb (is_line_end c)) t = true.

Lemma ledger_put k k' c m : ledger k' (put_cell k c m) = if decide (k = k') then text_lines <$> cell_text c else ledger k' m.
Proof. unfold ledger. rewrite held_put. by case_decide. Qed.

Lemma ledger_written k entries m : Forall one_line entries ->
  ledger k (put_cell k (Some (Text (join (String "010" "") (expected entries)))) m) = Some (expected entries).
Proof.
  intros [Hc Hd]%expected_facts. rewrite ledger_put, decide_True by done. simpl. by rewrite text_lines_join, uniq_id.
Qed.

(** What a replaced set named and keeps is named at every moment of the replacement. *)
Lemma set_kept k entries w why w' (Q : string -> Prop) :
  Forall one_line entries -> write_set k entries w = (why, w') -> (exists e, e ∈ expected entries /\ Q e) ->
  (exists l, ledger k (w_now w) = Some l /\ exists e, e ∈ l /\ Q e) \/ (no_garble w /\ names_or_unknown k Q (w_now w)) ->
  through w w' (names_or_unknown k Q).
Proof.
  intros Hol (_ & w1 & w2 & H1 & _ & Hrest)%write_set_steps He Hold.
  pose proof (journal_key_ne k) as Hne.
  assert (through w w1 (names_or_unknown k Q)) as T1.
  { eapply wrote_through; [exact H1| |].
    - destruct Hold as [(l & Hl & Hel)|[_ ?]]; [|done]. apply entries_l. intros l'. rewrite Hl. by intros [= <-].
    - intros c Hc. destruct Hold as [(l & Hl & Hel)|[Hg _]].
      + apply entries_l. intros l'. rewrite ledger_put, decide_False, Hl by done. by intros [= <-].
      + apply entries_r. intros l'. rewrite (Hc Hg), ledger_written by done. by intros [= <-]. }
  destruct Hrest as [[Hs _]|((j & Hj & Hjt) & H2 & _ & Hrest)].
  { eapply through_trans; [exact T1|]. apply through_same; [done|by eapply through_now]. }
  assert (through w1 w2 (names_or_unknown k Q)) as T2.
  { eapply wrote_through; [exact H2|by eapply through_now|]. intros c _. apply entries_r. intros l'.
    rewrite ledger_put, decide_False by done. unfold ledger. rewrite Hj. simpl. rewrite Hjt. by intros [= <-]. }
  eapply through_trans; [exact T1|]. destruct Hrest as [[Hs _]|((r & Hr & Hrt) & _ & H3)].
  { eapply through_trans; [exact T2|]. apply through_same; [done|by eapply through_now]. }
  eapply through_trans; [exact T2|]. eapply wrote_through; [exact H3|by eapply through_now|]. intros c _.
  apply entries_l. intros l'. rewrite ledger_put, decide_False by done. unfold ledger. rewrite Hr. simpl. rewrite Hrt. by intros [= <-].
Qed.

(** A replacement that reports success left exactly the entries in the ledger, and (unless the
    blanking of the journal was garbled) nothing else in the set. *)
Lemma set_written k entries w w' : write_set k entries w = ("", w') ->
  ledger k (w_now w') = Some (expected entries) /\
  (no_garble w -> exists l, entries_of k (w_now w') = Some l /\ forall e, e ∈ l <-> e ∈ expected entries).
Proof.
  intros (_ & w1 & w2 & _ & Hg1 & [[_ ?]|((j & Hj & Hjt) & H2 & Hg2 & [[_ ?]|((r & Hr & Hrt) & _ & H3)])])%write_set_steps; [done..|].
  pose proof (journal_key_ne k) as Hne.
  assert (held (journal_key k) (w_now w2) = Some j) as Hj2.
  { destruct H2 as [(-> & _)|(_ & _ & c & -> & _)]; [done|]. by rewrite held_put, decide_False by (intros ?; congruence). }
  assert (held k (w_now w') = Some r) as Hr'.
  { destruct H3 as [(-> & _)|(_ & _ & c & -> & _)]; [done|]. by rewrite held_put, decide_False. }
  split; [unfold ledger; rewrite Hr'; simpl; by rewrite Hrt|]. intros Hg. unfold entries_of. rewrite Hr'.
  assert (exists b, held (journal_key k) (w_now w') = Some b /\ (text_lines b = expected entries \/ text_lines b = [])) as (b & -> & Hb).
  { destruct H3 as [(-> & _)|(_ & _ & c & -> & Hc)]; [exists j; split; [done|by left]|].
    exists "". rewrite held_put, decide_True, (Hc (Hg2 (Hg1 Hg))) by done. split; [done|by right]. }
  eexists. split; [done|]. intros e. rewrite elem_of_app, Hrt. destruct Hb as [-> | ->]; set_solver.
Qed.

(** A set whose writes are whole stays readable at every moment of a replacement, and holds
    nothing but what it had or was given. *)
Lemma set_bounded k entries w why w' es : no_garble w -> Forall one_line entries -> write_set k entries w = (why, w') ->
  entries_of k (w_now w) = Some es ->
  through w w' (fun m => exists es', entries_of k m = Some es' /\ forall e, e ∈ es' -> e ∈ es \/ e ∈ expected entries).
Proof.
  intros Hg [Hc Hd]%expected_facts E Hes. set (text := join (String "010" "") (expected entries)) in *.
  assert (text_lines text = expected entries) as Ht by (unfold text; by rewrite text_lines_join, uniq_id).
  pose proof (journal_key_ne k) as Hne.
  set (inv m := exists es', entries_of k m = Some es' /\ forall e, e ∈ es' -> e ∈ es \/ e ∈ expected entries).
  assert (forall k' v m, k' = k \/ k' = journal_key k -> (forall e, e ∈ text_lines v -> e ∈ expected entries) -> inv m -> inv (put_cell k' (Some (Text v)) m)) as Hput.
  { intros k' v m Hk' Hv (es' & He & Hin). unfold inv, entries_of in *. rewrite !held_put.
    destruct (held k m) as [a|]; [|done]. destruct (held (journal_key k) m) as [b|]; [|done]. injection He as <-.
    destruct Hk' as [-> | ->].
    - rewrite decide_True, decide_False by done. eexists. split; [done|]. intros e. rewrite elem_of_app. simpl. set_solver.
    - rewrite decide_False, decide_True by done. eexists. split; [done|]. intros e. rewrite elem_of_app. simpl. set_solver. }
  assert (forall k' v a b, k' = k \/ k' = journal_key k -> (forall e, e ∈ text_lines v -> e ∈ expected entries) -> no_garble a -> wrote k' v a b ->
    inv (w_now a) -> through a b inv) as Hw.
  { intros k' v a b Hk' Hv Hga Hwr Hi. eapply wrote_through; [exact Hwr|done|]. intros c Hcc. rewrite (Hcc Hga). by apply Hput. }
  assert (inv (w_now w)) as I0 by (exists es; split; [done|by left]).
  assert (forall e, e ∈ text_lines text -> e ∈ expected entries) as Htx by (intros e; by rewrite Ht).
  apply write_set_steps in E as (_ & w1 & w2 & H1 & G1 & Hr). fold text in H1, Hr. fold inv.
  pose proof (Hw (journal_key k) text w w1 (or_intror eq_refl) Htx Hg H1 I0) as T1. pose proof (through_now _ _ _ T1) as I1.
  eapply through_trans; [exact T1|]. destruct Hr as [[Hs _]|(_ & H2 & G2 & Hr)]; [by apply through_same|].
  pose proof (Hw k text w1 w2 (or_introl eq_refl) Htx (G1 Hg) H2 I1) as T2. pose proof (through_now _ _ _ T2) as I2.
  eapply through_trans; [exact T2|]. destruct Hr as [[Hs _]|(_ & _ & H3)]; [by apply through_same|].
  apply (Hw (journal_key k) "" w2 w'); [by right|rewrite text_lines_blank; set_solver|auto..].
Qed.

Lemma set_after k entries w why w' es : no_garble w -> Forall one_line entries -> write_set k entries w = (why, w') ->
  entries_of k (w_now w) = Some es -> exists es', entries_of k (w_now w') = Some es' /\ forall e, e ∈ es' -> e ∈ es \/ e ∈ expected entries.
Proof. intros Hg Hol E Hes. exact (through_now _ _ _ (set_bounded _ _ _ _ _ _ Hg Hol E Hes)). Qed.

End store_facts.
