(* ===== verification/Ledgers.v ===== *)
(** The records of [net_control/provision.py] that say where the segment may be: the link
    ledger, the ownership scalars and the stale-address ledger, the surviving-candidate
    ledger, the pending undo record, and the enforcement cover computed from them (lines
    395-1467, 1794-2464, 2896-3313).

    A reader that raises [RecordUnknown] returns [inl] with the text.  [json_pairs] is
    [json.loads] with every pair of an object kept, or the text of its ValueError. *)
From Stdlib Require Import ZArith Lia Ascii.
From stdpp Require Import base gmap strings list.
From S2P Require Import Prelude PyStr Ip IpText Models Json Config Store Plan Enforcement Records.
Open Scope string_scope.
Open Scope list_scope.
Open Scope Z_scope.

(** [raise] in a sum: the first failure ends the computation. *)
Notation "'let?' x := e 'in' k" := (match e with inl err => inl err | inr x => k end)
  (at level 200, x pattern, e at level 200, k at level 200) : v2pi_scope.
(** The same for code that also threads the world. *)
Notation "'let!' x ',' w := e 'in' k" := (match e with (inl err, w) => (inl err, w) | (inr x, w) => k end)
  (at level 200, x pattern, w name, e at level 200, k at level 200) : v2pi_scope.

(** * Pure helpers *)

(** The text before and after the last dot. *)
Fixpoint rsplit_dot (s : string) : option (string * string) :=
  match s with
  | EmptyString => None
  | String c s' =>
      match rsplit_dot s' with
      | Some (a, b) => Some (String c a, b)
      | None => if bool_decide (c = "."%char) then Some ("", s') else None
      end
  end.

Definition parse_vlan (iface : string) : string * option Z :=
  match rsplit_dot iface with
  | Some (parent, vid) => match py_int vid with Some v => (parent, Some v) | None => (iface, None) end
  | None => (iface, None)
  end.

Definition host_addr6 (segment_ip6 : string) : option string :=
  let s := strip segment_ip6 in
  if bool_decide (s = "") || bool_decide (lower s = "auto") then None
  else match ip_network s with
       | Some n => if (net_version n =? 6) && (net_prefix n =? 64) then Some (ip6_str (net_addr n + 1) +:+ "/64") else None
       | None => None
       end.

(** [gid] is the five random bytes. *)
Definition generate_ula_prefix (vlan_id : Z) (gid : list Z) : string :=
  let b := foldl (fun acc x => acc * 256 + x) 0 ([253] ++ gid ++ [Z.land (Z.shiftr vlan_id 8) 255; Z.land vlan_id 255]) in
  ip6_str (mask_addr 128 64 (b * 2 ^ 64)) +:+ "/64".

Inductive link_state := LinkPresent | LinkAbsent | LinkUnknown.
#[export] Instance link_state_eq : EqDecision link_state.
Proof. solve_decision. Defined.

(** [names] in order, without blanks, repeats, or [exclude]. *)
Definition other_ifaces (names : list string) (exclude : string) : list string :=
  uniq (filter (fun n => n <> "" /\ n <> exclude) names).

Definition may_narrow (c : cover) : bool := bool_decide (cv_unknown c = []) && bool_decide (cv_names c = []).

Fixpoint repr_json (j : json) : string :=
  match j with
  | JNull => "None"
  | JBool b => if b then "True" else "False"
  | JNum z => str_int z
  | JStr s => repr s
  | JArr l => "[" +:+ join ", " (map repr_json l) +:+ "]"
  | JObj kvs => "{" +:+ join ", " (map (fun kv => repr kv.1 +:+ ": " +:+ repr_json kv.2) kvs) +:+ "}"
  end.

Fixpoint checked_names (values : list string) : string + list string :=
  match values with
  | [] => inr []
  | v :: vs =>
      let name := strip v in
      if bool_decide (name = "") then checked_names vs
      else if negb (iface_re name) then
        inl ("the panel's records name " +:+ repr (str_take 80 name) +:+ " as an interface that may be carrying the segment, which is not an interface name, so what they name cannot be read in full")
      else let? l := checked_names vs in inr (name :: l)
  end.

(** * The candidate record *)

Definition checked_text (rec : json) (field : string) : string + string :=
  match jget field rec with
  | None => inr ""
  | Some (JStr s) => inr (strip s)
  | Some v => inl (field +:+ " is recorded as " +:+ repr_json v +:+ ", which is not text, so the record cannot be read as one the panel wrote")
  end.

Definition checked_addr_text (addr where_ : string) : string + string :=
  if negb (bool_decide (words addr = [addr])) || negb (contains "/" addr) then
    inl (where_ +:+ " is recorded as " +:+ repr (str_take 80 addr) +:+ ", which is not one address with a prefix length")
  else if contains "%" addr then
    inl (where_ +:+ " is recorded as " +:+ repr (str_take 80 addr) +:+ ", which names a scope, so which interface it is an address on cannot be read from the address alone")
  else match ip_interface addr with
       | None => inl (where_ +:+ " is recorded as " +:+ repr (str_take 80 addr) +:+ ", which is not an address (" +:+
                      repr addr +:+ " does not appear to be an IPv4 or IPv6 interface)")
       | Some f => inr (with_prefixlen f)
       end.

Definition checked_addr (rec : json) (field : string) : string + string :=
  let? addr := checked_text rec field in
  if bool_decide (addr = "") then inr "" else checked_addr_text addr field.

Definition checked_family_addr (addr : string) (family : Z) (where_ : string) : string + string :=
  let? canonical := checked_addr_text addr where_ in
  let version := from_option if_version 0 (ip_interface canonical) in
  if negb (version =? family) then
    inl (where_ +:+ " is recorded as " +:+ repr (str_take 80 canonical) +:+ ", which is an IPv" +:+ str_int version +:+
         " address under the record that names the panel's IPv" +:+ str_int family +:+ " one, so what it claims cannot be read")
  else inr canonical.

(** [_addr_token]: the address and prefix length a token spells. *)
Definition addr_token (token : string) : option ipface :=
  if negb (contains "/" token) || contains "%" token then None else ip_interface token.

Definition canonical_addr (addr : string) : string := from_option with_prefixlen addr (addr_token addr).

Definition checked_flag (rec : json) (field : string) : string + option bool :=
  match jget field rec with
  | None | Some JNull => inr None
  | Some (JBool b) => inr (Some b)
  | Some v => inl (field +:+ " is recorded as " +:+ repr_json v +:+ ", which is not an answer either way")
  end.

Definition link_state_of (s : string) : option link_state :=
  if bool_decide (s = "present") then Some LinkPresent
  else if bool_decide (s = "absent") then Some LinkAbsent
  else if bool_decide (s = "unknown") then Some LinkUnknown else None.

Definition checked_link_state (rec : json) : string + option link_state :=
  let? state := checked_text rec "link_state" in
  if bool_decide (state = "") then inr None
  else match link_state_of state with
       | Some l => inr (Some l)
       | None => inl ("link_state is recorded as " +:+ repr (str_take 80 state) +:+ ", which is not one of the three answers a probe gives")
       end.

Definition checked_candidate_iface (rec : json) : string + string :=
  let? iface := checked_text rec "iface" in
  if bool_decide (iface = "") then inr ""
  else let? l := checked_names [iface] in inr (default "" (head l)).

Record candidate := Candidate {
  ca_iface : string; ca_addr4 : string; ca_addr6 : string; ca_vlan : bool; ca_prior : link_state
}.

(** The first key an object names twice, innermost objects first. *)
Fixpoint first_dup (seen : list string) (ks : list string) : option string :=
  match ks with
  | [] => None
  | k :: ks' => if decide (k ∈ seen) then Some k else first_dup (k :: seen) ks'
  end.
Fixpoint dup_key (j : json) : option string :=
  match j with
  | JArr l => foldr (fun x acc => match dup_key x with Some k => Some k | None => acc end) None l
  | JObj kvs =>
      match foldr (fun kv acc => match dup_key kv.2 with Some k => Some k | None => acc end) None kvs with
      | Some k => Some k
      | None => first_dup [] kvs.*1
      end
  | _ => None
  end.

Definition state_name (l : link_state) : string :=
  match l with LinkPresent => "present" | LinkAbsent => "absent" | LinkUnknown => "unknown" end.

Definition checked_prior_link_state (rec : json) : string + link_state :=
  let? state := checked_link_state rec in
  let? legacy := checked_flag rec "link_existed" in
  match jget "link_state" rec, jget "link_existed" rec with
  | Some _, Some v =>
      inl ("the record says the link's state before the change was " +:+ repr (from_option state_name "blank" state) +:+
           " and also records the superseded link_existed=" +:+ repr_json v +:+ ", so which observation was taken cannot be read")
  | _, _ =>
      match state with
      | Some l => inr l
      | None => inr (if bool_decide (legacy = Some true) then LinkPresent else LinkUnknown)
      end
  end.

Definition refuse_resolved (rec : json) : string + unit :=
  match jget "resolved" rec with
  | Some v => inl ("the record claims to be a settled undo (resolved=" +:+ repr_json v +:+ ") and is being read as a live candidate; only a clear may write that word")
  | None => inr tt
  end.

Definition checked_candidate_fields (rec : json) (iface : string) : string + candidate :=
  let? _ := refuse_resolved rec in
  let? addr4 := checked_addr rec "addr4" in
  let? addr6 := checked_addr rec "addr6" in
  let? vlan := checked_flag rec "vlan" in
  let? prior := checked_prior_link_state rec in
  inr (Candidate iface addr4 addr6 (bool_decide (vlan = Some true)) prior).

Definition checked_candidate (rec : json) : string + candidate :=
  let? iface := checked_candidate_iface rec in checked_candidate_fields rec iface.

(** What a caller hands over: a decoded candidate, a record it built, or nothing. *)
Inductive handed := HandedNone | HandedCandidate (c : candidate) | HandedRecord (rec : json).
Definition as_candidate (r : handed) : string + option candidate :=
  match r with
  | HandedNone | HandedRecord JNull | HandedRecord (JBool false) | HandedRecord (JNum 0) | HandedRecord (JStr "")
  | HandedRecord (JArr []) | HandedRecord (JObj []) => inr None
  | HandedCandidate c => inr (Some c)
  | HandedRecord (JObj kvs) => ok_map Some (checked_candidate (JObj kvs))
  | HandedRecord v => inl ("it is " +:+ repr_json v +:+ ", which is not a record")
  end.

(** * The ledgers *)

Definition LINK_KEY : string := "managed_segment_link".
Definition STALE_KEY : string := "managed_segment_stale".
Definition SURVIVOR_KEY : string := "provision_candidate_survivors".
Definition PROVISION_UNDO_KEY : string := "pending_provision_undo".
Definition IFACE_KEY : string := "managed_segment_iface".
Definition ADDR4_KEY : string := "managed_segment_addr4".
Definition ADDR6_KEY : string := "managed_segment_addr6".

(** [_distinct]: pairs in order, without blanks, repeats, or anything in [drop]. *)
Definition distinct (pairs drop : list (string * string)) : list (string * string) :=
  uniq (filter (fun p => p.1 <> "" /\ p.2 <> "" /\ p ∉ drop) pairs).

(** [Ownership] *)
Record ownership := Ownership {
  own_iface : string; own_addr4 : string; own_addr6 : string;
  own_stale : list (string * string); own_retained : list (string * string);
  own_unreadable : list string; own_invalid : list string; own_iface_unusable : bool
}.
Definition own_known (o : ownership) : bool := bool_decide (own_unreadable o = []).
Definition iface_or (o : ownership) (fallback : string) : string :=
  if own_iface_unusable o then "" else Some (own_iface o) or fallback.

Fixpoint checked_survivors (pairs : list (string * string)) (where_ : string) : string + list (string * string) :=
  match pairs with
  | [] => inr []
  | (iface, addr) :: ps =>
      let? _ := checked_names [iface] in
      let? a := checked_addr_text addr (where_ +:+ " on " +:+ iface) in
      let? l := checked_survivors ps where_ in
      inr ((iface, a) :: l)
  end.

(** The stale pairs the panel wrote, and the others, kept verbatim. *)
Definition stale_pair (p : string * string) : string + (string * string) :=
  let? named := checked_names [p.1] in
  match named with
  | [] => inl (STALE_KEY +:+ " holds an entry naming no interface at all")
  | n :: _ => let? a := checked_addr_text p.2 ("the panel-owned address on " +:+ p.1) in inr (n, a)
  end.
Definition split_stale (pairs : list (string * string)) : list (string * string) * list (string * string) :=
  foldr (fun p acc => match stale_pair p with inr q => (q :: acc.1, acc.2) | inl _ => (acc.1, p :: acc.2) end) ([], []) pairs.

(** One address scalar, already read: the address, and the reason it holds no address. *)
Definition scalar_addr (rec : record) (returned : string) (family : Z) (key : string) : string * list string :=
  if negb (bool_decide (returned = "")) then ("", [])
  else match rec_text rec with
       | inl _ => ("", [])
       | inr t =>
           if bool_decide (t = "") then ("", [])
           else match checked_family_addr t family key with inr a => (a, []) | inl e => ("", [e]) end
       end.
Definition scalar_iface (rec : record) (returned : string) : string * list string * bool :=
  if negb (bool_decide (returned = "")) then ("", [], true)
  else match rec_text rec with
       | inl _ => ("", [], false)
       | inr t => match checked_names [t] with
                  | inr named => (default "" (head named), [], false)
                  | inl e => ("", [e], true)
                  end
       end.

Definition reason_of (r : record) : string := match r with Unknown e => e | Known _ => "" end.

Section ledgers.
Context {H : Type}.
Context (json_pairs : string -> string + json).
Context (json_dumps : json -> string).
Implicit Types (w : world H).

Definition parse_links w : (string + list string) * world H :=
  let '(r, w) := read_set LINK_KEY w in (rec_names r, w).

(** [_read_links] and [_read_pairs] return the reason as a value: [inl], as [record.reason] or the exception. *)
Definition unwrap {A} (r : record) (read : record -> string + A) : string + A :=
  match r with Unknown reason => inl reason | Known _ => read r end.
Definition read_links w : (string + list string) * world H :=
  let '(r, w) := read_set LINK_KEY w in (unwrap r rec_names, w).
Definition record_links (links : list string) w : string * world H := write_set LINK_KEY links w.

Definition read_pairs (k : string) w : (string + list (string * string)) * world H :=
  let '(r, w) := read_set k w in (unwrap r rec_pairs, w).

Definition SURVIVOR_WHERE : string := "the address a rolled-back change may have left".
Definition survivor_pairs w : (string + list (string * string)) * world H :=
  let '(r, w) := read_pairs SURVIVOR_KEY w in
  (let? pairs := r in checked_survivors pairs SURVIVOR_WHERE, w).
Definition parse_survivors w : (string + list (string * string)) * world H := survivor_pairs w.

Definition entry_of (p : string * string) : string := p.1 +:+ " " +:+ p.2.
Definition record_survivors (pairs : list (string * string)) w : string * world H :=
  write_set SURVIVOR_KEY (entry_of <$> pairs) w.

(** * Ownership *)

Definition read_ownership w : ownership * world H :=
  let '((r1, v1), w) := read_scalar IFACE_KEY w in
  let '((r2, v2), w) := read_scalar ADDR4_KEY w in
  let '((r3, v3), w) := read_scalar ADDR6_KEY w in
  let '(stale, w) := read_pairs STALE_KEY w in
  let unread r v := if negb (known r) && bool_decide (v = "") then [reason_of r] else [] in
  let unreadable := unread r1 v1 ++ unread r2 v2 ++ unread r3 v3 ++ match stale with inl e => [e] | inr _ => [] end in
  match stale with
  | inr pairs =>
      if negb (bool_decide (unreadable = [])) then (Ownership "" "" "" [] [] unreadable [] false, w)
      else
        let returned := filter (fun v => v <> "") [v1; v2; v3] in
        let '(iface, bad1, unusable) := scalar_iface r1 v1 in
        let '(a4, bad4) := scalar_addr r2 v2 4 ADDR4_KEY in
        let '(a6, bad6) := scalar_addr r3 v3 6 ADDR6_KEY in
        let '(kept, retained) := split_stale pairs in
        (Ownership iface a4 a6 kept retained [] (returned ++ bad1 ++ bad4 ++ bad6) unusable, w)
  | inl _ => (Ownership "" "" "" [] [] unreadable [] false, w)
  end.

(** The entries of the stale ledger; a pair that would not read back is refused. *)
Definition ledger_refused (p : string * string) : list string :=
  if bool_decide (words (entry_of p) = [p.1; p.2]) then []
  else [STALE_KEY +:+ " was not written: " +:+ repr (str_take 80 (entry_of p)) +:+ " is not one interface and one address, so the ledger would not read back as one the panel wrote and every later pass would refuse to install or remove a segment address"].
Definition ledger_entries (pairs : list (string * string)) : list string * list string :=
  (uniq (entry_of <$> filter (fun p => ledger_refused p = []) pairs), concat (ledger_refused <$> pairs)).

Definition record_ownership (iface addr4 addr6 : string) (stale retained : list (string * string)) w : list string * world H :=
  let '(entries, refused) := ledger_entries (stale ++ retained) in
  if negb (bool_decide (refused = [])) then (refused, w)
  else match write_set STALE_KEY entries w with
       | ("", w) =>
           let '(e1, w) := write_record IFACE_KEY iface w in
           let '(e2, w) := write_record ADDR4_KEY addr4 w in
           let '(e3, w) := write_record ADDR6_KEY addr6 w in
           (filter (fun e => e <> "") [e1; e2; e3], w)
       | (why, w) => ([why], w)
       end.

(** * The pending undo record *)

(** The three ways decoding the record goes wrong: a repeated key, no JSON, an exception. *)
Inductive decoded := DecodeUnknown (why : string) | DecodeFailed (exc : string) | Decoded (j : json).
Definition decoded_record (raw : string) : decoded :=
  match json_pairs raw with
  | inl exc => DecodeFailed exc
  | inr j =>
      match dup_key j with
      | Some k => DecodeUnknown ("the record names " +:+ repr k +:+ " more than once, so what it says about it cannot be read in full")
      | None => Decoded j
      end
  end.

Definition settled_undo (rec : json) : bool * string :=
  match rec with
  | JObj [("resolved", JBool true)] => (true, "")
  | _ =>
      match jget "resolved" rec with
      | None => (false, "")
      | Some _ => (false, "the pending host-provisioning undo says it is settled and does not say it in the settled form (" +:+
                          str_take 200 (json_dumps rec) +:+ "), so whether it is still naming a live candidate interface cannot be read")
      end
  end.

Record pending := Pending { pe_candidate : option candidate; pe_unusable : string; pe_cover : cover }.

(** [_pending_candidate], on the record already read. *)
Definition pending_of (r : record) : pending :=
  match rec_text r with
  | inl _ => Pending None "" (Cover [] ["the pending host-provisioning undo could not be read: " +:+ reason_of r])
  | inr "" => Pending None "" (Cover [] [])
  | inr raw =>
      match decoded_record raw with
      | DecodeUnknown why => Pending None "" (Cover [] ["the pending host-provisioning undo could not be decoded: " +:+ why])
      | DecodeFailed exc =>
          Pending None ("it could not be parsed (" +:+ exc +:+ "): " +:+ repr (str_take 200 raw))
            (Cover [] ["the pending host-provisioning undo could not be parsed: " +:+ exc])
      | Decoded rec =>
          if negb (is_obj rec) then
            Pending None ("it is not a record: " +:+ repr (str_take 200 raw)) (Cover [] ["the pending host-provisioning undo is not a record"])
          else
            let '(settled, inconsistent) := settled_undo rec in
            if settled then Pending None "" (Cover [] [])
            else match checked_candidate_iface rec with
                 | inl e => Pending None "" (Cover [] ["the pending host-provisioning undo names a candidate interface that cannot be read: " +:+ e])
                 | inr iface =>
                     let names := if bool_decide (iface = "") then [] else [iface] in
                     if negb (bool_decide (inconsistent = "")) then Pending None "" (Cover names [inconsistent])
                     else match checked_candidate_fields rec iface with
                          | inl e => Pending None "" (Cover names ["the pending host-provisioning undo names " +:+
                                       (Some iface or "a candidate") +:+ " and is not the record the panel writes, so nothing may act on it: " +:+ e])
                          | inr c =>
                              if bool_decide (ca_iface c = "") then
                                Pending None ("it names no candidate interface: " +:+ repr (str_take 200 raw)) (Cover [] [])
                              else Pending (Some c) "" (Cover names [])
                          end
                 end
      end
  end.
Definition pending_candidate w : pending * world H :=
  let '(r, w) := read_record PROVISION_UNDO_KEY w in (pending_of r, w).

(** * The cover *)

Definition ownership_cover w : (string + list string) * world H :=
  let '(own, w) := read_ownership w in
  (if own_known own then
     inr (own_iface own :: own.(own_stale).*1 ++
          concat ((fun p => match checked_names [p.1] with inr l => l | inl _ => [] end) <$> own_retained own))
   else inl ("the panel's record of what it owns on the segment could not be read in full: " +:+ join "; " (own_unreadable own)), w).

(** [_merge_cover], on the sources' answers. *)
Definition merge_cover (exclude : string) (answers : list (string + list string)) : cover :=
  let checked := (fun a => let? l := a in checked_names l) <$> answers in
  Cover (other_ifaces (concat ((fun a => match a with inr l => l | inl _ => [] end) <$> checked)) exclude)
    (concat ((fun a => match a with inl e => [e] | inr _ => [] end) <$> checked)).

Definition superseded_state (new_iface : string) w : cover * world H :=
  let '(own, w) := ownership_cover w in
  let '(links, w) := parse_links w in
  (merge_cover new_iface [own; links], w).

Definition enforcement_cover (iface : string) w : cover * world H :=
  let '(surv, w) := parse_survivors w in
  let survivors := merge_cover iface [ok_map (fun l : list (string * string) => l.*1) surv] in
  let '(superseded, w) := superseded_state iface w in
  let '(p, w) := pending_candidate w in
  (Cover (other_ifaces (cv_names superseded ++ cv_names survivors ++ cv_names (pe_cover p)) iface)
     (cv_unknown superseded ++ cv_unknown survivors ++ cv_unknown (pe_cover p)), w).

End ledgers.
