(* ===== verification/LedgersFacts.v ===== *)
(** What the cover is worth: which interfaces the records track, and that a cover that
    reads as complete names every one of them. *)
From Stdlib Require Import ZArith Lia Ascii.
From stdpp Require Import base gmap strings list.
From S2P Require Import Prelude PyStr Ip IpText Models Json Config Store Plan Enforcement Records RecordsFacts Ledgers.
Open Scope string_scope.
Open Scope list_scope.

(** * Names and addresses *)

Lemma iface_re_facts i : iface_re i = true -> i <> "" /\ str_all (fun c => negb (is_space c)) i = true /\ strip i = i.
Proof.
  unfold iface_re. rewrite !andb_true_iff, negb_true_iff, bool_decide_eq_false. intros [[Hne _] Hc].
  assert (str_all (fun c => negb (is_space c)) i = true) as Hs; [|split_and!; [done|done|by apply strip_id]].
  eapply str_all_impl; [|exact Hc]. intros c. unfold iface_char, is_space.
  destruct c as [[] [] [] [] [] [] [] []]; vm_compute; congruence.
Qed.

Lemma checked_names_sound l l' : checked_names l = inr l' -> Forall (fun i => iface_re i = true) l' /\
  forall i, i ∈ l' <-> exists v, v ∈ l /\ strip v = i /\ i <> "".
Proof.
  revert l'. induction l as [|v l IH]; simpl; intros l'.
  { intros [= <-]. split; [done|]. set_solver. }
  case_bool_decide as Ev.
  - intros E. destruct (IH _ E) as [HF Hi]. split; [done|]. intros i. rewrite Hi. split.
    + intros (u & Hu & ? & ?). exists u. set_solver.
    + intros (u & [-> | Hu]%elem_of_cons & Hs & Hne); [congruence|]. by exists u.
  - destruct (iface_re (strip v)) eqn:Er; [|done]. simpl. destruct (checked_names l) as [|k] eqn:Ek; [done|]. intros [= <-].
    destruct (IH _ eq_refl) as [HF Hi]. split; [by constructor|]. intros i. rewrite elem_of_cons, Hi. split.
    + intros [-> | (u & Hu & ? & ?)]; [exists v|exists u]; set_solver.
    + intros (u & [-> | Hu]%elem_of_cons & Hs & Hne); [by left|right]. by exists u.
Qed.

Lemma checked_names_legal l : Forall (fun i => iface_re i = true) l -> checked_names l = inr l.
Proof.
  induction 1 as [|i l Hi HF IH]; [done|]. simpl. destruct (iface_re_facts i Hi) as (Hne & _ & Hs).
  rewrite Hs, bool_decide_false, Hi, IH by done. done.
Qed.

Lemma checked_names_one t i : checked_names [t] = inr [i] -> strip t = i /\ iface_re i = true.
Proof.
  intros E. apply checked_names_sound in E as [HF Hi]. apply Forall_inv in HF. split; [|done].
  destruct (proj1 (Hi i) ltac:(set_solver)) as (v & Hv & Hs & _). set_solver.
Qed.

Lemma words_clean s : Forall (fun t => t <> "" /\ str_all (fun c => negb (is_space c)) t = true) (words s).
Proof.
  apply Forall_forall. intros t [Hne Ht]%list_elem_of_filter. split; [done|].
  by apply (proj1 (Forall_forall _ _) (split_char_clean is_space s)).
Qed.

Lemma words_single t : t <> "" -> str_all (fun c => negb (is_space c)) t = true -> words t = [t].
Proof. intros Hne Hs. unfold words. rewrite split_char_single by done. by rewrite filter_cons, decide_True. Qed.

Lemma face_no_space s : str_all face_char s = true -> str_all (fun c => negb (is_space c)) s = true.
Proof.
  apply str_all_impl. intros c. unfold face_char, is_hex, hex_digit, is_space.
  destruct c as [[] [] [] [] [] [] [] []]; vm_compute; congruence.
Qed.

(** The canonical spelling of an address is accepted as it is. *)
Lemma checked_canonical f wh : face_valid f -> checked_addr_text (with_prefixlen f) wh = inr (with_prefixlen f).
Proof.
  intros Hf. destruct (with_prefixlen_chars f Hf) as [Hc Hs]. pose proof (face_no_space _ Hc) as Hn.
  assert (with_prefixlen f <> "") as Hne by (intros E; by rewrite E in Hs).
  unfold checked_addr_text. rewrite words_single, bool_decide_true, Hs by done. simpl.
  rewrite (contains_char_false face_char "%" _ Hc eq_refl). by rewrite interface_roundtrip.
Qed.

Lemma checked_addr_sound addr wh a : checked_addr_text addr wh = inr a ->
  words addr = [addr] /\ exists f, face_valid f /\ a = with_prefixlen f /\ addr_token addr = Some f.
Proof.
  unfold checked_addr_text, addr_token. destruct (bool_decide (words addr = [addr])) eqn:Ew; [|done].
  apply bool_decide_eq_true in Ew. destruct (contains "/" addr); [|done]. simpl.
  destruct (contains "%" addr); [done|]. destruct (ip_interface addr) as [f|] eqn:Ef; [|done]. intros [= <-].
  split; [done|]. exists f. split_and!; [by eapply ip_interface_valid|done|done].
Qed.

(** A canonical address. *)
Definition canonical (a : string) : Prop := exists f, face_valid f /\ a = with_prefixlen f.

Lemma canonical_checked a wh : canonical a -> checked_addr_text a wh = inr a.
Proof. intros (f & Hf & ->). by apply checked_canonical. Qed.

Lemma canonical_clean a : canonical a -> a <> "" /\ str_all (fun c => negb (is_space c)) a = true /\ words a = [a].
Proof.
  intros Ha. pose proof (canonical_checked a "" Ha) as E. apply checked_addr_sound in E as [Hw _].
  destruct Ha as (f & Hf & ->). destruct (with_prefixlen_chars f Hf) as [Hc Hs]. split_and!; [|by apply face_no_space|done].
  intros E. by rewrite E in Hs.
Qed.

Lemma canonical_token a : canonical a -> exists f, addr_token a = Some f /\ with_prefixlen f = a.
Proof.
  intros Ha. pose proof (canonical_checked a "" Ha) as E. apply checked_addr_sound in E as (_ & f & _ & E & Hf). by exists f.
Qed.

Lemma canonical_addr_canonical t : is_Some (addr_token t) -> canonical (canonical_addr t).
Proof.
  intros [f Hf]. unfold canonical_addr. rewrite Hf. simpl. exists f. split; [|done]. unfold addr_token in Hf.
  destruct (_ || _); [done|]. by eapply ip_interface_valid.
Qed.

Lemma checked_family_sound t v wh a : checked_family_addr t v wh = inr a -> canonical a.
Proof.
  unfold checked_family_addr. destruct (checked_addr_text t wh) as [|c] eqn:E; [done|].
  apply checked_addr_sound in E as (_ & f & Hf & -> & _). destruct (_ =? v)%Z; [|done]. intros [= <-]. by exists f.
Qed.

(** * Entries of the ledgers *)

Lemma words_pair i a : i <> "" -> a <> "" -> str_all (fun c => negb (is_space c)) i = true ->
  str_all (fun c => negb (is_space c)) a = true -> words (entry_of (i, a)) = [i; a].
Proof.
  intros Hi Ha Si Sa. unfold words, entry_of. simpl. rewrite str_app_cons, str_app_nil, split_char_app by done.
  rewrite split_char_single by done. by rewrite !filter_cons, !decide_True by done.
Qed.

Lemma append_assoc (r u t : string) : (r +:+ u) +:+ t = r +:+ (u +:+ t).
Proof. induction r as [|c r IH]; [done|]. by rewrite !str_app_cons, IH. Qed.

Lemma rstrip_app_clean s t : t <> "" -> str_all (fun c => negb (is_space c)) t = true -> rstrip (s +:+ t) = s +:+ t.
Proof.
  intros Hne Ht. induction s as [|c s IH]; [rewrite str_app_nil; by apply rstrip_id|]. rewrite str_app_cons.
  cbn [rstrip]. rewrite IH. destruct (s +:+ t) eqn:E; [|done]. destruct s, t; done.
Qed.

Lemma entry_facts i a : words (entry_of (i, a)) = [i; a] ->
  strip (entry_of (i, a)) = entry_of (i, a) /\ entry_of (i, a) <> "" /\ one_line (entry_of (i, a)) /\ pair_of (entry_of (i, a)) = Some (i, a).
Proof.
  intros Hw. pose proof (words_clean (entry_of (i, a))) as HF. rewrite Hw in HF.
  apply Forall_cons in HF as [[Hi Si] HF]. apply Forall_cons in HF as [[Ha Sa] _].
  assert (forall u, str_all (fun c => negb (is_space c)) u = true -> one_line u) as Hol.
  { intros u. apply str_all_impl. intros c. unfold is_space, is_line_end.
    destruct c as [[] [] [] [] [] [] [] []]; vm_compute; congruence. }
  unfold pair_of. rewrite Hw. split_and!; [| | |done].
  - unfold strip. assert (lstrip (entry_of (i, a)) = entry_of (i, a)) as ->.
    { unfold entry_of. simpl. destruct i as [|c i]; [done|]. rewrite str_app_cons. simpl in Si.
      apply andb_true_iff in Si as [Hc%negb_true_iff _]. cbn [lstrip]. by rewrite Hc. }
    unfold entry_of. simpl. rewrite <- append_assoc. by apply rstrip_app_clean.
  - unfold entry_of. simpl. by destruct i.
  - unfold entry_of, one_line. simpl. rewrite !str_all_app, andb_true_iff. split; [by apply Hol|].
    apply andb_true_iff. split; [done|]. by apply Hol.
Qed.

(** * What the records track *)

Section tracking.
Context {H : Type}.
Implicit Types (m : moment H) (w : world H).

Definition stale_entry (i a e : string) : Prop := exists q, pair_of e = Some q /\ stale_pair q = inr (i, a).
Definition survivor_entry (i a e : string) : Prop := exists q, pair_of e = Some q /\ checked_survivors [q] SURVIVOR_WHERE = inr [(i, a)].

Definition stale_tracks (i a : string) m : Prop := names_or_unknown STALE_KEY (stale_entry i a) m.
Definition survivor_tracks (i a : string) m : Prop := names_or_unknown SURVIVOR_KEY (survivor_entry i a) m.
Definition link_tracks (i : string) m : Prop := names_or_unknown LINK_KEY (eq i) m.
Definition scalar_tracks (i a : string) m : Prop :=
  exists t ta, held IFACE_KEY m = Some t /\ checked_names [strip t] = inr [i] /\
    ((held ADDR4_KEY m = Some ta /\ checked_family_addr (strip ta) 4 ADDR4_KEY = inr a) \/
     (held ADDR6_KEY m = Some ta /\ checked_family_addr (strip ta) 6 ADDR6_KEY = inr a)).
Lemma read_set_facts k w r w' : read_set k w = (r, w') ->
  same w w' /\ (no_garble w -> no_garble w') /\
  match r with
  | Known raw => exists l, entries_of k (w_now w) = Some l /\ text_lines raw = uniq l
  | Unknown _ => True
  end.
Proof.
  unfold read_set. pose proof (read_keeps_faults k w) as Hg1. destruct (read_record k w) as [h w1] eqn:E1.
  apply read_record_facts in E1 as [Hs1 Hh]. destruct h as [raw|reason]; cbn [rec_lines rec_content ok_map]; [|intros [= <- <-]; split_and!; [done|exact Hg1|done]].
  pose proof (read_keeps_faults (journal_key k) w1) as Hg2. destruct (read_record (journal_key k) w1) as [j w2] eqn:E2.
  apply read_record_facts in E2 as [Hs2 Hj]. intros [= <- <-].
  split; [by etrans|]. split; [intros Hg; exact (Hg2 (Hg1 Hg))|]. destruct j as [raw'|]; [|exact I]. exists (text_lines raw ++ text_lines raw').
  split.
  - unfold entries_of. destruct Hs1 as (Hn & _). rewrite Hn in Hj. by rewrite Hh, Hj.
  - apply text_lines_join. apply Forall_app. split; apply text_lines_clean.
Qed.

Lemma check_all_inr {A} (check : A -> bool) why l l' : check_all check why l = inr l' -> l' = l /\ Forall (fun x => check x = true) l.
Proof.
  revert l'. induction l as [|x l IH]; simpl; intros l'; [by intros [= <-]|].
  destruct (check x) eqn:Ex; [|done]. destruct (check_all check why l) as [|k]; [done|]. intros [= <-].
  destruct (IH _ eq_refl) as [-> HF]. split; [done|by constructor].
Qed.

Lemma read_names_facts k (w : world H) l (w' : world H) :
  (let '(r, w1) := read_set k w in (rec_names r, w1)) = (inr l, w') \/ (let '(r, w1) := read_set k w in (unwrap r rec_names, w1)) = (inr l, w') ->
  same w w' /\ (no_garble w -> no_garble w') /\ Forall (fun i => iface_re i = true) l /\ NoDup l /\
  exists es, entries_of k (w_now w) = Some es /\ forall i, i ∈ l <-> i ∈ es.
Proof.
  destruct (read_set k w) as [r w1] eqn:E. apply read_set_facts in E as (Hs & Hg & Hr). intros Hor.
  assert (exists raw, r = Known raw /\ w1 = w' /\ rec_names r = inr l) as (raw & -> & -> & El).
  { destruct r as [raw|reason]; [|exfalso; by destruct Hor as [Hor|Hor]; inversion Hor].
    exists raw. by destruct Hor as [Hor|Hor]; inversion Hor. }
  destruct Hr as (es & Hes & Ht). unfold rec_names, rec_lines in El. simpl in El.
  destruct (check_all iface_re bad_name (text_lines raw)) as [|l'] eqn:Ec; [done|]. injection El as <-.
  apply check_all_inr in Ec as [-> HF]. split_and!; [done|done| |apply NoDup_uniq|].
  - apply Forall_forall. intros i Hi. rewrite elem_of_uniq in Hi. exact (proj1 (Forall_forall _ _) HF i Hi).
  - exists es. split; [done|]. intros i. by rewrite elem_of_uniq, Ht, elem_of_uniq.
Qed.

Lemma read_pairs_facts k w l w' : read_pairs k w = (inr l, w') ->
  same w w' /\ (no_garble w -> no_garble w') /\
  exists es, entries_of k (w_now w) = Some es /\ forall q, q ∈ l <-> exists e, e ∈ es /\ pair_of e = Some q.
Proof.
  unfold read_pairs. destruct (read_set k w) as [r w1] eqn:E. apply read_set_facts in E as (Hs & Hg & Hr).
  destruct r as [raw|reason]; [|done]. simpl. destruct Hr as (es & Hes & Ht). unfold rec_pairs, rec_lines. simpl.
  destruct (check_all _ bad_pair (text_lines raw)) as [|l'] eqn:Ec; [done|]. simpl. intros [= <- <-].
  apply check_all_inr in Ec as [-> HF]. split_and!; [done|done|]. exists es. split; [done|]. intros q.
  rewrite elem_of_uniq, list_elem_of_omap. setoid_rewrite Ht. by setoid_rewrite elem_of_uniq.
Qed.

(** A read that fails changes nothing either. *)
Lemma read_pairs_same k w r w' : read_pairs k w = (r, w') -> same w w' /\ (no_garble w -> no_garble w').
Proof.
  unfold read_pairs. destruct (read_set k w) as [x w1] eqn:E. apply read_set_facts in E as (Hs & Hg & _). by intros [= <- <-].
Qed.

Lemma split_stale_facts pairs kept retained : split_stale pairs = (kept, retained) ->
  (forall p, p ∈ kept <-> exists q, q ∈ pairs /\ stale_pair q = inr p) /\ (forall q, q ∈ retained -> q ∈ pairs).
Proof.
  revert kept retained. induction pairs as [|q pairs IH]; intros kept retained.
  { intros [= <- <-]. set_solver. }
  change (split_stale (q :: pairs)) with (match stale_pair q with
    | inr p => (p :: (split_stale pairs).1, (split_stale pairs).2) | inl _ => ((split_stale pairs).1, q :: (split_stale pairs).2) end).
  destruct (split_stale pairs) as [k0 r0] eqn:E. destruct (IH _ _ eq_refl) as [Hk Hr]. cbn [fst snd]. destruct (stale_pair q) as [e|p0] eqn:Eq; intros [= <- <-].
  - split; [|set_solver]. intros p. rewrite Hk. split; [set_solver|].
    intros (q' & [-> | Hq]%elem_of_cons & Hs); [congruence|]. by exists q'.
  - split; [|set_solver]. intros p. rewrite elem_of_cons, Hk. split.
    + intros [-> | (q' & ? & ?)]; [exists q|exists q']; set_solver.
    + intros (q' & [-> | Hq]%elem_of_cons & Hs); [left; congruence|right]. by exists q'.
Qed.

Lemma read_scalar_same k w r w' : read_scalar k w = (r, w') -> same w w' /\ (no_garble w -> no_garble w').
Proof.
  destruct r as [r v]. intros E. split; [exact (proj1 (read_scalar_facts _ _ _ _ _ E))|]. revert E. unfold read_scalar, store_read, no_garble.
  destruct (next_fault w) as [f w1] eqn:Ef. injection Ef as <- <-. simpl. destruct (f_raise _); [|destruct (cell_at k _) as [[]|]];
    intros [= <- <- <-]; simpl; apply faults_tail.
Qed.

(** * Ownership *)

Lemma scalar_iface_read t i : checked_names [strip t] = inr [i] -> scalar_iface (Known t) "" = (i, [], false).
Proof. intros E. unfold scalar_iface. simpl rec_text. cbn [ok_map rec_content rec_text]. by rewrite E. Qed.

Lemma scalar_addr_read t v k a : checked_family_addr (strip t) v k = inr a -> scalar_addr (Known t) "" v k = (a, []).
Proof.
  intros E. unfold scalar_addr. rewrite (bool_decide_true ("" = "")) by done. cbn [negb ok_map rec_content rec_text].
  case_bool_decide as Et; [|by rewrite E]. rewrite Et in E. done.
Qed.

Lemma unread_nil r v : (if negb (known r) && bool_decide (v = "") then [reason_of r] else []) = [] ->
  (if negb (known r) && bool_decide (v = "") then false else true) = true.
Proof. by destruct (negb (known r) && bool_decide (v = "")). Qed.

Lemma stale_pair_canonical q p : stale_pair q = inr p -> iface_re p.1 = true /\ canonical p.2.
Proof.
  unfold stale_pair. destruct (checked_names [q.1]) as [|[|n ns]] eqn:En; [done..|].
  destruct (checked_addr_text q.2 _) as [|a] eqn:Ea; [done|]. intros [= <-]. simpl. split.
  - apply checked_names_sound in En as [HF _]. by apply Forall_inv in HF.
  - apply checked_addr_sound in Ea as (_ & f & Hf & -> & _). by exists f.
Qed.

Lemma read_ownership_facts w own w' : read_ownership w = (own, w') ->
  same w w' /\ (no_garble w -> no_garble w') /\
  (own_known own = true ->
     (forall i a, stale_tracks i a (w_now w) -> (i, a) ∈ own_stale own) /\
     (forall i a, scalar_tracks i a (w_now w) -> own_iface own = i /\ own_iface_unusable own = false /\ (own_addr4 own = a \/ own_addr6 own = a)) /\
     (forall p, p ∈ own_stale own -> iface_re p.1 = true /\ canonical p.2)).
Proof.
  unfold read_ownership.
  destruct (read_scalar IFACE_KEY w) as [[r1 v1] w1] eqn:E1. pose proof (read_scalar_same _ _ _ _ E1) as [S1 G1].
  destruct (read_scalar ADDR4_KEY w1) as [[r2 v2] w2] eqn:E2. pose proof (read_scalar_same _ _ _ _ E2) as [S2 G2].
  destruct (read_scalar ADDR6_KEY w2) as [[r3 v3] w3] eqn:E3. pose proof (read_scalar_same _ _ _ _ E3) as [S3 G3].
  destruct (read_pairs STALE_KEY w3) as [st w4] eqn:E4. pose proof (read_pairs_same _ _ _ _ E4) as [S4 G4].
  assert (w_now w1 = w_now w /\ w_now w2 = w_now w /\ w_now w3 = w_now w) as (N1 & N2 & N3).
  { destruct S1 as (? & _), S2 as (? & _), S3 as (? & _). split_and!; congruence. }
  intros E. assert (w' = w4) as ->.
  { destruct st; [by injection E as <- <-|]. destruct (negb _); [by injection E as <- <-|].
    destruct (scalar_iface r1 v1) as [[? ?] ?], (scalar_addr r2 v2 4 _), (scalar_addr r3 v3 6 _), (split_stale _). by injection E as <- <-. }
  split; [do 3 (etrans; [eassumption|]); done|]. split; [auto|]. intros Hkn.
  destruct st as [e|pairs].
  { injection E as <-. unfold own_known in Hkn. simpl in Hkn. apply bool_decide_eq_true in Hkn.
    repeat (apply app_nil in Hkn as [_ Hkn]). done. }
  apply read_pairs_facts in E4 as (_ & _ & es & Hes & Hq). rewrite N3 in Hes.
  destruct (negb (bool_decide (_ = []))) eqn:Eun.
  { injection E as <-. unfold own_known in Hkn. simpl in Hkn. by rewrite Hkn in Eun. }
  apply negb_false_iff, bool_decide_eq_true in Eun. rewrite app_nil_r in Eun.
  apply app_nil in Eun as [U1%unread_nil Eun]. apply app_nil in Eun as [U2%unread_nil U3%unread_nil].
  destruct (split_stale pairs) as [kept retained] eqn:Es. apply split_stale_facts in Es as [Hkept Hret].
  assert (own_stale own = kept /\ own_iface own = (scalar_iface r1 v1).1.1 /\ own_iface_unusable own = (scalar_iface r1 v1).2 /\
    own_addr4 own = (scalar_addr r2 v2 4 ADDR4_KEY).1 /\ own_addr6 own = (scalar_addr r3 v3 6 ADDR6_KEY).1) as (-> & -> & -> & -> & ->).
  { destruct (scalar_iface r1 v1) as [[? ?] ?], (scalar_addr r2 v2 4 _), (scalar_addr r3 v3 6 _). by injection E as <-. }
  clear E. split_and!.
  - intros i a. unfold stale_tracks, names_or_unknown. rewrite Hes. intros (e & He & q & Hp & Hsp). apply Hkept. exists q. split; [|done]. apply Hq. by exists e.
  - intros i a (t & ta & Ht & Hn & Hor). destruct (scalar_read _ _ _ _ _ _ E1 Ht U1) as [-> ->].
    rewrite (scalar_iface_read t i) by done. simpl. split_and!; [done|done|].
    destruct Hor as [[Ha Hc]|[Ha Hc]]; [left|right].
    + rewrite <- N1 in Ha. destruct (scalar_read _ _ _ _ _ _ E2 Ha U2) as [-> ->]. by rewrite (scalar_addr_read ta 4 _ a).
    + rewrite <- N2 in Ha. destruct (scalar_read _ _ _ _ _ _ E3 Ha U3) as [-> ->]. by rewrite (scalar_addr_read ta 6 _ a).
  - intros p (q & _ & Hp)%Hkept. by eapply stale_pair_canonical.
Qed.

(** * The cover *)

Lemma elem_of_other_ifaces i l x : i ∈ other_ifaces l x <-> i ∈ l /\ i <> "" /\ i <> x.
Proof. unfold other_ifaces. rewrite elem_of_uniq, list_elem_of_filter. naive_solver. Qed.

(** The cover of one merge: complete when every source answered, and made of legal names. *)
Lemma merge_cover_facts x answers :
  Forall (fun i => iface_re i = true /\ i <> x) (cv_names (merge_cover x answers)) /\ NoDup (cv_names (merge_cover x answers)) /\
  (cv_unknown (merge_cover x answers) = [] -> forall l i, inr l ∈ answers -> i ∈ l -> iface_re i = true -> i = x \/ i ∈ cv_names (merge_cover x answers)) /\
  (cv_unknown (merge_cover x answers) = [] -> forall e, inl e ∉ answers).
Proof.
  unfold merge_cover. set (checked := _ <$> answers). simpl. split_and!.
  - apply Forall_forall. intros i [Hi [_ Hx]]%elem_of_other_ifaces. split; [|done].
    apply list_elem_of_In, in_concat in Hi as (l & Hl & Hil). apply list_elem_of_In, list_elem_of_fmap in Hl as (r & -> & Hr).
    apply list_elem_of_fmap in Hr as (ans & -> & Ha). apply list_elem_of_In in Hil.
    destruct ans as [|l]; [by apply elem_of_nil in Hil|]. destruct (checked_names l) as [|l'] eqn:E; [by apply elem_of_nil in Hil|].
    apply checked_names_sound in E as [HF _]. by apply (proj1 (Forall_forall _ _) HF).
  - apply NoDup_uniq.
  - intros Hu l i Hl Hi Hr. destruct (decide (i = x)); [by left|right]. apply elem_of_other_ifaces.
    destruct (iface_re_facts i Hr) as (Hne & _ & Hs). split_and!; [|done|done].
    apply list_elem_of_In, in_concat. assert (checked_names l ∈ checked) as Hc by (apply list_elem_of_fmap; by exists (inr l)). destruct (checked_names l) as [e|l'] eqn:E.
    + exfalso. assert (e ∈ concat ((fun a : string + list string => match a with inl e => [e] | inr _ => [] end) <$> checked)) as He.
      { apply list_elem_of_In, in_concat. exists [e]. split; [|by left]. apply list_elem_of_In, list_elem_of_fmap. by exists (inl e). }
      rewrite Hu in He. by apply elem_of_nil in He.
    + exists l'. split; [apply list_elem_of_In, list_elem_of_fmap; by exists (inr l')|]. apply list_elem_of_In.
      apply checked_names_sound in E as [_ Hsound]. apply Hsound. by exists i.
  - intros Hu e He. assert (e ∈ concat ((fun a : string + list string => match a with inl e => [e] | inr _ => [] end) <$> checked)) as Hin.
    { apply list_elem_of_In, in_concat. exists [e]. split; [|by left]. apply list_elem_of_In, list_elem_of_fmap. exists (inl e). split; [done|].
      apply list_elem_of_fmap. by exists (inl e). }
    rewrite Hu in Hin. by apply elem_of_nil in Hin.
Qed.

Lemma parse_links_facts w r w' : parse_links w = (r, w') -> same w w' /\ (no_garble w -> no_garble w') /\
  forall l, r = inr l -> Forall (fun i => iface_re i = true) l /\ NoDup l /\ exists es, entries_of LINK_KEY (w_now w) = Some es /\ forall i, i ∈ l <-> i ∈ es.
Proof.
  intros E. unfold parse_links in E. destruct (read_set LINK_KEY w) as [x w1] eqn:Er.
  pose proof (read_set_facts _ _ _ _ Er) as (Hs & Hg & _). injection E as <- <-. split_and!; [done|done|].
  intros l El. pose proof (read_names_facts LINK_KEY w l w1) as Hf. rewrite Er, El in Hf. apply Hf. by left.
Qed.

Lemma read_links_facts w r w' : read_links w = (r, w') -> same w w' /\ (no_garble w -> no_garble w') /\
  forall l, r = inr l -> Forall (fun i => iface_re i = true) l /\ NoDup l /\ exists es, entries_of LINK_KEY (w_now w) = Some es /\ forall i, i ∈ l <-> i ∈ es.
Proof.
  intros E. unfold read_links in E. destruct (read_set LINK_KEY w) as [x w1] eqn:Er.
  pose proof (read_set_facts _ _ _ _ Er) as (Hs & Hg & _). injection E as <- <-. split_and!; [done|done|].
  intros l El. pose proof (read_names_facts LINK_KEY w l w1) as Hf. rewrite Er, El in Hf. apply Hf. by right.
Qed.

Lemma ownership_cover_facts w r w' : ownership_cover w = (r, w') -> same w w' /\ (no_garble w -> no_garble w') /\
  forall l, r = inr l -> forall i a, stale_tracks i a (w_now w) \/ scalar_tracks i a (w_now w) -> i ∈ l.
Proof.
  unfold ownership_cover. destruct (read_ownership w) as [own w1] eqn:E. apply read_ownership_facts in E as (Hs & Hg & Hk).
  intros [= <- <-]. split_and!; [done|done|]. destruct (own_known own); [|done]. destruct (Hk eq_refl) as (Hst & Hsc & _).
  intros l [= <-] i a [Ht|Ht].
  - apply Hst in Ht. right. apply elem_of_app. left. apply list_elem_of_fmap. by exists (i, a).
  - destruct (Hsc _ _ Ht) as (-> & _). left.
Qed.

Lemma superseded_facts x w c w' : superseded_state x w = (c, w') -> same w w' /\ (no_garble w -> no_garble w') /\
  Forall (fun i => iface_re i = true /\ i <> x) (cv_names c) /\ NoDup (cv_names c) /\
  (cover_known c = true -> forall i a, iface_re i = true ->
     stale_tracks i a (w_now w) \/ scalar_tracks i a (w_now w) \/ link_tracks i (w_now w) -> i = x \/ i ∈ cv_names c).
Proof.
  unfold superseded_state. destruct (ownership_cover w) as [o w1] eqn:Eo. apply ownership_cover_facts in Eo as (S1 & G1 & Ho).
  destruct (parse_links w1) as [l w2] eqn:El. apply parse_links_facts in El as (S2 & G2 & Hl). intros [= <- <-].
  destruct (merge_cover_facts x [o; l]) as (HF & Hd & Hc & Hn).
  split_and!; [by etrans|auto|done|done|]. unfold cover_known. rewrite bool_decide_eq_true. intros Hu i a Hr Ht.
  assert (exists k, (inr k : string + list string) ∈ [o; l] /\ i ∈ k) as (k & Hk & Hi); [|by eapply Hc].
  destruct o as [e|ol]; [exfalso; apply (Hn Hu e); constructor|]. destruct l as [e|ll]; [exfalso; apply (Hn Hu e); do 2 constructor|].
  destruct Ht as [Ht|[Ht|Ht]].
  - exists ol. split; [constructor|]. eapply Ho; [done|by left].
  - exists ol. split; [constructor|]. eapply Ho; [done|by right].
  - exists ll. split; [do 2 constructor|]. destruct (Hl ll eq_refl) as (_ & _ & es & He & Hi).
    destruct S1 as (Hn1 & _). rewrite Hn1 in He. unfold link_tracks, names_or_unknown in Ht. rewrite He in Ht.
    destruct Ht as (e & Hee & <-). by apply Hi.
Qed.

Lemma checked_survivors_facts ps wh l : checked_survivors ps wh = inr l ->
  Forall (fun p => iface_re (strip p.1) = true \/ strip p.1 = "") l /\ Forall (fun p => canonical p.2) l /\
  (forall p, p ∈ l <-> exists q, q ∈ ps /\ checked_survivors [q] wh = inr [p]).
Proof.
  revert l. induction ps as [|[i a] ps IH]; simpl; intros l; [intros [= <-]; split_and!; [done|done|set_solver]|].
  destruct (checked_names [i]) as [|n] eqn:En; [by simpl in En; rewrite En|].
  pose proof En as En'. simpl in En'. rewrite En'. clear En'.
  destruct (checked_addr_text a _) as [|a'] eqn:Ea; [done|]. destruct (checked_survivors ps wh) as [|l'] eqn:El; [done|]. intros [= <-].
  destruct (IH _ eq_refl) as (HF & HC & Hi). split_and!.
  - constructor; [|done]. simpl in *. case_bool_decide; [by right|left]. by destruct (iface_re (strip i)).
  - constructor; [|done]. apply checked_addr_sound in Ea as (_ & f & Hf & -> & _). by exists f.
  - intros p. rewrite elem_of_cons, Hi. split.
    + intros [-> | (q & Hq & Hc)].
      * exists (i, a). split; [left|]. simpl in *. by rewrite En, Ea.
      * exists q. split; [by right|done].
    + intros (q & [-> | Hq]%elem_of_cons & Hc); [left|right; by exists q]. simpl in *. rewrite En, Ea in Hc. by injection Hc as <-.
Qed.

Lemma survivor_pairs_facts w r w' : survivor_pairs w = (r, w') -> same w w' /\ (no_garble w -> no_garble w') /\
  forall l, r = inr l -> Forall (fun p => p.1 <> "" -> iface_re p.1 = true) l /\ Forall (fun p => canonical p.2) l /\
    (forall p, p ∈ l -> p.1 <> "" /\ str_all (fun c => negb (is_space c)) p.1 = true) /\
    exists es, entries_of SURVIVOR_KEY (w_now w) = Some es /\
      forall i a, (i, a) ∈ l <-> exists e, e ∈ es /\ survivor_entry i a e.
Proof.
  unfold survivor_pairs. destruct (read_pairs SURVIVOR_KEY w) as [x w1] eqn:E. pose proof (read_pairs_same _ _ _ _ E) as [Hs Hg].
  intros [= <- <-]. split_and!; [done|done|]. intros l El. destruct x as [|pairs]; [done|].
  apply read_pairs_facts in E as (_ & _ & es & Hes & Hq). apply checked_survivors_facts in El as (HF & HC & Hi).
  assert (forall p, p ∈ l -> p.1 <> "" /\ str_all (fun c => negb (is_space c)) p.1 = true) as Hcl.
  { intros p (q & Hqp & Hc)%Hi. apply Hq in Hqp as (e & _ & Hp). unfold pair_of in Hp. pose proof (words_clean e) as Hw.
    destruct (words e) as [|u [|v [|]]]; try done. injection Hp as <-. apply Forall_inv in Hw. simpl in Hc.
    destruct (bool_decide (strip u = "")); [|destruct (negb (iface_re (strip u))); [done|]];
      (destruct (checked_addr_text v _); [done|]; by injection Hc as <-). }
  split_and!; [|done|done|].
  - apply Forall_forall. intros p Hp Hne. destruct (Hcl p Hp) as [_ Hsp].
    destruct (proj1 (Forall_forall _ _) HF p Hp) as [H1|H1]; rewrite strip_id in H1 by done; done.
  - exists es. split; [done|]. intros i a. rewrite Hi. unfold survivor_entry. setoid_rewrite Hq. naive_solver.
Qed.

Lemma candidate_iface_legal rec i : checked_candidate_iface rec = inr i -> i = "" \/ iface_re i = true.
Proof.
  unfold checked_candidate_iface. destruct (checked_text rec "iface") as [|t]; [done|]. case_bool_decide; [intros [= <-]; by left|].
  destruct (checked_names [t]) as [|l] eqn:E; [done|]. intros [= <-]. apply checked_names_sound in E as [HF _].
  destruct HF as [|x l Hx _]; [by left|by right].
Qed.

(** The pending record is decoded with [json.loads]. *)
Context (json_pairs : string -> string + json).
Context (json_dumps : json -> string).

Definition pending_tracks (i : string) m : Prop :=
  match held PROVISION_UNDO_KEY m with
  | None => True
  | Some raw => let c := pe_cover (pending_of json_pairs json_dumps (Known raw)) in i ∈ cv_names c \/ cv_unknown c <> []
  end.

(** The address [a] on interface [i] is accounted for by one of the records. *)
Definition tracked (i a : string) m : Prop :=
  stale_tracks i a m \/ scalar_tracks i a m \/ link_tracks i m \/ survivor_tracks i a m \/ pending_tracks i m.

Lemma pending_names r : Forall (fun i => iface_re i = true) (cv_names (pe_cover (pending_of json_pairs json_dumps r))).
Proof.
  unfold pending_of. destruct (rec_text r) as [|raw]; [constructor|]. destruct raw as [|c raw]; [constructor|].
  destruct (decoded_record json_pairs _) as [| |rec]; [constructor..|]. destruct (negb (is_obj rec)); [constructor|].
  destruct (settled_undo json_dumps rec) as [[] inc]; [constructor|]. destruct (checked_candidate_iface rec) as [|i] eqn:Ei; [constructor|].
  assert (Forall (fun i => iface_re i = true) (if bool_decide (i = "") then [] else [i])) as HF.
  { case_bool_decide; [constructor|]. destruct (candidate_iface_legal rec i Ei) as [?|?]; [done|by repeat constructor]. }
  destruct (negb (bool_decide (inc = ""))); [done|]. destruct (checked_candidate_fields rec i) as [|c']; [done|].
  destruct (bool_decide (ca_iface c' = "")); [constructor|done].
Qed.

(** The durable cover: its names are legal interface names other than the plan's own, without
    repeats; and when every source answered, every interface a record tracks is among them. *)
Lemma enforcement_cover_facts x w c w' : enforcement_cover json_pairs json_dumps x w = (c, w') -> same w w' /\ (no_garble w -> no_garble w') /\
  Forall (fun i => iface_re i = true /\ i <> x) (cv_names c) /\ NoDup (cv_names c) /\
  (cover_known c = true -> forall i a, iface_re i = true -> tracked i a (w_now w) -> i = x \/ i ∈ cv_names c).
Proof.
  unfold enforcement_cover, parse_survivors. destruct (survivor_pairs w) as [sv w1] eqn:E1. apply survivor_pairs_facts in E1 as (S1 & G1 & Hsv).
  destruct (superseded_state x w1) as [su w2] eqn:E2. apply superseded_facts in E2 as (S2 & G2 & HF2 & _ & Hsu).
  unfold pending_candidate. pose proof (read_keeps_faults PROVISION_UNDO_KEY w2) as G3.
  destruct (read_record PROVISION_UNDO_KEY w2) as [rp w3] eqn:E3. apply read_record_facts in E3 as [S3 Hp]. intros [= <- <-].
  set (answers := [ok_map (fun l : list (string * string) => l.*1) sv]). destruct (merge_cover_facts x answers) as (HFm & _ & Hm & Hn).
  split; [by etrans; [|etrans]|]. split; [intros Hg; exact (G3 (G2 (G1 Hg)))|]. cbn [cv_names]. split; [|split; [apply NoDup_uniq|]].
  - apply Forall_forall. intros i (Hi & Hne & Hx)%elem_of_other_ifaces. split; [|done].
    rewrite !elem_of_app in Hi. destruct Hi as [Hi|[Hi|Hi]].
    + by apply (proj1 (Forall_forall _ _) HF2).
    + by apply (proj1 (Forall_forall _ _) HFm).
    + exact (proj1 (Forall_forall _ _) (pending_names rp) i Hi).
  - unfold cover_known. cbn [cv_unknown]. rewrite bool_decide_eq_true. intros Hu i a Hr Ht.
    apply app_nil in Hu as [Hu1 Hu]. apply app_nil in Hu as [Hu2 Hu3]. destruct (iface_re_facts i Hr) as (Hne & _).
    destruct (decide (i = x)) as [|Hx]; [by left|right]. apply elem_of_other_ifaces. split_and!; [|done|done]. rewrite !elem_of_app.
    assert (cover_known su = true) as Hk by (by apply bool_decide_eq_true).
    destruct S1 as (N1 & _), S2 as (N2 & _). rewrite N1 in Hsu.
    destruct Ht as [Ht|[Ht|[Ht|[Ht|Ht]]]].
    1-3: left; destruct (Hsu Hk i a Hr) as [|]; [tauto|done|done].
    + right. left. assert (exists l, sv = inr l) as [l ->].
      { destruct sv as [e|l]; [|by eexists]. exfalso. apply (Hn Hu2 e). constructor. }
      destruct (Hsv l eq_refl) as (_ & _ & _ & es & Hes & Hi). unfold survivor_tracks, names_or_unknown in Ht. rewrite Hes in Ht.
      apply Hi in Ht. destruct (Hm Hu2 l.*1 i) as [|]; [constructor|apply list_elem_of_fmap; by exists (i, a)|done|done|done].
    + right. right. unfold pending_tracks in Ht. destruct rp as [raw|reason]; [|done].
      rewrite N2, N1 in Hp. rewrite Hp in Ht. by destruct Ht as [|].
Qed.
End tracking.
