(* ===== verification/Host.v ===== *)
(** The host under [net_control/provision.py]: the [run] seam of the backend, the probes
    that read a fact out of a command's answer, and the emergency deny (lines 441-641,
    1475-1702).

    [Kernel] is what the panel calls of the machine: running a command, the services beside
    it (dnsmasq, the DHCPv6 client, /proc and configuration files) and the three
    operations of the backend that install rules.  Nothing is assumed of it here.
    [backend] is the object [state.net]: the kernel behind the seam and the parked note. *)
From Stdlib Require Import ZArith Lia Ascii.
From stdpp Require Import base gmap strings list.
From S2P Require Import Prelude PyStr Ip IpText Models Json Config Store Plan Enforcement Records Ledgers.
Open Scope string_scope.
Open Scope list_scope.
Open Scope Z_scope.

(** What running a command gives: output that can be read or not, CalledProcessError with
    its return code, stderr, stdout and text, or OSError. *)
Inductive ran :=
  | RanOk (out : option string)
  | RanFailed (rc : Z) (stderr stdout text : string)
  | RanOSError (text : string).

(** The services beside the commands; [remove] and [write] of files are best effort. *)
Inductive service :=
  | WriteProc (path value : string)
  | ReadProc (path : string)
  | WriteFile (path text : string)
  | RemoveFile (path : string)
  | DnsmasqApply (p : plan) | DnsmasqStop
  | PdSetCallback | PdStart | PdStop | PdClearState.
Inductive answer := Served | ServedFalse | ServedText (t : string) | ServiceRaised (text : string).

Class Kernel (K : Type) := {
  k_run : list string -> option string -> K -> ran * K;
  k_service : service -> K -> answer * K;
  k_tproxy : plan -> K -> net_call * K;
  k_guard : plan -> K -> net_call * K;
  k_teardown : K -> net_call * K
}.

Record backend (K : Type) := Backend { b_seam : bool; b_kernel : K; b_note : string }.
Arguments Backend {K}.
Arguments b_seam {K}.
Arguments b_kernel {K}.
Arguments b_note {K}.
Definition set_kernel {K} (k : K) (b : backend K) : backend K := Backend (b_seam b) k (b_note b).
(** [_record_emergency] *)
Definition record_emergency {K} (reason : string) (b : backend K) : backend K := Backend (b_seam b) (b_kernel b) reason.
(** [enforcement_fallback_note] *)
Definition enforcement_fallback_note {K} (b : backend K) : string := b_note b.

Definition TIMEOUT_RETURNCODE : Z := 124.
Definition LINK_ABSENT_TOKENS : list string := ["does not exist"; "cannot find"; "no such"].
Definition says_absent (stderr stdout : string) : bool :=
  existsb (fun t => contains t (lower (stderr +:+ " " +:+ stdout))) LINK_ABSENT_TOKENS.
Definition absent_answer (rc : Z) (stderr stdout : string) : bool :=
  negb (rc =? TIMEOUT_RETURNCODE) && says_absent stderr stdout.

(** * Probes: what an answer says *)

Definition link_answer (r : ran) : link_state * string :=
  match r with
  | RanOk _ => (LinkPresent, "")
  | RanFailed rc err out _ =>
      if absent_answer rc err out then (LinkAbsent, "")
      else (LinkUnknown, Some (strip err) or ("ip link show exited " +:+ str_int rc))
  | RanOSError t => (LinkUnknown, t)
  end.

Inductive up_state := LinkUp | LinkDown | UpUnknown.

(** The text between the first [<] and the first [>]. *)
Fixpoint find_char (c : ascii) (s : string) : option nat :=
  match s with
  | EmptyString => None
  | String d s' => if bool_decide (d = c) then Some O else S <$> find_char c s'
  end.
Definition up_answer (r : ran) : up_state * string :=
  match r with
  | RanFailed rc err out _ =>
      if absent_answer rc err out then (LinkDown, "")
      else (UpUnknown, Some (strip err) or ("ip link show exited " +:+ str_int rc))
  | RanOSError t => (UpUnknown, t)
  | RanOk None => (UpUnknown, "ip link show produced no readable output")
  | RanOk (Some out) =>
      match find_char "<" out, find_char ">" out with
      | Some a, Some b =>
          if (b <? a)%nat then (UpUnknown, "ip link show did not report the link flags")
          else (if bool_decide ("UP" ∈ split_on ","%char (str_take (b - (a + 1)) (str_drop (a + 1) out))) then LinkUp else LinkDown, "")
      | _, _ => (UpUnknown, "ip link show did not report the link flags")
      end
  end.

(** The answer about [addr], asked as a token of the output. *)
Definition addr_answer (addr : string) (r : ran) : link_state * string :=
  match r with
  | RanFailed rc err out _ =>
      if absent_answer rc err out then (LinkAbsent, "")
      else (LinkUnknown, Some (strip err) or ("ip addr show exited " +:+ str_int rc))
  | RanOSError t => (LinkUnknown, t)
  | RanOk None => (LinkUnknown, "ip addr show produced no readable output")
  | RanOk (Some out) =>
      match addr_token addr with
      | None => (LinkUnknown, repr (str_take 80 addr) +:+ " is not one address with a prefix length")
      | Some want => (if existsb (fun tok => bool_decide (addr_token tok = Some want)) (words out) then LinkPresent else LinkAbsent, "")
      end
  end.

Definition is6 (addr : string) : bool := contains ":" addr.
Definition show_link (iface : string) : list string := ["ip"; "link"; "show"; iface].
Definition show_flags (iface : string) : list string := ["ip"; "-o"; "link"; "show"; iface].
Definition show_addr (iface addr : string) : list string := ["ip"; if is6 addr then "-6" else "-4"; "-o"; "addr"; "show"; "dev"; iface].
Definition del_addr (iface addr : string) : list string :=
  ["ip"] ++ (if is6 addr then ["-6"] else []) ++ ["addr"; "del"; addr; "dev"; iface].
Definition replace_addr (iface addr : string) (v6 : bool) : list string :=
  ["ip"] ++ (if v6 then ["-6"] else []) ++ ["addr"; "replace"; addr; "dev"; iface].
Definition add_link (parent iface : string) (vid : Z) : list string :=
  ["ip"; "link"; "add"; "link"; parent; "name"; iface; "type"; "vlan"; "id"; str_int vid].
Definition del_link (iface : string) : list string := ["ip"; "link"; "delete"; iface].
Definition up_link (iface : string) : list string := ["ip"; "link"; "set"; iface; "up"].
Definition nsenter (cmd : list string) : list string := ["nsenter"; "-t"; "1"; "-m"; "-n"; "--"] ++ cmd.

(** [render._segment_ifaces]: every interface the rules of a plan name. *)
Definition add_iface (names : list string) (n : string) : list string :=
  let n := strip n in if negb (bool_decide (n = "")) && negb (bool_decide (n ∈ names)) && iface_re n then names ++ [n] else names.
Definition segment_ifaces (p : plan) : list string := foldl add_iface [np_segment_iface p] (np_extra_ifaces p).

(** * The emergency deny *)

Definition EMERGENCY_TABLE : string := "pi_gw_panel_emergency".
Definition nl : string := String "010" "".
Definition emergency_family (family : string) : string :=
  "add table " +:+ family +:+ " " +:+ EMERGENCY_TABLE +:+ nl +:+
  "delete table " +:+ family +:+ " " +:+ EMERGENCY_TABLE +:+ nl +:+
  "table " +:+ family +:+ " " +:+ EMERGENCY_TABLE +:+ " {" +:+ nl +:+
  "    chain forward {" +:+ nl +:+
  "        type filter hook forward priority filter; policy drop;" +:+ nl +:+
  "    }" +:+ nl +:+ "}" +:+ nl.
Definition EMERGENCY_SCRIPT : string := emergency_family "ip" +:+ emergency_family "ip6".

Section emergency.
Context `{Kernel K}.
Implicit Types (b : backend K).

Definition b_run (argv : list string) (input : option string) b : ran * backend K :=
  let '(r, k) := k_run argv input (b_kernel b) in (r, set_kernel k b).
Definition b_service (x : service) b : answer * backend K :=
  let '(r, k) := k_service x (b_kernel b) in (r, set_kernel k b).

(** [for ... : run(cmd)] until one of them fails. *)
Fixpoint run_all (cmds : list (list string * option string)) b : option ran * backend K :=
  match cmds with
  | [] => (None, b)
  | (argv, input) :: cs =>
      match b_run argv input b with
      | (RanOk _, b) => run_all cs b
      | (r, b) => (Some r, b)
      end
  end.

Definition ran_text (r : ran) : string :=
  match r with RanFailed _ err _ text => Some err or text | RanOSError t => t | RanOk _ => "" end.

Definition proc_off (path : string) b : list string * backend K :=
  let '(a, b) := b_service (WriteProc path "0") b in (match a with ServedFalse => [path] | _ => [] end, b).
Definition disable_forwarding b : string * backend K :=
  let '(f1, b) := proc_off "/proc/sys/net/ipv4/ip_forward" b in
  let '(f2, b) := proc_off "/proc/sys/net/ipv6/conf/all/forwarding" b in
  (if bool_decide (f1 ++ f2 = []) then "" else "forwarding could not be turned off either (" +:+ join ", " (f1 ++ f2) +:+ ")", b).

Definition deny_failed (detail sysctl why : string) : string :=
  "the emergency deny on forwarded traffic could not be installed (" +:+ detail +:+ "); " +:+
  (Some sysctl or "IPv4 and IPv6 forwarding were turned off instead, which the next host pass would undo") +:+
  " — the enforcement it stands in for was refused because: " +:+ why.
Definition deny_installed (why : string) : string :=
  "every forwarded packet is being dropped by an interface-independent emergency deny, because the panel's own segment enforcement could not be installed: " +:+ why +:+
  " — segment clients have no network until it can be, and traffic to this host (the panel, SSH, the segment's DHCP and DNS) is unaffected".

Definition install_emergency_forward_deny (why : string) b : string * backend K :=
  if negb (b_seam b) then ("", b)
  else
    match run_all [(["nft"; "-f"; "-"], Some EMERGENCY_SCRIPT); (["nft"; "list"; "table"; "ip"; EMERGENCY_TABLE], None);
                   (["nft"; "list"; "table"; "ip6"; EMERGENCY_TABLE], None)] b with
    | (Some r, b) =>
        let '(sysctl, b) := disable_forwarding b in
        let reason := deny_failed (strip (ran_text r)) sysctl why in
        (reason, record_emergency reason b)
    | (None, b) => ("", record_emergency (deny_installed why) b)
    end.

Definition drop_table (family : string) b : list string * backend K :=
  match b_run ["nft"; "delete"; "table"; family; EMERGENCY_TABLE] None b with
  | (RanOk _, b) => ([], b)
  | (RanFailed _ err out text, b) =>
      (if says_absent err out then [] else [family +:+ ": " +:+ strip (Some err or text)], b)
  | (RanOSError t, b) => ([family +:+ ": " +:+ t], b)
  end.
Definition release_failed (failed : list string) : string :=
  "the segment enforcement is installed, but the emergency deny on forwarded traffic could not be removed, so segment clients may still have no network: " +:+ join "; " failed.
Definition release_emergency_forward_deny b : string * backend K :=
  if negb (b_seam b) then ("", record_emergency "" b)
  else
    let '(f4, b) := drop_table "ip" b in
    let '(f6, b) := drop_table "ip6" b in
    if bool_decide (f4 ++ f6 = []) then ("", record_emergency "" b)
    else (release_failed (f4 ++ f6), record_emergency (release_failed (f4 ++ f6)) b).

(** [enforcement_fallback] *)
Definition enforcement_fallback (r : net_result) b : string * backend K :=
  if nr_ok r then ("", (release_emergency_forward_deny b).2)
  else install_emergency_forward_deny (Some (nr_error r) or "the panel could not install the segment enforcement, and gave no reason") b.

(** The backend as the controller sees it: the interface [NetHost], with the cover read from the
    store as it is ([odd]) and as it will answer ([faults]). *)
Definition on_kernel (f : K -> net_call * K) b : net_call * backend K :=
  let '(c, k) := f (b_kernel b) in (c, set_kernel k b).
#[global] Instance backend_host (json_pairs : string -> string + json) (json_dumps : json -> string)
    (odd : gmap string string) (faults : list fault) : NetHost (backend K) := {
  nh_apply_tproxy p := on_kernel (k_tproxy p);
  nh_apply_guard := Some (fun p => on_kernel (k_guard p));
  nh_teardown := on_kernel k_teardown;
  nh_release_emergency b := let '(why, b) := release_emergency_forward_deny b in (inr why, b);
  nh_fallback_note := enforcement_fallback_note;
  nh_enforcement_cover d iface :=
    inr (enforcement_cover json_pairs json_dumps iface
           (World (Moment d odd (Net tt "" None "" "" [])) faults None [])).1
}.
End emergency.
