(* ===== verification/Nft.v ===== *)
(** nftables: the rules the panel writes, as data with a printer and a meaning.

    A table has named counters and base chains; a chain is hooked into the path of a packet
    and its rules are tried in order until one decides.  [print_table] is the text handed to
    [nft -f]; [eval] is what the kernel does with a packet. *)
From Stdlib Require Import ZArith Lia Ascii.
From stdpp Require Import base gmap strings list.
From S2P Require Import Prelude PyStr Ip IpText.
Open Scope string_scope.
Open Scope list_scope.
Open Scope Z_scope.

(** * Text *)

Definition line_feed : string := String "010" "".
Definition quote : string := String "034" "".
Definition quoted (s : string) : string := quote +:+ s +:+ quote.

(** ['%x' % z] *)
Fixpoint hex_digits (n : nat) (z : Z) (acc : string) : string :=
  match n with
  | O => acc
  | S n' => let acc' := String (hex_char (z mod 16)) acc in if z <? 16 then acc' else hex_digits n' (z / 16) acc'
  end.
Definition hex_str (z : Z) : string :=
  (if z <? 0 then "-" else "") +:+ hex_digits (S (Z.to_nat (Z.log2 (Z.abs z)))) (Z.abs z) "".

Definition net_str (n : ipnet) : string := addr_str (net_version n) (net_addr n) +:+ "/" +:+ str_int (net_prefix n).
Definition in_net (n : ipnet) (a : Z) : bool := mask_addr (net_width (net_version n)) (net_prefix n) a =? net_addr n.

(** * Rules *)

(** An element of an address set: a network, or one IPv4 address. *)
Inductive elem := ENet (n : ipnet) | EAddr (a : Z).
Definition elem_str (e : elem) : string := match e with ENet n => net_str n | EAddr a => ip4_str a end.
Definition in_elem (a : Z) (e : elem) : bool := match e with ENet n => in_net n a | EAddr b => a =? b end.
Definition in_set (a : Z) (l : list elem) : bool := existsb (in_elem a) l.

Inductive proto := Tcp | Udp | OtherProto.
#[export] Instance proto_eq : EqDecision proto.
Proof. solve_decision. Defined.

Inductive test :=
  | Mark (m : Z)
  | Iif (names : list string)
  | Oif (name : string)
  | SrcNet (n : ipnet) | DstNet (n : ipnet)
  | SrcAddr (text : string) | DstAddr (text : string)
  | SrcIn (l : list elem) | DstIn (l : list elem) | DstNotIn (l : list elem)
  | UdpDport (ports : list Z)
  | TcpUdp.

(** Counting decides nothing. *)
Inductive action := Return | Drop | Tproxy (mark port : Z) | Masquerade | Count (name : string).

Record rule := Rule { r_tests : list test; r_action : action }.
Record chain := Chain { c_name : string; c_kind : string; c_hook : string; c_priority : string; c_rules : list rule }.
Record table := Table { t_family : string; t_counters : list string; t_chains : list chain }.

(** * The printer *)

Section print.
Context (family : string).

Definition set_str (l : list string) : string := "{ " +:+ join ", " l +:+ " }".
Definition test_str (t : test) : string :=
  match t with
  | Mark m => "meta mark 0x" +:+ hex_str m
  | Iif [n] => "iifname " +:+ quoted n
  | Iif l => "iifname " +:+ set_str (quoted <$> l)
  | Oif n => "oifname " +:+ quoted n
  | SrcNet n => family +:+ " saddr " +:+ net_str n
  | DstNet n => family +:+ " daddr " +:+ net_str n
  | SrcAddr t => family +:+ " saddr " +:+ t
  | DstAddr t => family +:+ " daddr " +:+ t
  | SrcIn l => family +:+ " saddr " +:+ set_str (elem_str <$> l)
  | DstIn l => family +:+ " daddr " +:+ set_str (elem_str <$> l)
  | DstNotIn l => family +:+ " daddr != " +:+ set_str (elem_str <$> l)
  | UdpDport l => "udp dport " +:+ set_str (str_int <$> l)
  | TcpUdp => "meta l4proto { tcp, udp }"
  end.
Definition action_str (a : action) : string :=
  match a with
  | Return => "return"
  | Drop => "drop"
  | Tproxy m p => "meta mark set 0x" +:+ hex_str m +:+ " tproxy " +:+ family +:+ " to :" +:+ str_int p +:+ " accept"
  | Masquerade => "masquerade"
  | Count n => "counter name " +:+ n
  end.
Definition rule_str (r : rule) : string :=
  "        " +:+ join " " ((test_str <$> r_tests r) ++ [action_str (r_action r)]) +:+ line_feed.
Definition chain_str (c : chain) : string :=
  "    chain " +:+ c_name c +:+ " {" +:+ line_feed +:+
  "        type " +:+ c_kind c +:+ " hook " +:+ c_hook c +:+ " priority " +:+ c_priority c +:+ "; policy accept;" +:+ line_feed +:+
  join "" (rule_str <$> c_rules c) +:+ "    }" +:+ line_feed.
Definition counter_str (n : string) : string := "    counter " +:+ n +:+ " { }" +:+ line_feed.
End print.

Definition print_table (t : table) : string :=
  "table " +:+ t_family t +:+ " pi_gw_panel {" +:+ line_feed +:+
  join "" (counter_str <$> t_counters t) +:+ join "" (chain_str (t_family t) <$> t_chains t) +:+ "}" +:+ line_feed.

(** * The meaning *)

Record packet := Packet { pk_iif : string; pk_oif : string; pk_src : Z; pk_dst : Z; pk_proto : proto; pk_dport : Z; pk_mark : Z }.

(** An address written in a rule. *)
Definition written (t : string) : option Z := snd <$> ip_address (strip t).

Definition passes (k : packet) (t : test) : bool :=
  match t with
  | Mark m => pk_mark k =? m
  | Iif l => bool_decide (pk_iif k ∈ l)
  | Oif n => bool_decide (pk_oif k = n)
  | SrcNet n => in_net n (pk_src k)
  | DstNet n => in_net n (pk_dst k)
  | SrcAddr t => bool_decide (written t = Some (pk_src k))
  | DstAddr t => bool_decide (written t = Some (pk_dst k))
  | SrcIn l => in_set (pk_src k) l
  | DstIn l => in_set (pk_dst k) l
  | DstNotIn l => negb (in_set (pk_dst k) l)
  | UdpDport l => bool_decide (pk_proto k = Udp) && bool_decide (pk_dport k ∈ l)
  | TcpUdp => bool_decide (pk_proto k <> OtherProto)
  end.

Inductive verdict := Passed | Dropped | ToProxy (port : Z).

Fixpoint run_rules (k : packet) (l : list rule) : verdict :=
  match l with
  | [] => Passed
  | r :: l' =>
      if forallb (passes k) (r_tests r) then
        match r_action r with
        | Drop => Dropped
        | Tproxy _ p => ToProxy p
        | Return | Masquerade => Passed
        | Count _ => run_rules k l'
        end
      else run_rules k l'
  end.

(** The chains of a hook, each in its turn, until one keeps the packet from going on. *)
Fixpoint run_chains (hook : string) (k : packet) (l : list chain) : verdict :=
  match l with
  | [] => Passed
  | c :: l' =>
      if bool_decide (c_hook c = hook) then
        match run_rules k (c_rules c) with Passed => run_chains hook k l' | v => v end
      else run_chains hook k l'
  end.

(** A packet that arrives from outside and is not for this host: delivered to the proxy, dropped,
    or forwarded ([Passed]). *)
Definition route (t : table) (k : packet) : verdict :=
  match run_chains "prerouting" k (t_chains t) with
  | Passed => run_chains "forward" k (t_chains t)
  | v => v
  end.
