(* ===== verification/Render.v ===== *)
(** [net_control/render.py]: the nftables rulesets, the reservations a plan can apply and the
    dnsmasq configuration; and [net24] of [net_control/plan.py]. *)
From Stdlib Require Import ZArith Lia Ascii.
From stdpp Require Import base gmap strings list.
From S2P Require Import Prelude PyStr Ip IpText Models Config Store Plan Enforcement Records Host Nft.
Open Scope string_scope.
Open Scope list_scope.
Open Scope Z_scope.

(** * Plan *)

Definition net24_of (ip : string) : option ipnet :=
  let ip := strip ip in if bool_decide (ip = "") then None else ip_network (ip +:+ "/24").
Definition net24 (ip : string) : string := from_option net_str "" (net24_of ip).

(** * Reservations *)

Definition is_lower_hex (c : ascii) : bool := is_digit c || bool_decide (c ∈ ["a"; "b"; "c"; "d"; "e"; "f"]%char).
(** [_MAC_RE], on text that has been stripped: the [$] cannot meet a line break. *)
Definition mac_re (s : string) : bool :=
  match split_on ":"%char s with
  | [a; b; c; d; e; f] => forallb (fun t => (String.length t =? 2)%nat && str_all is_lower_hex t) [a; b; c; d; e; f]
  | _ => false
  end.
Definition is_alpha (c : ascii) : bool :=
  let n := nat_of_ascii c in ((65 <=? n)%nat && (n <=? 90)%nat) || ((97 <=? n)%nat && (n <=? 122)%nat).
Definition is_alnum (c : ascii) : bool := is_digit c || is_alpha c.
Definition last_char (s : string) : option ascii := String.get (String.length s - 1) s.
(** The pattern of [_HOSTNAME_RE] on the whole text. *)
Definition host_body (s : string) : bool :=
  (1 <=? String.length s)%nat && (String.length s <=? 32)%nat &&
  str_all (fun c => is_alnum c || bool_decide (c = "-"%char)) s &&
  from_option is_alnum false (String.get 0 s) && from_option is_alnum false (last_char s).
(** [re.match] with [$]: one line feed may follow. *)
Definition hostname_re (s : string) : bool :=
  host_body s ||
  (bool_decide (last_char s = Some "010"%char) && host_body (str_take (String.length s - 1) s)).

Definition reservation_value_issue (mac ip name : string) : option string :=
  if negb (mac_re (lower (strip mac))) then Some "MAC must look like aa:bb:cc:dd:ee:ff"
  else if negb (bool_decide (name = "")) && negb (hostname_re name) then
    Some "name may use letters, digits and hyphens only (up to 32 characters)"
  else match ip_address (strip ip) with
       | None => Some (repr ip +:+ " is not an IPv4 address")
       | Some (v, _) => if negb (v =? 4) then Some "a reservation is IPv4 only" else None
       end.

Definition reservation_issue (mac ip name : string) (p : plan) : option string :=
  match reservation_value_issue mac ip name with
  | Some why => Some why
  | None =>
      match ip_address (strip ip), net24_of (np_segment_ip p) with
      | Some (v, a), Some n =>
          if negb ((v =? net_version n) && in_net n a) then
            Some (ip +:+ " is outside the segment " +:+ net_str n)
          else if negb (bool_decide (np_segment_ip p = "")) && bool_decide (addr_str v a = strip (np_segment_ip p)) then
            Some "that is the gateway's own address"
          else None
      | _, _ => Some (ip +:+ " is outside the segment (unset)")
      end
  end.

Definition applied_reservations (p : plan) : list (string * string * string) :=
  filter (fun r => reservation_issue r.1.1 r.1.2 r.2 p = None) (np_reservations p).

(** * Rulesets *)

(** [_iif] *)
Definition iif (p : plan) : string :=
  match segment_ifaces p with
  | [n] => "iifname " +:+ quoted n
  | names => "iifname { " +:+ join ", " (quoted <$> names) +:+ " }"
  end.

Definition seg_prefix6 (p : plan) : option ipnet :=
  let s := strip (np_segment_ip6 p) in
  if bool_decide (s = "") || bool_decide (lower s = "auto") then None else ip_network s.
Definition local6 (p : plan) : string :=
  "{ " +:+ join ", " (["::1/128"; "fe80::/10"; "fc00::/7"; "ff00::/8"] ++ option_list (net_str <$> seg_prefix6 p)) +:+ " }".

Definition PRIVATE_SET : string := "127.0.0.0/8, 10.0.0.0/8, 172.16.0.0/12, 192.168.0.0/16".

Definition dot_to_underscore (s : string) : string := str_map (fun c => if bool_decide (c = "."%char) then "_"%char else c) s.
Definition counter_names (ip : string) : string * string :=
  let key := dot_to_underscore ip in ("dev_up_" +:+ key, "dev_down_" +:+ key).

Definition accounting (p : plan) : string * string :=
  let usable := applied_reservations p in
  if bool_decide (usable = []) then ("", "")
  else
    let declarations := (fun r : string * string * string => let '(up, down) := counter_names r.1.2 in
      "    counter " +:+ up +:+ " { }" +:+ line_feed +:+ "    counter " +:+ down +:+ " { }" +:+ line_feed) <$> usable in
    let uploads := (fun r : string * string * string =>
      "        ip saddr " +:+ r.1.2 +:+ " counter name " +:+ (counter_names r.1.2).1 +:+ line_feed) <$> usable in
    let downloads := (fun r : string * string * string =>
      "        ip daddr " +:+ r.1.2 +:+ " counter name " +:+ (counter_names r.1.2).2 +:+ line_feed) <$> usable in
    (join "" declarations,
     "    chain acct_up {" +:+ line_feed +:+
     "        type filter hook prerouting priority mangle; policy accept;" +:+ line_feed +:+
     "        ip daddr { " +:+ PRIVATE_SET +:+ " } return" +:+ line_feed +:+
     join "" uploads +:+ "    }" +:+ line_feed +:+
     "    chain acct_down {" +:+ line_feed +:+
     "        type filter hook postrouting priority mangle; policy accept;" +:+ line_feed +:+
     "        ip saddr { " +:+ PRIVATE_SET +:+ " } return" +:+ line_feed +:+
     join "" downloads +:+ "    }" +:+ line_feed).

Definition render_nft (p : plan) (tunnel_up : bool) : string :=
  let iif := iif p in
  let '(counters, accounting) := accounting p in
  let forward :=
    if np_kill_switch p then
      "    chain forward {" +:+ line_feed +:+
      "        type filter hook forward priority filter; policy accept;" +:+ line_feed +:+
      "        " +:+ iif +:+ " ip daddr != { 127.0.0.0/8, 10.0.0.0/8, 172.16.0.0/12, 192.168.0.0/16 } drop" +:+ line_feed +:+
      "    }" +:+ line_feed
    else "" in
  let seg_net := net24 (np_segment_ip p) in
  let lan := net24 (np_mgmt_ip p) in
  let dhcp_dst := if bool_decide (seg_net = "") then "255.255.255.255" else seg_net +:+ ", 255.255.255.255" in
  let prerouting :=
    if tunnel_up then
      "    chain prerouting {" +:+ line_feed +:+
      "        type filter hook prerouting priority mangle; policy accept;" +:+ line_feed +:+
      "        meta mark 0x" +:+ hex_str (np_egress_mark p) +:+ " return" +:+ line_feed +:+
      "        ip daddr { 127.0.0.0/8, 10.0.0.0/8, 172.16.0.0/12, 192.168.0.0/16 } return" +:+ line_feed +:+
      "        " +:+ iif +:+ " ip daddr { " +:+ dhcp_dst +:+ " } udp dport { 67, 68 } return" +:+ line_feed +:+
      "        " +:+ iif +:+ " meta l4proto { tcp, udp } meta mark set 0x" +:+ hex_str (np_fwmark p) +:+
        " tproxy ip to :" +:+ str_int (np_tproxy_port p) +:+ " accept" +:+ line_feed +:+
      "    }" +:+ line_feed
    else "" in
  let postrouting :=
    if np_lan_access p && negb (bool_decide (seg_net = "")) && negb (bool_decide (lan = "")) then
      "    chain postrouting {" +:+ line_feed +:+
      "        type nat hook postrouting priority srcnat; policy accept;" +:+ line_feed +:+
      "        ip saddr " +:+ seg_net +:+ " ip daddr " +:+ lan +:+ " oifname " +:+ quoted (np_mgmt_iface p) +:+ " masquerade" +:+ line_feed +:+
      "    }" +:+ line_feed
    else "" in
  "table ip pi_gw_panel {" +:+ line_feed +:+
  counters +:+ prerouting +:+ forward +:+ postrouting +:+ accounting +:+ "}" +:+ line_feed.

Definition render_nft6 (p : plan) (tunnel_up : bool) : string :=
  let local6 := local6 p in
  let iif := iif p in
  let drop := "        " +:+ iif +:+ " ip6 daddr != " +:+ local6 +:+ " drop" +:+ line_feed in
  let forward :=
    "    chain forward {" +:+ line_feed +:+
    "        type filter hook forward priority filter; policy accept;" +:+ line_feed +:+
    drop +:+ "    }" +:+ line_feed in
  if np_ipv6_enabled p && tunnel_up then
    "table ip6 pi_gw_panel {" +:+ line_feed +:+
    "    chain prerouting {" +:+ line_feed +:+
    "        type filter hook prerouting priority mangle; policy accept;" +:+ line_feed +:+
    "        meta mark 0x" +:+ hex_str (np_egress_mark p) +:+ " return" +:+ line_feed +:+
    "        ip6 daddr " +:+ local6 +:+ " return" +:+ line_feed +:+
    "        udp dport { 546, 547 } return" +:+ line_feed +:+
    "        " +:+ iif +:+ " meta l4proto { tcp, udp } meta mark set 0x" +:+ hex_str (np_fwmark p) +:+
      " tproxy ip6 to :" +:+ str_int (np_tproxy_port6 p) +:+ " accept" +:+ line_feed +:+
    "    }" +:+ line_feed +:+ forward +:+ "}" +:+ line_feed
  else if np_kill_switch p || tunnel_up then
    "table ip6 pi_gw_panel {" +:+ line_feed +:+ forward +:+ "}" +:+ line_feed
  else "".

(** * dnsmasq *)

Definition dnsmasq_fields (p : plan) : list (string * string) :=
  [("segment_iface", np_segment_iface p); ("dnsmasq_leases", np_dnsmasq_leases p); ("dhcp_start", np_dhcp_start p);
   ("dhcp_end", np_dhcp_end p); ("dhcp_lease", np_dhcp_lease p); ("segment_ip", np_segment_ip p);
   ("client_dns", np_client_dns p); ("client_dns6", np_client_dns6 p)].
Definition has_break (s : string) : bool := contains line_feed s || contains (String "013" "") s.
(** [_no_line_break]: the ValueError, if any. *)
Definition no_line_break (p : plan) : option string :=
  (fun f => f.1 +:+ " must not contain a line break") <$> head (filter (fun f => has_break f.2 = true) (dnsmasq_fields p)).

Definition render_dnsmasq (p : plan) : string + string :=
  match no_line_break p with
  | Some e => inl e
  | None =>
      let base :=
        "interface=" +:+ np_segment_iface p +:+ line_feed +:+
        "bind-interfaces" +:+ line_feed +:+
        "dhcp-leasefile=" +:+ np_dnsmasq_leases p +:+ line_feed +:+
        "dhcp-range=" +:+ np_dhcp_start p +:+ "," +:+ np_dhcp_end p +:+ "," +:+ np_dhcp_lease p +:+ line_feed +:+
        "dhcp-option=3," +:+ np_segment_ip p +:+ line_feed +:+
        "dhcp-option=6," +:+ np_client_dns p +:+ line_feed in
      let hosts := (fun r : string * string * string =>
        "dhcp-host=" +:+ r.1.1 +:+ "," +:+ r.1.2 +:+ (if bool_decide (r.2 = "") then line_feed else "," +:+ r.2 +:+ line_feed)) <$> applied_reservations p in
      let v6 :=
        if np_ipv6_enabled p then
          "enable-ra" +:+ line_feed +:+
          "dhcp-range=::,constructor:" +:+ np_segment_iface p +:+ ",ra-stateless,64," +:+ np_dhcp_lease p +:+ line_feed +:+
          "dhcp-option=option6:dns-server,[" +:+ np_client_dns6 p +:+ "]" +:+ line_feed
        else "" in
      inr (base +:+ join "" hosts +:+ v6)
  end.
