(* ===== verification/RenderProps.v ===== *)
(** The properties of the rendered rulesets and of the dnsmasq configuration. *)
From Stdlib Require Import ZArith Lia Ascii.
From stdpp Require Import base gmap strings list.
From S2P Require Import Prelude PyStr Ip IpText Models Store Config Plan Enforcement Records RecordsFacts Ledgers LedgersFacts Host Nft Render.
Open Scope string_scope.
Open Scope list_scope.
Open Scope Z_scope.

(** * Lemmas *)

(** The rulesets of [render.py] as data: the text is the printed table, and the tables keep
    segment clients off the network outside the tunnel. *)

(** * The tables *)

Definition net4 (a b c d len : Z) : elem := ENet (IpNet 4 (a * 16777216 + b * 65536 + c * 256 + d) len).
Definition private4 : list elem := [net4 127 0 0 0 8; net4 10 0 0 0 8; net4 172 16 0 0 12; net4 192 168 0 0 16].
Definition broadcast4 : elem := EAddr 4294967295.
Definition net6 (high len : Z) : elem := ENet (IpNet 6 (high * 2 ^ 112) len).
Definition private6 (p : plan) : list elem :=
  [ENet (IpNet 6 1 128); net6 65152 10; net6 64512 7; net6 65280 8] ++ option_list (ENet <$> seg_prefix6 p).

Definition seg_if (p : plan) : test := Iif (segment_ifaces p).
Definition forward4 (p : plan) : chain := Chain "forward" "filter" "forward" "filter" [Rule [seg_if p; DstNotIn private4] Drop].
Definition prerouting4 (p : plan) : chain :=
  Chain "prerouting" "filter" "prerouting" "mangle"
    [Rule [Mark (np_egress_mark p)] Return;
     Rule [DstIn private4] Return;
     Rule [seg_if p; DstIn (option_list (ENet <$> net24_of (np_segment_ip p)) ++ [broadcast4]); UdpDport [67; 68]] Return;
     Rule [seg_if p; TcpUdp] (Tproxy (np_fwmark p) (np_tproxy_port p))].
Definition postrouting4 (p : plan) : list chain :=
  match np_lan_access p, net24_of (np_segment_ip p), net24_of (np_mgmt_ip p) with
  | true, Some n, Some l => [Chain "postrouting" "nat" "postrouting" "srcnat" [Rule [SrcNet n; DstNet l; Oif (np_mgmt_iface p)] Masquerade]]
  | _, _, _ => []
  end.
Definition counters4 (p : plan) : list string :=
  concat ((fun r : string * string * string => let '(up, down) := counter_names r.1.2 in [up; down]) <$> applied_reservations p).
Definition accounting4 (p : plan) : list chain :=
  let usable := applied_reservations p in
  if bool_decide (usable = []) then []
  else
    [Chain "acct_up" "filter" "prerouting" "mangle"
       (Rule [DstIn private4] Return :: ((fun r : string * string * string => Rule [SrcAddr r.1.2] (Count (counter_names r.1.2).1)) <$> usable));
     Chain "acct_down" "filter" "postrouting" "mangle"
       (Rule [SrcIn private4] Return :: ((fun r : string * string * string => Rule [DstAddr r.1.2] (Count (counter_names r.1.2).2)) <$> usable))].
Definition table4 (p : plan) (tunnel_up : bool) : table :=
  Table "ip" (counters4 p)
    ((if tunnel_up then [prerouting4 p] else []) ++ (if np_kill_switch p then [forward4 p] else []) ++ postrouting4 p ++ accounting4 p).

Definition forward6 (p : plan) : chain := Chain "forward" "filter" "forward" "filter" [Rule [seg_if p; DstNotIn (private6 p)] Drop].
Definition prerouting6 (p : plan) : chain :=
  Chain "prerouting" "filter" "prerouting" "mangle"
    [Rule [Mark (np_egress_mark p)] Return;
     Rule [DstIn (private6 p)] Return;
     Rule [UdpDport [546; 547]] Return;
     Rule [seg_if p; TcpUdp] (Tproxy (np_fwmark p) (np_tproxy_port6 p))].
Definition table6 (p : plan) (tunnel_up : bool) : option table :=
  if np_ipv6_enabled p && tunnel_up then Some (Table "ip6" [] [prerouting6 p; forward6 p])
  else if np_kill_switch p || tunnel_up then Some (Table "ip6" [] [forward6 p])
  else None.

(** * The text is the printed table *)

Lemma iif_printed f p : iif p = test_str f (seg_if p).
Proof. unfold iif, seg_if, test_str, set_str. destruct (segment_ifaces p) as [|n [|n' l]]; done. Qed.

Lemma join_app (l l' : list string) : join "" (l ++ l') = join "" l +:+ join "" l'.
Proof.
  assert (forall s l, join "" (s :: l) = s +:+ join "" l) as Hc.
  { intros s [|t k]; [simpl; clear; induction s as [|c s IH]; [done|]; by rewrite str_app_cons, <- IH|done]. }
  induction l as [|s l IH]; [by rewrite str_app_nil|]. simpl app. by rewrite !Hc, IH, append_assoc.
Qed.
Lemma join_cons s (l : list string) : join "" (s :: l) = s +:+ join "" l.
Proof. exact (join_app [s] l). Qed.
Lemma app_nil_r_str (s : string) : s +:+ "" = s.
Proof. induction s as [|c s IH]; [done|]. by rewrite str_app_cons, IH. Qed.

(** Both sides as one right-nested concatenation. *)
Ltac flat := rewrite ?join_cons, ?join_app, ?append_assoc; simpl join; rewrite ?app_nil_r_str, ?append_assoc; try reflexivity.

Lemma private4_printed : PRIVATE_SET = join ", " (elem_str <$> private4).
Proof. by vm_compute. Qed.

Lemma local6_printed p : local6 p = set_str (elem_str <$> private6 p).
Proof.
  unfold local6, private6, set_str. assert (["::1/128"; "fe80::/10"; "fc00::/7"; "ff00::/8"] = elem_str <$> [ENet (IpNet 6 1 128); net6 65152 10; net6 64512 7; net6 65280 8]) as -> by (by vm_compute).
  rewrite fmap_app. by destruct (seg_prefix6 p).
Qed.

Lemma rule_one f ts a t : join " " ((test_str f <$> ts) ++ [action_str f a]) = t -> rule_str f (Rule ts a) = "        " +:+ t +:+ line_feed.
Proof. by intros <-. Qed.

Lemma forward4_printed p :
  "    chain forward {" +:+ line_feed +:+
  "        type filter hook forward priority filter; policy accept;" +:+ line_feed +:+
  "        " +:+ iif p +:+ " ip daddr != { 127.0.0.0/8, 10.0.0.0/8, 172.16.0.0/12, 192.168.0.0/16 } drop" +:+ line_feed +:+
  "    }" +:+ line_feed = chain_str "ip" (forward4 p).
Proof.
  unfold chain_str. cbn [c_name c_kind c_hook c_priority c_rules forward4 fmap list_fmap]. rewrite (iif_printed "ip").
  assert (test_str "ip" (DstNotIn private4) = "ip daddr != { 127.0.0.0/8, 10.0.0.0/8, 172.16.0.0/12, 192.168.0.0/16 }") as E by (by vm_compute).
  unfold rule_str. cbn [r_tests r_action fmap list_fmap app join]. rewrite E. generalize (test_str "ip" (seg_if p)). intros t. flat.
Qed.

Lemma net24_blank ip : bool_decide (net24 ip = "") = bool_decide (net24_of ip = None).
Proof.
  unfold net24. destruct (net24_of ip) as [n|]; cbn [from_option]; [|reflexivity].
  rewrite (bool_decide_false (Some n = None)), bool_decide_false; [done| |done]. unfold net_str. intros E. assert (forall a b, a +:+ String "/" b <> "") as Hn.
  { intros a b. by destruct a. }
  apply (Hn (addr_str (net_version n) (net_addr n)) (str_int (net_prefix n))). rewrite <- E. by rewrite str_app_cons.
Qed.

Lemma prerouting4_printed p :
  "    chain prerouting {" +:+ line_feed +:+
  "        type filter hook prerouting priority mangle; policy accept;" +:+ line_feed +:+
  "        meta mark 0x" +:+ hex_str (np_egress_mark p) +:+ " return" +:+ line_feed +:+
  "        ip daddr { 127.0.0.0/8, 10.0.0.0/8, 172.16.0.0/12, 192.168.0.0/16 } return" +:+ line_feed +:+
  "        " +:+ iif p +:+ " ip daddr { " +:+
    (if bool_decide (net24 (np_segment_ip p) = "") then "255.255.255.255" else net24 (np_segment_ip p) +:+ ", 255.255.255.255") +:+
    " } udp dport { 67, 68 } return" +:+ line_feed +:+
  "        " +:+ iif p +:+ " meta l4proto { tcp, udp } meta mark set 0x" +:+ hex_str (np_fwmark p) +:+
    " tproxy ip to :" +:+ str_int (np_tproxy_port p) +:+ " accept" +:+ line_feed +:+
  "    }" +:+ line_feed = chain_str "ip" (prerouting4 p).
Proof.
  unfold chain_str. cbn [c_name c_kind c_hook c_priority c_rules prerouting4 fmap list_fmap]. rewrite !(iif_printed "ip").
  assert (test_str "ip" (DstIn private4) = "ip daddr { 127.0.0.0/8, 10.0.0.0/8, 172.16.0.0/12, 192.168.0.0/16 }") as E1 by (by vm_compute).
  assert (test_str "ip" (UdpDport [67; 68]) = "udp dport { 67, 68 }") as E2 by (by vm_compute).
  assert (test_str "ip" (DstIn (option_list (ENet <$> net24_of (np_segment_ip p)) ++ [broadcast4])) = "ip daddr { " +:+
    (if bool_decide (net24 (np_segment_ip p) = "") then "255.255.255.255" else net24 (np_segment_ip p) +:+ ", 255.255.255.255") +:+ " }") as E3.
  { rewrite net24_blank. unfold net24. destruct (net24_of (np_segment_ip p)) as [n|]; cbn [bool_decide decide_rel from_option].
    - rewrite bool_decide_false by done. change (option_list (ENet <$> Some n) ++ [broadcast4]) with [ENet n; broadcast4].
      unfold test_str, set_str. change (elem_str <$> [ENet n; broadcast4]) with [net_str n; "255.255.255.255"]. cbn [join].
      generalize (net_str n). intros t. flat.
    - rewrite bool_decide_true by done. by vm_compute. }
  unfold rule_str. cbn [r_tests r_action fmap list_fmap app join]. rewrite E1, E2, E3. generalize (test_str "ip" (seg_if p)). intros t.
  cbn [test_str action_str]. generalize (if bool_decide (net24 (np_segment_ip p) = "") then "255.255.255.255" else net24 (np_segment_ip p) +:+ ", 255.255.255.255").
  intros u. flat.
Qed.

Lemma postrouting4_printed p :
  (if np_lan_access p && negb (bool_decide (net24 (np_segment_ip p) = "")) && negb (bool_decide (net24 (np_mgmt_ip p) = "")) then
     "    chain postrouting {" +:+ line_feed +:+
     "        type nat hook postrouting priority srcnat; policy accept;" +:+ line_feed +:+
     "        ip saddr " +:+ net24 (np_segment_ip p) +:+ " ip daddr " +:+ net24 (np_mgmt_ip p) +:+ " oifname " +:+ quoted (np_mgmt_iface p) +:+ " masquerade" +:+ line_feed +:+
     "    }" +:+ line_feed
   else "") = join "" (chain_str "ip" <$> postrouting4 p).
Proof.
  rewrite !net24_blank. unfold postrouting4, net24. destruct (np_lan_access p); [|done].
  destruct (net24_of (np_segment_ip p)) as [n|]; [|done]. destruct (net24_of (np_mgmt_ip p)) as [l|]; [|done].
  rewrite !bool_decide_false by done. cbn [negb andb from_option fmap list_fmap]. unfold chain_str.
  cbn [c_name c_kind c_hook c_priority c_rules fmap list_fmap]. unfold rule_str. cbn [r_tests r_action fmap list_fmap app join test_str action_str].
  generalize (net_str n) (net_str l) (quoted (np_mgmt_iface p)). intros t u v. flat.
Qed.

Lemma counters_printed (l : list (string * string * string)) :
  join "" ((fun r : string * string * string => let '(up, down) := counter_names r.1.2 in
    "    counter " +:+ up +:+ " { }" +:+ line_feed +:+ "    counter " +:+ down +:+ " { }" +:+ line_feed) <$> l) =
  join "" (counter_str <$> concat ((fun r : string * string * string => let '(up, down) := counter_names r.1.2 in [up; down]) <$> l)).
Proof.
  induction l as [|r l IH]; [done|]. cbn [fmap list_fmap concat]. rewrite join_cons, fmap_app, join_app, IH. f_equal.
  destruct (counter_names r.1.2) as [up down]. cbn [fmap list_fmap]. unfold counter_str. flat.
Qed.

Lemma counts_printed side (name : string * string * string -> string) (test_ : string -> test) (l : list (string * string * string)) :
  (forall t, test_str "ip" (test_ t) = "ip " +:+ side +:+ " " +:+ t) ->
  join "" ((fun r : string * string * string => "        ip " +:+ side +:+ " " +:+ r.1.2 +:+ " counter name " +:+ name r +:+ line_feed) <$> l) =
  join "" (rule_str "ip" <$> ((fun r : string * string * string => Rule [test_ r.1.2] (Count (name r))) <$> l)).
Proof.
  intros Ht. induction l as [|r l IH]; [done|]. cbn [fmap list_fmap]. rewrite !join_cons. f_equal; [|exact IH].
  unfold rule_str. cbn [r_tests r_action fmap list_fmap app join action_str]. rewrite Ht. generalize (name r). intros n. flat.
Qed.

Lemma acct_printed name hook head_ side (r0 : rule) (rest : list rule) rests :
  rule_str "ip" r0 = "        ip " +:+ side +:+ " { " +:+ PRIVATE_SET +:+ " } return" +:+ line_feed ->
  join "" (rule_str "ip" <$> rest) = rests ->
  "    chain " +:+ name +:+ " {" +:+ line_feed +:+ "        type filter hook " +:+ hook +:+ " priority mangle; policy accept;" = head_ ->
  head_ +:+ line_feed +:+ "        ip " +:+ side +:+ " { " +:+ PRIVATE_SET +:+ " } return" +:+ line_feed +:+ rests +:+ "    }" +:+ line_feed =
  chain_str "ip" (Chain name "filter" hook "mangle" (r0 :: rest)).
Proof.
  intros E0 <- <-. unfold chain_str. cbn [c_name c_kind c_hook c_priority c_rules]. rewrite fmap_cons, join_cons, E0.
  generalize (join "" (rule_str "ip" <$> rest)) PRIVATE_SET. intros u v. flat.
Qed.

Lemma accounting_printed p :
  accounting p = (join "" (counter_str <$> counters4 p), join "" (chain_str "ip" <$> accounting4 p)).
Proof.
  unfold accounting, accounting4, counters4. case_bool_decide as E; [by rewrite E|]. f_equal; [apply counters_printed|].
  rewrite !fmap_cons, !join_cons, fmap_nil. cbn [join]. rewrite app_nil_r_str.
  rewrite <- (acct_printed "acct_up" "prerouting" _ "daddr" (Rule [DstIn private4] Return) _ _ eq_refl
    (eq_sym (counts_printed "saddr" (fun r => (counter_names r.1.2).1) SrcAddr (applied_reservations p) (fun t => eq_refl))) eq_refl).
  rewrite <- (acct_printed "acct_down" "postrouting" _ "saddr" (Rule [SrcIn private4] Return) _ _ eq_refl
    (eq_sym (counts_printed "daddr" (fun r => (counter_names r.1.2).2) DstAddr (applied_reservations p) (fun t => eq_refl))) eq_refl).
  generalize PRIVATE_SET. intros q. flat.
Qed.

Lemma render_nft_printed p tunnel_up : render_nft p tunnel_up = print_table (table4 p tunnel_up).
Proof.
  unfold render_nft. cbv zeta. rewrite accounting_printed, forward4_printed, prerouting4_printed, postrouting4_printed.
  unfold print_table, table4. cbn [t_family t_counters t_chains]. rewrite !fmap_app, !join_app.
  generalize (join "" (counter_str <$> counters4 p)) (join "" (chain_str "ip" <$> postrouting4 p)) (join "" (chain_str "ip" <$> accounting4 p)).
  intros a b c. destruct tunnel_up, (np_kill_switch p); cbn [fmap list_fmap join];
    generalize (chain_str "ip" (prerouting4 p)) (chain_str "ip" (forward4 p)); intros d e; flat.
Qed.

Lemma forward6_printed p :
  "    chain forward {" +:+ line_feed +:+
  "        type filter hook forward priority filter; policy accept;" +:+ line_feed +:+
  ("        " +:+ iif p +:+ " ip6 daddr != " +:+ local6 p +:+ " drop" +:+ line_feed) +:+
  "    }" +:+ line_feed = chain_str "ip6" (forward6 p).
Proof.
  unfold chain_str. cbn [c_name c_kind c_hook c_priority c_rules forward6 fmap list_fmap]. rewrite (iif_printed "ip6"), local6_printed.
  unfold rule_str. cbn [r_tests r_action fmap list_fmap app join]. generalize (test_str "ip6" (seg_if p)). intros t.
  cbn [test_str action_str]. generalize (set_str (elem_str <$> private6 p)). intros u. flat.
Qed.

Lemma prerouting6_printed p :
  "    chain prerouting {" +:+ line_feed +:+
  "        type filter hook prerouting priority mangle; policy accept;" +:+ line_feed +:+
  "        meta mark 0x" +:+ hex_str (np_egress_mark p) +:+ " return" +:+ line_feed +:+
  "        ip6 daddr " +:+ local6 p +:+ " return" +:+ line_feed +:+
  "        udp dport { 546, 547 } return" +:+ line_feed +:+
  "        " +:+ iif p +:+ " meta l4proto { tcp, udp } meta mark set 0x" +:+ hex_str (np_fwmark p) +:+
    " tproxy ip6 to :" +:+ str_int (np_tproxy_port6 p) +:+ " accept" +:+ line_feed +:+
  "    }" +:+ line_feed = chain_str "ip6" (prerouting6 p).
Proof.
  unfold chain_str. cbn [c_name c_kind c_hook c_priority c_rules prerouting6 fmap list_fmap]. rewrite (iif_printed "ip6"), local6_printed.
  assert (test_str "ip6" (UdpDport [546; 547]) = "udp dport { 546, 547 }") as E by (by vm_compute).
  unfold rule_str. cbn [r_tests r_action fmap list_fmap app join]. rewrite E. generalize (test_str "ip6" (seg_if p)). intros t.
  cbn [test_str action_str]. generalize (set_str (elem_str <$> private6 p)). intros u. flat.
Qed.

Lemma render_nft6_printed p tunnel_up : render_nft6 p tunnel_up = from_option print_table "" (table6 p tunnel_up).
Proof.
  unfold render_nft6, table6. cbv zeta. rewrite forward6_printed. destruct (np_ipv6_enabled p && tunnel_up).
  - cbn [from_option]. unfold print_table. cbn [t_family t_counters t_chains fmap list_fmap join]. rewrite <- prerouting6_printed.
    generalize (chain_str "ip6" (forward6 p)) (local6 p) (iif p). intros a b c. flat.
  - destruct (np_kill_switch p || tunnel_up); [|done]. cbn [from_option]. unfold print_table. cbn [t_family t_counters t_chains fmap list_fmap join].
    generalize (chain_str "ip6" (forward6 p)). intros a. flat.
Qed.

(** * What the rules do *)

Lemma acct_passes k (l : list (string * string * string)) (r0 : rule) (t : string -> test) (n : string * string * string -> string) :
  r_action r0 = Return -> run_rules k (r0 :: ((fun r : string * string * string => Rule [t r.1.2] (Count (n r))) <$> l)) = Passed.
Proof.
  intros Hr. simpl. rewrite Hr. destruct (forallb _ _); [done|]. induction l as [|r l IH]; [done|]. simpl. by destruct (_ && _).
Qed.

Lemma accounting_passes h k p : run_chains h k (accounting4 p) = Passed.
Proof.
  unfold accounting4. case_bool_decide; [done|]. cbn [run_chains c_hook c_rules].
  rewrite (acct_passes k _ (Rule [DstIn private4] Return) SrcAddr), (acct_passes k _ (Rule [SrcIn private4] Return) DstAddr) by done.
  by destruct (bool_decide _), (bool_decide _).
Qed.

Lemma run_chains_app h k a b : run_chains h k (a ++ b) = match run_chains h k a with Passed => run_chains h k b | v => v end.
Proof. induction a as [|c a IH]; [done|]. simpl. destruct (bool_decide _); [|done]. by destruct (run_rules k (c_rules c)). Qed.

Lemma postrouting_passes h k p : run_chains h k (postrouting4 p) = Passed.
Proof.
  unfold postrouting4. destruct (np_lan_access p); [|done]. destruct (net24_of (np_segment_ip p)); [|done]. destruct (net24_of (np_mgmt_ip p)); [|done].
  simpl. destruct (bool_decide _); [|done]. by destruct (_ && _).
Qed.

(** * Properties *)

(** * Rulesets *)

(** the text handed to nft is, character for character, the printed form of the tables whose
    meaning the following properties state, in both families and in both modes. *)
Theorem ruleset_is_printed p tunnel_up :
  render_nft p tunnel_up = print_table (table4 p tunnel_up) /\
  render_nft6 p tunnel_up = from_option print_table "" (table6 p tunnel_up).
Proof. split; [apply render_nft_printed|apply render_nft6_printed]. Qed.

(** A client's request for an address: to the segment or broadcast, on the ports of DHCP. *)
Definition is_dhcp (p : plan) (k : packet) : bool :=
  in_set (pk_dst k) (option_list (ENet <$> net24_of (np_segment_ip p)) ++ [broadcast4]) &&
  (bool_decide (pk_proto k = Udp) && bool_decide (pk_dport k ∈ [67; 68])).

Section routes.
Context (p : plan) (up : bool) (k : packet).

Lemma route4_hooks : route (table4 p up) k =
  match (if up then run_rules k (c_rules (prerouting4 p)) else Passed) with
  | Passed => if np_kill_switch p then run_rules k (c_rules (forward4 p)) else Passed
  | v => v
  end.
Proof.
  unfold route, table4. cbn [t_chains]. rewrite !run_chains_app, !postrouting_passes, !accounting_passes.
  destruct up, (np_kill_switch p); cbn [run_chains c_hook c_rules prerouting4 forward4];
    rewrite ?(bool_decide_true ("prerouting" = "prerouting")), ?(bool_decide_false ("forward" = "prerouting")),
      ?(bool_decide_false ("prerouting" = "forward")), ?(bool_decide_true ("forward" = "forward")) by done;
    repeat match goal with |- context [match run_rules ?a ?b with _ => _ end] => destruct (run_rules a b) end; done.
Qed.
End routes.

(** What happens to an IPv4 packet of a client of the segment. *)
Lemma segment_verdict4 p up k :
  pk_iif k ∈ segment_ifaces p ->
  route (table4 p up) k =
    if in_set (pk_dst k) private4 then Passed
    else if up && negb (pk_mark k =? np_egress_mark p) && negb (is_dhcp p k) && bool_decide (pk_proto k <> OtherProto) then ToProxy (np_tproxy_port p)
    else if np_kill_switch p then Dropped else Passed.
Proof.
  intros Hi. rewrite route4_hooks. unfold prerouting4, forward4, seg_if, is_dhcp. cbn [c_rules run_rules r_tests r_action forallb passes].
  rewrite (bool_decide_true (pk_iif k ∈ segment_ifaces p)) by done. cbn [andb]. rewrite !andb_true_r.
  destruct (in_set (pk_dst k) private4), up, (pk_mark k =? np_egress_mark p); cbn [andb negb]; try by destruct (np_kill_switch p).
  destruct (in_set (pk_dst k) _ && _); cbn [andb negb]; [by destruct (np_kill_switch p)|].
  destruct (bool_decide (pk_proto k <> OtherProto)); [done|by destruct (np_kill_switch p)].
Qed.

(** The same for IPv6. *)
Lemma segment_verdict6 p up k :
  pk_iif k ∈ segment_ifaces p ->
  match table6 p up with
  | None => up = false /\ np_kill_switch p = false
  | Some t =>
      route t k =
        if in_set (pk_dst k) (private6 p) then Passed
        else if np_ipv6_enabled p && up && negb (pk_mark k =? np_egress_mark p) && bool_decide (pk_proto k <> OtherProto) &&
                negb (bool_decide (pk_proto k = Udp) && bool_decide (pk_dport k ∈ [546; 547])) then ToProxy (np_tproxy_port6 p)
        else Dropped
  end.
Proof.
  intros Hi. unfold table6. destruct (np_ipv6_enabled p && up) eqn:E.
  - unfold route. cbn [t_chains run_chains prerouting6 forward6 c_hook c_rules].
    rewrite (bool_decide_true ("prerouting" = "prerouting")), (bool_decide_false ("forward" = "prerouting")), (bool_decide_false ("prerouting" = "forward")), (bool_decide_true ("forward" = "forward")) by done.
    unfold seg_if. cbn [run_rules r_tests r_action forallb passes]. rewrite (bool_decide_true (pk_iif k ∈ segment_ifaces p)) by done.
    cbn [andb]. rewrite !andb_true_r.
    destruct (in_set (pk_dst k) (private6 p)), (pk_mark k =? np_egress_mark p); cbn [andb negb]; try done.
    destruct (bool_decide (pk_proto k = Udp) && bool_decide (pk_dport k ∈ [546; 547])); cbn [andb negb]; [by rewrite andb_false_r|].
    rewrite andb_true_r. by destruct (bool_decide (pk_proto k <> OtherProto)).
  - destruct (np_kill_switch p || up) eqn:Eo; [|by apply orb_false_iff in Eo as [-> ->]].
    unfold route. cbn [t_chains run_chains forward6 c_hook c_rules].
    rewrite (bool_decide_false ("forward" = "prerouting")), (bool_decide_true ("forward" = "forward")) by done.
    unfold seg_if. cbn [run_rules r_tests r_action forallb passes]. rewrite (bool_decide_true (pk_iif k ∈ segment_ifaces p)) by done.
    cbn [andb]. rewrite !andb_true_r. by destruct (in_set (pk_dst k) (private6 p)).
Qed.

(** C7: what the IPv4 ruleset does with a packet of a client of the segment, on every interface the
    plan covers.  The text [render_nft] gives nft is, character for character, the printed form of a
    table; and by that table a packet to a private destination is forwarded; otherwise, with the
    tunnel up, TCP and UDP go to the proxy unless it is xray's own (its mark) or a request for an
    address; and whatever is left is dropped when the kill switch is on, forwarded when it is off. *)
Theorem segment_route4 p up k :
  pk_iif k ∈ segment_ifaces p ->
  render_nft p up = print_table (table4 p up) /\
  route (table4 p up) k =
    if in_set (pk_dst k) private4 then Passed
    else if up && negb (pk_mark k =? np_egress_mark p) && negb (is_dhcp p k) && bool_decide (pk_proto k <> OtherProto) then ToProxy (np_tproxy_port p)
    else if np_kill_switch p then Dropped else Passed.
Proof. intros Hi. split; [apply render_nft_printed|by apply segment_verdict4]. Qed.


(** traffic of the host's other interfaces is left alone: no packet that did not arrive on a covered
    interface is dropped or given to the proxy, in either family. *)
Theorem others_untouched p up k :
  pk_iif k ∉ segment_ifaces p ->
  route (table4 p up) k = Passed /\ forall t, table6 p up = Some t -> route t k = Passed.
Proof.
  intros Hi. split.
  - rewrite route4_hooks. unfold prerouting4, forward4, seg_if. cbn [c_rules run_rules r_tests r_action forallb passes].
    rewrite (bool_decide_false (pk_iif k ∈ segment_ifaces p)) by done. cbn [andb].
    destruct up, (np_kill_switch p); try done; by destruct (pk_mark k =? np_egress_mark p), (in_set (pk_dst k) private4).
  - intros t. unfold table6. intros Ht. assert (forall rs, rs = [] \/ rs = c_rules (prerouting6 p) -> run_rules k rs = Passed) as Hpre.
    { intros rs [-> | ->]; [done|]. unfold prerouting6, seg_if. cbn [c_rules run_rules r_tests r_action forallb passes].
      rewrite (bool_decide_false (pk_iif k ∈ segment_ifaces p)) by done. cbn [andb].
      by destruct (pk_mark k =? np_egress_mark p), (in_set (pk_dst k) (private6 p)), (bool_decide (pk_proto k = Udp)), (bool_decide (pk_dport k ∈ [546; 547])). }
    assert (run_rules k (c_rules (forward6 p)) = Passed) as Hfwd.
    { unfold forward6, seg_if. cbn [c_rules run_rules r_tests r_action forallb passes]. by rewrite (bool_decide_false (pk_iif k ∈ segment_ifaces p)) by done. }
    destruct (np_ipv6_enabled p && up); [|destruct (np_kill_switch p || up); [|done]]; injection Ht as <-; unfold route; cbn [t_chains run_chains].
    + rewrite (Hpre _ (or_intror eq_refl)), Hfwd. by repeat case_match.
    + rewrite Hfwd. by repeat case_match.
Qed.

(** * dnsmasq *)

(** A host name without the one line feed its pattern lets through at the end. *)
Definition label (name : string) : string :=
  if bool_decide (last_char name = Some "010"%char) then str_take (String.length name - 1) name else name.
Definition dnsmasq_base (p : plan) : list string :=
  ["interface=" +:+ np_segment_iface p; "bind-interfaces"; "dhcp-leasefile=" +:+ np_dnsmasq_leases p;
   "dhcp-range=" +:+ np_dhcp_start p +:+ "," +:+ np_dhcp_end p +:+ "," +:+ np_dhcp_lease p;
   "dhcp-option=3," +:+ np_segment_ip p; "dhcp-option=6," +:+ np_client_dns p].
Definition dnsmasq_v6 (p : plan) : list string :=
  if np_ipv6_enabled p then
    ["enable-ra"; "dhcp-range=::,constructor:" +:+ np_segment_iface p +:+ ",ra-stateless,64," +:+ np_dhcp_lease p;
     "dhcp-option=option6:dns-server,[" +:+ np_client_dns6 p +:+ "]"]
  else [].
Definition host_line (r : string * string * string) : string :=
  "dhcp-host=" +:+ r.1.1 +:+ "," +:+ r.1.2 +:+ (if bool_decide (r.2 = "") then "" else "," +:+ label r.2).
(** The lines the configuration is meant to have. *)
Definition dnsmasq_lines (p : plan) : list string :=
  dnsmasq_base p ++ (host_line <$> applied_reservations p) ++ dnsmasq_v6 p.

Definition no_feed (s : string) : Prop := str_all (fun c => negb (bool_decide (c = "010"%char))) s = true.

(** A line with the line feed that ends it, and perhaps one more. *)
Definition block (l b : string) : Prop := b = l +:+ line_feed \/ b = l +:+ line_feed +:+ line_feed.

Lemma split_line l t : no_feed l -> split_on "010"%char (l +:+ line_feed +:+ t) = l :: split_on "010"%char t.
Proof.
  intros Hl. unfold line_feed. rewrite str_app_cons, str_app_nil. unfold split_on.
  rewrite split_char_app; [done|exact Hl|]. by apply bool_decide_true.
Qed.
Lemma split_blocks ls bs : Forall2 block ls bs -> Forall (fun l => no_feed l /\ l <> "") ls ->
  filter (fun l => l <> "") (split_on "010"%char (join "" bs)) = ls.
Proof.
  induction 1 as [|l b ls bs Hb HF IH]; intros HL; [done|]. apply Forall_cons in HL as [[Hn Hne] HL]. rewrite join_cons.
  destruct Hb as [-> | ->]; rewrite !append_assoc, split_line by done; rewrite filter_cons_True by done; f_equal; [by apply IH|].
  rewrite <- (str_app_nil (line_feed +:+ _)), split_line by done. rewrite filter_cons_False by auto. by apply IH.
Qed.

Definition host_text (r : string * string * string) : string :=
  "dhcp-host=" +:+ r.1.1 +:+ "," +:+ r.1.2 +:+ (if bool_decide (r.2 = "") then line_feed else "," +:+ r.2 +:+ line_feed).
Lemma dnsmasq_text p t : render_dnsmasq p = inr t ->
  t = join "" (((fun l => l +:+ line_feed) <$> dnsmasq_base p) ++ (host_text <$> applied_reservations p) ++ ((fun l => l +:+ line_feed) <$> dnsmasq_v6 p)).
Proof.
  unfold render_dnsmasq. destruct (no_line_break p); [done|]. intros [= <-]. rewrite !join_app.
  change (join "" (host_text <$> applied_reservations p)) with
    (join "" ((fun r : string * string * string => "dhcp-host=" +:+ r.1.1 +:+ "," +:+ r.1.2 +:+ (if bool_decide (r.2 = "") then line_feed else "," +:+ r.2 +:+ line_feed)) <$> applied_reservations p)).
  match goal with |- context [join "" ?u +:+ (if _ then _ else _)] => generalize (join "" u) end. intros u.
  unfold dnsmasq_base, dnsmasq_v6. cbn [fmap list_fmap]. destruct (np_ipv6_enabled p); cbn [fmap list_fmap]; flat.
Qed.

Lemma no_break_feed s : has_break s = false -> no_feed s.
Proof.
  unfold has_break. rewrite orb_false_iff. intros [Hc _]. unfold no_feed. induction s as [|c s IH]; [done|].
  cbn [str_all]. cbn [contains] in Hc. apply orb_false_iff in Hc as [Hp Hc]. rewrite (IH Hc), andb_true_r. apply negb_true_iff, bool_decide_eq_false. intros ->.
  apply not_true_iff_false in Hp. apply Hp. apply prefix_spec. by exists s.
Qed.

Lemma field_feed p f : no_line_break p = None -> f ∈ dnsmasq_fields p -> no_feed f.2.
Proof.
  unfold no_line_break. intros Hn Hf. apply no_break_feed. apply not_true_iff_false. intros Hb.
  assert (f ∈ filter (fun f : string * string => has_break f.2 = true) (dnsmasq_fields p)) as Hin by (by apply list_elem_of_filter).
  destruct (filter _ (dnsmasq_fields p)); [by apply elem_of_nil in Hin|done].
Qed.

Lemma no_feed_app a b : no_feed a -> no_feed b -> no_feed (a +:+ b).
Proof. unfold no_feed. intros Ha Hb. by rewrite str_all_app, Ha, Hb. Qed.

(** What a reservation may put into a line: hexadecimal digits and colons; digits and dots (or a
    slash); letters, digits and hyphens. *)
Definition mac_char (c : ascii) : bool :=
  is_digit c || bool_decide (c ∈ ["a"; "b"; "c"; "d"; "e"; "f"; "A"; "B"; "C"; "D"; "E"; "F"; ":"]%char).
Definition name_char (c : ascii) : bool := is_alnum c || bool_decide (c = "-"%char).
Definition plain_reservation (r : string * string * string) : Prop :=
  str_all mac_char r.1.1 = true /\ str_all addr_char r.1.2 = true /\ str_all name_char (label r.2) = true.

Lemma lower_mac_char c : implb (is_lower_hex (lower_char c) || bool_decide (lower_char c = ":"%char)) (mac_char c) = true.
Proof. destruct c as [[] [] [] [] [] [] [] []]; by vm_compute. Qed.
Lemma mac_re_chars s : mac_re (lower s) = true -> str_all mac_char s = true.
Proof.
  intros Hm. assert (str_all (fun c => bool_decide (c = ":"%char) || is_lower_hex c) (lower s) = true) as Hs.
  { unfold mac_re in Hm. apply split_char_all. change (split_char _ (lower s)) with (split_on ":"%char (lower s)).
    destruct (split_on ":"%char (lower s)) as [|t1 [|t2 [|t3 [|t4 [|t5 [|t6 [|]]]]]]]; try discriminate Hm.
    cbn [forallb] in Hm. rewrite !andb_true_iff in Hm. repeat constructor; tauto. }
  clear Hm. induction s as [|c s IH]; [done|]. cbn in Hs |- *. apply andb_true_iff in Hs as [Hc Hs].
  rewrite IH by done. pose proof (lower_mac_char c) as Hl. rewrite orb_comm, Hc in Hl. cbn [implb] in Hl. by rewrite Hl.
Qed.
Lemma host_body_chars s : host_body s = true -> str_all name_char s = true.
Proof. unfold host_body. rewrite !andb_true_iff. tauto. Qed.
Lemma last_char_snoc s c : last_char s = Some c -> s = str_take (String.length s - 1) s +:+ String c "".
Proof.
  unfold last_char. induction s as [|d s IH]; [done|]. destruct s as [|e s]; [by intros [= ->]|].
  cbn [String.length]. replace (S (S (String.length s)) - 1)%nat with (S (S (String.length s) - 1)) by lia.
  cbn [String.get]. intros Hg. cbn [str_take]. rewrite str_app_cons. f_equal. by apply IH.
Qed.
Lemma name_char_feed s : str_all name_char s = true -> last_char s <> Some "010"%char.
Proof.
  intros Hs Hl%last_char_snoc. rewrite Hl, str_all_app in Hs. by apply andb_true_iff in Hs as [_ Hs].
Qed.
(** A name that passes the pattern is its label, with at most one line feed after it. *)
Lemma label_spec s : s <> "" -> hostname_re s = true ->
  str_all name_char (label s) = true /\ (s = label s \/ s = label s +:+ line_feed).
Proof.
  intros Hne. unfold hostname_re, label. case_bool_decide as Hl.
  - intros [Hb%host_body_chars%name_char_feed | [_ Hb]%andb_true_iff]%orb_true_iff; [done|].
    split; [by apply host_body_chars|right]. by apply last_char_snoc.
  - cbn [andb]. rewrite orb_false_r. intros Hb. split; [by apply host_body_chars|by left].
Qed.

Lemma applied_shape p r : strip r.1.1 = r.1.1 -> strip r.1.2 = r.1.2 -> r ∈ applied_reservations p ->
  plain_reservation r /\ (r.2 = label r.2 \/ r.2 <> "" /\ r.2 = label r.2 +:+ line_feed).
Proof.
  intros Hm Hi [Hr _]%list_elem_of_filter. unfold reservation_issue, reservation_value_issue in Hr. rewrite Hm, Hi in Hr.
  destruct (mac_re (lower r.1.1)) eqn:Em; [|done]. cbn [negb] in Hr. apply mac_re_chars in Em.
  destruct (negb (bool_decide (r.2 = "")) && negb (hostname_re r.2)) eqn:En; [done|].
  assert (str_all addr_char r.1.2 = true) as Ha.
  { unfold ip_address in Hr. destruct (ip4_parse r.1.2) as [z|] eqn:E4; [by eapply ip4_chars|].
    destruct (ip6_parse r.1.2); done. }
  assert (str_all name_char (label r.2) = true /\ (r.2 = label r.2 \/ r.2 <> "" /\ r.2 = label r.2 +:+ line_feed)) as [? ?]; [|by split_and!].
  destruct (decide (r.2 = "")) as [Hn|Hn]; [rewrite Hn; by split; [|left]|].
  rewrite bool_decide_false in En by done. cbn [negb andb] in En. apply negb_false_iff in En.
  destruct (label_spec _ Hn En) as [? [?|?]]; auto.
Qed.

Lemma chars_feed q s : str_all q s = true -> q "010"%char = false -> no_feed s.
Proof.
  intros Hs Hq. unfold no_feed. eapply str_all_impl; [|exact Hs]. intros c Hc. apply negb_true_iff, bool_decide_eq_false. congruence.
Qed.
Lemma host_block r : (r.2 = label r.2 \/ r.2 <> "" /\ r.2 = label r.2 +:+ line_feed) -> block (host_line r) (host_text r).
Proof.
  unfold host_line, host_text, block. intros [Hl | [Hn Hl]].
  - left. case_bool_decide; [flat|]. rewrite <- Hl. flat.
  - right. rewrite !bool_decide_false by done. rewrite Hl at 1. flat.
Qed.

Ltac plain_line := split; [repeat apply no_feed_app; done|rewrite ?str_app_cons; done].
Ltac plain_lines := repeat (apply Forall_cons; split; [plain_line|]); apply Forall_nil_2.

(** C9: the dnsmasq configuration has exactly the lines it is meant to have, whatever the settings and
    reservations hold: a setting with a line break is refused before anything is rendered, a
    reservation whose MAC, address or name is not one is left out, and what is rendered of the
    others has only the characters of such values; at most a blank line is added (a host name may
    end in one line feed).  So no stored text adds a directive to a file a root process reads.  MAC
    and address are taken without white space around them, as the API and the import store them. *)
Theorem dnsmasq_exact p t :
  Forall (fun r => strip r.1.1 = r.1.1 /\ strip r.1.2 = r.1.2) (np_reservations p) ->
  render_dnsmasq p = inr t ->
  filter (fun l => l <> "") (split_on "010"%char t) = dnsmasq_lines p /\ Forall plain_reservation (applied_reservations p).
Proof.
  intros HR Ht. pose proof (dnsmasq_text p t Ht) as ->.
  assert (forall r, r ∈ applied_reservations p -> plain_reservation r /\ (r.2 = label r.2 \/ r.2 <> "" /\ r.2 = label r.2 +:+ line_feed)) as Hsh.
  { intros r Hr. pose proof Hr as [_ Hin]%list_elem_of_filter. destruct (proj1 (Forall_forall _ _) HR r Hin). by eapply applied_shape. }
  split; [|apply Forall_forall; intros r Hr; by apply Hsh].
  assert (no_line_break p = None) as Hn by (unfold render_dnsmasq in Ht; by destruct (no_line_break p)).
  assert (forall n v, (n, v) ∈ dnsmasq_fields p -> no_feed v) as Hf by (intros n v Hin; exact (field_feed p (n, v) Hn Hin)).
  assert (no_feed (np_segment_iface p) /\ no_feed (np_dnsmasq_leases p) /\ no_feed (np_dhcp_start p) /\ no_feed (np_dhcp_end p) /\
    no_feed (np_dhcp_lease p) /\ no_feed (np_segment_ip p) /\ no_feed (np_client_dns p) /\ no_feed (np_client_dns6 p)) as (? & ? & ? & ? & ? & ? & ? & ?).
  { split_and!; eapply Hf; unfold dnsmasq_fields; rewrite !elem_of_cons; naive_solver. }
  assert (forall ls : list string, Forall2 block ls ((fun l => l +:+ line_feed) <$> ls)) as Hb.
  { intros ls. apply Forall2_fmap_r, Forall_Forall2_diag, Forall_true. by left. }
  unfold dnsmasq_lines. apply split_blocks.
  - apply Forall2_app; [apply Hb|]. apply Forall2_app; [|apply Hb]. apply Forall2_fmap, Forall_Forall2_diag, Forall_forall.
    intros r Hr. by apply host_block, Hsh.
  - apply Forall_app. split; [unfold dnsmasq_base; plain_lines|]. apply Forall_app. split.
    + apply Forall_fmap, Forall_forall. intros r Hr. destruct (Hsh r Hr) as [(M & A & N) _]. split; [|unfold host_line; by rewrite str_app_cons].
      unfold compose, host_line. repeat apply no_feed_app; try done; [by eapply chars_feed..|].
      case_bool_decide; [done|]. apply no_feed_app; [done|by eapply chars_feed].
    + unfold dnsmasq_v6. destruct (np_ipv6_enabled p); plain_lines.
Qed.

(** * Runs *)

Definition demo_plan : plan := covering_plan (from_store empty_db default_settings) ["eth0.10"].
(** A client asks a public DNS server, and pings it. *)
Definition demo_packet (pr : proto) : packet := Packet "eth0.10" "eth0" 3232238110 134744072 pr 53 0.

Lemma segment_route4_witness :
  demo_plan.(np_kill_switch) = true /\ render_nft demo_plan true = print_table (table4 demo_plan true) /\
  route (table4 demo_plan true) (demo_packet Udp) = ToProxy 52345 /\ route (table4 demo_plan true) (demo_packet OtherProto) = Dropped.
Proof.
  assert (forall pr, pk_iif (demo_packet pr) ∈ segment_ifaces demo_plan) as Hi.
  { intros pr. apply (bool_decide_unpack _); by vm_compute. }
  split; [by vm_compute|]. destruct (segment_route4 demo_plan true (demo_packet Udp) (Hi Udp)) as [Hp Hu].
  split; [exact Hp|]. split; [rewrite Hu; by vm_compute|].
  rewrite (proj2 (segment_route4 demo_plan true (demo_packet OtherProto) (Hi OtherProto))). by vm_compute.
Defined.


Lemma others_untouched_witness : route (table4 demo_plan true) (Packet "docker0" "eth0" 3232238110 134744072 Tcp 443 0) = Passed.
Proof.
  refine (proj1 (others_untouched demo_plan true (Packet "docker0" "eth0" 3232238110 134744072 Tcp 443 0) _)).
  apply (bool_decide_unpack _); by vm_compute.
Defined.

(** One reservation is rendered, with the line feed its name ends in; one whose name would add a
    directive is left out. *)
Definition pinned_plan : plan :=
  let p := demo_plan in
  Plan (np_tproxy_port p) (np_fwmark p) (np_egress_mark p) (np_table p) (np_segment_iface p) (np_segment_ip p) (np_dhcp_start p)
    (np_dhcp_end p) (np_dhcp_lease p) (np_client_dns p) (np_client_dns6 p) (np_dnsmasq_leases p) (np_kill_switch p) (np_ipv6_enabled p)
    (np_segment_ip6 p) (np_tproxy_port6 p) (np_lan_access p) (np_mgmt_iface p) (np_mgmt_ip p) (np_extra_ifaces p)
    [("aa:bb:cc:dd:ee:ff", "192.168.10.40", "tv" +:+ line_feed);
     ("aa:bb:cc:dd:ee:00", "192.168.10.41", "tv" +:+ line_feed +:+ "dhcp-script=/x")].
Lemma dnsmasq_exact_witness :
  exists t, render_dnsmasq pinned_plan = inr t /\ filter (fun l => l <> "") (split_on "010"%char t) = dnsmasq_lines pinned_plan /\
    length (dnsmasq_lines pinned_plan) = 7%nat /\ length (split_on "010"%char t) = 9%nat.
Proof.
  destruct (render_dnsmasq pinned_plan) as [e|t] eqn:E; [by vm_compute in E|]. exists t. split; [done|].
  split; [|split; [by vm_compute|vm_compute in E; injection E as <-; by vm_compute]].
  refine (proj1 (dnsmasq_exact pinned_plan t _ E)). repeat constructor.
Defined.
