(* ===== verification/Linux.v ===== *)
(** [net_control/linux.py], the backend that installs the rendered rules on the host, and the
    rendering-only backend of [net_control/dryrun.py].

    It is modelled over what it is given: a way to run a command and the /proc files beside it.
    [linux_kernel] makes of such a host the [Kernel] the rest of the panel uses, with the three
    operations of the backend as the code has them. *)
From Stdlib Require Import ZArith Lia Ascii.
From stdpp Require Import base gmap strings list.
From S2P Require Import Prelude PyStr Ip IpText Models Json Config Store Plan Enforcement Records Ledgers Host Nft Render.
Open Scope string_scope.
Open Scope list_scope.
Open Scope Z_scope.

Definition NFT_TABLE : string := "pi_gw_panel".
Definition IPTABLES_CHAIN : string := "PI_GW_PANEL".

Definition lan_forward_rules (seg_if lan_if lan_cidr : string) : list (list string) :=
  [[IPTABLES_CHAIN; "-i"; seg_if; "-o"; lan_if; "-d"; lan_cidr; "-j"; "ACCEPT"];
   [IPTABLES_CHAIN; "-i"; lan_if; "-o"; seg_if; "-m"; "conntrack"; "--ctstate"; "ESTABLISHED,RELATED"; "-j"; "ACCEPT"]].

Definition nft_script (p : plan) (tunnel_up : bool) : string :=
  "add table ip " +:+ NFT_TABLE +:+ line_feed +:+ "delete table ip " +:+ NFT_TABLE +:+ line_feed +:+ render_nft p tunnel_up +:+
  "add table ip6 " +:+ NFT_TABLE +:+ line_feed +:+ "delete table ip6 " +:+ NFT_TABLE +:+ line_feed +:+ render_nft6 p tunnel_up.

(** * Reading [ip -j] *)

(** [int(s, 0)] *)
Definition digit_val (c : ascii) : option Z :=
  let n := Z.of_nat (nat_of_ascii c) in
  if (48 <=? n) && (n <=? 57) then Some (n - 48)
  else if (65 <=? n) && (n <=? 90) then Some (n - 55)
  else if (97 <=? n) && (n <=? 122) then Some (n - 87)
  else None.
Fixpoint base_digits (b acc : Z) (prev : bool) (s : string) : option Z :=
  match s with
  | EmptyString => if prev then Some acc else None
  | String c s' =>
      if bool_decide (c = "_"%char) then if prev then base_digits b acc false s' else None
      else match digit_val c with
           | Some v => if v <? b then base_digits b (b * acc + v) true s' else None
           | None => None
           end
  end.
Definition unsigned_base0 (s : string) : option Z :=
  let prefixed b rest := if bool_decide (rest = "") then None else base_digits b 0 true rest in
  if startswith (lower s) "0x" then prefixed 16 (str_drop 2 s)
  else if startswith (lower s) "0o" then prefixed 8 (str_drop 2 s)
  else if startswith (lower s) "0b" then prefixed 2 (str_drop 2 s)
  else match base_digits 10 0 false s with
       | Some v => if (v =? 0) || negb (startswith s "0") then Some v else None
       | None => None
       end.
Definition int_base0 (s : string) : option Z :=
  let s := strip s in
  if startswith s "-" then Z.opp <$> unsigned_base0 (str_drop 1 s)
  else if startswith s "+" then unsigned_base0 (str_drop 1 s)
  else unsigned_base0 s.

(** [str(value)] of a JSON value. *)
Definition py_str (j : json) : string := match j with JStr s => s | _ => repr_json j end.

Definition same_mark (value : option json) (fwmark : Z) : bool :=
  match value with
  | None | Some JNull | Some (JBool _) => false
  | Some (JNum z) => z =? fwmark
  | Some v => bool_decide (int_base0 (py_str v) = Some fwmark)
  end.
Definition has_fwmark_rule (entries : list json) (fwmark table : Z) : bool :=
  existsb (fun e => same_mark (jget "fwmark" e) fwmark && bool_decide (from_option py_str "None" (jget "table" e) = str_int table)) entries.
Definition has_local_lo_route (entries : list json) : bool :=
  existsb (fun e => bool_decide (jget "type" e = Some (JStr "local")) && bool_decide (jget "dst" e = Some (JStr "default")) &&
                    bool_decide (jget "dev" e = Some (JStr "lo"))) entries.

Section linux.
Context {C : Type}.
Context (c_run : list string -> option string -> C -> ran * C).
Context (c_service : service -> C -> answer * C).
(** [json.loads]; [None] is ValueError. *)
Context (json_loads : string -> option json).
Context (s : settings).
Implicit Types (k : C).

(** [self._run(cmd)] with the error the handlers report: [stderr or str(exc)], stripped. *)
Definition run_in (argv : list string) (input : option string) k : (string + option string) * C :=
  match c_run argv input k with
  | (RanOk out, k) => (inr out, k)
  | (r, k) => (inl (strip (ran_text r)), k)
  end.
Definition run_cmd (argv : list string) k : (string + unit) * C :=
  let! _, k := run_in argv None k in (inr tt, k).
Definition run_ok (argv : list string) k : C := (c_run argv None k).2.

Definition ABSENT_TOKENS : list string := ["no such"; "does not exist"; "not found"; "cannot find"; "bad rule"; "no chain/target/match"].
Definition is_absent_error (stderr stdout : string) : bool :=
  existsb (fun t => contains t (lower (stderr +:+ " " +:+ stdout))) ABSENT_TOKENS.

Definition delete_or_absent (argv : list string) k : (string + unit) * C :=
  match c_run argv None k with
  | (RanOk _, k) => (inr tt, k)
  | (RanFailed rc err out t, k) => (if is_absent_error err out then inr tt else inl (strip (ran_text (RanFailed rc err out t))), k)
  | (RanOSError t, k) => (inl (strip t), k)
  end.
Definition cleanup_command (argv : list string) (label : string) k : list string * C :=
  match c_run argv None k with
  | (RanOk _, k) => ([], k)
  | (RanFailed rc err out t, k) => (if is_absent_error err out then [] else [label +:+ ": " +:+ strip (Some err or t)], k)
  | (RanOSError t, k) => ([label +:+ ": " +:+ t], k)
  end.

Definition remove_v6_policy_routing (fwmark table : Z) k : list string * C :=
  let fw := "0x" +:+ hex_str fwmark in
  let tbl := str_int table in
  let '(f1, k) := cleanup_command ["ip"; "-6"; "rule"; "del"; "fwmark"; fw; "lookup"; tbl] "IPv6 rule" k in
  let '(f2, k) := cleanup_command ["ip"; "-6"; "route"; "del"; "local"; "default"; "dev"; "lo"; "table"; tbl] "IPv6 route" k in
  (f1 ++ f2, k).
Definition remove_policy_routing (fwmark table : Z) k : list string * C :=
  let fw := "0x" +:+ hex_str fwmark in
  let tbl := str_int table in
  let '(f1, k) := cleanup_command ["ip"; "rule"; "del"; "fwmark"; fw; "lookup"; tbl] "IPv4 rule" k in
  let '(f2, k) := cleanup_command ["ip"; "route"; "del"; "local"; "default"; "dev"; "lo"; "table"; tbl] "IPv4 route" k in
  let '(f3, k) := remove_v6_policy_routing fwmark table k in
  (f1 ++ f2 ++ f3, k).

(** Written, then read back; a file that cannot be read is trusted. *)
Definition proc_value (path value : string) k : bool * C :=
  match c_service (WriteProc path value) k with
  | (ServedFalse, k) => (false, k)
  | (_, k) =>
      let '(a, k) := c_service (ReadProc path) k in
      (match a with ServedText t => bool_decide (strip t = value) | _ => true end, k)
  end.
Definition ensure_forward (ipv6 : bool) k : string * C :=
  let '(v4, k) := proc_value "/proc/sys/net/ipv4/ip_forward" "1" k in
  if negb v4 then ("ip_forward could not be enabled — forwarded client traffic will be dropped", k)
  else if ipv6 then
    let '(v6, k) := proc_value "/proc/sys/net/ipv6/conf/all/forwarding" "1" k in
    if negb v6 then ("IPv6 forwarding could not be enabled", k)
    else let '(ra, k) := proc_value ("/proc/sys/net/ipv6/conf/" +:+ c_mgmt_iface s +:+ "/accept_ra") "2" k in
         if negb ra then ("IPv6 uplink accept_ra=2 could not be enabled", k) else ("", k)
  else ("", k).

Definition remove_lan_chain k : list string * C :=
  let '(f1, k) := cleanup_command ["iptables"; "-D"; "DOCKER-USER"; "-j"; IPTABLES_CHAIN] "iptables jump" k in
  let '(f2, k) := cleanup_command ["iptables"; "-F"; IPTABLES_CHAIN] "iptables flush" k in
  let '(f3, k) := cleanup_command ["iptables"; "-X"; IPTABLES_CHAIN] "iptables chain" k in
  (f1 ++ f2 ++ f3, k).
Fixpoint run_each (cmds : list (list string)) k : (string + unit) * C :=
  match cmds with
  | [] => (inr tt, k)
  | c :: cs => let! _, k := run_cmd c k in run_each cs k
  end.
(** A warning, never an error. *)
Definition apply_lan_access (p : plan) k : string * C :=
  let lan := net24 (np_mgmt_ip p) in
  if bool_decide (lan = "") || bool_decide (np_segment_iface p = "") || bool_decide (np_mgmt_iface p = "") then ("", k)
  else if negb (np_lan_access p) then ("", (remove_lan_chain k).2)
  else
    let k := run_ok ["iptables"; "-N"; IPTABLES_CHAIN] k in
    let k := run_ok ["iptables"; "-D"; "DOCKER-USER"; "-j"; IPTABLES_CHAIN] k in
    match run_each (["iptables"; "-I"; "DOCKER-USER"; "1"; "-j"; IPTABLES_CHAIN] :: ["iptables"; "-F"; IPTABLES_CHAIN] ::
                    ((fun r => ["iptables"; "-A"] ++ r) <$> lan_forward_rules (np_segment_iface p) (np_mgmt_iface p) lan)) k with
    | (inl e, k) => ("LAN access chain not applied: " +:+ e, k)
    | (inr _, k) => ("", k)
    end.

Definition verify_table (family : string) k : (string + unit) * C := run_cmd ["nft"; "list"; "table"; family; NFT_TABLE] k.
Definition json_entries (argv : list string) k : (string + list json) * C :=
  let! out, k := run_in argv None k in
  let text := strip (default "" out) in
  (inr (if bool_decide (text = "") then []
        else match json_loads text with Some (JArr l) => filter (fun e => is_obj e = true) l | _ => [] end), k).
Definition verify_family (label : string) (flag : list string) (p : plan) k : (string + unit) * C :=
  let fw := "0x" +:+ hex_str (np_fwmark p) in
  let tbl := str_int (np_table p) in
  let! rules, k := json_entries (["ip"] ++ flag ++ ["-j"; "rule"; "show"]) k in
  let! routes, k := json_entries (["ip"] ++ flag ++ ["-j"; "route"; "show"; "table"; tbl]) k in
  if negb (has_fwmark_rule rules (np_fwmark p) (np_table p)) then
    (inl ("post-apply verification missing " +:+ label +:+ " fwmark " +:+ fw +:+ " rule"), k)
  else if negb (has_local_lo_route routes) then
    (inl ("post-apply verification missing " +:+ label +:+ " local route table " +:+ tbl), k)
  else (inr tt, k).
Definition verify_tproxy (p : plan) k : (string + unit) * C :=
  let! _, k := verify_table "ip" k in
  let! _, k := verify_table "ip6" k in
  let! _, k := verify_family "IPv4" [] p k in
  if np_ipv6_enabled p then verify_family "IPv6" ["-6"] p k else (inr tt, k).

(** * The operations *)

Definition nft_load (text : string) k : (string + unit) * C :=
  let! _, k := run_in ["nft"; "-f"; "-"] (Some text) k in (inr tt, k).

(** The body of [apply_guard] under its [try]: the warning, or the error. *)
Definition guard_body (p : plan) k : (string + string) * C :=
  let! _, k := nft_load (nft_script p false) k in
  let '(failures, k) := remove_policy_routing (np_fwmark p) (np_table p) k in
  if negb (bool_decide (failures = [])) then (inl (join "; " failures), k)
  else
    let '(warning, k) := apply_lan_access p k in
    let! _, k := verify_table "ip" k in
    let! _, k := if np_kill_switch p then verify_table "ip6" k else (inr tt, k) in
    (inr warning, k).
Definition apply_guard (p : plan) k : net_result * C :=
  match guard_body p k with
  | (inr warning, k) => (NetResult true (nft_script p false) "" warning, k)
  | (inl e, k) => (NetResult false (nft_script p false) e "", k)
  end.

Definition policy_family (flag : list string) (p : plan) k : (string + unit) * C :=
  let fw := "0x" +:+ hex_str (np_fwmark p) in
  let tbl := str_int (np_table p) in
  let! _, k := delete_or_absent (["ip"] ++ flag ++ ["rule"; "del"; "fwmark"; fw; "lookup"; tbl]) k in
  let! _, k := run_cmd (["ip"] ++ flag ++ ["rule"; "add"; "fwmark"; fw; "lookup"; tbl]) k in
  run_cmd (["ip"] ++ flag ++ ["route"; "replace"; "local"; "default"; "dev"; "lo"; "table"; tbl]) k.
(** The body of [apply_tproxy] under its [try]. *)
Definition tproxy_body (p : plan) k : (string + string) * C :=
  let! _, k := nft_load (nft_script p true) k in
  let! _, k := policy_family [] p k in
  let! _, k := if np_ipv6_enabled p then policy_family ["-6"] p k
               else let '(failures, k) := remove_v6_policy_routing (np_fwmark p) (np_table p) k in
                    (if bool_decide (failures = []) then inr tt else inl (join "; " failures), k) in
  let '(forwarding, k) := ensure_forward (np_ipv6_enabled p) k in
  if negb (bool_decide (forwarding = "")) then (inl forwarding, k)
  else
    let '(warning, k) := apply_lan_access p k in
    let! _, k := verify_tproxy p k in
    (inr warning, k).
Definition failed_apply (p : plan) (text error : string) k : net_result * C :=
  let '(g, k) := apply_guard p k in
  (NetResult false text (if nr_ok g then error else error +:+ "; fail-closed fallback also failed: " +:+ nr_error g) "", k).
Definition apply_tproxy (p : plan) k : net_result * C :=
  match tproxy_body p k with
  | (inr warning, k) => (NetResult true (nft_script p true) "" warning, k)
  | (inl e, k) => failed_apply p (nft_script p true) e k
  end.

Definition del_table (family : string) k : list string * C :=
  match c_run ["nft"; "delete"; "table"; family; NFT_TABLE] None k with
  | (RanOk _, k) => ([], k)
  | (RanFailed _ err _ t, k) =>
      (if contains "no such" (lower err) || contains "does not exist" (lower err) then [] else [family +:+ " table: " +:+ strip (Some err or t)], k)
  | (RanOSError t, k) => ([family +:+ " table: " +:+ t], k)
  end.
Definition teardown k : net_result * C :=
  let '(f1, k) := del_table "ip" k in
  let '(f2, k) := del_table "ip6" k in
  let '(f3, k) := remove_policy_routing (c_fwmark s) (c_table s) k in
  let '(f4, k) := remove_lan_chain k in
  let failed := f1 ++ f2 ++ f3 ++ f4 in
  (if bool_decide (failed = []) then net_fine else net_failed ("teardown incomplete: " +:+ join "; " failed), k).

Definition linux_kernel : Kernel C := {|
  k_run := c_run;
  k_service := c_service;
  k_tproxy p k := let '(r, k) := apply_tproxy p k in (CallResult r, k);
  k_guard p k := let '(r, k) := apply_guard p k in (CallResult r, k);
  k_teardown k := let '(r, k) := teardown k in (CallResult r, k)
|}.
End linux.

(** * The dry-run backend *)

(** [self.applied]; a ValueError of the renderer reaches the caller. *)
Definition dry_apply_tproxy (p : plan) (applied : list string) : net_call * list string :=
  match render_dnsmasq p with
  | inl e => (CallRaised e, applied)
  | inr d => let text := render_nft p true +:+ line_feed +:+ d in (CallResult (NetResult true text "" ""), applied ++ [text])
  end.
Definition dry_apply_guard (p : plan) (applied : list string) : net_call * list string :=
  let text := render_nft p false in (CallResult (NetResult true text "" ""), applied ++ [text]).
Definition dry_teardown (applied : list string) : net_call * list string := (CallResult net_fine, []).
(** [select_backend]: the environment's PI_GW_NET_BACKEND decides whether the host is touched. *)
Definition selects_linux (env : option string) : bool := bool_decide (env = Some "linux").
