(* ===== verification/Segment.v ===== *)
(** The steps of a provisioning pass (lines 634-855, 1705-1791, 1940-2089, 2447-2855 of
    [net_control/provision.py]): the VLAN links and addresses the panel owns on the host,
    NetworkManager, the segment's IPv6 prefix, and the ledgers kept in step with them.

    A step that raises returns [inl] with the text of the exception.  Every command and
    every store write is one moment of the world.  Settings read outside the record layer
    are text, and [NetPlan.from_store] is one store call. *)
From Stdlib Require Import ZArith Lia Ascii.
From stdpp Require Import base gmap strings list.
From S2P Require Import Prelude PyStr Ip IpText Models Json Config Store Plan Enforcement Records Ledgers Host.
Open Scope string_scope.
Open Scope list_scope.
Open Scope Z_scope.

Definition with_ip6 (p : plan) (ip6 : string) : plan :=
  Plan (np_tproxy_port p) (np_fwmark p) (np_egress_mark p) (np_table p) (np_segment_iface p)
    (np_segment_ip p) (np_dhcp_start p) (np_dhcp_end p) (np_dhcp_lease p) (np_client_dns p)
    (np_client_dns6 p) (np_dnsmasq_leases p) (np_kill_switch p) (np_ipv6_enabled p) ip6
    (np_tproxy_port6 p) (np_lan_access p) (np_mgmt_iface p) (np_mgmt_ip p) (np_extra_ifaces p) (np_reservations p).

Definition NM_CONF_PATH : string := "/etc/NetworkManager/conf.d/99-v2pi.conf".
Definition BACKLOG_WARN : nat := 8.

(** [AddressOutcome] *)
Record outcome := Outcome { ao_applied : bool; ao_reasons : list string }.

Section segment.
Context `{Kernel K}.
Context (json_pairs : string -> string + json).
Context (json_dumps : json -> string).
Context (s : settings).
Context (running : bool).
(** [secrets.token_bytes(5)], for the ULA of [segment_ip6] and for the fallback. *)
Context (rand rand_fallback : list Z).
Implicit Types (w : world (backend K)).
Notation world := (world (backend K)).

(** * Running things *)

Definition put_net (x : net (backend K)) w : world := advance (Moment (m_db (w_now w)) (m_odd (w_now w)) x) w.
Definition put_backend (b : backend K) w : world := put_net (set_host b (m_net (w_now w))) w.
Definition the_backend w : backend K := n_host (m_net (w_now w)).

Definition exec (argv : list string) w : ran * world :=
  let '(r, b) := b_run argv None (the_backend w) in (r, put_backend b w).
Definition serve (x : service) w : answer * world :=
  let '(a, b) := b_service x (the_backend w) in (a, put_backend b w).
Definition exec_ (argv : list string) w : (string + unit) * world :=
  let '(r, w) := exec argv w in
  (match r with RanOk _ => inr tt | RanFailed _ _ _ text => inl text | RanOSError t => inl t end, w).
Definition serve_ (x : service) w : (string + unit) * world :=
  let '(a, w) := serve x w in (match a with ServiceRaised t => inl t | _ => inr tt end, w).

Definition probe_link (iface : string) w : (link_state * string) * world :=
  let '(r, w) := exec (show_link iface) w in (link_answer r, w).
Definition probe_iface_up (iface : string) w : (up_state * string) * world :=
  if bool_decide (iface = "") then ((UpUnknown, "no interface"), w)
  else let '(r, w) := exec (show_flags iface) w in (up_answer r, w).
Definition probe_addr (iface addr : string) w : (link_state * string) * world :=
  if bool_decide (iface = "") || bool_decide (addr = "") then ((LinkUnknown, "no interface or address"), w)
  else let '(r, w) := exec (show_addr iface addr) w in (addr_answer addr r, w).

(** A setting read outside the records, and a plan. *)
Definition setting (k : string) w : (string + option string) * world :=
  let '(r, w) := store_read k w in
  (match r with
   | inl e => inl e
   | inr None => inr None
   | inr (Some (Text t)) => inr (Some t)
   | inr (Some (Odd v)) => inr (Some v)
   end, w).
Definition plan_from_store w : (string + plan) * world :=
  let '(f, w) := next_fault w in
  (match f_raise f with Some e => inl e | None => inr (from_store (m_db (w_now w)) s) end, w).

(** * Links *)

Definition ensure_sysctls w : world :=
  let '(_, w) := serve (WriteProc "/proc/sys/net/ipv4/ip_forward" "1") w in
  let '(_, w) := serve (WriteProc "/proc/sys/net/ipv6/conf/all/forwarding" "1") w in
  (serve (WriteProc ("/proc/sys/net/ipv6/conf/" +:+ c_mgmt_iface s +:+ "/accept_ra") "2") w).2.

Definition ensure_segment_link (p : plan) w : (string + unit) * world :=
  let seg := np_segment_iface p in
  let '(parent, vid) := parse_vlan seg in
  let! owned, w := parse_links w in
  match vid with
  | None => (inr tt, w)
  | Some vid =>
      let '(there, w) := probe_link seg w in
      if bool_decide (there.1 = LinkPresent) then (inr tt, w)
      else if decide (seg ∈ owned) then exec_ (add_link parent seg vid) w
      else match record_links (owned ++ [seg]) w with
           | ("", w) => exec_ (add_link parent seg vid) w
           | (why, w) => (inl ("the panel could not record that it is about to create " +:+ seg +:+ ", so it did not create it: " +:+ why), w)
           end
  end.

Definition activate_segment_link (p : plan) w : (string + unit) * world := exec_ (up_link (np_segment_iface p)) w.

(** [list.remove]: the first occurrence. *)
Fixpoint remove_first (x : string) (l : list string) : list string :=
  match l with [] => [] | y :: l' => if decide (x = y) then l' else y :: remove_first x l' end.

Definition delete_refused (link : string) (r : ran) (state : link_state) (detail : string) : string :=
  let why := Some (strip (ran_text r)) or "delete failed" in
  let why := if bool_decide (state = LinkUnknown)
             then why +:+ "; the link could not be probed afterwards, so it is still owned: " +:+ (Some detail or "no answer from ip link show")
             else why in
  link +:+ ": " +:+ why.
Definition forget_link (link : string) (owned : list string) w : (option string * list string) * world :=
  let owned := remove_first link owned in
  match record_links owned w with
  | ("", w) => ((None, owned), w)
  | (why, w) => ((Some (link +:+ ": it is gone from the host, but the ownership ledger still names it, so a later pass will try again: " +:+ why), owned), w)
  end.
(** The reason, and the ledger as the caller goes on with it. *)
Definition delete_owned_link (link : string) (owned : list string) w : (option string * list string) * world :=
  match exec (del_link link) w with
  | (RanOk _, w) => forget_link link owned w
  | (r, w) =>
      let '((state, detail), w) := probe_link link w in
      if bool_decide (state = LinkAbsent) then forget_link link owned w
      else ((Some (delete_refused link r state detail), owned), w)
  end.
Fixpoint retire_links (links owned : list string) w : list string * world :=
  match links with
  | [] => ([], w)
  | link :: ls =>
      let '((reason, owned), w) := delete_owned_link link owned w in
      let '(failed, w) := retire_links ls owned w in
      (option_list reason ++ failed, w)
  end.

Definition retire_superseded_links (p : plan) w : list string * world :=
  match read_links w with
  | (inl e, w) => (["the panel-created VLAN ledger could not be read, so no link was retired: " +:+ e], w)
  | (inr owned, w) =>
      let superseded := filter (fun n => n <> np_segment_iface p) owned in
      retire_links superseded owned w
  end.
Definition clear_managed_link w : list string * world :=
  match read_links w with
  | (inl e, w) => (["the panel-created VLAN ledger could not be read, so no link was removed: " +:+ e], w)
  | (inr owned, w) => retire_links owned owned w
  end.

(** * Addresses *)

Definition removal_refused (iface addr : string) (rc : Z) (err text : string) (state : link_state) (detail : string) : string :=
  let why := Some (strip err) or (Some text or ("ip addr del exited " +:+ str_int rc)) in
  let why := if bool_decide (state = LinkUnknown)
             then why +:+ "; the address could not be probed afterwards, so it is still owned: " +:+ (Some detail or "no answer from ip addr show")
             else why in
  addr +:+ " on " +:+ iface +:+ ": " +:+ why.
(** [None]: the record may be dropped. *)
Definition retire_owned_addr (iface addr : string) w : (string + option string) * world :=
  if bool_decide (addr = "") || bool_decide (iface = "") then (inr None, w)
  else match exec (del_addr iface addr) w with
       | (RanOk _, w) => (inr None, w)
       | (RanOSError t, w) => (inl t, w)
       | (RanFailed rc err _ text, w) =>
           let '((state, detail), w) := probe_addr iface addr w in
           (inr (if bool_decide (state = LinkAbsent) then None
                 else Some (removal_refused iface addr rc err text state detail)), w)
       end.
Fixpoint retire_each (pairs : list (string * string)) w : (string + (list (string * string) * list string)) * world :=
  match pairs with
  | [] => (inr ([], []), w)
  | (iface, addr) :: ps =>
      let! reason, w := retire_owned_addr iface addr w in
      let! rest, w := retire_each ps w in
      (inr (match reason with Some r => ((iface, addr) :: rest.1, r :: rest.2) | None => rest end), w)
  end.
Definition retire_owned (pairs protected : list (string * string)) w :
    (string + (list (string * string) * list string)) * world := retire_each (distinct pairs protected) w.

Definition backlog_warning (kept : list (string * string)) : list string :=
  if (length kept <? BACKLOG_WARN)%nat then []
  else [str_int (Z.of_nat (length kept)) +:+ " panel-owned segment addresses are awaiting removal, far more than a rotating segment produces (8 is already four rotations' worth); every one of them was retried on this pass and would not go, and the panel will keep retrying them and forget none, but a backlog that does not drain by itself has to be cleared on the host by hand (ip addr del <address> dev <interface>) — the individual removal failures are reported alongside this"].

Definition invalid_ownership_reasons (own : ownership) : list string :=
  if bool_decide (own_invalid own = []) then []
  else ["the panel's record of what it owns on the segment holds a value it did not write, so nothing was compared with it, nothing was derived from it and no address was removed on its authority; the record has been rewritten, and what the old value referred to is still on the host and has to be checked there (ip addr show) and cleared by hand: " +:+ join "; " (own_invalid own)].

Definition ownership_reasons (unwritten : list string) : list string :=
  if bool_decide (unwritten = []) then []
  else ["the ledger of panel-owned segment addresses could not be updated, so a later pass will retry what it names: " +:+ join "; " unwritten].

Definition desired_pairs (iface : string) (addrs : list string) : list (string * string) :=
  if bool_decide (iface = "") then [] else pair iface <$> filter (fun a => a <> "") addrs.

(** Both installs; the first the kernel refuses ends it ([Some], the reason). *)
Definition install_addr (iface addr : string) (v6 : bool) w : (string + option string) * world :=
  match exec (replace_addr iface addr v6) w with
  | (RanOk _, w) => (inr None, w)
  | (RanOSError t, w) => (inl t, w)
  | (RanFailed rc err _ text, w) =>
      (inr (Some (addr +:+ " on " +:+ iface +:+ ": " +:+
         (Some (strip err) or (Some text or ("ip addr replace exited " +:+ str_int rc))))), w)
  end.
Definition install_addrs (iface new4 : string) (new6 : option string) w : (string + option string) * world :=
  let! bad, w := install_addr iface new4 false w in
  match bad, new6 with
  | None, Some a => install_addr iface a true w
  | _, _ => (inr bad, w)
  end.

(** What the pass records as awaiting removal: the stale ledger, and the addresses it rotates off. *)
Definition plan_addr4 (p : plan) : string := canonical_addr (np_segment_ip p +:+ "/24").
Definition plan_addr6 (p : plan) : option string :=
  if np_ipv6_enabled p then canonical_addr <$> host_addr6 (np_segment_ip6 p) else None.
Definition stale_set (own : ownership) (p : plan) : list (string * string) :=
  let new_iface := np_segment_iface p in
  let new4 := plan_addr4 p in
  let new6 := default "" (plan_addr6 p) in
  let old_iface := iface_or own new_iface in
  let desired := desired_pairs new_iface [new4; new6] in
  let recorded := distinct (own_stale own) desired in
  let off a new := if negb (bool_decide (old_iface = "")) && negb (bool_decide (a = "")) &&
                      (negb (bool_decide (a = new)) || negb (bool_decide (old_iface = new_iface)))
                   then [(old_iface, a)] else [] in
  recorded ++ distinct (off (own_addr4 own) new4 ++ off (own_addr6 own) new6) (desired ++ recorded).

Definition reconcile_segment_addresses (p : plan) w : (string + outcome) * world :=
  let '(own, w) := read_ownership w in
  if negb (own_known own) then
    (inr (Outcome false ["the panel's record of what it owns on the segment could not be read, so no address was installed: " +:+ join "; " (own_unreadable own)]), w)
  else
    let reported := invalid_ownership_reasons own in
    let new_iface := np_segment_iface p in
    let new4 := plan_addr4 p in
    let new6 := plan_addr6 p in
    let desired := desired_pairs new_iface [new4; default "" new6] in
    let stale := stale_set own p in
    let '(unwritten, w) := record_ownership new_iface new4 (default "" new6) stale (own_retained own) w in
    if negb (bool_decide (unwritten = [])) then
      (inr (Outcome false (reported ++ ["the panel could not record what it was about to install on the segment, so it installed nothing: " +:+ join "; " unwritten])), w)
    else
      let! bad, w := install_addrs new_iface new4 new6 w in
      match bad with
      | Some why => (inr (Outcome false (reported ++ [why])), w)
      | None =>
          let! kr, w := retire_owned stale desired w in
          let '(keep, reasons) := kr in
          let '(unwritten, w) := record_ownership new_iface new4 (default "" new6) keep (own_retained own) w in
          (inr (Outcome true (reported ++ (reasons ++ ownership_reasons unwritten) ++ backlog_warning keep)), w)
      end.

Definition clear_managed_addresses w : (string + list string) * world :=
  let '(own, w) := read_ownership w in
  if negb (own_known own) then
    (inr ["the panel's record of what it owns on the segment could not be read, so nothing was removed: " +:+ join "; " (own_unreadable own)], w)
  else
    let current := if bool_decide (own_iface own = "") then [] else [(own_iface own, own_addr4 own); (own_iface own, own_addr6 own)] in
    let! kr, w := retire_owned (own_stale own ++ current) [] w in
    let '(keep, reasons) := kr in
    let '(unwritten, w) := record_ownership "" "" "" keep (own_retained own) w in
    (inr (invalid_ownership_reasons own ++ (reasons ++ ownership_reasons unwritten) ++ backlog_warning keep), w).

(** * NetworkManager *)

Definition nm_reload w : world :=
  match exec (nsenter ["systemctl"; "is-active"; "--quiet"; "NetworkManager"]) w with
  | (RanOk _, w) => (exec (nsenter ["nmcli"; "general"; "reload"]) w).2
  | (_, w) => w
  end.
Definition ensure_nm_unmanaged (seg : string) (also : list string) w : world :=
  let devices := uniq (filter (fun n => n <> "") (seg :: also)) in
  let '(_, w) := serve (WriteFile NM_CONF_PATH ("[keyfile]" +:+ nl +:+ "unmanaged-devices=" +:+
    join ";" ((fun n => "interface-name:" +:+ n) <$> devices) +:+ nl)) w in
  nm_reload w.
Definition remove_nm_unmanaged w : world := nm_reload (serve (RemoveFile NM_CONF_PATH) w).2.

(** * The segment's IPv6 prefix *)

Definition record_generated_prefix (k prefix what : string) w : (string + string) * world :=
  match write_record k prefix w with
  | ("", w) => (inr prefix, w)
  | (why, w) => (inl ("the " +:+ what +:+ " could not be recorded, so it was not used — a prefix that is not persisted is a different prefix on the next pass: " +:+ why), w)
  end.
Definition vlan_of_segment w : (string + Z) * world :=
  let! iface, w := setting "segment_iface" w in
  (inr (default 0 (parse_vlan (iface or c_segment_iface s)).2), w).

Definition ensure_segment_prefix6 w : (string + string) * world :=
  let! ip6, w := setting "segment_ip6" w in
  let cur := strip (ip6 or c_segment_ip6 s) in
  let! on, w := setting "ipv6_enabled" w in
  if negb (bool_decide (cur = "")) || negb (bool_decide (on or "0" = "1")) then (inr cur, w)
  else
    let! vid, w := vlan_of_segment w in
    record_generated_prefix "segment_ip6" (generate_ula_prefix vid rand) "generated segment IPv6 prefix" w.

Definition effective_segment_prefix6 (delegated : option string) w : (string + string) * world :=
  let! on, w := setting "ipv6_enabled" w in
  if negb (bool_decide (on or "0" = "1")) then (inr "", w)
  else
    let! ip6, w := setting "segment_ip6" w in
    let intent := strip (ip6 or c_segment_ip6 s) in
    if negb (bool_decide (lower intent = "auto")) then ensure_segment_prefix6 w
    else
      let! delegated, w :=
        match delegated with
        | Some d => (inr d, w)
        | None =>
            let '(r, w) := read_record "pd_segment_prefix6" w in
            (match r with
             | Unknown reason => inl ("the recorded delegated IPv6 prefix could not be read, so the segment prefix could not be resolved: " +:+ reason)
             | Known raw => inr (strip raw)
             end, w)
        end in
      let delegated := strip delegated in
      match host_addr6 delegated with
      | Some _ => (inr delegated, w)
      | None =>
          let! ula, w := setting "ula_prefix6" w in
          let ula := strip (ula or "") in
          match host_addr6 ula with
          | Some _ => (inr ula, w)
          | None =>
              let! vid, w := vlan_of_segment w in
              record_generated_prefix "ula_prefix6" (generate_ula_prefix vid rand_fallback) "generated ULA fallback prefix" w
          end
      end.

(** * Survivors *)

Definition remember_survivors (pairs : list (string * string)) w : bool * world :=
  match distinct pairs [] with
  | [] => (true, w)
  | want =>
      match checked_survivors want SURVIVOR_WHERE with
      | inl _ => (false, w)
      | inr want =>
          match survivor_pairs w with
          | (inl _, w) => (false, w)
          | (inr held, w) => let '(why, w) := record_survivors (distinct (held ++ want) []) w in (bool_decide (why = ""), w)
          end
      end
  end.

Definition forget_survivors (iface : string) w : world :=
  if bool_decide (iface = "") then w
  else match survivor_pairs w with
       | (inl _, w) => w
       | (inr pairs, w) =>
           let keep := filter (fun p : string * string => p.1 <> iface) pairs in
           if bool_decide (keep = pairs) then w else (record_survivors keep w).2
       end.

(** Each interface is probed once; [links] remembers the answers. *)
Fixpoint drain_each (pairs : list (string * string)) (links : gmap string link_state) w : list (string * string) * world :=
  match pairs with
  | [] => ([], w)
  | (iface, addr) :: ps =>
      let '(state, w) := match links !! iface with
                         | Some l => (l, w)
                         | None => let '(a, w) := probe_link iface w in (a.1, w)
                         end in
      let links := <[iface := state]> links in
      if bool_decide (state = LinkAbsent) then drain_each ps links w
      else
        let '(a, w) := probe_addr iface addr w in
        let '(keep, w) := drain_each ps links w in
        (if bool_decide (a.1 = LinkAbsent) then keep else (iface, addr) :: keep, w)
  end.
Definition drain_enforcement_cover w : list (string * string) * world :=
  match survivor_pairs w with
  | (inl _, w) => ([], w)
  | (inr [], w) => ([], w)
  | (inr pairs, w) =>
      let '(keep, w) := drain_each pairs ∅ w in
      if bool_decide (keep = pairs) then (keep, w) else (keep, (record_survivors keep w).2)
  end.

End segment.
