(* ===== verification/SegmentFacts.v ===== *)
(** What the panel relies on of the host ([KernelSpec]), and that every step of a
    provisioning pass keeps the segment covered: at every moment each interface that
    carries an address the panel installed is named by the rules in force, and is either
    the plan's own interface or tracked by a durable record. *)
From Stdlib Require Import ZArith Lia Ascii.
From stdpp Require Import base gmap strings list.
From S2P Require Import Prelude PyStr Ip IpText Models Json Config Store Plan Enforcement Records RecordsFacts Ledgers LedgersFacts Host Segment.
Open Scope string_scope.
Open Scope list_scope.

(** The commands the provisioning code runs. *)
Definition panel_cmd (argv : list string) (input : option string) : Prop :=
  match argv with
  | prog :: rest => (prog = "ip" \/ prog = "nsenter") /\ input = None \/
                    prog = "nft" /\ (EMERGENCY_TABLE ∈ rest /\ input = None \/ input = Some EMERGENCY_SCRIPT)
  | [] => False
  end.

(** How [ip], [nft] and the backend behave.  [owned k i a]: the segment address [a] (in its
    canonical spelling) that the panel installed is on interface [i].  [covers k i]: the rules
    in force name interface [i]. *)
Class KernelSpec (K : Type) `{Kernel K} := {
  owned : K -> string -> string -> Prop;
  covers : K -> string -> Prop;
  (** only [ip addr replace] puts an address on an interface, the one it is given *)
  run_owned argv input k r k' i a : panel_cmd argv input -> k_run argv input k = (r, k') -> owned k' i a ->
    owned k i a \/ exists t v6, argv = replace_addr i t v6 /\ is_Some (addr_token t) /\ a = canonical_addr t;
  (** these commands leave the panel's own rules alone *)
  run_covers argv input k r k' i : panel_cmd argv input -> k_run argv input k = (r, k') -> covers k i -> covers k' i;
  (** a deletion that succeeds deletes *)
  del_addr_gone i a k o k' : k_run (del_addr i a) None k = (RanOk o, k') -> ~ owned k' i a;
  del_link_gone i k o k' a : k_run (del_link i) None k = (RanOk o, k') -> ~ owned k' i a;
  (** "does not exist" is said of an interface that is not there, which carries nothing *)
  link_absent i k rc err out t k' a : k_run (show_link i) None k = (RanFailed rc err out t, k') ->
    absent_answer rc err out = true -> ~ owned k' i a;
  addr_dev_absent i a k rc err out t k' b : k_run (show_addr i a) None k = (RanFailed rc err out t, k') ->
    absent_answer rc err out = true -> ~ owned k' i b;
  (** [ip -o addr show] lists the addresses of an interface *)
  addr_listed i a k out k' : k_run (show_addr i a) None k = (RanOk (Some out), k') -> owned k' i a ->
    exists tok, tok ∈ words out /\ addr_token tok = addr_token a;
  service_owned x k ans k' i a : k_service x k = (ans, k') -> owned k' i a -> owned k i a;
  service_covers x k ans k' i : k_service x k = (ans, k') -> covers k i -> covers k' i;
  (** installing rules with the kill switch on: all of the plan's interfaces when it succeeds;
      when it fails, those or everything that was covered before *)
  rules_owned p f k c k' i a : f = k_tproxy p \/ f = k_guard p -> f k = (c, k') -> owned k' i a -> owned k i a;
  rules_covers p f k c k' : np_kill_switch p = true -> f = k_tproxy p \/ f = k_guard p -> f k = (c, k') ->
    (forall i, i ∈ segment_ifaces p -> covers k' i) \/
    ((forall r, c = CallResult r -> nr_ok r = false) /\ forall i, covers k i -> covers k' i)
}.

(** Recognises the commands of the panel. *)
Ltac ip_cmd := first [ by left; split; [left|] | by left; split; [right|] ].
Ltac no_replace :=
  intros ? ? []; unfold del_addr, replace_addr, show_addr; try match goal with |- context [is6 ?x] => destruct (is6 x) end; done.

Lemma segment_ifaces_facts p : np_segment_iface p ∈ segment_ifaces p /\
  (forall i, i ∈ np_extra_ifaces p -> iface_re i = true -> i ∈ segment_ifaces p).
Proof.
  unfold segment_ifaces. generalize (np_extra_ifaces p). intros l.
  assert (forall l names i, (i ∈ names -> i ∈ foldl add_iface names l) /\ (i ∈ l -> iface_re i = true -> i ∈ foldl add_iface names l)) as Hg.
  { clear. induction l as [|n l IH]; intros names i; simpl; [set_solver|]. destruct (IH (add_iface names n) i) as [H1 H2]. split.
    - intros Hi. apply H1. unfold add_iface. destruct (_ && _); [apply elem_of_app; by left|done].
    - intros [-> | Hi]%elem_of_cons Hr; [|auto]. apply H1. unfold add_iface. destruct (iface_re_facts n Hr) as (Hne & _ & Hs).
      rewrite Hs, Hr, andb_true_r, bool_decide_false by done. destruct (bool_decide (n ∈ names)) eqn:E; simpl.
      + by apply bool_decide_eq_true in E.
      + apply elem_of_app. right. constructor. }
  split; [apply (proj1 (Hg _ _ _)); constructor|]. intros i Hi Hr. by apply Hg.
Qed.

(** * Frames: a record operation touches its own keys only *)

Section frames.
Context {H : Type}.
Implicit Types (m : moment H) (w : world H).

Definition frame (ks : list string) m m' : Prop :=
  m_net m' = m_net m /\ forall k, k ∉ ks -> cell_at k m' = cell_at k m /\ get_setting k (m_db m') = get_setting k (m_db m).
#[global] Instance frame_pre ks : PreOrder (frame ks).
Proof.
  split; [done|]. intros a b c [N1 F1] [N2 F2]. split; [congruence|]. intros k Hk.
  destruct (F1 k Hk), (F2 k Hk). split; congruence.
Qed.

Lemma frame_mono ks ks' m m' : ks ⊆ ks' -> frame ks m m' -> frame ks' m m'.
Proof. intros Hs [N F]. split; [done|]. intros k Hk. apply F. set_solver. Qed.

Lemma frame_put k c m : frame [k] m (put_cell k c m).
Proof.
  split; [apply put_cell_net|]. intros k' Hk'. assert (k <> k') by set_solver. split.
  - by rewrite cell_at_put, decide_False.
  - unfold get_setting. destruct c as [[]|]; simpl; by rewrite ?lookup_insert_ne, ?lookup_delete_ne.
Qed.

Lemma frame_held ks m m' k : frame ks m m' -> k ∉ ks -> held k m' = held k m.
Proof. intros [_ F] Hk. unfold held. by rewrite (proj1 (F k Hk)). Qed.

Lemma through_frame_trans ks w w1 w2 :
  through w w1 (frame ks (w_now w)) -> through w1 w2 (frame ks (w_now w1)) -> through w w2 (frame ks (w_now w)).
Proof.
  intros T1 T2. pose proof (through_now _ _ _ T1) as F1. eapply through_trans; [exact T1|]. eapply through_impl; [|exact T2].
  intros m Hm. by etrans.
Qed.

Lemma wrote_frame k v w w' : wrote k v w w' -> through w w' (frame [k] (w_now w)).
Proof. intros Hw. eapply wrote_through; [exact Hw|done|]. intros c _. apply frame_put. Qed.

Lemma same_frame ks w w' : same w w' -> through w w' (frame ks (w_now w)).
Proof. intros Hs. by apply through_same. Qed.

Lemma write_set_frame k entries w why w' : write_set k entries w = (why, w') ->
  through w w' (frame [k; journal_key k] (w_now w)).
Proof.
  intros (_ & w1 & w2 & H1 & _ & Hr)%write_set_steps.
  assert (forall k' v a b, k' ∈ [k; journal_key k] -> wrote k' v a b -> through a b (frame [k; journal_key k] (w_now a))) as Hf.
  { intros k' v a b Hk' Hw%wrote_frame. eapply through_impl; [|exact Hw]. intros m. apply frame_mono. set_solver. }
  eapply through_frame_trans; [eapply Hf; [|exact H1]; set_solver|].
  destruct Hr as [[Hs _]|(_ & H2 & _ & Hr)]; [by apply same_frame|].
  eapply through_frame_trans; [eapply Hf; [|exact H2]; set_solver|].
  destruct Hr as [[Hs _]|(_ & _ & H3)]; [by apply same_frame|]. eapply Hf; [|exact H3]. set_solver.
Qed.

Lemma verified_write_frame k text expect w why w' : verified_write k text expect w = (why, w') -> through w w' (frame [k] (w_now w)).
Proof. intros (Hw & _)%verified_write_facts. by eapply wrote_frame. Qed.

Lemma through_forall {A} w w' (P : A -> moment H -> Prop) (Q : moment H -> Prop) :
  through w w' Q -> (forall x, through w w' (P x)) -> through w w' (fun m => Q m /\ forall x, P x m).
Proof.
  intros (past & Ep & FQ & HQ) HP.
  assert (forall x, Forall (P x) past /\ P x (w_now w')) as Hx.
  { intros x. destruct (HP x) as (past' & Ep' & F' & H'). rewrite Ep in Ep'. by apply app_inv_tail in Ep' as ->. }
  exists past. split; [done|]. split; [|split; [done|intros x; apply Hx]].
  apply Forall_lookup. intros n m Hm. split; [by eapply Forall_lookup_1|]. intros x. destruct (Hx x) as [F _]. by eapply Forall_lookup_1.
Qed.
End frames.

(** * The invariant *)

(** The keys the cover is read from, and those the kill switch and the plan's interface come from. *)
Definition track_keys : list string :=
  [STALE_KEY; journal_key STALE_KEY; IFACE_KEY; ADDR4_KEY; ADDR6_KEY; LINK_KEY; journal_key LINK_KEY;
   SURVIVOR_KEY; journal_key SURVIVOR_KEY; PROVISION_UNDO_KEY].
Definition steady_keys : list string := ["kill_switch_enabled"; "segment_iface"].

Section good.
Context `{KernelSpec K}.
Context (json_pairs : string -> string + json).
Context (json_dumps : json -> string).
Context (s : settings).
(** The interface of the plan. *)
Context (P : string).
Implicit Types (w : world (backend K)) (m : moment (backend K)).

Definition ker m : K := b_kernel (n_host (m_net m)).

Definition steady m : Prop :=
  kill_switch_on (m_db m) = true /\ np_segment_iface (from_store (m_db m) s) = P.

(** No address of the panel is on an interface the rules do not name, or that no record tracks. *)
Definition safe m : Prop :=
  forall i a, owned (ker m) i a -> covers (ker m) i /\ iface_re i = true /\ canonical a /\ (i = P \/ tracked json_pairs json_dumps i a m).
Definition good m : Prop := safe m /\ steady m.
Definition ok w : Prop := no_garble w /\ good (w_now w).
Definition goes w w' : Prop := no_garble w' /\ through w w' good.

Lemma goes_ok w w' : goes w w' -> ok w'.
Proof. intros [Hg Ht]. split; [done|]. by eapply through_now. Qed.
Lemma goes_trans w w1 w2 : goes w w1 -> goes w1 w2 -> goes w w2.
Proof. intros [_ T1] [G2 T2]. split; [done|]. by eapply through_trans. Qed.
Lemma goes_same w w' : ok w -> same w w' -> (no_garble w -> no_garble w') -> goes w w'.
Proof. intros [Hg Hk] Hs Hg'. split; [auto|]. by apply through_same. Qed.
Lemma goes_refl w : ok w -> goes w w.
Proof. intros Hk. by apply goes_same. Qed.

(** The records are what they were. *)
Definition records_kept m m' : Prop := forall k, k ∈ track_keys -> held k m' = held k m.

Lemma entries_kept k m m' : held k m' = held k m -> held (journal_key k) m' = held (journal_key k) m -> entries_of k m' = entries_of k m.
Proof. intros H1 H2. unfold entries_of. by rewrite H1, H2. Qed.

Lemma names_kept k Q m m' : held k m' = held k m -> held (journal_key k) m' = held (journal_key k) m ->
  names_or_unknown k Q m -> names_or_unknown k Q m'.
Proof. intros H1 H2. unfold names_or_unknown. by rewrite (entries_kept k m m'). Qed.

Lemma tracked_kept i a m m' : records_kept m m' -> tracked json_pairs json_dumps i a m -> tracked json_pairs json_dumps i a m'.
Proof.
  intros Hk. assert (forall k, k ∈ track_keys -> held k m' = held k m) as Hh by done.
  intros [Ht|[Ht|[Ht|[Ht|Ht]]]].
  - left. eapply names_kept; [..|exact Ht]; apply Hh; unfold track_keys; set_solver.
  - right; left. destruct Ht as (t & ta & H1 & H2 & H3). exists t, ta.
    rewrite !Hh by (unfold track_keys; set_solver). done.
  - do 2 right; left. eapply names_kept; [..|exact Ht]; apply Hh; unfold track_keys; set_solver.
  - do 3 right; left. eapply names_kept; [..|exact Ht]; apply Hh; unfold track_keys; set_solver.
  - do 4 right. unfold pending_tracks. rewrite Hh by (unfold track_keys; set_solver). exact Ht.
Qed.

Lemma steady_kept m m' : (forall k, k ∈ steady_keys -> get_setting k (m_db m') = get_setting k (m_db m)) -> steady m -> steady m'.
Proof.
  intros Hk [Hm Hp]. unfold steady, kill_switch_on, flag_setting in *. simpl in *.
  rewrite !Hk by (unfold steady_keys; set_solver). done.
Qed.

(** A write elsewhere keeps everything. *)
Lemma good_frame ks m m' : (forall k, k ∈ ks -> k ∉ track_keys /\ k ∉ steady_keys) -> frame ks m m' -> good m -> good m'.
Proof.
  intros Hks [Hn Hf] [Hs Hst]. split.
  - intros i a Ho. unfold ker in *. rewrite Hn in *. destruct (Hs i a Ho) as (? & ? & ? & Ht). split_and!; try done.
    destruct Ht as [|Ht]; [by left|right]. eapply tracked_kept; [|exact Ht]. intros k Hk. unfold held.
    by rewrite (proj1 (Hf k (fun Hi => proj1 (Hks k Hi) Hk))).
  - eapply steady_kept; [|exact Hst]. intros k Hk. exact (proj2 (Hf k (fun Hi => proj2 (Hks k Hi) Hk))).
Qed.

Lemma goes_frame ks w w' : ok w -> (forall k, k ∈ ks -> k ∉ track_keys /\ k ∉ steady_keys) ->
  (no_garble w -> no_garble w') -> through w w' (frame ks (w_now w)) -> goes w w'.
Proof.
  intros [Hg Hk] Hks Hg' Ht. split; [auto|]. eapply through_impl; [|exact Ht]. intros m Hm. by eapply good_frame.
Qed.

(** * Commands *)

(** The store is what it was, and nothing new is on an interface. *)
Definition calm w w' : Prop :=
  m_db (w_now w') = m_db (w_now w) /\ m_odd (w_now w') = m_odd (w_now w) /\
  (forall i a, owned (ker (w_now w')) i a -> owned (ker (w_now w)) i a) /\
  forall i, covers (ker (w_now w)) i -> covers (ker (w_now w')) i.
#[global] Instance calm_pre : PreOrder calm.
Proof. split; [done|]. intros a b c (H1 & H2 & H3 & H4) (H5 & H6 & H7 & H8). split_and!; try congruence; auto. Qed.

Lemma calm_same w w' : same w w' -> calm w w'.
Proof. intros (Hn & _). unfold calm. by rewrite Hn. Qed.

Lemma calm_held k w w' : calm w w' -> held k (w_now w') = held k (w_now w).
Proof. intros (Hd & Ho & _). unfold held, cell_at. by rewrite Hd, Ho. Qed.

Lemma good_calm m m' : m_db m' = m_db m -> m_odd m' = m_odd m -> (forall i a, owned (ker m') i a -> owned (ker m) i a) ->
  (forall i, covers (ker m) i -> covers (ker m') i) -> good m -> good m'.
Proof.
  intros Hd Ho Hw Hc [Hs Hst]. split.
  - intros i a Hi. destruct (Hs i a (Hw i a Hi)) as (? & ? & ? & Ht). split_and!; auto.
    destruct Ht as [|Ht]; [by left|right]. eapply tracked_kept; [|exact Ht]. intros k _. unfold held, cell_at. by rewrite Hd, Ho.
  - unfold steady. by rewrite Hd.
Qed.

Lemma exec_facts argv w r w' : ok w -> exec argv w = (r, w') -> panel_cmd argv None ->
  (forall i t v6, argv <> replace_addr i t v6) ->
  goes w w' /\ calm w w' /\ k_run argv None (ker (w_now w)) = (r, ker (w_now w')).
Proof.
  intros [Hg Hk] E Hc Hnr. unfold exec, b_run in E. destruct (k_run argv None (b_kernel (the_backend w))) as [r' k'] eqn:Er.
  injection E as <- <-.
  assert (forall i a, owned k' i a -> owned (ker (w_now w)) i a) as Hw.
  { intros i a Ho. destruct (run_owned _ _ _ _ _ i a Hc Er Ho) as [|(t & v6 & -> & _)]; [done|by destruct (Hnr i t v6)]. }
  assert (forall i, covers (ker (w_now w)) i -> covers k' i) as Hcv by (intros i; by eapply run_covers).
  split; [split; [done|]|split; [by split_and!|done]]. exists [w_now w]. split; [done|]. split; [constructor; [exact Hk|constructor]|].
  by eapply good_calm; [..|exact Hk].
Qed.

Lemma serve_facts x w r w' : ok w -> serve x w = (r, w') -> goes w w' /\ calm w w'.
Proof.
  intros [Hg Hk] E. unfold serve, b_service in E. destruct (k_service x (b_kernel (the_backend w))) as [r' k'] eqn:Er.
  injection E as <- <-. assert (forall i a, owned k' i a -> owned (ker (w_now w)) i a) as Hw by (intros i a; by eapply service_owned).
  assert (forall i, covers (ker (w_now w)) i -> covers k' i) as Hcv by (intros i; by eapply service_covers).
  split; [split; [done|]|by split_and!]. exists [w_now w]. split; [done|]. split; [constructor; [exact Hk|constructor]|].
  by eapply good_calm; [..|exact Hk].
Qed.

Lemma probe_link_facts i w x w' : ok w -> probe_link i w = (x, w') ->
  goes w w' /\ calm w w' /\ (x.1 = LinkAbsent -> forall a, ~ owned (ker (w_now w')) i a).
Proof.
  intros Hok. unfold probe_link. destruct (exec (show_link i) w) as [r w1] eqn:E. intros [= <- <-].
  apply exec_facts in E as (Hg & Hc & Er); [|done|ip_cmd|no_replace]. split_and!; [done..|]. intros Ha a.
  destruct r as [o|rc err out t|t]; [done| |done]. simpl in Ha. destruct (absent_answer rc err out) eqn:Eb; [|done].
  by eapply link_absent.
Qed.

Lemma probe_addr_facts i a w x w' : ok w -> canonical a -> probe_addr i a w = (x, w') ->
  goes w w' /\ calm w w' /\ (x.1 = LinkAbsent -> ~ owned (ker (w_now w')) i a).
Proof.
  intros Hok Ha. unfold probe_addr. destruct (_ || _); [intros [= <- <-]; split_and!; [by apply goes_refl|done|done]|].
  destruct (exec (show_addr i a) w) as [r w1] eqn:E. intros [= <- <-].
  apply exec_facts in E as (Hg & Hc & Er); [|done|ip_cmd|no_replace]. split_and!; [done..|]. intros Hx.
  destruct r as [[out|]|rc err out t|t]; simpl in Hx; try done.
  - destruct (canonical_token a Ha) as (f & Ef & _). rewrite Ef in Hx. destruct (existsb _ (words out)) eqn:Ex; [done|].
    intros Ho. destruct (addr_listed _ _ _ _ _ Er Ho) as (tok & Htok & Et). apply not_true_iff_false in Ex. apply Ex.
    apply existsb_exists. exists tok. split; [by apply list_elem_of_In|]. apply bool_decide_eq_true. congruence.
  - destruct (absent_answer rc err out) eqn:Eb; [|done]. by eapply addr_dev_absent.
Qed.

Lemma exec__facts argv w r w' : ok w -> exec_ argv w = (r, w') -> panel_cmd argv None ->
  (forall i t v6, argv <> replace_addr i t v6) -> goes w w' /\ calm w w'.
Proof.
  intros Hok. unfold exec_. destruct (exec argv w) as [x w1] eqn:E. intros [= <- <-] Hc Hn.
  by apply exec_facts in E as (? & ? & _).
Qed.
Lemma serve__facts x w r w' : ok w -> serve_ x w = (r, w') -> goes w w' /\ calm w w'.
Proof. intros Hok. unfold serve_. destruct (serve x w) as [y w1] eqn:E. intros [= <- <-]. by apply serve_facts in E. Qed.

(** * Removing addresses *)

Lemma retire_owned_addr_facts i a w r w' : ok w -> canonical a -> i <> "" -> retire_owned_addr i a w = (r, w') ->
  goes w w' /\ calm w w' /\ (r = inr None -> ~ owned (ker (w_now w')) i a).
Proof.
  intros Hok Ha Hi. destruct (canonical_clean a Ha) as (Hne & _). unfold retire_owned_addr. rewrite !bool_decide_false by done. simpl.
  destruct (exec (del_addr i a) w) as [x w1] eqn:E. apply exec_facts in E as (Hg & Hc & Er); [|done|ip_cmd|no_replace].
  destruct x as [o|rc err out t|t].
  - intros [= <- <-]. split_and!; [done..|]. intros _. by eapply del_addr_gone.
  - destruct (probe_addr i a w1) as [[st dt] w2] eqn:Ep. intros [= <- <-].
    apply probe_addr_facts in Ep as (Hg2 & Hc2 & Hab); [|by eapply goes_ok|done].
    split_and!; [by eapply goes_trans|by etrans|]. case_bool_decide; [|done]. intros _. by apply Hab.
  - by intros [= <- <-].
Qed.

Lemma retire_each_facts pairs w r w' : ok w -> Forall (fun p => canonical p.2 /\ p.1 <> "") pairs -> retire_each pairs w = (r, w') ->
  goes w w' /\ calm w w' /\
  forall keep reasons, r = inr (keep, reasons) -> keep ⊆ pairs /\ forall p, p ∈ pairs -> owned (ker (w_now w')) p.1 p.2 -> p ∈ keep.
Proof.
  intros Hok HF. revert w r w' Hok. induction HF as [|[i a] pairs [Ha Hi] HF IH]; simpl; intros w r w' Hok.
  { intros [= <- <-]. split_and!; [by apply goes_refl|done|]. intros k rs [= <- <-]. set_solver. }
  destruct (retire_owned_addr i a w) as [x w1] eqn:E1. apply retire_owned_addr_facts in E1 as (Hg1 & Hc1 & Hx); [|done..].
  destruct x as [e|reason]; [by intros [= <- <-]|].
  destruct (retire_each pairs w1) as [y w2] eqn:E2. apply IH in E2 as (Hg2 & Hc2 & Hy); [|by eapply goes_ok].
  destruct y as [e|[keep rs]]; [intros [= <- <-]; split_and!; [by eapply goes_trans|by etrans|done]|].
  intros [= <- <-]. split_and!; [by eapply goes_trans|by etrans|]. destruct (Hy _ _ eq_refl) as [Hsub Hin].
  destruct reason as [why|]; simpl; intros k' rs' [= <- <-].
  - split; [set_solver|]. intros p [-> | Hp]%elem_of_cons Ho; [left|right; auto].
  - split; [set_solver|]. intros p [-> | Hp]%elem_of_cons Ho; [|auto]. exfalso. apply (Hx eq_refl). by apply Hc2.
Qed.

(** * Ledgers *)

Inductive which := WStale | WLink | WSurvivor.
Definition key_of (x : which) : string := match x with WStale => STALE_KEY | WLink => LINK_KEY | WSurvivor => SURVIVOR_KEY end.
Definition entry_for (x : which) (i a e : string) : Prop :=
  match x with WStale => stale_entry i a e | WLink => i = e | WSurvivor => survivor_entry i a e end.
(** Tracked by a record that a write of this ledger does not touch. *)
Definition elsewhere (x : which) (i a : string) m : Prop :=
  forall m', frame [key_of x; journal_key (key_of x)] m m' -> tracked json_pairs json_dumps i a m'.

Lemma ledger_tracks x i a m : names_or_unknown (key_of x) (entry_for x i a) m -> tracked json_pairs json_dumps i a m.
Proof. unfold tracked. destruct x; [by left|do 2 right; by left|do 3 right; by left]. Qed.

(** A ledger under another key is untouched. *)
Ltac kept Hh Hf Ht := eapply names_kept; [..|exact Ht]; apply Hh; [by vm_compute|exact Hf|by vm_compute|exact Hf].

Lemma tracked_split x i a m : tracked json_pairs json_dumps i a m ->
  names_or_unknown (key_of x) (entry_for x i a) m \/ elsewhere x i a m.
Proof.
  assert (forall k m', bool_decide (k ∈ [key_of x; journal_key (key_of x)]) = false ->
    frame [key_of x; journal_key (key_of x)] m m' -> held k m' = held k m) as Hh.
  { intros k m' Hk%bool_decide_eq_false Hf. by eapply frame_held. }
  intros [Ht|[Ht|[Ht|[Ht|Ht]]]].
  - destruct x; [by left|right; intros m' Hf; left; kept Hh Hf Ht..].
  - right. intros m' Hf. right; left. destruct Ht as (t & ta & H1 & H2 & H3). exists t, ta.
    rewrite (Hh IFACE_KEY m'), (Hh ADDR4_KEY m'), (Hh ADDR6_KEY m') by first [exact Hf | by destruct x; vm_compute]. done.
  - destruct x; [right; intros m' Hf; do 2 right; left; kept Hh Hf Ht|by left|right; intros m' Hf; do 2 right; left; kept Hh Hf Ht].
  - destruct x; [right; intros m' Hf; do 3 right; left; kept Hh Hf Ht..|by left].
  - right. intros m' Hf. do 4 right. unfold pending_tracks. rewrite (Hh PROVISION_UNDO_KEY m'); [exact Ht|by destruct x; vm_compute|exact Hf].
Qed.

Lemma steady_frame x m m' : frame [key_of x; journal_key (key_of x)] m m' -> steady m -> steady m'.
Proof.
  intros [_ Hf]. apply steady_kept. intros k Hk. apply Hf. intros Hi.
  assert (Forall (fun k => k ∉ [key_of x; journal_key (key_of x)]) steady_keys) as HF by (destruct x; apply (bool_decide_unpack _); by vm_compute).
  exact (proj1 (Forall_forall _ _) HF k Hk Hi).
Qed.

(** Replacing a ledger keeps the segment covered, when what it names and must keep is kept. *)
Lemma ledger_goes x entries w why w' : ok w -> Forall one_line entries -> write_set (key_of x) entries w = (why, w') ->
  (forall i a, owned (ker (w_now w)) i a -> i <> P -> names_or_unknown (key_of x) (entry_for x i a) (w_now w) ->
     (exists e, e ∈ expected entries /\ entry_for x i a e) \/ elsewhere x i a (w_now w)) ->
  goes w w' /\ frame [key_of x; journal_key (key_of x)] (w_now w) (w_now w').
Proof.
  intros [Hg [Hs Hst]] Hol E Hkeep. pose proof (write_set_frame _ _ _ _ _ E) as Tf.
  split; [|exact (through_now _ _ _ Tf)]. split; [exact (proj1 (write_set_steps _ _ _ _ _ E) Hg)|].
  assert (through w w' (fun m => frame [key_of x; journal_key (key_of x)] (w_now w) m /\ forall p : string * string,
    owned (ker (w_now w)) p.1 p.2 -> p.1 = P \/ tracked json_pairs json_dumps p.1 p.2 m)) as T.
  { apply through_forall; [exact Tf|]. intros [i a]. simpl.
    destruct (decide (i = P)) as [->|Hi]; [eapply through_impl; [|exact Tf]; intros; by left|].
    assert (owned (ker (w_now w)) i a -> through w w' (fun m => tracked json_pairs json_dumps i a m)) as Ht.
    { intros Ho. assert (elsewhere x i a (w_now w) -> through w w' (fun m => tracked json_pairs json_dumps i a m)) as Hel.
      { intros He. eapply through_impl; [|exact Tf]. exact He. }
      destruct (Hs i a Ho) as (_ & _ & _ & [|Ht]); [done|]. destruct (tracked_split x i a _ Ht) as [Hn|]; [|by apply Hel].
      destruct (Hkeep i a Ho Hi Hn) as [He|]; [|by apply Hel]. eapply through_impl; [intros m; apply (ledger_tracks x)|].
      eapply set_kept; [exact Hol|exact E|exact He|by right]. }
    destruct Tf as (past & Ep & _ & _). exists past. split; [done|].
    assert (owned (ker (w_now w)) i a -> Forall (tracked json_pairs json_dumps i a) (w_now w' :: past)) as Hf.
    { intros Ho. destruct (Ht Ho) as (past' & Ep' & F' & H'). rewrite Ep in Ep'. apply app_inv_tail in Ep' as ->. by constructor. }
    split; [apply Forall_lookup; intros n m Hm Ho|intros Ho]; right; specialize (Hf Ho).
    - eapply Forall_lookup_1; [exact Hf|]. exact (Hm : (w_now w' :: past) !! S n = Some m).
    - by apply Forall_inv in Hf. }
  eapply through_impl; [|exact T]. intros m [Hf Hall]. split; [|by eapply steady_frame].
  intros i a Ho. destruct Hf as [Hn _]. unfold ker in *. rewrite Hn in *. destruct (Hs i a Ho) as (? & ? & ? & _). split_and!; try done.
  by apply (Hall (i, a)).
Qed.
End good.
