(* ===== verification/Machine.v ===== *)
(** A small machine: links, addresses and the interfaces the rules name.  It answers the
    commands of the provisioning code as [ip] does and satisfies [KernelSpec], so what is
    proved of the code from those laws can be run. *)
From Stdlib Require Import ZArith Lia Ascii.
From stdpp Require Import base gmap strings list.
From S2P Require Import Prelude PyStr Ip IpText Models Json Config Store Plan Enforcement Records RecordsFacts Ledgers LedgersFacts Host Segment SegmentFacts.
Open Scope string_scope.
Open Scope list_scope.

Record machine := Machine { mc_links : list string; mc_addrs : list (string * string); mc_rules : list string }.

Inductive ip_op := Replace (i t : string) | DelAddr (i a : string) | DelLink (i : string) | AddLink (i : string)
  | ShowLink (i : string) | ShowFlags (i : string) | ShowAddr (i : string) | Other.

Definition field (n : nat) (argv : list string) : string := default "" (argv !! n).
Definition op_of (argv : list string) : ip_op :=
  let i := default "" (last argv) in
  let a := field 3 argv in
  let b := field 4 argv in
  if decide (argv = show_link i) then ShowLink i
  else if decide (argv = del_link i) then DelLink i
  else if decide (argv = show_flags i) then ShowFlags i
  else if decide (argv = replace_addr i a false) then Replace i a
  else if decide (argv = replace_addr i b true) then Replace i b
  else if decide (argv = ["ip"; "addr"; "del"; a; "dev"; i]) then DelAddr i a
  else if decide (argv = ["ip"; "-6"; "addr"; "del"; b; "dev"; i]) then DelAddr i b
  else if decide (argv = ["ip"; "-4"; "-o"; "addr"; "show"; "dev"; i]) then ShowAddr i
  else if decide (argv = ["ip"; "-6"; "-o"; "addr"; "show"; "dev"; i]) then ShowAddr i
  else if decide (argv = ["ip"; "link"; "add"; "link"; b; "name"; field 6 argv; "type"; "vlan"; "id"; i]) then AddLink (field 6 argv)
  else Other.

Definition no_device (i : string) : ran := RanFailed 1 ("Cannot find device " +:+ i) "" "exit status 1".
Definition done_ : ran := RanOk (Some "").
(** The addresses of an interface, as one word each. *)
Definition listing (i : string) (k : machine) : list string :=
  filter (fun a => words a = [a]) (filter (fun p : string * string => p.1 = i) (mc_addrs k)).*2.

Definition machine_run (argv : list string) (input : option string) (k : machine) : ran * machine :=
  match op_of argv with
  | Replace i t =>
      match addr_token t with
      | None => (RanFailed 1 "any valid prefix is expected" "" "exit status 1", k)
      | Some f => if decide (i ∈ mc_links k) then (done_, Machine (mc_links k) (mc_addrs k ++ [(i, with_prefixlen f)]) (mc_rules k))
                  else (no_device i, k)
      end
  | DelAddr i a =>
      if decide ((i, a) ∈ mc_addrs k) then (done_, Machine (mc_links k) (filter (fun p => p <> (i, a)) (mc_addrs k)) (mc_rules k))
      else (RanFailed 2 "RTNETLINK answers: Cannot assign requested address" "" "exit status 2", k)
  | DelLink i =>
      if decide (i ∈ mc_links k) then (done_, Machine (filter (fun j => j <> i) (mc_links k)) (filter (fun p => p.1 <> i) (mc_addrs k)) (mc_rules k))
      else (no_device i, k)
  | AddLink i =>
      if decide (i ∈ mc_links k) then (RanFailed 2 "RTNETLINK answers: File exists" "" "exit status 2", k)
      else (done_, Machine (mc_links k ++ [i]) (filter (fun p => p.1 <> i) (mc_addrs k)) (mc_rules k))
  | ShowLink i => if decide (i ∈ mc_links k) then (RanOk (Some i), k) else (no_device i, k)
  | ShowFlags i => if decide (i ∈ mc_links k) then (RanOk (Some ("1: " +:+ i +:+ ": <BROADCAST,UP>")), k) else (no_device i, k)
  | ShowAddr i => if decide (i ∈ mc_links k) then (RanOk (Some (join " " (listing i k))), k) else (no_device i, k)
  | Other => (done_, k)
  end.

Definition machine_rules (p : plan) (k : machine) : net_call * machine :=
  (CallResult net_fine, Machine (mc_links k) (mc_addrs k) (segment_ifaces p)).
#[global] Instance machine_kernel : Kernel machine := {
  k_run := machine_run;
  k_service _ k := (Served, k);
  k_tproxy := machine_rules;
  k_guard := machine_rules;
  k_teardown k := (CallResult net_fine, Machine (mc_links k) (mc_addrs k) [])
}.

(** * It satisfies the laws *)

Definition on_machine (k : machine) (i a : string) : Prop := (i, a) ∈ mc_addrs k /\ i ∈ mc_links k /\ words a = [a].

Lemma op_replace argv i t : op_of argv = Replace i t -> exists v6, argv = replace_addr i t v6.
Proof. unfold op_of. repeat case_decide; intros [= <- <-]; eauto. Qed.
Lemma op_del_addr i a : op_of (del_addr i a) = DelAddr i a.
Proof. unfold op_of, del_addr, replace_addr, show_link, del_link, show_flags. destruct (is6 a); simpl; repeat case_decide; simplify_eq; done. Qed.
Lemma op_del_link i : op_of (del_link i) = DelLink i.
Proof. unfold op_of, del_link, show_link. simpl. repeat case_decide; simplify_eq; done. Qed.
Lemma op_show_link i : op_of (show_link i) = ShowLink i.
Proof. unfold op_of, show_link. simpl. repeat case_decide; simplify_eq; done. Qed.
Lemma op_show_addr i a : op_of (show_addr i a) = ShowAddr i.
Proof. unfold op_of, show_addr, show_link, del_link, show_flags, replace_addr. destruct (is6 a); simpl; repeat case_decide; simplify_eq; done. Qed.

Lemma words_listing l : Forall (fun a => words a = [a]) l -> words (join " " l) = l.
Proof.
  intros HF. assert (Forall (fun t => t <> "" /\ str_all (fun c => negb (is_space c)) t = true) l) as HC.
  { eapply Forall_impl; [exact HF|]. intros a Ha. pose proof (words_clean a) as Hw. rewrite Ha in Hw. by apply Forall_inv in Hw. }
  destruct l as [|a l]; [done|]. unfold words. rewrite (split_char_join is_space " "%char); [|done|done|].
  - clear HF. induction HC as [|t l' [Hne _] HC IH]; [done|]. rewrite filter_cons, decide_True by done. by rewrite IH.
  - eapply Forall_impl; [exact HC|]. by intros t [_ ?].
Qed.

Lemma run_machine_rules argv input k r k' : machine_run argv input k = (r, k') -> mc_rules k' = mc_rules k.
Proof. unfold machine_run. repeat case_match; by intros [= <- <-]. Qed.

Lemma run_machine_owned argv input k r k' i a : machine_run argv input k = (r, k') -> on_machine k' i a ->
  on_machine k i a \/ exists t v6, argv = replace_addr i t v6 /\ is_Some (addr_token t) /\ a = canonical_addr t.
Proof.
  unfold machine_run. destruct (op_of argv) as [j t|j b|j|j|j|j|j|] eqn:Eo.
  - destruct (addr_token t) as [f|] eqn:Et; [|intros [= <- <-]; by left]. case_decide; intros [= <- <-]; [|by left].
    intros (Hin & Hl & Hw). simpl in *. apply elem_of_app in Hin as [Hin| [= -> ->]%list_elem_of_singleton]; [left; by split_and!|right].
    destruct (op_replace _ _ _ Eo) as [v6 ->]. exists t, v6. split_and!; [done|by eexists|]. unfold canonical_addr. by rewrite Et.
  - case_decide; intros [= <- <-]; [|by left]. intros ([_ Hin]%list_elem_of_filter & Hl & Hw). left; by split_and!.
  - case_decide; intros [= <- <-]; [|by left]. intros ([_ Hin]%list_elem_of_filter & [_ Hl]%list_elem_of_filter & Hw). left; by split_and!.
  - case_decide; intros [= <- <-]; [by left|]. intros ([Hne Hin]%list_elem_of_filter & Hl & Hw). simpl in *.
    apply elem_of_app in Hl as [Hl|Hl]; [left; by split_and!|]. by apply list_elem_of_singleton in Hl.
  - case_decide; intros [= <- <-]; by left.
  - case_decide; intros [= <- <-]; by left.
  - case_decide; intros [= <- <-]; by left.
  - intros [= <- <-]; by left.
Qed.

#[global] Instance machine_spec : KernelSpec machine.
Proof.
  unshelve eapply (Build_KernelSpec machine _ on_machine (fun k i => i ∈ mc_rules k)).
  - intros argv input k r k' i a _ E. exact (run_machine_owned _ _ _ _ _ i a E).
  - intros argv input k r k' i _ E%run_machine_rules. by rewrite E.
  - intros i a k o k'. simpl. unfold machine_run. rewrite op_del_addr. case_decide; intros [= <- <-].
    intros ([Hne _]%list_elem_of_filter & _). done.
  - intros i k o k' a. simpl. unfold machine_run. rewrite op_del_link. case_decide; intros [= <- <-].
    intros (_ & [Hne _]%list_elem_of_filter & _). done.
  - intros i k rc err out t k' a. simpl. unfold machine_run. rewrite op_show_link. case_decide; intros [= <- <- <- <- <-] _. by intros (_ & ? & _).
  - intros i a k rc err out t k' b. simpl. unfold machine_run. rewrite op_show_addr. case_decide; intros [= <- <- <- <- <-] _. by intros (_ & ? & _).
  - intros i a k out k'. simpl. unfold machine_run. rewrite op_show_addr. case_decide; intros [= <- <-]. intros (Hin & _ & Hw).
    exists a. split; [|done]. rewrite words_listing.
    + apply list_elem_of_filter. split; [done|]. apply list_elem_of_fmap. exists (i, a). split; [done|]. by apply list_elem_of_filter.
    + apply Forall_forall. by intros x [? _]%list_elem_of_filter.
  - by intros x k ans k' i a [= <- <-].
  - by intros x k ans k' i [= <- <-].
  - intros p f k c k' i a Hf E. assert (machine_rules p k = (c, k')) as [= <- <-] by (by destruct Hf as [-> | ->]). done.
  - intros p f k c k' _ Hf E. assert (machine_rules p k = (c, k')) as [= <- <-] by (by destruct Hf as [-> | ->]). by left.
Defined.
