(* ===== verification/SegmentSteps.v ===== *)
(** The steps of a provisioning pass keep the segment covered: links, addresses, the
    surviving candidates, NetworkManager and the prefix. *)
From Stdlib Require Import ZArith Lia Ascii.
From stdpp Require Import base gmap strings list.
From S2P Require Import Prelude PyStr Ip IpText Models Json Config Store Plan Enforcement Records RecordsFacts Ledgers LedgersFacts Host Segment SegmentFacts.
Open Scope string_scope.
Open Scope list_scope.

Lemma elem_of_distinct p l drop : p ∈ distinct l drop <-> p ∈ l /\ p.1 <> "" /\ p.2 <> "" /\ p ∉ drop.
Proof. unfold distinct. rewrite elem_of_uniq, list_elem_of_filter. tauto. Qed.

Section steps.
Context `{KernelSpec K}.
Context (json_pairs : string -> string + json).
Context (json_dumps : json -> string).
Context (s : settings).
Context (P : string).
Context (HP : iface_re P = true).
Implicit Types (w : world (backend K)) (m : moment (backend K)).
Notation ok := (ok json_pairs json_dumps s P).
Notation goes := (goes json_pairs json_dumps s P).
Notation tracked := (tracked json_pairs json_dumps).

(** Nothing but the keys [ks] changed in the store, and nothing new is on an interface. *)
Definition moves (ks : list string) w w' : Prop :=
  goes w w' /\ (forall i a, owned (ker (w_now w')) i a -> owned (ker (w_now w)) i a) /\
  (forall i, covers (ker (w_now w)) i -> covers (ker (w_now w')) i) /\
  forall k, k ∉ ks -> held k (w_now w') = held k (w_now w).

Lemma moves_goes ks w w' : moves ks w w' -> goes w w'.
Proof. by intros [? _]. Qed.
Lemma moves_ok ks w w' : moves ks w w' -> ok w'.
Proof. intros [Hg _]. by eapply goes_ok. Qed.
Lemma moves_trans ks w w1 w2 : moves ks w w1 -> moves ks w1 w2 -> moves ks w w2.
Proof.
  intros (G1 & O1 & C1 & F1) (G2 & O2 & C2 & F2). split_and!; [by eapply goes_trans|auto|auto|]. intros k Hk. by rewrite F2, F1.
Qed.
Lemma moves_mono ks ks' w w' : ks ⊆ ks' -> moves ks w w' -> moves ks' w w'.
Proof. intros Hs (G & O & C & F). split_and!; [done|done|done|]. intros k Hk. apply F. set_solver. Qed.
Lemma moves_calm ks w w' : goes w w' -> calm w w' -> moves ks w w'.
Proof. intros Hg Hc. split_and!; [done|by apply Hc|by apply Hc|]. intros k _. by apply calm_held. Qed.
Lemma moves_same ks w w' : ok w -> same w w' -> (no_garble w -> no_garble w') -> moves ks w w'.
Proof. intros Hok Hs Hg. apply moves_calm; [by apply goes_same|by apply calm_same]. Qed.
Lemma moves_refl ks w : ok w -> moves ks w w.
Proof. intros. by apply moves_same. Qed.
Lemma moves_frame ks w w' : goes w w' -> frame ks (w_now w) (w_now w') -> moves ks w w'.
Proof.
  intros Hg [Hn Hf]. split_and!; [done|unfold ker; by rewrite Hn..|]. intros k Hk. unfold held. by rewrite (proj1 (Hf k Hk)).
Qed.
#[local] Hint Resolve moves_ok moves_refl moves_goes : core.

(** Chains [moves] along a sequence of steps. *)
Ltac go := repeat first [eassumption | eapply moves_trans; [eassumption|]].

Lemma entries_moves ks k w w' : moves ks w w' -> k ∉ ks -> journal_key k ∉ ks -> entries_of k (w_now w') = entries_of k (w_now w).
Proof. intros (_ & _ & _ & F) H1 H2. apply entries_kept; by apply F. Qed.

(** * Links *)

Definition link_keys : list string := [LINK_KEY; journal_key LINK_KEY].

Lemma legal_expected l i : Forall (fun i => iface_re i = true) l -> i ∈ expected l <-> i ∈ l.
Proof.
  intros HF. unfold expected. rewrite elem_of_uniq, list_elem_of_filter, list_elem_of_fmap. split.
  - intros [_ (v & -> & Hv)]. destruct (iface_re_facts v) as (_ & _ & Hs); [by apply (proj1 (Forall_forall _ _) HF)|]. by rewrite Hs.
  - intros Hi. destruct (iface_re_facts i) as (Hne & _ & Hs); [by apply (proj1 (Forall_forall _ _) HF)|]. split; [done|]. by exists i.
Qed.

Lemma no_space_one_line u : str_all (fun c => negb (is_space c)) u = true -> one_line u.
Proof.
  apply str_all_impl. intros c. unfold is_space, is_line_end. destruct c as [[] [] [] [] [] [] [] []]; vm_compute; congruence.
Qed.

Lemma legal_one_line l : Forall (fun i => iface_re i = true) l -> Forall one_line l.
Proof. intros HF. eapply Forall_impl; [exact HF|]. intros i Hi. by apply no_space_one_line, iface_re_facts. Qed.

(** The list [l] has every link of the ledger that still carries an address. *)
Definition links_in (l : list string) w : Prop :=
  Forall (fun i => iface_re i = true) l /\
  exists es, entries_of LINK_KEY (w_now w) = Some es /\ forall i a, owned (ker (w_now w)) i a -> i ∈ es -> i ∈ l.

Lemma links_in_calm l w w' : calm w w' -> links_in l w -> links_in l w'.
Proof.
  intros Hc [HF (es & He & Hi)]. split; [done|]. exists es. split; [|intros i a Ho; apply (Hi i a); by apply Hc].
  rewrite <- He. apply entries_kept; by apply calm_held.
Qed.

Lemma record_links_facts l w why w' : ok w -> links_in l w -> record_links l w = (why, w') -> moves link_keys w w' /\ links_in l w'.
Proof.
  intros Hok [HF (es & He & Hi)] E. unfold record_links in E. pose proof (legal_one_line l HF) as Hol.
  destruct (set_after _ _ _ _ _ es (proj1 Hok) Hol E He) as (es' & He' & Hin).
  apply (ledger_goes json_pairs json_dumps s P WLink) in E as [Hg Hf]; [|done|done|].
  - pose proof (moves_frame _ _ _ Hg Hf) as Hm. split; [done|]. split; [done|]. exists es'. split; [done|]. intros i a Ho Hie.
    apply Hm in Ho. destruct (Hin i Hie) as [|Hx]; [by eapply Hi|]. exact (proj1 (legal_expected l i HF) Hx).
  - intros i a Ho Hne Ht. left. unfold names_or_unknown in Ht. simpl in Ht. rewrite He in Ht. destruct Ht as (e & Hee & <-).
    exists i. split; [|done]. apply legal_expected; [done|]. by eapply Hi.
Qed.

Lemma remove_first_in i x l : i ∈ l -> i <> x -> i ∈ remove_first x l.
Proof.
  induction l as [|y l IH]; intros Hi Hne; simpl; [done|]. case_decide as Ey.
  - apply elem_of_cons in Hi as [-> |]; [congruence|done].
  - apply elem_of_cons in Hi as [-> |]; [left|right; auto].
Qed.
Lemma remove_first_sub x l : remove_first x l ⊆ l.
Proof. induction l as [|y l IH]; simpl; [done|]. case_decide; set_solver. Qed.

Lemma delete_owned_link_facts link l w r l' w' : ok w -> links_in l w -> delete_owned_link link l w = ((r, l'), w') ->
  moves link_keys w w' /\ links_in l' w'.
Proof.
  intros Hok Hl.
  assert (forall w1, moves link_keys w w1 -> links_in l w1 -> (forall a, ~ owned (ker (w_now w1)) link a) ->
    forget_link link l w1 = ((r, l'), w') -> moves link_keys w w' /\ links_in l' w') as Hforget.
  { intros w1 Hm1 [HF (es & He & Hi)] Hgone. unfold forget_link.
    destruct (record_links (remove_first link l) w1) as [why w2] eqn:E. apply record_links_facts in E as [Hm2 Hl2]; [|eauto|].
    - destruct why; intros [= <- <- <-]; split; try done; go.
    - split.
      + apply Forall_forall. intros i Hx. apply (proj1 (Forall_forall _ _) HF), (remove_first_sub link), Hx.
      + exists es. split; [done|]. intros i a Ho Hie. apply remove_first_in; [by eapply Hi|]. intros ->. by apply (Hgone a). }
  unfold delete_owned_link. destruct (exec (del_link link) w) as [x w1] eqn:E.
  apply (exec_facts json_pairs json_dumps s P) in E as (Hg & Hc & Er); [|done|ip_cmd|no_replace].
  pose proof (moves_calm link_keys _ _ Hg Hc) as Hm1. pose proof (links_in_calm l _ _ Hc Hl) as Hl1.
  destruct x as [o|rc err out t|t].
  - apply Hforget; [done|done|]. intros a. by eapply del_link_gone.
  - destruct (probe_link link w1) as [[st dt] w2] eqn:Ep.
    apply (probe_link_facts json_pairs json_dumps s P) in Ep as (Hg2 & Hc2 & Hab); [|eauto].
    pose proof (moves_calm link_keys _ _ Hg2 Hc2). pose proof (links_in_calm l _ _ Hc2 Hl1).
    case_bool_decide; [apply Hforget; [go|done|by apply Hab]|]. intros [= <- <- <-]. split; [go|done].
  - destruct (probe_link link w1) as [[st dt] w2] eqn:Ep.
    apply (probe_link_facts json_pairs json_dumps s P) in Ep as (Hg2 & Hc2 & Hab); [|eauto].
    pose proof (moves_calm link_keys _ _ Hg2 Hc2). pose proof (links_in_calm l _ _ Hc2 Hl1).
    case_bool_decide; [apply Hforget; [go|done|by apply Hab]|]. intros [= <- <- <-]. split; [go|done].
Qed.

Lemma retire_links_facts links l w r w' : ok w -> links_in l w -> retire_links links l w = (r, w') -> moves link_keys w w'.
Proof.
  revert l w r w'. induction links as [|link links IH]; intros l w r w' Hok Hl; simpl; [intros [= <- <-]; auto|].
  destruct (delete_owned_link link l w) as [[reason l1] w1] eqn:E1. apply delete_owned_link_facts in E1 as [Hm1 Hl1]; [|done|done].
  destruct (retire_links links l1 w1) as [failed w2] eqn:E2. apply IH in E2; [|eauto|done]. intros [= <- <-]. go.
Qed.

Lemma links_read l w1 w : same w w1 -> Forall (fun i => iface_re i = true) l ->
  (exists es, entries_of LINK_KEY (w_now w) = Some es /\ forall i, i ∈ l <-> i ∈ es) -> links_in l w1.
Proof. intros (Hn & _) HF (es & He & Hi). split; [done|]. exists es. rewrite Hn. split; [done|]. intros i a _. apply Hi. Qed.

Lemma retire_superseded_facts p w r w' : ok w -> retire_superseded_links p w = (r, w') -> moves link_keys w w'.
Proof.
  intros Hok. unfold retire_superseded_links. destruct (read_links w) as [x w1] eqn:E. apply read_links_facts in E as (Hs & Hg & Hl).
  pose proof (moves_same link_keys _ _ Hok Hs Hg) as Hm. destruct x as [e|l]; [intros [= <- <-]; done|].
  destruct (Hl l eq_refl) as (HF & _ & Hes). intros E%retire_links_facts; [go|eauto|by eapply links_read].
Qed.
Lemma clear_managed_link_facts w r w' : ok w -> clear_managed_link w = (r, w') -> moves link_keys w w'.
Proof.
  intros Hok. unfold clear_managed_link. destruct (read_links w) as [x w1] eqn:E. apply read_links_facts in E as (Hs & Hg & Hl).
  pose proof (moves_same link_keys _ _ Hok Hs Hg) as Hm. destruct x as [e|l]; [intros [= <- <-]; done|].
  destruct (Hl l eq_refl) as (HF & _ & Hes). intros E%retire_links_facts; [go|eauto|by eapply links_read].
Qed.

Lemma ensure_segment_link_facts p w r w' : ok w -> np_segment_iface p = P -> ensure_segment_link p w = (r, w') -> moves link_keys w w'.
Proof.
  intros Hok Hp. unfold ensure_segment_link. rewrite Hp. destruct (parse_vlan P) as [parent vid].
  destruct (parse_links w) as [x w1] eqn:E1. apply parse_links_facts in E1 as (Hs & Hg & Hl).
  pose proof (moves_same link_keys _ _ Hok Hs Hg) as Hm1. destruct x as [e|l]; [intros [= <- <-]; done|].
  destruct vid as [vid|]; [|intros [= <- <-]; done].
  destruct (probe_link P w1) as [there w2] eqn:E2.
  apply (probe_link_facts json_pairs json_dumps s P) in E2 as (Hg2 & Hc2 & _); [|eauto].
  pose proof (moves_calm link_keys _ _ Hg2 Hc2) as Hm2. case_bool_decide; [intros [= <- <-]; go|].
  assert (forall w3, moves link_keys w w3 -> exec_ (add_link parent P vid) w3 = (r, w') -> moves link_keys w w') as Hadd.
  { intros w3 Hm3 E3. apply (exec__facts json_pairs json_dumps s P) in E3 as [? ?]; [|eauto|ip_cmd|no_replace].
    eapply moves_trans; [exact Hm3|]. by apply moves_calm. }
  destruct (Hl l eq_refl) as (HF & _ & Hes).
  case_decide; [apply Hadd; go|]. destruct (record_links (l ++ [P]) w2) as [why w3] eqn:E3.
  apply record_links_facts in E3 as [Hm3 _]; [|eauto|].
  - destruct why; [apply Hadd; go|]. intros [= <- <-]. go.
  - pose proof (links_in_calm l _ _ Hc2 (links_read l w1 w Hs HF Hes)) as [_ (es & He & Hi)]. split.
    + apply Forall_app. split; [done|]. by constructor.
    + exists es. split; [done|]. intros i a Ho Hie. apply elem_of_app. left. by eapply Hi.
Qed.

(** * Ownership *)

Definition own_keys : list string := [STALE_KEY; journal_key STALE_KEY; IFACE_KEY; ADDR4_KEY; ADDR6_KEY].

(** Tracked by a record other than the ownership records. *)
Definition beside (i a : string) m : Prop := link_tracks i m \/ survivor_tracks i a m \/ pending_tracks json_pairs json_dumps i m.

Lemma beside_kept i a m m' : (forall k, k ∈ track_keys -> k ∉ own_keys -> held k m' = held k m) -> beside i a m -> beside i a m'.
Proof.
  intros Hh. assert (forall k, bool_decide (k ∈ track_keys) && negb (bool_decide (k ∈ own_keys)) = true -> held k m' = held k m) as Hb.
  { intros k [H1%bool_decide_eq_true H2%negb_true_iff]%andb_true_iff. apply Hh; [done|]. by apply bool_decide_eq_false in H2. }
  intros [Ht|[Ht|Ht]].
  - left. eapply names_kept; [..|exact Ht]; apply Hb; by vm_compute.
  - right; left. eapply names_kept; [..|exact Ht]; apply Hb; by vm_compute.
  - right; right. unfold pending_tracks. rewrite Hb by (by vm_compute). exact Ht.
Qed.

Lemma beside_tracked i a m : beside i a m -> tracked i a m.
Proof. unfold beside, LedgersFacts.tracked. tauto. Qed.

(** Every address elsewhere is among [l], or tracked beside the ownership records. *)
Definition listed (l : list (string * string)) w : Prop :=
  forall i a, owned (ker (w_now w)) i a -> i <> P -> (i, a) ∈ l \/ beside i a (w_now w).
(** Every address elsewhere is tracked, whatever the ownership scalars say. *)
Definition solid w : Prop :=
  forall i a, owned (ker (w_now w)) i a -> i <> P -> stale_tracks i a (w_now w) \/ beside i a (w_now w).

Lemma listed_moves ks l w w' : (forall k, k ∈ ks -> k ∈ own_keys) -> moves ks w w' -> listed l w -> listed l w'.
Proof.
  intros Hks (_ & O & _ & F) Hl i a Ho Hi. destruct (Hl i a (O i a Ho) Hi) as [|Hb]; [by left|right].
  eapply beside_kept; [|exact Hb]. intros k _ Hk. apply F. intros Hin. by apply Hk, Hks.
Qed.

Lemma scalar_write_facts k v w e w' : k ∈ [IFACE_KEY; ADDR4_KEY; ADDR6_KEY] -> ok w -> solid w -> write_record k v w = (e, w') ->
  moves own_keys w w' /\ solid w'.
Proof.
  intros Hk Hok Hs E. unfold write_record in E. pose proof (verified_write_frame _ _ _ _ _ _ E) as Tf.
  pose proof (proj1 (proj2 (verified_write_facts _ _ _ _ _ _ E)) (proj1 Hok)) as Hg'.
  assert (forall m, frame [k] (w_now w) m -> forall i a, owned (ker m) i a -> i <> P -> stale_tracks i a m \/ beside i a m) as Hsol.
  { intros m Hf i a Ho Hi. assert (forall k', bool_decide (k' ∈ track_keys) && negb (bool_decide (k' ∈ [IFACE_KEY; ADDR4_KEY; ADDR6_KEY])) = true -> held k' m = held k' (w_now w)) as Hb.
    { intros k' [_ Hn%negb_true_iff%bool_decide_eq_false]%andb_true_iff. eapply frame_held; [exact Hf|]. set_solver. }
    unfold ker in Ho. rewrite (proj1 Hf) in Ho. destruct (Hs i a Ho Hi) as [Ht|Ht]; [left|right].
    - eapply names_kept; [..|exact Ht]; apply Hb; by vm_compute.
    - eapply beside_kept; [|exact Ht]. intros k' Hin Hn. apply Hb. apply andb_true_iff. split; [by apply bool_decide_eq_true|].
      apply negb_true_iff, bool_decide_eq_false. intros Hx. apply Hn. unfold own_keys. set_solver. }
  split; [|exact (Hsol _ (through_now _ _ _ Tf))].
  eapply moves_mono with [k]; [unfold own_keys; set_solver|]. apply moves_frame; [|exact (through_now _ _ _ Tf)].
  split; [done|]. destruct Hok as [_ [Hsafe Hst]]. eapply through_impl; [|exact Tf]. intros m Hf. split.
  - intros i a Ho. pose proof Ho as Ho'. unfold ker in Ho'. rewrite (proj1 Hf) in Ho'. destruct (Hsafe i a Ho') as (Hc & ? & ? & _).
    unfold ker in *. rewrite (proj1 Hf) in *. split_and!; try done. destruct (decide (i = P)); [by left|right].
    destruct (Hsol m Hf i a) as [Ht|Ht]; [unfold ker; by rewrite (proj1 Hf)|done|by left|by apply beside_tracked].
  - eapply steady_kept; [|exact Hst]. intros k' Hk'. apply Hf.
    assert (Forall (fun x => x ∉ [IFACE_KEY; ADDR4_KEY; ADDR6_KEY]) steady_keys) as HF by (apply (bool_decide_unpack _); by vm_compute).
    pose proof (proj1 (Forall_forall _ _) HF k' Hk'). set_solver.
Qed.

Lemma ledger_entries_facts pairs entries : ledger_entries pairs = (entries, []) ->
  Forall one_line entries /\ forall p, p ∈ pairs -> entry_of p ∈ expected entries.
Proof.
  unfold ledger_entries. intros [= <- Hr].
  assert (forall p, p ∈ pairs -> words (entry_of p) = [p.1; p.2]) as Hw.
  { intros p Hp. assert (ledger_refused p = []) as E.
    { clear -Hr Hp. induction pairs as [|q l IH]; [by apply elem_of_nil in Hp|]. simpl in Hr. apply app_nil in Hr as [H1 H2].
      apply elem_of_cons in Hp as [-> |]; [done|auto]. }
    unfold ledger_refused in E. by case_bool_decide. }
  assert (forall p, p ∈ pairs -> strip (entry_of p) = entry_of p /\ entry_of p <> "" /\ one_line (entry_of p)) as Hf.
  { intros [i a] Hp. destruct (entry_facts i a (Hw _ Hp)) as (? & ? & ? & _). done. }
  split.
  - apply Forall_forall. intros e. rewrite elem_of_uniq, list_elem_of_fmap. intros (p & -> & Hp). apply list_elem_of_filter in Hp as [_ Hp]. by apply Hf.
  - intros p Hp. destruct (Hf p Hp) as (Hs & Hne & _). unfold expected. rewrite elem_of_uniq, list_elem_of_filter. split; [done|].
    apply list_elem_of_fmap. exists (entry_of p). split; [done|]. rewrite elem_of_uniq. apply list_elem_of_fmap. exists p. split; [done|].
    apply list_elem_of_filter. split; [|done]. unfold ledger_refused. rewrite bool_decide_true; [done|by apply Hw].
Qed.

Lemma stale_entry_own i a : iface_re i = true -> canonical a -> stale_entry i a (entry_of (i, a)).
Proof.
  intros Hi Ha. destruct (iface_re_facts i Hi) as (Hne & Hs & Hst). destruct (canonical_clean a Ha) as (Hna & Hsa & _).
  exists (i, a). split; [by apply entry_facts, words_pair|]. unfold stale_pair. simpl fst.
  rewrite (checked_names_legal [i]) by (by repeat constructor). by rewrite canonical_checked.
Qed.

Lemma record_ownership_facts iface a4 a6 stale retained w r w' : ok w -> listed stale w ->
  record_ownership iface a4 a6 stale retained w = (r, w') -> moves own_keys w w' /\ (r = [] -> solid w').
Proof.
  intros Hok Hl. unfold record_ownership. destruct (ledger_entries (stale ++ retained)) as [entries refused] eqn:El.
  destruct (negb (bool_decide (refused = []))) eqn:Er.
  { intros [= <- <-]. split; [auto|]. intros ->. done. }
  apply negb_false_iff, bool_decide_eq_true in Er as ->. apply ledger_entries_facts in El as [Hol Hin].
  destruct (write_set STALE_KEY entries w) as [why w1] eqn:E1.
  assert (forall i a, owned (ker (w_now w)) i a -> i <> P -> (exists e, e ∈ expected entries /\ stale_entry i a e) \/ beside i a (w_now w)) as Hkeep.
  { intros i a Ho Hi. destruct (Hl i a Ho Hi) as [Hp|]; [left|by right]. destruct Hok as [_ [Hsafe _]].
    destruct (Hsafe i a Ho) as (_ & Hr & Hc & _). exists (entry_of (i, a)). split; [apply Hin, elem_of_app; by left|by apply stale_entry_own]. }
  assert (why = "" -> ledger STALE_KEY (w_now w1) = Some (expected entries)) as Hled by (intros ->; by eapply set_written).
  apply (ledger_goes json_pairs json_dumps s P WStale) in E1 as [Hg1 Hf1]; [|done|done|].
  2: { intros i a Ho Hi _. destruct (Hkeep i a Ho Hi) as [|Hb]; [by left|right]. intros m' Hf. apply beside_tracked.
       eapply beside_kept; [|exact Hb]. intros k _ Hk. eapply frame_held; [exact Hf|]. unfold own_keys in Hk. simpl. set_solver. }
  pose proof (moves_frame _ _ _ Hg1 Hf1) as Hm1. apply (moves_mono _ own_keys) in Hm1; [|unfold own_keys; simpl; set_solver].
  destruct why as [|c why]; [|intros [= <- <-]; split; [done|]; done]. specialize (Hled eq_refl).
  assert (solid w1) as S1.
  { intros i a Ho Hi. apply Hm1 in Ho. destruct (Hkeep i a Ho Hi) as [He|Hb]; [left|right].
    - apply entries_l. intros l. rewrite Hled. by intros [= <-].
    - eapply beside_kept; [|exact Hb]. intros k _ Hk. apply Hm1, Hk. }
  destruct (write_record IFACE_KEY iface w1) as [e1 w2] eqn:E2. apply scalar_write_facts in E2 as [Hm2 S2]; [|set_solver|eauto|done].
  destruct (write_record ADDR4_KEY a4 w2) as [e2 w3] eqn:E3. apply scalar_write_facts in E3 as [Hm3 S3]; [|set_solver|eauto|done].
  destruct (write_record ADDR6_KEY a6 w3) as [e3 w4] eqn:E4. apply scalar_write_facts in E4 as [Hm4 S4]; [|set_solver|eauto|done].
  intros [= <- <-]. split; [go|done].
Qed.

(** * Installing addresses *)

(** As [moves], but an address may have arrived on the plan's interface. *)
Definition arrives (ks : list string) w w' : Prop :=
  goes w w' /\ (forall i a, owned (ker (w_now w')) i a -> owned (ker (w_now w)) i a \/ i = P) /\
  (forall i, covers (ker (w_now w)) i -> covers (ker (w_now w')) i) /\
  forall k, k ∉ ks -> held k (w_now w') = held k (w_now w).

Lemma moves_arrives ks w w' : moves ks w w' -> arrives ks w w'.
Proof. intros (G & O & C & F). split_and!; auto. Qed.
Lemma arrives_ok ks w w' : arrives ks w w' -> ok w'.
Proof. intros [Hg _]. by eapply goes_ok. Qed.
Lemma arrives_trans ks w w1 w2 : arrives ks w w1 -> arrives ks w1 w2 -> arrives ks w w2.
Proof.
  intros (G1 & O1 & C1 & F1) (G2 & O2 & C2 & F2). split_and!; [by eapply goes_trans| |auto|].
  - intros i a Ho. destruct (O2 i a Ho) as [|]; auto.
  - intros k Hk. by rewrite F2, F1.
Qed.
Lemma arrives_mono ks ks' w w' : ks ⊆ ks' -> arrives ks w w' -> arrives ks' w w'.
Proof. intros Hs (G & O & C & F). split_and!; [done|done|done|]. intros k Hk. apply F. set_solver. Qed.
#[local] Hint Resolve arrives_ok moves_arrives : core.

Lemma listed_arrives ks l w w' : (forall k, k ∈ ks -> k ∈ own_keys) -> arrives ks w w' -> listed l w -> listed l w'.
Proof.
  intros Hks (_ & O & _ & F) Hl i a Ho Hi. destruct (O i a Ho) as [Ho'|]; [|done]. destruct (Hl i a Ho' Hi) as [|Hb]; [by left|right].
  eapply beside_kept; [|exact Hb]. intros k _ Hk. apply F. intros Hin. by apply Hk, Hks.
Qed.

Lemma install_addr_facts t v6 w r w' : ok w -> covers (ker (w_now w)) P -> install_addr P t v6 w = (r, w') -> arrives [] w w'.
Proof.
  intros [Hg Hk] Hcov. unfold install_addr. destruct (exec (replace_addr P t v6) w) as [x w1] eqn:E.
  assert (arrives [] w w1) as Ha.
  { unfold exec, b_run in E. destruct (k_run (replace_addr P t v6) None (b_kernel (the_backend w))) as [x' k'] eqn:Er. injection E as <- <-.
    assert (panel_cmd (replace_addr P t v6) None) as Hc by ip_cmd.
    assert (forall i, covers (ker (w_now w)) i -> covers k' i) as Hcv by (intros i; by eapply run_covers).
    assert (forall i a, owned k' i a -> owned (ker (w_now w)) i a \/ i = P /\ canonical a) as Hw.
    { intros i a Ho. destruct (run_owned _ _ _ _ _ i a Hc Er Ho) as [|(t' & v' & Heq & Ht & ->)]; [by left|right].
      assert (P = i) as <-; [|split; [done|by apply canonical_addr_canonical]].
      unfold replace_addr in Heq. destruct v6, v'; simpl in Heq; by injection Heq. }
    split_and!; [|intros i a Ho; by destruct (Hw i a Ho) as [|[-> _]]; auto|done|done].
    split; [done|]. exists [w_now w]. split; [done|]. split; [constructor; [exact Hk|constructor]|]. destruct Hk as [Hs Hst]. split; [|done].
    intros i a Ho. destruct (Hw i a Ho) as [Ho'|[-> Hca]].
    - destruct (Hs i a Ho') as (? & ? & ? & Ht). split_and!; [by apply Hcv|done|done|]. destruct Ht as [|Ht]; [by left|right].
      eapply tracked_kept; [|exact Ht]. done.
    - split_and!; [by apply Hcv|done|done|by left]. }
  destruct x; by intros [= <- <-].
Qed.

Lemma install_addrs_facts a4 a6 w r w' : ok w -> covers (ker (w_now w)) P -> install_addrs P a4 a6 w = (r, w') -> arrives [] w w'.
Proof.
  intros Hok Hcov. unfold install_addrs. destruct (install_addr P a4 false w) as [x w1] eqn:E1.
  apply install_addr_facts in E1 as Ha1; [|done|done]. destruct x as [e|bad]; [by intros [= <- <-]|].
  assert (ok w1) by eauto. assert (covers (ker (w_now w1)) P) by (by apply Ha1).
  destruct bad as [b|]; [by intros [= <- <-]|]. destruct a6 as [a|]; [|by intros [= <- <-]].
  intros E2%install_addr_facts; [|done|done]. by eapply arrives_trans.
Qed.

(** * The address pass *)

Lemma desired_iface i addrs p : p ∈ desired_pairs i addrs -> p.1 = i.
Proof. unfold desired_pairs. case_bool_decide; [by intros ?%elem_of_nil|]. intros (a & -> & _)%list_elem_of_fmap. done. Qed.

Lemma stale_set_facts own p i a : np_segment_iface p = P -> iface_re i = true -> canonical a -> i <> P ->
  (i, a) ∈ own_stale own \/ (own_iface own = i /\ own_iface_unusable own = false /\ (own_addr4 own = a \/ own_addr6 own = a)) ->
  (i, a) ∈ stale_set own p.
Proof.
  intros Hp Hi Ha Hne Hor. destruct (iface_re_facts i Hi) as (Hib & _). destruct (canonical_clean a Ha) as (Hab & _).
  unfold stale_set. rewrite Hp. set (desired := desired_pairs P _). set (recorded := distinct (own_stale own) desired).
  assert ((i, a) ∉ desired) as Hnd by (intros Hd%desired_iface; done). apply elem_of_app.
  destruct Hor as [Hs|(Hoi & Hu & Ho)].
  - left. by apply elem_of_distinct.
  - destruct (decide ((i, a) ∈ recorded)) as [|Hnr]; [by left|right]. apply elem_of_distinct. split_and!; [|done|done|].
    + assert (iface_or own P = i) as ->.
      { unfold iface_or. rewrite Hu, Hoi. by destruct i. }
      rewrite (bool_decide_false (i = "")), (bool_decide_false (i = P)), !orb_true_r, !andb_true_r by done. cbn [negb andb].
      apply elem_of_app. destruct Ho as [-> | ->]; [left|right]; rewrite bool_decide_false by done; cbn [negb]; left.
    + intros [|]%elem_of_app; done.
Qed.

Lemma stale_set_canonical own p : np_segment_iface p = P ->
  (forall q, q ∈ own_stale own -> iface_re q.1 = true /\ canonical q.2) ->
  (own_addr4 own <> "" -> canonical (own_addr4 own)) -> (own_addr6 own <> "" -> canonical (own_addr6 own)) ->
  Forall (fun q => canonical q.2 /\ q.1 <> "") (stale_set own p).
Proof.
  intros Hp Hst H4 H6. apply Forall_forall. intros q Hq. unfold stale_set in Hq. apply elem_of_app in Hq as [Hq|Hq].
  - apply elem_of_distinct in Hq as (Hq & ? & _). split; [by apply Hst|done].
  - apply elem_of_distinct in Hq as (Hq & ? & ? & _). split; [|done].
    apply elem_of_app in Hq as [Hq|Hq]; destruct (_ && _) in Hq; try (by apply elem_of_nil in Hq);
      apply list_elem_of_singleton in Hq; subst q; auto.
Qed.

Lemma read_ownership_addrs w own w' : read_ownership w = (own, w') -> own_known own = true ->
  (own_addr4 own <> "" -> canonical (own_addr4 own)) /\ (own_addr6 own <> "" -> canonical (own_addr6 own)).
Proof.
  assert (forall r v f k, (scalar_addr r v f k).1 <> "" -> canonical (scalar_addr r v f k).1) as Hc.
  { intros r v f k. unfold scalar_addr. destruct (negb (bool_decide (v = ""))); [done|]. destruct (rec_text r) as [|t]; [done|].
    case_bool_decide; [done|]. destruct (checked_family_addr t f k) as [|a] eqn:E; [done|]. intros _. by apply checked_family_sound in E. }
  unfold read_ownership. destruct (read_scalar IFACE_KEY w) as [[r1 v1] w1], (read_scalar ADDR4_KEY w1) as [[r2 v2] w2],
    (read_scalar ADDR6_KEY w2) as [[r3 v3] w3], (read_pairs STALE_KEY w3) as [[e|pairs] w4]; [by intros [= <- <-]|].
  destruct (negb _); [by intros [= <- <-]|]. pose proof (Hc r2 v2 4%Z ADDR4_KEY) as H4. pose proof (Hc r3 v3 6%Z ADDR6_KEY) as H6.
  destruct (scalar_iface r1 v1) as [[? ?] ?], (scalar_addr r2 v2 4 _), (scalar_addr r3 v3 6 _), (split_stale pairs). by intros [= <- <-] _.
Qed.

Lemma read_ownership_listed w own w' : ok w -> read_ownership w = (own, w') -> own_known own = true ->
  forall i a, owned (ker (w_now w')) i a -> i <> P -> iface_re i = true /\ canonical a /\
    (((i, a) ∈ own_stale own \/ (own_iface own = i /\ own_iface_unusable own = false /\ (own_addr4 own = a \/ own_addr6 own = a))) \/ beside i a (w_now w')).
Proof.
  intros [_ [Hs _]] E Hk i a Ho Hi. apply read_ownership_facts in E as ((Hn & _) & _ & Hf). destruct (Hf Hk) as (Hst & Hsc & _).
  rewrite Hn in *. destruct (Hs i a Ho) as (_ & Hr & Hc & [|Ht]); [done|]. split_and!; [done|done|]. unfold beside.
  destruct Ht as [Ht|[Ht|Ht]]; [left; left; by apply Hst|left; right; by apply Hsc|tauto].
Qed.

Lemma reconcile_facts p w r w' : ok w -> np_segment_iface p = P -> covers (ker (w_now w)) P ->
  reconcile_segment_addresses p w = (r, w') -> arrives own_keys w w'.
Proof.
  intros Hok Hp Hcov. unfold reconcile_segment_addresses. destruct (read_ownership w) as [own w1] eqn:E1.
  pose proof (read_ownership_facts _ _ _ E1) as (Hs1 & Hg1 & Hf1). pose proof (moves_same own_keys _ _ Hok Hs1 Hg1) as Hm1.
  destruct (own_known own) eqn:Ek; simpl; [|by intros [= <- <-]; apply moves_arrives].
  pose proof (read_ownership_listed _ _ _ Hok E1 Ek) as Hl1. destruct (Hf1 eq_refl) as (_ & _ & Hcan). destruct (read_ownership_addrs _ _ _ E1 Ek) as [H4 H6].
  assert (listed (stale_set own p) w1) as L1.
  { intros i a Ho Hi. destruct (Hl1 i a Ho Hi) as (Hr & Hc & [Hor|]); [left|by right]. by apply stale_set_facts. }
  rewrite Hp. destruct (record_ownership P (plan_addr4 p) (default "" (plan_addr6 p)) (stale_set own p) (own_retained own) w1) as [un w2] eqn:E2.
  apply record_ownership_facts in E2 as [Hm2 S2]; [|eauto|done]. destruct (negb (bool_decide (un = []))).
  { intros [= <- <-]. apply moves_arrives. go. }
  destruct (install_addrs P (plan_addr4 p) (plan_addr6 p) w2) as [bad w3] eqn:E3.
  apply install_addrs_facts in E3 as Ha3; [|eauto|by apply Hm2, Hm1]. apply (arrives_mono _ own_keys) in Ha3; [|set_solver].
  assert (arrives own_keys w w3) as Ha by (eapply arrives_trans; [|exact Ha3]; apply moves_arrives; go).
  assert (listed (stale_set own p) w3) as L3.
  { eapply listed_arrives; [|exact Ha3|]; [done|]. by eapply listed_moves; [|exact Hm2|]. }
  destruct bad as [e|[why|]]; [by intros [= <- <-]..|].
  unfold retire_owned. set (desired := desired_pairs P _). destruct (retire_each (distinct (stale_set own p) desired) w3) as [x w4] eqn:E4.
  apply (retire_each_facts json_pairs json_dumps s P) in E4 as (Hg4 & Hc4 & Hx); [|eauto|].
  2: { apply Forall_forall. intros q (Hq & _)%elem_of_distinct. exact (proj1 (Forall_forall _ _) (stale_set_canonical own p Hp Hcan H4 H6) q Hq). }
  pose proof (moves_calm own_keys _ _ Hg4 Hc4) as Hm4. destruct x as [e|[keep reasons]].
  { intros [= <- <-]. eapply arrives_trans; [exact Ha|auto]. }
  assert (listed keep w4) as L4.
  { intros i a Ho Hi. pose proof (listed_moves own_keys _ _ _ ltac:(done) Hm4 L3 i a Ho Hi) as [Hin|]; [left|by right].
    destruct (Hx _ _ eq_refl) as [_ Hk]. apply (Hk (i, a)); [|done]. apply Hm4 in Ho.
    destruct (proj1 (proj2 (goes_ok _ _ _ _ _ _ (proj1 Ha))) i a Ho) as (_ & Hr & Hc & _).
    destruct (iface_re_facts i Hr) as (? & _), (canonical_clean a Hc) as (? & _). apply elem_of_distinct. split_and!; try done.
    intros Hd%desired_iface. done. }
  destruct (record_ownership P _ _ keep (own_retained own) w4) as [un' w5] eqn:E5.
  apply record_ownership_facts in E5 as [Hm5 _]; [|eauto|done]. intros [= <- <-].
  eapply arrives_trans; [exact Ha|]. apply moves_arrives. go.
Qed.

Lemma clear_managed_facts w r w' : ok w -> clear_managed_addresses w = (r, w') -> moves own_keys w w'.
Proof.
  intros Hok. unfold clear_managed_addresses. destruct (read_ownership w) as [own w1] eqn:E1.
  pose proof (read_ownership_facts _ _ _ E1) as (Hs1 & Hg1 & Hf1). pose proof (moves_same own_keys _ _ Hok Hs1 Hg1) as Hm1.
  destruct (own_known own) eqn:Ek; simpl; [|by intros [= <- <-]].
  pose proof (read_ownership_listed _ _ _ Hok E1 Ek) as Hl1. destruct (Hf1 eq_refl) as (_ & _ & Hcan). destruct (read_ownership_addrs _ _ _ E1 Ek) as [H4 H6].
  set (current := if bool_decide (own_iface own = "") then _ else _). unfold retire_owned.
  destruct (retire_each (distinct (own_stale own ++ current) []) w1) as [x w2] eqn:E2.
  apply (retire_each_facts json_pairs json_dumps s P) in E2 as (Hg2 & Hc2 & Hx); [|eauto|].
  2: { apply Forall_forall. intros q (Hq & Hq1 & Hq2 & _)%elem_of_distinct. split; [|done]. apply elem_of_app in Hq as [Hq|Hq]; [by apply Hcan|].
       unfold current in Hq. case_bool_decide; [by apply elem_of_nil in Hq|]. rewrite !elem_of_cons, elem_of_nil in Hq. destruct Hq as [-> |[-> |[]]]; auto. }
  pose proof (moves_calm own_keys _ _ Hg2 Hc2) as Hm2. destruct x as [e|[keep reasons]]; [intros [= <- <-]; go|].
  assert (listed keep w2) as L2.
  { intros i a Ho Hi. destruct (Hx _ _ eq_refl) as [_ Hk]. pose proof (proj1 (proj2 Hm2) i a Ho) as Ho1.
    destruct (Hl1 i a Ho1 Hi) as (Hr & Hc & [Hor|Hb]).
    - left. apply (Hk (i, a)); [|done]. destruct (iface_re_facts i Hr) as (? & _), (canonical_clean a Hc) as (? & _).
      apply elem_of_distinct. split_and!; [|done|done|by intros ?%elem_of_nil]. apply elem_of_app.
      destruct Hor as [|(Hoi & _ & Ho4)]; [by left|right]. unfold current. rewrite bool_decide_false, Hoi by congruence.
      destruct Ho4 as [-> | ->]; set_solver.
    - right. eapply beside_kept; [|exact Hb]. intros k _ Hk'. by apply Hm2. }
  destruct (record_ownership "" "" "" keep (own_retained own) w2) as [un w3] eqn:E3.
  apply record_ownership_facts in E3 as [Hm3 _]; [|eauto|done]. intros [= <- <-]. go.
Qed.

(** * Survivors *)

Definition surv_keys : list string := [SURVIVOR_KEY; journal_key SURVIVOR_KEY].

(** A pair that can be an entry of the ledger. *)
Definition sound_pair (p : string * string) : Prop :=
  p.1 <> "" /\ str_all (fun c => negb (is_space c)) p.1 = true /\ canonical p.2.

Lemma sound_entry p : sound_pair p -> words (entry_of p) = [p.1; p.2].
Proof. destruct p as [i a]. intros (Hi & Hs & Ha). destruct (canonical_clean a Ha) as (? & ? & _). by apply words_pair. Qed.

Lemma survivor_entry_own i a : iface_re i = true -> canonical a -> survivor_entry i a (entry_of (i, a)).
Proof.
  intros Hi Ha. destruct (iface_re_facts i Hi) as (Hne & Hs & Hst). exists (i, a).
  split; [by apply entry_facts, sound_entry|]. simpl. rewrite Hst, bool_decide_false, Hi by done. simpl. by rewrite canonical_checked.
Qed.

Lemma sound_expected l p : Forall sound_pair l -> p ∈ l -> entry_of p ∈ expected (entry_of <$> l).
Proof.
  intros HF Hp. pose proof (sound_entry p (proj1 (Forall_forall _ _) HF p Hp)) as Hw. destruct p as [i a].
  destruct (entry_facts i a Hw) as (Hs & Hne & _). unfold expected. rewrite elem_of_uniq, list_elem_of_filter. split; [done|].
  apply list_elem_of_fmap. exists (entry_of (i, a)). split; [done|]. apply list_elem_of_fmap. by eexists.
Qed.

Lemma record_survivors_facts l w why w' : ok w -> Forall sound_pair l -> record_survivors l w = (why, w') ->
  (forall i a, owned (ker (w_now w)) i a -> i <> P -> survivor_tracks i a (w_now w) -> (i, a) ∈ l) ->
  moves surv_keys w w' /\ (why = "" -> forall i a, (i, a) ∈ l -> iface_re i = true -> survivor_tracks i a (w_now w')).
Proof.
  intros Hok HF E Hkeep. unfold record_survivors in E.
  assert (Forall one_line (entry_of <$> l)) as Hol.
  { apply Forall_fmap. eapply Forall_impl; [exact HF|]. intros [i a] Hp. by apply entry_facts, sound_entry. }
  assert (why = "" -> ledger SURVIVOR_KEY (w_now w') = Some (expected (entry_of <$> l))) as Hled by (intros ->; by eapply set_written).
  apply (ledger_goes json_pairs json_dumps s P WSurvivor) in E as [Hg Hf]; [|done|done|].
  - split; [by apply moves_frame|]. intros Hw i a Hp Hi. apply entries_l. intros es. simpl. rewrite Hled by done. intros [= <-].
    exists (entry_of (i, a)). split; [by apply sound_expected|]. apply survivor_entry_own; [done|]. by apply (proj1 (Forall_forall _ _) HF (i, a)).
  - intros i a Ho Hi Ht. left. exists (entry_of (i, a)). destruct Hok as [_ [Hs _]]. destruct (Hs i a Ho) as (_ & Hr & Hc & _).
    split; [apply sound_expected; [done|by apply Hkeep]|by apply survivor_entry_own].
Qed.

Lemma survivor_pairs_sound w r w' l : survivor_pairs w = (r, w') -> r = inr l ->
  Forall sound_pair l /\ forall i a, survivor_tracks i a (w_now w) -> (i, a) ∈ l.
Proof.
  intros (_ & _ & Hl)%survivor_pairs_facts Hr. destruct (Hl l Hr) as (_ & HC & Hcl & es & Hes & Hi). split.
  - apply Forall_forall. intros p Hp. split_and!; [by apply Hcl|by apply Hcl|by apply (proj1 (Forall_forall _ _) HC)].
  - intros i a Ht. apply Hi. unfold survivor_tracks, names_or_unknown in Ht. by rewrite Hes in Ht.
Qed.

Lemma drain_each_facts pairs links w keep w' : ok w -> Forall sound_pair pairs ->
  (forall i, links !! i = Some LinkAbsent -> forall a, ~ owned (ker (w_now w)) i a) ->
  drain_each pairs links w = (keep, w') ->
  goes w w' /\ calm w w' /\ keep ⊆ pairs /\ forall p, p ∈ pairs -> owned (ker (w_now w')) p.1 p.2 -> p ∈ keep.
Proof.
  intros Hok HF. revert links w keep w' Hok. induction HF as [|[i a] pairs Hp HF IH]; simpl; intros links w keep w' Hok Hlinks.
  { intros [= <- <-]. split_and!; [by apply goes_refl|done|done|set_solver]. }
  destruct Hp as (Hi & Hsp & Ha). simpl in *.
  set (probe := match links !! i with Some l => _ | None => _ end). destruct probe as [st w1] eqn:Ep.
  assert (goes w w1 /\ calm w w1 /\ (st = LinkAbsent -> forall b, ~ owned (ker (w_now w1)) i b)) as (Hg1 & Hc1 & Hst).
  { unfold probe in Ep. destruct (links !! i) as [l|] eqn:El.
    - injection Ep as <- <-. split_and!; [by apply goes_refl|done|]. intros ->. by apply Hlinks.
    - destruct (probe_link i w) as [[l d] w2] eqn:E2. injection Ep as <- <-.
      apply (probe_link_facts json_pairs json_dumps s P) in E2; [|done]. exact E2. }
  assert (forall w2, calm w1 w2 -> forall i0, <[i := st]> links !! i0 = Some LinkAbsent -> forall b, ~ owned (ker (w_now w2)) i0 b) as Hl2.
  { intros w2 Hc2 i0 Hi0 b Ho. apply Hc2 in Ho. destruct (decide (i = i0)) as [<-|Hne].
    - rewrite lookup_insert_eq in Hi0. injection Hi0 as ->. by apply (Hst eq_refl b).
    - rewrite lookup_insert_ne in Hi0 by done. apply Hc1 in Ho. by apply (Hlinks i0 Hi0 b). }
  assert (ok w1) as Hok1 by (by eapply goes_ok). case_bool_decide as Eab.
  - intros E. apply IH in E as (Hg & Hc & Hsub & Hin); [|done|by apply Hl2]. split_and!; [by eapply goes_trans|by etrans|set_solver|].
    intros p [-> | Hp]%elem_of_cons Ho; [|auto]. exfalso. apply Hc in Ho. by apply (Hst Eab a).
  - destruct (probe_addr i a w1) as [ans w2] eqn:E2.
    apply (probe_addr_facts json_pairs json_dumps s P) in E2 as (Hg2 & Hc2 & Hgone); [|done|done].
    destruct (drain_each pairs _ w2) as [k w3] eqn:E3. apply IH in E3 as (Hg & Hc & Hsub & Hin); [|by eapply goes_ok|by apply Hl2].
    intros [= <- <-]. split; [by eapply goes_trans; [|eapply goes_trans]|]. split; [by etrans; [|etrans]|].
    case_bool_decide as Ea.
    + split; [set_solver|]. intros p [-> | Hp]%elem_of_cons Ho; [|auto]. exfalso. apply Hc in Ho. by apply (Hgone Ea).
    + split; [set_solver|]. intros p [-> | Hp]%elem_of_cons Ho; [left|right; auto].
Qed.

Lemma drain_facts w r w' : ok w -> drain_enforcement_cover w = (r, w') -> moves surv_keys w w'.
Proof.
  intros Hok. unfold drain_enforcement_cover. destruct (survivor_pairs w) as [x w1] eqn:E1.
  pose proof (survivor_pairs_facts _ _ _ E1) as (Hs & Hg & _). pose proof (moves_same surv_keys _ _ Hok Hs Hg) as Hm1.
  destruct x as [e|pairs]; [by intros [= <- <-]|]. destruct (survivor_pairs_sound _ _ _ _ E1 eq_refl) as [HF Hin].
  destruct pairs as [|q qs]; [by intros [= <- <-]|]. set (pairs := q :: qs) in *. clearbody pairs. clear q qs.
  destruct (drain_each pairs ∅ w1) as [keep w2] eqn:E2. apply drain_each_facts in E2 as (Hg2 & Hc2 & Hsub & Hk); [|eauto|done|intros i; by rewrite lookup_empty].
  pose proof (moves_calm surv_keys _ _ Hg2 Hc2) as Hm2. case_bool_decide; [intros [= <- <-]; go|].
  destruct (record_survivors keep w2) as [why w3] eqn:E3. apply record_survivors_facts in E3 as [Hm3 _]; [intros [= <- <-]; go|eauto| |].
  - apply Forall_forall. intros p Hp. by apply (proj1 (Forall_forall _ _) HF), Hsub.
  - intros i a Ho Hi Ht. apply (Hk (i, a)); [|done]. apply Hin. destruct Hs as (Hn & _). rewrite <- Hn.
    eapply names_kept; [..|exact Ht]; symmetry; by apply calm_held.
Qed.
End steps.
