(* ===== verification/Provision.v ===== *)
(** The candidate undo and the provisioning pass of [net_control/provision.py] (lines
    2879-4154): the record of what a network change may put on the host, its undo, and
    [host_provision], which brings the segment up in the order the code insists on.

    [has_dnsmasq] and [has_pd] say whether the state object carries those services. *)
From Stdlib Require Import ZArith Lia Ascii.
From stdpp Require Import base gmap strings list.
From S2P Require Import Prelude PyStr Ip IpText Models Json Config Store Plan Enforcement Records Ledgers Host Segment.
Open Scope string_scope.
Open Scope list_scope.
Open Scope Z_scope.

(** A settings flag of a request: a bool or text. *)
Inductive flag_val := FlagBool (b : bool) | FlagText (t : string).
Definition flag_truthy (v : flag_val) : bool :=
  match v with
  | FlagBool b => b
  | FlagText t => bool_decide (lower (strip t) ∈ ["1"; "true"; "yes"; "on"])
  end.

(** The incoming values a network change names; [None] when the request leaves one out. *)
Record net_change := NetChange {
  ch_manage : option (option flag_val);
  ch_iface : option string;
  ch_ip : option string;
  ch_ip6 : option string;
  ch_ipv6 : option flag_val
}.

(** [UndoOutcome] *)
Record undo_outcome := Undo { un_actions : list string; un_unresolved : list string }.
Definition undo_merge (a b : undo_outcome) : undo_outcome :=
  Undo (un_actions a ++ un_actions b) (un_unresolved a ++ un_unresolved b).
Definition nothing : undo_outcome := Undo [] [].
Definition acted (reason : string) : undo_outcome := Undo [reason] [].
Definition stuck (reason : string) : undo_outcome := Undo [reason] [reason].

Definition RESOLVED : json := JObj [("resolved", JBool true)].

Section provision.
Context `{Kernel K}.
Context (json_pairs : string -> string + json).
Context (json_dumps : json -> string).
Context (s : settings).
Context (running : bool).
Context (rand rand_fallback : list Z).
Context (has_dnsmasq has_pd : bool).
Implicit Types (w : world (backend K)).
Notation world := (world (backend K)).

(** * The candidate *)

Definition read_managed_state w : (list string * (string * string * string)) * world :=
  let '(r1, w) := read_record IFACE_KEY w in
  let '(r2, w) := read_record ADDR4_KEY w in
  let '(r3, w) := read_record ADDR6_KEY w in
  (match rec_text r1, rec_text r2, rec_text r3 with
   | inr t1, inr t2, inr t3 =>
       match checked_names [t1] with
       | inl e => ([e], ("", "", ""))
       | inr named => ([], (default "" (head named), t2, t3))
       end
   | _, _, _ => (reason_of <$> filter (fun r => known r = false) [r1; r2; r3], ("", "", ""))
   end, w).

Definition candidate_link_probe (iface : string) w : (link_state * string) * world :=
  if negb (b_seam (the_backend w)) then ((LinkUnknown, "the net backend has no host seam"), w)
  else if bool_decide (iface = "") then ((LinkUnknown, "no interface"), w)
  else probe_link iface w.

Definition projected_manage_segment (c : net_change) w : (string + bool) * world :=
  let! raw, w := match ch_manage c with
                 | Some raw => (inr raw, w)
                 | None => let! v, w := setting "manage_segment" w in (inr (FlagText <$> v), w)
                 end in
  (inr (match raw with
        | None => true
        | Some (FlagText t) => if bool_decide (strip t = "") then true else flag_truthy (FlagText t)
        | Some v => flag_truthy v
        end), w).

(** [None]: the change puts nothing on the host ([{}]). *)
Definition provision_candidate (c : net_change) w : (string + option json) * world :=
  if negb (b_seam (the_backend w)) then (inr None, w)
  else
    let! manage, w := projected_manage_segment c w in
    if negb manage then (inr None, w)
    else
      let! p, w := plan_from_store s w in
      let iface := ch_iface c or np_segment_iface p in
      let ip := ch_ip c or np_segment_ip p in
      let ip6 := default (np_segment_ip6 p) (ch_ip6 c) in
      let ipv6_on := from_option flag_truthy (np_ipv6_enabled p) (ch_ipv6 c) in
      let '((state, _), w) := candidate_link_probe iface w in
      (inr (Some (JObj [("iface", JStr iface);
                        ("addr4", JStr (if bool_decide (ip = "") then "" else ip +:+ "/24"));
                        ("addr6", JStr (if ipv6_on then default "" (host_addr6 ip6) else ""));
                        ("vlan", JBool (bool_decide (is_Some (parse_vlan iface).2)));
                        ("link_state", JStr (state_name state))])), w).

Definition set_if_present (k v : string) (j : json) : json :=
  match jget k j with Some _ => jset k (JStr v) j | None => j end.
Definition record_provision_candidate (rec : option json) w : (string + unit) * world :=
  match rec with
  | None | Some (JObj []) => (inr tt, w)
  | Some rec =>
      match checked_candidate rec with
      | inl e => (inl ("the host-provisioning undo record would not be readable as one the panel wrote, so the change was not applied: " +:+ e), w)
      | inr proven =>
          let stored := set_if_present "addr6" (ca_addr6 proven) (set_if_present "addr4" (ca_addr4 proven) rec) in
          match write_record PROVISION_UNDO_KEY (json_dumps stored) w with
          | ("", w) => (inr tt, w)
          | (why, w) => (inl ("the host-provisioning undo record could not be written, so the change was not applied: " +:+ why), w)
          end
      end
  end.

Definition clear_provision_candidate w : string * world := clear_record PROVISION_UNDO_KEY (json_dumps RESOLVED) w.

(** * The undo *)

Definition vlan_claim (c : candidate) : bool * string :=
  if negb (ca_vlan c) then (false, "")
  else if bool_decide (is_Some (parse_vlan (ca_iface c)).2) then (true, "")
  else (false, "the candidate link " +:+ ca_iface c +:+ " was left on the host: the record says the panel created it as a VLAN and " +:+
               repr (ca_iface c) +:+ " is not a VLAN interface name, so the two halves of the record disagree").

Definition is_other_than_restored (iface restored : string) : bool * string :=
  match checked_names [restored] with
  | inl e => (false, e)
  | inr names => (negb (bool_decide (iface = default "" (head names))), "")
  end.

Definition undo_candidate_link (c : candidate) (restored : string) w : (undo_outcome * bool) * world :=
  let iface := ca_iface c in
  if bool_decide (iface = "") then ((nothing, false), w)
  else
    let '(other, unaskable) := is_other_than_restored iface restored in
    if negb (bool_decide (unaskable = "")) then
      ((stuck ("the candidate link " +:+ iface +:+ " was left on the host: the panel's record of the segment it went back to is not an interface name, so nothing can show " +:+
               iface +:+ " is not the interface now in service (" +:+ unaskable +:+ ")"), false), w)
    else if negb other then ((nothing, false), w)
    else
      let '(claimed, unreadable) := vlan_claim c in
      if negb (bool_decide (unreadable = "")) then ((stuck unreadable, false), w)
      else if negb claimed then ((nothing, false), w)
      else
        let '((now, why), w) := candidate_link_probe iface w in
        if bool_decide (now = LinkAbsent) then ((nothing, false), w)
        else if negb (bool_decide (ca_prior c = LinkAbsent)) then
          ((acted ("the candidate link " +:+ iface +:+ " was left on the host: the panel cannot prove it created it (its state before the change was " +:+
                   (if bool_decide (ca_prior c = LinkUnknown) then "never probed" else state_name (ca_prior c)) +:+ ")"), false), w)
        else if bool_decide (now = LinkUnknown) then
          ((stuck ("could not tell whether the orphaned candidate link " +:+ iface +:+ " is still on the host (" +:+
                   (Some why or "no answer from ip link show") +:+ "); it was left in place"), false), w)
        else match exec_ (del_link iface) w with
             | (inl exc, w) => ((stuck ("removing the orphaned candidate link " +:+ iface +:+ " failed: " +:+ exc), false), w)
             | (inr _, w) => ((acted ("removed the orphaned candidate link " +:+ iface), true), w)
             end.

(** [restored] is the interface and addresses of the ownership records. *)
Definition orphan_pairs (c : candidate) (installed : option candidate) (restored : string * string * string) : list (string * string) :=
  let '(riface, r4, r6) := restored in
  let spellings a := (riface, a) :: match addr_token a with Some f => [(riface, with_prefixlen f)] | None => [] end in
  let named := match installed with Some i => [(ca_iface i, ca_addr4 i); (ca_iface i, ca_addr6 i)] | None => [] end in
  distinct (named ++ [(ca_iface c, ca_addr4 c); (ca_iface c, ca_addr6 c)]) (spellings r4 ++ spellings r6).

Definition orphan_text (iface : string) (addrs : list string) : string :=
  "addresses from the rolled-back change were left in place on " +:+ iface +:+ ": " +:+ join ", " addrs +:+
  ". The panel deliberately does not delete addresses when a change is undone — it cannot prove which of them it installed, and one it did not install is the address this gateway is reached on. Check `ip addr show dev " +:+ iface +:+ "` and remove by hand any this change added.".
Definition report_orphan_addrs (pairs : list (string * string)) : undo_outcome :=
  Undo ((fun i => orphan_text i (filter (fun p : string * string => p.1 = i) pairs).*2) <$> uniq pairs.*1) [].

Definition undo_provision_candidate (c installed : handed) w : undo_outcome * world :=
  if negb (b_seam (the_backend w)) then (nothing, w)
  else
    match (let? d := as_candidate c in
           match d with
           | None => inr None
           | Some d => let? i := as_candidate installed in inr (Some (d, i))
           end) with
    | inl e => (stuck ("the record of what a rolled-back change may have put on the host is not the record the panel writes, so nothing was removed and nothing was recorded; the undo stays pending and the enforcement keeps covering what it names: " +:+ e), w)
    | inr None => (nothing, w)
    | inr (Some (d, supplied)) =>
        let '((unreadable, restored), w) := read_managed_state w in
        if negb (bool_decide (unreadable = [])) then
          (stuck ("the panel's record of the segment it went back to could not be read, so the host state a rolled-back change left behind was neither removed nor recorded; the undo stays pending and the enforcement keeps covering " +:+
                  (Some (ca_iface d) or "the candidate") +:+ ": " +:+ join "; " unreadable), w)
        else
          let '((out, deleted), w) := undo_candidate_link d restored.1.1 w in
          if deleted then (out, forget_survivors (ca_iface d) w)
          else
            let surviving := orphan_pairs d supplied restored in
            let out := undo_merge out (report_orphan_addrs surviving) in
            let '(kept, w) := remember_survivors surviving w in
            if kept then (out, w)
            else (undo_merge out (stuck ("the interfaces a rolled-back change may have left carrying the segment could not be recorded (" +:+
                    join ", " (stable_sort (fun a b => String.leb a b) (uniq surviving.*1)) +:+
                    "); the undo stays pending so a later pass can record them, and the enforcement covers them from that record until it does")), w)
    end.

Definition resume_pending_provision_undo w : undo_outcome * world :=
  let '(p, w) := pending_candidate json_pairs json_dumps w in
  if negb (bool_decide (pe_unusable p = "")) then (nothing, (clear_provision_candidate w).2)
  else match pe_candidate p with
       | None => (nothing, w)
       | Some c =>
           let '(out, w) := undo_provision_candidate (HandedCandidate c) HandedNone w in
           if bool_decide (un_unresolved out = []) then (out, (clear_provision_candidate w).2) else (out, w)
       end.

(** * Enforcement *)

Definition apply_enforcement (p : plan) w : string * world :=
  let '(r, x) := @sync_net_plan _ (backend_host json_pairs json_dumps (m_odd (w_now w)) (w_faults w))
                   running p (m_db (w_now w)) (m_net (w_now w)) in
  (if nr_ok r then "" else Some (nr_error r) or "the segment enforcement could not be applied", put_net x w).

(** [controller.sync_net]; it reads the cover unless the rules are to be torn down. *)
Definition sync_net_here w : (string + net_result) * world :=
  let d := m_db (w_now w) in
  let '(r, x) := @sync_net _ (backend_host json_pairs json_dumps (m_odd (w_now w)) (w_faults w)) s running d (m_net (w_now w)) in
  let faults := match enforcement_mode running d with
                | ModeTeardown => w_faults w
                | _ => w_faults (enforcement_cover json_pairs json_dumps (np_segment_iface (from_store d s)) w).2
                end in
  (r, put_net x (World (w_now w) faults (w_result w) (w_past w))).

Definition hand_back_from_emergency_deny w : string * world :=
  if bool_decide (enforcement_fallback_note (the_backend w) = "") then ("", w)
  else
    let '(r, w) := sync_net_here w in
    let applied := match r with inl exc => net_failed exc | inr r => r end in
    if negb (nr_ok applied) then
      ("forwarded traffic is still being dropped by the emergency deny, because the panel's own segment enforcement still could not be installed: " +:+
       (Some (nr_error applied) or "no reason given"), w)
    else let '(why, b) := release_emergency_forward_deny (the_backend w) in (why, put_backend b w).

(** * The pass *)

Definition set_result (r : net_result) w : net_result * world := (r, World (w_now w) (w_faults w) (Some r) (w_past w)).

Definition clear_pd_prefix w : list string * world :=
  match write_record "pd_segment_prefix6" "" w with
  | ("", w) => ([], w)
  | (why, w) => (["the recorded delegated IPv6 prefix could not be cleared, so a later pass may install a /64 that is no longer delegated: " +:+ why], w)
  end.

Definition provision_result (links addrs : list string) (applied : bool) (enforcement : string) (records : list string) : net_result :=
  let parts :=
    (if bool_decide (links = []) then [] else ["panel-created VLAN link not removed: " +:+ join "; " links]) ++
    (if bool_decide (records = []) then [] else ["durable record not written: " +:+ join "; " records]) ++
    (if bool_decide (enforcement = "") then [] else ["segment enforcement not narrowed: " +:+ enforcement]) ++
    (if negb applied then ["segment addresses not applied: " +:+ (Some (join "; " addrs) or "no reason given")]
     else if bool_decide (addrs = []) then [] else ["panel-owned address not removed: " +:+ join "; " addrs]) in
  if bool_decide (parts = []) then net_fine else net_failed (join "; " parts).

Definition manage_dnsmasq w : (string + bool) * world :=
  let! v, w := setting "manage_dnsmasq" w in (inr (bool_decide (v or "1" = "1")), w).

(** Step 6: dnsmasq is pointed at the segment, or stopped. *)
Definition step_dnsmasq (p : plan) w : (string + unit) * world :=
  if negb has_dnsmasq then (inr tt, w)
  else let! m, w := manage_dnsmasq w in serve_ (if m then DnsmasqApply p else DnsmasqStop) w.

Definition is_auto w : (string + bool) * world :=
  let! v, w := setting "segment_ip6" w in (inr (bool_decide (lower (strip (v or "")) = "auto")), w).

(** The end of the pass: the DHCPv6 client, and whether it is to be stopped. *)
Definition step_pd (p : plan) w : (string + (bool * list string)) * world :=
  let! auto_pd, w := if np_ipv6_enabled p then is_auto w else (inr false, w) in
  if negb has_pd then (inr (false, []), w)
  else if auto_pd then
    let! _, w := serve_ PdSetCallback w in
    let! _, w := serve_ PdStart w in (inr (false, []), w)
  else let '(records, w) := clear_pd_prefix w in (inr (true, records), w).

(** Step 7: back to the configured interface alone, once nothing else can be carrying the segment. *)
Definition step_narrow (p : plan) (moved : bool) w : string * world :=
  let iface := np_segment_iface p in
  let '(managed, w) := superseded_state iface w in
  let '(remaining, w) := enforcement_cover json_pairs json_dumps iface w in
  let w := if moved && may_narrow managed then ensure_nm_unmanaged iface [] w else w in
  if moved && may_narrow remaining then apply_enforcement p w
  else if moved && negb (cover_known remaining) then
    ("the enforcement was left covering every interface it already named, because the panel could not prove nothing else is still carrying the segment: " +:+ cover_why remaining, w)
  else ("", w).

(** Everything after the staging of the enforcement. *)
Definition step_move (p : plan) (moving : list string) w : (string + (net_result * bool)) * world :=
  let iface := np_segment_iface p in
  let! addrs, w := reconcile_segment_addresses p w in
  if negb (ao_applied addrs) then
    let '(r, w) := set_result (provision_result [] (ao_reasons addrs) false "" []) w in (inr (r, false), w)
  else
    let w := ensure_nm_unmanaged iface moving w in
    let! _, w := activate_segment_link p w in
    let! _, w := step_dnsmasq p w in
    let '(link_failures, w) := retire_superseded_links p w in
    let '(narrow, w) := step_narrow p (negb (bool_decide (moving = []))) w in
    let! sr, w := step_pd p w in
    let '(r, w) := set_result (provision_result link_failures (ao_reasons addrs) true narrow sr.2) w in
    (inr (r, sr.1), w).

Definition decline (reason : string) w : (string + (net_result * bool)) * world :=
  let '(r, w) := set_result (provision_result [] [reason] false "" []) w in (inr (r, false), w).

Definition pass_plan w : (string + plan) * world :=
  let! _, w := ensure_segment_prefix6 s rand w in
  let! p, w := plan_from_store s w in
  let! ip6, w := effective_segment_prefix6 s rand rand_fallback None w in
  (inr (with_ip6 p ip6), w).

Definition provision_segment w : (string + (net_result * bool)) * world :=
  let w := ensure_sysctls s w in
  let! p, w := pass_plan w in
  let iface := np_segment_iface p in
  let '(superseded, w) := superseded_state iface w in
  let '(cov, w) := enforcement_cover json_pairs json_dumps iface w in
  if negb (cover_known superseded) then
    decline ("the panel could not read which interfaces may still be holding a segment address, so nothing was configured for " +:+ iface +:+ ": " +:+ cover_why superseded) w
  else
    let! _, w := ensure_segment_link p w in
    if bool_decide (cv_names superseded = []) then step_move p [] w
    else if negb (cover_known cov) then
      decline ("the enforcement could not be staged over every interface that may be carrying the segment, so it was not moved to " +:+ iface +:+ ": " +:+ cover_why cov) w
    else
      match apply_enforcement (covering_plan p (cv_names cov)) w with
      | ("", w) => step_move p (cv_names superseded) w
      | (staged, w) =>
          decline ("the enforcement covering " +:+ join ", " (cv_names cov) +:+ " and " +:+ iface +:+ " could not be installed, so the segment was not moved: " +:+ staged) w
      end.

(** Segment management switched off: what the panel owns is removed. *)
Definition unmanage w : (string + net_result) * world :=
  let '(records, w) := clear_pd_prefix w in
  let! _, w := if has_dnsmasq then serve_ DnsmasqStop w else (inr tt, w) in
  let! addr_failures, w := clear_managed_addresses w in
  let '(link_failures, w) := clear_managed_link w in
  let w := remove_nm_unmanaged w in
  let '(r, w) := set_result (provision_result link_failures addr_failures true "" records) w in (inr r, w).

Definition stop_pd w : world :=
  let '(a, w) := serve PdStop w in
  match a with ServiceRaised _ => w | _ => (serve PdClearState w).2 end.

(** The body under the lock: the result, and whether the DHCPv6 client is to be stopped. *)
Definition pass w : (net_result * bool) * world :=
  let '(_, w) := drain_enforcement_cover w in
  let '(m, w) := setting "manage_segment" w in
  match m with
  | inl e => let '(r, w) := set_result (net_failed e) w in ((r, false), w)
  | inr m =>
      if bool_decide (m or "1" = "1") then
        match provision_segment w with
        | (inr rs, w) => (rs, w)
        | (inl e, w) => let '(r, w) := set_result (net_failed e) w in ((r, false), w)
        end
      else
        match unmanage w with
        | (inr r, w) => ((r, true), w)
        | (inl e, w) => let '(r, w) := set_result (net_failed e) w in ((r, true), w)
        end
  end.

Definition host_provision w : net_result * world :=
  if negb (b_seam (the_backend w)) then set_result net_fine w
  else
    let '((r, stop), w) := pass w in
    let '(_, w) := read_ownership w in
    let '(held, w) := hand_back_from_emergency_deny w in
    let '(r, w) := if bool_decide (held = "") then (r, w)
                   else set_result (net_failed (join "; " (filter (fun p => p <> "") [nr_error r; held]))) w in
    (r, if stop && has_pd then stop_pd w else w).

(** * The delegated prefix *)

(** The addresses, the record of the prefix and dnsmasq, on the plan with the prefix in it. *)
Definition pd_apply (selected : option string) (p : plan) w : (string + net_result) * world :=
  let! addrs, w := reconcile_segment_addresses p w in
  if negb (ao_applied addrs) then (inr (provision_result [] (ao_reasons addrs) false "" []), w)
  else
    let '(records, w) := match selected with
      | None | Some "" => clear_pd_prefix w
      | Some pre =>
          let '(why, w) := write_record "pd_segment_prefix6" pre w in
          (if bool_decide (why = "") then []
           else ["the delegated IPv6 prefix is on the segment but could not be recorded, so a later pass will install the fallback instead: " +:+ why], w)
      end in
    let '((up, why), w) := probe_iface_up (np_segment_iface p) w in
    match up with
    | LinkUp =>
        let! _, w := if has_dnsmasq then
                       let! m, w := manage_dnsmasq w in if m then serve_ (DnsmasqApply p) w else (inr tt, w)
                     else (inr tt, w) in
        (inr (provision_result [] (ao_reasons addrs) true "" records), w)
    | _ =>
        let settled := nr_error (provision_result [] (ao_reasons addrs) true "" records) in
        let reason := "the delegated prefix is on " +:+ np_segment_iface p +:+ ", but the interface is not up (" +:+
          (Some why or (match up with LinkDown => "down" | _ => "unknown" end)) +:+
          "), so nothing keyed to it was configured; a full provisioning pass has to finish the interface change that left it down" in
        (inr (net_failed (join "; " (filter (fun t => t <> "") [settled; reason]))), w)
    end.

(** [derived] is [derive_segment_prefix(delegated, vid)]. *)
Definition pd_changed (delegated : option string) (derived : string -> Z -> option string) w : (string + unit) * world :=
  let! m, w := setting "manage_segment" w in
  if negb (bool_decide (m or "1" = "1")) then (inr tt, w)
  else let! on, w := setting "ipv6_enabled" w in
  if negb (bool_decide (on or "0" = "1")) then (inr tt, w)
  else let! auto, w := is_auto w in
  if negb auto then (inr tt, w)
  else let! vid, w := vlan_of_segment s w in
  let selected := match delegated with Some "" | None => None | Some d => derived d vid end in
  if truthy delegated && bool_decide (selected = None) then (inr tt, w)
  else
    match (let! p, w := plan_from_store s w in
           let! ip6, w := effective_segment_prefix6 s rand rand_fallback (Some (default "" selected)) w in
           pd_apply selected (with_ip6 p ip6) w) with
    | (inl e, w) => (inl e, (set_result (net_failed ("PD prefix apply failed: " +:+ e)) w).2)
    | (inr r, w) => (inr tt, (set_result r w).2)
    end.

End provision.
