(* ===== verification/ProvisionFacts.v ===== *)
(** Every step of [host_provision] keeps the segment covered, and so does the whole pass. *)
From Stdlib Require Import ZArith Lia Ascii.
From stdpp Require Import base gmap strings list.
From S2P Require Import Prelude PyStr Ip IpText Models Json Store Config Plan Enforcement Records RecordsFacts Ledgers LedgersFacts Host Segment SegmentFacts SegmentSteps Provision.
Open Scope string_scope.
Open Scope list_scope.

Section pass.
Context `{KernelSpec K}.
Context (json_pairs : string -> string + json).
Context (json_dumps : json -> string).
Context (s : settings).
Context (running : bool).
Context (rand rand_fallback : list Z).
Context (has_dnsmasq has_pd : bool).
Context (P : string).
Context (HP : iface_re P = true).
Implicit Types (w : world (backend K)) (m : moment (backend K)).
Notation ok := (ok json_pairs json_dumps s P).
Notation goes := (goes json_pairs json_dumps s P).
Notation moves := (moves json_pairs json_dumps s P).
Notation tracked := (tracked json_pairs json_dumps).
#[local] Hint Resolve moves_ok moves_refl moves_goes goes_ok goes_refl : core.

(** * Settings, services and the prefix *)

Definition prefix_keys : list string := ["segment_ip6"; "ula_prefix6"; "pd_segment_prefix6"].

Lemma setting_facts k w r w' : setting k w = (r, w') -> same w w' /\ (no_garble w -> no_garble w').
Proof.
  unfold setting, store_read. simpl. intros [= <- <-]. split; [done|]. unfold no_garble. simpl. apply faults_tail.
Qed.
Lemma plan_facts w r w' : plan_from_store s w = (r, w') ->
  same w w' /\ (no_garble w -> no_garble w') /\ forall p, r = inr p -> p = from_store (m_db (w_now w)) s.
Proof.
  unfold plan_from_store. simpl. intros [= <- <-]. split_and!; [done|unfold no_garble; simpl; apply faults_tail|].
  destruct (f_raise _); [done|]. by intros p [= <-].
Qed.

Lemma setting_moves ks k w r w' : ok w -> setting k w = (r, w') -> moves ks w w'.
Proof. intros Hok [? ?]%setting_facts. by apply moves_same. Qed.

Lemma inert_write k v w e w' : k ∈ prefix_keys -> ok w -> write_record k v w = (e, w') -> moves prefix_keys w w'.
Proof.
  intros Hk Hok E. unfold write_record in E. pose proof (verified_write_frame _ _ _ _ _ _ E) as Tf.
  pose proof (proj1 (proj2 (verified_write_facts _ _ _ _ _ _ E))) as Hg.
  assert (Forall (fun k => k ∉ track_keys /\ k ∉ steady_keys) prefix_keys) as HF.
  { repeat (constructor; [split; apply (bool_decide_unpack _); by vm_compute|]). constructor. }
  eapply moves_mono with (ks := [k]); [exact HP|set_solver|]. apply moves_frame; [|exact (through_now _ _ _ Tf)].
  eapply goes_frame; [done| |exact Hg|exact Tf]. intros k' ->%list_elem_of_singleton. by apply (proj1 (Forall_forall _ _) HF).
Qed.

(** Chains [moves] along a sequence of steps. *)
Ltac go := repeat first [eassumption | eapply moves_trans; [eassumption|]].

Lemma record_prefix_facts k prefix what w r w' : k ∈ prefix_keys -> ok w -> record_generated_prefix k prefix what w = (r, w') ->
  moves prefix_keys w w'.
Proof.
  intros Hk Hok. unfold record_generated_prefix. destruct (write_record k prefix w) as [why w1] eqn:E.
  apply inert_write in E; [|done|done]. by destruct why; intros [= <- <-].
Qed.

Lemma vlan_facts w r w' : ok w -> vlan_of_segment s w = (r, w') -> moves prefix_keys w w'.
Proof.
  intros Hok. unfold vlan_of_segment. destruct (setting "segment_iface" w) as [x w1] eqn:E.
  apply (setting_moves prefix_keys) in E; [|done]. by destruct x; intros [= <- <-].
Qed.

(** Runs the settings reads of a step. *)
Ltac reads :=
  repeat match goal with
  | |- context [setting ?k ?w] =>
      let x := fresh "x" in let w1 := fresh "w" in let E := fresh "E" in
      destruct (setting k w) as [x w1] eqn:E; apply (setting_moves prefix_keys) in E; [|by eauto];
      destruct x as [?|?]; [intros [= <- <-]; go|]
  | |- context [vlan_of_segment s ?w] =>
      let x := fresh "x" in let w1 := fresh "w" in let E := fresh "E" in
      destruct (vlan_of_segment s w) as [x w1] eqn:E; apply vlan_facts in E; [|by eauto];
      destruct x as [?|?]; [intros [= <- <-]; go|]
  end.

Lemma ensure_prefix_facts w r w' : ok w -> ensure_segment_prefix6 s rand w = (r, w') -> moves prefix_keys w w'.
Proof.
  intros Hok. unfold ensure_segment_prefix6. reads. destruct (_ || _); [intros [= <- <-]; go|]. reads.
  intros E'%record_prefix_facts; [go|unfold prefix_keys; set_solver|eauto].
Qed.

Lemma effective_prefix_facts delegated w r w' : ok w -> effective_segment_prefix6 s rand rand_fallback delegated w = (r, w') ->
  moves prefix_keys w w'.
Proof.
  intros Hok. unfold effective_segment_prefix6. reads. destruct (negb _); [intros [= <- <-]; go|]. reads.
  destruct (negb _); [intros E'%ensure_prefix_facts; [go|eauto]|].
  match goal with |- context [match ?e with (_, _) => _ end] => set (del := e); destruct del as [d w2] eqn:Ed end.
  assert (moves prefix_keys w1 w2) as Hm.
  { unfold del in Ed. destruct delegated as [d'|]; [injection Ed as <- <-; eauto|].
    pose proof (read_keeps_faults "pd_segment_prefix6" w1) as Hg. destruct (read_record "pd_segment_prefix6" w1) as [rc w3] eqn:Er.
    apply read_record_facts in Er as [Hs _]. injection Ed as <- <-. apply moves_same; eauto. }
  destruct d as [e|d]; [intros [= <- <-]; go|]. destruct (host_addr6 _); [intros [= <- <-]; go|]. reads.
  destruct (host_addr6 _); [intros [= <- <-]; go|]. reads. intros E'%record_prefix_facts; [go|unfold prefix_keys; set_solver|eauto].
Qed.

Lemma serve_moves ks x w r w' : ok w -> serve x w = (r, w') -> moves ks w w'.
Proof. intros Hok E. apply (serve_facts json_pairs json_dumps s P) in E as [? ?]; [|done]. by apply moves_calm. Qed.
Lemma serve__moves ks x w r w' : ok w -> serve_ x w = (r, w') -> moves ks w w'.
Proof. intros Hok E. apply (serve__facts json_pairs json_dumps s P) in E as [? ?]; [|done]. by apply moves_calm. Qed.
Lemma exec_moves ks argv w r w' : ok w -> exec argv w = (r, w') -> panel_cmd argv None ->
  (forall i t v6, argv <> replace_addr i t v6) -> moves ks w w'.
Proof. intros Hok E Hc Hn. apply (exec_facts json_pairs json_dumps s P) in E as (? & ? & _); [|done..]. by apply moves_calm. Qed.

Lemma sysctls_facts ks w : ok w -> moves ks w (ensure_sysctls s w).
Proof.
  intros Hok. unfold ensure_sysctls. destruct (serve _ w) as [r1 w1] eqn:E1. apply (serve_moves ks) in E1; [|done].
  destruct (serve _ w1) as [r2 w2] eqn:E2. apply (serve_moves ks) in E2; [|eauto].
  destruct (serve _ w2) as [r3 w3] eqn:E3. apply (serve_moves ks) in E3; [|eauto]. simpl. go.
Qed.

Lemma nm_reload_facts ks w : ok w -> moves ks w (nm_reload w).
Proof.
  intros Hok. unfold nm_reload. destruct (exec _ w) as [r1 w1] eqn:E1. apply (exec_moves ks) in E1; [|done|ip_cmd|no_replace].
  destruct r1; [|done..]. destruct (exec _ w1) as [r2 w2] eqn:E2. apply (exec_moves ks) in E2; [|eauto|ip_cmd|no_replace]. simpl. go.
Qed.
Lemma nm_unmanaged_facts ks seg also w : ok w -> moves ks w (ensure_nm_unmanaged seg also w).
Proof.
  intros Hok. unfold ensure_nm_unmanaged. destruct (serve _ w) as [r1 w1] eqn:E1. apply (serve_moves ks) in E1; [|done].
  eapply moves_trans; [exact E1|]. apply nm_reload_facts. eauto.
Qed.
Lemma remove_nm_facts ks w : ok w -> moves ks w (remove_nm_unmanaged w).
Proof.
  intros Hok. unfold remove_nm_unmanaged. destruct (serve _ w) as [r1 w1] eqn:E1. apply (serve_moves ks) in E1; [|done]. simpl.
  eapply moves_trans; [exact E1|]. apply nm_reload_facts. eauto.
Qed.

Lemma activate_facts p w r w' : ok w -> activate_segment_link p w = (r, w') -> goes w w'.
Proof.
  intros Hok E. apply (exec__facts json_pairs json_dumps s P) in E as [? _]; [done|done|ip_cmd|no_replace].
Qed.

Lemma set_result_facts r w x w' : ok w -> set_result r w = (x, w') -> goes w w' /\ w_now w' = w_now w.
Proof. intros [Hg Hk] [= <- <-]. split; [|done]. split; [done|]. exists []. split; [done|]. split; [constructor|exact Hk]. Qed.

Lemma clear_pd_facts w r w' : ok w -> clear_pd_prefix w = (r, w') -> moves prefix_keys w w'.
Proof.
  intros Hok. unfold clear_pd_prefix. destruct (write_record _ _ w) as [why w1] eqn:E.
  apply inert_write in E; [|unfold prefix_keys; set_solver|done]. by destruct why; intros [= <- <-].
Qed.

Lemma dnsmasq_facts p w r w' : ok w -> step_dnsmasq has_dnsmasq p w = (r, w') -> goes w w'.
Proof.
  intros Hok E. eapply moves_goes with (ks := prefix_keys). revert E. unfold step_dnsmasq, manage_dnsmasq.
  destruct (negb _); [intros [= <- <-]; eauto|]. reads. intros E'%(serve__moves prefix_keys); [go|eauto].
Qed.

Lemma is_auto_facts w r w' : ok w -> is_auto w = (r, w') -> moves prefix_keys w w'.
Proof. intros Hok. unfold is_auto. reads. intros [= <- <-]. go. Qed.

Lemma step_pd_facts p w r w' : ok w -> step_pd has_pd p w = (r, w') -> goes w w'.
Proof.
  intros Hok E. eapply moves_goes with (ks := prefix_keys). revert E. unfold step_pd.
  match goal with |- context [if np_ipv6_enabled p then ?a else ?b] => set (au := if np_ipv6_enabled p then a else b); destruct au as [x w1] eqn:Ea end.
  assert (moves prefix_keys w w1) as Hm.
  { unfold au in Ea. destruct (np_ipv6_enabled p); [by eapply is_auto_facts|]. injection Ea as <- <-. eauto. }
  destruct x as [e|a]; [intros [= <- <-]; go|]. destruct (negb has_pd); [intros [= <- <-]; go|]. destruct a.
  - destruct (serve_ PdSetCallback w1) as [x w2] eqn:E2. apply (serve__moves prefix_keys) in E2; [|eauto].
    destruct x; [intros [= <- <-]; go|]. destruct (serve_ PdStart w2) as [y w3] eqn:E3.
    apply (serve__moves prefix_keys) in E3; [|eauto]. destruct y; intros [= <- <-]; go.
  - destruct (clear_pd_prefix w1) as [x w2] eqn:E2. apply clear_pd_facts in E2; [|eauto]. intros [= <- <-]. go.
Qed.

(** * Enforcement *)

(** The rules of a plan that names every interface in use can replace what is there. *)
Definition all_named (names : list string) m : Prop := forall i a, owned (ker m) i a -> i ∈ names.

Definition host_kept (b b' : backend K) : Prop :=
  (forall i a, owned (b_kernel b') i a -> owned (b_kernel b) i a) /\ forall i, covers (b_kernel b) i -> covers (b_kernel b') i.
#[local] Instance host_kept_pre : PreOrder host_kept.
Proof. split; [by split|]. intros a b c [H1 H2] [H3 H4]. split; auto. Qed.

Lemma drop_table_kept f b r b' : drop_table f b = (r, b') -> host_kept b b'.
Proof.
  unfold drop_table, b_run. destruct (k_run _ None (b_kernel b)) as [x k] eqn:E.
  assert (panel_cmd ["nft"; "delete"; "table"; f; EMERGENCY_TABLE] None) as Hc by (right; split; [done|left; set_solver]).
  assert (host_kept b (set_kernel k b)) as Hk.
  { split; [|intros i; simpl; by eapply run_covers]. intros i a Ho. destruct (run_owned _ _ _ _ _ i a Hc E Ho) as [|(t & v6 & Hx & _)]; [done|].
    unfold replace_addr in Hx. by destruct v6. }
  by destruct x; intros [= <- <-].
Qed.

Lemma release_kept b why b' : release_emergency_forward_deny b = (why, b') -> host_kept b b'.
Proof.
  unfold release_emergency_forward_deny. destruct (negb _); [intros [= <- <-]; done|].
  destruct (drop_table "ip" b) as [f4 b1] eqn:E1. destruct (drop_table "ip6" b1) as [f6 b2] eqn:E2.
  assert (host_kept b b2) as Hk by (etrans; eapply drop_table_kept; eassumption).
  by case_bool_decide; intros [= <- <-].
Qed.

(** What installing the rules of [p] does to the host. *)
Definition installed (p : plan) (r : net_result) (x x' : net (backend K)) : Prop :=
  (forall i a, owned (b_kernel (n_host x')) i a -> owned (b_kernel (n_host x)) i a) /\
  ((forall i, i ∈ segment_ifaces p -> covers (b_kernel (n_host x')) i) \/
   (nr_ok r = false /\ forall i, covers (b_kernel (n_host x)) i -> covers (b_kernel (n_host x')) i)).

Section host.
Context (odd : gmap string string) (faults : list fault).
#[local] Instance the_host : NetHost (backend K) := backend_host json_pairs json_dumps odd faults.

Lemma record_enforcement_kept r wan (x : net (backend K)) r' x' : record_enforcement r wan x = (r', x') ->
  host_kept (n_host x) (n_host x') /\ (nr_ok r = false -> nr_ok r' = false).
Proof.
  unfold record_enforcement, release_emergency_deny. simpl. destruct (nr_ok r) eqn:Er.
  - destruct (release_emergency_forward_deny (n_host x)) as [why b] eqn:E. apply release_kept in E.
    case_bool_decide; by intros [= <- <-].
  - intros [= <- <-]. done.
Qed.

Lemma call_net_installed p o wan (x : net (backend K)) r x' : np_kill_switch p = true -> o = OpTproxy p \/ o = OpGuard p -> call_net o wan x = (r, x') -> installed p r x x'.
Proof.
  intros Hks Ho. unfold call_net.
  assert (exists f, (f = k_tproxy p \/ f = k_guard p) /\ perform o (n_host x) = on_kernel f (n_host x)) as (f & Hf & ->).
  { destruct Ho as [-> | ->]; [exists (k_tproxy p)|exists (k_guard p)]; simpl; auto. }
  unfold on_kernel. destruct (f (b_kernel (n_host x))) as [c k] eqn:E. intros E'. apply record_enforcement_kept in E' as [[Hw Hc] Hr]. simpl in *.
  split; [intros i a Hi; eapply rules_owned; [exact Hf|exact E|by apply Hw]|].
  destruct (rules_covers _ _ _ _ _ Hks Hf E) as [Hall|[Hbad Hkeep]]; [left; auto|right]. split; [|auto].
  apply Hr. destruct c as [exc| |r0]; [done|done|by apply Hbad].
Qed.

Lemma refuse_kept reason (x : net (backend K)) r x' : refuse_enforcement reason x = (r, x') ->
  nr_ok r = false /\ host_kept (n_host x) (n_host x').
Proof. intros [Hk Hr]%record_enforcement_kept. split; [by apply Hr|done]. Qed.

Lemma kill_switch_mode d : kill_switch_on d = true -> enforcement_mode running d <> ModeTeardown.
Proof. intros Hk. unfold enforcement_mode. rewrite Hk. by destruct (_ && _). Qed.

Lemma sync_plan_installed p d (x : net (backend K)) r x' : kill_switch_on d = true -> np_kill_switch p = true ->
  sync_net_plan running p d x = (r, x') -> installed p r x x'.
Proof.
  intros Hd%kill_switch_mode Hp. unfold sync_net_plan. destruct (enforcement_mode running d); [|simpl|done].
  - apply call_net_installed; [done|by left].
  - apply call_net_installed; [done|by right].
Qed.

(** [sync_net] installs the rules of a plan that names every interface the records track, or leaves
    the rules alone. *)
Lemma sync_installed d (x : net (backend K)) r x' : kill_switch_on d = true ->
  sync_net s running d x = (r, x') ->
  (host_kept (n_host x) (n_host x') /\ forall r0, r = inr r0 -> nr_ok r0 = false) \/
  exists p r0, r = inr r0 /\ installed p r0 x x' /\ np_segment_iface (from_store d s) ∈ segment_ifaces p /\
    forall i a (n : net (backend K)), iface_re i = true -> tracked i a (Moment d odd n) -> i ∈ segment_ifaces p \/ i = np_segment_iface (from_store d s).
Proof.
  intros Hk. pose proof (kill_switch_mode d Hk) as Hm. set (iface := np_segment_iface (from_store d s)).
  assert (forall p, enforcement_plan s d = RenderPlan p -> np_kill_switch p = true /\ iface ∈ segment_ifaces p /\
    forall i a (n : net (backend K)), iface_re i = true -> tracked i a (Moment d odd n) -> i ∈ segment_ifaces p \/ i = iface) as Hp.
  { intros p. unfold enforcement_plan. fold iface. simpl.
    match goal with |- context [enforcement_cover _ _ iface ?w0] => set (w0' := w0) end.
    destruct (enforcement_cover json_pairs json_dumps iface w0') as [c w1] eqn:Ec.
    apply enforcement_cover_facts in Ec as (_ & _ & Hl & _ & Hall). simpl. destruct (cover_known c) eqn:Ek; [|done]. simpl.
    specialize (Hall eq_refl). intros Ep.
    assert (np_kill_switch p = true) as Hpk.
    { injection Ep as <-. case_bool_decide; exact Hk. }
    split; [done|]. assert (iface = np_segment_iface p /\ forall i, i ∈ cv_names c -> i ∈ segment_ifaces p) as [Hi Hn].
    { injection Ep as <-. case_bool_decide as En; [split; [done|]; intros i; rewrite En; set_solver|]. split; [done|].
      intros i Hi. eapply segment_ifaces_facts; [exact Hi|]. by apply (proj1 (Forall_forall _ _) Hl). }
    split; [rewrite Hi; exact (proj1 (segment_ifaces_facts p))|]. intros i a n Hr Ht. destruct (Hall i a Hr Ht) as [|Hin]; [by right|left; auto]. }
  assert (forall o wan, (forall p, o p = OpTproxy p \/ o p = OpGuard p) ->
    forall p, enforcement_plan s d = RenderPlan p -> forall r0 y, call_net (o p) wan x = (r0, y) -> (inr r0, y) = (r, x') ->
    exists p r0, r = inr r0 /\ installed p r0 x x' /\ iface ∈ segment_ifaces p /\
      forall i a (n : net (backend K)), iface_re i = true -> tracked i a (Moment d odd n) -> i ∈ segment_ifaces p \/ i = iface) as Hcall.
  { intros o wan Ho p Ep r0 y E [= <- <-]. exists p, r0. destruct (Hp p Ep) as (? & ? & ?). split_and!; [done| |done|done]. eapply call_net_installed; [done|apply Ho|exact E]. }
  unfold sync_net, apply_net, stop_net. destruct (enforcement_mode running d) eqn:Em; [| |done].
  - destruct (enforcement_plan s d) as [exc|why|p] eqn:Ep.
    + intros [= <- <-]. by left; split.
    + destruct (refuse_enforcement why x) as [r0 y] eqn:E. apply refuse_kept in E as [? ?]. intros [= <- <-]. left. split; [done|]. by intros ? [= <-].
    + destruct (call_net (OpTproxy p) (Some false) x) as [r0 y] eqn:E. intros E'. right. eapply (Hcall OpTproxy); eauto.
  - rewrite Hk. simpl. destruct (enforcement_plan s d) as [exc|why|p] eqn:Ep.
    + destruct (record_enforcement _ None x) as [r0 y] eqn:E. apply record_enforcement_kept in E as [? Hr]. intros [= <- <-]. left. split; [done|]. intros ? [= <-]. by apply Hr.
    + destruct (refuse_enforcement why x) as [r0 y] eqn:E. apply refuse_kept in E as [? ?]. intros [= <- <-]. left. split; [done|]. by intros ? [= <-].
    + destruct (call_net (OpGuard p) (Some true) x) as [r0 y] eqn:E. intros E'. right. eapply (Hcall OpGuard); eauto.
Qed.
End host.

Lemma put_net_kept x faults w : ok w -> Forall (fun f => ~ garbled f) faults -> host_kept (the_backend w) (n_host x) ->
  goes w (put_net x (World (w_now w) faults (w_result w) (w_past w))).
Proof.
  intros [Hg Hk] Hf [Hw Hc]. split; [done|]. exists [w_now w]. split; [done|]. split; [constructor; [exact Hk|constructor]|].
  by eapply good_calm; [..|exact Hk].
Qed.

Lemma put_net_installed p r x faults w : ok w -> Forall (fun f => ~ garbled f) faults -> all_named (segment_ifaces p) (w_now w) ->
  installed p r (m_net (w_now w)) x ->
  goes w (put_net x (World (w_now w) faults (w_result w) (w_past w))) /\ (nr_ok r = true -> forall i, i ∈ segment_ifaces p -> covers (b_kernel (n_host x)) i).
Proof.
  intros Hok Hf Hn [Hw [Hall|[Hr Hc]]]; [|split; [by apply put_net_kept|by rewrite Hr]].
  split; [|done]. destruct Hok as [Hg [Hs Hst]]. split; [done|]. exists [w_now w]. split; [done|].
  split; [constructor; [split; [exact Hs|exact Hst]|constructor]|]. split; [|exact Hst].
  intros i a Ho. destruct (Hs i a (Hw i a Ho)) as (_ & ? & ? & Ht). split; [apply Hall, (Hn i a (Hw i a Ho))|]. split; [done|]. split; [done|].
  destruct Ht as [|Ht]; [by left|right]. eapply tracked_kept; [|exact Ht]. by intros k _.
Qed.

Lemma apply_enforcement_facts p w why w' : ok w -> np_kill_switch p = true -> all_named (segment_ifaces p) (w_now w) -> apply_enforcement json_pairs json_dumps running p w = (why, w') ->
  goes w w' /\ (why = "" -> forall i, i ∈ segment_ifaces p -> covers (ker (w_now w')) i).
Proof.
  intros Hok Hks Hn. unfold apply_enforcement. destruct (sync_net_plan running p _ _) as [r x] eqn:E.
  apply sync_plan_installed in E; [|by apply Hok|done]. intros [= <- <-].
  destruct (put_net_installed p r x (w_faults w) w) as [Hg Hc]; [done|apply Hok|done|done|]. destruct w as [now fs res past]. split; [exact Hg|].
  destruct (nr_ok r) eqn:Er; [by intros _; apply Hc|]. by destruct (nr_error r).
Qed.

(** A sync that succeeds names the plan's interface. *)
Lemma sync_here_facts w r w' : ok w -> sync_net_here json_pairs json_dumps s running w = (r, w') ->
  goes w w' /\ (forall r0, r = inr r0 -> nr_ok r0 = true -> covers (ker (w_now w')) P).
Proof.
  intros Hok. pose proof Hok as [Hg [Hs [Hmode HPp]]]. unfold sync_net_here. destruct (sync_net s running _ _) as [r0 x] eqn:E.
  apply sync_installed in E; [|done]. set (faults := match enforcement_mode _ _ with ModeTeardown => _ | _ => _ end).
  assert (Forall (fun f => ~ garbled f) faults) as Hf.
  { unfold faults. destruct (enforcement_cover json_pairs json_dumps (np_segment_iface (from_store (m_db (w_now w)) s)) w) as [c w1] eqn:Ec.
    apply enforcement_cover_facts in Ec as (_ & Hg1 & _). destruct (enforcement_mode _ _); [by apply Hg1..|done]. }
  intros [= <- <-]. destruct E as [[Hk Hno]|(p & r1 & -> & Hi & Hin & Ht)].
  { split; [by apply put_net_kept|]. intros r2 Hr2 Hok2. by rewrite (Hno r2 Hr2) in Hok2. }
  rewrite HPp in *. destruct (put_net_installed p r1 x faults w) as [Hgo Hcov]; [done|done| |exact Hi|].
  2: { split; [exact Hgo|]. intros r2 [= <-] Hr2. by apply Hcov. }
  intros i a Ho. destruct (Hs i a Ho) as (_ & Hr & _ & [-> | Htr]); [done|].
  destruct (Ht i a (m_net (w_now w)) Hr) as [| ->]; [|done|done]. destruct (w_now w) as [d o n]. exact Htr.
Qed.

Lemma hand_back_facts w r w' : ok w -> hand_back_from_emergency_deny json_pairs json_dumps s running w = (r, w') -> goes w w'.
Proof.
  intros Hok. unfold hand_back_from_emergency_deny. case_bool_decide; [intros [= <- <-]; eauto|].
  destruct (sync_net_here json_pairs json_dumps s running w) as [r0 w1] eqn:E. apply sync_here_facts in E as [E _]; [|done].
  destruct (negb _); [by intros [= <- <-]|]. destruct (release_emergency_forward_deny (the_backend w1)) as [why b] eqn:Er.
  apply release_kept in Er. intros [= <- <-]. eapply goes_trans; [exact E|]. unfold put_backend.
  pose proof (put_net_kept (set_host b (m_net (w_now w1))) (w_faults w1) w1) as Hp. destruct w1 as [now fs res past]. apply Hp; [eauto| |exact Er].
  eapply goes_ok in E. apply E.
Qed.

(** * The pass *)

Lemma goes_moves ks w w1 w2 : goes w w1 -> moves ks w1 w2 -> goes w w2.
Proof. intros Hg [Hm _]. by eapply goes_trans. Qed.

(** A cover read from the records names every other interface in use. *)
Lemma cover_names_owned w c w' : ok w -> enforcement_cover json_pairs json_dumps P w = (c, w') -> cover_known c = true ->
  all_named (P :: cv_names c) (w_now w).
Proof.
  intros [_ [Hs _]] (_ & _ & _ & _ & Hc)%enforcement_cover_facts Hk i a Ho.
  destruct (Hs i a Ho) as (_ & Hr & _ & Ht). destruct Ht as [-> |Ht]; [left|]. pose proof (Hc Hk i a Hr Ht) as Hx. destruct Hx as [-> |Hx]; [left|by right].
Qed.

Lemma step_narrow_facts p moved w r w' : ok w -> np_segment_iface p = P -> np_kill_switch p = true -> step_narrow json_pairs json_dumps running p moved w = (r, w') -> goes w w'.
Proof.
  intros Hok Hp Hks. unfold step_narrow. rewrite Hp. destruct (superseded_state P w) as [managed w1] eqn:E1.
  apply superseded_facts in E1 as (Hs1 & Hg1 & _). pose proof (moves_same json_pairs json_dumps s P [] _ _ Hok Hs1 Hg1) as Hm1.
  destruct (enforcement_cover json_pairs json_dumps P w1) as [remaining w2] eqn:E2.
  pose proof (enforcement_cover_facts _ _ _ _ _ _ E2) as (Hs2 & Hg2 & _).
  assert (ok w1) as Hok1 by eauto. pose proof (cover_names_owned _ _ _ Hok1 E2) as Hall.
  pose proof (moves_same json_pairs json_dumps s P [] _ _ Hok1 Hs2 Hg2) as Hm2.
  set (w3 := if moved && may_narrow managed then _ else w2).
  assert (moves [] w2 w3) as Hm3 by (unfold w3; destruct (moved && may_narrow managed); [apply nm_unmanaged_facts|]; eauto).
  clearbody w3. assert (moves [] w w3) as Hm by go.
  destruct (moved && may_narrow remaining) eqn:En; [|by destruct (moved && negb _); intros [= <- <-]; eauto].
  apply andb_true_iff in En as [_ [Hk Hn]%andb_true_iff]. apply bool_decide_eq_true in Hn.
  intros E. apply apply_enforcement_facts in E as [Hg _]; [eapply goes_trans; [exact (proj1 Hm)|exact Hg]|eauto|done|]. intros i a Ho.
  destruct Hm3 as (_ & Ho3 & _). apply Ho3 in Ho. destruct Hs2 as (Hs2 & _). rewrite Hs2 in Ho. specialize (Hall Hk i a Ho). rewrite Hn in Hall.
  apply list_elem_of_singleton in Hall as ->. rewrite <- Hp. exact (proj1 (segment_ifaces_facts p)).
Qed.

Lemma step_move_facts p moving w r w' : ok w -> np_segment_iface p = P -> np_kill_switch p = true -> covers (ker (w_now w)) P ->
  step_move json_pairs json_dumps running has_dnsmasq has_pd p moving w = (r, w') -> goes w w'.
Proof.
  intros Hok Hp Hks Hcov. unfold step_move. destruct (reconcile_segment_addresses p w) as [x w1] eqn:E1.
  apply (reconcile_facts json_pairs json_dumps s P HP) in E1 as [Hg1 _]; [|done|done|done].
  destruct x as [e|addrs]; [by intros [= <- <-]|]. destruct (negb _).
  { destruct (set_result _ w1) as [y w2] eqn:E2. apply set_result_facts in E2 as [? _]; [|eauto]. intros [= <- <-]. by eapply goes_trans. }
  pose proof (nm_unmanaged_facts [] (np_segment_iface p) moving w1 (goes_ok _ _ _ _ _ _ Hg1)) as Hm2.
  set (w2 := ensure_nm_unmanaged (np_segment_iface p) moving w1) in *. clearbody w2. pose proof (goes_moves _ _ _ _ Hg1 Hm2) as Hg2.
  destruct (activate_segment_link p w2) as [x w3] eqn:E3. apply activate_facts in E3; [|eauto].
  pose proof (goes_trans _ _ _ _ _ _ _ Hg2 E3) as Hg3. destruct x as [e|]; [by intros [= <- <-]|].
  destruct (step_dnsmasq has_dnsmasq p w3) as [x w4] eqn:E4. apply dnsmasq_facts in E4; [|eauto].
  pose proof (goes_trans _ _ _ _ _ _ _ Hg3 E4) as Hg4. destruct x as [e|]; [by intros [= <- <-]|].
  destruct (retire_superseded_links p w4) as [lf w5] eqn:E5.
  apply (retire_superseded_facts json_pairs json_dumps s P HP) in E5; [|eauto]. pose proof (goes_moves _ _ _ _ Hg4 E5) as Hg5.
  destruct (step_narrow json_pairs json_dumps running p _ w5) as [narrow w6] eqn:E6. apply step_narrow_facts in E6; [|eauto|done|done].
  pose proof (goes_trans _ _ _ _ _ _ _ Hg5 E6) as Hg6.
  destruct (step_pd has_pd p w6) as [x w7] eqn:E7. apply step_pd_facts in E7; [|eauto].
  pose proof (goes_trans _ _ _ _ _ _ _ Hg6 E7) as Hg7. destruct x as [e|sr]; [by intros [= <- <-]|].
  destruct (set_result _ w7) as [y w8] eqn:E8. apply set_result_facts in E8 as [? _]; [|eauto]. intros [= <- <-]. by eapply goes_trans.
Qed.

(** The records of the addresses and links name an interface other than [P]. *)
Definition elsewhere_named m : Prop :=
  exists i a, iface_re i = true /\ i <> P /\ (stale_tracks i a m \/ scalar_tracks i a m \/ link_tracks i m).

Lemma elsewhere_named_kept ks w w' : moves ks w w' -> (forall k, k ∈ own_keys ++ link_keys -> k ∉ ks) ->
  elsewhere_named (w_now w) -> elsewhere_named (w_now w').
Proof.
  intros (_ & _ & _ & F) Hks (i & a & Hi & Hne & Ht). exists i, a. split; [done|]. split; [done|].
  assert (forall k, bool_decide (k ∈ own_keys ++ link_keys) = true -> held k (w_now w') = held k (w_now w)) as Hh.
  { intros k Hk%bool_decide_eq_true. by apply F, Hks. }
  destruct Ht as [Ht|[Ht|Ht]].
  - left. eapply names_kept; [..|exact Ht]; apply Hh; by vm_compute.
  - right; left. destruct Ht as (t & ta & H1 & H2 & H3). exists t, ta. rewrite !Hh by (by vm_compute). done.
  - right; right. eapply names_kept; [..|exact Ht]; apply Hh; by vm_compute.
Qed.

(** The rules already name [P], or the pass moves the segment to it. *)
Definition ready m : Prop := covers (ker m) P \/ elsewhere_named m.

Lemma ready_kept ks w w' : moves ks w w' -> Forall (fun k => k ∉ own_keys ++ link_keys) ks -> ready (w_now w) -> ready (w_now w').
Proof.
  intros Hm HF [Hc|He]; [left; by apply Hm|right]. eapply elsewhere_named_kept; [exact Hm| |exact He].
  intros k Hk Hin. exact (proj1 (Forall_forall _ _) HF k Hin Hk).
Qed.

Lemma pass_plan_facts w r w' : ok w -> pass_plan s rand rand_fallback w = (r, w') ->
  moves prefix_keys w w' /\ forall p, r = inr p -> np_segment_iface p = P /\ np_kill_switch p = true.
Proof.
  intros Hok. unfold pass_plan. destruct (ensure_segment_prefix6 s rand w) as [x w1] eqn:E1. apply ensure_prefix_facts in E1; [|done].
  destruct x as [e|x]; [by intros [= <- <-]|]. destruct (plan_from_store s w1) as [y w2] eqn:E2. apply plan_facts in E2 as (Hs & Hg & Hp).
  assert (ok w1) as Hok1 by eauto. pose proof (moves_same json_pairs json_dumps s P prefix_keys _ _ Hok1 Hs Hg) as E2.
  destruct y as [e|p]; [intros [= <- <-]; split; [go|done]|]. destruct (effective_segment_prefix6 s rand rand_fallback None w2) as [z w3] eqn:E3.
  apply effective_prefix_facts in E3; [|eauto]. destruct z as [e|ip6]; intros [= <- <-]; (split; [go|]); [done|].
  intros q [= <-]. simpl. rewrite (Hp p eq_refl). destruct Hok1 as [_ [_ [Hk HPp]]]. by split.
Qed.

Lemma decline_facts reason w r w' : ok w -> decline reason w = (r, w') -> goes w w'.
Proof. intros Hok. unfold decline. destruct (set_result _ w) as [x w1] eqn:E. apply set_result_facts in E as [? _]; [|done]. by intros [= <- <-]. Qed.

Lemma covering_named p names m : np_segment_iface p = P -> Forall (fun i => iface_re i = true) names -> all_named (P :: names) m ->
  all_named (segment_ifaces (covering_plan p names)) m /\ P ∈ segment_ifaces (covering_plan p names).
Proof.
  intros Hp HF Hn. destruct (segment_ifaces_facts (covering_plan p names)) as [H1 H2]. simpl in H1, H2. rewrite Hp in H1. split; [|done].
  intros i a Ho. destruct (proj1 (elem_of_cons _ _ _) (Hn i a Ho)) as [-> |Hi]; [done|]. apply H2; [done|]. by apply (proj1 (Forall_forall _ _) HF).
Qed.

Lemma provision_segment_facts w r w' : ok w -> ready (w_now w) ->
  provision_segment json_pairs json_dumps s running rand rand_fallback has_dnsmasq has_pd w = (r, w') -> goes w w'.
Proof.
  intros Hok Hr. unfold provision_segment. pose proof (sysctls_facts prefix_keys w Hok) as Hm0. set (w0 := ensure_sysctls s w) in *. clearbody w0.
  destruct (pass_plan s rand rand_fallback w0) as [x w1] eqn:E1. apply pass_plan_facts in E1 as [Hm1 Hp]; [|eauto].
  assert (moves prefix_keys w w1) as Hm by go. destruct x as [e|p]; [intros [= <- <-]; eauto|]. destruct (Hp p eq_refl) as [Hp' Hks]. clear Hp. rename Hp' into Hp. rewrite Hp.
  assert (ok w1) as Hok1 by eauto. assert (ready (w_now w1)) as Hr1.
  { eapply ready_kept; [exact Hm| |exact Hr]. apply (bool_decide_unpack _); by vm_compute. }
  destruct (superseded_state P w1) as [sup w2] eqn:E2. apply superseded_facts in E2 as (Hs2 & Hg2 & _ & _ & Hsup).
  pose proof (moves_same json_pairs json_dumps s P prefix_keys _ _ Hok1 Hs2 Hg2) as Hm2. assert (ok w2) as Hok2 by eauto.
  destruct (enforcement_cover json_pairs json_dumps P w2) as [cov w3] eqn:E3.
  pose proof (cover_names_owned _ _ _ Hok2 E3) as Hnames. apply enforcement_cover_facts in E3 as (Hs3 & Hg3 & Hlegal & _).
  pose proof (moves_same json_pairs json_dumps s P prefix_keys _ _ Hok2 Hs3 Hg3) as Hm3.
  assert (goes w w3) as Hg by (apply (moves_goes _ _ _ _ prefix_keys); go).
  assert (w_now w3 = w_now w1) as Enow by (destruct Hs2, Hs3; congruence).
  destruct (negb (cover_known sup)) eqn:Ek.
  { intros E'%decline_facts; [by eapply goes_trans|eauto]. }
  apply negb_false_iff in Ek. destruct (ensure_segment_link p w3) as [x w4] eqn:E4.
  apply (ensure_segment_link_facts json_pairs json_dumps s P HP) in E4; [|eauto|done].
  pose proof (goes_moves _ _ _ _ Hg E4) as Hg4. destruct x as [e|]; [by intros [= <- <-]|].
  case_bool_decide as En.
  - intros E. apply step_move_facts in E; [by eapply goes_trans|eauto|done|done|]. apply E4. rewrite Enow.
    destruct Hr1 as [|(i & a & Hi & Hne & Ht)]; [done|]. exfalso. destruct (Hsup Ek i a Hi Ht) as [|Hin]; [done|]. rewrite En in Hin. set_solver.
  - destruct (negb (cover_known cov)) eqn:Ec.
    { intros E'%decline_facts; [by eapply goes_trans|eauto]. }
    apply negb_false_iff in Ec. destruct (apply_enforcement json_pairs json_dumps running (covering_plan p (cv_names cov)) w4) as [why w5] eqn:E5.
    destruct (covering_named p (cv_names cov) (w_now w4) Hp) as [Hall HPin].
    { eapply Forall_impl; [exact Hlegal|]. by intros i [? _]. }
    { intros i a Ho. apply E4 in Ho. destruct Hs3 as (Hs3 & _). rewrite Hs3 in Ho. by eapply Hnames. }
    apply apply_enforcement_facts in E5 as [Hg5 Hcov]; [|eauto|done|done]. pose proof (goes_trans _ _ _ _ _ _ _ Hg4 Hg5) as Hg5'.
    destruct why.
    + intros E. apply step_move_facts in E; [by eapply goes_trans|eauto|done|done|by apply Hcov].
    + intros E'%decline_facts; [by eapply goes_trans|eauto].
Qed.

Lemma unmanage_facts w r w' : ok w -> unmanage has_dnsmasq w = (r, w') -> goes w w'.
Proof.
  intros Hok. unfold unmanage. destruct (clear_pd_prefix w) as [records w1] eqn:E1. apply clear_pd_facts in E1; [|done].
  match goal with |- context [if has_dnsmasq then ?a else ?b] => set (dn := if has_dnsmasq then a else b); destruct dn as [x w2] eqn:E2 end.
  assert (moves prefix_keys w1 w2) as Hm2.
  { unfold dn in E2. destruct has_dnsmasq; [eapply serve__moves; [eauto|exact E2]|]. injection E2 as <- <-. eauto. }
  assert (goes w w2) as Hg2 by (apply (moves_goes _ _ _ _ prefix_keys); go). destruct x as [e|]; [by intros [= <- <-]|].
  destruct (clear_managed_addresses w2) as [x w3] eqn:E3. apply (clear_managed_facts json_pairs json_dumps s P HP) in E3; [|eauto].
  pose proof (goes_moves _ _ _ _ Hg2 E3) as Hg3. destruct x as [e|af]; [by intros [= <- <-]|].
  destruct (clear_managed_link w3) as [lf w4] eqn:E4. apply (clear_managed_link_facts json_pairs json_dumps s P HP) in E4; [|eauto].
  pose proof (goes_moves _ _ _ _ Hg3 E4) as Hg4. pose proof (remove_nm_facts [] w4 (goes_ok _ _ _ _ _ _ Hg4)) as Hm5.
  destruct (set_result _ (remove_nm_unmanaged w4)) as [y w6] eqn:E6. apply set_result_facts in E6 as [Hg6 _]; [|eauto].
  intros [= <- <-]. eapply goes_trans; [|exact Hg6]. by eapply goes_moves.
Qed.

Lemma pass_facts w x w' : ok w -> ready (w_now w) ->
  pass json_pairs json_dumps s running rand rand_fallback has_dnsmasq has_pd w = (x, w') -> goes w w'.
Proof.
  intros Hok Hr. unfold pass. destruct (drain_enforcement_cover w) as [l w1] eqn:E1.
  apply (drain_facts json_pairs json_dumps s P HP) in E1; [|done].
  destruct (setting "manage_segment" w1) as [mg w2] eqn:E2. apply (setting_moves surv_keys) in E2; [|eauto].
  assert (moves surv_keys w w2) as Hm by go. assert (ok w2) as Hok2 by eauto. pose proof (moves_goes _ _ _ _ _ _ _ Hm) as Hg.
  assert (forall r w3 y w4, goes w2 w3 -> set_result r w3 = (y, w4) -> goes w w4) as Hres.
  { intros r w3 y w4 H3 E4. apply set_result_facts in E4 as [? _]; [|eauto]. by eapply goes_trans, goes_trans. }
  destruct mg as [e|mg]; [destruct (set_result _ w2) as [y w4] eqn:E4; intros [= <- <-]; eapply Hres; eauto|].
  destruct (bool_decide (mg or "1" = "1")).
  - destruct (provision_segment _ _ _ _ _ _ _ _ w2) as [y w3] eqn:E3. apply provision_segment_facts in E3; [|done|].
    + destruct y as [e|rs]; [|intros [= <- <-]; by eapply goes_trans].
      destruct (set_result _ w3) as [z w4] eqn:E4. intros [= <- <-]. by eapply Hres.
    + eapply ready_kept; [exact Hm| |exact Hr]. apply (bool_decide_unpack _); by vm_compute.
  - destruct (unmanage has_dnsmasq w2) as [y w3] eqn:E3. apply unmanage_facts in E3; [|done].
    destruct y as [e|rs]; [|intros [= <- <-]; by eapply goes_trans].
    destruct (set_result _ w3) as [z w4] eqn:E4. intros [= <- <-]. by eapply Hres.
Qed.

Lemma stop_pd_facts w : ok w -> goes w (stop_pd w).
Proof.
  intros Hok. unfold stop_pd. destruct (serve PdStop w) as [a w1] eqn:E1. apply (serve_moves []) in E1; [|done].
  destruct a as [| | |t]; [..|eauto].
  all: destruct (serve PdClearState w1) as [b w2] eqn:E2; apply (serve_moves []) in E2; [|eauto];
    exact (moves_goes _ _ _ _ _ _ _ (moves_trans _ _ _ _ _ _ _ _ E1 E2)).
Qed.

Lemma host_provision_goes w r w' : ok w -> ready (w_now w) ->
  host_provision json_pairs json_dumps s running rand rand_fallback has_dnsmasq has_pd w = (r, w') -> goes w w'.
Proof.
  intros Hok Hr. unfold host_provision. destruct (negb _).
  { intros E%set_result_facts; [by destruct E|done]. }
  destruct (pass _ _ _ _ _ _ _ _ w) as [[r1 stop] w1] eqn:E1. apply pass_facts in E1; [|done|done].
  destruct (read_ownership w1) as [own w2] eqn:E2. apply read_ownership_facts in E2 as (Hs & Hg & _).
  assert (goes w w2) as Hg2.
  { eapply goes_trans; [exact E1|]. apply goes_same; eauto. }
  destruct (hand_back_from_emergency_deny _ _ _ _ w2) as [held w3] eqn:E3. apply hand_back_facts in E3; [|eauto].
  pose proof (goes_trans _ _ _ _ _ _ _ Hg2 E3) as Hg3.
  match goal with |- context [if bool_decide (held = "") then ?a else ?b] => destruct (if bool_decide (held = "") then a else b) as [r2 w4] eqn:E4 end.
  assert (goes w w4) as Hg4.
  { destruct (bool_decide (held = "")); [by injection E4 as <- <-|]. apply set_result_facts in E4 as [? _]; [|eauto]. by eapply goes_trans. }
  intros [= <- <-]. destruct (stop && has_pd); [|done]. eapply goes_trans; [exact Hg4|]. apply stop_pd_facts. eauto.
Qed.

(** * The delegated prefix *)

Lemma probe_up_facts i w x w' : ok w -> probe_iface_up i w = (x, w') -> goes w w'.
Proof.
  intros Hok. unfold probe_iface_up. case_bool_decide; [intros [= <- <-]; eauto|]. destruct (exec (show_flags i) w) as [r w1] eqn:E.
  apply (exec_moves []) in E as [Hg _]; [|done|ip_cmd|no_replace]. by intros [= <- <-].
Qed.

Lemma pd_apply_facts selected w r w' : ok w -> covers (ker (w_now w)) P ->
  (let! p, w := plan_from_store s w in
   let! ip6, w := effective_segment_prefix6 s rand rand_fallback (Some (default "" selected)) w in
   pd_apply has_dnsmasq selected (with_ip6 p ip6) w) = (r, w') -> goes w w'.
Proof.
  intros Hok Hcov. destruct (plan_from_store s w) as [x w1] eqn:E1. apply plan_facts in E1 as (Hs & Hg & Hp).
  pose proof (moves_same json_pairs json_dumps s P prefix_keys _ _ Hok Hs Hg) as Hm1.
  destruct x as [e|p]; [intros [= <- <-]; eauto|]. specialize (Hp p eq_refl).
  destruct (effective_segment_prefix6 s rand rand_fallback _ w1) as [y w2] eqn:E2. apply effective_prefix_facts in E2; [|eauto].
  assert (moves prefix_keys w w2) as Hm by go. destruct y as [e|ip6]; [intros [= <- <-]; eauto|]. unfold pd_apply.
  destruct (reconcile_segment_addresses (with_ip6 p ip6) w2) as [x w3] eqn:E3.
  apply (reconcile_facts json_pairs json_dumps s P HP) in E3 as [Hg3 _]; [|eauto|simpl; rewrite Hp; apply Hok|by apply Hm].
  pose proof (goes_trans _ _ _ _ _ _ _ (proj1 Hm) Hg3) as Hg3'. destruct x as [e|addrs]; [by intros [= <- <-]|].
  destruct (negb (ao_applied addrs)); [by intros [= <- <-]|].
  match goal with |- context [match selected with Some _ => _ | None => ?b end] => set (rec := match selected with Some _ => _ | None => b end) end.
  destruct rec as [records w4] eqn:E4. assert (goes w3 w4) as Hg4.
  { assert (ok w3) by eauto. unfold rec in E4. destruct selected as [[|ch pre]|]; [eapply moves_goes, clear_pd_facts; eauto| |eapply moves_goes, clear_pd_facts; eauto].
    destruct (write_record _ _ w3) as [why w5] eqn:E5. apply inert_write in E5; [|unfold prefix_keys; set_solver|done]. injection E4 as <- <-. eauto. }
  pose proof (goes_trans _ _ _ _ _ _ _ Hg3' Hg4) as Hg4'. destruct (probe_iface_up _ w4) as [[up why] w5] eqn:E5.
  apply probe_up_facts in E5; [|eauto]. pose proof (goes_trans _ _ _ _ _ _ _ Hg4' E5) as Hg5. assert (ok w5) as Hok5 by eauto.
  destruct up; [|by intros [= <- <-]|by intros [= <- <-]]. destruct has_dnsmasq; [|by intros [= <- <-]].
  match goal with |- context [manage_dnsmasq w5] => unfold manage_dnsmasq end.
  destruct (setting "manage_dnsmasq" w5) as [z w6] eqn:E6. apply (setting_moves prefix_keys) in E6; [|done].
  pose proof (goes_moves _ _ _ _ Hg5 E6) as Hg6. destruct z as [e|v]; [by intros [= <- <-]|]. destruct (bool_decide (v or "1" = "1")); [|by intros [= <- <-]].
  destruct (serve_ _ w6) as [u w7] eqn:E7. apply (serve__moves prefix_keys) in E7; [|eauto]. pose proof (goes_moves _ _ _ _ Hg6 E7).
  by destruct u; intros [= <- <-].
Qed.

Lemma pd_changed_goes delegated derived w r w' : ok w -> covers (ker (w_now w)) P ->
  pd_changed s rand rand_fallback has_dnsmasq delegated derived w = (r, w') -> goes w w'.
Proof.
  intros Hok Hcov. unfold pd_changed.
  assert (forall w1, moves prefix_keys w w1 -> ok w1 /\ covers (ker (w_now w1)) P /\ goes w w1) as Hpre.
  { intros w1 Hm. split; [eauto|]. split; [by apply Hm|eauto]. }
  destruct (setting "manage_segment" w) as [mg w1] eqn:E1. apply (setting_moves prefix_keys) in E1; [|done].
  destruct mg as [e|mg]; [intros [= <- <-]; by apply Hpre|]. destruct (negb _); [intros [= <- <-]; by apply Hpre|].
  destruct (setting "ipv6_enabled" w1) as [on w2] eqn:E2. apply (setting_moves prefix_keys) in E2; [|eauto].
  assert (moves prefix_keys w w2) as Hm2 by go. destruct on as [e|on]; [intros [= <- <-]; by apply Hpre|]. destruct (negb _); [intros [= <- <-]; by apply Hpre|].
  destruct (is_auto w2) as [auto w3] eqn:E3. apply is_auto_facts in E3; [|eauto]. assert (moves prefix_keys w w3) as Hm3 by go.
  destruct auto as [e|auto]; [intros [= <- <-]; by apply Hpre|]. destruct (negb auto); [intros [= <- <-]; by apply Hpre|].
  destruct (vlan_of_segment s w3) as [vid w4] eqn:E4. apply vlan_facts in E4; [|eauto]. assert (moves prefix_keys w w4) as Hm4 by go.
  destruct vid as [e|vid]; [intros [= <- <-]; by apply Hpre|].
  match goal with |- context [truthy delegated && bool_decide (?sel = None)] => set (selected := sel) end.
  destruct (truthy delegated && bool_decide (selected = None)); [intros [= <- <-]; by apply Hpre|].
  destruct (Hpre w4 Hm4) as (Hok4 & Hc4 & Hg4).
  match goal with |- (let '(_, _) := ?e in _) = _ -> _ => destruct e as [x w5] eqn:E5 end.
  apply pd_apply_facts in E5; [|done|done]. pose proof (goes_trans _ _ _ _ _ _ _ Hg4 E5) as Hg5.
  destruct x as [e|x]; intros [= <- <-]; (eapply goes_trans; [exact Hg5|]).
  all: eapply set_result_facts; [eauto|reflexivity].
Qed.
End pass.

(** * The undo of a rolled-back network change: what it may delete, and that whatever it leaves
    on the host stays recorded. *)

Section undo.
Context `{KernelSpec K}.
Context (json_pairs : string -> string + json).
Context (json_dumps : json -> string).
Context (s : settings).
Context (P : string).
Context (HP : iface_re P = true).
Implicit Types (w : world (backend K)) (m : moment (backend K)).
Notation ok := (ok json_pairs json_dumps s P).
Notation goes := (goes json_pairs json_dumps s P).
Notation moves := (moves json_pairs json_dumps s P).
#[local] Hint Resolve moves_ok moves_refl moves_goes goes_ok goes_refl : core.
Ltac go := repeat first [eassumption | eapply moves_trans; [eassumption|]].

Lemma forget_survivors_facts iface w : ok w -> (forall a, ~ owned (ker (w_now w)) iface a) -> moves surv_keys w (forget_survivors iface w).
Proof.
  intros Hok Hgone. unfold forget_survivors. case_bool_decide; [eauto|]. destruct (survivor_pairs w) as [x w1] eqn:E1.
  pose proof (survivor_pairs_facts _ _ _ E1) as (Hs & Hg & _). pose proof (moves_same json_pairs json_dumps s P surv_keys _ _ Hok Hs Hg) as Hm1.
  destruct x as [e|pairs]; [done|]. destruct (survivor_pairs_sound _ _ _ _ E1 eq_refl) as [HF Hin]. case_bool_decide; [done|].
  destruct (record_survivors _ w1) as [why w2] eqn:E2.
  apply (record_survivors_facts json_pairs json_dumps s P) in E2 as [Hm2 _]; [simpl; go|eauto| |].
  - apply Forall_forall. intros p [_ Hp]%list_elem_of_filter. by apply (proj1 (Forall_forall _ _) HF).
  - intros i a Ho Hi Ht. destruct Hs as (Hn & _). rewrite Hn in *. apply list_elem_of_filter. split; [|by apply Hin].
    simpl. intros ->. by apply (Hgone a).
Qed.

Lemma remember_survivors_facts pairs w kept w' : ok w -> Forall (fun p => p.1 <> "" -> p.2 <> "" -> iface_re p.1 = true /\ canonical p.2) pairs ->
  remember_survivors pairs w = (kept, w') ->
  moves surv_keys w w' /\ (kept = true -> forall i a, (i, a) ∈ pairs -> i <> "" -> a <> "" -> survivor_tracks i a (w_now w')).
Proof.
  intros Hok HF. unfold remember_survivors. set (want := distinct pairs []).
  assert (Forall (fun p => iface_re p.1 = true /\ canonical p.2) want) as HW.
  { apply Forall_forall. intros p Hp. apply elem_of_distinct in Hp as (Hp & H1' & H2' & _). exact (proj1 (Forall_forall _ _) HF p Hp H1' H2'). }
  assert (forall i a, (i, a) ∈ pairs -> i <> "" -> a <> "" -> (i, a) ∈ want) as Hin.
  { intros i a Hp Hi Ha. apply elem_of_distinct. split_and!; [done..|]. set_solver. }
  clearbody want. destruct want as [|q qs].
  { intros [= <- <-]. split; [eauto|]. intros _ i a Hp Hi Ha. specialize (Hin i a Hp Hi Ha). set_solver. }
  set (want := q :: qs) in *. assert (checked_survivors want SURVIVOR_WHERE = inr want) as ->.
  { clear -HW. induction HW as [|[i a] l [Hi Ha] HW IH]; [done|]. simpl. destruct (iface_re_facts i Hi) as (Hne & _ & Hst). simpl in *.
    rewrite Hst, bool_decide_false, Hi by done. simpl. rewrite (canonical_checked a _ Ha). simpl. by rewrite IH. }
  clearbody want. destruct (survivor_pairs w) as [x w1] eqn:E1. pose proof (survivor_pairs_facts _ _ _ E1) as (Hs & Hg & _).
  pose proof (moves_same json_pairs json_dumps s P surv_keys _ _ Hok Hs Hg) as Hm1. destruct x as [e|held]; [by intros [= <- <-]|].
  destruct (survivor_pairs_sound _ _ _ _ E1 eq_refl) as [HH Hheld]. destruct (record_survivors _ w1) as [why w2] eqn:E2.
  apply (record_survivors_facts json_pairs json_dumps s P) in E2 as [Hm2 Hw]; [|eauto| |].
  - intros [= <- <-]. split; [go|]. intros Hwhy%bool_decide_eq_true i a Hp Hi Ha. pose proof (Hin i a Hp Hi Ha) as Hwant.
    apply (Hw Hwhy); [|by apply (proj1 (Forall_forall _ _) HW (i, a))]. apply elem_of_distinct.
    split_and!; [apply elem_of_app; by right|done|done|set_solver].
  - apply Forall_forall. intros p Hp. apply elem_of_distinct in Hp as ([Hp|Hp]%elem_of_app & _); [by apply (proj1 (Forall_forall _ _) HH)|].
    destruct (proj1 (Forall_forall _ _) HW p Hp) as [Hi Ha]. destruct (iface_re_facts _ Hi) as (? & ? & _). by split_and!.
  - intros i a Ho Hi Ht. destruct Hs as (Hn & _). rewrite Hn in *. pose proof (Hheld i a Ht) as Hp. apply elem_of_distinct.
    destruct (proj1 (Forall_forall _ _) HH _ Hp) as (H1 & _ & H2). destruct (canonical_clean _ H2) as (H3 & _).
    split_and!; [apply elem_of_app; by left|done|done|set_solver].
Qed.

(** * The candidate link *)

Lemma candidate_probe_facts i w x w' : ok w -> candidate_link_probe i w = (x, w') -> moves [] w w'.
Proof.
  intros Hok. unfold candidate_link_probe. destruct (negb _); [intros [= <- <-]; eauto|]. case_bool_decide; [intros [= <- <-]; eauto|].
  intros E. apply (probe_link_facts json_pairs json_dumps s P) in E as (? & ? & _); [|done]. by apply moves_calm.
Qed.

Lemma undo_link_facts c restored w out deleted w' : ok w -> undo_candidate_link c restored w = ((out, deleted), w') ->
  moves [] w w' /\ (deleted = true -> forall a, ~ owned (ker (w_now w')) (ca_iface c) a).
Proof.
  intros Hok. unfold undo_candidate_link. case_bool_decide; [intros [= <- <- <-]; split; [eauto|done]|].
  destruct (is_other_than_restored _ _) as [other un]. destruct (negb (bool_decide (un = ""))); [intros [= <- <- <-]; split; [eauto|done]|].
  destruct (negb other); [intros [= <- <- <-]; split; [eauto|done]|]. destruct (vlan_claim c) as [claimed ur].
  destruct (negb (bool_decide (ur = ""))); [intros [= <- <- <-]; split; [eauto|done]|]. destruct (negb claimed); [intros [= <- <- <-]; split; [eauto|done]|].
  destruct (candidate_link_probe (ca_iface c) w) as [[now why] w1] eqn:E1. apply candidate_probe_facts in E1; [|done].
  destruct (bool_decide (now = LinkAbsent)); [intros [= <- <- <-]; by split|]. destruct (negb (bool_decide (ca_prior c = LinkAbsent))); [intros [= <- <- <-]; by split|].
  destruct (bool_decide (now = LinkUnknown)); [intros [= <- <- <-]; by split|]. unfold exec_.
  destruct (exec (del_link (ca_iface c)) w1) as [r w2] eqn:E2.
  apply (exec_facts json_pairs json_dumps s P) in E2 as (Hg & Hc & Er); [|eauto|ip_cmd|no_replace].
  pose proof (moves_calm json_pairs json_dumps s P [] _ _ Hg Hc) as Hm2.
  destruct r as [o|rc err o t|t]; intros [= <- <- <-]; (split; [go|]); [|done|done]. intros _ a. by eapply del_link_gone.
Qed.

(** * What the undo leaves *)

Lemma managed_state_facts w unreadable st w' : read_managed_state w = ((unreadable, st), w') -> same w w' /\ (no_garble w -> no_garble w') /\
  (unreadable = [] -> st.1.1 = "" \/ exists t, held IFACE_KEY (w_now w) = Some t /\ checked_names [strip t] = inr [st.1.1]).
Proof.
  unfold read_managed_state. pose proof (read_keeps_faults IFACE_KEY w) as G1. destruct (read_record IFACE_KEY w) as [r1 w1] eqn:E1.
  pose proof (read_keeps_faults ADDR4_KEY w1) as G2. destruct (read_record ADDR4_KEY w1) as [r2 w2] eqn:E2.
  pose proof (read_keeps_faults ADDR6_KEY w2) as G3. destruct (read_record ADDR6_KEY w2) as [r3 w3] eqn:E3.
  apply read_record_facts in E1 as [S1 F1]. apply read_record_facts in E2 as [S2 _]. apply read_record_facts in E3 as [S3 _].
  intros [Hx <-]%pair_equal_spec. split; [by etrans; [|etrans]|]. split; [intros Hg; exact (G3 (G2 (G1 Hg)))|]. revert Hx.
  destruct r1 as [raw|e1]; cbn [rec_text rec_content ok_map].
  2: { destruct r2, r3; intros Hx%(f_equal snd) _; left; simpl in Hx; by rewrite <- Hx. }
  destruct r2 as [t2|]; cbn [rec_text rec_content ok_map]; [|destruct r3; intros Hx%(f_equal snd) _; left; simpl in Hx; by rewrite <- Hx].
  destruct r3 as [t3|]; cbn [rec_text rec_content ok_map]; [|intros Hx%(f_equal snd) _; left; simpl in Hx; by rewrite <- Hx].
  destruct (checked_names [strip raw]) as [e|named] eqn:En; [intros Hx%(f_equal fst) Hu; simpl in Hx; by rewrite <- Hx in Hu|].
  intros Hx%(f_equal snd) _. simpl in Hx. rewrite <- Hx. simpl.
  destruct named as [|n [|n' ns]]; simpl; [by left|right; by exists raw|]. exfalso. simpl in En.
  destruct (bool_decide _); [done|]. destruct (negb _); [done|]. by injection En.
Qed.

Lemma spelled_iface (p : string * string) a i : p ∈ (i, a) :: match addr_token a with Some f => [(i, with_prefixlen f)] | None => [] end -> p.1 = i.
Proof. intros [-> | Hp]%elem_of_cons; [done|]. destruct (addr_token a); [by apply list_elem_of_singleton in Hp as ->|by apply elem_of_nil in Hp]. Qed.

(** The interface of the ownership records. *)
Definition iface_recorded (i : string) m : Prop := exists t, held IFACE_KEY m = Some t /\ checked_names [strip t] = inr [i].

(** A candidate as the panel decodes one. *)
Definition candidate_legal (c : candidate) : Prop :=
  iface_re (ca_iface c) = true /\ (ca_addr4 c = "" \/ canonical (ca_addr4 c)) /\ (ca_addr6 c = "" \/ canonical (ca_addr6 c)).

Lemma orphan_pairs_facts c st a : ca_iface c <> "" -> a <> "" -> a = ca_addr4 c \/ a = ca_addr6 c ->
  (ca_iface c, a) ∈ orphan_pairs c None st \/ st.1.1 = ca_iface c.
Proof.
  intros Hi Ha Hin. destruct st as [[ri r4] r6]. unfold orphan_pairs. destruct (decide (ri = ca_iface c)) as [|Hne]; [by right|left].
  apply elem_of_distinct. split; [simpl; destruct Hin as [-> | ->]; set_solver|]. split_and!; [done..|].
  rewrite elem_of_app. intros [Hp|Hp]; apply spelled_iface in Hp; simpl in Hp; by apply Hne.
Qed.

Lemma orphan_pairs_legal c st : candidate_legal c ->
  Forall (fun p => p.1 <> "" -> p.2 <> "" -> iface_re p.1 = true /\ canonical p.2) (orphan_pairs c None st).
Proof.
  intros (Hi & H4 & H6). destruct st as [[ri r4] r6]. apply Forall_forall. intros p Hp. unfold orphan_pairs in Hp. apply elem_of_distinct in Hp as (Hp & _).
  simpl in Hp. intros _ Hne. apply elem_of_cons in Hp as [-> | ->%list_elem_of_singleton]; (split; [done|]); simpl in *; naive_solver.
Qed.

Lemma undo_facts c w out w' : ok w -> candidate_legal c -> undo_provision_candidate (HandedCandidate c) HandedNone w = (out, w') ->
  moves surv_keys w w' /\
  (b_seam (the_backend w) = true -> un_unresolved out = [] -> forall a, a <> "" -> a = ca_addr4 c \/ a = ca_addr6 c ->
     owned (ker (w_now w')) (ca_iface c) a -> survivor_tracks (ca_iface c) a (w_now w') \/ iface_recorded (ca_iface c) (w_now w')).
Proof.
  intros Hok Hc. unfold undo_provision_candidate. destruct (b_seam (the_backend w)); cbn [negb as_candidate]; [|intros [= <- <-]; split; [eauto|done]].
  destruct (read_managed_state w) as [[unr st] w1] eqn:E1. apply managed_state_facts in E1 as (Hs & Hg & Hst).
  pose proof (moves_same json_pairs json_dumps s P surv_keys _ _ Hok Hs Hg) as Hm1.
  destruct unr as [|u us]; cbn [negb]; [|intros [<- <-]%pair_equal_spec; by split].
  rewrite bool_decide_true by done. cbn [negb]. specialize (Hst eq_refl).
  destruct (undo_candidate_link c st.1.1 w1) as [[o deleted] w2] eqn:E2. apply undo_link_facts in E2 as [Hm2 Hdel]; [|eauto].
  apply moves_mono with (ks' := surv_keys) in Hm2; [|exact HP|set_solver]. destruct deleted.
  { intros [= <- <-]. pose proof (forget_survivors_facts (ca_iface c) w2 (moves_ok _ _ _ _ _ _ _ Hm2) (Hdel eq_refl)) as Hm3.
    split; [go|]. intros _ _ a _ _ Ho. exfalso. apply (Hdel eq_refl a). by apply Hm3. }
  destruct (remember_survivors (orphan_pairs c None st) w2) as [kept w3] eqn:E3.
  apply remember_survivors_facts in E3 as [Hm3 Hk]; [|eauto|by apply orphan_pairs_legal].
  assert (moves surv_keys w w3) as Hm by go. destruct kept; intros [= <- <-]; (split; [done|]).
  - intros _ _ a Hne Hin Ho. destruct (iface_re_facts _ (proj1 Hc)) as (Hi & _).
    destruct (orphan_pairs_facts c st a Hi Hne Hin) as [Hp|He]; [left; by apply Hk|right].
    destruct Hst as [Hst|(t & Ht & Hn)]; [congruence|]. exists t. rewrite He in Hn. split; [|done]. rewrite <- Ht. apply Hm. apply (bool_decide_unpack _); by vm_compute.
  - intros _ Hu. simpl in Hu. by apply app_nil in Hu as [_ Hu].
Qed.

(** * The pending record *)

Lemma checked_addr_legal rec f a : checked_addr rec f = inr a -> a = "" \/ canonical a.
Proof.
  unfold checked_addr. destruct (checked_text rec f) as [|t]; [done|]. case_bool_decide; [intros [= <-]; by left|].
  intros (_ & g & Hg & -> & _)%checked_addr_sound. right. by exists g.
Qed.

Lemma fields_legal rec i c : checked_candidate_fields rec i = inr c -> ca_iface c = i /\
  (ca_addr4 c = "" \/ canonical (ca_addr4 c)) /\ (ca_addr6 c = "" \/ canonical (ca_addr6 c)).
Proof.
  unfold checked_candidate_fields. destruct (refuse_resolved rec); [done|]. destruct (checked_addr rec "addr4") as [|a4] eqn:E4; [done|].
  destruct (checked_addr rec "addr6") as [|a6] eqn:E6; [done|]. destruct (checked_flag rec "vlan"); [done|].
  destruct (checked_prior_link_state rec); [done|]. intros [= <-]. split_and!; [done|by eapply checked_addr_legal..].
Qed.

Lemma pending_legal r c : pe_candidate (pending_of json_pairs json_dumps r) = Some c -> candidate_legal c.
Proof.
  unfold pending_of. destruct (rec_text r) as [|raw]; [done|]. destruct raw as [|ch raw]; [done|].
  destruct (decoded_record json_pairs _) as [| |rec]; [done..|]. destruct (negb (is_obj rec)); [done|].
  destruct (settled_undo json_dumps rec) as [[] inc]; [done|]. destruct (checked_candidate_iface rec) as [|i] eqn:Ei; [done|].
  destruct (negb (bool_decide (inc = ""))); [done|]. destruct (checked_candidate_fields rec i) as [|c'] eqn:Ec; [done|].
  apply fields_legal in Ec as (Hi & H4 & H6). case_bool_decide as Ee; [done|]. intros [= <-]. split_and!; [|done..].
  rewrite Hi. destruct (candidate_iface_legal rec i Ei) as [|]; [congruence|done].
Qed.

Lemma clear_frame k terminal w why w' : clear_record k terminal w = (why, w') -> frame [k] (w_now w) (w_now w').
Proof.
  unfold clear_record. case_bool_decide; [intros E%verified_write_frame; exact (through_now _ _ _ E)|].
  destruct (write_record k terminal w) as [e w1] eqn:E. apply verified_write_frame in E. pose proof (through_now _ _ _ E) as Hf.
  destruct e; intros [= <- <-]; [|done]. unfold blank. destruct (store_write k "" w1) as [x w2] eqn:E2. simpl.
  apply store_write_facts in E2 as [Hw _]. apply wrote_frame in Hw. etrans; [exact Hf|exact (through_now _ _ _ Hw)].
Qed.

(** Every address the candidate put on its interface is gone, or recorded. *)
Definition accounted (c : candidate) m : Prop :=
  forall a, a <> "" -> a = ca_addr4 c \/ a = ca_addr6 c -> owned (ker m) (ca_iface c) a ->
    survivor_tracks (ca_iface c) a m \/ iface_recorded (ca_iface c) m.

Lemma accounted_frame c m m' : frame [PROVISION_UNDO_KEY] m m' -> accounted c m -> accounted c m'.
Proof.
  intros Hf Ha a Hne Hin Ho. assert (forall k, bool_decide (k ∈ [PROVISION_UNDO_KEY]) = false -> held k m' = held k m) as Hh.
  { intros k Hk%bool_decide_eq_false. by eapply frame_held. }
  unfold ker in Ho. rewrite (proj1 Hf) in Ho. destruct (Ha a Hne Hin Ho) as [Ht|(t & Ht & Hn)]; [left|right].
  - eapply names_kept; [..|exact Ht]; apply Hh; by vm_compute.
  - exists t. rewrite Hh by (by vm_compute). done.
Qed.

Lemma resume_facts c w p w1 out w' : ok w -> b_seam (the_backend w) = true ->
  pending_candidate json_pairs json_dumps w = (p, w1) -> pe_candidate p = Some c -> pe_unusable p = "" ->
  resume_pending_provision_undo json_pairs json_dumps w = (out, w') ->
  held PROVISION_UNDO_KEY (w_now w') = held PROVISION_UNDO_KEY (w_now w) \/ (un_unresolved out = [] /\ accounted c (w_now w')).
Proof.
  intros Hok Hb Ep Hc Hu. unfold resume_pending_provision_undo. rewrite Ep, Hc, Hu. rewrite bool_decide_true by done. cbn [negb].
  assert (candidate_legal c /\ same w w1 /\ (no_garble w -> no_garble w1)) as (Hl & Hs & Hg).
  { unfold pending_candidate in Ep. pose proof (read_keeps_faults PROVISION_UNDO_KEY w) as G. destruct (read_record _ w) as [r w0] eqn:E.
    apply read_record_facts in E as [Hs _]. injection Ep as <- <-. split_and!; [by eapply pending_legal|done|done]. }
  pose proof (moves_same json_pairs json_dumps s P surv_keys _ _ Hok Hs Hg) as Hm1.
  destruct (undo_provision_candidate (HandedCandidate c) HandedNone w1) as [o w2] eqn:E2. apply undo_facts in E2 as [Hm2 Ha]; [|eauto|done].
  assert (b_seam (the_backend w1) = true) as Hb1 by (unfold the_backend; destruct Hs as (-> & _); exact Hb).
  assert (held PROVISION_UNDO_KEY (w_now w2) = held PROVISION_UNDO_KEY (w_now w)) as Hh.
  { assert (moves surv_keys w w2) as Hm by go. apply Hm. apply (bool_decide_unpack _); by vm_compute. }
  case_bool_decide as Eo; intros [= <- <-]; [right|by left]. split; [done|].
  destruct (clear_provision_candidate json_dumps w2) as [why w3] eqn:E3. simpl. apply clear_frame in E3.
  eapply accounted_frame; [exact E3|]. intros a Hne Hin Ho. by eapply Ha.
Qed.
End undo.
