(* ===== verification/ProvisionProps.v ===== *)
(** The properties of segment provisioning: the durable sets, the cover, the pass that moves
    the segment, and the undo of a change that was rolled back. *)
From Stdlib Require Import ZArith Lia Ascii.
From stdpp Require Import base gmap strings list.
From S2P Require Import Prelude PyStr Ip IpText Models Json Store Config Plan Enforcement Records RecordsFacts Ledgers LedgersFacts Host Segment SegmentFacts Machine SegmentSteps Provision ProvisionFacts.
Open Scope string_scope.
Open Scope list_scope.

(** * Durable sets *)

(** A set on its way from [old] to [new]: what is in both stays, and nothing else appears. *)
Definition between (old new now : list string) : Prop :=
  (forall e, e ∈ old -> e ∈ new -> e ∈ now) /\ forall e, e ∈ now -> e ∈ old \/ e ∈ new.

Section sets.
Context {H : Type}.
Implicit Types (w : world H).

Lemma set_between k entries w why w' old : no_garble w -> Forall one_line entries -> write_set k entries w = (why, w') ->
  entries_of k (w_now w) = Some old ->
  through w w' (fun m => exists now, entries_of k m = Some now /\ between old (expected entries) now).
Proof.
  intros Hg Hol E Hold. pose proof (set_bounded _ _ _ _ _ _ Hg Hol E Hold) as Tb.
  assert (forall e, through w w' (fun m => e ∈ old -> e ∈ expected entries -> names_or_unknown k (eq e) m)) as Tk.
  { intros e. destruct (decide (e ∈ old /\ e ∈ expected entries)) as [[Ho He]|Hn].
    - eapply through_impl; [intros m Hm _ _; exact Hm|]. eapply set_kept; [exact Hol|exact E|by exists e|right].
      split; [done|]. unfold names_or_unknown. rewrite Hold. by exists e.
    - eapply through_impl; [|exact Tb]. intros m _ Ho He. by destruct Hn. }
  eapply through_impl; [|exact (through_forall _ _ _ _ Tb Tk)]. intros m [(now & Hnow & Hin) Hk]. exists now. split; [done|]. split; [|done].
  intros e Ho He. specialize (Hk e Ho He). unfold names_or_unknown in Hk. rewrite Hnow in Hk. by destruct Hk as (x & Hx & ->).
Qed.
End sets.

(** C35: a durable set is kept in two settings, the new contents written ahead to one and then to the other.
    Whatever its store calls do, and wherever the process stops: an entry of the old ledger that the new
    contents keep is named at every moment (or the set cannot be read), even when a write leaves other text; a
    write that reports success has left exactly the new contents in the ledger; what a read returns is the set.
    When no write leaves other text, the set is at every moment readable and between the old and the new one,
    and after a success exactly the new one. *)
Theorem ledger_refines_set {H} k entries (w : world H) why w' old :
  Forall one_line entries -> entries_of k (w_now w) = Some old -> write_set k entries w = (why, w') ->
  (forall e l, ledger k (w_now w) = Some l -> e ∈ l -> e ∈ expected entries -> through w w' (names_or_unknown k (eq e))) /\
  (why = "" -> ledger k (w_now w') = Some (expected entries)) /\
  (forall raw w2, read_set k w' = (Known raw, w2) -> exists now, entries_of k (w_now w') = Some now /\ forall e, e ∈ text_lines raw <-> e ∈ now) /\
  (no_garble w ->
   through w w' (fun m => exists now, entries_of k m = Some now /\ between old (expected entries) now) /\
   (why = "" -> exists now, entries_of k (w_now w') = Some now /\ forall e, e ∈ now <-> e ∈ expected entries)).
Proof.
  intros Hol Hold E. split_and!.
  - intros e l Hl Hel He. eapply set_kept; [exact Hol|exact E|by exists e|left]. exists l. split; [done|by exists e].
  - intros ->. by apply set_written in E as [? _].
  - intros raw w2 (_ & _ & es & Hes & Hl)%read_set_facts. exists es. split; [done|]. intros e. rewrite Hl. apply elem_of_uniq.
  - intros Hg. split; [by eapply set_between|]. intros ->. by apply set_written in E as [_ Hx]; apply Hx.
Qed.

(** * The survivors *)

Section survivors.
Context {H : Type}.
Implicit Types (w : world H).

Lemma quiet_read k w : w_faults w = [] ->
  (read_record k w).1 = match held k (w_now w) with Some raw => Known raw | None => (read_record k w).1 end /\ w_faults (read_record k w).2 = [].
Proof.
  intros Hf. unfold read_record, store_read, next_fault, held. rewrite Hf. simpl.
  destruct (cell_at k (w_now w)) as [[t|r]|]; done.
Qed.

Lemma quiet_set k w es : w_faults w = [] -> entries_of k (w_now w) = Some es -> exists raw w', read_set k w = (Known raw, w') /\ text_lines raw = uniq es.
Proof.
  intros Hf Hes. unfold entries_of in Hes. destruct (held k (w_now w)) as [a|] eqn:Ea; [|done].
  destruct (held (journal_key k) (w_now w)) as [b|] eqn:Eb; [|done]. injection Hes as <-.
  unfold read_set. destruct (quiet_read k w Hf) as [H1 H2]. rewrite Ea in H1. destruct (read_record k w) as [h w1] eqn:E1.
  pose proof (proj1 (read_record_facts _ _ _ _ E1)) as (Hn & _). simpl in H1, H2. subst h. cbn [rec_lines rec_content ok_map].
  destruct (quiet_read (journal_key k) w1 H2) as [H3 _]. rewrite Hn, Eb in H3. destruct (read_record (journal_key k) w1) as [j w2]. simpl in H3. subst j.
  eexists _, _. split; [done|]. apply text_lines_join. apply Forall_app. split; apply text_lines_clean.
Qed.

Lemma check_all_ok {A} (check : A -> bool) why l : Forall (fun x => check x = true) l -> check_all check why l = inr l.
Proof. induction 1 as [|x l Hx HF IH]; [done|]. simpl. by rewrite Hx, IH. Qed.

Definition legal_pair (p : string * string) : Prop := iface_re p.1 = true /\ canonical p.2.

Lemma legal_sound p : legal_pair p -> sound_pair p.
Proof. intros [Hi Ha]. destruct (iface_re_facts _ Hi) as (? & ? & _). by split_and!. Qed.

Lemma legal_entry p : legal_pair p ->
  strip (entry_of p) = entry_of p /\ entry_of p <> "" /\ pair_of (entry_of p) = Some p /\ checked_survivors [p] SURVIVOR_WHERE = inr [p].
Proof.
  intros Hp. pose proof (sound_entry p (legal_sound p Hp)) as Hw. destruct p as [i a], Hp as [Hi Ha]. destruct (entry_facts i a Hw) as (? & ? & _ & ?).
  split_and!; [done..|]. destruct (iface_re_facts i Hi) as (Hne & _ & Hst). simpl in *. rewrite Hst, bool_decide_false, Hi by done. simpl.
  by rewrite (canonical_checked a _ Ha).
Qed.

Lemma legal_entries l e : Forall legal_pair l -> e ∈ expected (entry_of <$> l) <-> exists p, p ∈ l /\ e = entry_of p.
Proof.
  intros HF. rewrite Forall_forall in HF. unfold expected. rewrite elem_of_uniq, list_elem_of_filter, list_elem_of_fmap. split.
  - intros (_ & t & -> & (p & -> & Hp)%list_elem_of_fmap). exists p. split; [done|]. by apply legal_entry, HF.
  - intros (p & Hp & ->). destruct (legal_entry p (HF p Hp)) as (Hs & Hne & _). split; [done|]. exists (entry_of p). split; [done|].
    apply list_elem_of_fmap. by exists p.
Qed.

Lemma checked_legal ps : Forall legal_pair ps -> checked_survivors ps SURVIVOR_WHERE = inr ps.
Proof.
  induction 1 as [|[i a] ps Hp HC IH]; [done|]. destruct (legal_entry _ Hp) as (_ & _ & _ & Hc). simpl in *.
  destruct (if bool_decide (strip i = "") then _ else _) as [|n]; [done|]. destruct (checked_addr_text a _) as [|a']; [done|]. injection Hc as ->. by rewrite IH.
Qed.

Lemma survivors_read l es w : w_faults w = [] -> entries_of SURVIVOR_KEY (w_now w) = Some es -> Forall legal_pair l ->
  (forall e, e ∈ es <-> exists p, p ∈ l /\ e = entry_of p) -> exists l' w', survivor_pairs w = (inr l', w') /\ forall p, p ∈ l' <-> p ∈ l.
Proof.
  intros Hf Hes HF Hin. pose proof (proj1 (Forall_forall _ _) HF) as Hl.
  destruct (quiet_set SURVIVOR_KEY w es Hf Hes) as (raw & w2 & Er & Hraw). unfold survivor_pairs, read_pairs. rewrite Er. cbn [unwrap].
  unfold rec_pairs. cbn [rec_lines rec_content ok_map]. rewrite Hraw, check_all_ok.
  2: { apply Forall_forall. intros e. rewrite elem_of_uniq, Hin. intros (p & Hp & ->). by rewrite (proj1 (proj2 (proj2 (legal_entry p (Hl p Hp))))). }
  cbn [ok_map]. set (ps := uniq (omap pair_of (uniq es))).
  assert (forall p, p ∈ ps <-> p ∈ l) as Hps.
  { intros p. unfold ps. rewrite elem_of_uniq, list_elem_of_omap. setoid_rewrite elem_of_uniq. setoid_rewrite Hin. split.
    - intros (e & (q & Hq & ->) & Hp). rewrite (proj1 (proj2 (proj2 (legal_entry q (Hl q Hq))))) in Hp. by injection Hp as <-.
    - intros Hp. exists (entry_of p). split; [by exists p|]. by apply legal_entry, Hl. }
  exists ps, w2. split; [|done]. rewrite checked_legal; [done|]. apply Forall_forall. intros p Hp. by apply Hl, Hps.
Qed.
End survivors.

(** the pairs of interface and address recorded as surviving a rolled-back change are read
    back as exactly those pairs, once the write reported success and the store answers. *)
Theorem survivors_roundtrip {H} l (w : world H) w1 :
  no_garble w -> Forall legal_pair l -> record_survivors l w = ("", w1) -> w_faults w1 = [] ->
  exists l' w2, survivor_pairs w1 = (inr l', w2) /\ forall p, p ∈ l' <-> p ∈ l.
Proof.
  intros Hg HF E Hf. unfold record_survivors in E. apply set_written in E as [_ Hes]. destruct (Hes Hg) as (es & Hes1 & Hin).
  eapply survivors_read; [done|exact Hes1|done|]. intros e. rewrite Hin. by apply legal_entries.
Qed.

(** * What a pass reports *)

Section reports.
Context `{Kernel K}.
Context (json_pairs : string -> string + json).
Context (json_dumps : json -> string).
Context (s : settings).
Context (running : bool).
Context (rand rand_fallback : list Z).
Context (has_dnsmasq has_pd : bool).
Implicit Types (w : world (backend K)).

Lemma set_result_last r w x w' : set_result r w = (x, w') -> x = r /\ w_result w' = Some r.
Proof. by intros [= <- <-]. Qed.

Lemma decline_last why w rs w' : decline why w = (inr rs, w') -> w_result w' = Some rs.1.
Proof. unfold decline. destruct (set_result _ w) as [r w1] eqn:E. apply set_result_last in E as [-> Hr]. by intros [= <- <-]. Qed.

Lemma step_move_last p moving w rs w' : step_move json_pairs json_dumps running has_dnsmasq has_pd p moving w = (inr rs, w') -> w_result w' = Some rs.1.
Proof.
  unfold step_move. destruct (reconcile_segment_addresses p w) as [[e|addrs] w1]; [done|]. destruct (negb _).
  { destruct (set_result _ w1) as [r w2] eqn:E. apply set_result_last in E as [-> Hr]. by intros [= <- <-]. }
  destruct (activate_segment_link p _) as [[e|u] w2]; [done|]. destruct (step_dnsmasq _ p w2) as [[e|v] w3]; [done|].
  destruct (retire_superseded_links p w3) as [lf w4]. destruct (step_narrow _ _ _ p _ w4) as [nw w5].
  destruct (step_pd _ p w5) as [[e|sr] w6]; [done|]. destruct (set_result _ w6) as [r w7] eqn:E. apply set_result_last in E as [-> Hr]. by intros [= <- <-].
Qed.

Lemma provision_segment_last w rs w' :
  provision_segment json_pairs json_dumps s running rand rand_fallback has_dnsmasq has_pd w = (inr rs, w') -> w_result w' = Some rs.1.
Proof.
  unfold provision_segment. destruct (pass_plan s rand rand_fallback _) as [[e|p] w1]; [done|].
  destruct (superseded_state _ w1) as [sup w2]. destruct (enforcement_cover json_pairs json_dumps _ w2) as [cov w3].
  destruct (negb (cover_known sup)); [apply decline_last|]. destruct (ensure_segment_link p w3) as [[e|u] w4]; [done|].
  destruct (bool_decide (cv_names sup = [])); [apply step_move_last|]. destruct (negb (cover_known cov)); [apply decline_last|].
  destruct (apply_enforcement _ _ _ _ w4) as [[|c why] w5]; [apply step_move_last|apply decline_last].
Qed.

Lemma unmanage_last w r w' : unmanage has_dnsmasq w = (inr r, w') -> w_result w' = Some r.
Proof.
  unfold unmanage. destruct (clear_pd_prefix w) as [records w1].
  match goal with |- context [if has_dnsmasq then ?a else ?b] => destruct (if has_dnsmasq then a else b) as [[e|u] w2] end; [done|].
  destruct (clear_managed_addresses w2) as [[e|af] w3]; [done|]. destruct (clear_managed_link w3) as [lf w4].
  destruct (set_result _ (remove_nm_unmanaged w4)) as [x w5] eqn:E. apply set_result_last in E as [-> Hr]. by intros [= <- <-].
Qed.

Lemma pass_last w r stop w' :
  pass json_pairs json_dumps s running rand rand_fallback has_dnsmasq has_pd w = ((r, stop), w') -> w_result w' = Some r.
Proof.
  unfold pass. destruct (drain_enforcement_cover w) as [l w1]. destruct (setting "manage_segment" w1) as [[e|mg] w2].
  { destruct (set_result _ w2) as [x w3] eqn:E. apply set_result_last in E as [-> Hr]. by intros [= <- <- <-]. }
  destruct (bool_decide (mg or "1" = "1")).
  - destruct (provision_segment _ _ _ _ _ _ _ _ w2) as [[e|rs] w3] eqn:E; [|intros [= -> <-]; exact (provision_segment_last _ _ _ E)].
    destruct (set_result _ w3) as [x w4] eqn:E'. apply set_result_last in E' as [-> Hr]. by intros [= <- <- <-].
  - destruct (unmanage has_dnsmasq w2) as [[e|x] w3] eqn:E; [|intros [= <- <- <-]; exact (unmanage_last _ _ _ E)].
    destruct (set_result _ w3) as [y w4] eqn:E'. apply set_result_last in E' as [-> Hr]. by intros [= <- <- <-].
Qed.

Lemma release_note (b : backend K) why b' : release_emergency_forward_deny b = (why, b') -> why = "" -> b_note b' = "".
Proof.
  unfold release_emergency_forward_deny. destruct (negb _); [by intros [= <- <-]|]. destruct (drop_table "ip" b) as [f4 b1].
  destruct (drop_table "ip6" b1) as [f6 b2]. case_bool_decide; by intros [= <- <-].
Qed.

Lemma hand_back_last w held w' : hand_back_from_emergency_deny json_pairs json_dumps s running w = (held, w') ->
  w_result w' = w_result w /\ (held = "" -> b_note (the_backend w') = "").
Proof.
  unfold hand_back_from_emergency_deny. case_bool_decide; [by intros [= <- <-]|]. unfold sync_net_here.
  destruct (sync_net s running _ _) as [r x]. cbn zeta iota. destruct (negb _); [by intros [= <- <-]|].
  destruct (release_emergency_forward_deny _) as [why b] eqn:E. intros [= <- <-]. split; [done|]. by eapply release_note.
Qed.

Lemma serve_last x w a w' : serve x w = (a, w') -> w_result w' = w_result w /\ b_note (the_backend w') = b_note (the_backend w).
Proof. unfold serve, b_service. destruct (k_service x _) as [r k]. by intros [= <- <-]. Qed.

Lemma stop_pd_last w : w_result (stop_pd w) = w_result w /\ b_note (the_backend (stop_pd w)) = b_note (the_backend w).
Proof.
  unfold stop_pd. destruct (serve PdStop w) as [a w1] eqn:E1. apply serve_last in E1 as [R1 N1].
  destruct (serve PdClearState w1) as [b w2] eqn:E2. apply serve_last in E2 as [R2 N2]. destruct a; simpl; split; congruence.
Qed.
End reports.

(** [host_provision] returns the result it leaves behind for the API to show; and on a host with a
    command seam it reports success only when the emergency deny on forwarded traffic is not in force. *)
Theorem provision_reports `{Kernel K} json_pairs json_dumps s running rand rand_fallback has_dnsmasq has_pd (w : world (backend K)) r w' :
  host_provision json_pairs json_dumps s running rand rand_fallback has_dnsmasq has_pd w = (r, w') ->
  w_result w' = Some r /\ (b_seam (the_backend w) = true -> nr_ok r = true -> enforcement_fallback_note (the_backend w') = "").
Proof.
  unfold host_provision. destruct (b_seam (the_backend w)); cbn [negb]; [|intros [-> ?]%set_result_last; done].
  destruct (pass _ _ _ _ _ _ _ _ w) as [[r1 stop] w1] eqn:E1. apply pass_last in E1.
  destruct (read_ownership w1) as [own w2] eqn:E2. apply read_ownership_facts in E2 as ((_ & _ & R2) & _).
  destruct (hand_back_from_emergency_deny _ _ _ _ w2) as [held w3] eqn:E3. apply hand_back_last in E3 as [R3 N3].
  assert (forall r2 w4, (if bool_decide (held = "") then (r1, w3) else set_result (net_failed (join "; " (filter (fun p => p <> "") [nr_error r1; held]))) w3) = (r2, w4) ->
    w_result w4 = Some r2 /\ (nr_ok r2 = true -> b_note (the_backend w4) = "")) as Hmid.
  { intros r2 w4. case_bool_decide; intros [= <- <-]; (split; [first [done|congruence]|]); [by intros _; apply N3|done]. }
  destruct (if bool_decide (held = "") then _ else _) as [r2 w4]. destruct (Hmid r2 w4 eq_refl) as [R4 N4].
  destruct (stop_pd_last w4) as [R5 N5]. intros [= <- <-]. unfold enforcement_fallback_note.
  destruct (stop && has_pd); [|by split]. rewrite N5, R5. by split.
Qed.

(** * The cover *)

(** the durable cover is a list of legal interface names without repeats and without the
    plan's own, reading it changes nothing, and when every record answered it names every other
    interface on which a record tracks an address. *)
Theorem cover_typed {H} json_pairs json_dumps x (w : world H) c w' :
  enforcement_cover json_pairs json_dumps x w = (c, w') ->
  same w w' /\ Forall (fun i => iface_re i = true /\ i <> x) (cv_names c) /\ NoDup (cv_names c) /\
  (cover_known c = true -> forall i a, iface_re i = true -> tracked json_pairs json_dumps i a (w_now w) -> i = x \/ i ∈ cv_names c).
Proof. intros (Hs & _ & Hl & Hn & Hc)%enforcement_cover_facts. by split_and!. Qed.

(** * The pass *)

(** How a pass begins: the rules name the plan's interface already, or a record names another one
    the segment moves from; or the rules have just been synced, with success. *)
Inductive begins `{KernelSpec K} json_pairs json_dumps s P (w0 : world (backend K)) : world (backend K) -> Prop :=
  | begins_ready : ready P (w_now w0) -> begins json_pairs json_dumps s P w0 w0
  | begins_synced up r w : sync_net_here json_pairs json_dumps s up w0 = (inr r, w) -> nr_ok r = true ->
      begins json_pairs json_dumps s P w0 w.
Lemma pass_goes `{KernelSpec K} json_pairs json_dumps s running rand rand_fallback has_dnsmasq has_pd P (w0 w : world (backend K)) r w' :
  iface_re P = true -> ok json_pairs json_dumps s P w0 -> begins json_pairs json_dumps s P w0 w ->
  host_provision json_pairs json_dumps s running rand rand_fallback has_dnsmasq has_pd w = (r, w') ->
  through w0 w' (good json_pairs json_dumps s P).
Proof.
  intros HP Hok [Hr|up r0 w1 Es Hr0] E.
  - exact (proj2 (host_provision_goes _ _ _ _ _ _ _ _ P HP _ _ _ Hok Hr E)).
  - apply (sync_here_facts _ _ _ _ P HP) in Es as [Hs Hc]; [|done].
    pose proof (host_provision_goes _ _ _ _ _ _ _ _ P HP _ _ _ (goes_ok _ _ _ _ _ _ Hs) (or_introl (Hc _ eq_refl Hr0)) E) as Hp.
    exact (proj2 (goes_trans _ _ _ _ _ _ _ Hs Hp)).
Qed.

(** C5: with the kill switch on, no moment of a provisioning pass leaves the segment outside the
    rules.  Each interface that carries a segment address is named by the rules in force, and is the
    plan's own or tracked by a durable record, through every command and every store write, whatever
    of them fails: if that is so when the pass begins (it is when no address is on the host), and
    either the rules already name the plan's interface or a record names another one the pass moves
    from, or the pass follows a sync of the rules that succeeded, as at boot, from no rules at all.  A
    store write may fail, be lost, or raise once it has taken effect; it leaves no other text. *)
Theorem never_uncovered `{KernelSpec K} json_pairs json_dumps s running rand rand_fallback has_dnsmasq has_pd P (w0 w : world (backend K)) r w' :
  iface_re P = true -> no_garble w0 -> good json_pairs json_dumps s P (w_now w0) -> begins json_pairs json_dumps s P w0 w ->
  host_provision json_pairs json_dumps s running rand rand_fallback has_dnsmasq has_pd w = (r, w') ->
  through w0 w' (good json_pairs json_dumps s P).
Proof. intros HP Hg Hgood Hb E. by eapply pass_goes. Qed.

(** a change of the delegated IPv6 prefix, applied to a plan whose interface the rules name, keeps
    the segment covered at every moment too, the kill switch being on. *)
Theorem prefix_change_covered `{KernelSpec K} json_pairs json_dumps s rand rand_fallback has_dnsmasq P delegated derived (w : world (backend K)) r w' :
  iface_re P = true -> no_garble w -> good json_pairs json_dumps s P (w_now w) -> covers (ker (w_now w)) P ->
  pd_changed s rand rand_fallback has_dnsmasq delegated derived w = (r, w') ->
  no_garble w' /\ through w w' (good json_pairs json_dumps s P).
Proof. intros HP Hg Hgood Hr E. exact (pd_changed_goes _ _ _ _ _ _ P HP _ _ _ _ _ (conj Hg Hgood) Hr E). Qed.

(** * The undo *)

(** undoing a rolled-back change runs [ip link delete] only on a link the record proves the panel
    created: recorded as a VLAN, named like one, absent before the change, present now and not the
    interface the ownership records went back to.  In every other case it does at most one probe. *)
Theorem undo_deletes_own_link `{Kernel K} (c : candidate) (restored : string) (w : world (backend K)) :
  let x := undo_candidate_link c restored w in
  x.1.2 = false /\ (x.2 = w \/ x.2 = (candidate_link_probe (ca_iface c) w).2) \/
  ca_iface c <> "" /\ (is_other_than_restored (ca_iface c) restored).1 = true /\ ca_vlan c = true /\
  is_Some (parse_vlan (ca_iface c)).2 /\ ca_prior c = LinkAbsent /\ (candidate_link_probe (ca_iface c) w).1.1 = LinkPresent.
Proof.
  unfold undo_candidate_link. case_bool_decide as Ei; [left; split; [done|by left]|].
  destruct (is_other_than_restored (ca_iface c) restored) as [other un]. destruct (negb (bool_decide (un = ""))); [left; split; [done|by left]|].
  destruct other; cbn [negb]; [|left; split; [done|by left]]. unfold vlan_claim. destruct (ca_vlan c); cbn [negb].
  2: { left. split; [done|by left]. }
  case_bool_decide as Ev; [|left; split; [done|by left]]. rewrite bool_decide_true by done. cbn [negb].
  destruct (candidate_link_probe (ca_iface c) w) as [[now why] w1]. destruct now.
  - cbn [bool_decide]. rewrite !(bool_decide_false (LinkPresent = _)) by done. destruct (ca_prior c) eqn:Ep.
    + rewrite bool_decide_false by done. left. split; [done|by right].
    + right. split_and!; done.
    + rewrite bool_decide_false by done. left. split; [done|by right].
  - rewrite bool_decide_true by done. left. split; [done|by right].
  - rewrite (bool_decide_false (LinkUnknown = LinkAbsent)) by done. destruct (negb (bool_decide (ca_prior c = LinkAbsent))); [left; split; [done|by right]|].
    rewrite bool_decide_true by done. left. split; [done|by right].
Qed.

(** the record of a pending undo is settled only when nothing is owed: every address of the candidate
    that is still on its interface is recorded among the survivors, or the interface is the one the
    ownership records name; otherwise the pending record stays as it was. *)
Theorem undo_settles_accounted `{KernelSpec K} json_pairs json_dumps s P c (w : world (backend K)) p w1 out w' :
  iface_re P = true -> no_garble w -> good json_pairs json_dumps s P (w_now w) -> b_seam (the_backend w) = true ->
  pending_candidate json_pairs json_dumps w = (p, w1) -> pe_candidate p = Some c -> pe_unusable p = "" ->
  resume_pending_provision_undo json_pairs json_dumps w = (out, w') ->
  held PROVISION_UNDO_KEY (w_now w') = held PROVISION_UNDO_KEY (w_now w) \/ (un_unresolved out = [] /\ accounted c (w_now w')).
Proof. intros HP Hg Hgood. exact (resume_facts _ _ _ P HP c w p w1 out w' (conj Hg Hgood)). Qed.

(** * A machine on which the segment moves *)

Definition demo_settings : gmap string string :=
  {[ "segment_iface" := "eth0.20"; "segment_ip" := "192.168.20.1"; "ipv6_enabled" := "1"; "segment_ip6" := "auto";
     IFACE_KEY := "eth0.10"; ADDR4_KEY := "192.168.10.1/24"; LINK_KEY := "eth0.10" ]}.
Definition demo_world (kvs : gmap string string) (k : machine) : world (backend machine) :=
  World (Moment (set_settings kvs empty_db) ∅ (Net (Backend true k "") "ok" (Some true) "" "" [])) [] None [].
Definition no_json (raw : string) : string + json := inl "not JSON".
Definition no_dumps (j : json) : string := "{}".
Definition demo_start : world (backend machine) :=
  demo_world demo_settings (Machine ["eth0"; "eth0.10"] [("eth0.10", "192.168.10.1/24")] ["eth0.10"]).
Definition demo_pass : net_result * world (backend machine) :=
  host_provision no_json no_dumps default_settings false [1; 2; 3; 4; 5]%Z [5; 4; 3; 2; 1]%Z true true demo_start.

Lemma demo_canonical : canonical "192.168.10.1/24" /\ canonical "192.168.30.1/24".
Proof.
  split; [change (canonical (canonical_addr "192.168.10.1/24"))|change (canonical (canonical_addr "192.168.30.1/24"))];
    apply canonical_addr_canonical; by eexists.
Qed.

Lemma demo_good : good no_json no_dumps default_settings "eth0.20" (w_now demo_start).
Proof.
  split; [|split; by vm_compute]. intros i a ([= -> ->]%list_elem_of_singleton & _ & _). split_and!.
  - apply list_elem_of_singleton. done.
  - by vm_compute.
  - apply demo_canonical.
  - right. right. left. exists "eth0.10", "192.168.10.1/24". split_and!; [by vm_compute..|]. left. split; by vm_compute.
Qed.

Lemma demo_ready : ready "eth0.20" (w_now demo_start).
Proof.
  right. exists "eth0.10", "192.168.10.1/24". split_and!; [by vm_compute|done|]. right. right.
  unfold link_tracks, names_or_unknown. exists "eth0.10". split; [|done]. apply (bool_decide_unpack _); by vm_compute.
Qed.

(** The segment moves from [eth0.10] to [eth0.20]: 33 moments, covered throughout. *)
Lemma never_uncovered_witness :
  through demo_start demo_pass.2 (good no_json no_dumps default_settings "eth0.20") /\
  nr_ok demo_pass.1 = true /\
  b_kernel (the_backend demo_pass.2) =
    Machine ["eth0"; "eth0.20"] [("eth0.20", "192.168.20.1/24"); ("eth0.20", "fd05:403:201:14::1/64")] ["eth0.20"].
Proof.
  split.
  - exact (never_uncovered no_json no_dumps default_settings false [1; 2; 3; 4; 5]%Z [5; 4; 3; 2; 1]%Z true true "eth0.20"
      demo_start demo_start demo_pass.1 demo_pass.2 eq_refl (Forall_nil_2 _) demo_good (begins_ready _ _ _ _ _ demo_ready) (surjective_pairing demo_pass)).
  - split; by vm_compute.
Defined.

Lemma provision_reports_witness : w_result demo_pass.2 = Some demo_pass.1.
Proof.
  exact (proj1 (provision_reports no_json no_dumps default_settings false [1; 2; 3; 4; 5]%Z [5; 4; 3; 2; 1]%Z true true demo_start
    demo_pass.1 demo_pass.2 (surjective_pairing demo_pass))).
Defined.

Lemma cover_typed_witness :
  let x := enforcement_cover no_json no_dumps "eth0.20" demo_start in
  NoDup (cv_names x.1) /\ x.1 = Cover ["eth0.10"] [].
Proof.
  split; [|by vm_compute].
  exact (proj1 (proj2 (proj2 (cover_typed no_json no_dumps "eth0.20" demo_start _ _ (surjective_pairing _))))).
Defined.

(** The same machine once the segment is on [eth0.20], and the provider delegates a prefix. *)
Definition settled_start : world (backend machine) :=
  demo_world demo_settings (Machine ["eth0"; "eth0.10"; "eth0.20"] [("eth0.10", "192.168.10.1/24")] ["eth0.10"; "eth0.20"]).
Definition demo_prefix : (string + unit) * world (backend machine) :=
  pd_changed default_settings [1; 2; 3; 4; 5]%Z [5; 4; 3; 2; 1]%Z true (Some "2001:db8:1::/56") (fun _ _ => Some "2001:db8:1:14::/64") settled_start.

Lemma demo_prefix_eq :
  pd_changed default_settings [1; 2; 3; 4; 5]%Z [5; 4; 3; 2; 1]%Z true (Some "2001:db8:1::/56") (fun _ _ => Some "2001:db8:1:14::/64") settled_start =
  (demo_prefix.1, demo_prefix.2).
Proof. unfold demo_prefix. apply surjective_pairing. Qed.

Lemma prefix_change_witness :
  through settled_start demo_prefix.2 (good no_json no_dumps default_settings "eth0.20") /\
  mc_addrs (b_kernel (the_backend demo_prefix.2)) = [("eth0.20", "192.168.20.1/24"); ("eth0.20", "2001:db8:1:14::1/64")].
Proof.
  split; [|by vm_compute].
  refine (proj2 (prefix_change_covered no_json no_dumps default_settings [1; 2; 3; 4; 5]%Z [5; 4; 3; 2; 1]%Z true "eth0.20"
    (Some "2001:db8:1::/56") (fun _ _ => Some "2001:db8:1:14::/64") settled_start demo_prefix.1 demo_prefix.2 eq_refl (Forall_nil_2 _) _ _ demo_prefix_eq)).
  - split; [|split; by vm_compute]. intros i a ([= -> ->]%list_elem_of_singleton & _ & _). split_and!.
    + left.
    + by vm_compute.
    + apply demo_canonical.
    + right. right. left. exists "eth0.10", "192.168.10.1/24". split_and!; [by vm_compute..|]. left. split; by vm_compute.
  - right. left.
Defined.

(** A change to [eth0.30] that was rolled back: the link the panel created is still there. *)
Definition pending_json (raw : string) : string + json :=
  inr (JObj [("iface", JStr "eth0.30"); ("addr4", JStr "192.168.30.1/24"); ("vlan", JBool true); ("link_state", JStr "absent")]).
Definition pending_start : world (backend machine) :=
  demo_world {[ "segment_iface" := "eth0.10"; PROVISION_UNDO_KEY := "pending" ]}
    (Machine ["eth0"; "eth0.30"] [("eth0.30", "192.168.30.1/24")] ["eth0.10"; "eth0.30"]).
Definition demo_candidate : candidate := Candidate "eth0.30" "192.168.30.1/24" "" true LinkAbsent.
Definition demo_resume : undo_outcome * world (backend machine) := resume_pending_provision_undo pending_json no_dumps pending_start.

Lemma undo_settles_witness :
  un_unresolved demo_resume.1 = [] /\ mc_links (b_kernel (the_backend demo_resume.2)) = ["eth0"] /\
  (held PROVISION_UNDO_KEY (w_now demo_resume.2) = held PROVISION_UNDO_KEY (w_now pending_start) \/
   (un_unresolved demo_resume.1 = [] /\ accounted demo_candidate (w_now demo_resume.2))).
Proof.
  split; [by vm_compute|]. split; [by vm_compute|].
  refine (undo_settles_accounted pending_json no_dumps default_settings "eth0.10" demo_candidate pending_start
    (pending_candidate pending_json no_dumps pending_start).1 (pending_candidate pending_json no_dumps pending_start).2
    demo_resume.1 demo_resume.2 eq_refl (Forall_nil_2 _) _ eq_refl (surjective_pairing _) _ _ (surjective_pairing _)); [|by vm_compute..].
  split; [|split; by vm_compute]. intros i a ([= -> ->]%list_elem_of_singleton & _ & _). split_and!.
  - right. left.
  - by vm_compute.
  - apply demo_canonical.
  - right. do 4 right. unfold pending_tracks. cbn zeta. left. apply (bool_decide_unpack _); by vm_compute.
Defined.

(** The write of the ledger leaves other text: the journal still names the link that is kept. *)
Definition garbled_start : world (backend machine) :=
  World (w_now demo_start) [no_fault; no_fault; Fault (Left (Some (Text "eth7"))) None] None [].
Definition garbled_write : string * world (backend machine) := write_set LINK_KEY ["eth0.10"; "eth0.20"] garbled_start.

Lemma ledger_refines_witness :
  through garbled_start garbled_write.2 (names_or_unknown LINK_KEY (eq "eth0.10")) /\
  ledger LINK_KEY (w_now garbled_write.2) = Some ["eth7"] /\ garbled_write.1 <> "" /\
  entries_of LINK_KEY (w_now garbled_write.2) = Some ["eth7"; "eth0.10"; "eth0.20"].
Proof.
  split; [|split_and!; by vm_compute].
  refine (proj1 (ledger_refines_set LINK_KEY ["eth0.10"; "eth0.20"] garbled_start _ _ ["eth0.10"]
    (Forall_cons_2 one_line "eth0.10" _ eq_refl (Forall_cons_2 one_line "eth0.20" [] eq_refl (Forall_nil_2 _))) eq_refl (surjective_pairing _))
    "eth0.10" ["eth0.10"] eq_refl _ _); apply (bool_decide_unpack _); by vm_compute.
Defined.

Lemma survivors_roundtrip_witness :
  let w1 := (record_survivors [("eth0.10", "192.168.10.1/24")] demo_start).2 in
  exists l' w2, survivor_pairs w1 = (inr l', w2) /\ forall p, p ∈ l' <-> p ∈ [("eth0.10", "192.168.10.1/24")].
Proof.
  refine (survivors_roundtrip [("eth0.10", "192.168.10.1/24")] demo_start _ (Forall_nil_2 _) _ _ _); [|by vm_compute..].
  constructor; [|constructor]. split; [by vm_compute|apply demo_canonical].
Defined.

(** * The way back

    A segment that went from [eth0.10] to [eth0.20] and now returns: [_record_ownership] drops the pair on
    [eth0.10] from the ledger, because the plan installs it again, before the scalars name [eth0.10].  When
    the scalars cannot be written the pair is on the host and in no record: only the plan of this pass names
    the interface. *)
Definition return_settings : gmap string string :=
  {[ "segment_iface" := "eth0.10"; "segment_ip" := "192.168.10.1";
     IFACE_KEY := "eth0.20"; ADDR4_KEY := "192.168.20.1/24"; STALE_KEY := "eth0.10 192.168.10.1/24" ]}.
Definition return_start : world (backend machine) :=
  let w := demo_world return_settings (Machine ["eth0"; "eth0.10"; "eth0.20"] [("eth0.10", "192.168.10.1/24"); ("eth0.20", "192.168.20.1/24")] ["eth0.10"; "eth0.20"]) in
  World (w_now w) (replicate 10 no_fault ++ replicate 3 (Fault Kept (Some "disk I/O error"))) None [].
Definition return_end : (string + outcome) * world (backend machine) :=
  reconcile_segment_addresses (from_store (set_settings return_settings empty_db) default_settings) return_start.

Lemma return_unrecorded :
  ao_applied <$> (match return_end.1 with inr o => Some o | inl _ => None end) = Some false /\
  ("eth0.10", "192.168.10.1/24") ∈ mc_addrs (b_kernel (the_backend return_end.2)) /\
  (enforcement_cover no_json no_dumps "eth0.30" return_start).1 = Cover ["eth0.20"; "eth0.10"] [] /\
  (enforcement_cover no_json no_dumps "eth0.30" return_end.2).1 = Cover ["eth0.20"] [].
Proof. split_and!; [by vm_compute|apply (bool_decide_unpack _); by vm_compute|by vm_compute..]. Qed.
