(* ===== verification/LinuxProps.v ===== *)
(** What is assumed of the host's own tools ([HostSpec]), that the Linux backend on such a host
    satisfies the laws the provisioning code is verified against ([KernelSpec]), and what the two
    together give: no client of the segment reaches the network around the tunnel. *)
From Stdlib Require Import ZArith Lia Ascii.
From stdpp Require Import base gmap strings list.
From S2P Require Import Prelude PyStr Ip IpText Models Json Store Config Plan Enforcement Records RecordsFacts Ledgers LedgersFacts Host Nft Render RenderProps Linux Segment SegmentFacts Machine SegmentSteps Provision ProvisionFacts ProvisionProps.
Open Scope string_scope.
Open Scope list_scope.
Open Scope Z_scope.

(** Commands that leave the panel's tables alone: those of other programs, listings, and those of
    the emergency table. *)
Definition keeps_tables (argv : list string) (input : option string) : Prop :=
  match argv with
  | prog :: rest => prog <> "nft" \/ EMERGENCY_TABLE ∈ rest \/ head rest = Some "list" \/ input = Some EMERGENCY_SCRIPT
  | [] => True
  end.

(** [h_owned k i a]: the panel's address [a] is on interface [i].  [loaded k]: the script whose
    tables are in force. *)
Class HostSpec (C : Type) (c_run : list string -> option string -> C -> ran * C) (c_service : service -> C -> answer * C) := {
  h_owned : C -> string -> string -> Prop;
  loaded : C -> string;
  (** only [ip addr replace] puts an address on an interface *)
  h_run_owned argv input k r k' i a : c_run argv input k = (r, k') -> h_owned k' i a ->
    h_owned k i a \/ exists t v6, argv = replace_addr i t v6 /\ is_Some (addr_token t) /\ a = canonical_addr t;
  h_service_owned x k ans k' i a : c_service x k = (ans, k') -> h_owned k' i a -> h_owned k i a;
  h_del_addr i a k o k' : c_run (del_addr i a) None k = (RanOk o, k') -> ~ h_owned k' i a;
  h_del_link i k o k' a : c_run (del_link i) None k = (RanOk o, k') -> ~ h_owned k' i a;
  h_link_absent i k rc err out t k' a : c_run (show_link i) None k = (RanFailed rc err out t, k') ->
    absent_answer rc err out = true -> ~ h_owned k' i a;
  h_dev_absent i a k rc err out t k' b : c_run (show_addr i a) None k = (RanFailed rc err out t, k') ->
    absent_answer rc err out = true -> ~ h_owned k' i b;
  h_listed i a k out k' : c_run (show_addr i a) None k = (RanOk (Some out), k') -> h_owned k' i a ->
    exists tok, tok ∈ words out /\ addr_token tok = addr_token a;
  (** [nft -f] is a transaction: all of the script or nothing of it.  One that failed or was killed
      may have committed all the same *)
  nft_loads p up k r k' : c_run ["nft"; "-f"; "-"] (Some (nft_script p up)) k = (r, k') ->
    loaded k' = nft_script p up \/ (loaded k' = loaded k /\ forall o, r <> RanOk o);
  run_keeps argv input k r k' : keeps_tables argv input -> c_run argv input k = (r, k') -> loaded k' = loaded k;
  service_keeps x k ans k' : c_service x k = (ans, k') -> loaded k' = loaded k
}.

Section linux_facts.
Context {C : Type} (c_run : list string -> option string -> C -> ran * C) (c_service : service -> C -> answer * C).
Context `{!HostSpec C c_run c_service}.
Context (json_loads : string -> option json) (s : settings).
Implicit Types (k : C).

(** The rules in force name the interface, under the kill switch. *)
Definition covered k (i : string) : Prop :=
  exists p up, loaded k = nft_script p up /\ np_kill_switch p = true /\ i ∈ segment_ifaces p.

(** Neither the rules nor the addresses changed for the worse. *)
Definition quiet k k' : Prop := loaded k' = loaded k /\ forall i a, h_owned k' i a -> h_owned k i a.
#[local] Instance quiet_pre : PreOrder quiet.
Proof. split; [by split|]. intros a b c [H1 H2] [H3 H4]. split; [congruence|auto]. Qed.

(** The commands the backend runs beside loading a script. *)
Definition plain (argv : list string) : Prop := keeps_tables argv None /\ forall i t v6, argv <> replace_addr i t v6.

Lemma run_quiet argv k r k' : plain argv -> c_run argv None k = (r, k') -> quiet k k'.
Proof.
  intros [Hk Hr] E. split; [by eapply run_keeps|]. intros i a Ho. destruct (h_run_owned _ _ _ _ _ i a E Ho) as [|(t & v6 & -> & _)]; [done|].
  by destruct (Hr i t v6).
Qed.

Lemma run_cmd_quiet argv k r k' : plain argv -> run_cmd c_run argv k = (r, k') -> quiet k k'.
Proof.
  intros Hp. unfold run_cmd, run_in. destruct (c_run argv None k) as [x k1] eqn:E. apply run_quiet in E; [|done]. by destruct x; intros [= <- <-].
Qed.
Lemma delete_or_absent_quiet argv k r k' : plain argv -> delete_or_absent c_run argv k = (r, k') -> quiet k k'.
Proof.
  intros Hp. unfold delete_or_absent. destruct (c_run argv None k) as [x k1] eqn:E. apply run_quiet in E; [|done]. by destruct x; intros [= <- <-].
Qed.
Lemma cleanup_quiet argv l k r k' : plain argv -> cleanup_command c_run argv l k = (r, k') -> quiet k k'.
Proof.
  intros Hp. unfold cleanup_command. destruct (c_run argv None k) as [x k1] eqn:E. apply run_quiet in E; [|done]. by destruct x; intros [= <- <-].
Qed.
Lemma service_quiet x k r k' : c_service x k = (r, k') -> quiet k k'.
Proof. intros E. split; [by eapply service_keeps|]. intros i a. by eapply h_service_owned. Qed.

(** Recognises a command of the backend. *)
Ltac cmd := split; [first [by left | by right; right; left]|intros ? ? []; done].

Lemma remove_v6_quiet f t k r k' : remove_v6_policy_routing c_run f t k = (r, k') -> quiet k k'.
Proof.
  unfold remove_v6_policy_routing. destruct (cleanup_command _ _ _ k) as [f1 k1] eqn:E1. apply cleanup_quiet in E1; [|cmd].
  destruct (cleanup_command _ _ _ k1) as [f2 k2] eqn:E2. apply cleanup_quiet in E2; [|cmd]. intros [= <- <-]. by etrans.
Qed.
Lemma remove_policy_quiet f t k r k' : remove_policy_routing c_run f t k = (r, k') -> quiet k k'.
Proof.
  unfold remove_policy_routing. destruct (cleanup_command _ _ _ k) as [f1 k1] eqn:E1. apply cleanup_quiet in E1; [|cmd].
  destruct (cleanup_command _ _ _ k1) as [f2 k2] eqn:E2. apply cleanup_quiet in E2; [|cmd].
  destruct (remove_v6_policy_routing c_run f t k2) as [f3 k3] eqn:E3. apply remove_v6_quiet in E3. intros [= <- <-]. by etrans; [|etrans].
Qed.
Lemma remove_lan_quiet k r k' : remove_lan_chain c_run k = (r, k') -> quiet k k'.
Proof.
  unfold remove_lan_chain. destruct (cleanup_command _ _ _ k) as [f1 k1] eqn:E1. apply cleanup_quiet in E1; [|cmd].
  destruct (cleanup_command _ _ _ k1) as [f2 k2] eqn:E2. apply cleanup_quiet in E2; [|cmd].
  destruct (cleanup_command _ _ _ k2) as [f3 k3] eqn:E3. apply cleanup_quiet in E3; [|cmd]. intros [= <- <-]. by etrans; [|etrans].
Qed.
Lemma run_each_quiet cmds k r k' : Forall plain cmds -> run_each c_run cmds k = (r, k') -> quiet k k'.
Proof.
  intros HF. revert k r k'. induction HF as [|c cmds Hc HF IH]; intros k r k'; simpl; [by intros [= <- <-]|].
  destruct (run_cmd c_run c k) as [x k1] eqn:E. apply run_cmd_quiet in E; [|done]. destruct x; [by intros [= <- <-]|]. intros E'%IH. by etrans.
Qed.
Lemma run_ok_quiet argv k : plain argv -> quiet k (run_ok c_run argv k).
Proof. intros Hp. unfold run_ok. destruct (c_run argv None k) as [x k1] eqn:E. by apply run_quiet in E. Qed.

Lemma lan_quiet p k r k' : apply_lan_access c_run p k = (r, k') -> quiet k k'.
Proof.
  unfold apply_lan_access. destruct (_ || _); [by intros [= <- <-]|]. destruct (negb _).
  { destruct (remove_lan_chain c_run k) as [f k1] eqn:E. apply remove_lan_quiet in E. by intros [= <- <-]. }
  match goal with |- context [run_each c_run ?cs ?k2] => destruct (run_each c_run cs k2) as [x k3] eqn:E end.
  apply run_each_quiet in E.
  - assert (quiet k k3) as Hq.
    { etrans; [|exact E]. etrans; apply run_ok_quiet; cmd. }
    by destruct x; intros [= <- <-].
  - repeat constructor; try done; intros ? ? []; done.
Qed.

Lemma proc_quiet path v k r k' : proc_value c_service path v k = (r, k') -> quiet k k'.
Proof.
  unfold proc_value. destruct (c_service (WriteProc path v) k) as [a k1] eqn:E1. apply service_quiet in E1.
  destruct (c_service (ReadProc path) k1) as [b k2] eqn:E2. apply service_quiet in E2.
  destruct a; intros [= <- <-]; try done; by etrans.
Qed.
Lemma forward_quiet v6 k r k' : ensure_forward c_service s v6 k = (r, k') -> quiet k k'.
Proof.
  unfold ensure_forward. destruct (proc_value _ _ _ k) as [v4 k1] eqn:E1. apply proc_quiet in E1. destruct (negb v4); [by intros [= <- <-]|].
  destruct v6; [|by intros [= <- <-]]. destruct (proc_value _ _ _ k1) as [x k2] eqn:E2. apply proc_quiet in E2.
  destruct (negb x); [intros [= <- <-]; by etrans|]. destruct (proc_value _ _ _ k2) as [y k3] eqn:E3. apply proc_quiet in E3.
  destruct (negb y); intros [= <- <-]; by etrans; [|etrans].
Qed.

Lemma json_quiet argv k r k' : plain argv -> json_entries c_run json_loads argv k = (r, k') -> quiet k k'.
Proof.
  intros Hp. unfold json_entries, run_in. destruct (c_run argv None k) as [x k1] eqn:E. apply run_quiet in E; [|done]. by destruct x; intros [= <- <-].
Qed.
Lemma verify_family_quiet l flag p k r k' : flag = [] \/ flag = ["-6"] -> verify_family c_run json_loads l flag p k = (r, k') -> quiet k k'.
Proof.
  intros Hf. unfold verify_family. destruct (json_entries _ _ _ k) as [x k1] eqn:E1. apply json_quiet in E1; [|destruct Hf as [-> | ->]; cmd].
  destruct x as [e|rules]; [by intros [= <- <-]|]. destruct (json_entries _ _ _ k1) as [y k2] eqn:E2. apply json_quiet in E2; [|destruct Hf as [-> | ->]; cmd].
  assert (quiet k k2) by (by etrans). destruct y as [e|routes]; [by intros [= <- <-]|]. destruct (negb _); [by intros [= <- <-]|]. by destruct (negb _); intros [= <- <-].
Qed.
Lemma verify_table_quiet f k r k' : verify_table c_run f k = (r, k') -> quiet k k'.
Proof. apply run_cmd_quiet. cmd. Qed.
Lemma verify_quiet p k r k' : verify_tproxy c_run json_loads p k = (r, k') -> quiet k k'.
Proof.
  unfold verify_tproxy. destruct (verify_table c_run "ip" k) as [x k1] eqn:E1. apply verify_table_quiet in E1. destruct x; [by intros [= <- <-]|].
  destruct (verify_table c_run "ip6" k1) as [y k2] eqn:E2. apply verify_table_quiet in E2. assert (quiet k k2) as Q2 by (by etrans).
  destruct y; [by intros [= <- <-]|]. destruct (verify_family _ _ "IPv4" [] p k2) as [z k3] eqn:E3. apply verify_family_quiet in E3; [|by left].
  assert (quiet k k3) as Q3 by (by etrans). destruct z; [by intros [= <- <-]|]. destruct (np_ipv6_enabled p); [|by intros [= <- <-]].
  intros E4%verify_family_quiet; [by etrans|by right].
Qed.
Lemma policy_quiet flag p k r k' : flag = [] \/ flag = ["-6"] -> policy_family c_run flag p k = (r, k') -> quiet k k'.
Proof.
  intros Hf. unfold policy_family. destruct (delete_or_absent c_run _ k) as [x k1] eqn:E1. apply delete_or_absent_quiet in E1; [|destruct Hf as [-> | ->]; cmd].
  destruct x; [by intros [= <- <-]|]. destruct (run_cmd c_run _ k1) as [y k2] eqn:E2. apply run_cmd_quiet in E2; [|destruct Hf as [-> | ->]; cmd].
  assert (quiet k k2) by (by etrans). destruct y; [by intros [= <- <-]|]. intros E3%run_cmd_quiet; [by etrans|destruct Hf as [-> | ->]; cmd].
Qed.

(** * Loading *)

(** The script is in force; or nothing changed and the operation failed. *)
Definition loads {A} (text : string) k (r : string + A) k' : Prop :=
  (forall i a, h_owned k' i a -> h_owned k i a) /\ (loaded k' = text \/ (loaded k' = loaded k /\ exists e, r = inl e)).

Lemma nft_load_facts p up k r k' : nft_load c_run (nft_script p up) k = (r, k') -> loads (nft_script p up) k r k'.
Proof.
  unfold nft_load, run_in. destruct (c_run _ _ k) as [x k1] eqn:E. pose proof (nft_loads _ _ _ _ _ E) as Hl.
  assert (forall i a, h_owned k1 i a -> h_owned k i a) as Ho.
  { intros i a Hi. destruct (h_run_owned _ _ _ _ _ i a E Hi) as [|(t & [] & Hx & _)]; done. }
  destruct Hl as [Hl | [Hl Hr]]; [destruct x; intros [= <- <-]; (split; [done|by left])|].
  destruct x as [o| |]; [by destruct (Hr o)|..]; intros [= <- <-]; (split; [done|right; split; [done|by eexists]]).
Qed.

(** What follows a load leaves it in force. *)
Lemma loads_then {A B} text k (r : string + A) k1 (r' : string + B) k' : loads text k r k1 -> quiet k1 k' -> (forall e, r = inl e -> exists e', r' = inl e') -> loads text k r' k'.
Proof.
  intros [Ho Hl] [Hq Ho'] Hr. split; [auto|]. rewrite Hq. destruct Hl as [|[Hl [e He]]]; [by left|right]. split; [done|by eapply Hr].
Qed.

Lemma guard_body_facts p k r k' : guard_body c_run p k = (r, k') -> loads (nft_script p false) k r k'.
Proof.
  unfold guard_body. destruct (nft_load c_run _ k) as [x k1] eqn:E1. apply nft_load_facts in E1. destruct x as [e|u].
  { intros [= <- <-]. eapply loads_then; [exact E1|done|]. by eexists. }
  destruct (remove_policy_routing c_run _ _ k1) as [fl k2] eqn:E2. apply remove_policy_quiet in E2.
  assert (forall r' k3, quiet k1 k3 -> loads (nft_script p false) k (r' : string + string) k3) as Hd by (intros r' k3 Hq; by eapply loads_then).
  destruct (negb _); [intros [= <- <-]; by apply Hd|]. destruct (apply_lan_access c_run p k2) as [wn k3] eqn:E3. apply lan_quiet in E3.
  destruct (verify_table c_run "ip" k3) as [y k4] eqn:E4. apply verify_table_quiet in E4. assert (quiet k1 k4) as Q4 by (by etrans; [|etrans]).
  destruct y; [intros [= <- <-]; by apply Hd|].
  match goal with |- context [if np_kill_switch p then ?a else ?b] => destruct (if np_kill_switch p then a else b) as [z k5] eqn:E5 end.
  assert (quiet k4 k5) as Q5.
  { destruct (np_kill_switch p); [by eapply verify_table_quiet|]. by injection E5 as <- <-. }
  destruct z; intros [= <- <-]; apply Hd; by etrans.
Qed.

Lemma seal_facts p k r k' : apply_guard c_run p k = (r, k') ->
  (forall i a, h_owned k' i a -> h_owned k i a) /\ (loaded k' = nft_script p false \/ (loaded k' = loaded k /\ nr_ok r = false)).
Proof.
  unfold apply_guard. destruct (guard_body c_run p k) as [x k1] eqn:E. apply guard_body_facts in E as [Ho Hl].
  destruct x as [e|wn]; intros [= <- <-]; (split; [done|]); destruct Hl as [|[? [? He]]]; [by left|by right|by left|done].
Qed.

Lemma tproxy_body_facts p k r k' : tproxy_body c_run c_service json_loads s p k = (r, k') -> loads (nft_script p true) k r k'.
Proof.
  unfold tproxy_body. destruct (nft_load c_run _ k) as [x k1] eqn:E1. apply nft_load_facts in E1. destruct x as [e|u].
  { intros [= <- <-]. eapply loads_then; [exact E1|done|]. by eexists. }
  assert (forall r' k3, quiet k1 k3 -> loads (nft_script p true) k (r' : string + string) k3) as Hd by (intros r' k3 Hq; by eapply loads_then).
  destruct (policy_family c_run [] p k1) as [y k2] eqn:E2. apply policy_quiet in E2; [|by left]. destruct y; [intros [= <- <-]; by apply Hd|].
  match goal with |- context [if np_ipv6_enabled p then ?a else ?b] => destruct (if np_ipv6_enabled p then a else b) as [z k3] eqn:E3 end.
  assert (quiet k2 k3) as Q3.
  { destruct (np_ipv6_enabled p); [eapply policy_quiet; [by right|exact E3]|]. destruct (remove_v6_policy_routing c_run _ _ k2) as [fl k4] eqn:E4.
    apply remove_v6_quiet in E4. by injection E3 as <- <-. }
  assert (quiet k1 k3) as Q13 by (by etrans). destruct z; [intros [= <- <-]; by apply Hd|].
  destruct (ensure_forward c_service s _ k3) as [fw k4] eqn:E4. apply forward_quiet in E4. assert (quiet k1 k4) as Q14 by (by etrans).
  destruct (negb _); [intros [= <- <-]; by apply Hd|]. destruct (apply_lan_access c_run p k4) as [wn k5] eqn:E5. apply lan_quiet in E5.
  destruct (verify_tproxy c_run json_loads p k5) as [v k6] eqn:E6. apply verify_quiet in E6. assert (quiet k1 k6) as Q16 by (by etrans; [|etrans]).
  destruct v; intros [= <- <-]; by apply Hd.
Qed.

Lemma tproxy_facts p k r k' : apply_tproxy c_run c_service json_loads s p k = (r, k') ->
  (forall i a, h_owned k' i a -> h_owned k i a) /\ ((exists up, loaded k' = nft_script p up) \/ (loaded k' = loaded k /\ nr_ok r = false)).
Proof.
  unfold apply_tproxy. destruct (tproxy_body _ _ _ _ p k) as [x k1] eqn:E. apply tproxy_body_facts in E as [Ho Hl].
  destruct x as [e|wn].
  - unfold failed_apply. destruct (apply_guard c_run p k1) as [g k2] eqn:E2. apply seal_facts in E2 as [Ho2 Hl2]. intros [= <- <-]. split; [auto|].
    destruct Hl2 as [|[-> _]]; [left; by eexists|]. destruct Hl as [|[-> _]]; [left; by eexists|by right].
  - intros [= <- <-]. split; [done|]. destruct Hl as [|[_ [? ?]]]; [left; by eexists|done].
Qed.
End linux_facts.

(** * The backend satisfies the laws of provisioning *)

Lemma panel_cmd_keeps argv input : panel_cmd argv input -> keeps_tables argv input.
Proof.
  destruct argv as [|prog rest]; [done|]. intros [[Hp _]|[_ [[He _]|He]]].
  - left. by destruct Hp as [-> | ->].
  - right. by left.
  - do 3 right. done.
Qed.

Section instance.
Context {C : Type} (c_run : list string -> option string -> C -> ran * C) (c_service : service -> C -> answer * C).
Context `{!HostSpec C c_run c_service}.
Context (json_loads : string -> option json) (s : settings).

#[local] Instance the_kernel : Kernel C := linux_kernel c_run c_service json_loads s.

Lemma covered_keeps (k k' : C) i : loaded k' = loaded k -> covered c_run c_service k i -> covered c_run c_service k' i.
Proof. intros E (p & up & Hl & Hk & Hi). exists p, up. by rewrite E. Qed.

Lemma linux_rules_owned p f (k : C) c k' i a : f = k_tproxy p \/ f = k_guard p -> f k = (c, k') -> h_owned k' i a -> h_owned k i a.
Proof.
  intros [-> | ->]; simpl.
  - destruct (apply_tproxy _ _ _ _ p k) as [r k1] eqn:E. apply (tproxy_facts c_run c_service) in E as [Ho _]. intros [= <- <-]. apply Ho.
  - destruct (apply_guard _ p k) as [r k1] eqn:E. apply (seal_facts c_run c_service) in E as [Ho _]. intros [= <- <-]. apply Ho.
Qed.

Lemma linux_rules_covers p f (k : C) c k' : np_kill_switch p = true -> f = k_tproxy p \/ f = k_guard p -> f k = (c, k') ->
  (forall i, i ∈ segment_ifaces p -> covered c_run c_service k' i) \/
  ((forall r, c = CallResult r -> nr_ok r = false) /\ forall i, covered c_run c_service k i -> covered c_run c_service k' i).
Proof.
  intros Hk Hf E.
  assert (exists r, c = CallResult r /\ ((exists up, loaded k' = nft_script p up) \/ (loaded k' = loaded k /\ nr_ok r = false))) as (r & -> & Hl).
  { destruct Hf as [-> | ->]; simpl in E.
    - destruct (apply_tproxy _ _ _ _ p k) as [r k1] eqn:E'. apply (tproxy_facts c_run c_service) in E' as [_ Hl]. injection E as <- <-. by exists r.
    - destruct (apply_guard _ p k) as [r k1] eqn:E'. apply (seal_facts c_run c_service) in E' as [_ Hl]. injection E as <- <-. exists r. split; [done|].
      destruct Hl as [Hl|Hl]; [left; by eexists|by right]. }
  destruct Hl as [[up Hl]|[Hl Hr]].
  - left. intros i Hi. by exists p, up.
  - right. split; [by intros r' [= <-]|]. intros i. by apply covered_keeps.
Qed.

#[global] Instance linux_spec : KernelSpec C.
Proof.
  unshelve eapply (Build_KernelSpec C _ h_owned (covered c_run c_service)).
  - intros argv input k r k' i a _. apply h_run_owned.
  - intros argv input k r k' i Hp E. apply covered_keeps. eapply run_keeps; [by apply panel_cmd_keeps|exact E].
  - apply h_del_addr.
  - apply h_del_link.
  - apply h_link_absent.
  - apply h_dev_absent.
  - apply h_listed.
  - apply h_service_owned.
  - intros x k ans k' i E. apply covered_keeps. by eapply service_keeps.
  - apply linux_rules_owned.
  - apply linux_rules_covers.
Defined.
End instance.

(** Packets from interface [i] to a destination outside the private networks are not forwarded. *)
Definition sealed (p : plan) (up : bool) (i : string) : Prop :=
  forall k, pk_iif k = i ->
    (in_set (pk_dst k) private4 = false -> route (table4 p up) k <> Passed) /\
    (in_set (pk_dst k) (private6 p) = false -> exists t, table6 p up = Some t /\ route t k <> Passed).

Lemma covered_sealed p up i : np_kill_switch p = true -> i ∈ segment_ifaces p -> sealed p up i.
Proof.
  intros Hk Hi k <-. pose proof (segment_verdict4 p up k Hi) as H4. pose proof (segment_verdict6 p up k Hi) as H6. split.
  - intros Hd. rewrite H4, Hd, Hk. repeat case_match; done.
  - intros Hd. destruct (table6 p up) as [t|]; [|destruct H6; congruence]. exists t. split; [done|]. rewrite H6, Hd. repeat case_match; done.
Qed.

(** The script that replaces both tables of the panel by the printed form of these. *)
Definition script_of (t4 : table) (t6 : option table) : string :=
  "add table ip pi_gw_panel" +:+ line_feed +:+ "delete table ip pi_gw_panel" +:+ line_feed +:+ print_table t4 +:+
  "add table ip6 pi_gw_panel" +:+ line_feed +:+ "delete table ip6 pi_gw_panel" +:+ line_feed +:+ from_option print_table "" t6.
Lemma script_tables p up : nft_script p up = script_of (table4 p up) (table6 p up).
Proof. unfold nft_script, script_of. by rewrite render_nft_printed, render_nft6_printed. Qed.

(** C6: on a host whose tools behave as documented, through every command and store write of a
    provisioning pass with the kill switch on, whatever fails (a killed nft may have loaded its
    script or not), the script in force is the printed form of two tables that let no packet out
    of an interface that carries a segment address to a destination outside the private networks,
    in either family, except into the tunnel.  The pass starts with every interface that carries a
    segment address covered and tracked, and with the rules naming the plan's interface, a record
    naming another one it moves from, or right after a sync of the rules; a store write may fail, or raise once it has taken effect,
    but leaves no other text. *)
Theorem segment_never_leaks {C} c_run c_service `{!HostSpec C c_run c_service} json_loads json_pairs json_dumps s running
    rand rand_fallback has_dnsmasq has_pd P (w0 w : world (backend C)) r w' :
  let K := linux_kernel c_run c_service json_loads s in
  iface_re P = true -> no_garble w0 -> good json_pairs json_dumps s P (w_now w0) -> begins json_pairs json_dumps s P w0 w ->
  host_provision json_pairs json_dumps s running rand rand_fallback has_dnsmasq has_pd w = (r, w') ->
  through w0 w' (fun m => forall i a, h_owned (ker m) i a ->
    exists p up, loaded (ker m) = script_of (table4 p up) (table6 p up) /\ sealed p up i).
Proof.
  intros K HP Hg Hgood Hb E. eapply through_impl; [|exact (pass_goes _ _ _ _ _ _ _ _ P _ _ _ _ HP (conj Hg Hgood) Hb E)].
  intros m [Hs _] i a Ho. destruct (Hs i a Ho) as ((p & up & Hl & Hk & Hi) & _). exists p, up.
  split; [by rewrite <- script_tables|]. by apply covered_sealed.
Qed.

(** * A host on which it runs *)

(** The small machine, with the script that is loaded. *)
Definition box : Type := machine * string.
Definition box_run (argv : list string) (input : option string) (k : box) : ran * box :=
  if decide (argv = ["nft"; "-f"; "-"]) then
    (done_, match input with Some t => if decide (t = EMERGENCY_SCRIPT) then k else (k.1, t) | None => k end)
  else let '(r, m) := machine_run argv input k.1 in (r, (m, k.2)).
Definition box_service (x : service) (k : box) : answer * box := (Served, k).

Lemma script_not_emergency p up : nft_script p up <> EMERGENCY_SCRIPT.
Proof. intros E%(f_equal (str_take 25)). lazy in E. discriminate E. Qed.

#[global] Instance box_spec : HostSpec box box_run box_service.
Proof.
  unshelve eapply (Build_HostSpec box box_run box_service (fun k => on_machine k.1) snd).
  - intros argv input k r k' i a. unfold box_run. case_decide.
    + intros [= <- <-]. destruct input as [t|]; [case_decide|]; by left.
    + destruct (machine_run argv input k.1) as [r' m] eqn:E. intros [= <- <-]. exact (run_machine_owned _ _ _ _ _ i a E).
  - by intros x k ans k' i a [= <- <-].
  - intros i a k o k'. unfold box_run. rewrite decide_False by (unfold del_addr; by destruct (is6 a)).
    destruct (machine_run (del_addr i a) None k.1) as [r' m] eqn:E. intros [= -> <-]. exact (del_addr_gone i a k.1 o m E).
  - intros i k o k' a. unfold box_run. rewrite decide_False by done.
    destruct (machine_run (del_link i) None k.1) as [r' m] eqn:E. intros [= -> <-]. exact (del_link_gone i k.1 o m a E).
  - intros i k rc err out t k' a. unfold box_run. rewrite decide_False by done.
    destruct (machine_run (show_link i) None k.1) as [r' m] eqn:E. intros [= -> <-]. exact (link_absent i k.1 rc err out t m a E).
  - intros i a k rc err out t k' b. unfold box_run. rewrite decide_False by done.
    destruct (machine_run (show_addr i a) None k.1) as [r' m] eqn:E. intros [= -> <-]. exact (addr_dev_absent i a k.1 rc err out t m b E).
  - intros i a k out k'. unfold box_run. rewrite decide_False by done.
    destruct (machine_run (show_addr i a) None k.1) as [r' m] eqn:E. intros [= -> <-]. exact (addr_listed i a k.1 out m E).
  - intros p up k r k'. unfold box_run. rewrite decide_True by done. rewrite decide_False by apply script_not_emergency. intros [= <- <-]. by left.
  - intros argv input k r k' Hk. unfold box_run. case_decide as Ea.
    + subst argv. intros [= <- <-]. destruct Hk as [?|[Hin|[?| ->]]]; [done|set_solver|done|]. by rewrite decide_True.
    + destruct (machine_run argv input k.1) as [r' m]. by intros [= <- <-].
  - by intros x k ans k' [= <- <-].
Defined.

#[local] Instance box_kernel : Kernel box := linux_kernel box_run box_service (fun _ => None) default_settings.

(** The plan of the segment on [eth0.10], whose rules are loaded when the pass begins. *)
Definition old_plan : plan := from_store (set_settings {[ "segment_iface" := "eth0.10" ]} empty_db) default_settings.
Definition box_world (kvs : gmap string string) (k : box) : world (backend box) :=
  World (Moment (set_settings kvs empty_db) ∅ (Net (Backend true k "") "ok" (Some true) "" "" [])) [] None [].
Definition box_start : world (backend box) :=
  box_world demo_settings (Machine ["eth0"; "eth0.10"] [("eth0.10", "192.168.10.1/24")] [], nft_script old_plan false).
Definition box_pass : net_result * world (backend box) :=
  host_provision no_json no_dumps default_settings false [1; 2; 3; 4; 5]%Z [5; 4; 3; 2; 1]%Z true true box_start.

Lemma box_pass_eq :
  host_provision no_json no_dumps default_settings false [1; 2; 3; 4; 5]%Z [5; 4; 3; 2; 1]%Z true true box_start = (box_pass.1, box_pass.2).
Proof. unfold box_pass. apply surjective_pairing. Qed.

Lemma box_good : good no_json no_dumps default_settings "eth0.20" (w_now box_start).
Proof.
  split; [|split; by vm_compute]. intros i a ([= -> ->]%list_elem_of_singleton & _ & _). split_and!.
  - exists old_plan, false. split_and!; [done|by vm_compute|]. apply (bool_decide_unpack _); by vm_compute.
  - by vm_compute.
  - apply demo_canonical.
  - right. right. left. exists "eth0.10", "192.168.10.1/24". split_and!; [by vm_compute..|]. left. split; by vm_compute.
Qed.

Lemma box_ready : ready "eth0.20" (w_now box_start).
Proof.
  right. exists "eth0.10", "192.168.10.1/24". split_and!; [by vm_compute|done|]. right. right.
  unfold link_tracks, names_or_unknown. exists "eth0.10". split; [|done]. apply (bool_decide_unpack _); by vm_compute.
Qed.

Lemma segment_never_leaks_witness :
  through box_start box_pass.2 (fun m => forall i a, h_owned (ker m) i a ->
    exists p up, loaded (ker m) = script_of (table4 p up) (table6 p up) /\ sealed p up i) /\
  nr_ok box_pass.1 = true /\
  mc_addrs (b_kernel (the_backend box_pass.2)).1 = [("eth0.20", "192.168.20.1/24"); ("eth0.20", "fd05:403:201:14::1/64")].
Proof.
  split; [|split; by vm_compute].
  exact (segment_never_leaks box_run box_service (fun _ => None) no_json no_dumps default_settings false [1; 2; 3; 4; 5]%Z [5; 4; 3; 2; 1]%Z true true
    "eth0.20" box_start box_start box_pass.1 box_pass.2 eq_refl (Forall_nil_2 _) box_good (begins_ready _ _ _ _ _ box_ready) box_pass_eq).
Defined.
