(* ===== verification/NetSettings.v ===== *)
(** The shared validators of [config.py]: the bounds and choices of the settings table, the
    segment, DHCP and DNS values, and the cross-field refusals that keep a segment off the
    management network.  The interactive routes and the backup document both go through them. *)
From Stdlib Require Import ZArith Lia Ascii.
From stdpp Require Import base gmap strings list.
From S2P Require Import Prelude PyStr Ip IpText Models Json Config Store Plan Ledgers Nft Render Linux.
Open Scope string_scope.
Open Scope list_scope.
Open Scope Z_scope.

(** Results; the error is the text of the ValueError. *)
Definition ebind {E A B} (m : E + A) (k : A -> E + B) : E + B :=
  match m with inl e => inl e | inr a => k a end.
Notation "'let*' x := m 'in' k" := (ebind m (fun x => k)) (at level 200, x name, m at level 100, k at level 200).
Notation "'let*' '_' := m 'in' k" := (ebind m (fun _ => k)) (at level 200, m at level 100, k at level 200).

(** A loop that stops at the first error. *)
Fixpoint efor {E A} (f : A -> E + unit) (l : list A) : E + unit :=
  match l with
  | [] => inr tt
  | x :: l' => let* _ := f x in efor f l'
  end.
(** The same, threading a value. *)
Fixpoint efold {E A S} (f : S -> A -> E + S) (st : S) (l : list A) : E + S :=
  match l with
  | [] => inr st
  | x :: l' => let* st := f st x in efold f st l'
  end.

(** The values of a request body or a document, by key. *)
Notation values := (gmap string json).

(** * The settings table *)

Definition SETTINGS_DEFAULTS : list (string * string) :=
  [("tunneled_fetch", "1"); ("subs_auto_switch", "1"); ("routing_default_action", "proxy"); ("health_enabled", "1");
   ("health_sweep_enabled", "1"); ("health_interval", "1800"); ("health_active_interval", "60");
   ("health_hysteresis", "3"); ("health_probe_url", "https://api.ipify.org?format=json");
   ("health_probe_url6", "https://api6.ipify.org?format=json"); ("failover_enabled", "1");
   ("failover_cooldown", "120"); ("stats_enabled", "1"); ("stats_api_port", "10085"); ("traffic_sample_ms", "1000");
   ("dns_intercept", "0"); ("routing_domain_strategy", "IPIfNonMatch"); ("session_timeout_min", "0");
   ("auto_backup_enabled", "0"); ("update_check_enabled", "1"); ("traffic_cap_gb", "0");
   ("traffic_cap_reset_day", "1"); ("diag_url", "https://speed.cloudflare.com/__down?bytes=1048576");
   ("diag_bytes", "262144"); ("ipv6_enabled", "0"); ("segment_ip6", ""); ("manage_segment", "1");
   ("manage_dnsmasq", "1"); ("ipv6_pd", "0"); ("client_dns6", "2606:4700:4700::1111")].

Definition SETTINGS_INT_BOUNDS : list (string * (Z * option Z)) :=
  [("health_interval", (60, None)); ("health_active_interval", (10, None)); ("health_hysteresis", (1, None));
   ("failover_cooldown", (0, None)); ("session_timeout_min", (0, None)); ("traffic_sample_ms", (500, Some 60000));
   ("stats_api_port", (1, Some 65535)); ("traffic_cap_gb", (0, Some 1000000)); ("traffic_cap_reset_day", (1, Some 28));
   ("diag_bytes", (16384, Some 1048576))].
Definition SETTINGS_CHOICES : list (string * list string) :=
  [("routing_default_action", ["direct"; "proxy"; "block"]);
   ("routing_domain_strategy", ["AsIs"; "IPIfNonMatch"; "IPOnDemand"])].

(** [int(value)] of a JSON value; [None] is TypeError or ValueError. *)
Definition int_of (v : json) : option Z :=
  match v with JNum z => Some z | JBool b => Some (if b then 1 else 0) | JStr s => py_int s | _ => None end.

Definition validate_int (data : values) (reserved : list Z) (entry : string * (Z * option Z)) : string + unit :=
  let '(key, (low, high)) := entry in
  match data !! key with
  | None => inr tt
  | Some (JBool _) => inl (key +:+ " must be an integer")
  | Some v =>
      match int_of v with
      | None => inl (key +:+ " must be an integer")
      | Some n =>
          if bool_decide (key = "stats_api_port") then
            if negb ((low <=? n) && (n <=? default n high)) then inl "stats_api_port must be 1..65535"
            else if bool_decide (n ∈ reserved) then inl "stats_api_port collides with a system port"
            else inr tt
          else if n <? low then inl (key +:+ " must be >= " +:+ str_int low)
          else match high with
               | Some h => if h <? n then inl (key +:+ " must be <= " +:+ str_int h) else inr tt
               | None => inr tt
               end
      end
  end.
Definition validate_choice (data : values) (entry : string * list string) : string + unit :=
  let '(key, allowed) := entry in
  match data !! key with
  | Some v => if bool_decide (py_str v ∈ allowed) then inr tt else inl (key +:+ " must be " +:+ join "/" allowed)
  | None => inr tt
  end.
Definition validate_setting_values (data : values) (reserved : list Z) : string + unit :=
  let* _ := efor (validate_int data reserved) SETTINGS_INT_BOUNDS in
  efor (validate_choice data) SETTINGS_CHOICES.

(** * Segment, DHCP and DNS values *)

(** [_NET_IFACE_RE] and [_NET_LEASE_RE] with [fullmatch]. *)
Definition net_iface_char (c : ascii) : bool := is_alnum c || bool_decide (c ∈ ["."; "_"; "@"; ":"; "-"]%char).
Definition net_iface_re (s : string) : bool :=
  (1 <=? String.length s)%nat && (String.length s <=? 15)%nat && str_all net_iface_char s.
Definition lease_digits (s : string) : bool :=
  (1 <=? String.length s)%nat && (String.length s <=? 9)%nat && str_all is_digit s.
Definition net_lease_re (s : string) : bool :=
  bool_decide (s = "infinite") || lease_digits s ||
  (from_option (fun c => bool_decide (c ∈ ["s"; "m"; "h"; "d"; "w"]%char)) false (last_char s) &&
   lease_digits (str_take (String.length s - 1) s)).

Definition NET_SETTING_KEYS : list string :=
  ["segment_iface"; "segment_ip"; "segment_ip6"; "dhcp_start"; "dhcp_end"; "dhcp_lease"; "client_dns"; "client_dns6"; "ula_prefix6"].
Definition NET_IPV4_KEYS : list string := ["segment_ip"; "dhcp_start"; "dhcp_end"; "client_dns"].

Definition v6_prefix64 (value field what : string) : string + string :=
  match ip6_network value with
  | None => inl (field +:+ ": must be " +:+ what)
  | Some n => if net_prefix n =? 64 then inr (net_str n) else inl (field +:+ ": must use a /64 prefix")
  end.

(** [present(field)] *)
Definition present (data : values) (field : string) : option string :=
  match data !! field with
  | None => None
  | Some v =>
      let text := strip (match v with JNull => "" | _ => py_str v end) in
      if bool_decide (text = "") then None else Some text
  end.

Section net.
Context (data : values).

Definition put_ip4 (out : gmap string string) (field : string) : string + gmap string string :=
  match present data field with
  | None => inr out
  | Some v => match ip4_parse v with
              | None => inl (field +:+ ": must be an IPv4 address")
              | Some _ => inr (<[field := v]> out)
              end
  end.
Definition put_iface (out : gmap string string) : string + gmap string string :=
  match data !! "segment_iface" with
  | None => inr out
  | Some _ =>
      match present data "segment_iface" with
      | Some v => if net_iface_re v then inr (<["segment_iface" := v]> out)
                  else inl "segment_iface: must be a plain interface name"
      | None => inl "segment_iface: must be a plain interface name"
      end
  end.
Definition put_dns6 (out : gmap string string) : string + gmap string string :=
  match present data "client_dns6" with
  | None => inr out
  | Some v => match ip6_parse v with
              | None => inl "client_dns6: must be an IPv6 address"
              | Some _ => inr (<["client_dns6" := v]> out)
              end
  end.
Definition put_lease (out : gmap string string) : string + gmap string string :=
  match present data "dhcp_lease" with
  | None => inr out
  | Some v => if net_lease_re v then inr (<["dhcp_lease" := v]> out)
              else inl "dhcp_lease: must be a lease time like '12h', '3600', or 'infinite'"
  end.
Definition put_ip6 (out : gmap string string) : string + gmap string string :=
  match present data "segment_ip6" with
  | None => inr out
  | Some v =>
      if bool_decide (lower v = "auto") then inr (<["segment_ip6" := v]> out)
      else let* n := v6_prefix64 v "segment_ip6" "an IPv6 /64 or 'auto'" in inr (<["segment_ip6" := n]> out)
  end.
Definition put_ula (out : gmap string string) : string + gmap string string :=
  match present data "ula_prefix6" with
  | None => inr out
  | Some v => let* n := v6_prefix64 v "ula_prefix6" "an IPv6 /64 prefix" in inr (<["ula_prefix6" := n]> out)
  end.
Definition validate_net_settings : string + gmap string string :=
  let* out := put_iface ∅ in
  let* out := efold put_ip4 out NET_IPV4_KEYS in
  let* out := put_dns6 out in
  let* out := put_lease out in
  let* out := put_ip6 out in
  put_ula out.
End net.

(** * Cross-field refusals *)

Definition NET_CROSS_FIELD_KEYS : list string := ["segment_iface"; "segment_ip"; "client_dns"].
Definition same_net24 (a b : string) : bool := negb (bool_decide (net24 a = "")) && bool_decide (net24 a = net24 b).
Definition inside (ip network : string) : bool :=
  match ip_address ip, ip_network network with
  | Some (v, a), Some n => (v =? net_version n) && in_net n a
  | _, _ => false
  end.
(** [str(net.get(field) or "").strip()] *)
Definition field_text (net : values) (field : string) : string :=
  match net !! field with Some v => if jtruthy v then strip (py_str v) else "" | None => "" end.

Definition check_change_safe (net : values) (s : settings) : list string :=
  let seg_iface := field_text net "segment_iface" in
  let seg_ip := field_text net "segment_ip" in
  let dns := field_text net "client_dns" in
  let mgmt_iface := strip (c_mgmt_iface s) in
  let mgmt_ip := strip (c_mgmt_ip s) in
  let seg_net := net24 seg_ip in
  (if negb (bool_decide (seg_iface = "")) && negb (bool_decide (mgmt_iface = "")) && bool_decide (seg_iface = mgmt_iface) then
     ["segment_iface: '" +:+ seg_iface +:+ "' is also the management interface (mgmt_iface) — the " +:+
      "kill-switch drop, the tproxy redirect and the segment's DHCP server would be " +:+
      "installed on the leg this panel is reached on, and applying that would take away " +:+
      "the access needed to undo it. Use a separate link (a VLAN of it, e.g. " +:+
      "'" +:+ seg_iface +:+ ".2', is fine)"]
   else []) ++
  (if negb (bool_decide (seg_ip = "")) && negb (bool_decide (mgmt_ip = "")) && same_net24 seg_ip mgmt_ip then
     ["segment_ip: " +:+ seg_ip +:+ " is in the management network (" +:+ net24 mgmt_ip +:+ ", which holds " +:+
      "mgmt_ip " +:+ mgmt_ip +:+ ") — the segment, its DHCP pool and the LAN-access NAT would overlap " +:+
      "the network this panel is reached on. Give the segment its own /24"]
   else []) ++
  (if negb (bool_decide (dns = "")) && negb (bool_decide (seg_net = "")) && negb (bool_decide (dns = seg_ip)) && inside dns seg_net then
     ["client_dns: " +:+ dns +:+ " is inside the segment network (" +:+ seg_net +:+ ") — traffic to a private " +:+
      "destination is never tunneled, and nothing answers DNS at that address. Use a public " +:+
      "resolver, or the gateway itself (" +:+ seg_ip +:+ ")"]
   else []).
