(* ===== verification/Backup.v ===== *)
(** [backup/__init__.py]: the backup document, its validation, the export of the stored
    configuration and the import that replaces it.

    A [document] holds the values after pydantic's conversion of the JSON text to the declared
    types; the declared bounds and choices, the validators and their order are the source's.
    [BadField] is a declared bound or choice that does not hold (the message is pydantic's),
    [Refused] a ValueError of the code. *)
From Stdlib Require Import ZArith Lia Ascii.
From stdpp Require Import base gmap strings list.
From S2P Require Import Prelude PyStr Ip IpText Models Json Config Store Plan Records Render RwInbound NetSettings.
Open Scope string_scope.
Open Scope list_scope.
Open Scope Z_scope.

(** * The document *)

(** [bn_node] holds every field of [BackupNode] but the id; its own id is not read. *)
Record bnode := BackupNode { bn_id : Z; bn_node : node }.
Record bprofile := BackupProfile { bp_id : Z; bp_profile : profile }.
Record bsub := BackupSubscription {
  bs_id : Z;
  bs_name : string;
  bs_url : string;
  bs_injection : json;
  bs_interval_sec : Z;
  bs_enabled : bool;
  bs_default_profile_id : option Z
}.
Record brule := BackupRule {
  br_type : string;
  br_value : string;
  br_action : string;
  br_enabled : bool;
  br_label : string;
  br_dataset : string
}.
Record breservation := BackupReservation { bv_mac : string; bv_ip : string; bv_name : string }.

(** [b_default_action] is [None] when the document does not set it ([model_fields_set]). *)
Record document := BackupDocument {
  b_schema_version : Z;
  b_created_at : option Z;
  b_nodes : list bnode;
  b_subscriptions : list bsub;
  b_profiles : list bprofile;
  b_rules : list brule;
  b_default_action : option string;
  b_reservations : list breservation;
  b_settings : values
}.

Definition BACKUP_SCHEMA : Z := 3.
Definition MAX_NODES : nat := 5000.
Definition MAX_SUBSCRIPTIONS : nat := 256.
Definition MAX_PROFILES : nat := 256.
Definition MAX_RULES : nat := 256.
Definition MAX_RESERVATIONS : nat := 64.

Definition SETTINGS_KEYS : list string :=
  SETTINGS_DEFAULTS.*1 ++
  ["segment_iface"; "segment_ip"; "dhcp_start"; "dhcp_end"; "dhcp_lease"; "client_dns"; "kill_switch_enabled";
   "lan_access_enabled"; "default_profile_id"; "ula_prefix6"; "rw_enabled"; "rw_port"; "rw_dest"; "rw_server_names";
   "rw_short_ids"; "rw_public_key"; "rw_endpoint"; "rw_hosts"; "rw_routed_nets"].
Definition SETTINGS_NEVER_BACKED_UP : list string := ["rw_private_key"; "rw_clients"].

Inductive refusal :=
  | BadField (loc : string)
  | Refused (msg : string)
  | RwRefused (e : rw_error)
  | SsRefused (e : ss_issue).

(** * Declared fields *)

Definition most (n : nat) (s : string) : bool := (String.length s <=? n)%nat.
Definition between (lo hi : nat) (s : string) : bool := (lo <=? String.length s)%nat && most hi s.
Definition positive_or_none (i : option Z) : bool := from_option (fun z => 0 <? z) true i.
Definition one_of (l : list string) (s : string) : bool := bool_decide (s ∈ l).

Definition check_fields (fields : list (string * bool)) : refusal + unit :=
  efor (fun f : string * bool => if f.2 then inr tt else inl (BadField f.1)) fields.

Definition noise_fields (n : noise) : list (string * bool) :=
  [("type", one_of ["rand"; "str"; "base64"; "hex"] (noise_type n)); ("packet", most 256 (noise_packet n));
   ("delay", most 64 (noise_delay n))].

Definition profile_fields (b : bprofile) : list (string * bool) :=
  let p := bp_profile b in
  [("id", 0 <? bp_id b); ("name", between 1 512 (p_name p)); ("fingerprint", most 32 (p_fingerprint p));
   ("frag_packets", most 64 (p_frag_packets p)); ("frag_length", most 64 (p_frag_length p));
   ("frag_interval", most 64 (p_frag_interval p)); ("doh_url", most 2048 (p_doh_url p));
   ("quic", one_of ["allow"; "drop"; "proxy"] (p_quic p)); ("noises", (length (p_noises p) <=? 32)%nat)] ++
  (p_noises p ≫= noise_fields) ++
  [("xhttp_padding", most 64 (p_xhttp_padding p)); ("xmux_max_concurrency", most 64 (p_xmux_max_concurrency p));
   ("xmux_max_connections", most 64 (p_xmux_max_connections p)); ("mux_concurrency", most 64 (p_mux_concurrency p));
   ("xudp_proxy_udp443", most 32 (p_xudp_proxy_udp443 p)); ("alpn", most 128 (p_alpn p)); ("tls_min", most 32 (p_tls_min p));
   ("tls_max", most 32 (p_tls_max p))].
Definition validate_profile (b : bprofile) : refusal + unit := check_fields (profile_fields b).

Definition node_fields (b : bnode) : list (string * bool) :=
  let n := bn_node b in
  [("id", 0 <? bn_id b); ("name", between 1 512 (n_name n)); ("address", between 1 253 (n_address n));
   ("port", (1 <=? n_port n) && (n_port n <=? 65535)); ("uuid", most 512 (n_uuid n));
   ("protocol", one_of ["vless"; "trojan"; "shadowsocks"] (n_protocol n)); ("password", most 512 (n_password n));
   ("method", most 64 (n_method n)); ("transport", one_of ["vision"; "xhttp"] (n_transport n)); ("sni", most 253 (n_sni n));
   ("public_key", most 512 (n_public_key n)); ("short_id", most 512 (n_short_id n)); ("fingerprint", most 32 (n_fingerprint n));
   ("flow", most 64 (n_flow n)); ("network", most 32 (n_network n)); ("security", most 32 (n_security n));
   ("path", most 512 (n_path n)); ("host", most 253 (n_host n)); ("mode", most 64 (n_mode n)); ("alpn", most 128 (n_alpn n));
   ("note", most 512 (n_note n)); ("subscription_id", positive_or_none (n_subscription_id n));
   ("tuning_profile_id", positive_or_none (n_tuning_profile_id n));
   ("position", (0 <=? n_position n) && (n_position n <=? Z.of_nat MAX_NODES))].
(** [BackupNode.required_credential] *)
Definition required_credential (b : bnode) : refusal + unit :=
  let n := bn_node b in
  let* _ :=
    (if bool_decide (n_protocol n = "vless") then
       if bool_decide (n_uuid n = "") then inl (Refused "a vless node needs a uuid") else inr tt
     else if bool_decide (n_password n = "") then inl (Refused ("a " +:+ n_protocol n +:+ " node needs a password"))
     else inr tt) in
  if bool_decide (n_protocol n = "shadowsocks") then
    if negb (bool_decide (n_method n ∈ SS_METHODS)) then inl (Refused ("unsupported shadowsocks cipher " +:+ repr (n_method n)))
    else match ss_password_issue (n_method n) (n_password n) with Some e => inl (SsRefused e) | None => inr tt end
  else inr tt.
Definition validate_node (b : bnode) : refusal + unit :=
  let* _ := check_fields (node_fields b) in required_credential b.

Definition rule_fields (r : brule) : list (string * bool) :=
  [("type", one_of ["geoip"; "geosite"; "domain"; "ip"; "port"; "device"] (br_type r)); ("value", between 1 512 (br_value r));
   ("action", one_of ["direct"; "proxy"; "block"] (br_action r)); ("label", most 512 (br_label r));
   ("dataset", one_of [""; "ru"] (br_dataset r))].
Definition reservation_fields (v : breservation) : list (string * bool) :=
  [("mac", between 1 64 (bv_mac v)); ("ip", between 1 64 (bv_ip v)); ("name", most 32 (bv_name v))].
Definition validate_reservation (v : breservation) : refusal + unit :=
  let* _ := check_fields (reservation_fields v) in
  match reservation_value_issue (bv_mac v) (bv_ip v) (bv_name v) with
  | Some problem => inl (Refused ("reservation " +:+ bv_mac v +:+ ": " +:+ problem))
  | None => inr tt
  end.

(** The walk of [bounded_injection]: a stack of values with their depth, the top first.  Each
    round counts one item, so the bound on the items is fuel enough. *)
Definition INJECTION_FUEL : nat := 2050.
Definition child_stack (j : json) (depth : nat) : string + list (json * nat) :=
  match j with
  | JObj kvs =>
      if existsb (fun kv => (512 <? String.length kv.1)%nat) kvs then inl "subscription injection key is too long"
      else inr (rev ((fun kv => (kv.2, S depth)) <$> kvs))
  | JArr l => inr (rev ((fun x => (x, S depth)) <$> l))
  | JStr s => if (8192 <? String.length s)%nat then inl "subscription injection value is too long" else inr []
  | _ => inr []
  end.
Fixpoint walk_injection (fuel : nat) (stack : list (json * nat)) (items : nat) : string + unit :=
  match fuel, stack with
  | O, _ | _, [] => inr tt
  | S fuel, (j, depth) :: stack =>
      if (8 <? depth)%nat then inl "subscription injection nesting is too deep"
      else if (2048 <? S items)%nat then inl "subscription injection has too many items"
      else let* children := child_stack j depth in walk_injection fuel (children ++ stack) (S items)
  end.

(** The keys of [settings] are free here; the values are text, integers or booleans. *)
Definition is_scalar (v : json) : bool := match v with JStr _ | JNum _ | JBool _ => true | _ => false end.

Section validate.
(** [json.loads] ([None] is ValueError) and [json.dumps(x, separators=(",", ":"))]. *)
Context (json_loads : string -> option json) (json_compact : json -> string).

Definition bounded_injection (b : bsub) : refusal + unit :=
  match walk_injection INJECTION_FUEL [(bs_injection b, O)] 0 with
  | inl e => inl (Refused e)
  | inr _ => if (65536 <? String.length (json_compact (bs_injection b)))%nat then inl (Refused "subscription injection is too large")
             else inr tt
  end.
Definition sub_fields (b : bsub) : list (string * bool) :=
  [("id", 0 <? bs_id b); ("name", between 1 512 (bs_name b)); ("url", between 1 2048 (bs_url b));
   ("injection", is_obj (bs_injection b)); ("interval_sec", (0 <=? bs_interval_sec b) && (bs_interval_sec b <=? 31536000));
   ("default_profile_id", positive_or_none (bs_default_profile_id b))].
Definition validate_sub (b : bsub) : refusal + unit :=
  let* _ := check_fields (sub_fields b) in bounded_injection b.

(** [normalize_legacy_empty_profiles] *)
Definition normalize_legacy_empty_profiles (doc : document) : document :=
  if (b_schema_version doc =? 1) && bool_decide (length (b_profiles doc) = O) then
    BackupDocument (b_schema_version doc) (b_created_at doc) (b_nodes doc) (b_subscriptions doc)
      [BackupProfile 1 (mk_profile None "default")] (b_rules doc) (b_default_action doc) (b_reservations doc)
      (match b_settings doc !! "default_profile_id" with
       | Some _ => b_settings doc
       | None => <["default_profile_id" := JStr "1"]> (b_settings doc)
       end)
  else doc.

Definition validate_fields (doc : document) : refusal + unit :=
  let* _ := check_fields [("schema_version", bool_decide (b_schema_version doc ∈ [1; 2; 3]));
                          ("created_at", from_option (fun z => 0 <=? z) true (b_created_at doc));
                          ("nodes", (length (b_nodes doc) <=? MAX_NODES)%nat)] in
  let* _ := efor validate_node (b_nodes doc) in
  let* _ := check_fields [("subscriptions", (length (b_subscriptions doc) <=? MAX_SUBSCRIPTIONS)%nat)] in
  let* _ := efor validate_sub (b_subscriptions doc) in
  let* _ := check_fields [("profiles", (1 <=? length (b_profiles doc))%nat && (length (b_profiles doc) <=? MAX_PROFILES)%nat)] in
  let* _ := efor validate_profile (b_profiles doc) in
  let* _ := check_fields [("routing.rules", (length (b_rules doc) <=? MAX_RULES)%nat)] in
  let* _ := efor (fun r => check_fields (rule_fields r)) (b_rules doc) in
  let* _ := check_fields [("routing.default_action", from_option (one_of ["direct"; "proxy"; "block"]) true (b_default_action doc));
                          ("reservations", (length (b_reservations doc) <=? MAX_RESERVATIONS)%nat)] in
  let* _ := efor validate_reservation (b_reservations doc) in
  check_fields [("settings", (size (b_settings doc) <=? 64)%nat && forallb (fun kv => is_scalar kv.2) (map_to_list (b_settings doc)))].

(** * References between the parts *)

Definition unique_ids (ids : list Z) (label : string) : refusal + unit :=
  if bool_decide (NoDup ids) then inr tt else inl (Refused ("duplicate " +:+ label +:+ " id")).
Definition in_ids (i : option Z) (ids : list Z) : bool := from_option (fun z => bool_decide (z ∈ ids)) true i.
Definition doc_identity (n : node) : option Z * string * Z * string * string * string * string :=
  (n_subscription_id n, n_address n, n_port n, n_uuid n, n_path n, n_sni n, n_short_id n).
Definition check_sub_refs (profiles : list Z) (b : bsub) : refusal + unit :=
  if in_ids (bs_default_profile_id b) profiles then inr tt
  else inl (Refused ("subscription " +:+ str_int (bs_id b) +:+ " references missing profile")).
(** One round of the loop over the nodes, with the identities seen so far. *)
Definition check_node_refs (profiles subs : list Z) (seen : list (option Z * string * Z * string * string * string * string)) (b : bnode)
  : refusal + list (option Z * string * Z * string * string * string * string) :=
  let n := bn_node b in
  if negb (in_ids (n_subscription_id n) subs) then
    inl (Refused ("node " +:+ str_int (bn_id b) +:+ " references missing subscription"))
  else if negb (in_ids (n_tuning_profile_id n) profiles) then
    inl (Refused ("node " +:+ str_int (bn_id b) +:+ " references missing profile"))
  else if bool_decide (doc_identity n ∈ seen) then inl (Refused "duplicate node identity")
  else inr (doc_identity n :: seen).

Definition unknown_keys (st : values) : list string :=
  filter (fun k => k ∉ SETTINGS_KEYS /\ k ∉ SETTINGS_NEVER_BACKED_UP) (map_to_list st).*1.
Definition long_value (st : values) : bool := existsb (fun kv => (2048 <? String.length (Linux.py_str kv.2))%nat) (map_to_list st).

(** [_reconcile_default_action]: the default action the routing block ends with. *)
Definition reconcile_default_action (doc : document) : refusal + string :=
  match b_settings doc !! "routing_default_action", b_default_action doc with
  | None, a => inr (default "proxy" a)
  | Some raw, None => inr (Linux.py_str raw)
  | Some raw, Some a =>
      if bool_decide (Linux.py_str raw = a) then inr a
      else inl (Refused "settings.routing_default_action conflicts with routing.default_action")
  end.
Definition check_default_profile (st : values) (profiles : list Z) : refusal + unit :=
  match st !! "default_profile_id" with
  | None => inr tt
  | Some v =>
      if bool_decide (v = JStr "") then inr tt
      else match int_of v with
           | None => inl (Refused "default_profile_id must be an integer")
           | Some z => if bool_decide (z ∈ profiles) then inr tt else inl (Refused "default_profile_id references missing profile")
           end
  end.

(** * Network settings *)

Definition refuse {A} (m : string + A) : refusal + A := match m with inl e => inl (Refused e) | inr a => inr a end.
Definition rw_check {A} (m : rw_error + A) : refusal + unit := match m with inl e => inl (RwRefused e) | inr _ => inr tt end.

Definition validate_rw_settings (st : values) : refusal + unit :=
  let value key := field_text st key in
  let when key (m : refusal + unit) := if bool_decide (value key = "") then inr tt else m in
  let* _ := when "rw_port" (rw_check (validate_port (value "rw_port"))) in
  let* _ := when "rw_dest" (rw_check (validate_dest (value "rw_dest"))) in
  let* _ := when "rw_server_names" (rw_check (validate_server_names (parse_csv (value "rw_server_names")))) in
  let* _ := when "rw_short_ids" (rw_check (validate_short_ids (parse_csv (value "rw_short_ids")))) in
  let* _ := when "rw_public_key" (rw_check (validate_key (value "rw_public_key") "the Reality public key")) in
  let* _ := when "rw_endpoint" (rw_check (validate_endpoint (value "rw_endpoint"))) in
  let* _ := when "rw_routed_nets" (rw_check (validate_nets (parse_nets (value "rw_routed_nets")))) in
  when "rw_hosts" (match json_loads (value "rw_hosts") with
                   | Some (JObj hosts) => rw_check (validate_hosts hosts)
                   | _ => inl (Refused "rw_hosts must be a JSON object of name → IPv4")
                   end).

Definition check_range (st : values) : refusal + unit :=
  match ip4_parse (field_text st "segment_ip"), ip4_parse (field_text st "dhcp_start"), ip4_parse (field_text st "dhcp_end") with
  | Some seg, Some start, Some stop =>
      let network := IpNet 4 (mask_addr 32 24 seg) 24 in
      if negb (Nft.in_net network start && Nft.in_net network stop) then inl (Refused "DHCP range must be inside the segment subnet")
      else if stop <? start then inl (Refused "DHCP range start must not exceed end") else inr tt
  | _, _, _ => inr tt
  end.
(** The values the box would run once the document is in. *)
Definition effective (st : values) (live : settings) : values :=
  list_to_map [("segment_iface", JStr (Some (field_text st "segment_iface") or c_segment_iface live));
               ("segment_ip", JStr (Some (field_text st "segment_ip") or c_segment_ip live));
               ("client_dns", JStr (Some (field_text st "client_dns") or c_client_dns live))].
Definition validate_network_settings (st : values) (live : option settings) : refusal + unit :=
  let* _ := refuse (validate_net_settings st) in
  let* _ := check_range st in
  let* _ := match live with
            | None => inr tt
            | Some s => let problems := check_change_safe (effective st s) s in
                        if bool_decide (problems = []) then inr tt else inl (Refused (join "; " problems))
            end in
  validate_rw_settings st.

(** [validate_references], with the default action the document ends with. *)
Definition validate_references (doc : document) (live : option settings) : refusal + document :=
  let profiles := bp_id <$> b_profiles doc in
  let subs := bs_id <$> b_subscriptions doc in
  let st := b_settings doc in
  let* _ := unique_ids profiles "profile" in
  let* _ := unique_ids subs "subscription" in
  let* _ := unique_ids (bn_id <$> b_nodes doc) "node" in
  let* _ := efor (check_sub_refs profiles) (b_subscriptions doc) in
  let* _ := efold (check_node_refs profiles subs) [] (b_nodes doc) in
  let* _ := (if bool_decide (unknown_keys st = []) then inr tt
             else inl (Refused ("unsupported setting keys: " +:+ join ", " (stable_sort String.leb (unknown_keys st))))) in
  let* _ := (if long_value st then inl (Refused "setting value is too long") else inr tt) in
  let* _ := refuse (validate_setting_values st []) in
  let* action := reconcile_default_action doc in
  let* _ := check_default_profile st profiles in
  let* _ := validate_network_settings st live in
  inr (BackupDocument (b_schema_version doc) (b_created_at doc) (b_nodes doc) (b_subscriptions doc) (b_profiles doc)
         (b_rules doc) (Some action) (b_reservations doc) st).

Definition model_validate (doc : document) (live : option settings) : refusal + document :=
  let doc := normalize_legacy_empty_profiles doc in
  let* _ := validate_fields doc in
  validate_references doc live.

(** [validate_document]: a document this box exported is not compared with the management leg;
    a caller without settings falls back to the environment ([env], [_live_mgmt]). *)
Definition validate_document (exported : bool) (doc : document) (live env : option settings) : refusal + document :=
  model_validate doc (if exported then None else match live with Some _ => live | None => env end).
End validate.

(** * Export *)

Definition export_node (n : node) : bnode := BackupNode (default 0 (n_id n)) n.
Definition export_profile (p : profile) : bprofile := BackupProfile (default 0 (p_id p)) p.
Definition export_sub (s : subscription) : bsub :=
  BackupSubscription (default 0 (s_id s)) (s_name s) (s_url s) (s_injection s) (s_interval_sec s) (s_enabled s) (s_default_profile_id s).
Definition export_rule (r : rule) : brule :=
  BackupRule (r_type r) (r_value r) (r_action r) (r_enabled r) (r_label r) (r_dataset r).
Definition export_reservation (r : reservation) : breservation := BackupReservation (res_mac r) (res_ip r) (res_name r).
(** SELECT ... WHERE key IN (...) *)
Definition export_settings (d : db) : values := JStr <$> filter (fun kv => kv.1 ∈ SETTINGS_KEYS) (d_settings d).
Definition export_state (d : db) : document :=
  BackupDocument BACKUP_SCHEMA None (export_node <$> list_nodes d) (export_sub <$> list_subscriptions d)
    (export_profile <$> list_profiles d) (export_rule <$> get_routing d)
    (Some (get_setting "routing_default_action" d or "proxy")) (export_reservation <$> list_reservations d) (export_settings d).
(** [doc["created_at"] = now] *)
Definition stamped (now : Z) (doc : document) : document :=
  BackupDocument (b_schema_version doc) (Some now) (b_nodes doc) (b_subscriptions doc) (b_profiles doc) (b_rules doc)
    (b_default_action doc) (b_reservations doc) (b_settings doc).

(** * Import *)

(** An INSERT that gives the primary key. *)
Definition insert_profile (b : bprofile) : M unit := fun d =>
  if decide (is_Some (d_profiles d !! bp_id b)) then (inl IntegrityError, d)
  else stmt (fun d => set_profiles (<[bp_id b := with_profile_id (bp_id b) (bp_profile b)]> (d_profiles d))
                        (Z.max (d_profile_seq d) (bp_id b)) d) d.
(** The Subscription of the dumped fields; the INSERT names the configured columns. *)
Definition sub_from (b : bsub) : subscription :=
  Subscription (Some (bs_id b)) (bs_name b) (bs_url b) (bs_injection b) (bs_interval_sec b) (bs_enabled b) (bs_default_profile_id b)
    None None None None None None None None [].
Definition insert_sub (b : bsub) : M unit := fun d =>
  if decide (is_Some (d_subs d !! bs_id b)) then (inl IntegrityError, d)
  else stmt (fun d => set_subs (<[bs_id b := with_sub_id (bs_id b) (sub_from b)]> (d_subs d)) (Z.max (d_sub_seq d) (bs_id b)) d) d.
(** [_node_from]: the dataclass normalises. *)
Definition node_from (b : bnode) : node := normalize (with_id (Some (bn_id b)) (bn_node b)).
Definition insert_node (b : bnode) : M unit := fun d =>
  if decide (is_Some (d_nodes d !! bn_id b)) then (inl IntegrityError, d)
  else stmt (fun d => set_node_seq (Z.max (d_node_seq d) (bn_id b)) (set_nodes (<[bn_id b := node_from b]> (d_nodes d)) d)) d.
(** The INSERT names position, type, value, action, enabled and label; [dataset] takes its default. *)
Fixpoint import_rules (i : Z) (rs : list brule) : M unit :=
  match rs with
  | [] => mret tt
  | r :: rs' =>
      stmt (fun d => set_routing (d_routing d ++ [Rule None i (br_type r) (br_value r) (br_action r) (br_enabled r) (br_label r) ""]) d) ;;;
      import_rules (i + 1) rs'
  end.
Definition insert_reservation (now : Z) (v : breservation) : M unit :=
  add_reservation (Reservation None (lower (strip (bv_mac v))) (strip (bv_ip v)) (bv_name v) now) ;;; mret tt.

(** How a value of [settings] is stored. *)
Definition imported_text (v : json) : string :=
  match v with JBool b => if b then "1" else "0" | _ => Linux.py_str v end.
Definition import_settings (doc : document) : gmap string string :=
  delete "routing_default_action" (imported_text <$> filter (fun kv => kv.1 ∉ SETTINGS_NEVER_BACKED_UP) (b_settings doc)).

(** The two halves of the Reality pair: what is stored of the restored public key. *)
Definition keep_pair (priv pub : string) (st : gmap string string) : gmap string string :=
  let restored := default "" (st !! "rw_public_key") in
  if negb (bool_decide (restored = pub)) && negb (bool_decide (priv = "") && bool_decide (pub = "")) then
    if bool_decide (pub = "") then delete "rw_public_key" st else <["rw_public_key" := pub]> st
  else st.
Definition rw_disabled (priv pub : string) (st : gmap string string) : string :=
  if bool_decide (st !! "rw_enabled" = Some "1") then
    if bool_decide (priv = "") then "no local Reality private key"
    else if bool_decide (pub = "") then "no local Reality public key to check the restored one against"
    else if negb (bool_decide (default "" (st !! "rw_public_key") = pub)) then
      "the restored public key does not match the local private key"
    else ""
  else "".
Definition restored_settings (priv pub : string) (st : gmap string string) : gmap string string :=
  let st' := keep_pair priv pub st in
  if bool_decide (rw_disabled priv pub st = "") then st' else <["rw_enabled" := "0"]> st'.

Definition clear_tables : M unit :=
  stmt (set_health ∅) ;;;
  stmt (set_nodes ∅) ;;;
  stmt (fun d => set_subs ∅ (d_sub_seq d) d) ;;;
  stmt (set_routing []) ;;;
  stmt (fun d => set_reservations ∅ (d_res_seq d) d) ;;;
  stmt (fun d => set_profiles ∅ (d_profile_seq d) d) ;;;
  stmt (fun d => set_settings (filter (fun kv => kv.1 ∉ SETTINGS_KEYS) (d_settings d)) d).

Record summary := Summary { sm_nodes : nat; sm_subscriptions : nat; sm_profiles : nat; sm_rules : nat; sm_rw_disabled : string }.

(** [import_state] on a validated document; [now] is the clock. *)
Definition import_state (doc : document) (now : Z) : M summary :=
  tx (priv <- mget (fun d => strip (get_setting "rw_private_key" d or "")) ;;
      pub <- mget (fun d => strip (get_setting "rw_public_key" d or "")) ;;
      clear_tables ;;;
      mfor (b_profiles doc) insert_profile ;;;
      mfor (b_subscriptions doc) insert_sub ;;;
      mfor (b_nodes doc) insert_node ;;;
      import_rules 0 (b_rules doc) ;;;
      mfor (b_reservations doc) (insert_reservation now) ;;;
      set_setting "routing_default_action" (default "proxy" (b_default_action doc)) ;;;
      mfor (map_to_list (restored_settings priv pub (import_settings doc))) (fun kv => set_setting kv.1 kv.2) ;;;
      mret (Summary (length (b_nodes doc)) (length (b_subscriptions doc)) (length (b_profiles doc)) (length (b_rules doc))
              (rw_disabled priv pub (import_settings doc)))).
