(* ===== verification/BackupProps.v ===== *)
(** What a restore does: exactly when the import of a validated document is refused, that an
    exported configuration comes back, what no document can touch, and that a document can neither
    split the Reality key pair nor move the segment onto the management leg. *)
From Stdlib Require Import ZArith Lia Ascii Permutation Sorted.
From stdpp Require Import base gmap strings list fin_maps.
From S2P Require Import Prelude PyStr Ip IpText Models Json Store StoreFacts Config RwInbound Plan Records Render NetSettings Backup.
Open Scope string_scope.
Open Scope list_scope.
Open Scope Z_scope.

(** * Lemmas *)

(** Facts about the backup document: what validation leaves, and what the import's statements do
    to each table. *)

(** * Results *)

Lemma ebind_inr {E A B} (m : E + A) (k : A -> E + B) b : ebind m k = inr b -> exists a, m = inr a /\ k a = inr b.
Proof. destruct m as [e|a]; simpl; [done|]. eauto. Qed.

(** Follows a successful run through its steps. *)
Ltac follow H :=
  repeat (let a := fresh "a" in let E := fresh "E" in
          apply ebind_inr in H as (a & E & H); try destruct a as []).

Lemma efor_inr {E A} (f : A -> E + unit) l : efor f l = inr tt -> forall x, x ∈ l -> f x = inr tt.
Proof.
  induction l as [|y l IH]; simpl; [set_solver|]. intros H. apply ebind_inr in H as ([] & Hy & H).
  intros x [-> | Hx]%elem_of_cons; auto.
Qed.

(** * Tables filled from a list *)

Section table.
Context {A V : Type} (key : A -> Z) (row : A -> V).

Definition table (l : list A) : gmap Z V := list_to_map ((fun b => (key b, row b)) <$> l).

Lemma table_keys l : ((fun b => (key b, row b)) <$> l).*1 = key <$> l.
Proof. by rewrite <-list_fmap_compose. Qed.

Lemma table_lookup l i x : NoDup (key <$> l) -> table l !! i = Some x <-> exists b, b ∈ l /\ key b = i /\ row b = x.
Proof.
  intros Hn. unfold table. rewrite <-elem_of_list_to_map by (by rewrite table_keys).
  rewrite list_elem_of_fmap. split; [intros (b & [= -> ->] & Hb)|intros (b & Hb & <- & <-)]; eauto.
Qed.

Lemma table_refs l k : refs k (table l) <-> from_option (fun z => z ∈ key <$> l) True k.
Proof.
  destruct k as [z|]; simpl; [|done]. unfold table. split.
  - intros [x Hx]. apply elem_of_list_to_map_2 in Hx. apply list_elem_of_fmap in Hx as (b & [= -> ->] & Hb). by apply list_elem_of_fmap_2.
  - intros Hz. destruct (list_to_map _ !! z) eqn:E; [eauto|]. exfalso. apply not_elem_of_list_to_map in E. rewrite table_keys in E. done.
Qed.

Lemma table_unique {B} `{EqDecision B} (f : V -> B) l :
  NoDup (key <$> l) -> unique_by f (table l) <-> NoDup ((fun b => f (row b)) <$> l).
Proof.
  intros Hn. rewrite unique_by_alt. split.
  - intros Hu. apply NoDup_alt. intros i j x Hi Hj.
    rewrite list_lookup_fmap in Hi, Hj. apply fmap_Some in Hi as (a & Ha & ->), Hj as (b & Hb & Hab).
    assert (key a = key b) as Hk.
    { eapply Hu; [apply table_lookup; [done|]; exists a; split; [by eapply list_elem_of_lookup_2|done]
                 |apply table_lookup; [done|]; exists b; split; [by eapply list_elem_of_lookup_2|done]|done]. }
    eapply NoDup_lookup; [exact Hn|by rewrite list_lookup_fmap, Ha|rewrite list_lookup_fmap, Hb; simpl; congruence].
  - intros Hf i j x y Hi Hj Hxy. apply table_lookup in Hi as (a & Ha & <- & <-), Hj as (b & Hb & <- & <-); [|done..].
    apply list_elem_of_lookup in Ha as [p Ha], Hb as [q Hb].
    assert (p = q) as ->; [|congruence].
    eapply NoDup_lookup; [exact Hf|by rewrite list_lookup_fmap, Ha|rewrite list_lookup_fmap, Hb; simpl; congruence].
Qed.

(** Inserting one row after the other. *)
Lemma table_snoc l b : key b ∉ key <$> l -> <[key b := row b]> (table l) = table (l ++ [b]).
Proof.
  intros Hb. unfold table. rewrite fmap_app, list_fmap_singleton, list_to_map_snoc; [done|by rewrite table_keys].
Qed.
End table.

(** * Loops of statements *)

(** A loop that inserts one row per round, through the states [st pre], when a violated constraint
    stays violated as more rows come: it raises exactly when the full table breaks a constraint. *)
Section loop.
Context {A : Type} (f : A -> M unit) (st : list A -> db) (ok : list A -> Prop).
Context (Hstep : forall pre x l, ok (pre ++ x :: l) -> f x (st pre) = stmt (fun _ => st (pre ++ [x])) (st pre)).
Context (Hanti : forall pre x l, ok (pre ++ x :: l) -> constraints (st (pre ++ [x])) -> constraints (st pre)).

Lemma loop_antitone l : forall pre, ok (pre ++ l) -> constraints (st (pre ++ l)) -> constraints (st pre).
Proof.
  induction l as [|x l IH]; intros pre Hok; [by rewrite app_nil_r|].
  rewrite cons_middle, app_assoc in *. intros H. eapply Hanti; [by rewrite <-app_assoc in Hok|]. by apply IH.
Qed.

Lemma mfor_loop l : forall pre, ok (pre ++ l) -> constraints (st pre) ->
  (constraints (st (pre ++ l)) /\ mfor l f (st pre) = (inr tt, st (pre ++ l))) \/
  (~ constraints (st (pre ++ l)) /\ (mfor l f (st pre)).1 = inl IntegrityError).
Proof.
  induction l as [|x l IH]; intros pre Hok Hd; simpl; [left; by rewrite app_nil_r|].
  unfold mbind. rewrite (Hstep _ _ _ Hok). unfold stmt. rewrite cons_middle, app_assoc in *. case_decide as Hc.
  - by apply IH.
  - right. split; [|done]. intros H. apply Hc. by eapply loop_antitone.
Qed.
End loop.

(** * The tables of an import *)

Definition profile_row (b : bprofile) : profile := with_profile_id (bp_id b) (bp_profile b).
Definition sub_row (b : bsub) : subscription := with_sub_id (bs_id b) (sub_from b).
Definition max_id {A} (key : A -> Z) (seq : Z) (l : list A) : Z := foldl (fun s b => Z.max s (key b)) seq l.

(** A list numbered from [i]. *)
Fixpoint number {A} (i : Z) (l : list A) : list (Z * A) :=
  match l with [] => [] | x :: l' => (i, x) :: number (i + 1) l' end.
Lemma number_snoc {A} (l : list A) x : forall i, number i (l ++ [x]) = number i l ++ [(i + Z.of_nat (length l), x)].
Proof.
  induction l as [|y l IH]; intros i; simpl; [by rewrite Z.add_0_r|]. rewrite IH. by replace (i + 1 + Z.of_nat (length l)) with (i + Z.of_nat (S (length l))) by lia.
Qed.
Lemma number_snd {A} (l : list A) : forall i, (number i l).*2 = l.
Proof. induction l as [|x l IH]; intros i; simpl; [done|]. by rewrite IH. Qed.
Lemma number_keys {A} (l : list A) : forall i z, z ∈ (number i l).*1 -> i <= z < i + Z.of_nat (length l).
Proof.
  induction l as [|x l IH]; intros i z; simpl; [set_solver|]. intros [-> | Hz]%elem_of_cons; [lia|]. apply IH in Hz. lia.
Qed.
Lemma number_nodup {A} (l : list A) : forall i, NoDup (number i l).*1.
Proof.
  induction l as [|x l IH]; intros i; simpl; constructor; [|done]. intros Hi. apply number_keys in Hi. lia.
Qed.

Definition res_row (now : Z) (e : Z * breservation) : reservation :=
  Reservation (Some e.1) (lower (strip (bv_mac e.2))) (strip (bv_ip e.2)) (bv_name e.2) now.
Definition rule_rows (l : list brule) : list rule :=
  (fun e : Z * brule => Rule None e.1 (br_type e.2) (br_value e.2) (br_action e.2) (br_enabled e.2) (br_label e.2) "") <$> number 0 l.

(** The database after each loop. *)
Definition cleared (d : db) : db :=
  set_settings (filter (fun kv => kv.1 ∉ SETTINGS_KEYS) (d_settings d))
    (set_profiles ∅ (d_profile_seq d) (set_reservations ∅ (d_res_seq d) (set_routing []
       (set_subs ∅ (d_sub_seq d) (set_nodes ∅ (set_health ∅ d)))))).
Definition with_profiles (l : list bprofile) (d : db) : db :=
  set_profiles (table bp_id profile_row l) (max_id bp_id (d_profile_seq d) l) d.
Definition with_subs (l : list bsub) (d : db) : db := set_subs (table bs_id sub_row l) (max_id bs_id (d_sub_seq d) l) d.
Definition with_nodes (l : list bnode) (d : db) : db :=
  set_node_seq (max_id bn_id (d_node_seq d) l) (set_nodes (table bn_id node_from l) d).
Definition with_reservations (now : Z) (l : list breservation) (d : db) : db :=
  set_reservations (table fst (res_row now) (number (d_res_seq d + 1) l)) (d_res_seq d + Z.of_nat (length l)) d.

Definition tokens_ok (d : db) : Prop :=
  unique_by tk_hash (d_tokens d) /\ map_Forall (fun _ t => tk_scope t ∈ SCOPES) (d_tokens d).
Lemma constraints_tokens d : constraints d -> tokens_ok d.
Proof. unfold constraints, tokens_ok. tauto. Qed.

Lemma unique_by_empty {V B} `{EqDecision B} (f : V -> B) : unique_by f (∅ : gmap Z V).
Proof. apply map_Forall_empty. Qed.
#[local] Hint Resolve unique_by_empty map_Forall_empty NoDup_nil_2 : core.

(** Nothing but tokens and profiles. *)
Definition bare (d : db) : Prop :=
  d_nodes d = ∅ /\ d_health d = ∅ /\ d_subs d = ∅ /\ d_routing d = [] /\ d_reservations d = ∅ /\ tokens_ok d.
Lemma bare_constraints d : bare d -> constraints d.
Proof.
  intros (Hn & Hh & Hs & Hr & Hv & Ht1 & Ht2). unfold constraints. rewrite Hn, Hh, Hs, Hr, Hv.
  split_and!; (apply map_Forall_empty || auto).
Qed.
Lemma cleared_bare d : constraints d -> bare (cleared d).
Proof. intros H%constraints_tokens. by split_and!. Qed.

Lemma clear_tables_run d : constraints d -> clear_tables d = (inr tt, cleared d).
Proof.
  intros (H1 & H2 & H3 & H4 & H5 & H6 & H7 & H8 & H9 & H10). unfold clear_tables, mbind.
  repeat (rewrite stmt_ok; [|unfold constraints; simpl; split_and!; (apply map_Forall_empty || auto)]). done.
Qed.

(** * The loops *)

Lemma max_id_snoc {A} (key : A -> Z) seq l b : max_id key seq (l ++ [b]) = Z.max (max_id key seq l) (key b).
Proof. unfold max_id. by rewrite foldl_app. Qed.

Lemma fresh_key {A V} (key : A -> Z) (row : A -> V) pre x l :
  NoDup (key <$> pre ++ x :: l) -> key x ∉ key <$> pre /\ ~ is_Some (table key row pre !! key x).
Proof.
  rewrite fmap_app, fmap_cons. intros (_ & Hd & _)%NoDup_app.
  assert (key x ∉ key <$> pre) as Hx; [intros H; eapply Hd; [exact H|left]|].
  split; [done|]. intros H. apply Hx. exact (proj1 (table_refs key row pre (Some (key x))) H).
Qed.

Lemma insert_profiles_run d l : bare d -> d_profiles d = ∅ -> NoDup (bp_id <$> l) ->
  mfor l insert_profile d = (inr tt, with_profiles l d).
Proof.
  intros Hb Hp Hn.
  assert (forall pre, constraints (with_profiles pre d)) as Hc.
  { intros pre. apply bare_constraints. exact Hb. }
  assert (with_profiles [] d = d) as Hd; [destruct d; simpl in *; by subst|].
  destruct (mfor_loop insert_profile (fun pre => with_profiles pre d) (fun l => NoDup (bp_id <$> l))) with (l := l) (pre := @nil bprofile)
    as [[_ H] | [H _]]; auto; simpl in *; [|by rewrite Hd in H|by destruct (H (Hc _))].
  intros pre x l' [Hx Hf]%(fresh_key bp_id profile_row). unfold insert_profile.
  change (d_profiles (with_profiles pre d)) with (table bp_id profile_row pre). destruct (decide _); [contradiction|].
  unfold with_profiles. rewrite <-table_snoc, max_id_snoc by done. done.
Qed.

Lemma with_subs_constraints d l : bare d -> NoDup (bs_id <$> l) -> (forall b, b ∈ l -> refs (bs_default_profile_id b) (d_profiles d)) ->
  constraints (with_subs l d).
Proof.
  intros (Hn & Hh & Hs & Hr & Hv & Ht1 & Ht2) Hid Hrefs. unfold constraints. simpl. rewrite Hn, Hh, Hr, Hv.
  split_and!; try (apply map_Forall_empty || by auto).
  intros i s Hi. apply table_lookup in Hi as (b & Hb & _ & <-); [|done]. by apply Hrefs.
Qed.

Lemma insert_subs_run d l : bare d -> NoDup (bs_id <$> l) -> (forall b, b ∈ l -> refs (bs_default_profile_id b) (d_profiles d)) ->
  mfor l insert_sub d = (inr tt, with_subs l d).
Proof.
  intros Hb Hn Hr.
  assert (forall pre l', pre ++ l' = l -> constraints (with_subs pre d)) as Hc.
  { intros pre l' <-. apply with_subs_constraints; [done|by rewrite fmap_app in Hn; apply NoDup_app in Hn as [? _]|set_solver]. }
  assert (with_subs [] d = d) as Hd.
  { destruct Hb as (_ & _ & Hs & _). destruct d; simpl in *; by subst. }
  destruct (mfor_loop insert_sub (fun pre => with_subs pre d) (eq l)) with (l := l) (pre := @nil bsub)
    as [[_ H] | [H _]]; simpl in *; [..|by rewrite Hd in H|by destruct (H (Hc l [] (app_nil_r _)))]; [|naive_solver|done|by apply (Hc [] l)].
  intros pre x l' ->. destruct (fresh_key bs_id sub_row pre x l' Hn) as [Hx Hf]. unfold insert_sub.
  change (d_subs (with_subs pre d)) with (table bs_id sub_row pre). destruct (decide _); [contradiction|].
  unfold with_subs. rewrite <-table_snoc, max_id_snoc by done. done.
Qed.

Definition node_identities (l : list bnode) := (fun b => ident_key (node_from b)) <$> l.
Lemma node_from_refs b :
  n_subscription_id (node_from b) = n_subscription_id (bn_node b) /\ n_tuning_profile_id (node_from b) = n_tuning_profile_id (bn_node b).
Proof. unfold node_from, normalize. repeat case_decide; done. Qed.

Definition node_refs (d : db) (b : bnode) : Prop :=
  refs (n_subscription_id (bn_node b)) (d_subs d) /\ refs (n_tuning_profile_id (bn_node b)) (d_profiles d).
Lemma with_nodes_constraints d l : constraints d -> d_health d = ∅ -> NoDup (bn_id <$> l) -> (forall b, b ∈ l -> node_refs d b) ->
  constraints (with_nodes l d) <-> NoDup (node_identities l).
Proof.
  intros (_ & _ & _ & _ & H5 & H6 & H7 & H8 & H9 & H10) Hh Hid Hrefs.
  unfold node_identities. rewrite <-(table_unique bn_id node_from ident_key l Hid).
  split; [by intros [H _]|intros H1]. unfold constraints. simpl. rewrite Hh.
  split_and!; try (apply map_Forall_empty || by auto); intros i n Hi; apply table_lookup in Hi as (b & Hb & _ & <-); try done;
    destruct (node_from_refs b) as [E1 E2], (Hrefs b Hb); [by rewrite E1|by rewrite E2].
Qed.

Lemma insert_nodes_run d l : constraints d -> d_nodes d = ∅ -> d_health d = ∅ -> NoDup (bn_id <$> l) -> (forall b, b ∈ l -> node_refs d b) ->
  (NoDup (node_identities l) /\ mfor l insert_node d = (inr tt, with_nodes l d)) \/
  (~ NoDup (node_identities l) /\ (mfor l insert_node d).1 = inl IntegrityError).
Proof.
  intros Hc Hno Hh Hn Hr.
  assert (forall pre l', pre ++ l' = l -> constraints (with_nodes pre d) <-> NoDup (node_identities pre)) as Hi.
  { intros pre l' <-. apply with_nodes_constraints; [done..|by rewrite fmap_app in Hn; apply NoDup_app in Hn as [? _]|set_solver]. }
  assert (with_nodes [] d = d) as Hd; [destruct d; simpl in *; by subst|].
  rewrite <-(Hi l [] (app_nil_r _)).
  pose proof (mfor_loop insert_node (fun pre => with_nodes pre d) (eq l)) as Hl. simpl in Hl. rewrite <-Hd in Hc.
  specialize (fun H1 H2 => Hl H1 H2 l [] eq_refl Hc). rewrite Hd in Hl. apply Hl.
  - intros pre x l' ->. destruct (fresh_key bn_id node_from pre x l' Hn) as [Hx Hf]. unfold insert_node.
    change (d_nodes (with_nodes pre d)) with (table bn_id node_from pre). destruct (decide _); [contradiction|].
    unfold with_nodes. rewrite <-table_snoc, max_id_snoc by done. done.
  - intros pre x l' ->. rewrite (Hi pre (x :: l')), (Hi (pre ++ [x]) l') by (rewrite <-?app_assoc; done).
    unfold node_identities. rewrite fmap_app. by intros [? _]%NoDup_app.
Qed.

Lemma append_rule_constraints d r : constraints d -> (forall q, q ∈ d_routing d -> r_position q < r_position r) ->
  constraints (set_routing (d_routing d ++ [r]) d).
Proof.
  intros (H1 & H2 & H3 & H4 & H5 & H6 & H7 & H8 & H9 & H10) Hlt. unfold constraints; simpl. split_and!; try done.
  rewrite fmap_app. apply NoDup_app. split_and!; [done| |apply NoDup_singleton]. intros z Hz Hz'.
  apply list_elem_of_fmap in Hz as (q & -> & Hq). apply Hlt in Hq. apply list_elem_of_singleton in Hz'. simpl in Hz'. lia.
Qed.

Lemma import_rules_run l : forall i d, constraints d -> (forall r, r ∈ d_routing d -> r_position r < i) ->
  import_rules i l d =
  (inr tt, set_routing (d_routing d ++ ((fun e : Z * brule => Rule None e.1 (br_type e.2) (br_value e.2) (br_action e.2) (br_enabled e.2)
                                            (br_label e.2) "") <$> number i l)) d).
Proof.
  induction l as [|r l IH]; intros i d Hc Hlt; simpl; [rewrite app_nil_r; by destruct d|].
  unfold mbind. rewrite stmt_ok by (by apply append_rule_constraints).
  rewrite IH; simpl; [by rewrite <-app_assoc|by apply append_rule_constraints|].
  intros q [Hq | Hq]%elem_of_app; [apply Hlt in Hq; lia|]. apply list_elem_of_singleton in Hq as ->. simpl. lia.
Qed.

Definition reserved_macs (l : list breservation) : list string := (fun v => lower (strip (bv_mac v))) <$> l.
Definition reserved_ips (l : list breservation) : list string := (fun v => strip (bv_ip v)) <$> l.

Lemma with_reservations_constraints now d l : constraints d ->
  constraints (with_reservations now l d) <-> NoDup (reserved_macs l) /\ NoDup (reserved_ips l).
Proof.
  intros (H1 & H2 & H3 & H4 & H5 & H6 & H7 & _ & _ & H10).
  set (n := number (d_res_seq d + 1) l).
  assert ((fun e => res_mac (res_row now e)) <$> n = reserved_macs l) as Em.
  { unfold reserved_macs. rewrite <-(number_snd l (d_res_seq d + 1)). by rewrite <-list_fmap_compose. }
  assert ((fun e => res_ip (res_row now e)) <$> n = reserved_ips l) as Ei.
  { unfold reserved_ips. rewrite <-(number_snd l (d_res_seq d + 1)). by rewrite <-list_fmap_compose. }
  rewrite <-Em, <-Ei, <-!(table_unique fst (res_row now)) by apply number_nodup.
  unfold constraints; simpl. fold n. tauto.
Qed.

Lemma insert_reservations_run now d l : constraints d -> d_reservations d = ∅ ->
  ((NoDup (reserved_macs l) /\ NoDup (reserved_ips l)) /\ mfor l (insert_reservation now) d = (inr tt, with_reservations now l d)) \/
  (~ (NoDup (reserved_macs l) /\ NoDup (reserved_ips l)) /\ (mfor l (insert_reservation now) d).1 = inl IntegrityError).
Proof.
  intros Hc Hr.
  assert (with_reservations now [] d = d) as Hd; [destruct d; simpl in *; subst; unfold with_reservations; simpl; by rewrite Z.add_0_r|].
  pose proof (fun pre => with_reservations_constraints now d pre Hc) as Hi. rewrite <-(Hi l).
  pose proof (mfor_loop (insert_reservation now) (fun pre => with_reservations now pre d) (fun _ => True)) as Hl.
  specialize (fun H1 H2 => Hl H1 H2 l [] I). simpl in Hl. rewrite Hd in Hl. apply Hl; [..|done].
  - intros pre x l' _. unfold insert_reservation, add_reservation, mbind, mget, mret. simpl.
    assert (with_reservations now (pre ++ [x]) d =
            set_reservations (<[d_res_seq d + Z.of_nat (length pre) + 1 :=
              Reservation (Some (d_res_seq d + Z.of_nat (length pre) + 1)) (lower (strip (bv_mac x))) (strip (bv_ip x)) (bv_name x) now]>
                (d_reservations (with_reservations now pre d))) (d_res_seq d + Z.of_nat (length pre) + 1) (with_reservations now pre d)) as E.
    { unfold with_reservations; simpl. rewrite number_snoc, length_app. simpl.
      rewrite <-table_snoc.
      - simpl. unfold res_row; simpl. replace (d_res_seq d + 1 + Z.of_nat (length pre)) with (d_res_seq d + Z.of_nat (length pre) + 1) by lia.
        by replace (d_res_seq d + Z.of_nat (length pre + 1)) with (d_res_seq d + Z.of_nat (length pre) + 1) by lia.
      - simpl. intros H. apply number_keys in H. lia. }
    unfold stmt. rewrite E. simpl. by case_decide.
  - intros pre x l' _. rewrite !Hi. unfold reserved_macs, reserved_ips. rewrite !fmap_app. intros [H1%NoDup_app H2%NoDup_app]. tauto.
Qed.

Lemma set_settings_run (l : list (string * string)) : forall d, constraints d -> NoDup l.*1 ->
  mfor l (fun kv => set_setting kv.1 kv.2) d = (inr tt, set_settings (list_to_map l ∪ d_settings d) d).
Proof.
  induction l as [|[k v] l IH]; intros d Hc Hn; simpl.
  - rewrite map_empty_union. by destruct d.
  - inversion Hn as [|? ? Hk Hn']; subst. unfold mbind. rewrite set_setting_run by done. rewrite IH by (auto with v2pi). simpl.
    rewrite <-insert_union_l, insert_union_r by (by apply not_elem_of_list_to_map). done.
Qed.

(** * The import *)

Definition key_private (d : db) : string := strip (get_setting "rw_private_key" d or "").
Definition key_public (d : db) : string := strip (get_setting "rw_public_key" d or "").

Definition imported (doc : document) (now : Z) (d : db) : db :=
  set_settings
    (restored_settings (key_private d) (key_public d) (import_settings doc) ∪
     <["routing_default_action" := default "proxy" (b_default_action doc)]> (filter (fun kv => kv.1 ∉ SETTINGS_KEYS) (d_settings d)))
    (with_reservations now (b_reservations doc) (set_routing (rule_rows (b_rules doc))
       (with_nodes (b_nodes doc) (with_subs (b_subscriptions doc) (with_profiles (b_profiles doc) (cleared d)))))).

Definition summary_of (doc : document) (d : db) : summary :=
  Summary (length (b_nodes doc)) (length (b_subscriptions doc)) (length (b_profiles doc)) (length (b_rules doc))
    (rw_disabled (key_private d) (key_public d) (import_settings doc)).

(** What [validate_references] proves of ids and references, *)
Record well_referenced (doc : document) : Prop := WellReferenced {
  wr_profiles : NoDup (bp_id <$> b_profiles doc);
  wr_subs : NoDup (bs_id <$> b_subscriptions doc);
  wr_nodes : NoDup (bn_id <$> b_nodes doc);
  wr_sub_refs : forall b, b ∈ b_subscriptions doc -> in_ids (bs_default_profile_id b) (bp_id <$> b_profiles doc) = true;
  wr_node_subs : forall b, b ∈ b_nodes doc -> in_ids (n_subscription_id (bn_node b)) (bs_id <$> b_subscriptions doc) = true;
  wr_node_profiles : forall b, b ∈ b_nodes doc -> in_ids (n_tuning_profile_id (bn_node b)) (bp_id <$> b_profiles doc) = true
}.
(** and what it does not look at: the unique columns as they will be stored. *)
Definition collision_free (doc : document) : Prop :=
  NoDup (node_identities (b_nodes doc)) /\ NoDup (reserved_macs (b_reservations doc)) /\ NoDup (reserved_ips (b_reservations doc)).
#[export] Instance collision_free_dec doc : Decision (collision_free doc).
Proof. unfold collision_free. apply _. Defined.

Lemma in_ids_refs {A V} (key : A -> Z) (row : A -> V) k l : in_ids k (key <$> l) = true -> refs k (table key row l).
Proof. rewrite table_refs. destruct k; simpl; [by rewrite bool_decide_eq_true|done]. Qed.

Lemma import_state_run doc now d : constraints d -> well_referenced doc ->
  import_state doc now d =
  if decide (collision_free doc) then (inr (summary_of doc d), imported doc now d) else (inl IntegrityError, d).
Proof.
  intros Hc [Hp Hs Hn Hsp Hns Hnp]. pose proof (cleared_bare d Hc) as Hb.
  unfold import_state, tx. unfold mbind at 1, mget at 1. unfold mbind at 1, mget at 1. fold (key_private d) (key_public d).
  unfold mbind at 1. rewrite clear_tables_run by done.
  unfold mbind at 1. rewrite insert_profiles_run by done. set (d1 := with_profiles _ _).
  assert (forall b, b ∈ b_subscriptions doc -> refs (bs_default_profile_id b) (d_profiles d1)) as Hr1.
  { intros b Hbs. by apply in_ids_refs, Hsp. }
  unfold mbind at 1. rewrite insert_subs_run by done. set (d2 := with_subs _ d1).
  assert (constraints d2) as Hc2 by (by apply with_subs_constraints).
  assert (forall b, b ∈ b_nodes doc -> node_refs d2 b) as Hr2.
  { intros b Hbn. split; apply in_ids_refs; auto. }
  unfold mbind at 1.
  destruct (insert_nodes_run d2 (b_nodes doc)) as [[Hi E] | [Hi E]]; [done..|rewrite E|].
  2: { destruct (mfor _ insert_node d2) as [[e|] d']; [|done]. simplify_eq/=. rewrite decide_False; [done|]. by intros [? _]. }
  set (d3 := with_nodes _ d2). assert (constraints d3) as Hc3 by (by apply with_nodes_constraints).
  unfold mbind at 1. rewrite import_rules_run by (done || set_solver). fold (rule_rows (b_rules doc)).
  change (d_routing d3 ++ rule_rows (b_rules doc)) with (rule_rows (b_rules doc)).
  set (d4 := set_routing _ d3).
  assert (constraints d4) as Hc4.
  { assert (import_rules 0 (b_rules doc) d3 = (inr tt, d4)) as Er by (rewrite import_rules_run by (done || set_solver); done).
    assert (keeps (import_rules 0 (b_rules doc))) as Hk.
    { generalize 0. generalize (b_rules doc). clear. intros l. induction l; intros i; simpl; eauto with keeps. }
    specialize (Hk d3 Hc3). by rewrite Er in Hk. }
  unfold mbind at 1.
  destruct (insert_reservations_run now d4 (b_reservations doc)) as [[Hv E'] | [Hv E']]; [done..|rewrite E'|].
  2: { destruct (mfor _ (insert_reservation now) d4) as [[e|] d']; [|done]. simplify_eq/=. rewrite decide_False; [done|]. by intros [_ ?]. }
  set (d5 := with_reservations now _ d4). assert (constraints d5) as Hc5 by (by apply with_reservations_constraints).
  unfold mbind at 1. rewrite set_setting_run by done.
  unfold mbind at 1. rewrite set_settings_run by (auto with v2pi || apply NoDup_fst_map_to_list). rewrite list_to_map_to_list.
  rewrite decide_True by (by split). done.
Qed.

(** * What validation leaves *)

Lemma efold_each {E A S} (f : S -> A -> E + S) l : forall st st', efold f st l = inr st' ->
  forall x, x ∈ l -> exists a b, f a x = inr b.
Proof.
  induction l as [|y l IH]; simpl; intros st st' H x; [set_solver|]. apply ebind_inr in H as (a & Ha & H).
  intros [-> | Hx]%elem_of_cons; eauto.
Qed.

Lemma node_refs_inr profiles subs seen b seen' : check_node_refs profiles subs seen b = inr seen' ->
  in_ids (n_subscription_id (bn_node b)) subs = true /\ in_ids (n_tuning_profile_id (bn_node b)) profiles = true.
Proof.
  unfold check_node_refs. destruct (in_ids _ subs); [|done]. destruct (in_ids _ profiles); done.
Qed.

Section validated.
Context (json_loads : string -> option json) (json_compact : json -> string).
Context (doc doc' : document) (live : option settings).
Context (Hv : model_validate json_loads json_compact doc live = inr doc').

(** The checks the document went through, with the document it became. *)
Lemma validated_inr :
  let old := normalize_legacy_empty_profiles doc in
  validate_fields json_compact old = inr tt /\ well_referenced old /\
  unknown_keys (b_settings old) = [] /\ validate_setting_values (b_settings old) [] = inr tt /\
  validate_network_settings json_loads (b_settings old) live = inr tt /\
  exists action, reconcile_default_action old = inr action /\
    doc' = BackupDocument (b_schema_version old) (b_created_at old) (b_nodes old) (b_subscriptions old) (b_profiles old)
             (b_rules old) (Some action) (b_reservations old) (b_settings old).
Proof.
  intros old. unfold model_validate in Hv. fold old in Hv. apply ebind_inr in Hv as ([] & Hf & H).
  unfold validate_references in H.
  apply ebind_inr in H as ([] & H1 & H), H as ([] & H2 & H), H as ([] & H3 & H), H as ([] & H4 & H), H as (seen & H5 & H),
    H as ([] & H6 & H), H as ([] & H7 & H), H as ([] & H8 & H), H as (action & H9 & H), H as ([] & H10 & H), H as ([] & H11 & H).
  injection H as <-. unfold unique_ids in H1, H2, H3.
  destruct (bool_decide_reflect (NoDup (bp_id <$> b_profiles old))); [|done].
  destruct (bool_decide_reflect (NoDup (bs_id <$> b_subscriptions old))); [|done].
  destruct (bool_decide_reflect (NoDup (bn_id <$> b_nodes old))); [|done].
  split; [done|]. split.
  { split; [done..| | |].
    - intros b Hb. pose proof (efor_inr _ _ H4 b Hb) as Hr. unfold check_sub_refs in Hr. by destruct (in_ids _ _).
    - intros b Hb. destruct (efold_each _ _ _ _ H5 b Hb) as (a & s & Hs). by apply node_refs_inr in Hs as [? _].
    - intros b Hb. destruct (efold_each _ _ _ _ H5 b Hb) as (a & s & Hs). by apply node_refs_inr in Hs as [_ ?]. }
  split_and!; [by destruct (bool_decide_reflect (unknown_keys (b_settings old) = []))
              |unfold refuse in H8; by destruct (validate_setting_values _ _) as [|[]]|done|]. eauto.
Qed.

Lemma validated_referenced : well_referenced doc'.
Proof. destruct validated_inr as (_ & Hw & _ & _ & _ & action & _ & ->). by destruct Hw. Qed.

Lemma validated_keys k : is_Some (b_settings doc' !! k) -> k ∈ SETTINGS_KEYS \/ k ∈ SETTINGS_NEVER_BACKED_UP.
Proof.
  destruct validated_inr as (_ & _ & Hk & _ & _ & action & _ & ->). simpl. intros [v Hv'].
  destruct (decide (k ∈ SETTINGS_KEYS)); [by left|]. destruct (decide (k ∈ SETTINGS_NEVER_BACKED_UP)); [by right|]. exfalso.
  assert (k ∈ unknown_keys (b_settings (normalize_legacy_empty_profiles doc))) as H; [|rewrite Hk in H; set_solver].
  unfold unknown_keys. apply list_elem_of_filter. split; [done|]. apply list_elem_of_fmap. exists (k, v). split; [done|]. by apply elem_of_map_to_list.
Qed.
End validated.

(** * The settings of an import *)

Lemma import_settings_lookup doc k :
  import_settings doc !! k =
  if decide (k = "routing_default_action" \/ k ∈ SETTINGS_NEVER_BACKED_UP) then None else imported_text <$> b_settings doc !! k.
Proof.
  unfold import_settings. rewrite lookup_delete. case_decide as Hk; [subst; by rewrite decide_True by auto|].
  rewrite lookup_fmap. case_decide as Hn.
  - destruct Hn as [-> | Hn]; [done|]. rewrite (proj2 (map_lookup_filter_None _ _ _)); [done|]. right. intros v _ H. by apply H.
  - destruct (b_settings doc !! k) eqn:E.
    + rewrite (proj2 (map_lookup_filter_Some _ _ _ _) (conj E (fun H => Hn (or_intror H)))). done.
    + rewrite (proj2 (map_lookup_filter_None _ _ _)); [done|]. by left.
Qed.

Lemma restored_lookup priv pub st k : k <> "rw_public_key" -> k <> "rw_enabled" -> restored_settings priv pub st !! k = st !! k.
Proof.
  intros H1 H2. unfold restored_settings, keep_pair. repeat case_match; rewrite ?lookup_insert_ne, ?lookup_delete_ne by done; done.
Qed.

Definition own_keys : list string := ["rw_public_key"; "rw_enabled"].
(** The keys a restored setting can have are the document's, and the two the code adds. *)
Lemma restored_keys priv pub st k : is_Some (restored_settings priv pub st !! k) -> is_Some (st !! k) \/ k ∈ own_keys.
Proof.
  intros H. destruct (decide (k = "rw_public_key")) as [-> | H1]; [right; left|].
  destruct (decide (k = "rw_enabled")) as [-> | H2]; [right; right; left|]. left. by rewrite restored_lookup in H.
Qed.

Lemma imported_setting doc now d k :
  get_setting k (imported doc now d) =
  match restored_settings (key_private d) (key_public d) (import_settings doc) !! k with
  | Some v => Some v
  | None => if decide (k = "routing_default_action") then Some (default "proxy" (b_default_action doc))
            else if decide (k ∈ SETTINGS_KEYS) then None else get_setting k d
  end.
Proof.
  unfold get_setting, imported. cbn [d_settings set_settings]. rewrite lookup_union.
  destruct (restored_settings _ _ _ !! k) eqn:E; simpl; [by destruct (<[_:=_]> _ !! k)|].
  rewrite lookup_insert. case_decide as Hk; [subst; by rewrite decide_True by done|]. rewrite decide_False by done.
  case_decide as Hs.
  - rewrite (proj2 (map_lookup_filter_None _ _ _)); [done|]. right. intros v _ H. by apply H.
  - destruct (d_settings d !! k) eqn:Ed.
    + by rewrite (proj2 (map_lookup_filter_Some _ _ _ _) (conj Ed Hs)).
    + rewrite (proj2 (map_lookup_filter_None _ _ _)); [done|]. by left.
Qed.

(** * Properties *)

(** * The import *)

(** importing a validated document either replaces every configured table by exactly the
    document's rows, or raises and changes nothing at all; and it raises in one case only, when two
    rows of the document collide in a unique column after normalisation (two nodes whose identities
    become equal, two reservations of one MAC or one address), which validation does not look at. *)
Theorem import_exact json_loads json_compact doc live doc' now d :
  constraints d -> model_validate json_loads json_compact doc live = inr doc' ->
  import_state doc' now d =
  if decide (collision_free doc') then (inr (summary_of doc' d), imported doc' now d) else (inl IntegrityError, d).
Proof. intros Hd Hv. apply import_state_run; [done|]. by eapply validated_referenced. Qed.

(** * Out of reach *)

(** C11: no document, whatever it holds, reaches the credentials: the Reality private key, the client
    roster, the API tokens, the panel's password and every other setting outside the backup's list
    stay as they were, and so do the audit log, the events and the traffic accounting; so a restore
    never reinstates a client that was revoked after the backup was taken. *)
Theorem credentials_untouched json_loads json_compact doc live doc' now d r d' :
  constraints d -> model_validate json_loads json_compact doc live = inr doc' -> import_state doc' now d = (r, d') ->
  (forall k, k ∉ SETTINGS_KEYS -> get_setting k d' = get_setting k d) /\
  (forall k, k ∈ SETTINGS_NEVER_BACKED_UP -> get_setting k d' = get_setting k d) /\
  d_tokens d' = d_tokens d /\ d_audit d' = d_audit d /\ d_events d' = d_events d /\ d_traffic d' = d_traffic d /\ d_device d' = d_device d.
Proof.
  intros Hd Hv. rewrite import_state_run by (done || by eapply validated_referenced). case_decide; intros [= <- <-]; [|done].
  assert (forall k, k ∉ SETTINGS_KEYS -> get_setting k (imported doc' now d) = get_setting k d) as Hk.
  { intros k Hk. rewrite imported_setting. destruct (restored_settings _ _ _ !! k) eqn:E.
    - exfalso. destruct (restored_keys (key_private d) (key_public d) (import_settings doc') k) as [[v Hs] | Ho]; [eauto| |].
      + rewrite import_settings_lookup in Hs. case_decide as Hn; [done|].
        destruct (validated_keys _ _ _ _ _ Hv k) as [? | ?]; [destruct (b_settings doc' !! k); [eauto|done]|done|tauto].
      + apply Hk. revert Ho. intros [-> | [-> | []%elem_of_nil]%elem_of_cons]%elem_of_cons; apply (bool_decide_unpack _); by vm_compute.
    - rewrite decide_False, decide_False; [done|done|]. intros ->. apply Hk. apply (bool_decide_unpack _). by vm_compute. }
  split; [done|]. split; [|done]. intros k Hn. apply Hk. revert Hn.
  intros [-> | [-> | []%elem_of_nil]%elem_of_cons]%elem_of_cons; apply (bool_decide_unpack _); by vm_compute.
Qed.

(** * The Reality pair *)

(** a restore never leaves the stored public key belonging to another private key than the one
    on the box: when the box holds either half, the public key afterwards is the one it held; and
    remote access is on afterwards only with both halves present and that key in place. *)
Theorem keypair_never_split json_loads json_compact doc live doc' now d sm d' :
  constraints d -> model_validate json_loads json_compact doc live = inr doc' -> import_state doc' now d = (inr sm, d') ->
  (key_private d <> "" \/ key_public d <> "" -> default "" (get_setting "rw_public_key" d') = key_public d) /\
  (get_setting "rw_enabled" d' = Some "1" ->
     key_private d <> "" /\ key_public d <> "" /\ get_setting "rw_public_key" d' = Some (key_public d)).
Proof.
  intros Hd Hv. rewrite import_state_run by (done || by eapply validated_referenced). case_decide; [|done]. intros [= <- <-].
  rewrite !imported_setting. unfold restored_settings, keep_pair, rw_disabled.
  set (st := import_settings doc'). set (priv := key_private d). set (pub := key_public d). clearbody st priv pub.
  assert ("rw_public_key" ∈ SETTINGS_KEYS /\ "rw_enabled" ∈ SETTINGS_KEYS) as [K1 K2] by (split; apply (bool_decide_unpack _); by vm_compute).
  rewrite !(decide_False (P := _ = "routing_default_action")) by done. rewrite !decide_True by done.
  destruct (st !! "rw_public_key") as [p|] eqn:Ep, (st !! "rw_enabled") as [e|] eqn:Ee;
    repeat (case_bool_decide; cbn [negb andb]);
    repeat first [rewrite lookup_insert_eq|rewrite lookup_insert_ne by done|rewrite lookup_delete_eq|rewrite lookup_delete_ne by done];
    rewrite ?Ep, ?Ee; naive_solver.
Qed.

(** * The management leg *)

Lemma field_text_str (m : values) k t : m !! k = Some (JStr t) -> field_text m k = strip t.
Proof. intros E. unfold field_text. rewrite E. simpl. by case_bool_decide as H; [rewrite H|]. Qed.

(** The value compared is the value the plan will hold, up to the white space around it. *)
Lemma effective_strip (o : option string) (c : string) :
  strip (default "" o) <> "" \/ default "" o = "" -> strip (Some (strip (default "" o)) or c) = strip (o or c).
Proof.
  intros [H | H].
  - destruct o as [t|]; [|done]. simpl in *. destruct (strip t) eqn:E; [done|]. rewrite <-E. destruct t; [done|].
    unfold str_or. rewrite E. by rewrite <-E, strip_idem.
  - rewrite H. simpl. by destruct o as [[|]|].
Qed.

(** The network values of a document are text. *)
Definition text_values (doc : document) : Prop :=
  forall k v, k ∈ NET_CROSS_FIELD_KEYS -> b_settings doc !! k = Some v -> exists t, v = JStr t.
Definition doc_text (doc : document) (k : string) : option string :=
  match b_settings doc !! k with Some (JStr t) => Some t | _ => None end.

Lemma text_lookup doc k : text_values doc -> k ∈ NET_CROSS_FIELD_KEYS -> b_settings doc !! k = JStr <$> doc_text doc k.
Proof.
  intros Ht Hk. unfold doc_text. destruct (b_settings doc !! k) as [v|] eqn:E; [|done]. by destruct (Ht k v Hk E) as [t ->].
Qed.
Lemma text_imported doc now d k : text_values doc -> k ∈ NET_CROSS_FIELD_KEYS -> get_setting k (imported doc now d) = doc_text doc k.
Proof.
  intros Ht Hk. rewrite imported_setting.
  assert (k ∈ SETTINGS_KEYS /\ k <> "routing_default_action" /\ k <> "rw_public_key" /\ k <> "rw_enabled" /\ k ∉ SETTINGS_NEVER_BACKED_UP)
    as (K1 & K2 & K3 & K4 & K5).
  { revert Hk. unfold NET_CROSS_FIELD_KEYS. rewrite !elem_of_cons. intros [-> | [-> | [-> | []%elem_of_nil]]];
      (split; [apply (bool_decide_unpack _); by vm_compute|]); set_solver. }
  rewrite restored_lookup, import_settings_lookup by done. rewrite decide_False by tauto.
  rewrite text_lookup by done. destruct (doc_text doc k); simpl; [done|]. by rewrite decide_False, decide_True.
Qed.
Lemma text_field doc k : text_values doc -> k ∈ NET_CROSS_FIELD_KEYS -> field_text (b_settings doc) k = strip (default "" (doc_text doc k)).
Proof.
  intros Ht Hk. pose proof (text_lookup doc k Ht Hk) as E. destruct (doc_text doc k) as [t|]; simpl in *; [by apply field_text_str|].
  unfold field_text. by rewrite E.
Qed.

Lemma iface_not_blank (data : values) t out :
  data !! "segment_iface" = Some (JStr t) -> refuse (validate_net_settings data) = inr out -> strip t <> "".
Proof.
  intros E H. unfold refuse in H. destruct (validate_net_settings data) as [|g] eqn:Hg; [done|]. clear H. rename Hg into H.
  unfold validate_net_settings in H. apply ebind_inr in H as (o & H & _). unfold put_iface, present in H.
  rewrite E in H. simpl in H. by case_bool_decide.
Qed.

Lemma change_safe (net : values) s : check_change_safe net s = [] ->
  (field_text net "segment_iface" = "" \/ strip (c_mgmt_iface s) = "" \/ field_text net "segment_iface" <> strip (c_mgmt_iface s)) /\
  (field_text net "segment_ip" = "" \/ strip (c_mgmt_ip s) = "" \/ same_net24 (field_text net "segment_ip") (strip (c_mgmt_ip s)) = false).
Proof.
  unfold check_change_safe. intros [H [H2 _]%app_nil]%app_nil. split.
  - repeat case_bool_decide; simpl in H; try done; tauto.
  - clear H. repeat case_bool_decide; simpl in H2; try tauto. destruct (same_net24 _ _); [done|tauto].
Qed.

Lemma net24_strip t : net24 (strip t) = net24 t.
Proof. unfold net24, net24_of. by rewrite strip_idem. Qed.
Lemma net24_of_blank t : strip t = "" -> net24 t = "".
Proof. intros E. unfold net24, net24_of. rewrite E. done. Qed.

Lemma net24_apart (o : option string) (c m : string) :
  strip (Some (strip (default "" o)) or c) = "" \/ strip m = "" \/ same_net24 (strip (Some (strip (default "" o)) or c)) (strip m) = false ->
  net24 m <> "" -> net24 (o or c) <> net24 m.
Proof.
  intros H Hm.
  assert (strip (default "" o) = "" /\ default "" o <> "" \/ strip (default "" o) <> "" \/ default "" o = "") as [[Hb Hn] | Ho].
  { destruct (decide (strip (default "" o) = "")), (decide (default "" o = "")); tauto. }
  - assert (o or c = default "" o) as -> by (by destruct o as [[|]|]). rewrite (net24_of_blank _ Hb). congruence.
  - rewrite effective_strip in H by done. destruct H as [H | [H | H]]; [rewrite (net24_of_blank _ H); congruence|by apply net24_of_blank in H|].
    unfold same_net24 in H. rewrite !net24_strip in H. by repeat case_bool_decide; simpl in H; try congruence.
Qed.

Lemma effective_iface st s : effective st s !! "segment_iface" = Some (JStr (Some (field_text st "segment_iface") or c_segment_iface s)).
Proof. unfold effective. simpl. by rewrite lookup_insert_eq. Qed.
Lemma effective_ip st s : effective st s !! "segment_ip" = Some (JStr (Some (field_text st "segment_ip") or c_segment_ip s)).
Proof. unfold effective. simpl. by rewrite lookup_insert_ne, lookup_insert_eq. Qed.

(** a document proposed to a running panel never moves the segment onto the leg the panel is
    reached on: after its import the plan's interface is not the management interface and the
    segment's /24 is not the management network's, whether the document names them or leaves them
    to the configured defaults. *)
Theorem management_leg_kept json_loads json_compact doc s doc' now d sm d' :
  constraints d -> model_validate json_loads json_compact doc (Some s) = inr doc' -> import_state doc' now d = (inr sm, d') ->
  text_values doc' -> strip (c_mgmt_iface s) <> "" ->
  strip (np_segment_iface (from_store d' s)) <> strip (c_mgmt_iface s) /\
  (net24 (c_mgmt_ip s) <> "" -> net24 (np_segment_ip (from_store d' s)) <> net24 (c_mgmt_ip s)).
Proof.
  intros Hd Hv Hi Ht Hm. rewrite import_state_run in Hi by (done || by eapply validated_referenced).
  case_decide; [|done]. injection Hi as <- <-.
  destruct (validated_inr _ _ _ _ _ Hv) as (_ & _ & _ & _ & Hn & action & _ & Hdoc).
  assert (b_settings (normalize_legacy_empty_profiles doc) = b_settings doc') as Hs by (by rewrite Hdoc). rewrite Hs in Hn.
  unfold validate_network_settings in Hn. apply ebind_inr in Hn as (out & Hnet & Hn), Hn as ([] & _ & Hn), Hn as ([] & Hsafe & _).
  assert (check_change_safe (effective (b_settings doc') s) s = []) as Hc by (cbv zeta in Hsafe; by case_bool_decide).
  apply change_safe in Hc as [Hf Hp].
  assert ("segment_iface" ∈ NET_CROSS_FIELD_KEYS /\ "segment_ip" ∈ NET_CROSS_FIELD_KEYS) as [KI KP] by (split; apply (bool_decide_unpack _); by vm_compute).
  rewrite (field_text_str _ _ _ (effective_iface _ _)), (text_field _ _ Ht KI) in Hf.
  rewrite (field_text_str _ _ _ (effective_ip _ _)), (text_field _ _ Ht KP) in Hp.
  unfold from_store. cbn [np_segment_iface np_segment_ip].
  rewrite (text_imported doc' now d _ Ht KI), (text_imported doc' now d _ Ht KP). pose proof (text_lookup doc' _ Ht KI) as El. clear - Hf Hp Hm Hnet El. split.
  - rewrite effective_strip in Hf; [intros Heq; rewrite Heq in Hf; tauto|]. destruct (doc_text doc' "segment_iface") as [t|] eqn:E; simpl; [|by right]. left.
    exact (iface_not_blank _ _ _ El Hnet).
  - intros Hnz. by apply net24_apart.
Qed.

(** * Round trip *)

(** What the panel's own writes guarantee of its rows: nodes are normalised, profiles and
    subscriptions carry their key, reservations hold a lower-case MAC and no blanks. *)
Record tidy (d : db) : Prop := Tidy {
  tidy_nodes : forall i n, d_nodes d !! i = Some n -> normal n;
  tidy_profiles : forall i p, d_profiles d !! i = Some p -> p_id p = Some i;
  tidy_subs : forall i s, d_subs d !! i = Some s -> s_id s = Some i;
  tidy_reservations : forall i r, d_reservations d !! i = Some r -> lower (strip (res_mac r)) = res_mac r /\ strip (res_ip r) = res_ip r
}.

Lemma row_to_node_id i n : n_id (row_to_node i n) = Some i.
Proof. unfold row_to_node. by rewrite (proj1 (normalize_owned _)). Qed.
Lemma row_to_node_idem i n : row_to_node i (row_to_node i n) = row_to_node i n.
Proof.
  unfold row_to_node at 1. assert (with_id (Some i) (row_to_node i n) = row_to_node i n) as ->.
  { pose proof (row_to_node_id i n) as H. destruct (row_to_node i n); simpl in *. by subst. }
  apply normalize_fixed, normalize_normal_aux.
Qed.
Lemma row_to_node_ident i n : normal n -> ident_key (row_to_node i n) = ident_key n.
Proof.
  intros H. assert (row_to_node i n = with_id (Some i) (normalize n)) as ->; [|by rewrite normalize_fixed].
  unfold row_to_node, normalize. by repeat case_decide.
Qed.

Lemma node_from_row i n : node_from (BackupNode i n) = row_to_node i n.
Proof. reflexivity. Qed.

Lemma list_nodes_elem d b : b ∈ export_node <$> list_nodes d <-> exists i n, d_nodes d !! i = Some n /\ b = BackupNode i (row_to_node i n).
Proof.
  rewrite list_elem_of_fmap. unfold list_nodes, rows_by_position. split.
  - intros (m & -> & ([i n] & -> & Hin)%list_elem_of_fmap). rewrite stable_sort_elem, elem_of_map_to_list in Hin. exists i, n. split; [done|].
    unfold export_node. simpl. by rewrite row_to_node_id.
  - intros (i & n & Hin & ->). exists (row_to_node i n). split; [unfold export_node; by rewrite row_to_node_id|].
    apply list_elem_of_fmap. exists (i, n). split; [done|]. by rewrite stable_sort_elem, elem_of_map_to_list.
Qed.

(** Rows of a table keyed by their own id. *)
Lemma listed_elem {V B} (m : gmap Z V) (before : Z * V -> Z * V -> bool) (f : V -> B) b :
  b ∈ f <$> (snd <$> stable_sort before (map_to_list m)) <-> exists i x, m !! i = Some x /\ b = f x.
Proof.
  rewrite list_elem_of_fmap. split.
  - intros (x & -> & ([i y] & -> & Hin)%list_elem_of_fmap). rewrite stable_sort_elem, elem_of_map_to_list in Hin. eauto.
  - intros (i & x & Hin & ->). exists x. split; [done|]. apply list_elem_of_fmap. exists (i, x). split; [done|].
    by rewrite stable_sort_elem, elem_of_map_to_list.
Qed.

(** The pinned devices, without the ids of their rows. *)
Definition pin (r : reservation) : string * string * string := (res_mac r, res_ip r, res_name r).
Definition pins (d : db) : list (string * string * string) := pin <$> (map_to_list (d_reservations d)).*2.

Lemma unique_nodup {V B} `{EqDecision B} (f : V -> B) (m : gmap Z V) : unique_by f m -> NoDup (f <$> (map_to_list m).*2).
Proof.
  rewrite unique_by_alt. intros Hu. rewrite <-list_fmap_compose. apply NoDup_alt. intros p q x Hp Hq.
  rewrite list_lookup_fmap in Hp, Hq. apply fmap_Some in Hp as ([i a] & Hp & ->), Hq as ([j b] & Hq & Hab). simpl in Hab.
  assert (i = j) as ->.
  { eapply Hu; [eapply elem_of_map_to_list, list_elem_of_lookup_2; exact Hp|eapply elem_of_map_to_list, list_elem_of_lookup_2; exact Hq|done]. }
  eapply (NoDup_lookup (map_to_list m).*1); [apply NoDup_fst_map_to_list|by rewrite list_lookup_fmap, Hp|by rewrite list_lookup_fmap, Hq].
Qed.

Lemma exported_collision_free d : constraints d -> tidy d -> NoDup (bn_id <$> (export_node <$> list_nodes d)) ->
  NoDup (node_identities (export_node <$> list_nodes d)) /\
  NoDup (reserved_macs (export_reservation <$> list_reservations d)) /\ NoDup (reserved_ips (export_reservation <$> list_reservations d)).
Proof.
  intros (Hi & _ & _ & _ & _ & _ & _ & Hm & Hp & _) [Tn _ _ Tr] Hids. split_and!.
  - unfold node_identities. apply (table_unique bn_id node_from ident_key); [done|]. apply unique_by_alt. intros i j x y Hx Hy Hxy.
    apply table_lookup in Hx as (a & Ha & <- & <-), Hy as (b & Hb & <- & <-); [|done..].
    apply list_nodes_elem in Ha as (i & n & Hn & ->), Hb as (j & m & Hm' & ->). cbn [bn_id].
    rewrite !node_from_row, !row_to_node_idem, !row_to_node_ident in Hxy by eauto. by eapply (proj1 (unique_by_alt _ _) Hi).
  - unfold reserved_macs. rewrite <-list_fmap_compose. unfold list_reservations. rewrite stable_sort_perm.
    rewrite (Forall_fmap_ext_1 _ res_mac); [by apply unique_nodup|].
    apply Forall_forall. intros r ([i r'] & -> & Hr)%list_elem_of_fmap. apply elem_of_map_to_list in Hr. by destruct (Tr i r' Hr).
  - unfold reserved_ips. rewrite <-list_fmap_compose. unfold list_reservations. rewrite stable_sort_perm.
    rewrite (Forall_fmap_ext_1 _ res_ip); [by apply unique_nodup|].
    apply Forall_forall. intros r ([i r'] & -> & Hr)%list_elem_of_fmap. apply elem_of_map_to_list in Hr. by destruct (Tr i r' Hr).
Qed.

Lemma number_sorted {A} (l : list A) (f : Z * A -> rule) : (forall e, r_position (f e) = e.1) ->
  forall i, StronglySorted (fun a b => (r_position a <=? r_position b) = true) (f <$> number i l).
Proof.
  intros Hf. induction l as [|x l IH]; intros i; simpl; constructor; [apply IH|].
  apply List.Forall_forall. intros r Hr%list_elem_of_In. apply list_elem_of_fmap in Hr as (e & -> & He). rewrite !Hf. simpl. apply Z.leb_le.
  assert (e.1 ∈ (number (i + 1) l).*1) as H by (by apply list_elem_of_fmap_2). apply number_keys in H. lia.
Qed.

Lemma keys_restorable k : k ∈ SETTINGS_KEYS -> k ∉ SETTINGS_NEVER_BACKED_UP.
Proof.
  assert (Forall (fun k => k ∉ SETTINGS_NEVER_BACKED_UP) SETTINGS_KEYS) as H by (apply (bool_decide_unpack _); by vm_compute).
  rewrite Forall_forall in H. apply H.
Qed.

Lemma export_settings_lookup d k : k ∈ SETTINGS_KEYS -> export_settings d !! k = JStr <$> get_setting k d.
Proof.
  intros Hk. unfold export_settings. rewrite lookup_fmap. unfold get_setting. destruct (d_settings d !! k) as [v|] eqn:E.
  - by rewrite (proj2 (map_lookup_filter_Some _ _ _ _) (conj E Hk)).
  - rewrite (proj2 (map_lookup_filter_None _ _ _)); [done|]. by left.
Qed.

(** The document an export becomes. *)
Lemma exported_document json_loads json_compact now live env d doc :
  validate_document json_loads json_compact true (stamped now (export_state d)) live env = inr doc ->
  doc = stamped now (export_state d) /\ well_referenced doc.
Proof.
  intros Hv. split; [|by eapply validated_referenced].
  destruct (validated_inr _ _ _ _ _ Hv) as (_ & _ & _ & _ & _ & action & Ha & ->).
  change (normalize_legacy_empty_profiles (stamped now (export_state d))) with (stamped now (export_state d)) in *.
  unfold reconcile_default_action in Ha. simpl in Ha. unfold stamped. simpl. do 2 f_equal.
  destruct (export_settings d !! "routing_default_action"); [case_bool_decide|]; congruence.
Qed.

(** The settings that come back as they were; the other three follow rules of their own. *)
Definition plain_key (k : string) : Prop :=
  k ∈ SETTINGS_KEYS /\ k <> "rw_public_key" /\ k <> "rw_enabled" /\ k <> "routing_default_action".

Lemma plain_setting_back now now' d d0 k : plain_key k ->
  get_setting k (imported (stamped now (export_state d)) now' d0) = get_setting k d.
Proof.
  intros (Hk & H1 & H2 & H3). rewrite imported_setting, restored_lookup, import_settings_lookup by done.
  rewrite decide_False by (pose proof (keys_restorable k Hk); tauto). cbn [b_settings stamped export_state].
  rewrite export_settings_lookup by done. destruct (get_setting k d); simpl; [done|]. by rewrite decide_False, decide_True.
Qed.

Lemma default_action_back now now' d d0 :
  get_setting "routing_default_action" (imported (stamped now (export_state d)) now' d0) = Some (get_setting "routing_default_action" d or "proxy").
Proof. rewrite imported_setting, restored_lookup, import_settings_lookup by done. by rewrite decide_True by auto. Qed.

Lemma remote_access_back now now' d d0 :
  let d' := imported (stamped now (export_state d)) now' d0 in
  key_private d0 <> "" -> key_public d0 <> "" -> get_setting "rw_public_key" d = Some (key_public d0) ->
  get_setting "rw_public_key" d' = get_setting "rw_public_key" d /\ get_setting "rw_enabled" d' = get_setting "rw_enabled" d.
Proof.
  intros d' Hpriv Hpub E. unfold d'. rewrite !imported_setting. set (st := import_settings _).
  assert (forall k, k ∈ own_keys -> k ∈ SETTINGS_KEYS /\ st !! k = get_setting k d) as Hst.
  { intros k Hk. assert (k ∈ SETTINGS_KEYS /\ k <> "routing_default_action") as [K1 K2].
    { revert Hk. unfold own_keys. rewrite !elem_of_cons. intros [-> | [-> | []%elem_of_nil]]; (split; [apply (bool_decide_unpack _); by vm_compute|done]). }
    split; [done|]. unfold st. rewrite import_settings_lookup, decide_False by (pose proof (keys_restorable k K1); tauto).
    cbn [b_settings stamped export_state]. rewrite export_settings_lookup by done. by destruct (get_setting k d). }
  destruct (Hst "rw_public_key") as [K1 S1], (Hst "rw_enabled") as [K2 S2]; [apply (bool_decide_unpack _); by vm_compute..|]. clear Hst. rewrite E in S1.
  assert (restored_settings (key_private d0) (key_public d0) st = st) as ->.
  { unfold restored_settings, keep_pair, rw_disabled. rewrite S1. change (default "" (Some (key_public d0))) with (key_public d0).
    repeat (case_bool_decide; cbn [negb andb]); done. }
  rewrite S1, S2, E. split; [done|]. destruct (get_setting "rw_enabled" d); [done|]. by rewrite decide_False, decide_True.
Qed.

Lemma nodes_back d i : NoDup (bn_id <$> (export_node <$> list_nodes d)) ->
  row_to_node i <$> table bn_id node_from (export_node <$> list_nodes d) !! i = get_node i d.
Proof.
  intros Hids. unfold get_node. destruct (d_nodes d !! i) as [n|] eqn:E; simpl.
  - rewrite (proj2 (table_lookup bn_id node_from _ i (row_to_node i n) Hids)); simpl; [by rewrite row_to_node_idem|].
    exists (BackupNode i (row_to_node i n)). split; [apply list_nodes_elem; eauto|]. split; [done|]. by rewrite node_from_row, row_to_node_idem.
  - destruct (table bn_id node_from _ !! i) eqn:Et; [|done]. apply table_lookup in Et as (b & Hb & <- & _); [|done].
    apply list_nodes_elem in Hb as (j & m & Hj & ->). simpl in E. congruence.
Qed.

(** A table of rows that carry their key, exported and filled again. *)
Lemma keyed_back {V B} (key : B -> Z) (row : B -> V) (f : V -> B) (g : Z -> V -> V) before (m : gmap Z V) i :
  NoDup (key <$> (f <$> (snd <$> stable_sort before (map_to_list m)))) ->
  (forall i x, m !! i = Some x -> key (f x) = i /\ row (f x) = g i x) ->
  table key row (f <$> (snd <$> stable_sort before (map_to_list m))) !! i = g i <$> m !! i.
Proof.
  intros Hids Hk. destruct (m !! i) as [x|] eqn:E; simpl.
  - apply table_lookup; [done|]. exists (f x). split; [apply listed_elem; eauto|]. by apply Hk.
  - destruct (table key row _ !! i) eqn:Et; [|done]. apply table_lookup in Et as (b & Hb & <- & _); [|done].
    apply listed_elem in Hb as (j & x & Hj & ->). destruct (Hk j x Hj) as [Hkey _]. congruence.
Qed.

Lemma profile_row_back i p : p_id p = Some i -> profile_row (export_profile p) = p.
Proof. destruct p; simpl. intros ->. done. Qed.

Lemma pins_back now' d d1 : tidy d ->
  pins (with_reservations now' (export_reservation <$> list_reservations d) d1) ≡ₚ pins d.
Proof.
  intros [_ _ _ Tr]. unfold pins. cbn [with_reservations set_reservations d_reservations]. unfold table.
  rewrite map_to_list_to_map by (rewrite table_keys; apply number_nodup).
  set (l := export_reservation <$> list_reservations d). set (n := number _ l).
  assert (pin <$> ((fun b : Z * breservation => (b.1, res_row now' b)) <$> n).*2 =
          (fun v => (lower (strip (bv_mac v)), strip (bv_ip v), bv_name v)) <$> l) as ->.
  { rewrite <-(number_snd l (d_res_seq d1 + 1)). fold n. by rewrite <-!list_fmap_compose. }
  unfold l, list_reservations. rewrite <-list_fmap_compose, stable_sort_perm.
  rewrite (Forall_fmap_ext_1 _ pin); [done|].
  apply Forall_forall. intros r ([i r'] & -> & Hr)%list_elem_of_fmap. apply elem_of_map_to_list in Hr.
  destruct (Tr i r' Hr) as [E1 E2]. unfold pin. simpl. by rewrite E1, E2.
Qed.

(** A rule without its place and its dataset. *)
Definition rule_core (r : rule) : string * string * string * bool * string := (r_type r, r_value r, r_action r, r_enabled r, r_label r).

Lemma rules_back l : rule_core <$> rule_rows (export_rule <$> l) = rule_core <$> l.
Proof.
  unfold rule_rows. rewrite <-list_fmap_compose. rewrite <-(number_snd (export_rule <$> l) 0) at 1. clear.
  transitivity ((fun b => (br_type b, br_value b, br_action b, br_enabled b, br_label b)) <$> (number 0 (export_rule <$> l)).*2).
  - rewrite <-list_fmap_compose. rewrite number_snd. done.
  - rewrite number_snd, <-list_fmap_compose. done.
Qed.
Lemma imported_routing doc now d : get_routing (imported doc now d) = rule_rows (b_rules doc).
Proof. unfold get_routing. cbn [imported set_settings d_routing with_reservations set_reservations set_routing]. apply stable_sort_id. by apply number_sorted. Qed.

(** C10: a configuration exported by the panel and validated comes back from its document, on any box:
    the import succeeds, and the nodes, the tuning profiles, the subscriptions (their fetch state
    reset), the pinned devices and the settings of the backup's list are the exported ones, remote
    access included on a box that holds the same Reality pair.  The routing rules come back in their order with type, value, action, state and label, and lose
    their dataset, every one of them. *)
Theorem export_import_roundtrip json_loads json_compact now now' live env d d0 doc :
  constraints d -> tidy d -> constraints d0 ->
  validate_document json_loads json_compact true (stamped now (export_state d)) live env = inr doc ->
  exists sm d', import_state doc now' d0 = (inr sm, d') /\
    (forall i, get_node i d' = get_node i d) /\
    (forall i, get_profile i d' = get_profile i d) /\
    (forall i, get_subscription i d' = with_sub_id i <$> get_subscription i d) /\
    pins d' ≡ₚ pins d /\
    (forall k, plain_key k -> get_setting k d' = get_setting k d) /\
    get_setting "routing_default_action" d' = Some (get_setting "routing_default_action" d or "proxy") /\
    (key_private d0 <> "" -> key_public d0 <> "" -> get_setting "rw_public_key" d = Some (key_public d0) ->
       get_setting "rw_public_key" d' = get_setting "rw_public_key" d /\ get_setting "rw_enabled" d' = get_setting "rw_enabled" d) /\
    (rule_core <$> get_routing d' = rule_core <$> get_routing d /\ Forall (fun r => r_dataset r = "") (get_routing d')).
Proof.
  intros Hd Ht Hd0 Hv. destruct (exported_document _ _ _ _ _ _ _ Hv) as [-> Hw].
  pose proof Hw as [Hp Hs Hn _ _ _].
  exists (summary_of (stamped now (export_state d)) d0), (imported (stamped now (export_state d)) now' d0).
  split; [rewrite import_state_run by done; rewrite decide_True; [done|]; by apply exported_collision_free|].
  split; [intros i; exact (nodes_back d i Hn)|].
  split; [|split; [|split; [|split; [|split; [|split]]]]].
  - intros i. unfold get_profile. cbn [imported set_settings d_profiles with_reservations set_reservations set_routing with_nodes set_node_seq set_nodes with_subs set_subs with_profiles set_profiles].
    cbn [b_profiles stamped export_state]. unfold list_profiles in *.
    rewrite (keyed_back bp_id profile_row export_profile (fun _ p => p)); [by rewrite option_fmap_id|exact Hp|].
    intros j p Hj. pose proof (tidy_profiles d Ht j p Hj) as E. split; [simpl; by rewrite E|by apply (profile_row_back j)].
  - intros i. unfold get_subscription. cbn [imported set_settings d_subs with_reservations set_reservations set_routing with_nodes set_node_seq set_nodes with_subs set_subs with_profiles set_profiles].
    cbn [b_subscriptions stamped export_state]. unfold list_subscriptions in *.
    rewrite (keyed_back bs_id sub_row export_sub with_sub_id); [done|exact Hs|].
    intros j p Hj. pose proof (tidy_subs d Ht j p Hj) as E. split; [simpl; by rewrite E|]. unfold sub_row, export_sub; simpl. by rewrite E.
  - exact (pins_back now' d _ Ht).
  - intros k Hk. by apply plain_setting_back.
  - apply default_action_back.
  - apply remote_access_back.
  - rewrite imported_routing. cbn [b_rules stamped export_state]. split; [apply rules_back|].
    apply Forall_forall. intros r (e & -> & _)%list_elem_of_fmap. done.
Qed.

(** * A box *)

Module RestoreDemo.
Definition loads (_ : string) : option json := None.
Definition compact (_ : json) : string := "".

(** A configured box: one profile, one node, one pinned device, a rule on the second dataset. *)
Definition demo_box : db :=
  ((add_profile (mk_profile None "default") ;;;
    add_node (normalize (mk_node "a" "1.2.3.4" 443 "u")) ;;;
    add_reservation (Reservation None "aa:bb:cc:dd:ee:ff" "192.168.10.40" "tv" 5) ;;;
    set_setting "dhcp_lease" "12h" ;;;
    set_setting "segment_iface" "eth0.2" ;;;
    set_setting "rw_clients" "[]" ;;;
    replace_routing [Rule None 0 "geosite" "ru-blocked" "direct" true "" "ru"]) empty_db).2.
(** A box with a key pair of its own. *)
Definition other_box : db :=
  ((set_setting "rw_private_key" "private" ;;; set_setting "rw_public_key" "public") empty_db).2.
Definition demo_doc : document := stamped 7 (export_state demo_box).

Lemma demo_valid : validate_document loads compact true demo_doc None None = inr demo_doc.
Proof. by vm_compute. Qed.
Lemma demo_proposal : model_validate loads compact demo_doc (Some default_settings) = inr demo_doc.
Proof. by vm_compute. Qed.
Lemma demo_constraints : constraints demo_box /\ constraints other_box.
Proof. split; apply (bool_decide_unpack _); by vm_compute. Qed.
Lemma demo_import : import_state demo_doc 9 other_box = (inr (summary_of demo_doc other_box), imported demo_doc 9 other_box).
Proof.
  rewrite import_state_run by (apply demo_constraints || exact (validated_referenced _ _ _ _ _ demo_proposal)).
  rewrite decide_True; [done|]. apply (bool_decide_unpack _). by vm_compute.
Qed.
Lemma demo_tidy : tidy demo_box.
Proof.
  assert (map_Forall (fun (i : Z) n => normalize n = n) (d_nodes demo_box)) as H1 by (apply (bool_decide_unpack _); by vm_compute).
  assert (map_Forall (fun i p => p_id p = Some i) (d_profiles demo_box)) as H2 by (apply (bool_decide_unpack _); by vm_compute).
  assert (map_Forall (fun i s => s_id s = Some i) (d_subs demo_box)) as H3 by (apply (bool_decide_unpack _); by vm_compute).
  assert (map_Forall (fun (i : Z) r => lower (strip (res_mac r)) = res_mac r /\ strip (res_ip r) = res_ip r) (d_reservations demo_box)) as H4
    by (apply (bool_decide_unpack _); by vm_compute).
  split; [|exact H2|exact H3|exact H4]. intros i n Hn. rewrite <-(H1 i n Hn). apply normalize_normal_aux.
Qed.

Lemma import_exact_witness :
  import_state demo_doc 9 other_box =
  if decide (collision_free demo_doc) then (inr (summary_of demo_doc other_box), imported demo_doc 9 other_box) else (inl IntegrityError, other_box).
Proof. exact (import_exact loads compact demo_doc None demo_doc 9 other_box (proj2 demo_constraints) demo_valid). Defined.

Lemma credentials_untouched_witness : get_setting "rw_private_key" (imported demo_doc 9 other_box) = get_setting "rw_private_key" other_box.
Proof.
  refine (proj1 (proj2 (credentials_untouched loads compact demo_doc None demo_doc 9 other_box _ _ (proj2 demo_constraints) demo_valid demo_import)) _ _).
  left.
Defined.

Lemma keypair_never_split_witness : default "" (get_setting "rw_public_key" (imported demo_doc 9 other_box)) = key_public other_box.
Proof.
  refine (proj1 (keypair_never_split loads compact demo_doc None demo_doc 9 other_box _ _ (proj2 demo_constraints) demo_valid demo_import) _).
  left. by vm_compute.
Defined.

Lemma demo_text : text_values demo_doc.
Proof.
  assert (Forall (fun k => (match b_settings demo_doc !! k with None | Some (JStr _) => true | _ => false end) = true) NET_CROSS_FIELD_KEYS) as H.
  { apply Forall_cons; split; [by vm_compute|]. apply Forall_cons; split; [by vm_compute|]. apply Forall_singleton. by vm_compute. }
  intros k v Hk E. rewrite Forall_forall in H. specialize (H k Hk). rewrite E in H. clear E Hk. destruct v; first [discriminate H|eauto].
Qed.
Lemma management_leg_kept_witness :
  strip (np_segment_iface (from_store (imported demo_doc 9 other_box) default_settings)) <> strip (c_mgmt_iface default_settings).
Proof.
  refine (proj1 (management_leg_kept loads compact demo_doc default_settings demo_doc 9 other_box _ _ (proj2 demo_constraints) demo_proposal demo_import demo_text _)).
  by vm_compute.
Defined.

Lemma export_import_roundtrip_witness : exists sm d', import_state demo_doc 9 other_box = (inr sm, d') /\ pins d' ≡ₚ pins demo_box.
Proof.
  destruct (export_import_roundtrip loads compact 7 9 None None demo_box other_box demo_doc (proj1 demo_constraints) demo_tidy
              (proj2 demo_constraints) demo_valid) as (sm & d' & E & _ & _ & _ & Hp & _).
  exists sm, d'. split; [exact E|exact Hp].
Defined.

(** The dataset of the demo's rule does not survive. *)
Lemma dataset_lost :
  r_dataset <$> get_routing demo_box = ["ru"] /\ r_dataset <$> get_routing (imported demo_doc 9 other_box) = [""].
Proof. split; by vm_compute. Qed.

(** Two reservations of one MAC pass validation and are refused by the database. *)
Definition twice_reserved : document :=
  BackupDocument 3 None [] [] [BackupProfile 1 (mk_profile None "default")] [] (Some "proxy")
    [BackupReservation "aa:bb:cc:dd:ee:ff" "192.168.10.40" ""; BackupReservation "AA:BB:CC:DD:EE:FF" "192.168.10.41" ""] ∅.
Lemma reservations_refused_late :
  model_validate loads compact twice_reserved (Some default_settings) = inr twice_reserved /\
  (import_state twice_reserved 9 other_box).1 = inl IntegrityError.
Proof. split; by vm_compute. Qed.

(** White space around a value passes validation and is stored: the interface the plan then names
    is no interface name. *)
Definition padded : document :=
  BackupDocument 3 None [] [] [BackupProfile 1 (mk_profile None "default")] [] (Some "proxy") [] {[ "segment_iface" := JStr "eth0.3 " ]}.
Lemma padding_stored :
  model_validate loads compact padded (Some default_settings) = inr padded /\
  np_segment_iface (from_store (imported padded 9 other_box) default_settings) = "eth0.3 " /\ iface_re "eth0.3 " = false.
Proof. split_and!; by vm_compute. Qed.
End RestoreDemo.
