(* ===== verification/BackupFiles.v ===== *)
(** The backup documents kept on the box: [document_kind], [list_documents], [read_document],
    [write_document], the pre-restore snapshots and their pruning in [backup/__init__.py], and the
    daily backup of [backup/scheduler.py].

    The directory is a map from file names.  The clock, the random part of a name, whether a file
    can be read or removed and how far a write gets are the operating system's. *)
From Stdlib Require Import ZArith Lia Ascii.
From stdpp Require Import base gmap strings list.
From S2P Require Import Prelude PyStr Models Json Config Store Render RwInbound NetSettings Backup.
Open Scope string_scope.
Open Scope list_scope.
Open Scope Z_scope.

(** What a file holds: nothing yet, a document, or text that is no document. *)
Inductive content := Empty | Holds (doc : document) | Garbage.
Record bfile := BFile { bf_content : content; bf_mtime : Z }.
Notation dir := (gmap string bfile).

Definition PRE_RESTORE_RETAIN : nat := 10.

(** * Names *)

Definition stamp (t : string) : option Z :=
  if (1 <=? String.length t)%nat && (String.length t <=? 12)%nat && str_all is_digit t then py_int t else None.
Definition endswith (s t : string) : bool := (String.length t <=? String.length s)%nat && bool_decide (str_last (String.length t) s = t).
(** The pattern of [_DOCUMENT_RE] on the whole name. *)
Definition kind_of (name : string) : option (string * Z) :=
  if negb (endswith name ".json") then None
  else
    let body := str_take (String.length name - 5) name in
    if startswith body "backup-" then pair "auto" <$> stamp (str_drop 7 body)
    else if startswith body "pre-restore-" then
      match split_on "-"%char (str_drop 12 body) with
      | [t; h] => if (String.length h =? 32)%nat && str_all is_lower_hex h then pair "pre-restore" <$> stamp t else None
      | _ => None
      end
    else None.
(** [re.match] with [$]: one line feed may follow. *)
Definition document_kind (name : string) : option (string * Z) :=
  match kind_of name with
  | Some k => Some k
  | None => if bool_decide (last_char name = Some "010"%char) then kind_of (str_take (String.length name - 1) name) else None
  end.

Definition snapshot_name (now : Z) (hex : string) : string := "pre-restore-" +:+ str_int now +:+ "-" +:+ hex +:+ ".json".
Definition backup_name (now : Z) : string := "backup-" +:+ str_int now +:+ ".json".

(** * Listing and reading *)

Record row := Row { rw_name : string; rw_created_at : Z; rw_kind : string; rw_mtime : Z }.
(** [stat] fails for a file that is pruned meanwhile. *)
Definition row_of (stat : string -> bool) (e : string * bfile) : option row :=
  match document_kind e.1 with
  | None => None
  | Some (kind, created) =>
      if negb (stat e.1) then None
      else match bf_content e.2 with Empty => None | _ => Some (Row e.1 created kind (bf_mtime e.2)) end
  end.
(** The order of the key [(-created_at, -mtime, name)]. *)
Definition row_before (a b : row) : bool :=
  (rw_created_at b <? rw_created_at a) ||
  ((rw_created_at a =? rw_created_at b) && ((rw_mtime b <? rw_mtime a) ||
   ((rw_mtime a =? rw_mtime b) && String.leb (rw_name a) (rw_name b)))).
Definition by_name (a b : string * bfile) : bool := String.leb a.1 b.1.
Definition list_documents (stat : string -> bool) (d : dir) : list row :=
  stable_sort row_before (omap (row_of stat) (stable_sort by_name (map_to_list d))).

Inductive read_error := NoSuchName | NoFile | NotADocument.
Definition read_document (name : string) (d : dir) : read_error + document :=
  match document_kind name with
  | None => inl NoSuchName
  | Some _ => match d !! name with
              | None => inl NoFile
              | Some f => match bf_content f with Holds doc => inr doc | _ => inl NotADocument end
              end
  end.

(** [post_restore_undo]: the newest snapshot. *)
Definition newest_snapshot (stat : string -> bool) (d : dir) : option row :=
  head (filter (fun r => rw_kind r = "pre-restore") (list_documents stat d)).

(** * Writing *)

(** How far a write gets: the temporary file fails, or the directory cannot be synced after the rename. *)
Inductive written := WriteDone | FailsBefore (exc : string) | FailsAfter (exc : string).
(** [write_document]: the temporary file is renamed over the target, or removed. *)
Definition write_document (o : written) (t : Z) (doc : document) (name : string) (d : dir) : option string * dir :=
  match o with
  | WriteDone => (None, <[name := BFile (Holds doc) t]> d)
  | FailsBefore e => (Some e, d)
  | FailsAfter e => (Some e, <[name := BFile (Holds doc) t]> d)
  end.

(** [_reserve_snapshot_path]: eight names at most; the first that is free is created, empty. *)
Fixpoint reserve_snapshot (now t : Z) (hexes : list string) (d : dir) : option string * dir :=
  match hexes with
  | [] => (None, d)
  | h :: hs =>
      let name := snapshot_name now h in
      match d !! name with
      | Some _ => reserve_snapshot now t hs d
      | None => (Some name, <[name := BFile Empty t]> d)
      end
  end.

Definition is_snapshot (name : string) : bool := startswith name "pre-restore-" && endswith name ".json".
Definition by_mtime (a b : string * bfile) : bool := bf_mtime a.2 <=? bf_mtime b.2.
(** [l[:-n]] *)
Definition drop_last {A} (n : nat) (l : list A) : list A := take (length l - n) l.
(** [os.unlink] of each; [locked] files stay. *)
Definition unlink_all (locked : string -> bool) (names : list string) (d : dir) : dir :=
  foldl (fun d n => if locked n then d else delete n d) d names.
(** [listing] is [os.listdir], in the order the system gives; [None] is OSError, there or from getmtime. *)
Definition prune_snapshots (locked : string -> bool) (listing : option (list string)) (keep : nat) (d : dir) : dir :=
  match listing with
  | None => d
  | Some l =>
      let names := filter (fun n => is_snapshot n = true) l in
      if (length names <=? keep)%nat then d
      else let files := omap (fun n => pair n <$> d !! n) names in
           unlink_all locked (drop_last keep (stable_sort by_mtime files)).*1 d
  end.

(** What the system answers while a snapshot is taken. *)
Record disk_answers := DiskAnswers {
  da_now : Z;
  da_mtime : Z;
  da_hexes : list string;
  da_write : written;
  da_cleanup : bool;
  da_listing : dir -> option (list string);
  da_locked : string -> bool
}.

(** [_reserve_snapshot_path] and the write, with the placeholder removed when nothing was written. *)
Definition store_snapshot (a : disk_answers) (doc : document) (d : dir) : (string + string) * dir :=
  match reserve_snapshot (da_now a) (da_mtime a) (take 8 (da_hexes a)) d with
  | (None, d) => (inl "could not allocate a unique pre-restore snapshot filename", d)
  | (Some name, d) =>
      match write_document (da_write a) (da_mtime a) doc name d with
      | (Some exc, d) =>
          let still_empty := match d !! name with Some (BFile Empty _) => true | _ => false end in
          (inl exc, if still_empty && da_cleanup a then delete name d else d)
      | (None, d) => (inr name, prune_snapshots (da_locked a) (da_listing a d) PRE_RESTORE_RETAIN d)
      end
  end.

Section files.
Context (json_loads : string -> option json) (json_compact : json -> string) (show : refusal -> string).

(** [write_pre_restore_snapshot]: the name, or the text of the OSError or ValueError. *)
Definition write_pre_restore_snapshot (a : disk_answers) (x : db) (d : dir) : (string + string) * dir :=
  let doc := stamped (da_now a) (export_state x) in
  match validate_document json_loads json_compact true doc None None with
  | inl r => (inl (show r), d)
  | inr _ => store_snapshot a doc d
  end.

(** * The daily backup *)

(** [BackupScheduler.run_once]: [inl] is an exception; [None] when backups are off. *)
Definition run_once (a : disk_answers) (keep : nat) (x : db) (d : dir) : (string + option string) * db * dir :=
  if negb (bool_decide ((get_setting "auto_backup_enabled" x or "0") = "1")) then (inr None, x, d)
  else
    let doc := stamped (da_now a) (export_state x) in
    let name := backup_name (da_now a) in
    match validate_document json_loads json_compact true doc None None with
    | inl r => (inl (show r), x, d)
    | inr _ =>
        match write_document (da_write a) (da_mtime a) doc name d with
        | (Some exc, d) => (inl exc, x, d)
        | (None, d) =>
            match da_listing a d with
            | None => (inl "the backups could not be listed", x, d)
            | Some l =>
                let kept := stable_sort String.leb (filter (fun n => startswith n "backup-" && endswith n ".json" = true) l) in
                let d := unlink_all (da_locked a) (drop_last keep kept) d in
                match set_setting "last_backup_at" (str_int (da_now a)) x with
                | (inl _, x) => (inl "the store refused the time of the backup", x, d)
                | (inr _, x) => (inr (Some name), x, d)
                end
            end
        end
    end.

(** [_initial_delay], in seconds. *)
Definition initial_delay (interval now : Z) (x : db) : Z :=
  match (match get_setting "last_backup_at" x with Some t => py_int t | None => None end) with
  | None => interval
  | Some last => Z.max 0 (interval - (now - last))
  end.
End files.
