(* ===== verification/ProvisionFrame.v ===== *)
(** What provisioning leaves alone: whatever the host and the store do, a pass, an undo or a
    change of the delegated prefix writes no table but the settings, and of those only the records
    of its own. *)
From Stdlib Require Import ZArith Lia Ascii.
From stdpp Require Import base gmap strings list.
From S2P Require Import Prelude PyStr Ip IpText Models Json Config Store Plan Enforcement Records RecordsFacts Ledgers Host Segment Provision.
Open Scope string_scope.
Open Scope list_scope.

(** The two IPv6 prefixes the panel generates when it has none. *)
Definition PREFIX_KEYS : list string := ["segment_ip6"; "ula_prefix6"].
Definition RECORD_KEYS : list string :=
  [LINK_KEY; journal_key LINK_KEY; STALE_KEY; journal_key STALE_KEY; SURVIVOR_KEY; journal_key SURVIVOR_KEY; PROVISION_UNDO_KEY;
   IFACE_KEY; ADDR4_KEY; ADDR6_KEY; "pd_segment_prefix6"].
Definition PROVISION_KEYS : list string := RECORD_KEYS ++ PREFIX_KEYS.

(** A prefix that is there, and so is not replaced. *)
Definition usable_prefix (k t : string) : Prop :=
  k = "segment_ip6" /\ strip t <> "" \/ k = "ula_prefix6" /\ is_Some (host_addr6 (strip t)).
Lemma usable_prefix_key k t : usable_prefix k t -> k ∈ PREFIX_KEYS.
Proof. intros [[-> _] | [-> _]]; set_solver. Qed.

Section frame.
Context {H : Type}.
Implicit Types (w : world H) (m : moment H).

(** The database without its settings. *)
Definition tables (d : db) : db := set_settings ∅ d.
Definition settled (k : string) m : Prop := exists t, cell_at k m = Some (Text t) /\ usable_prefix k t.
Lemma settled_key k m : settled k m -> k ∈ PREFIX_KEYS.
Proof. intros (t & _ & Ht). by eapply usable_prefix_key. Qed.
(** No table is written but the settings, and of those only [ks], and no usable prefix. *)
Definition writes_only (ks : list string) m m' : Prop :=
  tables (m_db m') = tables (m_db m) /\
  forall k, k ∉ ks \/ settled k m -> cell_at k m' = cell_at k m /\ get_setting k (m_db m') = get_setting k (m_db m).
(** The same of everything a crash on the way can leave. *)
Definition stays (ks : list string) w w' : Prop :=
  writes_only ks (w_now w) (w_now w') /\ exists new, w_past w' = new ++ w_past w /\ Forall (writes_only ks (w_now w)) new.
Definition inside w w' : Prop := stays PROVISION_KEYS w w'.

#[global] Instance writes_only_pre ks : PreOrder (writes_only ks).
Proof.
  split; [done|]. intros a b c [T1 K1] [T2 K2]. split; [congruence|]. intros k Hk. destruct (K1 k Hk) as [E1 G1].
  destruct (K2 k) as [E2 G2]; [destruct Hk as [?|(t & Ht & ?)]; [by left|right; exists t; by rewrite E1]|]. split; congruence.
Qed.
#[global] Instance stays_pre ks : PreOrder (stays ks).
Proof.
  split; [intros w; split; [reflexivity|by exists []]|]. intros a b c [W1 (n1 & P1 & F1)] [W2 (n2 & P2 & F2)]. split; [by etrans|].
  exists (n2 ++ n1). rewrite P2, P1, app_assoc. split; [done|]. apply Forall_app. split; [|done].
  eapply Forall_impl; [exact F2|]. intros m Hm. by etrans.
Qed.

Lemma writes_only_mono ks ks' m m' : ks ⊆ ks' -> writes_only ks m m' -> writes_only ks' m m'.
Proof. intros Hs [T K]. split; [done|]. intros k [Hk|Hk]; apply K; [left; set_solver|by right]. Qed.
Lemma stays_mono ks ks' w w' : ks ⊆ ks' -> stays ks w w' -> stays ks' w w'.
Proof.
  intros Hs [W (n & P & F)]. split; [by eapply writes_only_mono|]. exists n. split; [done|]. eapply Forall_impl; [exact F|]. intros m. by apply writes_only_mono.
Qed.
(** One moment more. *)
Lemma advance_within ks m w : writes_only ks (w_now w) m -> stays ks w (advance m w).
Proof. intros Hm. split; [done|]. exists [w_now w]. split; [done|]. by apply Forall_singleton. Qed.
(** Only the faults to come and the result of the last pass differ. *)
Lemma aside_within ks w f r : stays ks w (World (w_now w) f r (w_past w)).
Proof. split; [reflexivity|by exists []]. Qed.

Lemma inside_refl w : inside w w.
Proof. apply stays_pre. Qed.
Lemma inside_trans w1 w2 w3 : inside w1 w2 -> inside w2 w3 -> inside w1 w3.
Proof. apply transitivity. Qed.

(** A step on worlds that stays inside the records, with a result and without. *)
Class Framed {A} (f : world H -> A * world H) : Prop := framed w : inside w (f w).2.
Class Walks (f : world H -> world H) : Prop := walks w : inside w (f w).

Lemma put_cell_only ks k c m : k ∈ ks -> ~ settled k m -> writes_only ks m (put_cell k c m).
Proof.
  intros Hk Hn. split; [by destruct c as [[|]|]|]. intros k' Hk'. assert (k <> k') by (destruct Hk'; [set_solver|congruence]).
  split; [by rewrite cell_at_put, decide_False|]. unfold get_setting. destruct c as [[|]|]; simpl;
    rewrite ?lookup_insert_ne, ?lookup_delete_ne by done; done.
Qed.
Lemma put_net_only ks (n : net H) m : writes_only ks m (Moment (m_db m) (m_odd m) n).
Proof. split; [done|]. by intros k _. Qed.
Lemma write_within ks k v w : k ∈ ks -> ~ settled k (w_now w) -> stays ks w (store_write k v w).2.
Proof.
  intros Hk Hn. unfold store_write, next_fault. pose proof (aside_within ks w (tail (w_faults w)) (w_result w)) as Ha.
  destruct (f_effect _) as [| |c]; [|done|]; etrans; [exact Ha| |exact Ha|]; apply advance_within; by apply put_cell_only.
Qed.
End frame.

(** The instances are found by the head of the function. *)
#[local] Hint Constants Opaque : typeclass_instances.

(** Follows a function to its end: each call is framed, every other choice that decides what
    comes next is split. *)
Ltac split_scrut x :=
  lazymatch x with
  | match ?y with _ => _ end => split_scrut y
  | ?f ?w =>
      first [ let Hw := fresh "Hw" in
              pose proof (framed (f := f) w) as Hw; destruct (f w) as [? ?]; cbn [snd] in Hw
            | destruct x ]
  | _ => destruct x
  end.
Ltac frame_step :=
  cbv zeta; cbn [fst snd];
  lazymatch goal with
  | |- inside ?w ?w => apply inside_refl
  | |- inside _ (snd (match ?x with _ => _ end)) => split_scrut x
  | |- inside _ (match ?x with _ => _ end) => split_scrut x
  | |- inside _ (snd (?f ?w)) => refine (inside_trans _ _ _ _ (framed (f := f) w))
  | |- inside _ (?f ?w) => refine (inside_trans _ _ _ _ (walks (f := f) w))
  | Hw : inside ?a ?b |- inside _ ?b => refine (inside_trans _ _ _ _ Hw); clear Hw
  end.
Ltac frame := intros ?w; repeat frame_step.

(** A key of the panel's own records, not one of the two prefixes. *)
Notation own_record k := (k ∈ PROVISION_KEYS /\ k ∉ PREFIX_KEYS).

Section ledgers.
Context {H : Type}.
Implicit Types (w : world H).

#[global] Instance read_framed k : Framed (H := H) (store_read k).
Proof. intros w. unfold store_read, next_fault. apply aside_within. Qed.
Lemma write_framed k v : own_record k -> Framed (H := H) (store_write k v).
Proof. intros [Hk Hn] w. apply write_within; [done|]. by intros ?%settled_key. Qed.
#[global] Instance read_record_framed k : Framed (H := H) (read_record k).
Proof. unfold read_record. frame. Qed.
#[global] Instance read_scalar_framed k : Framed (H := H) (read_scalar k).
Proof. unfold read_scalar. frame. Qed.
Lemma verified_framed k t e : own_record k -> Framed (H := H) (verified_write k t e).
Proof. intros Hk. pose proof (write_framed k t Hk). unfold verified_write. frame. Qed.
#[global] Instance read_set_framed k : Framed (H := H) (read_set k).
Proof. unfold read_set. frame. Qed.
Lemma write_set_framed k l : own_record k -> own_record (journal_key k) -> Framed (H := H) (write_set k l).
Proof.
  intros Hk Hj. pose proof (fun t e => verified_framed k t e Hk). pose proof (fun t e => verified_framed (journal_key k) t e Hj).
  pose proof (write_framed (journal_key k) "" Hj). unfold write_set, blank. frame.
Qed.
Lemma clear_framed k t : own_record k -> Framed (H := H) (clear_record k t).
Proof.
  intros Hk. pose proof (fun t e => verified_framed k t e Hk). pose proof (write_framed k "" Hk). unfold clear_record, write_record, blank. frame.
Qed.
End ledgers.

Ltac own_key := apply (bool_decide_unpack _); by vm_compute.

Section records.
Context {H : Type}.
Context (json_pairs : string -> string + json) (json_dumps : json -> string).
Implicit Types (w : world H).

#[global] Instance links_set_framed l : Framed (H := H) (record_links l).
Proof. apply write_set_framed; own_key. Qed.
#[global] Instance survivors_set_framed l : Framed (H := H) (record_survivors l).
Proof. apply write_set_framed; own_key. Qed.
#[global] Instance stale_set_framed l : Framed (H := H) (write_set STALE_KEY l).
Proof. apply write_set_framed; own_key. Qed.
#[global] Instance iface_framed t e : Framed (H := H) (verified_write IFACE_KEY t e).
Proof. apply verified_framed; own_key. Qed.
#[global] Instance addr4_framed t e : Framed (H := H) (verified_write ADDR4_KEY t e).
Proof. apply verified_framed; own_key. Qed.
#[global] Instance addr6_framed t e : Framed (H := H) (verified_write ADDR6_KEY t e).
Proof. apply verified_framed; own_key. Qed.
#[global] Instance undo_framed t e : Framed (H := H) (verified_write PROVISION_UNDO_KEY t e).
Proof. apply verified_framed; own_key. Qed.
#[global] Instance clear_undo_framed t : Framed (H := H) (clear_record PROVISION_UNDO_KEY t).
Proof. apply clear_framed; own_key. Qed.

#[global] Instance parse_links_framed : Framed (H := H) parse_links.
Proof. unfold parse_links. frame. Qed.
#[global] Instance read_links_framed : Framed (H := H) read_links.
Proof. unfold read_links. frame. Qed.
#[global] Instance read_pairs_framed k : Framed (H := H) (read_pairs k).
Proof. unfold read_pairs. frame. Qed.
#[global] Instance survivor_pairs_framed : Framed (H := H) survivor_pairs.
Proof. unfold survivor_pairs. frame. Qed.
#[global] Instance read_ownership_framed : Framed (H := H) read_ownership.
Proof. unfold read_ownership. frame. Qed.
#[global] Instance record_ownership_framed i a4 a6 st r : Framed (H := H) (record_ownership i a4 a6 st r).
Proof. unfold record_ownership, write_record. frame. Qed.
#[global] Instance pending_framed : Framed (H := H) (pending_candidate json_pairs json_dumps).
Proof. unfold pending_candidate. frame. Qed.
#[global] Instance own_cover_framed : Framed (H := H) ownership_cover.
Proof. unfold ownership_cover. frame. Qed.
#[global] Instance superseded_framed i : Framed (H := H) (superseded_state i).
Proof. unfold superseded_state. frame. Qed.
#[global] Instance cover_framed i : Framed (H := H) (enforcement_cover json_pairs json_dumps i).
Proof. unfold enforcement_cover, parse_survivors. frame. Qed.
End records.

Section segment.
Context `{Kernel K}.
Context (json_pairs : string -> string + json) (json_dumps : json -> string) (s : settings) (running : bool).
Context (rand rand_fallback : list Z) (has_dnsmasq has_pd : bool).
Notation Framed := (Framed (H := backend K)).
Notation Walks := (Walks (H := backend K)).

#[global] Instance put_net_walks x : Walks (put_net x).
Proof. intros w. apply advance_within, put_net_only. Qed.
#[global] Instance put_backend_walks b : Walks (put_backend b).
Proof. intros w. apply advance_within, put_net_only. Qed.
#[global] Instance exec_framed argv : Framed (exec argv).
Proof. intros w. unfold exec. destruct (b_run _ _ _). apply put_backend_walks. Qed.
#[global] Instance serve_framed x : Framed (serve x).
Proof. intros w. unfold serve. destruct (b_service _ _). apply put_backend_walks. Qed.
#[global] Instance exec__framed argv : Framed (exec_ argv).
Proof. unfold exec_. frame. Qed.
#[global] Instance serve__framed x : Framed (serve_ x).
Proof. unfold serve_. frame. Qed.
#[global] Instance probe_link_framed i : Framed (probe_link i).
Proof. unfold probe_link. frame. Qed.
#[global] Instance probe_up_framed i : Framed (probe_iface_up i).
Proof. unfold probe_iface_up. frame. Qed.
#[global] Instance probe_addr_framed i a : Framed (probe_addr i a).
Proof. unfold probe_addr. frame. Qed.
#[global] Instance setting_framed k : Framed (setting k).
Proof. unfold setting. frame. Qed.
#[global] Instance plan_framed : Framed (plan_from_store s).
Proof. intros w. unfold plan_from_store, next_fault. apply aside_within. Qed.

#[global] Instance sysctls_walks : Walks (ensure_sysctls s).
Proof. unfold ensure_sysctls. frame. Qed.
#[global] Instance ensure_link_framed p : Framed (ensure_segment_link p).
Proof. unfold ensure_segment_link. frame. Qed.
#[global] Instance activate_framed p : Framed (activate_segment_link p).
Proof. unfold activate_segment_link. frame. Qed.
#[global] Instance forget_link_framed l o : Framed (forget_link l o).
Proof. unfold forget_link. frame. Qed.
#[global] Instance delete_link_framed l o : Framed (delete_owned_link l o).
Proof. unfold delete_owned_link. frame. Qed.
#[global] Instance retire_links_framed l : forall o, Framed (retire_links l o).
Proof. induction l as [|x l IH]; intros o; simpl; frame. Qed.
#[global] Instance superseded_links_framed p : Framed (retire_superseded_links p).
Proof. unfold retire_superseded_links. frame. Qed.
#[global] Instance clear_link_framed : Framed clear_managed_link.
Proof. unfold clear_managed_link. frame. Qed.
#[global] Instance retire_addr_framed i a : Framed (retire_owned_addr i a).
Proof. unfold retire_owned_addr. frame. Qed.
#[global] Instance retire_each_framed l : Framed (retire_each l).
Proof. induction l as [|[i a] l IH]; simpl; frame. Qed.
#[global] Instance install_framed i a v : Framed (install_addr i a v).
Proof. unfold install_addr. frame. Qed.
#[global] Instance installs_framed i a v : Framed (install_addrs i a v).
Proof. unfold install_addrs. frame. Qed.
#[global] Instance reconcile_framed p : Framed (reconcile_segment_addresses p).
Proof. unfold reconcile_segment_addresses, retire_owned. frame. Qed.
#[global] Instance clear_addresses_framed : Framed clear_managed_addresses.
Proof. unfold clear_managed_addresses, retire_owned. frame. Qed.
#[global] Instance nm_reload_walks : Walks nm_reload.
Proof. unfold nm_reload. frame. Qed.
#[global] Instance nm_unmanaged_walks i l : Walks (ensure_nm_unmanaged i l).
Proof. unfold ensure_nm_unmanaged. frame. Qed.
#[global] Instance remove_nm_walks : Walks remove_nm_unmanaged.
Proof. unfold remove_nm_unmanaged. frame. Qed.

#[global] Instance pd_prefix_framed t e : Framed (verified_write "pd_segment_prefix6" t e).
Proof. apply verified_framed; own_key. Qed.
#[global] Instance vlan_framed : Framed (vlan_of_segment s).
Proof. unfold vlan_of_segment. frame. Qed.
Lemma generated_inside k t what (w : world (backend K)) : k ∈ PREFIX_KEYS -> ~ settled k (w_now w) -> inside w (record_generated_prefix k t what w).2.
Proof.
  intros Hk Hn. assert (inside w (store_write k t w).2) as Hw by (apply write_within; [apply elem_of_app; by right|done]).
  unfold record_generated_prefix, write_record, verified_write. destruct (store_write k t w) as [[exc|] w1]; cbn [snd] in Hw.
  - by destruct (_ +:+ _).
  - pose proof (framed (f := read_record k) w1) as Hr. destruct (read_record k w1) as [back w2]. cbn [snd] in Hr.
    destruct (read_back _ _ _ _); cbn [snd]; by eapply inside_trans.
Qed.
Lemma setting_now k (w : world (backend K)) r w' : setting k w = (r, w') ->
  w_now w' = w_now w /\ forall v, r = inr v -> forall t, cell_at k (w_now w) = Some (Text t) -> v = Some t.
Proof.
  unfold setting, store_read, next_fault. intros [= <- <-]. split; [done|]. intros v. destruct (f_raise _); [done|].
  cbn [w_now]. intros Hv t Ht. rewrite Ht in Hv. by injection Hv as <-.
Qed.
Lemma vlan_now (w : world (backend K)) r w' : vlan_of_segment s w = (r, w') -> w_now w' = w_now w.
Proof.
  unfold vlan_of_segment. destruct (setting _ w) as [[e|v] w1] eqn:E; apply setting_now in E as [E _]; by intros [= _ <-].
Qed.
(** A prefix is generated only where there is none to use. *)
#[global] Instance ensure6_framed l : Framed (ensure_segment_prefix6 s l).
Proof.
  intros w. unfold ensure_segment_prefix6.
  pose proof (framed (f := setting "segment_ip6") w) as H1. destruct (setting "segment_ip6" w) as [[e|ip6] w1] eqn:E1; [done|].
  apply setting_now in E1 as [N1 V1]. cbn [snd] in H1.
  pose proof (framed (f := setting "ipv6_enabled") w1) as H2. destruct (setting "ipv6_enabled" w1) as [[e|on] w2] eqn:E2; [by eapply inside_trans|].
  apply setting_now in E2 as [N2 _]. cbn [snd] in H2. cbv zeta. case_bool_decide as Hc; cbn [negb orb]; [|by eapply inside_trans].
  destruct (negb _); [by eapply inside_trans|].
  pose proof (framed (f := vlan_of_segment s) w2) as H3. destruct (vlan_of_segment s w2) as [[e|vid] w3] eqn:E3;
    (apply vlan_now in E3; cbn [snd] in H3; refine (inside_trans _ _ _ H1 _); refine (inside_trans _ _ _ H2 _)); [done|].
  refine (inside_trans _ _ _ H3 _). apply generated_inside; [apply (bool_decide_unpack _); by vm_compute|]. rewrite E3, N2, N1. intros (t & Ht & [[_ Hu] | [? _]]); [|done].
  rewrite (V1 _ eq_refl _ Ht) in Hc. destruct t; [done|]. by apply Hu.
Qed.
#[global] Instance effective_framed l l' d : Framed (effective_segment_prefix6 s l l' d).
Proof.
  intros w. unfold effective_segment_prefix6.
  pose proof (framed (f := setting "ipv6_enabled") w) as H1. destruct (setting "ipv6_enabled" w) as [[e|on] w1]; [done|]. cbn [snd] in H1.
  destruct (negb _); [done|].
  pose proof (framed (f := setting "segment_ip6") w1) as H2. destruct (setting "segment_ip6" w1) as [[e|ip6] w2]; cbn [snd] in H2; [by eapply inside_trans|].
  cbv zeta. destruct (negb _); [refine (inside_trans _ _ _ H1 _); refine (inside_trans _ _ _ H2 _); apply ensure6_framed|].
  refine (inside_trans _ _ _ H1 _). refine (inside_trans _ _ _ H2 _). clear H1 H2.
  match goal with |- context [let '(r, w) := ?x in _] => set (y := x) end.
  assert (inside w2 y.2) as H3.
  { subst y. destruct d as [d|]; [apply inside_refl|]. pose proof (framed (f := read_record "pd_segment_prefix6") w2) as Hr. destruct (read_record _ w2). exact Hr. }
  destruct y as [[e|pre] w3]; cbn [snd] in H3; [done|]. destruct (host_addr6 _); [done|].
  pose proof (framed (f := setting "ula_prefix6") w3) as H4. destruct (setting "ula_prefix6" w3) as [[e|ula] w4] eqn:E4; cbn [snd] in H4; [by eapply inside_trans|].
  apply setting_now in E4 as [N4 V4]. destruct (host_addr6 (strip (ula or ""))) eqn:Eh; [by eapply inside_trans|].
  pose proof (framed (f := vlan_of_segment s) w4) as H5. destruct (vlan_of_segment s w4) as [[e|vid] w5] eqn:E5;
    (apply vlan_now in E5; cbn [snd] in H5; refine (inside_trans _ _ _ H3 _); refine (inside_trans _ _ _ H4 _)); [done|].
  refine (inside_trans _ _ _ H5 _). apply generated_inside; [apply (bool_decide_unpack _); by vm_compute|]. rewrite E5, N4. intros (t & Ht & [[? _] | [_ [a Ha]]]); [done|].
  rewrite (V4 _ eq_refl _ Ht) in Eh. enough (host_addr6 (strip t) = None) as E by congruence. by destruct t.
Qed.
#[global] Instance remember_framed l : Framed (remember_survivors l).
Proof. unfold remember_survivors. frame. Qed.
#[global] Instance forget_walks i : Walks (forget_survivors i).
Proof. unfold forget_survivors. frame. Qed.
#[global] Instance drain_each_framed l : forall m, Framed (drain_each l m).
Proof. induction l as [|[i a] l IH]; intros m; simpl; frame. Qed.
#[global] Instance drain_framed : Framed drain_enforcement_cover.
Proof. unfold drain_enforcement_cover. frame. Qed.

(** * Provisioning *)

#[global] Instance managed_state_framed : Framed read_managed_state.
Proof. unfold read_managed_state. frame. Qed.
#[global] Instance candidate_probe_framed i : Framed (candidate_link_probe i).
Proof. unfold candidate_link_probe. frame. Qed.
#[global] Instance projected_framed c : Framed (projected_manage_segment c).
Proof. unfold projected_manage_segment. frame. Qed.
#[global] Instance candidate_framed c : Framed (provision_candidate s c).
Proof. unfold provision_candidate. frame. Qed.
#[global] Instance record_candidate_framed r : Framed (record_provision_candidate json_dumps r).
Proof. unfold record_provision_candidate, write_record. frame. Qed.
#[global] Instance clear_candidate_framed : Framed (clear_provision_candidate json_dumps).
Proof. unfold clear_provision_candidate. frame. Qed.
#[global] Instance undo_link_framed c r : Framed (undo_candidate_link c r).
Proof. unfold undo_candidate_link. frame. Qed.
#[global] Instance undo_candidate_framed c i : Framed (undo_provision_candidate c i).
Proof. unfold undo_provision_candidate. frame. Qed.
#[global] Instance apply_enforcement_framed p : Framed (apply_enforcement json_pairs json_dumps running p).
Proof. intros w. unfold apply_enforcement. destruct (sync_net_plan _ _ _ _). apply put_net_walks. Qed.
#[global] Instance sync_here_framed : Framed (sync_net_here json_pairs json_dumps s running).
Proof.
  intros w. unfold sync_net_here. destruct (sync_net _ _ _ _). refine (inside_trans _ _ _ _ (put_net_walks _ _)). apply aside_within.
Qed.
#[global] Instance hand_back_framed : Framed (hand_back_from_emergency_deny json_pairs json_dumps s running).
Proof. unfold hand_back_from_emergency_deny. frame. Qed.
#[global] Instance set_result_framed r : Framed (set_result r).
Proof. intros w. apply aside_within. Qed.
#[global] Instance clear_pd_framed : Framed clear_pd_prefix.
Proof. unfold clear_pd_prefix, write_record. frame. Qed.
#[global] Instance manage_dnsmasq_framed : Framed manage_dnsmasq.
Proof. unfold manage_dnsmasq. frame. Qed.
#[global] Instance dnsmasq_framed p : Framed (step_dnsmasq has_dnsmasq p).
Proof. unfold step_dnsmasq. frame. Qed.
#[global] Instance is_auto_framed : Framed is_auto.
Proof. unfold is_auto. frame. Qed.
#[global] Instance step_pd_framed p : Framed (step_pd has_pd p).
Proof. unfold step_pd. frame. Qed.
#[global] Instance narrow_framed p b : Framed (step_narrow json_pairs json_dumps running p b).
Proof. unfold step_narrow. frame. Qed.
#[global] Instance move_framed p l : Framed (step_move json_pairs json_dumps running has_dnsmasq has_pd p l).
Proof. unfold step_move. frame. Qed.
#[global] Instance decline_framed r : Framed (decline r).
Proof. unfold decline. frame. Qed.
#[global] Instance pass_plan_framed : Framed (pass_plan s rand rand_fallback).
Proof. unfold pass_plan. frame. Qed.
#[global] Instance provision_segment_framed : Framed (provision_segment json_pairs json_dumps s running rand rand_fallback has_dnsmasq has_pd).
Proof. unfold provision_segment. frame. Qed.
#[global] Instance unmanage_framed : Framed (unmanage has_dnsmasq).
Proof. unfold unmanage. frame. Qed.
#[global] Instance stop_pd_walks : Walks stop_pd.
Proof. unfold stop_pd. frame. Qed.
#[global] Instance pass_framed : Framed (pass json_pairs json_dumps s running rand rand_fallback has_dnsmasq has_pd).
Proof. unfold pass. frame. Qed.
#[global] Instance host_provision_framed : Framed (host_provision json_pairs json_dumps s running rand rand_fallback has_dnsmasq has_pd).
Proof. unfold host_provision. frame. Qed.
End segment.
