(* ===== verification/Restore.v ===== *)
(** [restore_backup] of [controller.py] (lines 765-1118): a backup document replaces the
    configuration and the gateway is left disconnected and enforced.

    [site] is what a restore touches: the world of a provisioning pass (database, backend, the
    coming faults of the store), the directory of backups, the xray supervisor and the address
    the statistics client asks.  A restore is one critical section of [apply_lock].  Inside a
    transaction the store changes at once for this connection; on disk it changes at the commit,
    so the moments a crash can leave ([w_past]) hold the database the transaction began with, and
    an exception brings that database back.  BEGIN and COMMIT themselves are taken to succeed.

    A value of the settings that is not text is not exported into the snapshot. *)
From Stdlib Require Import ZArith Lia Ascii.
From stdpp Require Import base gmap strings list.
From S2P Require Import Prelude PyStr Models Json Config Supervisor Store Plan Enforcement Records Ledgers Host Segment Provision Linux NetSettings Backup BackupFiles.
Open Scope string_scope.
Open Scope list_scope.
Open Scope Z_scope.

(** [RestoreResult] *)
Record restore_result := RestoreResult {
  rr_ok : bool;
  rr_summary : option summary;
  rr_error : string;
  rr_snapshot : string
}.
Definition not_restored (snapshot error : string) : restore_result := RestoreResult false None error snapshot.

(** What reaches the caller as an exception: a refused document, a store that raises outside
    every handler. *)
Inductive restore_exn := Invalid (r : refusal) | StoreDown (exc : string).

Record site (K : Type) := Site {
  si_world : world (backend K);
  si_dir : dir;
  si_sup : state_t;
  si_stats : option string
}.
Arguments Site {K}.
Arguments si_world {K}.
Arguments si_dir {K}.
Arguments si_sup {K}.
Arguments si_stats {K}.

(** What the outside decides during one restore: the disk, how xray takes the stop, the clock,
    the random bytes of the two passes, and what closing the statistics channel raises. *)
Record outcomes := Outcomes {
  oc_disk : disk_answers;
  oc_stop : env;
  oc_now : Z;
  oc_rand : list Z * list Z;
  oc_rand_back : list Z * list Z;
  oc_stats : option string;
  oc_stats_back : option string
}.

Definition as_imported (v : option json) : string :=
  match v with
  | None | Some JNull => ""
  | Some (JBool b) => if b then "1" else "0"
  | Some v => Linux.py_str v
  end.
Definition projected (doc : document) (key fallback : string) : string :=
  Some (strip (as_imported (b_settings doc !! key))) or fallback.
Definition setting_default (key : string) : string :=
  default "" (snd <$> head (filter (fun kv : string * string => kv.1 = key) SETTINGS_DEFAULTS)).

Definition restore_candidate_data (s : settings) (doc : document) : net_change :=
  NetChange (Some (Some (FlagText (projected doc "manage_segment" (setting_default "manage_segment")))))
    (Some (projected doc "segment_iface" (c_segment_iface s)))
    (Some (projected doc "segment_ip" (c_segment_ip s)))
    (Some (projected doc "segment_ip6" (c_segment_ip6 s)))
    (Some (FlagText (projected doc "ipv6_enabled" (setting_default "ipv6_enabled")))).

(** [candidate.get("iface") or ""]; [None] is the empty candidate. *)
Definition candidate_iface (c : json) : json :=
  match jget "iface" c with None | Some JNull => JStr "" | Some v => v end.
Definition unarmed_candidate (c : option json) : option json :=
  match c with
  | None | Some (JObj []) => None
  | Some c => Some (JObj [("iface", candidate_iface c); ("addr4", JStr ""); ("addr6", JStr ""); ("vlan", JBool false);
                          ("link_state", JStr (state_name LinkUnknown)); ("armed", JBool false)])
  end.

(** [StatsClient.reconfigure]: closing the old channel may raise before the address moves. *)
Definition reconfigure (close : option string) (address current : string) : option string * string :=
  if bool_decide (address = current) then (None, current)
  else match close with Some e => (Some e, current) | None => (None, address) end.

(** What the error of a failed restore says of its recovery. *)
Definition recovery_suffix (l : list string) : string := if bool_decide (l = []) then "" else "; recovery: " +:+ join "; " l.

(** * Transactions *)

Definition uncommitted {H} (m0 m : moment H) : moment H := Moment (m_db m0) (m_odd m0) (m_net m).
(** [with store.transaction()]; the body also gives what outlives an exception. *)
Definition transaction {H A B} (body : world H -> (string + A) * B * world H) (w : world H) : (string + A) * B * world H :=
  let m0 := w_now w in
  let '(r, b, w') := body (World m0 (w_faults w) (w_result w) []) in
  let past := (uncommitted m0 <$> w_now w' :: w_past w') ++ w_past w in
  match r with
  | inr a => (inr a, b, World (w_now w') (w_faults w') (w_result w') past)
  | inl e => (inl e, b, World (uncommitted m0 (w_now w')) (w_faults w') (w_result w') past)
  end.

Section restore.
Context `{Kernel K}.
Context (json_loads : string -> option json) (json_compact : json -> string) (show : refusal -> string) (exn_text : exn -> string).
Context (json_pairs : string -> string + json) (json_dumps : json -> string).
(** What a cell that is not text holds. *)
Context (odd_value : string -> json).
Context (s : settings) (has_dnsmasq has_pd : bool).
Notation world := (world (backend K)).
Implicit Types (w : world) (x : site K).

(** * Store calls *)

Definition put (k v : string) w : (string + unit) * world :=
  let '(e, w) := store_write k v w in (match e with Some t => inl t | None => inr tt end, w).
Definition forget_active w : (string + unit) * world :=
  let! _, w := put "active_node_id" "" w in
  let! _, w := put "prev_active_node_id" "" w in
  let! _, w := put "pending_active_node_id" "" w in
  put "active_since" "" w.

(** [import_state] is one store call: the rows of the settings it deletes or writes are text. *)
Definition import_here (doc : document) (now : Z) w : (string + summary) * world :=
  let '(f, w) := next_fault w in
  match f_raise f with
  | Some e => (inl e, w)
  | None =>
      match import_state doc now (m_db (w_now w)) with
      | (inl e, _) => (inl (exn_text e), w)
      | (inr sm, d) =>
          let odd := filter (fun kv => kv.1 ∉ SETTINGS_KEYS /\ d_settings d !! kv.1 = None) (m_odd (w_now w)) in
          (inr sm, advance (Moment d odd (m_net (w_now w))) w)
      end
  end.

Definition cell_json (c : option cell) : json :=
  match c with None => JStr "" | Some (Text t) => JStr t | Some (Odd r) => odd_value r end.
(** [provision.managed_host_state] *)
Definition managed_host_state w : (string + handed) * world :=
  let! c1, w := store_read IFACE_KEY w in
  let! c2, w := store_read ADDR4_KEY w in
  let! c3, w := store_read ADDR6_KEY w in
  (inr (HandedRecord (JObj [("iface", cell_json c1); ("addr4", cell_json c2); ("addr6", cell_json c3)])), w).

(** * Enforcement, with xray stopped *)

(** The cover is read from the store when a plan is rendered. *)
Definition cover_read w : world :=
  let d := m_db (w_now w) in
  if kill_switch_on d then
    World (w_now w) (w_faults (enforcement_cover json_pairs json_dumps (np_segment_iface (from_store d s)) w).2) (w_result w) (w_past w)
  else w.
Definition stop_net_here w : net_result * world :=
  let '(r, n) := @stop_net _ (backend_host json_pairs json_dumps (m_odd (w_now w)) (w_faults w)) s (m_db (w_now w)) (m_net (w_now w)) in
  (r, put_net n (cover_read w)).
(** [_disconnected_guard_plan]; [None]: a disconnect is a teardown. *)
Definition guard_plan_here w : (string + option plan) * world :=
  (match @disconnected_guard_plan _ (backend_host json_pairs json_dumps (m_odd (w_now w)) (w_faults w)) s (m_db (w_now w)) with
   | None => inr None
   | Some (RenderPlan p) => inr (Some p)
   | Some (RenderRefused why) => inl why
   | Some (RenderRaised exc) => inl exc
   end, cover_read w).
(** The retained plan, verbatim. *)
Definition guard_here (p : option plan) w : net_result * world :=
  match p with
  | None => stop_net_here w
  | Some p =>
      let '(r, n) := @sync_net_plan _ (backend_host json_pairs json_dumps (m_odd (w_now w)) (w_faults w))
                       false p (m_db (w_now w)) (m_net (w_now w)) in
      (r, put_net n w)
  end.

(** * Before anything is stopped *)

Definition truthy_candidate (c : option json) : bool := match c with None | Some (JObj []) => false | Some _ => true end.
(** [_settle_preflight_candidate], called when there is a record to settle; what it reports is logged. *)
Definition settle (c : option json) w : world :=
  if truthy_candidate c then (clear_provision_candidate json_dumps w).2 else w.

(** The candidate, its unarmed record, the guard to be installed. *)
Definition prepare (doc : document) w : (string + (option json * option json * option plan)) * world :=
  match provision_candidate s (restore_candidate_data s doc) w with
  | (inl exc, w) => (inl ("could not establish what the restore would put on the host, so nothing was applied: " +:+ exc), w)
  | (inr candidate, w) =>
      let preflight := unarmed_candidate candidate in
      match record_provision_candidate json_dumps preflight w with
      | (inl exc, w) => (inl ("could not record what the restore is about to put on the host, so nothing was applied: " +:+ exc), w)
      | (inr _, w) =>
          match guard_plan_here w with
          | (inl exc, w) => (inl ("could not enforce disconnected state, so the gateway was left as it was: " +:+ exc), settle preflight w)
          | (inr p, w) => (inr (candidate, preflight, p), w)
          end
      end
  end.

(** * Disconnecting *)

(** Xray stopped, the guard installed, the record armed. *)
Definition disconnect (o : outcomes) (candidate preflight : option json) (p : option plan) (u : state_t) w
    : (string + unit) * state_t * world :=
  let '(_, u) := stop (oc_stop o) u in
  let '(st, u) := status u in
  if st_running st then (inl "xray did not stop before restore", u, settle preflight w)
  else
    let '(g, w) := guard_here p w in
    if negb (nr_ok g) then (inl ("could not enforce disconnected state: " +:+ nr_error g), u, settle preflight w)
    else
      match record_provision_candidate json_dumps candidate w with
      | (inl exc, w) =>
          (inl ("could not arm the record of what the restore is about to put on the host, so no host provisioning was started: " +:+ exc),
           u, settle preflight w)
      | (inr _, w) => (inr tt, u, w)
      end.

(** * The import and the host pass *)

Definition NOTHING_INSTALLED : handed := HandedRecord (JObj []).
Definition bad_int (t : string) : string := "invalid literal for int() with base 10: " +:+ repr t.
Definition stats_port (t : option string) : string + Z :=
  let t := t or setting_default "stats_api_port" in
  match py_int t with Some p => inr p | None => inl (bad_int t) end.
Definition move_stats (o : outcomes) (address : option string) w : (string + unit) * option string * world :=
  match address with
  | None => (inr tt, None, w)
  | Some a =>
      match setting "stats_api_port" w with
      | (inl e, w) => (inl e, Some a, w)
      | (inr t, w) =>
          match stats_port t with
          | inl e => (inl e, Some a, w)
          | inr p => let '(e, a) := reconfigure (oc_stats o) ("127.0.0.1:" +:+ str_int p) a in
                     (match e with Some e => inl e | None => inr tt end, Some a, w)
          end
      end
  end.
Definition host_pass (r : list Z * list Z) w : net_result * world :=
  host_provision json_pairs json_dumps s false r.1 r.2 has_dnsmasq has_pd w.

(** The body of the transaction, with what was installed and where the statistics go. *)
Definition restore_body (doc : document) (o : outcomes) (address : option string) w
    : (string + summary) * (handed * option string) * world :=
  match (let! sm, w := import_here doc (oc_now o) w in let! _, w := forget_active w in (inr sm, w)) with
  | (inl e, w) => (inl e, (NOTHING_INSTALLED, address), w)
  | (inr sm, w) =>
      let '(provisioned, w) := host_pass (oc_rand o) w in
      match managed_host_state w with
      | (inl e, w) => (inl e, (NOTHING_INSTALLED, address), w)
      | (inr installed, w) =>
          if negb (nr_ok provisioned) then
            (inl (Some (nr_error provisioned) or "restored host provisioning failed"), (installed, address), w)
          else
            let '(g, w) := stop_net_here w in
            if negb (nr_ok g) then
              (inl ("restored fail-closed state failed: " +:+ (Some (nr_error g) or "network backend reported failure")), (installed, address), w)
            else
              match move_stats o address w with
              | (inl e, address, w) => (inl e, (installed, address), w)
              | (inr _, address, w) => (inr sm, (installed, address), w)
              end
      end
  end.

(** The body of the handler: the rows are rolled back; the previous host and guard are
    re-asserted, and what the candidate pass left is named or removed. *)
Definition recover_stats (o : outcomes) (previous current : option string) : list string * option string :=
  match previous, current with
  | Some p, Some a =>
      if bool_decide (p = "") then ([], current)
      else let '(e, a) := reconfigure (oc_stats_back o) p a in
           (match e with Some e => ["stats client restore raised: " +:+ e] | None => [] end, Some a)
  | _, _ => ([], current)
  end.
Definition undo_restore (candidate : option json) (installed : handed) w : list string * world :=
  let '(undone, w) := undo_provision_candidate (HandedRecord (default (JObj []) candidate)) installed w in
  (un_actions undone,
   if truthy_candidate candidate && bool_decide (un_unresolved undone = []) then (clear_provision_candidate json_dumps w).2 else w).
Definition roll_back (o : outcomes) (candidate : option json) (installed : handed) (previous current : option string) w
    : (string + list string) * option string * world :=
  match transaction (fun w => let '(r, w) := forget_active w in (r, tt, w)) w with
  | (inl e, _, w) => (inl e, current, w)
  | (inr _, _, w) =>
      let '(host, w) := host_pass (oc_rand_back o) w in
      let l1 := if nr_ok host then [] else [Some (nr_error host) or "previous host restore failed"] in
      let '(l2, w) := undo_restore candidate installed w in
      let '(g, w) := stop_net_here w in
      let l3 := if nr_ok g then [] else [Some (nr_error g) or "previous guard restore failed"] in
      let '(l4, current) := recover_stats o previous current in
      (inr (l1 ++ l2 ++ l3 ++ l4), current, w)
  end.

(** From the point of no return. *)
Definition replace (doc : document) (o : outcomes) (candidate : option json) (snapshot : string) x
    : (restore_exn + restore_result) * site K :=
  match transaction (restore_body doc o (si_stats x)) (si_world x) with
  | (inr sm, (_, address), w) =>
      let w := if truthy_candidate candidate then (clear_provision_candidate json_dumps w).2 else w in
      (inr (RestoreResult true (Some sm) "" snapshot), Site w (si_dir x) (si_sup x) address)
  | (inl exc, (installed, address), w) =>
      match roll_back o candidate installed (si_stats x) address w with
      | (inl e, address, w) => (inl (StoreDown e), Site w (si_dir x) (si_sup x) address)
      | (inr recovery, address, w) =>
          (inr (not_restored snapshot ("restore apply failed: " +:+ exc +:+ recovery_suffix recovery)), Site w (si_dir x) (si_sup x) address)
      end
  end.

Definition restore_backup (document : document) (o : outcomes) x : (restore_exn + restore_result) * site K :=
  match validate_document json_loads json_compact false document (Some s) None with
  | inl r => (inl (Invalid r), x)
  | inr doc =>
      let '(f, w) := next_fault (si_world x) in
      match f_raise f with
      | Some e => (inl (StoreDown e), Site w (si_dir x) (si_sup x) (si_stats x))
      | None =>
          let '(taken, files) := write_pre_restore_snapshot json_loads json_compact show (oc_disk o) (m_db (w_now w)) (si_dir x) in
          match taken with
          | inl exc => (inr (not_restored "" ("could not snapshot the current state: " +:+ exc)), Site w files (si_sup x) (si_stats x))
          | inr snapshot =>
              match prepare doc w with
              | (inl why, w) => (inr (not_restored snapshot why), Site w files (si_sup x) (si_stats x))
              | (inr (candidate, preflight, p), w) =>
                  match disconnect o candidate preflight p (si_sup x) w with
                  | (inl why, u, w) => (inr (not_restored snapshot why), Site w files u (si_stats x))
                  | (inr _, u, w) => replace doc o candidate snapshot (Site w files u (si_stats x))
                  end
              end
          end
      end
  end.
End restore.
