(* ===== verification/RestoreProps.v ===== *)
(** What a restore guarantees: it is all or nothing at every moment, it stops the tunnel only when
    nothing is left that can refuse, a successful one leaves the gateway disconnected and
    enforced, and the record written before the stop licenses no removal. *)
From Stdlib Require Import ZArith Lia Ascii.
From stdpp Require Import base gmap strings list.
From S2P Require Import Prelude PyStr Models Json Store StoreFacts Supervisor Config Plan Enforcement Records RecordsFacts Ledgers Host Segment SegmentFacts Machine Provision ProvisionFacts NetSettings Backup BackupProps BackupFiles ProvisionFrame Restore.
Open Scope string_scope.
Open Scope list_scope.
Open Scope Z_scope.

(** * Lemmas *)

(** What the phases of a restore write: before the transaction the candidate record only, inside
    it the document's tables, and nothing a crash can see before the commit. *)

Definition ACTIVE_KEYS : list string := ["active_node_id"; "prev_active_node_id"; "pending_active_node_id"; "active_since"].
Definition RESTORE_KEYS : list string := PROVISION_KEYS ++ ACTIVE_KEYS.
Notation safe := (stays RESTORE_KEYS).
Notation noted := (stays [PROVISION_UNDO_KEY]).

Lemma provision_restore : PROVISION_KEYS ⊆ RESTORE_KEYS.
Proof. apply (bool_decide_unpack _). by vm_compute. Qed.
Lemma undo_restore_key : [PROVISION_UNDO_KEY] ⊆ RESTORE_KEYS.
Proof. apply (bool_decide_unpack _). by vm_compute. Qed.
(** Of the settings a document carries, a restore may write on its own only the two prefixes. *)
Lemma restorable k : k ∈ SETTINGS_KEYS -> k ∈ RESTORE_KEYS -> k ∈ PREFIX_KEYS.
Proof.
  revert k. refine (proj1 (Forall_forall (fun k => k ∈ RESTORE_KEYS -> k ∈ PREFIX_KEYS) _) _).
  apply (bool_decide_unpack _). by vm_compute.
Qed.
Lemma undo_no_prefix : PROVISION_UNDO_KEY ∉ PREFIX_KEYS.
Proof. apply (bool_decide_unpack _). by vm_compute. Qed.
Lemma active_no_prefix k : k ∈ ACTIVE_KEYS -> k ∉ PREFIX_KEYS.
Proof.
  revert k. refine (proj1 (Forall_forall (fun k => k ∉ PREFIX_KEYS) _) _). apply (bool_decide_unpack _). by vm_compute.
Qed.
Lemma inside_safe {H} (w w' : world H) : inside w w' -> safe w w'.
Proof. apply stays_mono, provision_restore. Qed.
Lemma noted_safe {H} (w w' : world H) : noted w w' -> safe w w'.
Proof. apply stays_mono, undo_restore_key. Qed.

(** * The candidate record *)

Section records.
Context {H : Type}.
Implicit Types (w : world H).

Lemma write_net k t w : m_net (w_now (store_write k t w).2) = m_net (w_now w).
Proof. unfold store_write, next_fault. destruct (f_effect _); cbn; by rewrite ?put_cell_net. Qed.
Lemma verified_within ks k t e w : k ∈ ks -> k ∉ PREFIX_KEYS ->
  stays ks w (verified_write k t e w).2 /\ m_net (w_now (verified_write k t e w).2) = m_net (w_now w).
Proof.
  intros Hk Hp. unfold verified_write. pose proof (write_within ks k t w Hk ltac:(by intros ?%settled_key)) as Hs. pose proof (write_net k t w) as Hn.
  destruct (store_write k t w) as [[exc|] w1]; cbn [snd] in *; [done|]. unfold read_record, store_read, next_fault. cbn.
  split; [etrans; [exact Hs|apply aside_within]|done].
Qed.
End records.

Section candidate.
Context `{Kernel K}.
Implicit Types (w : world (backend K)).

Lemma record_within json_dumps rec w :
  noted w (record_provision_candidate json_dumps rec w).2 /\ m_net (w_now (record_provision_candidate json_dumps rec w).2) = m_net (w_now w).
Proof.
  assert (noted w w /\ m_net (w_now w) = m_net (w_now w)) as Hw by done.
  unfold record_provision_candidate, write_record. destruct rec as [[| | | | |[|kv kvs]]|]; try done; (destruct (checked_candidate _); [done|]);
  match goal with |- context [verified_write ?k ?t ?e w] =>
    pose proof (verified_within [PROVISION_UNDO_KEY] k t e w ltac:(by left) undo_no_prefix) as Hv; destruct (verified_write k t e w) as [[] ?]; done end.
Qed.
Lemma clear_within json_dumps w :
  noted w (clear_provision_candidate json_dumps w).2 /\ m_net (w_now (clear_provision_candidate json_dumps w).2) = m_net (w_now w).
Proof.
  assert (PROVISION_UNDO_KEY ∈ [PROVISION_UNDO_KEY]) as Hk by by left.
  pose proof undo_no_prefix as Hu. unfold clear_provision_candidate, clear_record. case_bool_decide; [by apply verified_within|]. unfold write_record.
  match goal with |- context [verified_write ?k ?t ?e w] =>
    pose proof (verified_within [PROVISION_UNDO_KEY] k t e w Hk Hu) as [Hv Hn]; destruct (verified_write k t e w) as [[] w1]; [|done] end.
  cbn [snd] in *. unfold blank. split; [etrans; [exact Hv|apply write_within; [done|by intros ?%settled_key]]|].
  by rewrite <- Hn, write_net.
Qed.
End candidate.

(** * Phases *)

Section phases.
Context `{Kernel K}.
Context (json_loads : string -> option json) (json_compact : json -> string) (show : refusal -> string) (exn_text : exn -> string).
Context (json_pairs : string -> string + json) (json_dumps : json -> string) (odd_value : string -> json).
Context (s : settings) (has_dnsmasq has_pd : bool).
Implicit Types (w : world (backend K)) (x : site K).

Notation stop_net_here := (stop_net_here json_pairs json_dumps s).
Notation guard_here := (guard_here json_pairs json_dumps s).
Notation prepare := (prepare json_pairs json_dumps s).
Notation disconnect := (disconnect json_pairs json_dumps s).
Notation host_pass := (host_pass json_pairs json_dumps s has_dnsmasq has_pd).

Lemma cover_read_aside ks w : stays ks w (cover_read json_pairs json_dumps s w) /\ w_now (cover_read json_pairs json_dumps s w) = w_now w.
Proof. unfold cover_read. destruct (kill_switch_on _); split; try done; apply aside_within. Qed.
Lemma put_net_within ks n w : stays ks w (put_net n w).
Proof. apply advance_within, put_net_only. Qed.
Lemma stop_net_within ks w : stays ks w (stop_net_here w).2.
Proof.
  unfold Restore.stop_net_here. destruct (stop_net _ _ _). cbn [snd]. etrans; [apply cover_read_aside|]. eapply put_net_within.
Qed.
Lemma guard_within ks p w : stays ks w (guard_here p w).2.
Proof. unfold Restore.guard_here. destruct p; [|apply stop_net_within]. destruct (sync_net_plan _ _ _ _). apply put_net_within. Qed.
Lemma settle_within c w : noted w (settle json_dumps c w) /\ m_net (w_now (settle json_dumps c w)) = m_net (w_now w).
Proof. unfold settle. destruct (truthy_candidate c); [apply clear_within|done]. Qed.

(** A probe of the candidate link at most. *)
Definition probed (n n' : net (backend K)) : Prop :=
  n' = n \/ exists iface, n' = set_host (b_run (show_link iface) None (n_host n)).2 n.
Definition read_only w w' : Prop := stays [] w w' /\ probed (m_net (w_now w)) (m_net (w_now w')).

Lemma setting_aside k w : stays [] w (setting k w).2 /\ w_now (setting k w).2 = w_now w.
Proof. unfold setting, store_read, next_fault. cbn. split; [apply aside_within|done]. Qed.
Lemma plan_aside w : stays [] w (plan_from_store s w).2 /\ w_now (plan_from_store s w).2 = w_now w.
Proof. unfold plan_from_store, next_fault. cbn. split; [apply aside_within|done]. Qed.
Lemma candidate_probes c w : read_only w (provision_candidate s c w).2.
Proof.
  assert (forall w', stays [] w w' /\ w_now w' = w_now w -> read_only w w') as Hquiet.
  { intros w' [Hs Hn]. split; [done|left; by rewrite Hn]. }
  unfold provision_candidate. destruct (b_seam _) eqn:Eb; cbn [negb]; [|by apply Hquiet].
  assert (stays [] w (projected_manage_segment c w).2 /\ w_now (projected_manage_segment c w).2 = w_now w) as Hp.
  { unfold projected_manage_segment. destruct (ch_manage c) as [raw|]; [done|].
    pose proof (setting_aside "manage_segment" w). destruct (setting _ w) as [[] ?]; done. }
  destruct (projected_manage_segment c w) as [[e|[]] w1]; cbn [snd negb] in *; [by apply Hquiet| |by apply Hquiet]. destruct Hp as [Hp1 Hp2].
  pose proof (plan_aside w1) as [Hq1 Hq2]. destruct (plan_from_store s w1) as [[e|p] w2]; cbn [snd] in Hq1, Hq2.
  { apply Hquiet. split; [by etrans|]. cbn. congruence. }
  unfold candidate_link_probe, the_backend. assert (w_now w2 = w_now w) as Hn by congruence. rewrite Hn. fold (the_backend w). rewrite Eb. cbn [negb].
  assert (stays [] w w2) as Hs by by etrans.
  case_bool_decide; cbn [snd]; [by apply Hquiet|].
  unfold probe_link, exec, the_backend. rewrite Hn. destruct (b_run _ _ _) as [r b] eqn:Er. destruct (link_answer r). cbn [snd].
  unfold put_backend. split; [etrans; [exact Hs|apply put_net_within]|]. right. exists (ch_iface c or np_segment_iface p).
  cbn. rewrite Hn, Er. done.
Qed.

(** Nothing before the stop does more than read the host and write the record. *)
Lemma prepare_free doc w r w' : prepare doc w = (r, w') -> noted w w' /\ probed (m_net (w_now w)) (m_net (w_now w')).
Proof.
  unfold Restore.prepare. pose proof (candidate_probes (restore_candidate_data s doc) w) as [Hc1 Hc2].
  apply (stays_mono [] [PROVISION_UNDO_KEY]) in Hc1; [|set_solver].
  destruct (provision_candidate _ _ w) as [[e|c] w1]; cbn [snd] in *; [by intros [= <- <-]|].
  pose proof (record_within json_dumps (unarmed_candidate c) w1) as [Hr1 Hr2].
  destruct (record_provision_candidate _ _ w1) as [[e|[]] w2]; cbn [snd] in *; [intros [= <- <-]; rewrite Hr2; by split; [etrans|]|].
  unfold guard_plan_here. pose proof (cover_read_aside [PROVISION_UNDO_KEY] w2) as [Hg1 Hg2].
  set (w3 := cover_read _ _ _ w2) in *. clearbody w3.
  assert (noted w w3 /\ probed (m_net (w_now w)) (m_net (w_now w3))) as Hw3.
  { rewrite Hg2, Hr2. split; [|done]. etrans; [exact Hc1|]. by etrans. }
  assert (forall e, noted w (settle json_dumps e w3) /\ probed (m_net (w_now w)) (m_net (w_now (settle json_dumps e w3)))) as Hset.
  { intros e. pose proof (settle_within e w3) as [Hs1 Hs2]. rewrite Hs2. split; [|apply Hw3]. etrans; [apply Hw3|done]. }
  destruct (disconnected_guard_plan _ _) as [[]|]; intros [= <- <-]; done.
Qed.

Lemma status_running u : st_running (status u).1 = running u /\ running (status u).2 = running u.
Proof.
  unfold status. cbn [fst snd st_running]. split; [done|]. unfold running. cbn [fst snd].
  destruct (proc u.1) as [pid|] eqn:Ep; [|by rewrite Ep]. destruct (poll u.2 pid) eqn:El; unfold set_exit; cbn [proc]; by rewrite Ep, El.
Qed.
Lemma disconnect_notes o c c' p u w r u' w' : disconnect o c c' p u w = (r, u', w') ->
  noted w w' /\ (r = inr tt -> running u' = false).
Proof.
  unfold Restore.disconnect. destruct (stop _ _) as [b u1]. pose proof (status_running u1) as [Hs1 Hs2].
  destruct (status u1) as [st u2]. cbn [fst snd] in *. rewrite Hs1. destruct (running u1) eqn:Er.
  { intros [= <- <- <-]. split; [apply settle_within|done]. }
  pose proof (guard_within [PROVISION_UNDO_KEY] p w) as Hg. destruct (guard_here p w) as [g w1]. cbn [snd] in Hg.
  destruct (nr_ok g); cbn [negb]; [|intros [= <- <- <-]; split; [etrans; [exact Hg|apply settle_within]|done]].
  pose proof (record_within json_dumps c w1) as [Hr1 _]. destruct (record_provision_candidate _ _ w1) as [[e|[]] w2]; cbn [snd] in Hr1;
    intros [= <- <- <-]; (split; [|done]); (etrans; [exact Hg|]); [|exact Hr1]. etrans; [exact Hr1|apply settle_within].
Qed.

(** * The transaction *)

Lemma transaction_spec {A B} (body : world (backend K) -> (string + A) * B * world (backend K)) w r b w' :
  transaction body w = (r, b, w') -> exists w1 new,
  body (World (w_now w) (w_faults w) (w_result w) []) = (r, b, w1) /\
  w_past w' = new ++ w_past w /\ (forall ks, Forall (writes_only ks (w_now w)) new) /\
  match r with inr _ => w_now w' = w_now w1 | inl _ => forall ks, writes_only ks (w_now w) (w_now w') end.
Proof.
  unfold transaction. destruct (body _) as [[r1 b1] w1]. intros Ht.
  assert (exists new, w_past w' = new ++ w_past w /\ forall ks, Forall (writes_only ks (w_now w)) new) as (new & Hp & Hf).
  { exists (uncommitted (w_now w) <$> w_now w1 :: w_past w1). split; [by destruct r1; injection Ht as <- <- <-|].
    intros ks. apply Forall_fmap, Forall_true. intros m. apply put_net_only. }
  exists w1, new. destruct r1; injection Ht as <- <- <-; split_and!; try done.
Qed.

Lemma put_safe k v w : k ∈ ACTIVE_KEYS -> safe w (put k v w).2.
Proof.
  intros Hk. unfold put. assert (safe w (store_write k v w).2) as Hs.
  { apply write_within; [apply elem_of_app; by right|]. intros ?%settled_key. by eapply active_no_prefix. }
  by destruct (store_write k v w) as [[] w1].
Qed.
Ltac active_key := apply (bool_decide_unpack _); by vm_compute.
Lemma forget_active_safe w : safe w (forget_active w).2.
Proof.
  unfold forget_active.
  pose proof (put_safe "active_node_id" "" w ltac:(active_key)) as H1. destruct (put _ _ w) as [[e|[]] w1]; [done|]. cbn [snd] in H1.
  pose proof (put_safe "prev_active_node_id" "" w1 ltac:(active_key)) as H2. destruct (put _ _ w1) as [[e|[]] w2]; cbn [snd] in H2; [by etrans|].
  pose proof (put_safe "pending_active_node_id" "" w2 ltac:(active_key)) as H3. destruct (put _ _ w2) as [[e|[]] w3]; cbn [snd] in H3; [cbn; etrans; [done|by etrans]|].
  etrans; [exact H1|]. etrans; [exact H2|]. etrans; [exact H3|]. apply put_safe. active_key.
Qed.
Lemma host_pass_safe r w : safe w (host_pass r w).2.
Proof. apply inside_safe. unfold Restore.host_pass. apply host_provision_framed. Qed.
Lemma managed_host_aside ks w : stays ks w (managed_host_state odd_value w).2.
Proof.
  unfold managed_host_state, store_read, next_fault. cbn. repeat (case_match; cbn; try done); apply aside_within.
Qed.

Lemma enforcement_ok {H'} `{NetHost H'} r wan (n : net H') :
  nr_ok (record_enforcement r wan n).1 = true -> n_status (record_enforcement r wan n).2 = "ok".
Proof. pose proof (record_snapshot r wan n) as Hr. destruct (record_enforcement r wan n). apply Hr. Qed.
Lemma stop_here_ok w : nr_ok (stop_net_here w).1 = true -> n_status (m_net (w_now (stop_net_here w).2)) = "ok".
Proof.
  unfold Restore.stop_net_here. set (h := backend_host _ _ _ _). set (d := m_db _). set (n := m_net _).
  assert (nr_ok (stop_net s d n).1 = true -> n_status (stop_net s d n).2 = "ok") as Hok.
  { unfold stop_net, call_net, refuse_enforcement.
    repeat (case_match; simplify_eq; try apply enforcement_ok); destruct (perform _ _); apply enforcement_ok. }
  destruct (stop_net s d n). exact Hok.
Qed.

(** The configuration a moment holds is that of [d]: every table, every setting but the panel's
    own records and marks, and the two IPv6 prefixes too, unless [d] has none to use and so one is
    generated. *)
Definition holds (d : db) (m : moment (backend K)) : Prop :=
  tables (m_db m) = tables d /\ (forall k, k ∉ RESTORE_KEYS -> get_setting k (m_db m) = get_setting k d) /\
  (forall k t, get_setting k d = Some t -> usable_prefix k t -> cell_at k m = Some (Text t)).
(** The two prefixes are stored as text. *)
Definition text_prefixes (m : moment (backend K)) : Prop := forall k, k ∈ PREFIX_KEYS -> m_odd m !! k = None.

Lemma holds_after d m m' : holds d m -> writes_only RESTORE_KEYS m m' -> holds d m'.
Proof.
  intros (T & K1 & P1) [T' K2]. split; [congruence|]. split.
  - intros k Hk. destruct (K2 k (or_introl Hk)). rewrite <- (K1 k Hk). done.
  - intros k t Ht Hu. pose proof (P1 k t Ht Hu) as Hc. destruct (K2 k) as [-> _]; [right; by exists t|done].
Qed.
Lemma text_cell (m : moment (backend K)) k t : m_odd m !! k = None -> get_setting k (m_db m) = Some t -> cell_at k m = Some (Text t).
Proof. intros Ho Hg. unfold cell_at. by rewrite Ho, Hg. Qed.
Lemma text_prefixes_after m m' : writes_only [PROVISION_UNDO_KEY] m m' -> text_prefixes m -> text_prefixes m'.
Proof.
  intros [_ Hk] Ho k Hp. destruct (Hk k) as [Hc _]; [left; intros ->%list_elem_of_singleton; by apply undo_no_prefix|].
  unfold cell_at in Hc. rewrite (Ho k Hp) in Hc. destruct (m_odd m' !! k); [|done]. by destruct (get_setting k (m_db m)).
Qed.
Lemma holds_now m : text_prefixes m -> holds (m_db m) m.
Proof. intros Ho. split_and!; [done|done|]. intros k t Hg Hu. apply text_cell; [apply Ho; by eapply usable_prefix_key|done]. Qed.

Lemma move_stats_aside ks o a w : stays ks w (move_stats o a w).2 /\ w_now (move_stats o a w).2 = w_now w.
Proof.
  unfold move_stats. destruct a as [a|]; [|done]. pose proof (setting_aside "stats_api_port" w) as [H1 H2].
  apply (stays_mono [] ks) in H1; [|set_solver]. destruct (setting _ w) as [[e|t] w1]; [done|].
  destruct (stats_port t); [done|]. by destruct (reconfigure _ _ _).
Qed.
Lemma import_here_inr doc now w sm w' : import_here exn_text doc now w = (inr sm, w') ->
  exists d, import_state doc now (m_db (w_now w)) = (inr sm, d) /\ m_db (w_now w') = d /\ text_prefixes (w_now w').
Proof.
  unfold import_here, next_fault. cbn. destruct (f_raise _); [done|]. destruct (import_state _ _ _) as [[e|sm'] d]; [done|].
  intros [= <- <-]. exists d. split_and!; [done..|]. intros k Hk. apply map_lookup_filter_None. right. intros c _ [Hn _].
  apply Hn. clear Hn. revert k Hk. refine (proj1 (Forall_forall (fun k => k ∈ SETTINGS_KEYS) _) _). apply (bool_decide_unpack _). by vm_compute.
Qed.

Notation restore_body := (restore_body exn_text json_pairs json_dumps odd_value s has_dnsmasq has_pd).
Lemma body_done doc o a w sm b w' : restore_body doc o a w = (inr sm, b, w') ->
  exists d, import_state doc (oc_now o) (m_db (w_now w)) = (inr sm, d) /\ holds d (w_now w') /\ n_status (m_net (w_now w')) = "ok".
Proof.
  unfold Restore.restore_body. destruct (import_here _ _ _ w) as [[e|sm'] w1] eqn:Ei; [by intros [= ]|].
  apply import_here_inr in Ei as (d & Hi & Hd & Ho).
  pose proof (forget_active_safe w1) as [Hf _]. destruct (forget_active w1) as [[e|u] w2]; [by intros [= ]|]. cbn [snd] in Hf.
  pose proof (host_pass_safe (oc_rand o) w2) as [Hp _]. destruct (host_pass _ w2) as [r w3]. cbn [snd] in Hp.
  pose proof (managed_host_aside RESTORE_KEYS w3) as [Hm _]. destruct (managed_host_state _ w3) as [[e|i] w4]; [by intros [= ]|]. cbn [snd] in Hm.
  destruct (nr_ok r); cbn [negb]; [|by intros [= ]].
  pose proof (stop_net_within RESTORE_KEYS w4) as [Hs _]. pose proof (stop_here_ok w4) as Hok.
  destruct (stop_net_here w4) as [g w5]. cbn [fst snd] in *. destruct (nr_ok g); cbn [negb]; [|by intros [= ]]. specialize (Hok eq_refl).
  pose proof (move_stats_aside RESTORE_KEYS o a w5) as [_ Hn]. destruct (move_stats o a w5) as [[[e|t] a'] w6]; [by intros [= ]|]. cbn [snd] in Hn.
  intros [= <- _ <-]. exists d. rewrite Hn. split; [done|]. split; [|done].
  refine (holds_after _ _ _ _ Hs). refine (holds_after _ _ _ _ Hm). refine (holds_after _ _ _ _ Hp). refine (holds_after _ _ _ _ Hf).
  rewrite <- Hd. by apply holds_now.
Qed.

Lemma roll_back_safe o c i a a' w r a'' w' :
  roll_back json_pairs json_dumps s has_dnsmasq has_pd o c i a a' w = (r, a'', w') -> safe w w'.
Proof.
  unfold roll_back. destruct (transaction _ w) as [[t u] w1] eqn:Et.
  assert (safe w w1) as H1.
  { apply transaction_spec in Et as (w0 & new & Hb & Hp & Hf & Ht). split; [|by exists new; split; [|apply Hf]].
    destruct t; [apply Ht|]. rewrite Ht.
    pose proof (forget_active_safe (World (w_now w) (w_faults w) (w_result w) [])) as [Hfa _].
    destruct (forget_active _) as [x0 w0']. injection Hb as -> _ ->. exact Hfa. }
  destruct t; [by intros [= _ _ <-]|].
  pose proof (host_pass_safe (oc_rand_back o) w1) as H2. destruct (host_pass _ w1) as [h w2]. cbn [snd] in H2.
  assert (safe w2 (undo_restore json_dumps c i w2).2) as H3.
  { unfold undo_restore. pose proof (inside_safe _ _ (undo_candidate_framed (HandedRecord (default (JObj []) c)) i w2)) as Hu.
    destruct (undo_provision_candidate _ i w2) as [out w3]. cbn [snd] in *. destruct (_ && _); [|done].
    etrans; [exact Hu|]. apply noted_safe, clear_within. }
  destruct (undo_restore _ c i w2) as [l w3]. cbn [snd] in H3.
  pose proof (stop_net_within RESTORE_KEYS w3) as H4. destruct (stop_net_here w3) as [g w4]. cbn [snd] in H4.
  destruct (recover_stats _ _ _). intros [= _ _ <-]. etrans; [exact H1|]. etrans; [exact H2|]. by etrans.
Qed.
End phases.

(** * Properties *)

Definition restored_ok (r : restore_exn + restore_result) : bool := match r with inr res => rr_ok res | inl _ => false end.

(** * The imported configuration does not depend on the record *)

Lemma imported_tables doc now d d' : tables d' = tables d -> tables (imported doc now d') = tables (imported doc now d).
Proof.
  assert (forall e, tables (imported doc now e) = tables (imported doc now (tables e))) as Ht by done.
  intros E. by rewrite (Ht d'), E, <- Ht.
Qed.
Lemma constraints_tables d d' : tables d' = tables d -> constraints d -> constraints d'.
Proof.
  intros E Hd. enough (constraints (tables d')) as Hc by exact Hc. rewrite E. exact Hd.
Qed.
(** [d'] is [d] up to the candidate record. *)
Definition but_record (d d' : db) : Prop := tables d' = tables d /\ forall k, k <> PROVISION_UNDO_KEY -> get_setting k d' = get_setting k d.
Lemma but_record_keys d d' : but_record d d' -> key_private d' = key_private d /\ key_public d' = key_public d.
Proof. intros [_ Hk]. unfold key_private, key_public. by rewrite !Hk. Qed.
Lemma but_record_summary doc d d' : but_record d d' -> summary_of doc d' = summary_of doc d.
Proof. intros Hb. destruct (but_record_keys _ _ Hb) as [H1 H2]. unfold summary_of. by rewrite H1, H2. Qed.
Lemma but_record_imported {K} doc now d d' (m : moment (backend K)) : but_record d d' -> holds (imported doc now d') m -> holds (imported doc now d) m.
Proof.
  intros Hb (T & Hk & Hp). destruct (but_record_keys _ _ Hb) as [H1 H2]. destruct Hb as [Ht Hs].
  assert (forall k, k <> PROVISION_UNDO_KEY -> get_setting k (imported doc now d) = get_setting k (imported doc now d')) as E.
  { intros k Hn. by rewrite !imported_setting, H1, H2, Hs. }
  split; [rewrite T; by apply imported_tables|]. split.
  - intros k Hn. rewrite Hk by done. symmetry. apply E. intros ->. apply Hn, undo_restore_key. by left.
  - intros k t Ht' Hu. apply Hp; [|done]. rewrite <- Ht'. symmetry. apply E. intros ->. apply undo_no_prefix. by eapply usable_prefix_key.
Qed.

Section restore.
Context `{Kernel K}.
Context (json_loads : string -> option json) (json_compact : json -> string) (show : refusal -> string) (exn_text : exn -> string).
Context (json_pairs : string -> string + json) (json_dumps : json -> string) (odd_value : string -> json).
Context (s : settings) (has_dnsmasq has_pd : bool).
Implicit Types (w : world (backend K)) (x : site K) (m : moment (backend K)).

Notation restore_backup := (restore_backup json_loads json_compact show exn_text json_pairs json_dumps odd_value s has_dnsmasq has_pd).
Notation replace := (replace exn_text json_pairs json_dumps odd_value s has_dnsmasq has_pd).
Notation prepare := (prepare json_pairs json_dumps s).
Notation valid := (fun document => validate_document json_loads json_compact false document (Some s) None).
Notation now x := (w_now (si_world x)).
Notation box x := (m_db (w_now (si_world x))).

(** The moments of [x'] that [x] did not have, the present one first. *)
Definition moments x x' (P : moment (backend K) -> Prop) : Prop :=
  P (now x') /\ exists new, w_past (si_world x') = new ++ w_past (si_world x) /\ Forall P new.

Lemma noted_but_record w w' : noted w w' -> but_record (m_db (w_now w)) (m_db (w_now w')).
Proof. intros [[T Hk] _]. split; [done|]. intros k Hn. apply Hk. set_solver. Qed.
Lemma safe_moments w w' : text_prefixes (w_now w) -> safe w w' -> holds (m_db (w_now w)) (w_now w') /\
  exists new, w_past w' = new ++ w_past w /\ Forall (holds (m_db (w_now w))) new.
Proof.
  intros Ho [Hn (new & Hp & Hf)]. split; [by eapply holds_after; [by apply holds_now|]|]. exists new. split; [done|].
  eapply Forall_impl; [exact Hf|]. intros m Hm. by eapply holds_after; [by apply holds_now|].
Qed.
Lemma moments_trans x1 x2 x3 d (P : moment (backend K) -> Prop) :
  moments x1 x2 (holds d) -> moments x2 x3 P -> (forall m, holds d m -> P m) -> moments x1 x3 P.
Proof.
  intros [_ (n1 & P1 & F1)] [N2 (n2 & P2 & F2)] Himp. split; [done|]. exists (n2 ++ n1). rewrite P2, P1, app_assoc. split; [done|].
  apply Forall_app. split; [done|]. by eapply Forall_impl.
Qed.

(** From the point of no return: the old configuration, or the imported one and then everything
    of a finished restore. *)
Lemma replace_spec doc o candidate snapshot x r x' : replace doc o candidate snapshot x = (r, x') ->
  si_dir x' = si_dir x /\ si_sup x' = si_sup x /\
  if restored_ok r then
    exists sm d, r = inr (RestoreResult true (Some sm) "" snapshot) /\ import_state doc (oc_now o) (box x) = (inr sm, d) /\
      (text_prefixes (now x) -> moments x x' (fun m => holds (box x) m \/ holds d m)) /\ holds d (now x') /\ n_status (m_net (now x')) = "ok"
  else text_prefixes (now x) -> moments x x' (holds (box x)).
Proof.
  unfold Restore.replace. destruct (transaction _ _) as [[[exc|sm] [installed address]] w1] eqn:Et;
    apply transaction_spec in Et as (w0 & new & Hb & Hp & Hf & Ht).
  - destruct (roll_back _ _ _ _ _ _ _ _ _ _ w1) as [[rec address'] w2] eqn:Er. apply roll_back_safe in Er.
    assert (safe (si_world x) w1) as H1 by (split; [apply Ht|exists new; split; [done|apply Hf]]).
    assert (safe (si_world x) w2) as H2 by (by etrans).
    destruct rec; intros [= <- <-]; (split_and!; [done..|]); intros Ho; exact (safe_moments _ _ Ho H2).
  - apply body_done in Hb as (d & Hi & Hd & Hok). cbn [w_now] in Hi. rewrite <- Ht in Hd, Hok.
    set (w2 := if truthy_candidate candidate then _ else w1). intros [= <- <-]. split; [done|]. split; [done|]. cbn.
    assert (noted w1 w2 /\ m_net (w_now w2) = m_net (w_now w1)) as [Hn Hm] by (subst w2; destruct (truthy_candidate _); [apply clear_within|done]).
    clearbody w2. exists sm, d. split; [done|]. split; [done|].
    destruct Hn as [Hw (n2 & P2 & F2)]. apply (writes_only_mono _ RESTORE_KEYS) in Hw; [|apply undo_restore_key].
    assert (holds d (w_now w2)) as Hd2 by by eapply holds_after.
    split; [|by rewrite Hm]. intros Ho. split; [by right|]. exists (n2 ++ new). rewrite <- app_assoc, <- Hp. split; [done|]. apply Forall_app. split.
    + eapply Forall_impl; [exact F2|]. intros m Hm2. right. eapply holds_after; [exact Hd|]. eapply writes_only_mono; [apply undo_restore_key|done].
    + eapply Forall_impl; [apply (Hf RESTORE_KEYS)|]. intros m Hm2. left. by eapply holds_after; [by apply holds_now|].
Qed.

Notation disconnect := (disconnect json_pairs json_dumps s).
Notation taken o x := (write_pre_restore_snapshot json_loads json_compact show (oc_disk o) (box x) (si_dir x)).
Notation answers document o x := (prepare document (next_fault (si_world x)).2).

(** Everything that can refuse has answered. *)
Definition ready document o x : Prop := exists v snapshot plan,
  valid document = inr v /\ (taken o x).1 = inr snapshot /\ (answers v o x).1 = inr plan.
(** Nothing but the candidate record and a probe of the link. *)
Definition costs_nothing x x' : Prop :=
  si_sup x' = si_sup x /\ si_stats x' = si_stats x /\ probed (m_net (now x)) (m_net (now x')) /\
  moments x x' (fun m => but_record (box x) (m_db m)).

Lemma noted_moments x x' : noted (si_world x) (si_world x') -> moments x x' (fun m => but_record (box x) (m_db m)).
Proof.
  assert (forall m, writes_only [PROVISION_UNDO_KEY] (now x) m -> but_record (box x) (m_db m)) as Hm.
  { intros m [T Hk]. split; [done|]. intros k Hn. apply Hk. set_solver. }
  intros [Hn (new & Hp & Hf)]. split; [by apply Hm|]. exists new. split; [done|]. by eapply Forall_impl.
Qed.

Lemma restore_phases document o x r x' : restore_backup document o x = (r, x') ->
  (restored_ok r = false /\ noted (si_world x) (si_world x') /\ costs_nothing x x') \/
  ready document o x /\ exists v snapshot candidate x2, valid document = inr v /\ (taken o x) = (inr snapshot, si_dir x2) /\
    noted (si_world x) (si_world x2) /\
    (restored_ok r = false /\ x2 = x' \/ running (si_sup x2) = false /\ replace v o candidate snapshot x2 = (r, x')).
Proof.
  unfold Restore.restore_backup, ready. destruct (valid document) as [e|v]; [intros [= <- <-]; left; split; [done|]; split; [done|]; split; [done|]; split; [done|]; split; [by left|]; by apply noted_moments|].
  set (w0 := (next_fault (si_world x)).2).
  assert (noted (si_world x) w0 /\ w_now w0 = now x) as [Hn0 Hw0] by (split; [apply aside_within|done]).
  change (next_fault (si_world x)) with (default no_fault (head (w_faults (si_world x))), w0). clearbody w0. cbn [fst snd].
  assert (forall r0 d u w, restored_ok r0 = false -> noted w0 w -> probed (m_net (now x)) (m_net (w_now w)) -> u = si_sup x ->
    restored_ok r0 = false /\ noted (si_world x) w /\ costs_nothing x (Site w d u (si_stats x))) as Hfree.
  { intros r0 d u w Hr Hw Hp ->. split; [done|]. split; [by etrans|]. split; [done|]. split; [done|]. split; [done|].
    by apply (noted_moments x (Site w d (si_sup x) (si_stats x))); etrans. }
  destruct (f_raise _); [intros [= <- <-]; left; apply Hfree; try done; left; by rewrite Hw0|]. rewrite Hw0.
  destruct (taken o x) as [[exc|snapshot] files] eqn:Etk; [intros [= <- <-]; left; apply Hfree; try done; left; by rewrite Hw0|].
  destruct (prepare v w0) as [[why|[[c c'] p]] w1] eqn:Ep; pose proof (prepare_free _ _ _ _ _ _ _ Ep) as [Hn1 Hpr]; rewrite Hw0 in Hpr.
  { intros [= <- <-]. left. by apply Hfree. }
  destruct (disconnect o c c' p (si_sup x) w1) as [[[why|[]] u] w2] eqn:Ed; apply disconnect_notes in Ed as [Hn2 Hu]; intros Hr; right.
  all: split; [exists v, snapshot, (c, c', p); cbn; by rewrite ?Ep|]; exists v, snapshot, c, (Site w2 files u (si_stats x));
    (split; [done|]); (split; [done|]); (split; [cbn; etrans; [exact Hn0|by etrans]|]).
  - left. by injection Hr as <- <-.
  - right. split; [by apply Hu|done].
Qed.

Lemma holds_through w w' m : noted w w' -> holds (m_db (w_now w')) m -> holds (m_db (w_now w)) m.
Proof.
  intros [[T K1] _] (T' & K2 & P2). split; [congruence|]. split.
  - intros k Hk. rewrite K2 by done. apply K1. left. intros Hu. by apply Hk, undo_restore_key.
  - intros k t Ht Hu. apply P2; [|done]. rewrite <- Ht. apply K1. left. intros ->%list_elem_of_singleton.
    apply undo_no_prefix. by eapply usable_prefix_key.
Qed.
Lemma moments_impl x x' (P Q : moment (backend K) -> Prop) : moments x x' P -> (forall m, P m -> Q m) -> moments x x' Q.
Proof. intros [Hn (new & Hp & Hf)] Hi. split; [by apply Hi|]. exists new. split; [done|]. by eapply Forall_impl. Qed.
Lemma import_is_imported document v now d sm d' : constraints d -> valid document = inr v -> import_state v now d = (inr sm, d') ->
  d' = imported v now d /\ summary_of v d = sm.
Proof.
  intros Hc Hv. rewrite import_state_run by (done || exact (validated_referenced _ _ _ _ _ Hv)). case_decide; by intros [= <- <-].
Qed.

(** * An unarmed record *)

Definition quiet w w' : Prop := noted w w' /\ the_backend w' = the_backend w.
Lemma quiet_trans w1 w2 w3 : quiet w1 w2 -> quiet w2 w3 -> quiet w1 w3.
Proof. intros [Hn1 Hb1] [Hn2 Hb2]. split; [by etrans|congruence]. Qed.
Lemma same_quiet w w' : same w w' -> quiet w w'.
Proof.
  intros (Hn & Hp & _). split; [split; [by rewrite Hn|exists []; split; [done|apply Forall_nil_2]]|]. unfold the_backend. by rewrite Hn.
Qed.
(** No link to remove, no address to report. *)
Definition claims_nothing (c : candidate) : Prop := ca_vlan c = false /\ ca_addr4 c = "" /\ ca_addr6 c = "".
Lemma unarmed_pending c rec raw cand : unarmed_candidate c = Some rec -> decoded_record json_pairs (strip raw) = Decoded rec ->
  pe_candidate (pending_of json_pairs json_dumps (Known raw)) = Some cand -> claims_nothing cand.
Proof.
  intros Hc Hj. unfold pending_of. cbn [rec_text rec_content ok_map]. destruct (strip raw) as [|a t]; [done|]. rewrite Hj.
  assert (exists iface, rec = JObj [("iface", iface); ("addr4", JStr ""); ("addr6", JStr ""); ("vlan", JBool false);
                                   ("link_state", JStr (state_name LinkUnknown)); ("armed", JBool false)]) as [iface ->].
  { destruct c as [[| | | | |[|kv kvs]]|]; try discriminate Hc; injection Hc as <-; eexists; reflexivity. }
  set (rec := JObj _). assert (settled_undo json_dumps rec = (false, "")) as -> by done.
  assert (forall i, checked_candidate_fields rec i = inr (Candidate i "" "" false LinkUnknown)) as Hf by done.
  cbn [is_obj negb rec]. destruct (checked_candidate_iface rec) as [e|i]; [done|]. cbn [bool_decide]. rewrite Hf. clear.
  case_bool_decide as Hi; cbn [negb ca_iface]; [|done]. case_bool_decide; [done|]. by intros [= <-].
Qed.
Lemma nothing_to_undo c w : claims_nothing c -> quiet w (undo_provision_candidate (HandedCandidate c) HandedNone w).2.
Proof.
  intros (Hv & H4 & H6). assert (quiet w w) as Hw by done. unfold undo_provision_candidate. destruct (negb _); [done|]. cbn [as_candidate ok_map].
  destruct (read_managed_state w) as [[unreadable st] w1] eqn:Em. apply managed_state_facts in Em as [Hs%same_quiet _].
  destruct (negb _); [done|].
  assert (exists out, undo_candidate_link c st.1.1 w1 = ((out, false), w1)) as [out ->].
  { unfold undo_candidate_link, vlan_claim. rewrite Hv. cbn. repeat (case_match; try by eexists). }
  assert (orphan_pairs c None st = []) as ->.
  { unfold orphan_pairs, distinct. destruct st as [[i a] b]. rewrite H4, H6, app_nil_l, !filter_cons_False by (intros [_ [? _]]; done). done. }
  done.
Qed.

(** C3: a restore is all or nothing, whatever the store and the host do meanwhile.  Every state a
    crash can find from its first step to its last, and the state it returns in, holds either the
    configuration the box had or exactly the imported one: every table and every setting a document
    can carry (lemma [restorable]), but for an IPv6 prefix that configuration leaves empty, which is generated.  Only a
    restore that reports success ever shows the imported one, and it ends on it.  The prefixes the
    box has are taken to be stored as text. *)
Theorem restore_atomic document o x r x' : constraints (box x) -> text_prefixes (now x) -> restore_backup document o x = (r, x') ->
  if restored_ok r then
    exists v, valid document = inr v /\ holds (imported v (oc_now o) (box x)) (now x') /\
      moments x x' (fun m => holds (box x) m \/ holds (imported v (oc_now o) (box x)) m)
  else moments x x' (holds (box x)).
Proof.
  intros Hc Ho Hr. destruct (restore_phases _ _ _ _ _ Hr) as [(-> & Hn & _) | (_ & v & name & c & x2 & Hv & _ & Hn & Hx)].
  { exact (safe_moments _ _ Ho (noted_safe _ _ Hn)). }
  pose proof (safe_moments _ _ Ho (noted_safe _ _ Hn)) as Hm. pose proof (noted_but_record _ _ Hn) as Hb.
  pose proof (text_prefixes_after _ _ (proj1 Hn) Ho) as Ho2.
  destruct Hx as [[-> ->] | [_ [_ [_ Hx]]%replace_spec]]; [done|]. destruct (restored_ok r).
  - destruct Hx as (sm & d & _ & Hi & Hx & Hd & _). exists v. split; [done|].
    assert (d = imported v (oc_now o) (box x2)) as ->.
    { eapply import_is_imported; [|exact Hv|exact Hi]. eapply constraints_tables; [apply Hb|done]. }
    split; [by eapply but_record_imported|]. eapply moments_trans; [exact Hm| |by left].
    eapply moments_impl; [exact (Hx Ho2)|]. intros m [H1 | H1]; [left|right; by eapply but_record_imported]. by eapply holds_through.
  - eapply moments_trans; [exact Hm| |done]. eapply moments_impl; [exact (Hx Ho2)|]. intros m H1. by eapply holds_through.
Qed.

(** a restore that is refused costs nothing.  Either the document was valid, the recovery
    snapshot is written, and the candidate, its record and the guard to install have all been
    answered; or the restore fails with xray never asked to stop, no rule installed or removed, the
    host touched by one read-only probe of the candidate link at most, and nothing written at any
    moment but the candidate record. *)
Theorem refusal_costs_nothing document o x :
  let '(r, x') := restore_backup document o x in
  ready document o x \/ (restored_ok r = false /\ costs_nothing x x').
Proof.
  destruct (restore_backup document o x) as [r x'] eqn:Hr. destruct (restore_phases _ _ _ _ _ Hr) as [(? & _ & ?) | [? _]]; [by right|by left].
Qed.

(** a restore that reports success leaves the gateway disconnected and enforced: xray is not
    running, the enforcement that was installed last is recorded as good, the summary counts the
    document's rows and says truthfully whether remote access had to be switched off, and the
    snapshot it names is the one taken of the configuration that was replaced. *)
Theorem restore_disconnects document o x res x' : constraints (box x) -> restore_backup document o x = (inr res, x') -> rr_ok res = true ->
  running (si_sup x') = false /\ n_status (m_net (now x')) = "ok" /\ taken o x = (inr (rr_snapshot res), si_dir x') /\
  exists v, valid document = inr v /\ rr_summary res = Some (summary_of v (box x)).
Proof.
  intros Hc Hr Hok. destruct (restore_phases _ _ _ _ _ Hr) as [[Hf _] | (_ & v & name & c & x2 & Hv & Ht & Hn & [[Hf _] | [Hs Hx]])];
    [cbn in Hf; congruence..|]. pose proof (noted_but_record _ _ Hn) as Hb.
  apply replace_spec in Hx as (Hd & Hu & Hx). cbn in Hx. rewrite Hok in Hx. destruct Hx as (sm & d & [= ->] & Hi & _ & _ & Hst).
  rewrite Hu, Hd. split_and!; try done. exists v. split; [done|]. cbn. f_equal. rewrite <- (but_record_summary v _ _ Hb).
  symmetry. eapply import_is_imported; [|exact Hv|exact Hi]. eapply constraints_tables; [apply Hb|done].
Qed.

(** the record written before xray is stopped licenses no removal: should a crash leave it
    behind, the undo of the next boot runs no command on the host and writes nothing but the record
    itself. *)
Theorem unarmed_licenses_nothing c rec t w : unarmed_candidate c = Some rec ->
  decoded_record json_pairs (strip t) = Decoded rec -> cell_at PROVISION_UNDO_KEY (w_now w) = Some (Text t) ->
  let w' := (resume_pending_provision_undo json_pairs json_dumps w).2 in noted w w' /\ the_backend w' = the_backend w.
Proof.
  intros Hc Hj Ht. unfold resume_pending_provision_undo, pending_candidate.
  destruct (read_record PROVISION_UNDO_KEY w) as [rc w1] eqn:Er. pose proof (read_record_facts _ _ _ _ Er) as [Hs Hrc].
  pose proof (same_quiet _ _ Hs) as Hq1.
  assert (forall cand, pe_candidate (pending_of json_pairs json_dumps rc) = Some cand -> claims_nothing cand) as Hp.
  { intros cand. destruct rc as [raw|why]; [|done]. apply (unarmed_pending c rec); [done|].
    unfold held in Hrc. rewrite Ht in Hrc. injection Hrc as <-. done. }
  set (p := pending_of json_pairs json_dumps rc) in *. clearbody p. cbn [fst snd].
  assert (forall w2, quiet w w2 -> quiet w (clear_provision_candidate json_dumps w2).2) as Hclear.
  { intros w2 [Hq2 Hn2]. destruct (clear_within json_dumps w2) as [Hcl Hn]. split; [by etrans|]. unfold the_backend in *. by rewrite Hn. }
  destruct (negb _); [by apply Hclear|]. destruct (pe_candidate p) as [cand|]; [|done].
  pose proof (nothing_to_undo cand w1 (Hp _ eq_refl)) as Hq2.
  destruct (undo_provision_candidate (HandedCandidate cand) HandedNone w1) as [out w2]. cbn [snd] in Hq2.
  assert (quiet w w2) by (by eapply quiet_trans). destruct (bool_decide _); [by apply Hclear|done].
Qed.
End restore.

(** * A restore *)

Module RestoreRun.
Import RestoreDemo.

Definition hex : string := "0123456789abcdef0123456789abcdef".
Definition answers : disk_answers :=
  DiskAnswers 9 9 [hex] WriteDone true (fun d => Some (map_to_list d).*1) (fun _ => false).
Definition calm : outcomes :=
  Outcomes answers (Env true None SpawnNotFound (Some 0) None None) 9 ([1; 2; 3; 4; 5], [5; 4; 3; 2; 1]) ([1; 2; 3; 4; 5], [5; 4; 3; 2; 1]) None None.
(** Three records are enough to be read back. *)
Definition unarmed : json := default JNull (unarmed_candidate (Some (JObj [("iface", JStr "eth0.2")]))).
Definition dumps (j : json) : string :=
  if bool_decide (j = RESOLVED) then "resolved" else if bool_decide (j = unarmed) then "unarmed" else "armed".
Definition pairs_of (t : string) : string + json :=
  if bool_decide (t = "unarmed") then inr unarmed
  else if bool_decide (t = "armed") then inr (JObj [("iface", JStr "eth0.2"); ("addr4", JStr "192.168.10.2/24"); ("vlan", JBool true); ("link_state", JStr "absent")])
  else inr RESOLVED.
Definition shown (_ : refusal) : string := "refused".
Definition shown_exn (_ : exn) : string := "refused".
Definition odd (_ : string) : json := JNum 0.

(** A box with another segment, whose xray runs. *)
Definition old_box : db := ((add_profile (mk_profile None "default") ;;; set_setting "segment_iface" "eth0.3") empty_db).2.
Definition serving : state_t := (set_want true (set_proc (Some 1) init.1), Os {[ 1 := Alive None ]} 2).
Definition box_site : site machine :=
  Site (World (Moment old_box ∅ (Net (Backend true (Machine ["eth0"] [] []) "") "ok" (Some false) "" "" [])) [] None []) ∅ serving (Some "127.0.0.1:10085").
Definition run : (restore_exn + restore_result) * site machine :=
  restore_backup loads compact shown shown_exn pairs_of dumps odd default_settings false false demo_doc calm box_site.

Lemma run_eq : restore_backup loads compact shown shown_exn pairs_of dumps odd default_settings false false demo_doc calm box_site = (run.1, run.2).
Proof. unfold run. apply surjective_pairing. Qed.
Lemma run_ok : restored_ok run.1 = true.
Proof. by vm_compute. Qed.
Definition run_result : restore_result := match run.1 with inr r => r | inl _ => not_restored "" "" end.
Lemma run_inr : restore_backup loads compact shown shown_exn pairs_of dumps odd default_settings false false demo_doc calm box_site = (inr run_result, run.2).
Proof. rewrite run_eq. by vm_compute. Qed.
Lemma old_constraints : constraints (m_db (w_now (si_world box_site))).
Proof. apply (bool_decide_unpack _). by vm_compute. Qed.

Lemma restore_atomic_witness : restored_ok run.1 = true /\ holds (imported demo_doc 9 old_box) (w_now (si_world run.2)).
Proof.
  split; [exact run_ok|].
  pose proof (restore_atomic loads compact shown shown_exn pairs_of dumps odd default_settings false false demo_doc calm box_site run.1 run.2 old_constraints (fun k _ => lookup_empty k) run_eq) as Hr.
  rewrite run_ok in Hr. destruct Hr as (v & Hv & Hh & _). assert (v = demo_doc) as -> by (clear -Hv; vm_compute in Hv; by injection Hv as <-). exact Hh.
Defined.

Lemma restore_disconnects_witness : running serving = true /\ running (si_sup run.2) = false.
Proof.
  split; [by vm_compute|].
  refine (proj1 (restore_disconnects loads compact shown shown_exn pairs_of dumps odd default_settings false false demo_doc calm box_site run_result run.2
    old_constraints run_inr _)). by vm_compute.
Defined.

(** A crash between the record and the stop: the record is there, and the link of that name with it. *)
Definition crashed : world (backend machine) :=
  World (Moment (set_setting PROVISION_UNDO_KEY "unarmed" old_box).2 ∅
    (Net (Backend true (Machine ["eth0"; "eth0.2"] [] []) "") "ok" (Some false) "" "" [])) [] None [].
Lemma unarmed_licenses_nothing_witness :
  mc_links (b_kernel (the_backend (resume_pending_provision_undo pairs_of dumps crashed).2)) = ["eth0"; "eth0.2"].
Proof.
  rewrite (proj2 (unarmed_licenses_nothing pairs_of dumps (Some (JObj [("iface", JStr "eth0.2")])) unarmed "unarmed" crashed eq_refl eq_refl eq_refl)).
  reflexivity.
Defined.
End RestoreRun.
