(* ===== verification/Uri.v ===== *)
(** What a feed is read with besides JSON: [str.partition], [str.splitlines], [urllib.parse]
    ([urlsplit], [parse_qs], [unquote]) and [base64.urlsafe_b64decode] with
    [decode("utf-8", "replace")], as the Python library defines them, on texts that are the bytes
    of their UTF-8.  White space, letter case and line ends are ASCII's.

    [None] is ValueError, [binascii.Error] where it is named. *)
From Stdlib Require Import ZArith Lia Ascii.
From stdpp Require Import base gmap strings list.
From S2P Require Import Prelude PyStr Ip Records.
Open Scope string_scope.
Open Scope list_scope.
Open Scope Z_scope.

(** * Splitting *)

(** [s.partition(c)]: what is before, whether [c] occurs, what is after. *)
Fixpoint partition (c : ascii) (s : string) : string * bool * string :=
  match s with
  | EmptyString => ("", false, "")
  | String d s' =>
      if bool_decide (d = c) then ("", true, s')
      else let '(a, b, r) := partition c s' in (String d a, b, r)
  end.
(** [s.rpartition(c)] *)
Fixpoint rpartition (c : ascii) (s : string) : string * bool * string :=
  match s with
  | EmptyString => ("", false, "")
  | String d s' =>
      let '(a, b, r) := rpartition c s' in
      if b then (String d a, true, r)
      else if bool_decide (d = c) then ("", true, s') else ("", false, s)
  end.
Definition before_first (c : ascii) (s : string) : string := (partition c s).1.1.
Definition after_first (c : ascii) (s : string) : string := (partition c s).2.
(** [s.splitlines()]: a carriage return and a line feed are one end, and the last line needs none. *)
Definition CR : ascii := "013"%char.
Definition LF : ascii := "010"%char.
Fixpoint splitlines_from (s : string) : list string :=
  match s with
  | EmptyString => []
  | String c s' =>
      if is_line_end c then
        match s' with
        | String d t => if bool_decide (c = CR /\ d = LF) then "" :: splitlines_from t else "" :: splitlines_from s'
        | EmptyString => [""]
        end
      else match splitlines_from s' with
           | l :: ls => match s' with
                        | EmptyString => [String c ""]
                        | String _ _ => String c l :: ls
                        end
           | [] => [String c ""]
           end
  end.
Definition splitlines (s : string) : list string := splitlines_from s.

(** Characters that are kept. *)
Fixpoint str_filter (p : ascii -> bool) (s : string) : string :=
  match s with
  | EmptyString => ""
  | String c s' => if p c then String c (str_filter p s') else str_filter p s'
  end.

(** * UTF-8 *)

Definition code (c : ascii) : N := N_of_ascii c.
Definition is_ascii (c : ascii) : bool := (code c <? 128)%N.
Definition in_range (lo hi : N) (c : ascii) : bool := ((lo <=? code c) && (code c <=? hi))%N.
(** The range of the byte after a lead byte, and how many continuation bytes follow that one. *)
Definition after_lead (c : ascii) : option (N * N * nat) :=
  let n := code c in
  if in_range 194 223 c then Some (128, 191, 0%nat)%N
  else if (n =? 224)%N then Some (160, 191, 1%nat)%N
  else if (n =? 237)%N then Some (128, 159, 1%nat)%N
  else if in_range 225 239 c then Some (128, 191, 1%nat)%N
  else if (n =? 240)%N then Some (144, 191, 2%nat)%N
  else if in_range 241 243 c then Some (128, 191, 2%nat)%N
  else if (n =? 244)%N then Some (128, 143, 2%nat)%N
  else None.
Definition REPLACEMENT : string := String "239" (String "191" (String "189" "")).
(** [pending]: the bytes of the sequence being read, the range the next must have, what follows it. *)
Fixpoint utf8_replace (pending : option (string * (N * N) * nat)) (s : string) : string :=
  match s with
  | EmptyString => match pending with Some _ => REPLACEMENT | None => "" end
  | String c s' =>
      let start :=
        if is_ascii c then String c (utf8_replace None s')
        else match after_lead c with
             | Some (lo, hi, more) => utf8_replace (Some (String c "", (lo, hi), more)) s'
             | None => REPLACEMENT +:+ utf8_replace None s'
             end in
      match pending with
      | None => start
      | Some (held, (lo, hi), more) =>
          if in_range lo hi c then
            match more with
            | O => held +:+ String c "" +:+ utf8_replace None s'
            | S more => utf8_replace (Some (held +:+ String c "", (128, 191)%N, more)) s'
            end
          else REPLACEMENT +:+ start
      end
  end.
(** [b.decode("utf-8", "replace")] *)
Definition decode_utf8 (s : string) : string := utf8_replace None s.

(** * Percent encoding *)

Definition hex_val (c : ascii) : option N :=
  let n := code c in
  if in_range 48 57 c then Some (n - 48)%N else if in_range 65 70 c then Some (n - 55)%N
  else if in_range 97 102 c then Some (n - 87)%N else None.
Fixpoint unquote_bytes (s : string) : string :=
  match s with
  | EmptyString => ""
  | String c s' =>
      match s' with
      | String a (String b t) =>
          match hex_val a, hex_val b with
          | Some x, Some y => if bool_decide (c = "%"%char) then String (ascii_of_N (16 * x + y)) (unquote_bytes t)
                              else String c (unquote_bytes s')
          | _, _ => String c (unquote_bytes s')
          end
      | _ => String c (unquote_bytes s')
      end
  end.
(** Runs of ASCII are decoded, the text between them stays. *)
Fixpoint unquote_runs (run : string) (s : string) : string :=
  match s with
  | EmptyString => decode_utf8 (unquote_bytes run)
  | String c s' =>
      if is_ascii c then unquote_runs (run +:+ String c "") s'
      else decode_utf8 (unquote_bytes run) +:+ String c (unquote_runs "" s')
  end.
Definition unquote (s : string) : string := unquote_runs "" s.

(** [parse_qs(q).get(k, [d])[0]]: the first value that is not blank. *)
Definition plus_to_space (s : string) : string := str_map (fun c => if bool_decide (c = "+"%char) then " "%char else c) s.
Definition query_pair (nv : string) : option (string * string) :=
  let '(n, found, v) := partition "=" nv in
  if found && negb (bool_decide (v = "")) then Some (unquote (plus_to_space n), unquote (plus_to_space v)) else None.
Definition query_pairs (q : string) : list (string * string) := omap query_pair (split_on "&" q).
Fixpoint first_value (k : string) (l : list (string * string)) : option string :=
  match l with
  | [] => None
  | (k', v) :: l' => if bool_decide (k = k') then Some v else first_value k l'
  end.
Definition query_get (q k d : string) : string := default d (first_value k (query_pairs q)).

(** * [urlsplit] *)

Record url := Url { u_scheme : string; u_netloc : string; u_path : string; u_query : string; u_fragment : string }.

Definition is_alpha (c : ascii) : bool := in_range 65 90 c || in_range 97 122 c.
Definition scheme_char (c : ascii) : bool :=
  is_alpha c || is_digit c || bool_decide (c = "+"%char) || bool_decide (c = "-"%char) || bool_decide (c = "."%char).
Definition split_scheme (s : string) : string * string :=
  match partition ":" s, s with
  | (a, true, r), String c _ => if is_alpha c && str_all scheme_char a then (lower a, r) else ("", s)
  | _, _ => ("", s)
  end.
Definition netloc_end (c : ascii) : bool := bool_decide (c = "/"%char) || bool_decide (c = "?"%char) || bool_decide (c = "#"%char).
(** Up to the first of [/?#]. *)
Fixpoint span_netloc (s : string) : string * string :=
  match s with
  | EmptyString => ("", "")
  | String c s' => if netloc_end c then ("", s) else let '(a, b) := span_netloc s' in (String c a, b)
  end.
(** A bracketed host is an IPv6 address or an address of a future version. *)
Definition ipv_future (s : string) : bool :=
  match s with
  | String v t => bool_decide (v = "v"%char) &&
      let '(h, dot, r) := partition "." t in
      dot && negb (bool_decide (h = "")) && str_all (fun c => bool_decide (is_Some (hex_val c))) h && negb (bool_decide (r = ""))
  | _ => false
  end.
Definition bracketed_ok (netloc : string) : bool :=
  let '(_, opened, t) := partition "[" netloc in
  let closed := contains "]" netloc in
  if negb opened && negb closed then true
  else if negb (opened && closed) then false
  else let host := before_first "]" t in
       if startswith host "v" then ipv_future host else match ip_address host with Some (6, _) => true | _ => false end.
Definition c0_or_space (c : ascii) : bool := (code c <=? 32)%N.
Definition unsafe_char (c : ascii) : bool := bool_decide (c = "009"%char) || bool_decide (c = CR) || bool_decide (c = LF).
Fixpoint lstrip_by (p : ascii -> bool) (s : string) : string :=
  match s with EmptyString => "" | String c s' => if p c then lstrip_by p s' else s end.

Definition urlsplit (s : string) : option url :=
  let s := str_filter (fun c => negb (unsafe_char c)) (lstrip_by c0_or_space s) in
  let '(scheme, s) := split_scheme s in
  let '(netloc, s) := if startswith s "//" then span_netloc (str_drop 2 s) else ("", s) in
  if negb (bracketed_ok netloc) then None
  else
    let '(s, _, fragment) := partition "#" s in
    let '(path, _, query) := partition "?" s in
    Some (Url scheme netloc path query fragment).

(** [.username], [.hostname], [.port] of the result; a port that is no number raises. *)
Definition u_username (u : url) : option string :=
  let '(userinfo, at_sign, _) := rpartition "@" (u_netloc u) in
  if at_sign then Some (before_first ":" userinfo) else None.
Definition host_port (u : url) : string * string :=
  let '(_, _, hostinfo) := rpartition "@" (u_netloc u) in
  let '(_, opened, bracketed) := partition "[" hostinfo in
  if opened then let '(host, _, port) := partition "]" bracketed in (host, after_first ":" port)
  else (before_first ":" hostinfo, after_first ":" hostinfo).
Definition u_hostname (u : url) : string :=
  let '(host, percent, zone) := partition "%" (host_port u).1 in
  lower host +:+ (if percent then "%" +:+ zone else "").
Definition u_port (u : url) : option (option Z) :=
  let p := (host_port u).2 in
  if bool_decide (p = "") then Some None
  else if str_all is_digit p then match py_int p with Some n => if n <=? 65535 then Some (Some n) else None | None => None end
  else None.

(** * base64 *)

Definition sextet (c : ascii) : option N :=
  let n := code c in
  if in_range 65 90 c then Some (n - 65)%N else if in_range 97 122 c then Some (n - 71)%N
  else if in_range 48 57 c then Some (n + 4)%N
  else if bool_decide (c = "+"%char \/ c = "-"%char) then Some 62%N
  else if bool_decide (c = "/"%char \/ c = "_"%char) then Some 63%N else None.
(** [binascii.a2b_base64] of the translated text: characters outside the alphabet are skipped, a
    full padding ends the input.  [None] is [binascii.Error]. *)
Fixpoint a2b (quad pads : nat) (left : N) (s : string) : option string :=
  match s with
  | EmptyString => if (quad =? 0)%nat then Some "" else None
  | String c s' =>
      if bool_decide (c = "="%char) then
        if (2 <=? quad)%nat && (4 <=? quad + S pads)%nat then Some ""
        else a2b quad (if (2 <=? quad)%nat then S pads else pads) left s'
      else match sextet c with
           | None => a2b quad pads left s'
           | Some v =>
               match quad with
               | O => a2b 1 0 v s'
               | 1%nat => String (ascii_of_N (4 * left + v / 16)) <$> a2b 2 0 (v mod 16)%N s'
               | 2%nat => String (ascii_of_N (16 * left + v / 4)) <$> a2b 3 0 (v mod 4)%N s'
               | _ => String (ascii_of_N (64 * left + v)) <$> a2b 0 0 0 s'
               end
           end
  end.
Inductive b64_result := Bytes (s : string) | Binascii | NotAscii.
(** [base64.urlsafe_b64decode(s)]; a text that is not ASCII is a ValueError of another kind. *)
Definition urlsafe_b64decode (s : string) : b64_result :=
  if negb (str_all is_ascii s) then NotAscii
  else match a2b 0 0 0 s with Some b => Bytes b | None => Binascii end.

(** * On examples *)

Example splitlines_ex : splitlines ("a" +:+ String CR (String LF ("b" +:+ String LF (String LF "c")))) = ["a"; "b"; ""; "c"].
Proof. reflexivity. Qed.
Example unquote_ex : unquote "a%20b%zz%41%" = "a b%zzA%".
Proof. reflexivity. Qed.
Example utf8_ex : decode_utf8 (String "226" (String "130" "A")) = REPLACEMENT +:+ "A".
Proof. reflexivity. Qed.
Example urlsplit_ex : urlsplit "VLESS://u:p@[::1]:443/x?type=tcp&a=+b#n%20m" =
  Some (Url "vless" "u:p@[::1]:443" "/x" "type=tcp&a=+b" "n%20m").
Proof. vm_compute. reflexivity. Qed.
Example parts_ex : let u := Url "ss" "u:p@[::1%Eth]:443" "" "type=tcp&a=+b" "" in
  (u_username u, u_hostname u, u_port u, query_get (u_query u) "a" "") = (Some "u", "::1%Eth", Some (Some 443), " b").
Proof. vm_compute. reflexivity. Qed.
Example b64_ex : urlsafe_b64decode "YWVz LTI1\Ng==x" = Bytes "aes-256".
Proof. vm_compute. reflexivity. Qed.
