(* ===== verification/Feed.v ===== *)
(** The parsers of subscription feeds ([subs/parsers]): what a provider's answer is read as, the
    nodes it yields and the count of entries that were dropped.

    [json_loads] is [json.loads] ([None] is ValueError, integers only); [yaml_load] is [yaml.load]
    with the loader of [clash_yaml.py], which is a subclass of PyYAML's, or the text of the error
    it raises.  A parser answers the text of an exception that leaves it, or its nodes. *)
From Stdlib Require Import ZArith Lia Ascii.
From stdpp Require Import base gmap strings list.
From S2P Require Import Prelude PyStr Models Json Records Ledgers Linux Uri.
Open Scope string_scope.
Open Scope list_scope.
Open Scope Z_scope.

(** * What was dropped *)

Definition SKIP_ALIASES : list (string * string) :=
  [("shadowsocks", "ss"); ("ssr", "ss"); ("ss2022", "ss"); ("hysteria", "hysteria2"); ("hy2", "hysteria2"); ("hy", "hysteria2");
   ("socks5", "socks"); ("https", "http")].
Definition SKIP_LABELS : list string :=
  ["vmess"; "trojan"; "ss"; "hysteria2"; "tuic"; "wireguard"; "socks"; "http"; "snell"; "anytls"; "juicity"; "mieru"; "invalid"; "other"].
Definition skip_label (raw : string) : string :=
  let key := str_take 32 (lower (strip raw)) in
  let key := default key (assoc key SKIP_ALIASES) in
  if bool_decide (key ∈ SKIP_LABELS) then key else "other".

(** A dict of counts, in the order its keys came. *)
Definition skips : Type := list (string * Z).
Fixpoint count_label (label : string) (l : skips) : skips :=
  match l with
  | [] => [(label, 1)]
  | (k, n) :: l' => if bool_decide (k = label) then (k, n + 1) :: l' else (k, n) :: count_label label l'
  end.
Definition note_skip (raw : string) (l : skips) : skips := count_label (skip_label raw) l.

(** What becomes of an entry. *)
Inductive verdict := Take (n : node) | Drop (raw : string) | Ignore.
Definition reached (limit : option nat) (nodes : list node) : bool :=
  match limit with Some k => (k <=? length nodes)%nat | None => false end.
(** The loop of every parser: entries in order, until the limit is reached. *)
Fixpoint collect {A} (f : A -> string + verdict) (limit : option nat) (nodes : list node) (dropped : skips) (items : list A)
    : string + (list node * skips) :=
  match items with
  | [] => inr (nodes, dropped)
  | x :: items' =>
      match f x with
      | inl e => inl e
      | inr Ignore => collect f limit nodes dropped items'
      | inr (Drop raw) => collect f limit nodes (note_skip raw dropped) items'
      | inr (Take n) =>
          let nodes := nodes ++ [n] in
          if reached limit nodes then inr (nodes, dropped) else collect f limit nodes dropped items'
      end
  end.

(** [Node(...)] with the fields a feed gives; the dataclass normalises. *)
Definition feed_node (name address : string) (port : Z) (uuid protocol password method transport sni public_key short_id fingerprint flow
    network security path host mode alpn : string) : node :=
  normalize (Node None name address port uuid protocol password method transport sni public_key short_id fingerprint flow network security
    path host mode alpn "" None false None 0).
Definition take_or_drop (n : option node) : verdict := match n with Some n => Take n | None => Drop "invalid" end.

(** * Share links: [base64_vless.py] *)

Definition scheme_start (c : ascii) : bool := in_range 97 122 c.
Definition scheme_rest (c : ascii) : bool :=
  scheme_start c || is_digit c || bool_decide (c = "+"%char) || bool_decide (c = "."%char) || bool_decide (c = "-"%char).
Fixpoint span (p : ascii -> bool) (s : string) : string * string :=
  match s with
  | EmptyString => ("", "")
  | String c s' => if p c then let '(a, b) := span p s' in (String c a, b) else ("", s)
  end.
(** The group of [_OTHER_SCHEME]. *)
Definition other_scheme (line : string) : option string :=
  let '(scheme, rest) := span scheme_rest line in
  match scheme with
  | String c _ =>
      if scheme_start c && (2 <=? String.length scheme)%nat && (String.length scheme <=? 16)%nat && startswith rest "://" then Some scheme else None
  | EmptyString => None
  end.

Definition ASCII_ONLY : string := "string argument should contain only ASCII characters".
Definition padding (s : string) : string :=
  match (String.length s mod 4)%nat with 1%nat => "===" | 2%nat => "==" | 3%nat => "=" | _ => "" end.
Definition b64decode (text : string) : string + string :=
  let text := str_filter (fun c => negb (is_space c)) text in
  match urlsafe_b64decode (text +:+ padding text) with
  | Bytes b => inr (decode_utf8 b)
  | Binascii => inr ""
  | NotAscii => inl ASCII_ONLY
  end.

(** [parts.scheme], a user, a host and a port, or [None]. *)
Definition link_parts (scheme uri : string) : option (url * string * string * Z) :=
  match urlsplit uri with
  | None => None
  | Some u =>
      match u_port u with
      | Some (Some port) =>
          let user := default "" (u_username u) in
          if bool_decide (u_scheme u = scheme) && negb (bool_decide (user = "")) && negb (bool_decide (u_hostname u = ""))
          then Some (u, user, u_hostname u, port) else None
      | _ => None
      end
  end.
Definition requested_security (security pbk : string) : string :=
  let requested := lower (strip security) in
  if bool_decide (requested ∈ ["reality"; "tls"]) then requested else if bool_decide (pbk = "") then "tls" else "reality".
Definition name_or (name address : string) : string := if bool_decide (name = "") then address else name.

Definition parse_vless (uri : string) : option node :=
  match link_parts "vless" uri with
  | None => None
  | Some (u, user, addr, port) =>
      let g k d := query_get (u_query u) k d in
      let network := if bool_decide (g "type" "" ∈ ["xhttp"; "splithttp"]) then "xhttp" else "tcp" in
      let transport := if bool_decide (network = "xhttp") then "xhttp" else "vision" in
      match safe_port (PvInt port) 443 with
      | None => None
      | Some port =>
          Some (feed_node (name_or (unquote (u_fragment u)) addr) addr port (unquote user) "vless" "" "" transport
                  (g "sni" "") (g "pbk" "") (g "sid" "") (g "fp" "chrome") (g "flow" "xtls-rprx-vision") network
                  (requested_security (g "security" "") (g "pbk" "")) (g "path" "") (g "host" "") (g "mode" "") (g "alpn" ""))
      end
  end.

Definition parse_trojan (uri : string) : option node :=
  match link_parts "trojan" uri with
  | None => None
  | Some (u, user, addr, port) =>
      let g k d := query_get (u_query u) k d in
      if negb (bool_decide (lower (strip (g "type" "tcp")) ∈ [""; "tcp"; "original"; "none"])) then None
      else match safe_port (PvInt port) 443 with
           | None => None
           | Some port =>
               Some (feed_node (name_or (unquote (u_fragment u)) addr) addr port "" "trojan" (unquote user) "" "vision"
                       (name_or (g "sni" "") (g "peer" "")) (g "pbk" "") (g "sid" "") (g "fp" "chrome") "xtls-rprx-vision" "tcp"
                       (requested_security (g "security" "") (g "pbk" "")) "" "" "" (g "alpn" ""))
           end
  end.

Definition ss_node (name method password hostport : string) : option node :=
  match urlsplit ("//" +:+ hostport) with
  | None => None
  | Some u =>
      match u_port u with
      | Some (Some port) =>
          if bool_decide (u_hostname u = "") then None
          else match safe_port (PvInt port) 443 with
               | None => None
               | Some port => Some (feed_node (name_or name (u_hostname u)) (u_hostname u) port "" "shadowsocks" password method "vision"
                                      "" "" "" "chrome" "xtls-rprx-vision" "tcp" "reality" "" "" "" "")
               end
      | _ => None
      end
  end.
Definition ss_usable (method password : string) : bool :=
  bool_decide (method ∈ SS_METHODS) && bool_decide (ss_password_issue method password = None).
(** [inl] is the ValueError of a text that is not ASCII. *)
Definition parse_ss (uri : string) : string + option node :=
  let '(body, _, fragment) := partition "#" (str_drop 5 uri) in
  let '(body, _, query) := partition "?" body in
  if contains "plugin=" query then inr None
  else
    let? body := (if contains "@" body then inr body else b64decode body) in
    let '(userinfo, sep, hostport) := rpartition "@" body in
    if negb sep || bool_decide (userinfo = "") then inr None
    else
      let userinfo := unquote userinfo in
      let? userinfo := (if contains ":" userinfo then inr userinfo else b64decode userinfo) in
      let '(method, sep, password) := partition ":" userinfo in
      if negb sep || bool_decide (password = "") then inr None
      else
        let method := lower (strip method) in
        if negb (ss_usable method password) then inr None
        else inr (ss_node (unquote fragment) method password hostport).

Definition SCHEMES : list string := ["vless"; "trojan"; "ss"].
(** A line: another scheme is counted by its name, free text is not looked at. *)
Definition read_line (line : string) : string + verdict :=
  let line := strip line in
  match other_scheme line with
  | None => inr Ignore
  | Some scheme =>
      if bool_decide (scheme = "vless") then inr (take_or_drop (parse_vless line))
      else if bool_decide (scheme = "trojan") then inr (take_or_drop (parse_trojan line))
      else if bool_decide (scheme = "ss") then let? n := parse_ss line in inr (take_or_drop n)
      else inr (Drop scheme)
  end.
Definition link_lines (body : string) : string + list string :=
  let text := strip body in
  let? text := (if existsb (fun scheme => contains (scheme +:+ "://") text) SCHEMES then inr text else b64decode text) in
  inr (splitlines text).
Definition parse_links_feed (body : string) (limit : option nat) : string + (list node * skips) :=
  let? lines := link_lines body in collect read_line limit [] [] lines.

(** * Decoded values *)

(** [str(d.get(k, dflt))], [str(v or "")] and [d.get(k) or ...]. *)
Definition get_str (k dflt : string) (it : json) : string := match jget k it with Some v => py_str v | None => dflt end.
Definition or_text (v : option json) : string := match v with Some v => if jtruthy v then py_str v else "" | None => "" end.
Definition get_or (k : string) (it : json) (dflt : json) : json :=
  match jget k it with Some v => if jtruthy v then v else dflt | None => dflt end.
(** A dict, or an empty one. *)
Definition dict_of (v : option json) : json := match v with Some (JObj kvs) => JObj kvs | _ => JObj [] end.
Definition port_of (v : option json) : option Z :=
  match v with
  | None | Some JNull => safe_port PvNone 443
  | Some (JBool b) => safe_port (PvInt (if b then 1 else 0)) 443
  | Some (JNum z) => safe_port (PvInt z) 443
  | Some (JStr t) => safe_port (PvStr t) 443
  | Some _ => None
  end.
Fixpoint chars (s : string) : list string := match s with EmptyString => [] | String c s' => String c "" :: chars s' end.
(** [for it in v] *)
Definition iterate (v : json) : string + list json :=
  match v with
  | JArr l => inr l
  | JObj kvs => inr (JStr <$> kvs.*1)
  | JStr s => inr (JStr <$> chars s)
  | JNull => inl "'NoneType' object is not iterable"
  | JBool _ => inl "'bool' object is not iterable"
  | JNum _ => inl "'int' object is not iterable"
  end.
Definition alpn_text (v : option json) : string :=
  match v with Some (JArr l) => join "," (py_str <$> l) | v => or_text v end.

(** * An array of whole client configurations: [xray_json.py] *)

Definition PROXY_PROTOCOLS : list string := ["vless"; "trojan"; "shadowsocks"].
Definition TRANSPORTS : list (string * string) := [("tcp", "vision"); ("raw", "vision"); ("xhttp", "xhttp"); ("splithttp", "xhttp")].
Definition items_of (data : json) : list json := match data with JArr l => l | v => [v] end.
Definition has_outbounds (i : json) : bool := is_obj i && match jget "outbounds" i with Some (JArr _) => true | _ => false end.
Definition looks_like (data : json) : bool :=
  let head := take 3 (items_of data) in negb (bool_decide (length head = 0%nat)) && forallb has_outbounds head.

Definition protocol_is (l : list string) (o : json) : bool :=
  match jget "protocol" o with Some (JStr p) => bool_decide (p ∈ l) | _ => false end.
Definition proxy_outbound (config : json) : string + option json :=
  let? outbounds := iterate (get_or "outbounds" config (JArr [])) in
  let outbounds := filter (fun o => is_obj o = true) outbounds in
  match head (filter (fun o => jget "tag" o = Some (JStr "proxy")) outbounds) with
  | Some o => inr (Some o)
  | None => inr (head (filter (fun o => protocol_is ["freedom"; "blackhole"; "dns"] o = false) outbounds))
  end.
(** [_first]: the first item, when it is a dict. *)
Definition first_dict (v : option json) : option json :=
  match v with Some (JArr (JObj kvs :: _)) => Some (JObj kvs) | _ => None end.

(** The server entry with the uuid, flow, password and method of its user. *)
Definition xray_credential (protocol : string) (settings : json) : option (json * (string * string * string * string)) :=
  if bool_decide (protocol = "vless") then
    match first_dict (jget "vnext" settings) with
    | None => None
    | Some server =>
        match first_dict (jget "users" server) with
        | None => None
        | Some user => let id := or_text (jget "id" user) in
                       if bool_decide (id = "") then None else Some (server, (id, or_text (jget "flow" user), "", ""))
        end
    end
  else
    match first_dict (jget "servers" settings) with
    | None => None
    | Some server =>
        let password := or_text (jget "password" server) in
        if bool_decide (password = "") then None
        else if bool_decide (protocol = "shadowsocks") then
          let method := lower (strip (or_text (jget "method" server))) in
          if ss_usable method password then Some (server, ("", "xtls-rprx-vision", password, method)) else None
        else Some (server, ("", "xtls-rprx-vision", password, ""))
    end.

Definition xray_node (config outbound : json) (protocol : string) : option node :=
  let settings := dict_of (jget "settings" outbound) in
  let stream := dict_of (jget "streamSettings" outbound) in
  match xray_credential protocol settings with
  | None => None
  | Some (server, (uuid, flow, password, method)) =>
      let address := or_text (jget "address" server) in
      match port_of (jget "port" server), assoc (lower (py_str (get_or "network" stream (JStr "tcp")))) TRANSPORTS with
      | Some port, Some transport =>
          if bool_decide (address = "") || (negb (bool_decide (protocol = "vless")) && negb (bool_decide (transport = "vision"))) then None
          else
            let reality := dict_of (jget "realitySettings" stream) in
            let tls := dict_of (jget "tlsSettings" stream) in
            let xhttp := match jget "xhttpSettings" stream, jget "splithttpSettings" stream with
                         | Some (JObj kvs), _ => JObj kvs
                         | _, v => dict_of v
                         end in
            Some (feed_node (name_or (or_text (jget "remarks" config)) address) address port uuid protocol password method transport
                    (name_or (or_text (jget "serverName" reality)) (or_text (jget "serverName" tls)))
                    (name_or (or_text (jget "publicKey" reality)) (or_text (jget "password" reality)))
                    (or_text (jget "shortId" reality))
                    (name_or (or_text (jget "fingerprint" reality)) (name_or (or_text (jget "fingerprint" tls)) "chrome"))
                    flow (if bool_decide (transport = "xhttp") then "xhttp" else "tcp") (or_text (jget "security" stream))
                    (or_text (jget "path" xhttp)) (or_text (jget "host" xhttp)) (or_text (jget "mode" xhttp)) (alpn_text (jget "alpn" tls)))
      | _, _ => None
      end
  end.

Definition read_config (config : json) : string + verdict :=
  let? outbound := (if is_obj config then proxy_outbound config else inr None) in
  match outbound with
  | None => inr (Drop "invalid")
  | Some outbound =>
      match jget "protocol" outbound with
      | Some (JStr protocol) =>
          if bool_decide (protocol ∈ PROXY_PROTOCOLS) then inr (take_or_drop (xray_node config outbound protocol)) else inr (Drop protocol)
      | v => inr (Drop (or_text v))
      end
  end.
Definition parse_xray (data : json) (limit : option nat) : string + (list node * skips) := collect read_config limit [] [] (items_of data).

(** * A JSON list of nodes: [json_nodes.py] *)

(** The text the column of a transport holds; a list or an object, which no column takes, keeps
    its [str]. *)
Definition column_text (v : json) : string := match v with JBool b => if b then "1" else "0" | v => py_str v end.
Definition read_item (it : json) : string + verdict :=
  if negb (is_obj it) then inr (Drop "invalid")
  else if negb (jtruthy (default JNull (jget "address" it))) then inr (Drop "invalid")
  else
    let addr := get_str "address" "" it in
    let protocol := lower (strip (py_str (get_or "protocol" it (JStr "vless")))) in
    if negb (bool_decide (protocol ∈ PROTOCOLS)) then inr (Drop protocol)
    else
      let uuid := get_str "uuid" "" it in
      let password := get_str "password" "" it in
      let method := lower (strip (get_str "method" "" it)) in
      if (if bool_decide (protocol = "vless") then bool_decide (uuid = "") else bool_decide (password = "")) ||
         (bool_decide (protocol = "shadowsocks") && negb (ss_usable method password)) then inr (Drop "invalid")
      else
        let net := get_str "network" "" it in
        let transport := column_text (get_or "transport" it (JStr (if bool_decide (net ∈ ["xhttp"; "splithttp"]) then "xhttp" else "vision"))) in
        let pbk := get_str "public_key" "" it in
        match port_of (jget "port" it) with
        | None => inr (Drop "invalid")
        | Some port =>
            inr (Take (feed_node (get_str "name" addr it) addr port uuid protocol password method transport (get_str "sni" "" it) pbk
                         (get_str "short_id" "" it) (get_str "fingerprint" "chrome" it) (get_str "flow" "xtls-rprx-vision" it)
                         (name_or net (if bool_decide (transport = "xhttp") then "xhttp" else "tcp"))
                         (name_or (get_str "security" "" it) (if bool_decide (pbk = "") then "tls" else "reality"))
                         (get_str "path" "" it) (get_str "host" "" it) (get_str "mode" "" it) (get_str "alpn" "" it)))
        end.
Definition json_items (data : json) : string + list json :=
  match data with
  | JArr l => inr l
  | JObj _ => iterate (default (JArr []) (jget "nodes" data))
  | _ => inr []
  end.
Definition parse_obj (data : json) (limit : option nat) : string + (list node * skips) :=
  if looks_like data then parse_xray data limit
  else let? items := json_items data in collect read_item limit [] [] items.

(** * Clash: [clash_yaml.py] *)

Definition first_or_blank (v : json) : json := match v with JArr (x :: _) => x | JArr [] => JStr "" | v => v end.
Definition jor (a b : json) : json := if jtruthy a then a else b.
Definition get_val (k : string) (it : json) : json := default JNull (jget k it).
(** Path and host of one block of transport options. *)
Definition block_path_host (o : json) : json * json :=
  let headers := dict_of (jget "headers" o) in
  (first_or_blank (get_val "path" o), first_or_blank (jor (get_val "Host" headers) (jor (get_val "host" headers) (jor (get_val "host" o) (JStr ""))))).
Fixpoint opts_path_host_from (keys : list string) (p : json) : string * string :=
  match keys with
  | [] => ("", "")
  | k :: ks =>
      match jget k p with
      | Some (JObj kvs) =>
          let '(path, host) := block_path_host (JObj kvs) in
          if jtruthy path || jtruthy host then (or_text (Some path), or_text (Some host)) else opts_path_host_from ks p
      | _ => opts_path_host_from ks p
      end
  end.
Definition opts_path_host (p : json) : string * string := opts_path_host_from ["xhttp-opts"; "ws-opts"; "h2-opts"; "http-opts"] p.

Definition clash_vless (p : json) : option node :=
  let ro := dict_of (jget "reality-opts" p) in
  let is_xhttp := match jget "network" p with Some (JStr t) => bool_decide (t ∈ ["xhttp"; "splithttp"]) | _ => false end in
  let pbk := get_str "public-key" "" ro in
  let '(path, host) := opts_path_host p in
  match port_of (jget "port" p) with
  | None => None
  | Some port =>
      Some (feed_node (get_str "name" (get_str "server" "" p) p) (get_str "server" "" p) port (get_str "uuid" "" p) "vless" "" ""
              (if is_xhttp then "xhttp" else "vision") (get_str "servername" (get_str "sni" "" p) p) pbk (get_str "short-id" "" ro)
              (get_str "client-fingerprint" "chrome" p) (get_str "flow" "xtls-rprx-vision" p) (if is_xhttp then "xhttp" else "tcp")
              (if bool_decide (pbk = "") then "tls" else "reality") path host "" (alpn_text (jget "alpn" p)))
  end.
Definition clash_trojan (p : json) : option node :=
  let address := get_str "server" "" p in
  let password := get_str "password" "" p in
  match port_of (jget "port" p) with
  | None => None
  | Some port =>
      if bool_decide (address = "") || bool_decide (password = "") then None
      else if negb (bool_decide (lower (py_str (get_or "network" p (JStr "tcp"))) ∈ ["tcp"; "original"; "none"])) then None
      else
        let ro := dict_of (jget "reality-opts" p) in
        let pbk := get_str "public-key" "" ro in
        Some (feed_node (get_str "name" address p) address port "" "trojan" password "" "vision" (get_str "sni" (get_str "servername" "" p) p)
                pbk (get_str "short-id" "" ro) (get_str "client-fingerprint" "chrome" p) "xtls-rprx-vision" "tcp"
                (if bool_decide (pbk = "") then "tls" else "reality") "" "" "" (alpn_text (jget "alpn" p)))
  end.
Definition clash_shadowsocks (p : json) : option node :=
  let address := get_str "server" "" p in
  let password := get_str "password" "" p in
  let method := lower (strip (get_str "cipher" "" p)) in
  match port_of (jget "port" p) with
  | None => None
  | Some port =>
      if bool_decide (address = "") || bool_decide (password = "") || jtruthy (get_val "plugin" p) || negb (ss_usable method password) then None
      else Some (feed_node (get_str "name" address p) address port "" "shadowsocks" password method "vision" "" "" "" "chrome"
                   "xtls-rprx-vision" "tcp" "reality" "" "" "" "")
  end.
Definition read_proxy (p : json) : string + verdict :=
  if negb (is_obj p) then inr (Drop "invalid")
  else
    let kind := or_text (jget "type" p) in
    if bool_decide (kind = "vless") then inr (take_or_drop (clash_vless p))
    else if bool_decide (kind = "trojan") then inr (take_or_drop (clash_trojan p))
    else if bool_decide (kind = "ss") then inr (take_or_drop (clash_shadowsocks p))
    else inr (Drop kind).
Definition clash_proxies (data : json) : string + list json :=
  match data with JObj _ => iterate (default (JArr []) (jget "proxies" data)) | _ => inr [] end.

(** * Sniffing: [dispatch.py] *)

Section dispatch.
Context (json_loads : string -> option json) (yaml_load : string -> string + json).

Definition parse_clash (body : string) (limit : option nat) : string + (list node * skips) :=
  let? data := yaml_load body in
  let? proxies := clash_proxies data in
  collect read_proxy limit [] [] proxies.

(** [text[:1] in ("[", "{")], then [json.loads]; a [null] is taken for no JSON. *)
Definition sniff_json (text : string) : option json :=
  match text with
  | String c _ => if bool_decide (c = "["%char \/ c = "{"%char) then match json_loads text with Some JNull => None | v => v end else None
  | EmptyString => None
  end.
Definition detect (body : string) : string :=
  let text := strip body in
  match sniff_json text with
  | Some data => if looks_like data then "xray-json" else "json"
  | None => if contains "proxies:" text then "clash" else "base64/vless"
  end.
Definition parse_subscription (body : string) (limit : option nat) : string + (list node * skips) :=
  let text := strip body in
  match sniff_json text with
  | Some data => parse_obj data limit
  | None => if contains "proxies:" text then parse_clash text limit else parse_links_feed text limit
  end.
End dispatch.
