(* ===== verification/FeedProps.v ===== *)
(** What a feed can put into the panel: nodes that carry TLS or an authenticated cipher and their
    credential, no more of them than asked for, counts the feed cannot name; every entry is a node
    or counted; and exactly which of these nodes a backup of the box refuses afterwards. *)
From Stdlib Require Import ZArith Lia Ascii.
From stdpp Require Import base gmap strings list.
From S2P Require Import Prelude PyStr Models Json Store ReconcileProps Config Records Ledgers Linux NetSettings Backup BackupProps BackupFiles Uri Feed.
Open Scope string_scope.
Open Scope list_scope.
Open Scope Z_scope.

(** * Lemmas *)

(** The loop of the parsers, and what each of them makes of one entry. *)

(** * Counting *)

Definition total (l : skips) : Z := zsum l.*2.
Lemma count_label_total k l : total (count_label k l) = total l + 1.
Proof.
  unfold total. induction l as [|[k' n] l IH]; cbn [count_label]; [done|]. case_bool_decide; cbn; [lia|].
  change (foldr Z.add 0 (count_label k l).*2) with (zsum (count_label k l).*2). rewrite IH. unfold zsum. lia.
Qed.
Lemma count_label_keys k l : (count_label k l).*1 ⊆ k :: l.*1.
Proof.
  induction l as [|[k' n] l IH]; cbn [count_label]; [done|]. case_bool_decide; cbn; set_solver.
Qed.
Lemma skip_label_known raw : skip_label raw ∈ SKIP_LABELS.
Proof. unfold skip_label. cbv zeta. case_bool_decide; [done|]. apply (bool_decide_unpack _). by vm_compute. Qed.

Section collect.
Context {A : Type} (f : A -> string + verdict).
Implicit Types (items : list A) (nodes : list node) (dropped : skips).

(** The nodes come from entries. *)
Lemma collect_sound limit items : forall nodes dropped nodes' dropped', collect f limit nodes dropped items = inr (nodes', dropped') ->
  (forall n, n ∈ nodes' -> n ∈ nodes \/ exists x, x ∈ items /\ f x = inr (Take n)) /\
  (dropped.*1 ⊆ SKIP_LABELS -> dropped'.*1 ⊆ SKIP_LABELS).
Proof.
  induction items as [|x items IH]; intros nodes dropped nodes' dropped'; cbn [collect]; [intros [= <- <-]; split; [by left|done]|].
  destruct (f x) as [|[n|raw|]] eqn:Ef; [done| | |].
  - assert (forall n', n' ∈ nodes ++ [n] -> n' ∈ nodes \/ exists y, y ∈ x :: items /\ f y = inr (Take n')) as Hn.
    { intros n' [? | ->%list_elem_of_singleton]%elem_of_app; [by left|right]. exists x. split; [left|done]. }
    cbv zeta. destruct (reached _ _); [intros [= <- <-]; by split|]. intros Hc. destruct (IH _ _ _ _ Hc) as [H1 H2]. split; [|done].
    intros n' [? | (y & Hy & Hf)]%H1; [by apply Hn|right]. exists y. split; [by right|done].
  - intros Hc. destruct (IH _ _ _ _ Hc) as [H1 H2]. split.
    + intros n' [? | (y & Hy & Hf)]%H1; [by left|right]. exists y. split; [by right|done].
    + intros Hd. apply H2. unfold note_skip. intros k [-> | Hk]%count_label_keys%elem_of_cons; [apply skip_label_known|by apply Hd].
  - intros Hc. destruct (IH _ _ _ _ Hc) as [H1 H2]. split; [|done].
    intros n' [? | (y & Hy & Hf)]%H1; [by left|right]. exists y. split; [by right|done].
Qed.

Lemma collect_limit k items : forall nodes dropped nodes' dropped', (length nodes < k)%nat ->
  collect f (Some k) nodes dropped items = inr (nodes', dropped') -> (length nodes' <= k)%nat.
Proof.
  induction items as [|x items IH]; intros nodes dropped nodes' dropped' Hk; cbn [collect]; [intros [= <- <-]; lia|].
  destruct (f x) as [|[n|raw|]]; [done| |by apply IH|by apply IH]. cbv zeta. unfold reached.
  assert (length (nodes ++ [n]) = S (length nodes)) as Hl by (rewrite length_app; cbn; lia).
  destruct (k <=? length (nodes ++ [n]))%nat eqn:E; [intros [= <- <-]; lia|apply Nat.leb_gt in E; by apply IH].
Qed.

(** Every entry is a node, is counted, or is not one at all. *)
Definition counted (x : A) : bool := match f x with inr Ignore => false | _ => true end.
Lemma collect_counts items : forall nodes dropped nodes' dropped', collect f None nodes dropped items = inr (nodes', dropped') ->
  Z.of_nat (length nodes') + total dropped' = Z.of_nat (length nodes) + total dropped + Z.of_nat (length (List.filter counted items)).
Proof.
  induction items as [|x items IH]; intros nodes dropped nodes' dropped'; cbn [collect]; [intros [= <- <-]; cbn; lia|].
  cbn [List.filter]. unfold counted at 1. destruct (f x) as [|[n|raw|]]; [done| | |].
  - cbv zeta. cbn [reached]. intros ->%IH. rewrite length_app. cbn [length]. lia.
  - intros ->%IH. unfold note_skip. rewrite count_label_total. cbn [length]. lia.
  - by intros ->%IH.
Qed.
End collect.

(** * A node of a feed *)

(** What the rest of the panel may rely on. *)
Definition usable (n : node) : Prop :=
  normal n /\ 1 <= n_port n <= 65535 /\ n_id n = None /\ n_note n = "" /\ n_subscription_id n = None /\ n_tuning_profile_id n = None /\ n_position n = 0.
(** An address, and the credential of its protocol. *)
Definition credentialed (n : node) : Prop :=
  n_address n <> "" /\ (n_protocol n = "vless" -> n_uuid n <> "") /\ (n_protocol n <> "vless" -> n_password n <> "") /\
  (n_protocol n = "shadowsocks" -> n_method n ∈ SS_METHODS /\ ss_password_issue (n_method n) (n_password n) = None).
Lemma ss_usable_iff method password : ss_usable method password = true <-> method ∈ SS_METHODS /\ ss_password_issue method password = None.
Proof. unfold ss_usable. by rewrite andb_true_iff, !bool_decide_eq_true. Qed.

Lemma port_of_range v p : port_of v = Some p -> 1 <= p <= 65535.
Proof. destruct v as [[]|]; cbn [port_of]; try done; apply safe_port_range. Qed.

Section feed_node.
Context (name address : string) (port : Z) (uuid protocol password method transport sni pk sid fp flow network security path host mode alpn : string).
Notation n := (feed_node name address port uuid protocol password method transport sni pk sid fp flow network security path host mode alpn).

Lemma feed_node_usable : 1 <= port <= 65535 -> usable n.
Proof.
  intros Hp. split; [apply normalize_normal_aux|]. unfold feed_node.
  match goal with |- context [normalize ?m] => pose proof (normalize_owned m) as (-> & -> & _ & -> & -> & ->) end.
  split; [|done]. unfold normalize. repeat case_decide; exact Hp.
Qed.
Lemma feed_node_fields :
  n_name n = name /\ n_address n = address /\ n_uuid n = uuid /\ n_password n = password /\
  n_protocol n = (if decide (protocol ∈ PROTOCOLS) then protocol else "vless") /\ (method <> "" -> n_method n = method).
Proof. unfold feed_node, normalize. repeat case_decide; cbn in *; split_and!; try done; congruence. Qed.
Lemma feed_node_credentialed : protocol ∈ PROTOCOLS -> address <> "" -> (protocol = "vless" -> uuid <> "") ->
  (protocol <> "vless" -> password <> "") -> (protocol = "shadowsocks" -> ss_usable method password = true) -> credentialed n.
Proof.
  intros Hp Ha Hu Hw Hs. destruct feed_node_fields as (_ & Ea & Eu & Ew & Ep & Em). rewrite decide_True in Ep by done.
  unfold credentialed. rewrite Ea, Eu, Ew, Ep. split_and!; try done. intros E. specialize (Hs E). apply ss_usable_iff in Hs as [Hm Hi].
  assert (method <> "") as Hne by (intros ->; revert Hm; apply (bool_decide_unpack _); by vm_compute). by rewrite Em.
Qed.
End feed_node.

(** * [unquote] loses nothing *)

Lemma append_nonempty (a b : string) : a +:+ b = "" -> a = "" /\ b = "".
Proof. by destruct a. Qed.
Lemma utf8_blank s : forall p, utf8_replace p s = "" -> p = None /\ s = "".
Proof.
  induction s as [|c s IH]; intros p; cbn [utf8_replace]; [by destruct p|].
  set (start := if is_ascii c then _ else _).
  assert (start <> "") as Hs.
  { subst start. destruct (is_ascii c); [done|]. destruct (after_lead c) as [[[lo hi] more]|].
    - by intros [? _]%IH.
    - by intros [? _]%append_nonempty. }
  clearbody start. destruct p as [[[held [lo hi]] more]|]; [|done].
  destruct (in_range lo hi c); [|by intros [? _]%append_nonempty].
  destruct more; [by intros [_ [? _]%append_nonempty]%append_nonempty|]. by intros [? _]%IH.
Qed.
Lemma unquote_bytes_blank s : unquote_bytes s = "" -> s = "".
Proof.
  destruct s as [|c [|a [|b t]]]; cbn; try done. destruct (hex_val a), (hex_val b); try done. by case_bool_decide.
Qed.
Lemma unquote_blank s : unquote s = "" -> s = "".
Proof.
  unfold unquote. assert (forall run, unquote_runs run s = "" -> run = "" /\ s = "") as H; [|by intros []%H].
  induction s as [|c s IH]; intros run; cbn [unquote_runs].
  - by intros [_ ?%unquote_bytes_blank]%utf8_blank.
  - destruct (is_ascii c); [|by intros [_ ?]%append_nonempty]. intros [? _]%IH. by destruct run.
Qed.

(** * Properties *)

(** * One entry *)

Lemma link_parts_facts scheme uri u user addr port : link_parts scheme uri = Some (u, user, addr, port) -> user <> "" /\ addr <> "".
Proof.
  unfold link_parts. destruct (urlsplit uri) as [u'|]; [|done]. destruct (u_port u') as [[p|]|]; [|done..]. cbv zeta.
  destruct (bool_decide (u_scheme u' = scheme)); cbn [andb]; [|done].
  destruct (decide (default "" (u_username u') = "")) as [E|E]; [by rewrite bool_decide_true by done|].
  rewrite (bool_decide_false (default _ _ = "")) by done. cbn [negb andb]. case_bool_decide; cbn [negb]; [done|]. intros [= _ <- <- _]. done.
Qed.
Lemma vless_take uri n : parse_vless uri = Some n -> usable n /\ credentialed n.
Proof.
  unfold parse_vless. destruct (link_parts _ uri) as [[[[u user] addr] port]|] eqn:El; [|done]. apply link_parts_facts in El as [Hu Ha].
  cbv zeta. destruct (safe_port _ _) as [p|] eqn:Ep; [|done]. apply safe_port_range in Ep. intros [= <-]. split; [by apply feed_node_usable|].
  apply feed_node_credentialed; try done; [by left|]. by intros _ ?%unquote_blank.
Qed.
Lemma trojan_take uri n : parse_trojan uri = Some n -> usable n /\ credentialed n.
Proof.
  unfold parse_trojan. destruct (link_parts _ uri) as [[[[u user] addr] port]|] eqn:El; [|done]. apply link_parts_facts in El as [Hu Ha].
  cbv zeta. destruct (negb _); [done|]. destruct (safe_port _ _) as [p|] eqn:Ep; [|done]. apply safe_port_range in Ep. intros [= <-].
  split; [by apply feed_node_usable|]. apply feed_node_credentialed; try done; [by right; left|]. by intros _ ?%unquote_blank.
Qed.
Lemma ss_take uri n : parse_ss uri = inr (Some n) -> usable n /\ credentialed n.
Proof.
  unfold parse_ss. destruct (partition "#" _) as [[body0 hash] fragment]. destruct (partition "?" body0) as [[body1 mark] query].
  destruct (contains "plugin=" query); [done|]. destruct (if contains "@" body1 then _ else _) as [|body2]; [done|].
  destruct (rpartition "@" body2) as [[userinfo sep] hostport]. destruct (negb sep || _); [done|]. cbv zeta.
  destruct (if contains ":" _ then _ else _) as [|ui]; [done|]. destruct (partition ":" ui) as [[method sep'] password].
  destruct (decide (password = "")) as [->|Hw]; [by rewrite bool_decide_true, orb_true_r by done|].
  rewrite (bool_decide_false (password = "")) by done. rewrite orb_false_r. destruct (negb sep'); [done|].
  destruct (ss_usable (lower (strip method)) password) eqn:Eu; cbn [negb]; [|done].
  unfold ss_node. destruct (urlsplit _) as [u|]; [|done]. destruct (u_port u) as [[p|]|]; [|done..].
  case_bool_decide as Ha; [done|]. destruct (safe_port _ _) as [p'|] eqn:Ep; [|done]. apply safe_port_range in Ep. intros [= <-].
  split; [by apply feed_node_usable|]. apply feed_node_credentialed; try done. by right; right; left.
Qed.
Lemma take_inv o n : take_or_drop o = Take n -> o = Some n.
Proof. destruct o; [by intros [= ->]|done]. Qed.
Lemma line_take line n : read_line line = inr (Take n) -> usable n /\ credentialed n.
Proof.
  unfold read_line. cbv zeta. destruct (other_scheme _); [|done].
  repeat case_bool_decide; [intros [= ?%take_inv]; by eapply vless_take|intros [= ?%take_inv]; by eapply trojan_take| |done].
  destruct (parse_ss _) as [|o] eqn:E; [done|]. intros [= ->%take_inv]. by eapply ss_take.
Qed.

Lemma py_str_truthy v : jtruthy v = true -> py_str v <> "".
Proof.
  destruct v as [|[]|z|s|l|kvs]; try done; [|]; cbn; [intros _; apply str_int_nonempty|by case_bool_decide].
Qed.
Lemma item_take it n : read_item it = inr (Take n) -> usable n /\ credentialed n.
Proof.
  unfold read_item. destruct (is_obj it); cbn [negb]; [|done]. destruct (jget "address" it) as [a|] eqn:Ea; cbn [from_option id]; [|done].
  destruct (jtruthy a) eqn:Et; cbn [negb]; [|done]. cbv zeta. case_bool_decide as Hp; cbn [negb]; [|done].
  set (protocol := lower _) in *. set (uuid := get_str "uuid" "" it). set (password := get_str "password" "" it). set (method := lower (strip (get_str "method" "" it))).
  destruct (orb _ _) eqn:Ec; [done|]. apply orb_false_iff in Ec as [Ec Es].
  destruct (port_of _) as [p|] eqn:Ep; [|done]. apply port_of_range in Ep. intros [= <-].
  split; [by apply feed_node_usable|]. apply feed_node_credentialed; [done| | | |].
  - unfold get_str. rewrite Ea. by apply py_str_truthy.
  - intros E. rewrite bool_decide_true in Ec by done. by apply bool_decide_eq_false in Ec.
  - intros E. rewrite (bool_decide_false (protocol = "vless")) in Ec by done. by apply bool_decide_eq_false in Ec.
  - intros E. rewrite bool_decide_true in Es by done. cbn [andb] in Es. by destruct (ss_usable _ _).
Qed.

Lemma xray_credential_facts protocol settings server uuid flow password method : protocol ∈ PROTOCOLS ->
  xray_credential protocol settings = Some (server, (uuid, flow, password, method)) ->
  (protocol = "vless" -> uuid <> "") /\ (protocol <> "vless" -> password <> "") /\ (protocol = "shadowsocks" -> ss_usable method password = true).
Proof.
  intros Hp. unfold xray_credential. case_bool_decide as Hv.
  - destruct (first_dict _) as [sv|]; [|done]. destruct (first_dict _) as [us|]; [|done]. cbv zeta. case_bool_decide as Hi; [done|].
    intros [= _ <- _ _ _]. split_and!; [done|done|]. by intros ->.
  - destruct (first_dict _) as [sv|]; [|done]. cbv zeta. case_bool_decide as Hw; [done|]. case_bool_decide as Hs.
    + destruct (ss_usable _ _) eqn:Eu; [|done]. intros [= _ _ _ <- <-]. done.
    + intros [= _ _ _ <- <-]. done.
Qed.
Lemma config_take config n : read_config config = inr (Take n) -> usable n /\ credentialed n.
Proof.
  unfold read_config. destruct (if is_obj config then _ else _) as [|[outbound|]]; [done| |done].
  destruct (jget "protocol" outbound) as [[| | |protocol| |]|]; try done. case_bool_decide as Hp; [|done]. intros [= E%take_inv]. revert E.
  unfold xray_node. cbv zeta. destruct (xray_credential _ _) as [[server [[[uuid flow] password] method]]|] eqn:Ec; [|done].
  destruct (port_of _) as [p|] eqn:Ep; [|done]. apply port_of_range in Ep. destruct (assoc _ TRANSPORTS) as [transport|]; [|done].
  case_bool_decide as Ha; cbn [orb]; [done|]. destruct (andb _ _); [done|]. intros [= <-].
  apply xray_credential_facts in Ec as (Hu & Hw & Hs); [|done]. split; [by apply feed_node_usable|]. by apply feed_node_credentialed.
Qed.
Lemma proxy_take p n : read_proxy p = inr (Take n) -> usable n /\ (n_protocol n <> "vless" -> credentialed n).
Proof.
  unfold read_proxy. destruct (negb (is_obj p)); [done|]. cbv zeta. repeat case_bool_decide; [..|done]; intros [= E%take_inv]; revert E.
  - unfold clash_vless. destruct (opts_path_host p) as [path host]. destruct (port_of _) as [q|] eqn:Ep; [|done]. apply port_of_range in Ep. intros [= <-].
    split; [by apply feed_node_usable|]. intros Hv. exfalso. apply Hv, feed_node_fields.
  - unfold clash_trojan. cbv zeta. destruct (port_of _) as [q|] eqn:Ep; [|done]. apply port_of_range in Ep.
    case_bool_decide as Ha; cbn [orb]; [done|]. case_bool_decide as Hw; [done|]. destruct (negb _); [done|]. intros [= <-].
    split; [by apply feed_node_usable|]. intros _. apply feed_node_credentialed; try done. by right; left.
  - unfold clash_shadowsocks. cbv zeta. destruct (port_of _) as [q|] eqn:Ep; [|done]. apply port_of_range in Ep.
    case_bool_decide as Ha; cbn [orb]; [done|]. case_bool_decide as Hw; cbn [orb]; [done|]. destruct (jtruthy _); cbn [orb]; [done|].
    destruct (ss_usable _ _) eqn:Eu; cbn [negb]; [|done]. intros [= <-].
    split; [by apply feed_node_usable|]. intros _. apply feed_node_credentialed; try done. by right; right; left.
Qed.

(** * A feed *)

Section feed.
Context (json_loads : string -> option json) (yaml_load : string -> string + json).
Notation parse_subscription := (parse_subscription json_loads yaml_load).
Notation detect := (detect json_loads).

(** The loop a body is read with. *)
Inductive reads (body : string) (limit : option nat) (r : list node * skips) : Prop :=
  | reads_xray data : sniff_json json_loads (strip body) = Some data -> looks_like data = true ->
      collect read_config limit [] [] (items_of data) = inr r -> reads body limit r
  | reads_json data items : sniff_json json_loads (strip body) = Some data -> looks_like data = false -> json_items data = inr items ->
      collect read_item limit [] [] items = inr r -> reads body limit r
  | reads_clash data items : sniff_json json_loads (strip body) = None -> contains "proxies:" (strip body) = true ->
      yaml_load (strip body) = inr data -> clash_proxies data = inr items -> collect read_proxy limit [] [] items = inr r -> reads body limit r
  | reads_links lines : sniff_json json_loads (strip body) = None -> contains "proxies:" (strip body) = false -> link_lines (strip body) = inr lines ->
      collect read_line limit [] [] lines = inr r -> reads body limit r.
Lemma parse_reads body limit r : parse_subscription body limit = inr r -> reads body limit r.
Proof.
  unfold Feed.parse_subscription. destruct (sniff_json _ _) as [data|] eqn:Es.
  - unfold parse_obj. destruct (looks_like data) eqn:El; [by apply (reads_xray _ _ _ data)|].
    destruct (json_items data) as [|items] eqn:Ei; [done|]. by eapply reads_json.
  - destruct (contains _ _) eqn:Ec.
    + unfold parse_clash. destruct (yaml_load _) as [|data] eqn:Ey; [done|]. destruct (clash_proxies data) as [|items] eqn:Ei; [done|]. by eapply reads_clash.
    + unfold parse_links_feed. destruct (link_lines _) as [|lines] eqn:El; [done|]. by eapply reads_links.
Qed.

(** What one of the four loops did. *)
Lemma parsed_by body limit r : parse_subscription body limit = inr r ->
  exists A (f : A -> string + verdict) items, collect f limit [] [] items = inr r /\
    forall x n, f x = inr (Take n) -> usable n /\ (detect body <> "clash" \/ n_protocol n <> "vless" -> credentialed n).
Proof.
  intros Hp. apply parse_reads in Hp. unfold Feed.detect.
  destruct Hp as [data Es El Hc|data items Es El Hi Hc|data items Es Ec _ _ Hc|lines Es Ec _ Hc]; rewrite Es, ?El, ?Ec.
  - exists json, read_config, (items_of data). split; [done|]. intros x n [? ?]%config_take. auto.
  - exists json, read_item, items. split; [done|]. intros x n [? ?]%item_take. auto.
  - exists json, read_proxy, items. split; [done|]. intros x n [? Hv]%proxy_take. split; [done|]. intros []; auto.
  - exists string, read_line, lines. split; [done|]. intros x n [? ?]%line_take. auto.
Qed.
Lemma parsed_nodes body limit nodes dropped : parse_subscription body limit = inr (nodes, dropped) ->
  dropped.*1 ⊆ SKIP_LABELS /\ forall n, n ∈ nodes -> usable n /\ (detect body <> "clash" \/ n_protocol n <> "vless" -> credentialed n).
Proof.
  intros (A & f & items & Hc & Hf)%parsed_by. apply collect_sound in Hc as [Hn Hd]. split; [apply Hd; set_solver|].
  intros n [?%not_elem_of_nil | (x & _ & ?)]%Hn; [done|by eapply Hf].
Qed.

(** C17: whatever a provider sends, the nodes that come out of its feed are normalised (so no VLESS
    or trojan node without TLS or Reality, no other protocol, no owned column set), have a port an
    xray accepts, and carry an address and the credential of their protocol, with a cipher and key
    xray builds; only a VLESS entry of a clash feed may lack them.  There are never more of them
    than asked for, and the counts of dropped entries are kept under the panel's own labels. *)
Theorem feed_nodes_usable body limit nodes dropped : parse_subscription body (Some limit) = inr (nodes, dropped) -> (0 < limit)%nat ->
  (length nodes <= limit)%nat /\ dropped.*1 ⊆ SKIP_LABELS /\
  forall n, n ∈ nodes -> usable n /\ (detect body <> "clash" \/ n_protocol n <> "vless" -> credentialed n).
Proof.
  intros Hp Hl. split; [|by eapply parsed_nodes]. apply parsed_by in Hp as (A & f & items & Hc & _). by eapply collect_limit; [|exact Hc].
Qed.

(** The entries of a body: every item of a JSON or clash list, every line that is a share link. *)
Definition size {A} (r : string + list A) : nat := match r with inr l => length l | inl _ => 0%nat end.
Definition is_link (line : string) : bool := bool_decide (is_Some (other_scheme (strip line))).
Definition entries (body : string) : nat :=
  let text := strip body in
  match sniff_json json_loads text with
  | Some data => if looks_like data then length (items_of data) else size (json_items data)
  | None =>
      if contains "proxies:" text then match yaml_load text with inr data => size (clash_proxies data) | inl _ => 0%nat end
      else match link_lines text with inr lines => length (List.filter is_link lines) | inl _ => 0%nat end
  end.
Lemma filter_all {A} (p : A -> bool) l : (forall x, p x = true) -> List.filter p l = l.
Proof. intros Hp. induction l as [|x l IH]; cbn; [done|]. by rewrite Hp, IH. Qed.

(** no entry of a feed disappears: without a limit, the nodes and the dropped entries together
    are exactly the entries of the body. *)
Theorem feed_entries_accounted body nodes dropped : parse_subscription body None = inr (nodes, dropped) ->
  Z.of_nat (length nodes) + total dropped = Z.of_nat (entries body).
Proof.
  intros Hp. apply parse_reads in Hp. unfold entries.
  assert (forall A (f : A -> string + verdict) items, (forall x, f x <> inr Ignore) -> collect f None [] [] items = inr (nodes, dropped) ->
    Z.of_nat (length nodes) + total dropped = Z.of_nat (length items)) as Hall.
  { intros A f items Hf ->%collect_counts. cbn. rewrite filter_all; [lia|]. intros x. specialize (Hf x). unfold counted. by repeat case_match. }
  destruct Hp as [data Es El Hc|data items Es El Hi Hc|data items Es Ec Ey Hi Hc|lines Es Ec Hi Hc]; rewrite Es, ?El, ?Ec, ?Ey, ?Hi; cbn [size].
  - apply (Hall _ read_config); [|done]. intros x. unfold read_config, take_or_drop. by repeat case_match.
  - apply (Hall _ read_item); [|done]. intros x. unfold read_item. cbv zeta. by repeat case_match.
  - apply (Hall _ read_proxy); [|done]. intros x. unfold read_proxy, take_or_drop. cbv zeta. by repeat case_match.
  - apply collect_counts in Hc as ->. change (Z.of_nat (length (List.filter (counted read_line) lines)) = Z.of_nat (length (List.filter is_link lines))).
    f_equal. clear. induction lines as [|l lines IH]; cbn [List.filter]; [done|].
    assert (counted read_line l = is_link l) as ->; [|destruct (is_link l); cbn [length]; by rewrite ?IH].
    unfold counted, read_line, is_link. cbv zeta. destruct (other_scheme (strip l)) as [sch|]; [|done].
    rewrite (bool_decide_true (is_Some (Some sch))) by done. unfold take_or_drop. by repeat case_match.
Qed.
End feed.

(** * What a backup takes of it *)

(** The fields of a node as the backup document declares them. *)
Record fits (n : node) : Prop := {
  fit_credential : credentialed n;
  fit_name : n_name n <> "";
  fit_transport : n_transport n ∈ ["vision"; "xhttp"];
  fit_method : (String.length (n_method n) <= 64)%nat;
  fit_fingerprint : (String.length (n_fingerprint n) <= 32)%nat;
  fit_flow : (String.length (n_flow n) <= 64)%nat;
  fit_mode : (String.length (n_mode n) <= 64)%nat;
  fit_alpn : (String.length (n_alpn n) <= 128)%nat
}.
(** The row a refresh writes for the node [n] of a feed. *)
Definition stored (i sub : Z) (stale : bool) (pos : Z) (prof : option Z) (n : node) : node :=
  with_owned (Some i) (Some sub) stale pos prof "" (clamp_node_fields n).

Lemma check_fields_all l : check_fields l = inr tt <-> forallb snd l = true.
Proof.
  unfold check_fields. induction l as [|[loc b] l IH]; cbn [efor forallb snd]; [done|]. destruct b; cbn [ebind andb]; [exact IH|done].
Qed.
Lemma most_iff k s : most k s = true <-> (String.length s <= k)%nat.
Proof. apply Nat.leb_le. Qed.
Lemma one_of_iff l s : one_of l s = true <-> s ∈ l.
Proof. unfold one_of. apply bool_decide_eq_true. Qed.
Lemma clamp_most attr k s : (limit_of attr <= k)%nat -> most k (clamp attr s) = true.
Proof. intros Hk. apply most_iff. pose proof (str_take_length (limit_of attr) s). unfold clamp. lia. Qed.
Lemma required_credential_iff i n :
  required_credential (BackupNode i n) = inr tt <->
  (n_protocol n = "vless" -> n_uuid n <> "") /\ (n_protocol n <> "vless" -> n_password n <> "") /\
  (n_protocol n = "shadowsocks" -> n_method n ∈ SS_METHODS /\ ss_password_issue (n_method n) (n_password n) = None).
Proof.
  unfold required_credential. cbn [bn_node]. repeat case_bool_decide; cbn [ebind negb andb]; try naive_solver.
  all: destruct (ss_password_issue _ _); naive_solver.
Qed.

(** The fields of [stored] that the panel bounds or decides itself. *)
Lemma bounded_fields n : usable n -> forall hi, (253 <= hi)%nat ->
  let c := clamp_node_fields n in
  most 512 (n_name c) = true /\ most hi (n_address c) = true /\ most 512 (n_uuid c) = true /\ most 512 (n_password c) = true /\
  most hi (n_sni c) = true /\ most 512 (n_public_key c) = true /\ most 512 (n_short_id c) = true /\ most 512 (n_path c) = true /\
  most hi (n_host c) = true /\ most 32 (n_network c) = true /\ most 32 (n_security c) = true /\
  one_of ["vless"; "trojan"; "shadowsocks"] (n_protocol c) = true /\ (1 <=? n_port c) && (n_port c <=? 65535) = true.
Proof.
  intros [Hn [Hp _]] hi Hhi c. pose proof (clamp_normal _ Hn) as Hc. fold c in Hc.
  assert (n_port c = n_port n) as -> by done.
  assert (most 32 (n_network c) = true) as ->.
  { destruct Hc as (Hpr & _ & H1 & H2). destruct (decide (n_protocol c = "vless")) as [E|E].
    - destruct (H2 E) as [(_ & -> & _)|(_ & -> & _)]; done.
    - destruct (H1 E) as (_ & -> & _). done. }
  assert (most 32 (n_security c) = true) as ->.
  { destruct Hc as (_ & Hs & _). destruct (decide _); [by destruct Hs as [-> _]|]. destruct Hs as [[-> _]| ->]; done. }
  split_and!; try done; try (apply clamp_most; vm_compute limit_of; lia).
  - apply one_of_iff, Hc.
  - apply andb_true_iff. split; lia.
Qed.

Lemma stored_fields_iff n i sub stale pos prof : usable n -> 0 < i -> 0 < sub -> from_option (fun z => 0 < z) True prof ->
  0 <= pos <= Z.of_nat MAX_NODES ->
  let c := clamp_node_fields n in
  check_fields (node_fields (BackupNode i (stored i sub stale pos prof n))) = inr tt <->
    n_name c <> "" /\ n_address c <> "" /\ (String.length (n_method c) <= 64)%nat /\ n_transport c ∈ ["vision"; "xhttp"] /\
    (String.length (n_fingerprint c) <= 32)%nat /\ (String.length (n_flow c) <= 64)%nat /\ (String.length (n_mode c) <= 64)%nat /\
    (String.length (n_alpn c) <= 128)%nat.
Proof.
  intros Hu Hi Hs Hf [Hp0 Hp1] c. rewrite check_fields_all. unfold node_fields, stored, with_owned.
  cbn [bn_id bn_node forallb snd n_name n_address n_port n_uuid n_protocol n_password n_method n_transport n_sni n_public_key n_short_id n_fingerprint
    n_flow n_network n_security n_path n_host n_mode n_alpn n_note n_subscription_id n_tuning_profile_id n_position].
  change (positive_or_none (Some sub)) with (0 <? sub).
  fold c. pose proof (bounded_fields n Hu 253%nat ltac:(done)) as Hb. cbv zeta in Hb. fold c in Hb.
  destruct Hb as (B1 & B2 & B3 & B4 & B5 & B6 & B7 & B8 & B9 & B10 & B11 & B12 & B13).
  assert (positive_or_none prof = true) as Hprof by (destruct prof; [by apply Z.ltb_lt|done]).
  apply Z.ltb_lt in Hi, Hs. apply Z.leb_le in Hp0, Hp1.
  unfold between. rewrite B1, B2, B3, B4, B5, B6, B7, B8, B9, B10, B11, B12, B13, Hprof, Hi, Hs, Hp0, Hp1, !andb_true_r, !andb_true_l.
  change (most 512 "") with true. cbn [andb]. rewrite !andb_true_iff, !most_iff, one_of_iff.
  assert (forall t, (1 <=? String.length t)%nat = true <-> t <> "") as Hne by (intros t; rewrite Nat.leb_le; destruct t; cbn; split; try done; lia).
  rewrite !Hne. tauto.
Qed.

Lemma accepted_fits n i sub stale pos prof : usable n -> 0 < i -> 0 < sub -> from_option (fun z => 0 < z) True prof ->
  0 <= pos <= Z.of_nat MAX_NODES ->
  validate_node (BackupNode i (stored i sub stale pos prof n)) = inr tt -> fits (clamp_node_fields n).
Proof.
  intros Hu Hi Hs Hf Hpos H. apply ebind_inr in H as ([] & Hf' & Hr). apply (stored_fields_iff n) in Hf'; [|done..].
  apply required_credential_iff in Hr. cbv zeta in Hf'. destruct Hf' as (? & ? & ? & ? & ? & ? & ? & ?).
  split; [by split; [|exact Hr]|done..].
Qed.

(** of the nodes a feed yields, a backup takes exactly those that have an address, a name and
    the credential of their protocol, a transport the panel knows, and a method, fingerprint, flow,
    mode and ALPN within the limits of the document, which are shorter than the ones a refresh
    clamps to. *)
Theorem backup_takes_node n i sub stale pos prof : usable n -> 0 < i -> 0 < sub -> from_option (fun z => 0 < z) True prof ->
  0 <= pos <= Z.of_nat MAX_NODES ->
  validate_node (BackupNode i (stored i sub stale pos prof n)) = inr tt <-> fits (clamp_node_fields n).
Proof.
  intros Hu Hi Hs Hf Hpos. split; [by apply accepted_fits|]. intros [[Ha Hcred] H1 H2 H3 H4 H5 H6 H7].
  unfold validate_node. rewrite (proj2 (stored_fields_iff n i sub stale pos prof Hu Hi Hs Hf Hpos)) by (split_and!; done).
  apply required_credential_iff. exact Hcred.
Qed.

Lemma refused_row json_loads json_compact now i n x : n_id n = Some i -> n ∈ list_nodes x -> validate_node (BackupNode i n) <> inr tt ->
  exists r, validate_document json_loads json_compact true (stamped now (export_state x)) None None = inl r.
Proof.
  intros Hi Hn Hv. destruct (validate_document _ _ _ _ _ _) as [r|doc'] eqn:E; [by exists r|]. exfalso. apply Hv.
  apply validated_inr in E as [Hf _]. unfold validate_fields in Hf. apply ebind_inr in Hf as ([] & _ & Hf), Hf as ([] & Hf & _).
  assert (export_node n = BackupNode i n) as <- by (unfold export_node; by rewrite Hi).
  apply (efor_inr _ _ Hf). by apply list_elem_of_fmap_2.
Qed.

(** C18: one entry of a feed can stop every backup and restore of the box: when a refresh has stored
    a node that is not within the limits of the backup document, the snapshot taken before a restore
    and the daily backup both fail, and write nothing. *)
Theorem feed_stops_backups json_loads yaml_load json_compact show body limit nodes dropped n x i sub stale pos prof :
  parse_subscription json_loads yaml_load body limit = inr (nodes, dropped) -> n ∈ nodes -> ~ fits (clamp_node_fields n) ->
  stored i sub stale pos prof n ∈ list_nodes x ->
  0 < i -> 0 < sub -> from_option (fun z => 0 < z) True prof -> 0 <= pos <= Z.of_nat MAX_NODES ->
  forall a keep d, (exists e, write_pre_restore_snapshot json_loads json_compact show a x d = (inl e, d)) /\
    (get_setting "auto_backup_enabled" x = Some "1" -> exists e, run_once json_loads json_compact show a keep x d = (inl e, x, d)).
Proof.
  intros [_ Hu]%parsed_nodes Hn Hf Hx Hi Hs Hp Hpos a keep d. apply Hu in Hn as [Hn _].
  assert (validate_node (BackupNode i (stored i sub stale pos prof n)) <> inr tt) as Hv by (intros Hv; by apply accepted_fits in Hv).
  destruct (refused_row json_loads json_compact (da_now a) i (stored i sub stale pos prof n) x eq_refl Hx Hv) as [r Hr].
  unfold write_pre_restore_snapshot, run_once. rewrite Hr. split; [by eexists|]. intros ->. by eexists.
Qed.

(** * Examples *)

Module FeedDemo.
Definition loads (_ : string) : option json := None.
Definition yaml (_ : string) : string + json := inr JNull.
Definition compact (_ : json) : string := "".
Definition show (_ : refusal) : string := "refused".
Definition LF : string := String "010"%char "".

(** A link, free text, another scheme, and a link without an address. *)
Definition demo_body : string :=
  "vless://1d9b8d1e-0000-4000-8000-000000000001@de.example.net:443?type=tcp&security=reality&pbk=KEY&sid=ab&sni=cdn.example.net#DE%20one" +:+ LF +:+
  "renew before friday" +:+ LF +:+ "vmess://eyJhZGQiOiJ4In0=" +:+ LF +:+ "trojan://secret@:443".
Definition demo_nodes : list node := match parse_subscription loads yaml demo_body (Some 10%nat) with inr (l, _) => l | _ => [] end.
Lemma demo_parse : parse_subscription loads yaml demo_body (Some 10%nat) = inr (demo_nodes, [("vmess", 1); ("invalid", 1)]).
Proof. by vm_compute. Qed.
Definition demo_node : node := from_option id (mk_node "" "" 0 "") (head demo_nodes).
Lemma demo_in : demo_node ∈ demo_nodes.
Proof. assert (demo_nodes = [demo_node]) as -> by (by vm_compute). by left. Qed.
Lemma demo_fields : (fun n => (n_name n, n_address n, n_security n, n_flow n)) <$> demo_nodes = [("DE one", "de.example.net", "reality", "xtls-rprx-vision")].
Proof. by vm_compute. Qed.

Lemma feed_nodes_usable_witness : (length demo_nodes <= 10)%nat.
Proof. refine (proj1 (feed_nodes_usable loads yaml demo_body 10 demo_nodes _ demo_parse _)). lia. Defined.
Lemma feed_entries_accounted_witness : Z.of_nat (entries loads yaml demo_body) = 3.
Proof.
  rewrite <-(feed_entries_accounted loads yaml demo_body demo_nodes [("vmess", 1); ("invalid", 1)]); [by vm_compute|]. by vm_compute.
Defined.

(** A link whose fingerprint is one character longer than a backup allows. *)
Definition long_body : string :=
  "vless://1d9b8d1e-0000-4000-8000-000000000001@de.example.net:443?pbk=KEY&fp=chromechromechromechromechromechr#DE".
Definition long_nodes : list node := match parse_subscription loads yaml long_body None with inr (l, _) => l | _ => [] end.
Definition long_node : node := from_option id (mk_node "" "" 0 "") (head long_nodes).
Definition box : db :=
  set_settings {["auto_backup_enabled" := "1"]} (set_nodes {[3 := stored 3 1 false 0 None long_node]} empty_db).
Lemma long_parse : parse_subscription loads yaml long_body None = inr ([long_node], []).
Proof. by vm_compute. Qed.
Lemma long_unfit : ~ fits (clamp_node_fields long_node).
Proof. intros [_ _ _ _ H _ _ _]. revert H. vm_compute. lia. Qed.

Lemma backup_takes_node_witness : validate_node (BackupNode 3 (stored 3 1 false 0 None demo_node)) = inr tt.
Proof.
  refine (proj2 (backup_takes_node demo_node 3 1 false 0 None _ _ _ I _) _); [|lia..|].
  - destruct (parsed_nodes loads yaml demo_body _ _ _ demo_parse) as [_ H]. apply H, demo_in.
  - assert (bool_decide (n_address (clamp_node_fields demo_node) <> "" /\ n_uuid (clamp_node_fields demo_node) <> "" /\
      n_protocol (clamp_node_fields demo_node) = "vless" /\ n_name (clamp_node_fields demo_node) <> "" /\
      n_transport (clamp_node_fields demo_node) ∈ ["vision"; "xhttp"]) = true) as (Ha & Hu & Hp & Hm & Ht)%bool_decide_eq_true by (by vm_compute).
    split; [split; [done|split; [done|by rewrite Hp]]|done|done|apply (bool_decide_unpack _); by vm_compute..].
Defined.
Lemma long_in : long_node ∈ [long_node].
Proof. by left. Qed.
Lemma box_row : stored 3 1 false 0 None long_node ∈ list_nodes box.
Proof. apply (bool_decide_unpack _). by vm_compute. Qed.
Lemma box_on : get_setting "auto_backup_enabled" box = Some "1".
Proof. by vm_compute. Qed.
Lemma in_range_demo : 0 <= 0 <= Z.of_nat MAX_NODES.
Proof. vm_compute. split; discriminate. Qed.
Definition answers : disk_answers := DiskAnswers 100 100 [] WriteDone true (fun _ => None) (fun _ => false).
Lemma feed_stops_backups_witness : exists e, run_once loads compact show answers 7 box ∅ = (inl e, box, ∅).
Proof.
  exact (proj2 (feed_stops_backups loads yaml compact show long_body None [long_node] [] long_node box 3 1 false 0 None
    long_parse long_in long_unfit box_row eq_refl eq_refl I in_range_demo answers 7%nat ∅) box_on).
Defined.
End FeedDemo.
