(* ===== verification/Inject.v ===== *)
(** The request a feed is asked for with: [subs/inject.py], the configured headers and query with
    their tokens, and the tokens themselves.  HMAC-SHA-256 (its 32 bytes) and what the platform
    says of itself are parameters. *)
From Stdlib Require Import ZArith Lia Ascii.
From stdpp Require Import base gmap strings list.
From S2P Require Import Prelude PyStr Models Json Records Ledgers Linux Uri Feed.
Open Scope string_scope.
Open Scope list_scope.
Open Scope Z_scope.

Notation headers := (list (string * string)).

(** * Templates *)

Definition subst_tokens (value : string) (tokens : headers) : string :=
  foldl (fun out kv => str_replace ("{" +:+ kv.1 +:+ "}") kv.2 out) value tokens.
Definition line_break (c : ascii) : bool := bool_decide (c = CR) || bool_decide (c = LF).
Definition no_crlf (value : string) : string := str_filter (fun c => negb (line_break c)) value.

(** [d.get(k) or {}] where only a dict has [.items()]. *)
Definition items (k : string) (d : json) : string + list (string * json) :=
  match get_or k d (JObj []) with
  | JObj kvs => inr kvs
  | JArr _ => inl "'list' object has no attribute 'items'"
  | JStr _ => inl "'str' object has no attribute 'items'"
  | JNum _ => inl "'int' object has no attribute 'items'"
  | _ => inl "'bool' object has no attribute 'items'"
  end.
(** A dict comprehension: a key that comes again keeps its place. *)
Definition dict_from {A} (f : A -> string * string) (l : list A) : headers := foldl (fun d a => kv_set (f a).1 (f a).2 d) [] l.

(** * [urlencode] *)

Definition hex_upper (n : N) : ascii := if (n <? 10)%N then ascii_of_N (48 + n) else ascii_of_N (55 + n).
Definition unreserved (c : ascii) : bool :=
  is_alpha c || is_digit c || bool_decide (c = "_"%char) || bool_decide (c = "."%char) || bool_decide (c = "-"%char) || bool_decide (c = "~"%char).
Fixpoint quote_plus (s : string) : string :=
  match s with
  | EmptyString => ""
  | String c s' =>
      if unreserved c then String c (quote_plus s')
      else if bool_decide (c = " "%char) then String "+" (quote_plus s')
      else String "%" (String (hex_upper (code c / 16)%N) (String (hex_upper (code c mod 16)%N) (quote_plus s')))
  end.
Definition urlencode (query : headers) : string := join "&" ((fun kv => quote_plus kv.1 +:+ "=" +:+ quote_plus kv.2) <$> query).

(** * The request *)

Record built := BuiltRequest { br_url : string; br_headers : headers; br_query : headers }.
Definition BAD_URL : string := "Invalid IPv6 URL".
Definition build_request (url : string) (injection : json) (tokens : headers) : string + built :=
  let? hs := items "headers" injection in
  let headers := dict_from (fun kv => (no_crlf kv.1, no_crlf (subst_tokens (py_str kv.2) tokens))) hs in
  let? qs := items "query" injection in
  let query := dict_from (fun kv => (kv.1, subst_tokens (py_str kv.2) tokens)) qs in
  if bool_decide (length query = 0%nat) then inr (BuiltRequest url headers query)
  else match urlsplit url with
       | None => inl BAD_URL
       | Some u =>
           let sep := if bool_decide (u_query u = "") then "?" else "&" in
           inr (BuiltRequest (url +:+ sep +:+ urlencode query) headers query)
       end.

Definition default_injection : json :=
  JObj [("headers", JObj [("x-hwid", JStr "{machine_id}"); ("x-device-os", JStr "{device_os}"); ("user-agent", JStr "v2pi/1.0")]); ("query", JObj [])].

(** * Tokens *)

Record platform := Platform { pf_system : string; pf_release : string; pf_machine : string }.
Definition HWID_ALPHABET : string := "abcdefghijklmnopqrstuvwxyz0123456789".
Definition hwid_char (b : ascii) : ascii := default "a"%char (String.get (N.to_nat (code b mod 36)) HWID_ALPHABET).
Definition hex_lower (n : N) : ascii := if (n <? 10)%N then ascii_of_N (48 + n) else ascii_of_N (87 + n).
Fixpoint hexdigest (s : string) : string :=
  match s with EmptyString => "" | String c s' => String (hex_lower (code c / 16)%N) (String (hex_lower (code c mod 16)%N) (hexdigest s')) end.

Section tokens.
Context (hmac : string -> string -> string) (here : platform).
Definition host_tokens (machine_id app_secret : string) (subscription_id : option Z) : headers :=
  let subject := match subscription_id with Some i => str_int i | None => "preview" end in
  let key := if negb (bool_decide (app_secret = "")) && negb (bool_decide (app_secret = "dev-insecure-secret")) then app_secret else machine_id in
  let pseudonym := str_take 32 (hexdigest (hmac key subject)) in
  let hwid16 := str_map hwid_char (str_take 16 (hmac key ("hwid16:" +:+ subject))) in
  let machine := lower (pf_machine here) in
  [("machine_id", pseudonym); ("hwid16", hwid16); ("device_os", lower (pf_system here)); ("device_ver", before_first "." (pf_release here));
   ("device_model", if startswith machine "arm" || startswith machine "aarch" then "arm" else "other");
   ("host_machine_id", machine_id); ("host_device_ver", pf_release here); ("host_device_model", pf_machine here)].
End tokens.

(** * What a request cannot carry *)

Definition one_line (s : string) : bool := str_all (fun c => negb (line_break c)) s.
Lemma no_crlf_one_line s : one_line (no_crlf s) = true.
Proof. unfold one_line, no_crlf. induction s as [|c s IH]; cbn; [done|]. destruct (line_break c) eqn:E; cbn; rewrite ?E; cbn; done. Qed.
Lemma kv_set_keys {V} k (v : V) l kv : kv ∈ kv_set k v l -> kv.2 = v /\ kv.1 = k \/ kv ∈ l.
Proof.
  induction l as [|[k' v'] l IH]; cbn [kv_set]; [intros ->%list_elem_of_singleton; by left|].
  case_decide as E; intros [-> | H]%elem_of_cons; [left; by subst|right; by right|right; by left|destruct (IH H); [by left|right; by right]].
Qed.
Lemma dict_from_elem {A} (f : A -> string * string) l kv : kv ∈ dict_from f l -> exists a b, a ∈ l /\ b ∈ l /\ kv = ((f a).1, (f b).2).
Proof.
  unfold dict_from. assert (forall d, kv ∈ foldl (fun d a => kv_set (f a).1 (f a).2 d) d l ->
    kv ∈ d \/ exists a b, a ∈ l /\ b ∈ l /\ kv = ((f a).1, (f b).2)) as H.
  { induction l as [|x l IH]; intros d; cbn; [by left|]. intros [Hd | (a & b & Ha & Hb & ->)]%IH.
    - destruct (kv_set_keys _ _ _ _ Hd) as [[E1 E2]|]; [|by left]. right. exists x, x. split_and!; [by left..|]. destruct kv; cbn in *; congruence.
    - right. exists a, b. split_and!; [by right..|done]. }
  intros [?%not_elem_of_nil | ?]%H; done.
Qed.
(** No header of a request, name or value, has a line break in it, whatever the templates hold. *)
Lemma build_request_lines url injection tokens b : build_request url injection tokens = inr b ->
  forall kv, kv ∈ br_headers b -> one_line kv.1 = true /\ one_line kv.2 = true.
Proof.
  unfold build_request. destruct (items "headers" injection) as [|hs]; [done|]. cbv zeta. destruct (items "query" injection) as [|qs]; [done|].
  intros Hb kv Hkv. assert (br_headers b = dict_from (fun kv => (no_crlf kv.1, no_crlf (subst_tokens (py_str kv.2) tokens))) hs) as E.
  { revert Hb. case_bool_decide; [by intros [= <-]|]. destruct (urlsplit url); [by intros [= <-]|done]. }
  rewrite E in Hkv. apply dict_from_elem in Hkv as (x & y & _ & _ & ->). split; apply no_crlf_one_line.
Qed.
