(* ===== verification/Fetch.v ===== *)
(** The HTTP client of [subs/fetcher.py]: resolution with every address checked, the pinned
    connection (direct, or a CONNECT through a proxy), the request text, the bounded and complete
    body, redirects with the headers and cookies that may follow them.

    What the network answers is given per hop of a request: the resolver, the connection, the
    proxy, the TLS handshake and the server, each free to depend on what it was asked; a failure
    carries the text of the exception, deadlines included.  [ip_kind] is the classification of
    [ipaddress], [idna] the codec of that name, [codec] the others, [gunzip] [zlib]'s bounded
    decompression, [cookie_pairs] [SimpleCookie.load] and [urljoin] the function of [urllib]. *)
From Stdlib Require Import ZArith Lia Ascii.
From stdpp Require Import base gmap strings list.
From S2P Require Import Prelude PyStr Ip IpText Models Json Records Ledgers Linux Uri Feed Inject.
Open Scope string_scope.
Open Scope list_scope.
Open Scope Z_scope.

Definition ALLOWED_SCHEMES : list string := ["http"; "https"].
Definition ALLOW_LOOPBACK : bool := false.
Definition MAX_BYTES : nat := Z.to_nat 1048576.
Definition MAX_REDIRECTS : nat := 5.
Definition SAFE_CROSS_ORIGIN_HEADERS : list string := ["user-agent"; "accept"; "accept-language"; "accept-encoding"; "host"; "connection"].
Definition ALLOWED_CHARSETS : list string :=
  ["utf-8"; "utf8"; "ascii"; "us-ascii"; "iso-8859-1"; "iso8859-1"; "latin-1"; "latin1"; "windows-1250"; "cp1250"; "windows-1251"; "cp1251";
   "windows-1252"; "cp1252"; "utf-16"; "utf-16le"; "utf-16be"; "gbk"; "gb2312"; "gb18030"; "big5"; "shift_jis"; "sjis"; "euc-jp"; "euc-kr"; "koi8-r"].

(** * Addresses *)

(** An address of [ipaddress], with the scope id of an IPv6 one. *)
Record ip := Addr { ip_version : Z; ip_value : Z; ip_scope : option string }.
#[export] Instance ip_eq_dec : EqDecision ip.
Proof. solve_decision. Defined.
Definition parse_ip (s : string) : option ip :=
  match ip_address s with
  | Some (v, a) => Some (Addr v a (if v =? 6 then (partition_pct s).2 else None))
  | None => None
  end.
Definition ip_text (a : ip) : string := addr_str (ip_version a) (ip_value a) +:+ match ip_scope a with Some z => "%" +:+ z | None => "" end.
(** The properties of an address [_ip_blocked] asks for. *)
Record kind := Kind {
  is_loopback : bool; is_private : bool; is_link_local : bool; is_reserved : bool; is_multicast : bool; is_unspecified : bool
}.

(** What the resolver answers: addresses as texts, no answer in time, or an exception. *)
Inductive dns_answer := Resolved (texts : list string) | DnsTimeout | DnsOSError (exc : string) | DnsRaises (exc : string).

Definition bracket (c : ascii) : bool := bool_decide (c = "["%char) || bool_decide (c = "]"%char).
Fixpoint rstrip_by (p : ascii -> bool) (s : string) : string :=
  match s with
  | EmptyString => ""
  | String c s' => let r := rstrip_by p s' in if bool_decide (r = "") && p c then "" else String c r
  end.
Definition strip_by (p : ascii -> bool) (s : string) : string := rstrip_by p (lstrip_by p s).

Definition NOT_PUBLIC : string := "subscription URL resolves to a non-public (internal) address".
Definition UNRESOLVED : string := "subscription host could not be resolved".
Definition DNS_DEADLINE : string := "subscription DNS deadline exceeded".
Definition DEADLINE : string := "subscription fetch deadline exceeded".

(** * Headers *)

Definition header_all (hs : headers) (name : string) : list string :=
  (filter (fun kv : string * string => lower kv.1 = lower name) hs).*2.
Definition header (hs : headers) (name : string) : option string := head (header_all hs name).
Definition authority (host : string) (port : Z) (scheme : string) : string :=
  let rendered := if contains ":" host && negb (startswith host "[") then "[" +:+ host +:+ "]" else host in
  if port =? (if bool_decide (scheme = "https") then 443 else 80) then rendered else rendered +:+ ":" +:+ str_int port.
Definition cross_origin_headers (hs : headers) : headers := filter (fun kv : string * string => lower kv.1 ∈ SAFE_CROSS_ORIGIN_HEADERS) hs.
Notation origin := (string * string * Z)%type.
Definition credentials_travel (home hop : origin) : bool :=
  let '(scheme, host, port) := home in
  let '(hop_scheme, hop_host, hop_port) := hop in
  if negb (bool_decide (host = hop_host)) then false
  else if bool_decide (scheme = hop_scheme) then port =? hop_port
  else bool_decide ((scheme, port, hop_scheme, hop_port) = ("http", 80, "https", 443)).

(** [encode("iso-8859-1")] of a text in UTF-8, and [encode("ascii")]. *)
Fixpoint latin1 (s : string) : option string :=
  match s with
  | EmptyString => Some ""
  | String c s' =>
      if is_ascii c then String c <$> latin1 s'
      else match s' with
           | String d t => if bool_decide (c = "194"%char) then String d <$> latin1 t
                           else if bool_decide (c = "195"%char) then String (ascii_of_N (code d + 64)) <$> latin1 t else None
           | EmptyString => None
           end
  end.

(** * One request *)

Definition CRLF : string := String CR (String LF "").
(** A connection: where it is dialled, what CONNECT asks of a proxy, and the request with the name TLS checks. *)
Record dial := Dial { d_host : string; d_port : Z; d_connect : option string; d_sent : option (option string * string) }.
(** [rp_body] is all that [response.read] delivers before [rp_fault] or the end; [rp_left] is [response.length] afterwards. *)
Record reply := Reply { rp_status : Z; rp_headers : headers; rp_body : string; rp_fault : option string; rp_expired : bool; rp_left : bool }.
Record answers := Answers {
  an_dns : string -> Z -> dns_answer;
  an_dial : string -> Z -> option string;
  an_proxy : string -> list string;
  an_tls : string -> option string;
  an_reply : dial -> string + reply
}.

Definition default_port (scheme : string) : Z := if bool_decide (scheme = "https") then 443 else 80.
(** [parts.port or ...]; [None] is ValueError. *)
Definition port_or (u : url) : option Z :=
  match u_port u with
  | None => None
  | Some (Some p) => Some (if p =? 0 then default_port (u_scheme u) else p)
  | Some None => Some (default_port (u_scheme u))
  end.
Definition BAD_PORT : string := "invalid subscription URL port".

Definition PROXY_HEADER_CAP : nat := Z.to_nat 65536.
(** The loop of [_proxy_connect] over what the proxy sends. *)
Fixpoint proxy_head (buf : string) (chunks : list string) : string + string :=
  if contains (CRLF +:+ CRLF) buf then inr buf
  else match chunks with
       | [] => inl "subscription proxy closed CONNECT"
       | chunk :: chunks =>
           if bool_decide (chunk = "") then inl "subscription proxy closed CONNECT"
           else let buf := buf +:+ chunk in
                if (PROXY_HEADER_CAP <? String.length buf)%nat then inl "subscription proxy response headers too large" else proxy_head buf chunks
       end.
(** Up to the first CRLF. *)
Fixpoint first_line (s : string) : string :=
  match s with
  | EmptyString => ""
  | String c s' => if startswith s CRLF then "" else String c (first_line s')
  end.
Definition decode_ascii (s : string) : string := utf8_replace None (str_map (fun c => if is_ascii c then c else "255"%char) s).
Definition proxy_ready (buf : string) : string + unit :=
  let status_line := decode_ascii (first_line buf) in
  let rest := after_first " " status_line in
  if contains " " status_line && bool_decide (before_first " " rest = "200") then inr tt
  else inl ("subscription proxy CONNECT failed: " +:+ status_line).

(** [response.read(n)] until it gives nothing. *)
Fixpoint read_body (fuel : nat) (max_bytes : nat) (body rest : string) : option (option string) :=
  match fuel with
  | O => None
  | S fuel =>
      let n := Nat.min (Z.to_nat 65536) (max_bytes + 1 - String.length body) in
      let chunk := str_take n rest in
      if bool_decide (chunk = "") then Some (Some body)
      else let body := body +:+ chunk in
           if (max_bytes <? String.length body)%nat then Some None else read_body fuel max_bytes body (str_drop n rest)
  end.
Definition over_cap (max_bytes : nat) : string := "subscription body exceeds the " +:+ str_int (Z.of_nat (max_bytes / 1024)) +:+ " KiB cap".
Definition TRUNCATED : string := "subscription response was truncated".
(** What is made of a reply: its status, headers and body. *)
Definition accept_reply (max_bytes : nat) (r : reply) : string + (Z * headers * string) :=
  let declared := match header (rp_headers r) "content-length" with
                  | Some t => if bool_decide (t = "") then None else py_int t
                  | None => None
                  end in
  if match declared with Some n => Z.of_nat max_bytes <? n | None => false end then inl (over_cap max_bytes)
  else match read_body (S (String.length (rp_body r))) max_bytes "" (rp_body r) with
       | Some None => inl (over_cap max_bytes)
       | None => inl DEADLINE
       | Some (Some body) =>
           match rp_fault r with
           | Some exc => inl exc
           | None =>
               if rp_expired r then inl DEADLINE
               else if match declared with Some n => negb (Z.of_nat (String.length body) =? n) | None => false end then
                 inl (TRUNCATED +:+ " (" +:+ str_int (Z.of_nat (String.length body)) +:+ " of " +:+ str_int (default 0 declared) +:+ " declared bytes)")
               else if rp_left r then inl (TRUNCATED +:+ " (connection closed early)")
               else inr (rp_status r, rp_headers r, body)
           end
       end.

(** [urlunsplit(("", "", path or "/", query, ""))] *)
Definition request_target (u : url) : string :=
  let path := name_or (u_path u) "/" in
  let path := if startswith path "//" then "//" +:+ path else path in
  if bool_decide (u_query u = "") then path else path +:+ "?" +:+ u_query u.
Definition sent_headers (hs : headers) (host_header : string) : headers :=
  let clean := dict_from id (filter (fun kv : string * string => lower kv.1 ∉ ["host"; "connection"; "content-length"]) hs) in
  kv_set "Connection" "close" (kv_set "Host" host_header clean).
Definition request_text (target : string) (hs : headers) : string :=
  join CRLF (["GET " +:+ target +:+ " HTTP/1.1"] ++ ((fun kv => kv.1 +:+ ": " +:+ kv.2) <$> hs) ++ [""; ""]).

Section client.
Context (ip_kind : ip -> kind) (idna : string -> option string) (codec : string -> string -> option string).
Context (gunzip : string -> nat -> string + (string * bool * bool)) (cookie_pairs : string -> string + headers) (urljoin : string -> string -> string + string).

Definition ip_blocked (a : ip) : bool :=
  let k := ip_kind a in
  if is_loopback k then negb ALLOW_LOOPBACK
  else is_private k || is_link_local k || is_reserved k || is_multicast k || is_unspecified k.

(** The addresses of an answer, each once, those that are none left out. *)
Definition distinct (texts : list string) : list ip :=
  foldl (fun l t => match parse_ip t with Some a => if bool_decide (a ∈ l) then l else l ++ [a] | None => l end) [] texts.
Definition resolve_public_all (dns : string -> Z -> dns_answer) (host : string) (port : Z) : string + list ip :=
  let host := lower (strip_by bracket host) in
  if bool_decide (host = "") || bool_decide (host = "localhost") then inl NOT_PUBLIC
  else
    let? addresses :=
      match parse_ip host with
      | Some literal => inr [literal]
      | None => match dns host port with
                | Resolved texts => inr (distinct texts)
                | DnsTimeout => inl DNS_DEADLINE
                | DnsOSError e => inl (UNRESOLVED +:+ ": " +:+ e)
                | DnsRaises e => inl e
                end
      end in
    if bool_decide (length addresses = 0%nat) then inl UNRESOLVED
    else if existsb ip_blocked addresses then inl NOT_PUBLIC else inr addresses.
Definition resolve_public (dns : string -> Z -> dns_answer) (host : string) (port : Z) : string + ip :=
  let? addresses := resolve_public_all dns host port in
  match addresses with a :: _ => inr a | [] => inl UNRESOLVED end.
Definition host_blocked (dns : string -> Z -> dns_answer) (host : string) : bool :=
  match resolve_public dns host 443 with inl _ => true | inr _ => false end.
Definition scheme_refused (scheme : string) : string :=
  "unsupported URL scheme '" +:+ name_or scheme "(none)" +:+ "': only http/https allowed".
Definition assert_public_url (dns : string -> Z -> dns_answer) (url : string) : string + unit :=
  match urlsplit url with
  | None => inl BAD_URL
  | Some u =>
      if negb (bool_decide (u_scheme u ∈ ALLOWED_SCHEMES)) then inl (scheme_refused (u_scheme u))
      else match port_or u with
           | None => inl BAD_PORT
           | Some port => let? _ := resolve_public dns (u_hostname u) port in inr tt
           end
  end.

(** [_request_once]: the connection it made, if any, and the reply or the exception. *)
Definition proxy_target (proxy : option string) : string + option (string * Z) :=
  match proxy with
  | None => inr None
  | Some p => if bool_decide (p = "") then inr None
              else match urlsplit p with
                   | None => inl BAD_URL
                   | Some u => if negb (bool_decide (u_scheme u = "http")) || bool_decide (u_hostname u = "") then inl "subscription proxy must be an http URL"
                               else match u_port u with
                                    | None => inl "Port could not be cast to integer value"
                                    | Some q => inr (Some (u_hostname u, match q with Some n => if n =? 0 then 80 else n | None => 80 end))
                                    end
                   end
  end.
Definition connect_text (pinned : string) (port : Z) : string :=
  let target := (if contains ":" pinned then "[" +:+ pinned +:+ "]" else pinned) +:+ ":" +:+ str_int port in
  "CONNECT " +:+ target +:+ " HTTP/1.1" +:+ CRLF +:+ "Host: " +:+ target +:+ CRLF +:+ "Proxy-Connection: keep-alive" +:+ CRLF +:+ CRLF.
Definition raises (exc : option string) : string + unit := match exc with Some e => inl e | None => inr tt end.
(** The steps on an open connection that come before the request. *)
Definition open_path (a : answers) (via : option (string * Z)) (pinned : string) (port : Z) : option string * (string + unit) :=
  match via with
  | None => (None, inr tt)
  | Some _ =>
      let text := connect_text pinned port in
      if negb (str_all is_ascii text) then (None, inl "ordinal not in range(128)")
      else (Some text, let? buf := proxy_head "" (an_proxy a text) in proxy_ready buf)
  end.
Definition request_once (a : answers) (u : url) (pinned : ip) (hs : headers) (proxy : option string) (max_bytes : nat)
    : option dial * (string + (Z * headers * string)) :=
  let setup :=
    let? host := match idna (u_hostname u) with Some h => inr h | None => inl "label empty or too long" end in
    let? port := match port_or u with Some p => inr p | None => inl BAD_PORT end in
    let? via := proxy_target proxy in
    inr (host, port, via) in
  match setup with
  | inl e => (None, inl e)
  | inr (host, port, via) =>
      let to := match via with Some hp => hp | None => (ip_text pinned, port) end in
      match an_dial a to.1 to.2 with
      | Some e => (None, inl e)
      | None =>
          let '(asked, opened) := open_path a via (ip_text pinned) port in
          let tls := if bool_decide (u_scheme u = "https") then Some host else None in
          let text := request_text (request_target u) (sent_headers hs (authority host port (u_scheme u))) in
          let ready :=
            let? _ := opened in
            let? _ := raises (match tls with Some name => an_tls a name | None => None end) in
            match latin1 text with Some bytes => inr bytes | None => inl "ordinal not in range(256)" end in
          match ready with
          | inl e => (Some (Dial to.1 to.2 asked None), inl e)
          | inr bytes =>
              let d := Dial to.1 to.2 asked (Some (tls, bytes)) in
              (Some d, let? r := an_reply a d in accept_reply max_bytes r)
          end
      end
  end.

(** * The body *)

Definition decode_content (raw : string) (hs : headers) (max_bytes : nat) : string + string :=
  let encoding := lower (strip (header hs "content-encoding" or "")) in
  if bool_decide (encoding ∈ [""; "identity"]) then inr raw
  else if negb (bool_decide (encoding ∈ ["gzip"; "x-gzip"])) then inl ("subscription body uses an unsupported content-encoding: " +:+ encoding)
  else
    let? g := gunzip raw (max_bytes + 1) in
    let '(out, tail, eof) := g in
    if (max_bytes <? String.length out)%nat || tail then inl (over_cap max_bytes +:+ " once decompressed")
    else if negb eof then inl "subscription body was truncated (incomplete gzip stream)"
    else inr out.
Definition quote_char (c : ascii) : bool := bool_decide (c = "034"%char) || bool_decide (c = "'"%char).
Fixpoint charset_of (parts : list string) : string :=
  match parts with
  | [] => "utf-8"
  | part :: parts =>
      let '(key, _, value) := partition "=" (strip part) in
      if bool_decide (lower key = "charset") && negb (bool_decide (value = "")) then
        let label := lower (strip (strip_by quote_char (strip value))) in
        if bool_decide (label ∈ ALLOWED_CHARSETS) then label else "utf-8"
      else charset_of parts
  end.
Definition charset (hs : headers) : string := charset_of (tail (split_on ";" (header hs "content-type" or ""))).
Definition decode_body (hs : headers) (raw : string) : string :=
  let label := charset hs in
  if bool_decide (label ∈ ["utf-8"; "utf8"]) then decode_utf8 raw
  else match codec label raw with Some t => t | None => decode_utf8 raw end.

(** * Redirects *)

(** One hop as it was made: the split URL, its origin, the address it is pinned to, the headers and the connection. *)
Record hop := Hop { hp_url : url; hp_origin : origin; hp_pinned : ip; hp_headers : headers; hp_dial : option dial }.
Definition REDIRECTS : list Z := [301; 302; 303; 307; 308].
Notation jars := (list (string * headers)).
Definition set_cookies (host : string) (hs : headers) (jar : jars) : string + jars :=
  foldl (fun acc line =>
           let? jar := acc in
           let? pairs := cookie_pairs line in
           inr (kv_set host (foldl (fun d kv => kv_set kv.1 kv.2 d) (default [] (assoc host jar)) pairs) jar))
    (inr jar) (header_all hs "set-cookie").
Definition hop_headers (home hop_origin : origin) (hs : headers) (host_header : string) (jar : option headers) : headers :=
  let hs := if credentials_travel home hop_origin then hs else cross_origin_headers hs in
  let hs := kv_set "Host" host_header hs in
  match jar with
  | Some (kv :: kvs) => kv_set "Cookie" (join "; " ((fun kv => kv.1 +:+ "=" +:+ kv.2) <$> (kv :: kvs))) hs
  | _ => hs
  end.
Definition NEEDS_HTTP : string := "subscription URL must use http/https and include a host".
Definition TOO_MANY : string := "too many subscription redirects".

Section get.
Context (world : nat -> answers) (hs : headers) (proxy : option string) (max_bytes : nat) (raw_body : bool).

(** The split URL of a hop with its port, and the address it is pinned to. *)
Definition hop_target (a : answers) (current : string) : string + (url * Z * ip) :=
  match urlsplit current with
  | None => inl BAD_URL
  | Some u =>
      if negb (bool_decide (u_scheme u ∈ ALLOWED_SCHEMES)) || bool_decide (u_hostname u = "") then inl NEEDS_HTTP
      else match port_or u with
           | None => inl BAD_PORT
           | Some port => let? pinned := resolve_public (an_dns a) (u_hostname u) port in inr (u, port, pinned)
           end
  end.
Definition finish (response_headers : headers) (raw : string) : string + (string * headers) :=
  let? raw := decode_content raw response_headers max_bytes in
  inr (if raw_body then raw else decode_body response_headers raw, response_headers).
(** [_http_get] from hop number [i], with [budget] hops to go: the hops it made and the outcome. *)
Fixpoint get_from (budget i : nat) (current : string) (home : option origin) (jar : jars) : list hop * (string + (string * headers)) :=
  match budget with
  | O => ([], inl TOO_MANY)
  | S budget =>
      match hop_target (world i) current with
      | inl e => ([], inl e)
      | inr (u, port, pinned) =>
          let here := (u_scheme u, lower (u_hostname u), port) in
          let home := default here home in
          let hop_hs := hop_headers home here hs (authority (u_hostname u) port (u_scheme u)) (assoc (lower (u_hostname u)) jar) in
          let '(d, outcome) := request_once (world i) u pinned hop_hs proxy max_bytes in
          let made := Hop u here pinned hop_hs d in
          match outcome with
          | inl e => ([made], inl e)
          | inr (status, response_headers, raw) =>
              match set_cookies (lower (u_hostname u)) response_headers jar with
              | inl e => ([made], inl e)
              | inr jar =>
                  if bool_decide (status ∈ REDIRECTS) then
                    match header response_headers "location" with
                    | None => ([made], inl "subscription redirect missing Location")
                    | Some location =>
                        if bool_decide (location = "") then ([made], inl "subscription redirect missing Location")
                        else if (budget =? 0)%nat then ([made], inl TOO_MANY)
                        else match urljoin current location with
                             | inl e => ([made], inl e)
                             | inr next => let '(hops, r) := get_from budget (S i) next (Some home) jar in (made :: hops, r)
                             end
                    end
                  else if (status <? 200) || (300 <=? status) then ([made], inl ("subscription endpoint returned HTTP " +:+ str_int status))
                  else ([made], finish response_headers raw)
              end
          end
      end
  end.
Definition http_get (url : string) : list hop * (string + (string * headers)) := get_from (S MAX_REDIRECTS) 0 url None [].
Definition scheme_allowed (url : string) : string + unit :=
  match urlsplit url with
  | None => inl BAD_URL
  | Some u => if bool_decide (u_scheme u ∈ ALLOWED_SCHEMES) then inr tt else inl (scheme_refused (u_scheme u))
  end.
Definition fetch_url (url : string) : list hop * (string + (string * headers)) :=
  match scheme_allowed url with inl e => ([], inl e) | inr _ => http_get url end.
End get.

(** [fetch]: the hops, and the body, the path it came by and the headers. *)
Definition fetch (world : nat -> answers) (url : string) (injection : json) (tokens : headers) (proxy : option string)
    : list hop * (string + (string * string * headers)) :=
  match build_request url injection tokens with
  | inl e => ([], inl e)
  | inr req =>
      match scheme_allowed (br_url req) with
      | inl e => ([], inl e)
      | inr _ =>
          let path := match proxy with Some p => if bool_decide (p = "") then "direct" else "tunnel" | None => "direct" end in
          let '(hops, r) := http_get world (br_headers req) proxy MAX_BYTES false (br_url req) in
          (hops, let? x := r in inr (x.1, path, x.2))
      end
  end.
End client.
