(* ===== verification/FetchProps.v ===== *)
(** What the HTTP client guarantees: every hop of a request goes to an address it resolved and
    found public, redirects or not; the configured headers stay with the origin they are for; what
    it returns is a whole, bounded body; a request holds only the lines meant for it. *)
From Stdlib Require Import ZArith Lia Ascii.
From stdpp Require Import base gmap strings list.
From S2P Require Import Prelude PyStr Ip IpText Models Json Records Ledgers Linux Uri Feed Inject Fetch.
Open Scope string_scope.
Open Scope list_scope.
Open Scope Z_scope.

(** * Lemmas *)

(** Facts about the HTTP client: reading a body, checking an answer of the resolver, and how each
    hop of a request came about. *)

Lemma let_inr {E A B} (m : E + A) (k : A -> E + B) b : match m with inl e => inl e | inr a => k a end = inr b -> exists a, m = inr a /\ k a = inr b.
Proof. destruct m as [|a]; [done|]. eauto. Qed.

(** * The body *)

Lemma str_take_blank n s : str_take n s = "" -> n = 0%nat \/ s = "".
Proof. destruct n, s; cbn; auto; discriminate. Qed.
Lemma text_drop_length n s : String.length (str_drop n s) = (String.length s - n)%nat.
Proof. revert s. induction n as [|n IH]; intros [|c s]; cbn; try done. Qed.
Lemma take_drop_str n s : str_take n s +:+ str_drop n s = s.
Proof. revert s. induction n as [|n IH]; intros [|c s]; cbn [str_take str_drop]; rewrite ?str_app_nil, ?str_app_cons, ?IH; done. Qed.
Lemma append_length a b : String.length (a +:+ b) = (String.length a + String.length b)%nat.
Proof. induction a as [|c a IH]; [done|]. rewrite str_app_cons. cbn. by rewrite IH. Qed.
Lemma text_assoc (a b c : string) : (a +:+ b) +:+ c = a +:+ (b +:+ c).
Proof. induction a as [|x a IH]; [done|]. by rewrite !str_app_cons, IH. Qed.
Lemma append_blank (a : string) : a +:+ "" = a.
Proof. induction a as [|x a IH]; [done|]. by rewrite str_app_cons, IH. Qed.
(** The loop of reads ends, and gives the whole body or finds it over the cap. *)
Lemma read_body_whole max_bytes fuel : forall body rest, (String.length rest < fuel)%nat -> (String.length body <= max_bytes)%nat ->
  read_body fuel max_bytes body rest = Some (if (max_bytes <? String.length body + String.length rest)%nat then None else Some (body +:+ rest)).
Proof.
  induction fuel as [|fuel IH]; intros body rest Hf Hb; [lia|]. cbn [read_body].
  set (n := Nat.min _ _). assert (0 < n)%nat as Hn by (subst n; apply Nat.min_glb_lt; [by apply Nat2Z.inj_lt; rewrite Z2Nat.id by lia|lia]).
  assert (n <= max_bytes + 1 - String.length body)%nat as Hn' by (subst n; apply Nat.le_min_r). clearbody n. case_bool_decide as E.
  - apply str_take_blank in E as [E | ->]; [lia|]. cbn [String.length]. rewrite append_blank, Nat.add_0_r. destruct (Nat.ltb_spec max_bytes (String.length body)); [lia|done].
  - assert (rest <> "") as Hr by (intros ->; by destruct n).
    assert (0 < String.length rest)%nat by (destruct rest; [done|cbn; lia]).
    pose proof (f_equal String.length (take_drop_str n rest)) as Hl. rewrite append_length, text_drop_length in Hl. rewrite append_length.
    destruct (Nat.ltb_spec max_bytes (String.length body + String.length (str_take n rest))).
    + destruct (Nat.ltb_spec max_bytes (String.length body + String.length rest)); [done|lia].
    + rewrite IH by (rewrite ?text_drop_length, ?append_length; lia). rewrite append_length, text_drop_length, text_assoc, take_drop_str.
      do 2 f_equal. destruct (Nat.ltb_spec max_bytes (String.length body + String.length rest)).
      * rewrite (proj2 (Nat.ltb_lt _ _)) by lia. done.
      * rewrite (proj2 (Nat.ltb_ge _ _)) by lia. done.
Qed.

(** What [Content-Length] says, when it is a number. *)
Definition declared (hs : headers) : option Z :=
  match header hs "content-length" with Some t => if bool_decide (t = "") then None else py_int t | None => None end.
Definition whole (max_bytes : nat) (r : reply) : Prop :=
  (String.length (rp_body r) <= max_bytes)%nat /\ rp_fault r = None /\ rp_left r = false /\
  forall n, declared (rp_headers r) = Some n -> n = Z.of_nat (String.length (rp_body r)).
Lemma accept_reply_whole max_bytes r status hs body :
  accept_reply max_bytes r = inr (status, hs, body) -> status = rp_status r /\ hs = rp_headers r /\ body = rp_body r /\ whole max_bytes r.
Proof.
  unfold accept_reply. fold (declared (rp_headers r)). cbv zeta. destruct (match declared _ with Some n => Z.of_nat max_bytes <? n | None => false end); [done|].
  rewrite read_body_whole by (cbn; lia). cbn [String.length Nat.add].
  destruct (Nat.ltb_spec max_bytes (String.length (rp_body r))); [done|]. rewrite str_app_nil.
  destruct (rp_fault r) eqn:Ef; [done|]. destruct (rp_expired r); [done|]. unfold whole.
  destruct (declared (rp_headers r)) as [n|]; cbv beta iota.
  - destruct (Z.eqb_spec (Z.of_nat (String.length (rp_body r))) n) as [E|E]; cbn [negb]; [|done].
    destruct (rp_left r); [done|]. intros [= <- <- <-]. split_and!; try done. congruence.
  - destruct (rp_left r); [done|]. intros [= <- <- <-]. done.
Qed.

Section client.
Context (ip_kind : ip -> kind) (idna : string -> option string) (codec : string -> string -> option string).
Context (gunzip : string -> nat -> string + (string * bool * bool)) (cookie_pairs : string -> string + headers) (urljoin : string -> string -> string + string).
Notation resolve_public_all := (resolve_public_all ip_kind).
Notation ip_blocked := (ip_blocked ip_kind).
Notation request_once := (request_once idna).
Notation get_from := (get_from ip_kind idna codec gunzip cookie_pairs urljoin).
Notation http_get := (http_get ip_kind idna codec gunzip cookie_pairs urljoin).

(** * Addresses *)

Lemma distinct_spec texts a : a ∈ distinct texts <-> exists t, t ∈ texts /\ parse_ip t = Some a.
Proof.
  unfold distinct. assert (forall l0 : list ip, a ∈ foldl (fun l t => match parse_ip t with Some a => if bool_decide (a ∈ l) then l else l ++ [a] | None => l end) l0 texts <->
    a ∈ l0 \/ exists t, t ∈ texts /\ parse_ip t = Some a) as H.
  { induction texts as [|t texts IH]; intros l0; cbn [foldl].
    - split; [by left|]. intros [? | (t & ?%not_elem_of_nil & _)]; done.
    - rewrite IH. clear IH. destruct (parse_ip t) as [b|] eqn:E; [|set_solver].
      case_bool_decide; [|set_solver]. split; [set_solver|]. intros [? | (t' & [-> | ?]%elem_of_cons & Ht)]; [by left| |right; eauto].
      left. by assert (a = b) as -> by congruence. }
  rewrite H. split; [|by right]. intros [?%not_elem_of_nil | ?]; done.
Qed.
(** An address of the public Internet: none of the ranges of [ipaddress] that are not. *)
Record outside (a : ip) : Prop := {
  no_private : is_private (ip_kind a) = false;
  no_loopback : is_loopback (ip_kind a) = false;
  no_link_local : is_link_local (ip_kind a) = false;
  no_reserved : is_reserved (ip_kind a) = false;
  no_multicast : is_multicast (ip_kind a) = false;
  no_unspecified : is_unspecified (ip_kind a) = false
}.
Lemma open_outside a : ip_blocked a = false <-> outside a.
Proof.
  unfold Fetch.ip_blocked. cbv zeta. split; [|intros [-> -> -> -> -> ->]; done].
  destruct (ip_kind a) as [[] [] [] [] [] []] eqn:E; cbn; try done. intros _. split; by rewrite E.
Qed.
(** An answer that is used was checked whole. *)
Record public (dns : string -> Z -> dns_answer) (host : string) (port : Z) (pinned : ip) : Prop := {
  pub_open : outside pinned;
  pub_source : parse_ip (lower (strip_by bracket host)) = Some pinned \/
    exists texts, dns (lower (strip_by bracket host)) port = Resolved texts /\ (exists t, t ∈ texts /\ parse_ip t = Some pinned) /\
      forall t a, t ∈ texts -> parse_ip t = Some a -> outside a
}.
Lemma resolve_all_public dns host port l : resolve_public_all dns host port = inr l -> forall a, a ∈ l -> public dns host port a.
Proof.
  unfold Fetch.resolve_public_all. cbv zeta. destruct (_ || _); [done|]. intros H a Ha. apply let_inr in H as (l' & Hl & H).
  case_bool_decide; [done|]. destruct (existsb ip_blocked l') eqn:Eb; [done|]. injection H as ->.
  assert (forall b, b ∈ l -> outside b) as Hall.
  { intros b Hb. apply open_outside. destruct (ip_blocked b) eqn:E; [|done]. rewrite <-Eb. symmetry. apply existsb_exists. exists b. split; [by apply list_elem_of_In|done]. }
  split; [by apply Hall|]. destruct (parse_ip (lower (strip_by bracket host))) as [lit|] eqn:Ep.
  - injection Hl as <-. apply list_elem_of_singleton in Ha as ->. by left.
  - destruct (dns _ _) as [texts| | |] eqn:Ed; try done. injection Hl as <-. right. exists texts. split; [done|]. split; [by apply distinct_spec|].
    intros t b Ht Hb. apply Hall, distinct_spec. eauto.
Qed.
Lemma resolve_one dns host port a : resolve_public ip_kind dns host port = inr a -> public dns host port a.
Proof.
  unfold resolve_public. intros ([|b l] & Hl & H)%let_inr; [done|]. injection H as ->. eapply resolve_all_public; [done|left].
Qed.

(** * The hops of a request *)

Section get.
Context (world : nat -> answers) (hs : headers) (proxy : option string) (max_bytes : nat) (raw_body : bool).

(** A host answered a request of the fetch with this Set-Cookie line. *)
Definition received (host line : string) : Prop := exists i current u port pinned sent d status rh raw,
  hop_target ip_kind (world i) current = inr (u, port, pinned) /\ lower (u_hostname u) = host /\
  request_once (world i) u pinned sent proxy max_bytes = (d, inr (status, rh, raw)) /\ line ∈ header_all rh "set-cookie".

(** How a hop came about: [home] is the origin of the first one. *)
Inductive made (jar_ok : string -> headers -> Prop) (a : answers) (home : origin) (h : hop) (o : string + (Z * headers * string)) : Prop :=
  | made_intro current u port pinned jar d :
      hop_target ip_kind a current = inr (u, port, pinned) ->
      (forall kvs, jar = Some kvs -> jar_ok (lower (u_hostname u)) kvs) ->
      h = Hop u (u_scheme u, lower (u_hostname u), port) pinned
            (hop_headers home (u_scheme u, lower (u_hostname u), port) hs (authority (u_hostname u) port (u_scheme u)) jar) d ->
      request_once a u pinned (hp_headers h) proxy max_bytes = (d, o) -> made jar_ok a home h o.

Lemma set_cookies_ok (jar_ok : string -> headers -> Prop) host rhs jar jar' :
  (forall line pairs kvs, line ∈ header_all rhs "set-cookie" -> cookie_pairs line = inr pairs -> jar_ok host kvs ->
     jar_ok host (foldl (fun d kv => kv_set kv.1 kv.2 d) kvs pairs)) -> jar_ok host [] ->
  (forall k kvs, assoc k jar = Some kvs -> jar_ok k kvs) -> set_cookies cookie_pairs host rhs jar = inr jar' ->
  forall k kvs, assoc k jar' = Some kvs -> jar_ok k kvs.
Proof.
  intros Hc Hn. unfold set_cookies. revert Hc. generalize (header_all rhs "set-cookie"). intros lines. revert jar.
  induction lines as [|line lines IH]; intros jar Hc Hj; cbn [foldl]; [by intros [= <-]|].
  destruct (cookie_pairs line) as [e|pairs] eqn:E.
  - intros H. exfalso. revert H. clear. induction lines as [|l lines IH]; cbn; [done|exact IH].
  - apply IH; [intros line' pairs' kvs' Hl; apply Hc; by right|]. intros k kvs Hk. destruct (decide (k = host)) as [->|Hkh].
    + rewrite assoc_set, decide_True in Hk by done. injection Hk as <-. apply (Hc line); [left|done|]. destruct (assoc host jar) eqn:Ea; [by eapply Hj|done].
    + rewrite assoc_set, decide_False in Hk by done. by eapply Hj.
Qed.

Definition first_home (home : option origin) (hops : list hop) : origin :=
  match home, hops with
  | Some o, _ => o
  | None, h :: _ => hp_origin h
  | None, [] => ("", "", 0)
  end.
Section jar.
Context (jar_ok : string -> headers -> Prop).
Context (Hset : forall host line pairs kvs, received host line -> cookie_pairs line = inr pairs -> jar_ok host kvs ->
  jar_ok host (foldl (fun d kv => kv_set kv.1 kv.2 d) kvs pairs)).
Context (Hnil : forall host, jar_ok host []).
(** Every hop was made so, and a result comes from the last one. *)
Lemma get_from_made budget : forall i current home jar hops r, (forall k kvs, assoc k jar = Some kvs -> jar_ok k kvs) ->
  get_from world hs proxy max_bytes raw_body budget i current home jar = (hops, r) ->
  (length hops <= budget)%nat /\
  (forall k h, hops !! k = Some h -> exists o, made jar_ok (world (i + k)%nat) (first_home home hops) h o) /\
  (forall x, r = inr x -> exists k h status rh raw, hops !! k = Some h /\ length hops = S k /\
     made jar_ok (world (i + k)%nat) (first_home home hops) h (inr (status, rh, raw)) /\ 200 <= status < 300 /\
     finish codec gunzip max_bytes raw_body rh raw = inr x).
Proof.
  induction budget as [|budget IH]; intros i current home jar hops r Hj; cbn [Fetch.get_from].
  { intros [= <- <-]. split_and!; [done|intros k h Hk; by rewrite lookup_nil in Hk|done]. }
  destruct (hop_target ip_kind (world i) current) as [e|[[u port] pinned]] eqn:Et.
  { intros [= <- <-]. split_and!; [cbn; lia|intros k h Hk; by rewrite lookup_nil in Hk|done]. }
  cbv zeta. set (here := (u_scheme u, lower (u_hostname u), port)). set (hop_hs := hop_headers _ here hs _ _).
  destruct (request_once (world i) u pinned hop_hs proxy max_bytes) as [d o] eqn:Er.
  set (h0 := Hop u here pinned hop_hs d).
  assert (forall hops', first_home home (h0 :: hops') = default here home) as Hfh by (intros hops'; by destruct home).
  assert (made jar_ok (world i) (default here home) h0 o) as Hm.
  { econstructor; [exact Et| |reflexivity|exact Er]. intros kvs. apply Hj. }
  assert (forall e, ([h0], inl e : string + (string * headers)) = (hops, r) ->
    (length hops <= S budget)%nat /\
    (forall k h, hops !! k = Some h -> exists o, made jar_ok (world (i + k)%nat) (first_home home hops) h o) /\
    (forall x, r = inr x -> exists k h status rh raw, hops !! k = Some h /\ length hops = S k /\
       made jar_ok (world (i + k)%nat) (first_home home hops) h (inr (status, rh, raw)) /\ 200 <= status < 300 /\
       finish codec gunzip max_bytes raw_body rh raw = inr x)) as Hend.
  { intros e [= <- <-]. split_and!; [cbn; lia| |done]. intros [|k] h; [intros [= <-]|by rewrite lookup_cons, lookup_nil].
    rewrite Hfh, Nat.add_0_r. eauto. }
  destruct o as [e|[[status rh] raw]]; [by apply Hend|].
  destruct (set_cookies cookie_pairs (lower (u_hostname u)) rh jar) as [e|jar'] eqn:Ec; [by apply Hend|].
  case_bool_decide as Hs.
  - destruct (header rh "location") as [loc|]; [|by apply Hend]. case_bool_decide; [by apply Hend|].
    destruct (budget =? 0)%nat; [by apply Hend|]. destruct (urljoin current loc) as [e|next]; [by apply Hend|].
    destruct (get_from _ _ _ _ _ budget (S i) next _ jar') as [hops' r'] eqn:Eg. intros [= <- <-].
    apply IH in Eg as (Hl & Hk & Hr).
    2: { eapply set_cookies_ok; [|apply Hnil|exact Hj|exact Ec]. intros line pairs kvs Hline. apply Hset.
         by exists i, current, u, port, pinned, hop_hs, d, status, rh, raw. }
    split_and!; [cbn; lia| |].
    + intros [|k] h; [intros [= <-]; rewrite Hfh, Nat.add_0_r; eauto|]. cbn. intros [o Ho]%Hk. rewrite Hfh, Nat.add_succ_r. cbn in Ho. eauto.
    + intros x (k & h & st & rh' & raw' & H1 & H2 & H3 & H4 & H5)%Hr. exists (S k), h, st, rh', raw'. rewrite Hfh, Nat.add_succ_r. cbn in *. by rewrite H2.
  - destruct (_ || _) eqn:Est; [by apply Hend|]. apply orb_false_iff in Est as [E1%Z.ltb_ge E2%Z.leb_gt].
    intros [= <- <-]. split_and!; [cbn; lia| |].
    + intros [|k] h; [intros [= <-]; rewrite Hfh, Nat.add_0_r; eauto|by rewrite lookup_cons, lookup_nil].
    + intros x Hx. exists 0%nat, h0, status, rh, raw. rewrite Hfh, Nat.add_0_r. done.
Qed.
End jar.
End get.
End client.

(** * Properties *)

(** * Parts of a URL have no line break *)

Lemma one_line_app a b : one_line (a +:+ b) = one_line a && one_line b.
Proof. apply str_all_app. Qed.
Lemma one_line_cons c s : one_line (String c s) = negb (line_break c) && one_line s.
Proof. done. Qed.
Lemma partition_one_line c s a b r : one_line s = true -> partition c s = (a, b, r) -> one_line a = true /\ one_line r = true.
Proof.
  revert a b r. induction s as [|d s IH]; intros a b r; cbn [partition]; [by intros _ [= <- <- <-]|].
  rewrite one_line_cons. intros [Hd Hs]%andb_true_iff. case_bool_decide; [by intros [= <- <- <-]|].
  destruct (partition c s) as [[a' b'] r'] eqn:E. intros [= <- <- <-]. destruct (IH _ _ _ Hs eq_refl). by rewrite one_line_cons, Hd.
Qed.
Lemma rpartition_one_line c s a b r : one_line s = true -> rpartition c s = (a, b, r) -> one_line a = true /\ one_line r = true.
Proof.
  revert a b r. induction s as [|d s IH]; intros a b r; cbn [rpartition]; [by intros _ [= <- <- <-]|].
  rewrite one_line_cons. intros [Hd Hs]%andb_true_iff. destruct (rpartition c s) as [[a' b'] r'] eqn:E. destruct (IH _ _ _ Hs eq_refl).
  destruct b'; [intros [= <- <- <-]; by rewrite one_line_cons, Hd|]. case_bool_decide; intros [= <- <- <-]; by rewrite ?one_line_cons, ?Hd, ?Hs.
Qed.
Lemma one_line_lower s : one_line s = true -> one_line (lower s) = true.
Proof.
  unfold lower. induction s as [|c s IH]; cbn [str_map]; [done|]. rewrite !one_line_cons. intros [Hc Hs]%andb_true_iff. rewrite IH by done.
  rewrite andb_true_r. revert Hc. clear. destruct c as [[] [] [] [] [] [] [] []]; by vm_compute.
Qed.
Lemma one_line_drop n s : one_line s = true -> one_line (str_drop n s) = true.
Proof. revert s. induction n as [|n IH]; intros [|c s]; cbn [str_drop]; try done. rewrite one_line_cons. intros [_ ?]%andb_true_iff. by apply IH. Qed.
Lemma span_netloc_one_line s a b : one_line s = true -> span_netloc s = (a, b) -> one_line a = true /\ one_line b = true.
Proof.
  revert a b. induction s as [|c s IH]; intros a b; cbn [span_netloc]; [by intros _ [= <- <-]|]. rewrite one_line_cons. intros [Hc Hs]%andb_true_iff.
  destruct (netloc_end c); [intros [= <- <-]; by rewrite one_line_cons, Hc|].
  destruct (span_netloc s) as [a' b']. intros [= <- <-]. destruct (IH _ _ Hs eq_refl). by rewrite one_line_cons, Hc.
Qed.
Lemma str_filter_one_line s : one_line (str_filter (fun c => negb (unsafe_char c)) s) = true.
Proof.
  induction s as [|c s IH]; cbn [str_filter]; [done|]. destruct (unsafe_char c) eqn:E; cbn [negb]; [done|]. rewrite one_line_cons, IH, andb_true_r.
  unfold unsafe_char in E. apply orb_false_iff in E as [[_ E1]%orb_false_iff E2]. unfold line_break. by rewrite E1, E2.
Qed.
Lemma urlsplit_one_line s u : urlsplit s = Some u -> one_line (u_netloc u) = true /\ one_line (u_path u) = true /\ one_line (u_query u) = true.
Proof.
  unfold urlsplit. cbv zeta. set (t := str_filter _ _). assert (one_line t = true) as Ht by apply str_filter_one_line. clearbody t.
  destruct (split_scheme t) as [scheme t1] eqn:Es. assert (one_line t1 = true) as Ht1.
  { revert Es. unfold split_scheme. destruct (partition ":" t) as [[a []] r] eqn:Ep; [|by intros [= <- <-]].
    destruct (partition_one_line _ _ _ _ _ Ht Ep) as [_ Hr]. destruct t as [|c t']; [by intros [= <- <-]|]. destruct (_ && _); by intros [= <- <-]. }
  destruct (if startswith t1 "//" then _ else _) as [netloc t2] eqn:En.
  assert (one_line netloc = true /\ one_line t2 = true) as [Hn Ht2].
  { revert En. destruct (startswith t1 "//"); [|by intros [= <- <-]]. apply span_netloc_one_line. by apply one_line_drop. }
  destruct (negb _); [done|]. destruct (partition "#" t2) as [[t3 b] fragment] eqn:Ef. destruct (partition_one_line _ _ _ _ _ Ht2 Ef) as [Ht3 _].
  destruct (partition "?" t3) as [[path b'] query] eqn:Eq. destruct (partition_one_line _ _ _ _ _ Ht3 Eq). by intros [= <-].
Qed.
Lemma target_one_line u : one_line (u_path u) = true -> one_line (u_query u) = true -> one_line (request_target u) = true.
Proof.
  intros Hp Hq. unfold request_target, name_or. cbv zeta. repeat case_bool_decide; destruct (startswith _ _); rewrite ?one_line_app, ?Hp, ?Hq; done.
Qed.
Lemma all_digits_one_line s : str_all is_digit s = true -> one_line s = true.
Proof.
  induction s as [|c s IH]; [done|]. cbn [str_all]. intros [Hc Hs]%andb_true_iff. rewrite one_line_cons, IH, andb_true_r by done.
  revert Hc. clear. destruct c as [[] [] [] [] [] [] [] []]; by vm_compute.
Qed.
Lemma port_or_range u p : port_or u = Some p -> 0 <= p.
Proof.
  unfold port_or, u_port. cbv zeta. case_bool_decide as E.
  - intros [= <-]. unfold default_port. by case_bool_decide.
  - destruct (str_all is_digit _) eqn:Ed; [|done]. destruct (py_int _) as [n|] eqn:En; [|done]. destruct (n <=? 65535); [|done].
    assert (0 <= n) by (eapply digits_nonneg; [|exact En]; unfold all_digits; by rewrite bool_decide_false).
    destruct (n =? 0); intros [= <-]; [|done]. unfold default_port. by case_bool_decide.
Qed.
Lemma str_int_one_line p : 0 <= p -> one_line (str_int p) = true.
Proof. intros Hp. by apply all_digits_one_line, str_int_digits. Qed.
Lemma authority_one_line host port scheme : one_line host = true -> 0 <= port -> one_line (authority host port scheme) = true.
Proof.
  intros Hh Hp. unfold authority. cbv zeta. destruct (_ && _), (_ =? _); rewrite ?one_line_app, ?Hh, ?str_int_one_line by done; done.
Qed.
Lemma hostname_one_line u : one_line (u_netloc u) = true -> one_line (u_hostname u) = true.
Proof.
  intros Hn. unfold u_hostname. destruct (partition "%" _) as [[host percent] zone] eqn:Ep.
  assert (one_line (host_port u).1 = true) as Hh.
  { unfold host_port. destruct (rpartition "@" (u_netloc u)) as [[x y] hostinfo] eqn:Er. destruct (rpartition_one_line _ _ _ _ _ Hn Er) as [_ Hi].
    destruct (partition "[" hostinfo) as [[x' opened] bracketed] eqn:Eb. destruct (partition_one_line _ _ _ _ _ Hi Eb) as [Hx Hbr]. destruct opened.
    - destruct (partition "]" bracketed) as [[h y'] p] eqn:Ec. by destruct (partition_one_line _ _ _ _ _ Hbr Ec).
    - cbn [fst]. unfold before_first. destruct (partition ":" hostinfo) as [[h y'] p] eqn:Ec. by destruct (partition_one_line _ _ _ _ _ Hi Ec). }
  destruct (partition_one_line _ _ _ _ _ Hh Ep) as [H1 H2]. rewrite one_line_app, one_line_lower by done. by destruct percent; rewrite ?one_line_app, ?H2.
Qed.

(** * Headers *)

Lemma kv_set_in {V} k (v : V) l kv : kv ∈ l -> kv.1 <> k -> kv ∈ kv_set k v l.
Proof.
  induction l as [|[k' v'] l IH]; cbn [kv_set]; [by intros ?%not_elem_of_nil|]. case_decide as E; intros [-> | H]%elem_of_cons Hk.
  - by subst.
  - by right.
  - by left.
  - right. by apply IH.
Qed.
Definition clean_headers (hs : headers) : Prop := forall kv, kv ∈ hs -> one_line kv.1 = true /\ one_line kv.2 = true.
Lemma kv_set_clean k v hs : one_line k = true -> one_line v = true -> clean_headers hs -> clean_headers (kv_set k v hs).
Proof. intros Hk Hv Hh [k' v'] [[E1 E2]|H]%kv_set_keys; [cbn in *; by subst|by apply Hh]. Qed.
Lemma filter_clean (P : string * string -> Prop) `{forall x, Decision (P x)} hs : clean_headers hs -> clean_headers (filter P hs).
Proof. intros Hh kv [_ Hk]%list_elem_of_filter. by apply Hh. Qed.
Lemma join_one_line sep l : one_line sep = true -> Forall (fun t => one_line t = true) l -> one_line (join sep l) = true.
Proof.
  intros Hs. induction l as [|x l IH]; intros Hl; [done|]. inversion Hl; subst. destruct l as [|y l]; [done|].
  change (join sep (x :: y :: l)) with (x +:+ sep +:+ join sep (y :: l)). by rewrite !one_line_app, Hs, IH, H1.
Qed.

Section client.
Context (ip_kind : ip -> kind) (idna : string -> option string) (codec : string -> string -> option string).
Context (gunzip : string -> nat -> string + (string * bool * bool)) (cookie_pairs : string -> string + headers) (urljoin : string -> string -> string + string).
Notation http_get := (http_get ip_kind idna codec gunzip cookie_pairs urljoin).
Notation fetch := (fetch ip_kind idna codec gunzip cookie_pairs urljoin).

(** What [request_once] does with the connection. *)
Record dialled (a : answers) (u : url) (pinned : ip) (hs : headers) (proxy : option string) (port : Z) (d : dial) : Prop := {
  di_via : exists via, proxy_target proxy = inr via /\
    match via with
    | None => d_host d = ip_text pinned /\ d_port d = port /\ d_connect d = None
    | Some hp => d_host d = hp.1 /\ d_port d = hp.2 /\
        (d_connect d = Some (connect_text (ip_text pinned) port) \/ d_connect d = None /\ d_sent d = None)
    end;
  di_sent : forall tls bytes, d_sent d = Some (tls, bytes) -> exists host, idna (u_hostname u) = Some host /\
    tls = (if bool_decide (u_scheme u = "https") then Some host else None) /\
    latin1 (request_text (request_target u) (sent_headers hs (authority host port (u_scheme u)))) = Some bytes
}.
Lemma request_dialled a u pinned hs proxy max_bytes port d o : port_or u = Some port ->
  request_once idna a u pinned hs proxy max_bytes = (Some d, o) -> dialled a u pinned hs proxy port d.
Proof.
  intros Hp. unfold request_once. rewrite Hp. destruct (idna (u_hostname u)) as [host|] eqn:Eh; [|done]. cbv beta iota zeta.
  destruct (proxy_target proxy) as [|via] eqn:Ev; [done|]. destruct (an_dial a _ _); [done|].
  destruct (open_path a via (ip_text pinned) port) as [asked opened] eqn:Eo.
  assert (match via with None => asked = None | Some _ => asked = Some (connect_text (ip_text pinned) port) \/ asked = None /\ exists e, opened = inl e end) as Hasked.
  { revert Eo. unfold open_path. destruct via; [|by intros [= <- _]]. cbv zeta. destruct (negb _); intros [= <- <-]; [right; split; [done|by eexists]|by left]. }
  set (tls := if bool_decide (u_scheme u = "https") then Some host else None).
  set (text := request_text _ _).
  destruct (match opened with inl e => inl e | inr _ => _ end) as [e|bytes] eqn:Er; intros [= <- _].
  - split; [|done]. exists via. split; [done|]. destruct via as [[ph pp]|]; [|by rewrite Hasked]. cbn. split_and!; [done..|].
    destruct Hasked as [-> | [-> _]]; auto.
  - apply let_inr in Er as ([] & Ho & Er). apply let_inr in Er as ([] & _ & Er). split.
    + exists via. split; [done|]. destruct via as [[ph pp]|]; [|by rewrite Hasked]. cbn. split_and!; [done..|].
      destruct Hasked as [-> | [-> [e He]]]; [by left|congruence].
    + cbn [d_sent]. intros tls' bytes' [= <- <-]. exists host. split_and!; [done..|]. fold text. destruct (latin1 text) as [b|]; [congruence|done].
Qed.

Lemma hop_target_spec a current u port pinned : hop_target ip_kind a current = inr (u, port, pinned) ->
  urlsplit current = Some u /\ u_scheme u ∈ ALLOWED_SCHEMES /\ port_or u = Some port /\ public ip_kind (an_dns a) (u_hostname u) port pinned.
Proof.
  unfold hop_target. destruct (urlsplit current) as [u'|]; [|done]. destruct (bool_decide_reflect (u_scheme u' ∈ ALLOWED_SCHEMES)); cbn [negb orb]; [|done].
  case_bool_decide; [done|]. destruct (port_or u') as [p|] eqn:Ep; [|done]. intros (q & Hq & [= -> -> ->])%let_inr. split_and!; try done. by eapply resolve_one.
Qed.

Section get.
Context (world : nat -> answers) (hs : headers) (proxy : option string) (max_bytes : nat) (raw_body : bool) (url : string).
Context (hops : list hop) (r : string + (string * headers)).
Context (Hget : http_get world hs proxy max_bytes raw_body url = (hops, r)).

Lemma got (jar_ok : string -> headers -> Prop) :
  (forall host line pairs kvs, received ip_kind idna world proxy max_bytes host line -> cookie_pairs line = inr pairs -> jar_ok host kvs ->
     jar_ok host (foldl (fun d kv => kv_set kv.1 kv.2 d) kvs pairs)) -> (forall host, jar_ok host []) ->
  (length hops <= S MAX_REDIRECTS)%nat /\
  (forall k h, hops !! k = Some h -> exists o, made ip_kind idna hs proxy max_bytes jar_ok (world k) (first_home None hops) h o) /\
  (forall x, r = inr x -> exists k h status rh raw, hops !! k = Some h /\ length hops = S k /\
     made ip_kind idna hs proxy max_bytes jar_ok (world k) (first_home None hops) h (inr (status, rh, raw)) /\ 200 <= status < 300 /\
     finish codec gunzip max_bytes raw_body rh raw = inr x).
Proof. intros H1 H2. by eapply (get_from_made _ _ _ _ _ _ world) in Hget. Qed.
Lemma got_any : 
  (length hops <= S MAX_REDIRECTS)%nat /\
  forall k h, hops !! k = Some h -> exists o, made ip_kind idna hs proxy max_bytes (fun _ _ => True) (world k) (first_home None hops) h o.
Proof. destruct (got (fun _ _ => True)) as (? & ? & _); done. Qed.
End get.

(** C12: a fetch makes at most six requests, and each of them, the redirected ones included, goes to
    an http or https URL whose host is pinned to an address that is not internal, out of an answer
    of the resolver that has none that is; the connection is dialled to that address, or is a
    CONNECT to that address through the proxy: the name of the host is never resolved again. *)
Theorem fetch_pinned world hs proxy max_bytes raw_body url hops r : http_get world hs proxy max_bytes raw_body url = (hops, r) ->
  (length hops <= 6)%nat /\
  forall k h, hops !! k = Some h ->
    u_scheme (hp_url h) ∈ ["http"; "https"] /\
    public ip_kind (an_dns (world k)) (u_hostname (hp_url h)) (hp_origin h).2 (hp_pinned h) /\
    forall d, hp_dial h = Some d -> exists via, proxy_target proxy = inr via /\
      match via with
      | None => d_host d = ip_text (hp_pinned h) /\ d_port d = (hp_origin h).2 /\ d_connect d = None
      | Some hp => d_host d = hp.1 /\ d_port d = hp.2 /\
          (d_connect d = Some (connect_text (ip_text (hp_pinned h)) (hp_origin h).2) \/ d_connect d = None /\ d_sent d = None)
      end.
Proof.
  intros [Hl Hm]%got_any. split; [done|]. intros k h [o [current u port pinned jar d Ht _ -> Hr]]%Hm.
  apply hop_target_spec in Ht as (_ & Hs & Hp & Hpub). cbn in *. split; [done|]. split; [done|]. intros d' ->. by eapply request_dialled in Hr as [? _].
Qed.

(** Two origins between which the configured headers may go: the same host over the same scheme and port, or
    from its http port to its https port. *)
Definition same_home (first hop : string * string * Z) : Prop :=
  hop.1.2 = first.1.2 /\ (hop = first \/ (first.1.1, first.2) = ("http", 80) /\ (hop.1.1, hop.2) = ("https", 443)).
Lemma travel_home first hop : credentials_travel first hop = true -> same_home first hop.
Proof.
  destruct first as [[scheme host] port], hop as [[scheme' host'] port']. unfold same_home. cbn.
  destruct (bool_decide_reflect (host = host')) as [->|]; cbn [negb]; [|done].
  case_bool_decide as Es; [intros Ep%Z.eqb_eq; subst; auto|]. intros Eu%bool_decide_eq_true. injection Eu as -> -> -> ->. auto.
Qed.
(** A cookie of a host is one a Set-Cookie line of that host gave. *)
Definition own_cookies world proxy max_bytes (host : string) (kvs : headers) : Prop := forall kv, kv ∈ kvs ->
  exists line pairs, received ip_kind idna world proxy max_bytes host line /\ cookie_pairs line = inr pairs /\ kv ∈ pairs.
Lemma own_cookies_set world proxy max_bytes host line pairs kvs : received ip_kind idna world proxy max_bytes host line -> cookie_pairs line = inr pairs ->
  own_cookies world proxy max_bytes host kvs -> own_cookies world proxy max_bytes host (foldl (fun d kv => kv_set kv.1 kv.2 d) kvs pairs).
Proof.
  intros Hr Hp. assert (forall kv, kv ∈ pairs -> exists line pairs, received ip_kind idna world proxy max_bytes host line /\ cookie_pairs line = inr pairs /\ kv ∈ pairs) as Hall by eauto.
  clear Hr Hp. revert kvs. induction pairs as [|x pairs IH]; intros kvs Hk; cbn; [done|]. apply IH; [intros kv Hkv; apply Hall; by right|].
  intros kv [[E1 E2]|H]%kv_set_keys; [|by apply Hk]. assert (kv = x) as -> by (destruct kv, x; cbn in *; congruence). apply Hall. left.
Qed.
Lemma got_cookies world hs proxy max_bytes raw_body url hops r : http_get world hs proxy max_bytes raw_body url = (hops, r) ->
  forall k h, hops !! k = Some h -> exists o, made ip_kind idna hs proxy max_bytes (own_cookies world proxy max_bytes) (world k) (first_home None hops) h o.
Proof.
  intros Hget. destruct (got _ _ _ _ _ _ _ _ Hget (own_cookies world proxy max_bytes)) as (_ & Hm & _); [|by intros host kv ?%not_elem_of_nil|exact Hm].
  intros host line pairs kvs. apply own_cookies_set.
Qed.

(** C13: what the hops of a fetch send.  A header of a hop is the Host the URL names; or a Cookie made only of
    cookies that host set itself in this fetch; or a configured header (the panel's own identification, an
    operator's token, a configured Cookie), which goes to another origin than the one asked first only when it
    is one of six that say nothing about the box: any other goes to the same host, over the same scheme and
    port, or over https where the first request had gone to the http port. *)
Theorem secrets_stay_home world hs proxy max_bytes raw_body url hops r : http_get world hs proxy max_bytes raw_body url = (hops, r) ->
  forall k h first name value, hops !! k = Some h -> hops !! 0%nat = Some first -> (name, value) ∈ hp_headers h ->
    (name = "Host" /\ value = authority (u_hostname (hp_url h)) (hp_origin h).2 (u_scheme (hp_url h))) \/
    (name = "Cookie" /\ exists kvs, value = join "; " ((fun kv => kv.1 +:+ "=" +:+ kv.2) <$> kvs) /\ own_cookies world proxy max_bytes (hp_origin h).1.2 kvs) \/
    ((name, value) ∈ hs /\
     (same_home (hp_origin first) (hp_origin h) \/ lower name ∈ ["user-agent"; "accept"; "accept-language"; "accept-encoding"; "host"; "connection"])).
Proof.
  intros Hm k h first name value Hk Hf Hin. assert (first_home None hops = hp_origin first) as Hh by (destruct hops; [done|by injection Hf as ->]).
  eapply got_cookies in Hk as [o Ho]; [|exact Hm]. rewrite Hh in Ho. destruct Ho as [current u port pinned jar d Ht Hj -> Hr].
  cbn [hp_origin hp_headers hp_url fst snd] in *. set (here := (u_scheme u, lower (u_hostname u), port)) in *.
  assert ((name, value) ∈ kv_set "Host" (authority (u_hostname u) port (u_scheme u)) (if credentials_travel (hp_origin first) here then hs else cross_origin_headers hs) ->
    (name = "Host" /\ value = authority (u_hostname u) port (u_scheme u)) \/ ((name, value) ∈ hs /\
     (same_home (hp_origin first) here \/ lower name ∈ ["user-agent"; "accept"; "accept-language"; "accept-encoding"; "host"; "connection"]))) as Hbase.
  { intros [[E1 E2]|H]%kv_set_keys; [by left|right]. destruct (credentials_travel _ _) eqn:Ec; [split; [done|left; by apply travel_home]|].
    apply list_elem_of_filter in H as [Hsafe H]. split; [done|by right]. }
  revert Hin. unfold hop_headers. cbv zeta. destruct jar as [[|kv kvs]|]; [tauto| |tauto].
  intros [[E1 E2]|H]%kv_set_keys; [|by destruct (Hbase H); auto]. right; left. split; [done|]. exists (kv :: kvs). split; [done|]. by apply Hj.
Qed.

Lemma request_answered a u pinned hs proxy max_bytes od x : request_once idna a u pinned hs proxy max_bytes = (od, inr x) ->
  exists d rep, od = Some d /\ an_reply a d = inr rep /\ accept_reply max_bytes rep = inr x.
Proof.
  unfold request_once. destruct (match match idna _ with Some h => inr h | None => _ end with inl e => inl e | inr _ => _ end) as [|[[host port] via]]; [done|].
  destruct (an_dial a _ _); [done|]. destruct (open_path a via (ip_text pinned) port) as [asked opened]. cbv zeta.
  destruct (match opened with inl e => inl e | inr _ => _ end) as [|bytes]; [done|]. intros [= <- H]. apply let_inr in H as (rep & Hrep & Hacc).
  eexists _, rep. done.
Qed.
Lemma decode_content_cap raw rh max_bytes out : (String.length raw <= max_bytes)%nat -> decode_content gunzip raw rh max_bytes = inr out ->
  (String.length out <= max_bytes)%nat.
Proof.
  intros Hraw. unfold decode_content. cbv zeta. case_bool_decide as He; [by intros [= <-]|]. destruct (negb _); [done|].
  intros ([[o tail] eof] & _ & H)%let_inr. destruct (Nat.ltb_spec max_bytes (String.length o)); [done|]. cbn [orb] in H.
  destruct tail; [done|]. destruct eof; [|done]. by injection H as <-.
Qed.

(** C14: a fetch that returns something returns the whole answer of its last hop, of status 2xx: every
    byte the server declared and sent, not more than the cap before and after decompression. *)
Theorem fetch_whole_body world hs proxy max_bytes raw_body url hops body rh :
  http_get world hs proxy max_bytes raw_body url = (hops, inr (body, rh)) ->
  exists k h d rep raw, hops !! k = Some h /\ length hops = S k /\ hp_dial h = Some d /\ an_reply (world k) d = inr rep /\
    200 <= rp_status rep < 300 /\ rh = rp_headers rep /\ whole max_bytes rep /\
    decode_content gunzip (rp_body rep) rh max_bytes = inr raw /\ (String.length raw <= max_bytes)%nat /\
    body = (if raw_body then raw else decode_body codec rh raw).
Proof.
  intros Hget. destruct (got _ _ _ _ _ _ _ _ Hget (fun _ _ => True)) as (_ & _ & H); [done..|].
  destruct (H _ eq_refl) as (k & h & status & rh' & raw & Hk & Hl & [current u port pinned jar d Ht _ Hh Hr] & Hs & Hf). clear H.
  apply request_answered in Hr as (d' & rep & -> & Hrep & Hacc). apply accept_reply_whole in Hacc as (-> & -> & -> & Hw).
  apply let_inr in Hf as (out & Hd & Hf). injection Hf as <- <-. exists k, h, d', rep, out. destruct Hs as [Hs1 Hs2]. split_and!; try done.
  - by rewrite Hh.
  - eapply decode_content_cap; [apply Hw|done].
Qed.

Lemma hop_headers_clean home here hs host_header jar : clean_headers hs -> one_line host_header = true ->
  (forall kvs, jar = Some kvs -> clean_headers kvs) -> clean_headers (hop_headers home here hs host_header jar).
Proof.
  intros Hh Ho Hj. unfold hop_headers. cbv zeta.
  assert (clean_headers (kv_set "Host" host_header (if credentials_travel home here then hs else cross_origin_headers hs))) as Hc.
  { apply kv_set_clean; [done|done|]. destruct (credentials_travel _ _); [done|by apply filter_clean]. }
  destruct jar as [[|kv kvs]|]; [done| |done]. apply kv_set_clean; [done| |done]. apply join_one_line; [done|].
  apply Forall_forall. intros t (x & -> & Hx)%list_elem_of_fmap. destruct (Hj _ eq_refl x Hx) as [H1 H2]. by rewrite !one_line_app, H1, H2.
Qed.
Lemma sent_headers_elem hs host_header kv : kv ∈ sent_headers hs host_header ->
  kv = ("Connection", "close") \/ kv = ("Host", host_header) \/
  (lower kv.1 ∉ ["host"; "connection"; "content-length"] /\ exists a b, a ∈ hs /\ b ∈ hs /\ kv = (a.1, b.2)).
Proof.
  unfold sent_headers. cbv zeta. intros [[E1 E2]|[[E1 E2]|H]%kv_set_keys]%kv_set_keys; [left; destruct kv; cbn in *; congruence|right; left; destruct kv; cbn in *; congruence|].
  right; right. apply dict_from_elem in H as (a & b & [Ha Ha']%list_elem_of_filter & [Hb Hb']%list_elem_of_filter & ->). split; [done|]. by exists a, b.
Qed.

(** a request holds the lines meant for it and no other: whatever the configured templates, the
    URL and the redirects contain, the bytes sent are one request line and one line per header, no
    line has a break in it, and the headers that delimit a request are the client's own. *)
Theorem request_lines world url injection tokens proxy hops r :
  (forall h h', idna h = Some h' -> one_line h = true -> one_line h' = true) ->
  (forall line pairs kv, cookie_pairs line = inr pairs -> kv ∈ pairs -> one_line kv.1 = true /\ one_line kv.2 = true) ->
  fetch world url injection tokens proxy = (hops, r) ->
  forall k h d tls bytes, hops !! k = Some h -> hp_dial h = Some d -> d_sent d = Some (tls, bytes) ->
  exists host_header, let sent := sent_headers (hp_headers h) host_header in
    let lines := ("GET " +:+ request_target (hp_url h) +:+ " HTTP/1.1") :: ((fun kv => kv.1 +:+ ": " +:+ kv.2) <$> sent) in
    latin1 (join CRLF (lines ++ [""; ""])) = Some bytes /\ Forall (fun l => one_line l = true) lines /\
    forall kv, kv ∈ sent -> lower kv.1 ∈ ["host"; "connection"; "content-length"] -> kv = ("Host", host_header) \/ kv = ("Connection", "close").
Proof.
  intros Hidna Hcookie Hf k h d tls bytes Hk Hd Hs. unfold Fetch.fetch in Hf. destruct (build_request url injection tokens) as [e|req] eqn:Eb; [by injection Hf as <- <-|].
  pose proof (build_request_lines _ _ _ _ Eb) as Hclean. fold (clean_headers (br_headers req)) in Hclean.
  destruct (scheme_allowed _) as [e|unit]; [by injection Hf as <- <-|]. cbv zeta in Hf.
  destruct (Fetch.http_get _ _ _ _ _ _ world (br_headers req) proxy MAX_BYTES false (br_url req)) as [hops' r'] eqn:Eg. injection Hf as -> _.
  destruct (got _ _ _ _ _ _ _ _ Eg (fun _ => clean_headers)) as (_ & Hm & _).
  { intros _ line pairs kvs _ Hp. pose proof (fun kv => Hcookie line pairs kv Hp) as Hc. clear -Hc. revert kvs.
    induction pairs as [|kv pairs IH]; intros kvs Hkvs; cbn; [done|]. apply IH; [intros kv' Hkv'; apply Hc; by right|].
    destruct (Hc kv) as [H1 H2]; [by left|]. by apply kv_set_clean. }
  { by intros _ kv ?%not_elem_of_nil. }
  apply Hm in Hk as [o [current u port pinned jar od Ht Hj -> Hr]]. cbn [hp_dial hp_headers hp_url] in *. subst od.
  apply hop_target_spec in Ht as (Hu & _ & Hp & _). apply urlsplit_one_line in Hu as (Hn & Hpath & Hq). pose proof (port_or_range _ _ Hp) as Hport.
  eapply request_dialled in Hr as [_ Hsent]; [|done]. destruct (Hsent _ _ Hs) as (host & Hhost & _ & Hbytes).
  assert (one_line host = true) as Hho by (by eapply Hidna, hostname_one_line).
  exists (authority host port (u_scheme u)). cbv zeta. split_and!; [exact Hbytes| |].
  - apply Forall_cons. split; [by rewrite !one_line_app, target_one_line|]. apply Forall_forall. intros t (x & -> & Hx)%list_elem_of_fmap.
    assert (one_line x.1 = true /\ one_line x.2 = true) as [H1 H2]; [|by rewrite !one_line_app, H1, H2].
    apply sent_headers_elem in Hx as [-> | [-> | (_ & a & b & Ha & Hb & ->)]]; [done|split; [done|by apply authority_one_line]|].
    assert (clean_headers (hop_headers (first_home None hops) (u_scheme u, lower (u_hostname u), port) (br_headers req) (authority (u_hostname u) port (u_scheme u)) jar)) as Hc
      by (apply hop_headers_clean; [done|by apply authority_one_line; [apply hostname_one_line|]|done]).
    split; [apply (Hc a)|apply (Hc b)]; done.
  - intros kv [-> | [-> | [Hno _]]]%sent_headers_elem; auto. intros Hin. by destruct Hno.
Qed.
End client.

(** * Examples *)

Module FetchDemo.
Definition in4 (a base : Z) (p : Z) : bool := addr_in a base p 32.
Definition demo_kind (a : ip) : kind :=
  let v4 := ip_version a =? 4 in
  Kind (addr_loopback (ip_version a) (ip_value a))
    (v4 && (in4 (ip_value a) 167772160 8 || in4 (ip_value a) 2886729728 12 || in4 (ip_value a) 3232235520 16))
    (addr_link_local (ip_version a) (ip_value a)) false (v4 && in4 (ip_value a) 3758096384 4) (ip_value a =? 0).
Definition demo_idna (h : string) : option string := if str_all is_ascii h then Some h else None.
Definition demo_codec (label raw : string) : option string := None.
Definition demo_gunzip (raw : string) (n : nat) : string + (string * bool * bool) := inl "not gzip".
(** A name and a value; an escaped line break is decoded, as [SimpleCookie] does. *)
Definition demo_cookies (line : string) : string + headers :=
  let '(name, _, value) := partition "=" line in inr [(name, str_replace "\015\012" CRLF value)].
Definition plain_cookies (line : string) : string + headers :=
  let '(name, _, value) := partition "=" line in inr [(no_crlf name, no_crlf value)].
Definition demo_join (base location : string) : string + string := inr location.

Definition dns_of (texts : list string) (host : string) (port : Z) : dns_answer := Resolved texts.
Definition answer (texts : list string) (r : reply) : answers := Answers (dns_of texts) (fun _ _ => None) (fun _ => []) (fun _ => None) (fun _ => inr r).
Definition moved (location : string) (more : headers) : reply := Reply 302 (("Location", location) :: more) "" None false false.
Definition content (body : string) : reply := Reply 200 [("Content-Type", "text/plain"); ("Content-Length", str_int (Z.of_nat (String.length body)))] body None false false.
Definition demo_injection : json := JObj [("headers", JObj [("x-hwid", JStr "{machine_id}"); ("user-agent", JStr "v2pi/1.0")])].
Definition demo_tokens : headers := [("machine_id", "secret")].
(** A provider that redirects to another host. *)
Definition demo_world (k : nat) : answers :=
  match k with O => answer ["93.184.216.34"; "93.184.216.35"] (moved "http://b.example/feed" []) | _ => answer ["198.18.0.9"] (content "vless") end.
Definition demo_get := Fetch.http_get demo_kind demo_idna demo_codec demo_gunzip plain_cookies demo_join.
Definition demo_headers : headers := [("x-hwid", "secret"); ("user-agent", "v2pi/1.0")].
Definition cap : nat := 4096.
Definition demo_run := demo_get demo_world demo_headers None cap false "https://a.example/sub".
Lemma demo_result : demo_run.2 = inr ("vless", rp_headers (content "vless")).
Proof. by vm_compute. Qed.
(** The second hop does not see the secret. *)
Lemma demo_sent : (fun h => (hp_headers h).*1) <$> demo_run.1 = [["x-hwid"; "user-agent"; "Host"]; ["user-agent"; "Host"]].
Proof. by vm_compute. Qed.
Lemma demo_eq : demo_run = (demo_run.1, demo_run.2).
Proof. by vm_compute. Qed.

Definition nth_hop (k : nat) : hop := default (Hop (Url "" "" "" "" "") ("", "", 0) (Addr 4 0 None) [] None) (demo_run.1 !! k).
Lemma nth_0 : demo_run.1 !! 0%nat = Some (nth_hop 0).
Proof. by vm_compute. Qed.
Lemma nth_1 : demo_run.1 !! 1%nat = Some (nth_hop 1).
Proof. by vm_compute. Qed.
Lemma fetch_pinned_witness : public demo_kind (an_dns (demo_world 1)) "b.example" 80 (hp_pinned (nth_hop 1)).
Proof.
  destruct (fetch_pinned demo_kind demo_idna demo_codec demo_gunzip plain_cookies demo_join demo_world demo_headers None cap false
    "https://a.example/sub" demo_run.1 demo_run.2 demo_eq) as [_ H].
  exact (proj1 (proj2 (H 1%nat (nth_hop 1) nth_1))).
Defined.
(** The second hop goes to another host: its [user-agent] is a configured header that may. *)
Lemma secrets_stay_home_witness : hp_origin (nth_hop 0) <> hp_origin (nth_hop 1) /\
  (("user-agent" = "Host" /\ "v2pi/1.0" = authority (u_hostname (hp_url (nth_hop 1))) (hp_origin (nth_hop 1)).2 (u_scheme (hp_url (nth_hop 1)))) \/
   ("user-agent" = "Cookie" /\ exists kvs, "v2pi/1.0" = join "; " ((fun kv => kv.1 +:+ "=" +:+ kv.2) <$> kvs) /\
      own_cookies demo_kind demo_idna plain_cookies demo_world None cap (hp_origin (nth_hop 1)).1.2 kvs) \/
   (("user-agent", "v2pi/1.0") ∈ demo_headers /\
    (same_home (hp_origin (nth_hop 0)) (hp_origin (nth_hop 1)) \/
     lower "user-agent" ∈ ["user-agent"; "accept"; "accept-language"; "accept-encoding"; "host"; "connection"]))).
Proof.
  assert (("user-agent", "v2pi/1.0") ∈ hp_headers (nth_hop 1)) as Hin by (apply (bool_decide_unpack _); by vm_compute).
  split; [by vm_compute|].
  exact (secrets_stay_home demo_kind demo_idna demo_codec demo_gunzip plain_cookies demo_join demo_world demo_headers None cap false
    "https://a.example/sub" demo_run.1 demo_run.2 demo_eq 1%nat (nth_hop 1) (nth_hop 0) "user-agent" "v2pi/1.0" nth_1 nth_0 Hin).
Defined.
Lemma demo_got : demo_get demo_world demo_headers None cap false "https://a.example/sub" = (demo_run.1, inr ("vless", rp_headers (content "vless"))).
Proof. by vm_compute. Qed.
Lemma fetch_whole_body_witness : exists k h, demo_run.1 !! k = Some h /\ length demo_run.1 = S k.
Proof.
  destruct (fetch_whole_body demo_kind demo_idna demo_codec demo_gunzip plain_cookies demo_join demo_world demo_headers None cap false
    "https://a.example/sub" demo_run.1 "vless" (rp_headers (content "vless")) demo_got) as (k & h & _ & _ & _ & H1 & H2 & _).
  exact (ex_intro _ k (ex_intro _ h (conj H1 H2))).
Defined.

Definition whole_run := Eval vm_compute in Fetch.fetch demo_kind demo_idna demo_codec demo_gunzip plain_cookies demo_join demo_world "https://a.example/sub" demo_injection demo_tokens None.
Lemma whole_eq : Fetch.fetch demo_kind demo_idna demo_codec demo_gunzip plain_cookies demo_join demo_world "https://a.example/sub" demo_injection demo_tokens None = (whole_run.1, whole_run.2).
Proof. by vm_compute. Qed.
Lemma demo_idna_lines h h' : demo_idna h = Some h' -> one_line h = true -> one_line h' = true.
Proof. unfold demo_idna. destruct (str_all is_ascii h); [|done]. by intros [= <-]. Qed.
Lemma plain_cookies_lines line pairs kv : plain_cookies line = inr pairs -> kv ∈ pairs -> one_line kv.1 = true /\ one_line kv.2 = true.
Proof.
  unfold plain_cookies. destruct (partition "=" line) as [[name b] value]. intros [= <-] ->%list_elem_of_singleton. split; apply no_crlf_one_line.
Qed.
Definition first_hop : hop := default (Hop (Url "" "" "" "" "") ("", "", 0) (Addr 4 0 None) [] None) (whole_run.1 !! 0%nat).
Definition first_dial : dial := default (Dial "" 0 None None) (hp_dial first_hop).
Definition first_bytes : string := (default (None, "") (d_sent first_dial)).2.
Lemma first_facts : whole_run.1 !! 0%nat = Some first_hop /\ hp_dial first_hop = Some first_dial /\ d_sent first_dial = Some (Some "a.example", first_bytes).
Proof. by vm_compute. Qed.
Lemma request_lines_witness : exists lines, latin1 (join CRLF (lines ++ [""; ""])) = Some first_bytes.
Proof.
  destruct (request_lines demo_kind demo_idna demo_codec demo_gunzip plain_cookies demo_join demo_world "https://a.example/sub" demo_injection demo_tokens None
    whole_run.1 whole_run.2 demo_idna_lines plain_cookies_lines whole_eq 0%nat first_hop first_dial (Some "a.example") first_bytes
    (proj1 first_facts) (proj1 (proj2 first_facts)) (proj2 (proj2 first_facts))) as (host_header & H & _).
  exact (ex_intro _ _ H).
Defined.
Lemma first_bytes_are : first_bytes =
  join CRLF ["GET /sub HTTP/1.1"; "x-hwid: secret"; "user-agent: v2pi/1.0"; "Host: a.example"; "Connection: close"; ""; ""].
Proof. by vm_compute. Qed.

(** A redirect to a name of the inside is not followed, nor an answer that mixes both kinds of address. *)
Lemma inside_refused : forall texts, texts = ["192.168.1.1"] \/ texts = ["93.184.216.34"; "127.0.0.1"] ->
  let world k := match k with O => answer ["93.184.216.34"] (moved "http://inside.example/" []) | _ => answer texts (content "") end in
  let run := demo_get world demo_headers None cap false "https://a.example/sub" in run.2 = inl NOT_PUBLIC /\ length run.1 = 1%nat.
Proof. intros texts [-> | ->]; by vm_compute. Qed.
(** A cookie whose value decodes to a line break puts a line of its own into the next request. *)
Lemma cookie_adds_line :
  let world k := match k with
                 | O => answer ["93.184.216.34"] (moved "https://a.example/two" [("Set-Cookie", "k=v\015\012X-Extra: 1")])
                 | _ => answer ["93.184.216.34"] (content "") end in
  let run := Fetch.http_get demo_kind demo_idna demo_codec demo_gunzip demo_cookies demo_join world demo_headers None cap false "https://a.example/sub" in
  (fun h => snd <$> (hp_dial h ≫= d_sent)) <$> drop 1 run.1 =
  [Some (join CRLF ["GET /two HTTP/1.1"; "x-hwid: secret"; "user-agent: v2pi/1.0"; "Cookie: k=v"; "X-Extra: 1"; "Host: a.example"; "Connection: close"; ""; ""])].
Proof. by vm_compute. Qed.
End FetchDemo.
