(* ===== verification/Traffic.v ===== *)
(** Traffic accounting: [stats/sampler.py], [stats/history.py] and the callbacks [state.py]
    wires the recorder with.

    The recorder's clock counts milliseconds and the sampler's microseconds; rates are exact
    rationals.  What the environment decides in one tick is a record ([env]): the counters xray
    answers with (or that the query raises), whether it runs, and which store callbacks fail.
    A callback that fails leaves the store as it was: the one for the total is a transaction. *)
From Stdlib Require Import ZArith Lia Ascii QArith.
From stdpp Require Import base gmap strings list.
From S2P Require Import Prelude PyStr Store.
Open Scope string_scope.
Open Scope Z_scope.

(** * The sampler *)

(** [name.split(">>>")] *)
Fixpoint split_gt3 (s : string) : list string :=
  match s with
  | String ">"%char (String ">"%char (String ">"%char r)) => "" :: split_gt3 r
  | String c r => match split_gt3 r with h :: t => String c h :: t | [] => [String c ""] end
  | EmptyString => [""]
  end.

Definition parse (name : string) : option (string * string) :=
  match split_gt3 name with
  | [a; tag; b; dir] => if bool_decide (a = "outbound" /\ b = "traffic") then Some (tag, dir) else None
  | _ => None
  end.

(** xray's answer: name and value, in its order, each name once. *)
Definition counters := list (string * Z).
Definition counter (cs : counters) (name : string) : option Z := snd <$> head (filter (fun c : string * Z => c.1 = name) cs).

Record sampler := Sampler {
  sm_prev : counters;
  sm_prev_t : option Z;
  sm_totals : gmap string (Z * Z)
}.
Definition new_sampler : sampler := Sampler [] None ∅.

(** One series: bits per second, none on the first sample and after a reset. *)
Definition bps (prev : option Z) (value dt : Z) : Q :=
  match prev with
  | Some p => if (0 <? dt) && (p <=? value) then ((value - p) * 8 * 1000000) # Z.to_pos dt else 0
  | None => 0
  end%Q.

Definition put_dir {A} (zero : A) (dir : string) (v : A) (e : option (A * A)) : A * A :=
  let '(u, d) := default (zero, zero) e in
  if bool_decide (dir = "uplink") then (v, d) else (u, v).

Definition sample_step (s : sampler) (dt : Z) (acc : gmap string (Q * Q) * gmap string (Z * Z)) (c : string * Z) :
    gmap string (Q * Q) * gmap string (Z * Z) :=
  match parse c.1 with
  | None => acc
  | Some (tag, dir) =>
      (<[tag := put_dir 0%Q dir (bps (counter (sm_prev s) c.1) c.2 dt) (acc.1 !! tag)]> acc.1,
       <[tag := put_dir 0 dir c.2 (acc.2 !! tag)]> acc.2)
  end.

Definition sample (now : Z) (cs : counters) (s : sampler) : gmap string (Q * Q) * sampler :=
  let dt := match sm_prev_t s with Some t => now - t | None => 0 end in
  let '(out, totals) := foldl (sample_step s dt) (∅, ∅) cs in
  (out, Sampler cs (Some now) totals).

(** * The history *)

(** [round(x)], halves to the even neighbour. *)
Definition py_round (q : Q) : Z :=
  let (n, d) := (Qnum q, Z.pos (Qden q)) in
  let (k, r) := (n / d, n mod d) in
  if 2 * r <? d then k else if d <? 2 * r then k + 1 else if Z.even k then k else k + 1.

Definition HISTORY_MAX : nat := 3600.
Definition history := list (Z * (Z * Z)).

Definition record_point (ts : Z) (rates : Q * Q) (h : history) : Z * history :=
  let ts := match last h with Some p => if ts <? p.1 then p.1 else ts | None => ts end in
  (ts, last_n HISTORY_MAX (app h [(ts, (py_round rates.1, py_round rates.2))])).

Definition series (since : option Z) (h : history) : history :=
  match since with None => h | Some t => filter (fun p : Z * (Z * Z) => t <= p.1) h end.

(** * The recorder *)

Definition bounded_interval_ms (value : string) : Z := Z.min 60000 (Z.max 500 (default 1000 (py_int value))).

Definition MAX_PENDING_MINUTES : nat := Z.to_nat 1440.
Definition FLUSH_INTERVAL : Z := 30000.

(** A minute's bucket: the minute, bytes up and down. *)
Definition bucket_min := (Z * (Z * Z))%type.

Record recorder := Recorder {
  rc_sampler : sampler;
  rc_history : history;
  rc_prev : option (Z * Z);          (* last absolute counters *)
  rc_recovered : bool;
  rc_pending : Z * Z;
  rc_last_flush : Z;
  rc_minute : option bucket_min;
  rc_minutes : list bucket_min;
  rc_latest : option (Z * gmap string (Q * Q) * gmap string (Z * Z));
  rc_error : string
}.

Definition with_sampler x r := Recorder x (rc_history r) (rc_prev r) (rc_recovered r) (rc_pending r) (rc_last_flush r) (rc_minute r) (rc_minutes r) (rc_latest r) (rc_error r).
Definition with_point h l r := Recorder (rc_sampler r) h (rc_prev r) (rc_recovered r) (rc_pending r) (rc_last_flush r) (rc_minute r) (rc_minutes r) l "".
Definition with_delta p rec pend r := Recorder (rc_sampler r) (rc_history r) p rec pend (rc_last_flush r) (rc_minute r) (rc_minutes r) (rc_latest r) (rc_error r).
Definition with_flush pend t r := Recorder (rc_sampler r) (rc_history r) (rc_prev r) (rc_recovered r) pend t (rc_minute r) (rc_minutes r) (rc_latest r) (rc_error r).
Definition with_minutes m ms r := Recorder (rc_sampler r) (rc_history r) (rc_prev r) (rc_recovered r) (rc_pending r) (rc_last_flush r) m ms (rc_latest r) (rc_error r).
Definition with_error e r := Recorder (rc_sampler r) (rc_history r) (rc_prev r) (rc_recovered r) (rc_pending r) (rc_last_flush r) (rc_minute r) (rc_minutes r) (rc_latest r) e.

(** ** What [state.py] keeps in the store *)

Definition USED_UP : string := "data_used_up".
Definition USED_DOWN : string := "data_used_down".
Definition BASELINE : string := "proxy_abs_baseline".

Definition read_int (k : string) : M Z :=
  (v <- mget (get_setting k) ;;
   match py_int (v or "0") with
   | Some n => mret n
   | None => mraise (ValueError "invalid literal for int()")
   end)%store.

Definition add_data_used (delta : Z * Z) : M unit :=
  tx (u <- read_int USED_UP ;; set_setting USED_UP (str_int (u + delta.1)) ;;;
      d <- read_int USED_DOWN ;; set_setting USED_DOWN (str_int (d + delta.2)))%store.

(** [raw.partition(":")] *)
Definition before_colon (s : string) : string := match split_on ":" s with a :: _ => a | [] => "" end.
Definition after_colon (s : string) : string := match split_on ":" s with _ :: r => join ":" r | [] => "" end.

Definition load_proxy_baseline (d : db) : option (Z * Z) :=
  let raw := get_setting BASELINE d or "" in
  match py_int (before_colon raw), py_int (after_colon raw) with
  | Some u, Some v => Some (u, v)
  | _, _ => None
  end.

Definition save_proxy_baseline (b : Z * Z) : M unit :=
  set_setting BASELINE (str_int b.1 +:+ ":" +:+ str_int b.2).

(** The recorder a starting panel builds. *)
Definition new_recorder (d : db) : recorder :=
  let b := load_proxy_baseline d in
  Recorder new_sampler [] b (match b with Some _ => true | None => false end) (0, 0) 0 None [] None "".

(** ** Operations; [true] is a raised exception *)

Definition some_bytes (b : Z * Z) : bool := negb (b.1 =? 0) || negb (b.2 =? 0).

(** The transaction of a flush: baseline and total together. *)
Definition flush_body (prev : option (Z * Z)) (pending : Z * Z) : M unit :=
  tx (match prev with Some p => save_proxy_baseline p | None => mret tt end ;;;
      if some_bytes pending then add_data_used pending else mret tt)%store.

Definition flush_total (ok : bool) (clock : Z) (r : recorder) (d : db) : bool * recorder * db :=
  if match rc_prev r with Some _ => false | None => true end && negb (some_bytes (rc_pending r))
  then (false, with_flush (rc_pending r) clock r, d)
  else if ok then
    match flush_body (rc_prev r) (rc_pending r) d with
    | (inr _, d') => (false, with_flush (if some_bytes (rc_pending r) then (0, 0) else rc_pending r) clock r, d')
    | (inl _, d') => (true, r, d')
    end
  else (true, r, d).

Definition queue_minute (b : bucket_min) (q : list bucket_min) : list bucket_min :=
  app (drop (S (length q) - MAX_PENDING_MINUTES) q) [b].

(** The loop over the queued buckets; the [oks]-th call is the first to fail. *)
Fixpoint write_minutes (oks : nat) (q : list bucket_min) (d : db) {struct q} : bool * list bucket_min * db :=
  match q with
  | [] => (false, [], d)
  | b :: q' =>
      match oks with
      | O => (true, q, d)
      | S oks' => match add_traffic_minute b.1 b.2.1 b.2.2 d with
                  | (inr _, d') => write_minutes oks' q' d'
                  | (inl _, d') => (true, q, d')
                  end
      end
  end.

(** The current bucket goes into the queue when it holds something. *)
Definition close_minute (r : recorder) : recorder :=
  match rc_minute r with
  | Some b => with_minutes None (if some_bytes b.2 then queue_minute b (rc_minutes r) else rc_minutes r) r
  | None => r
  end.

Definition flush_minute (include_current : bool) (oks : nat) (r : recorder) (d : db) : bool * recorder * db :=
  let r := if include_current then close_minute r else r in
  let '(raised, q, d) := write_minutes oks (rc_minutes r) d in
  (raised, with_minutes (rc_minute r) q r, d).

Definition accumulate_minute (du dd ts : Z) (r : recorder) : recorder :=
  let cur := ts / 60000 in
  let r := match rc_minute r with Some b => if b.1 =? cur then r else close_minute r | None => r end in
  if negb (du =? 0) || negb (dd =? 0) then
    let '(u, v) := match rc_minute r with Some b => b.2 | None => (0, 0) end in
    with_minutes (Some (cur, (u + du, v + dd))) (rc_minutes r) r
  else r.

(** A direction's delta; a counter that went back was reset. *)
Definition delta (prev cur : Z) : Z := if 0 <=? cur - prev then cur - prev else Z.max 0 cur.

Definition accumulate_total (ok : bool) (oks : nat) (clock ts : Z) (r : recorder) (d : db) : recorder * db :=
  match sm_totals (rc_sampler r) !! "proxy" with
  | None => (r, d)
  | Some (up, down) =>
      let r :=
        match rc_prev r with
        | Some (pu, pd) =>
            let '(du, dd) := (delta pu up, delta pd down) in
            let r' := with_delta (Some (up, down)) false ((rc_pending r).1 + du, (rc_pending r).2 + dd) r in
            if rc_recovered r then r' else accumulate_minute du dd ts r'
        | None => with_delta (Some (up, down)) (rc_recovered r) (rc_pending r) r
        end in
      let '(r, d) :=
        if some_bytes (rc_pending r) && (FLUSH_INTERVAL <=? ts - rc_last_flush r)
        then let '(_, r', d') := flush_total ok clock r d in (r', d') else (r, d) in
      let '(_, r, d) := flush_minute false oks r d in
      (r, d)
  end.

(** What one tick meets. *)
Record env := Env {
  ev_clock : Z;
  ev_mono : Z;
  ev_running : bool;
  ev_counters : option counters;     (* [None]: the query raises *)
  ev_total_ok : bool;
  ev_minutes_ok : nat
}.

Definition record_sample (e : env) (out : gmap string (Q * Q)) (r : recorder) (d : db) : recorder * db :=
  let '(ts, h) := record_point (ev_clock e) (default (0, 0)%Q (out !! "proxy")) (rc_history r) in
  let r := with_point h (Some (ts, out, sm_totals (rc_sampler r))) r in
  accumulate_total (ev_total_ok e) (ev_minutes_ok e) (ev_clock e) ts r d.

Definition stats_enabled (d : db) : bool := bool_decide (get_setting "stats_enabled" d or "1" = "1").

(** One tick, and the milliseconds until the next. *)
Definition tick (e : env) (r : recorder) (d : db) : Z * recorder * db :=
  let interval := bounded_interval_ms (get_setting "traffic_sample_ms" d or "1000") in
  if stats_enabled d then
    if ev_running e then
      match ev_counters e with
      | Some cs =>
          let '(out, s) := sample (ev_mono e) cs (rc_sampler r) in
          let '(r, d) := record_sample e out (with_sampler s r) d in
          (interval, r, d)
      | None => (interval, with_error "stats unavailable" r, d)
      end
    else (interval, with_error "xray is not running" r, d)
  else (interval, r, d).

(** [_run]: from the deadline of a tick, its interval and the time it ended, the next deadline and how long to
    sleep until it; behind it already, the deadline is now. *)
Definition pace (next_t interval now : Z) : Z * Z :=
  let next_t := next_t + interval in
  let next_t := if next_t <? now then now else next_t in
  (next_t, next_t - now).
(** What a round of the loop meets: the tick's environment, how long it took and how late the sleep returned. *)
Record round := Round { rd_env : env; rd_took : Z; rd_late : Z }.
(** The rounds from time [start]: when each tick began and the sleep after it. *)
Fixpoint run_loop (next_t start : Z) (r : recorder) (d : db) (rounds : list round) : list (Z * Z) :=
  match rounds with
  | [] => []
  | o :: rounds' =>
      let '(interval, r, d) := tick (rd_env o) r d in
      let now := start + rd_took o in
      let '(next_t, sleep) := pace next_t interval now in
      (start, sleep) :: run_loop next_t (now + sleep + rd_late o) r d rounds'
  end.

Definition flush_on_stop (e : env) (r : recorder) (d : db) : recorder * db :=
  let '(raised, r, d) := flush_total (ev_total_ok e) (ev_clock e) r d in
  if raised then (r, d)
  else let '(_, r, d) := flush_minute true (ev_minutes_ok e) r d in (r, d).

(** * Runs of the panel: ticks, shutdowns and crashes *)

Inductive event_t := Tick (e : env) | Shutdown (e : env) | Crash.

(** After a shutdown or a crash a new panel starts on the same store. *)
Definition happen (x : recorder * db) (v : event_t) : recorder * db :=
  match v with
  | Tick e => let '(_, r, d) := tick e x.1 x.2 in (r, d)
  | Shutdown e => let '(_, d) := flush_on_stop e x.1 x.2 in (new_recorder d, d)
  | Crash => (new_recorder x.2, x.2)
  end.
Definition happens : recorder * db -> list event_t -> recorder * db := foldl happen.
