(* ===== verification/TrafficProps.v ===== *)
(** What the traffic recorder guarantees: across failing stores, shutdowns, crashes and restarts
    of xray the durable total is the bytes along the readings up to the durable baseline
    ([bytes_accounted]); the minute buckets account for every byte and are written once, in order
    ([tick_minutes]); the history is ordered, everything it keeps is bounded and its loop is paced
    ([recorder_bounded]). *)
From Stdlib Require Import ZArith Lia Ascii QArith Sorted DecimalString.
From stdpp Require Import base gmap strings list.
From S2P Require Import Prelude PyStr Store StoreFacts Traffic.
Open Scope string_scope.
Open Scope Z_scope.

(** * The baseline's text *)

Lemma str_int_no_colon z : str_all (fun c => negb (bool_decide (c = ":"%char))) (str_int z) = true.
Proof.
  assert (forall d, str_all (fun c => negb (bool_decide (c = ":"%char))) (NilEmpty.string_of_uint d) = true) as Hu.
  { intros d. apply string_of_uint_all. apply digit_cases; done. }
  destruct (Z.le_gt_cases 0 z) as [Hz|Hz].
  - destruct (str_int_uint z Hz) as (d & -> & _). apply Hu.
  - destruct z as [|p|p]; [lia|lia|]. unfold str_int. cbn [Z.to_int NilZero.string_of_int].
    rewrite nilzero_string by apply pos_to_uint_nonnil. cbn [str_all]. by rewrite Hu.
Qed.

Lemma load_saved b d : get_setting BASELINE d = Some (str_int b.1 +:+ ":" +:+ str_int b.2) -> load_proxy_baseline d = Some b.
Proof.
  intros Hb. unfold load_proxy_baseline. rewrite Hb.
  assert (split_on ":" (str_int b.1 +:+ ":" +:+ str_int b.2) = [str_int b.1; str_int b.2]) as Hs.
  { change (str_int b.1 +:+ ":" +:+ str_int b.2) with (join ":" [str_int b.1; str_int b.2]).
    apply split_on_join; [done|]. repeat constructor; apply str_int_no_colon. }
  assert ((Some (str_int b.1 +:+ ":" +:+ str_int b.2) or "") = str_int b.1 +:+ ":" +:+ str_int b.2) as ->.
  { unfold str_or. pose proof (str_int_nonempty b.1). destruct (str_int b.1); done. }
  unfold before_colon, after_colon. rewrite Hs. cbn [join]. rewrite !py_int_str_int. by destruct b.
Qed.

(** * What a flush commits *)

(** "Data used", both directions. *)
Definition data_used (d : db) : option (Z * Z) :=
  match py_int (get_setting USED_UP d or "0"), py_int (get_setting USED_DOWN d or "0") with
  | Some u, Some v => Some (u, v)
  | _, _ => None
  end.

Definition zadd (a b : Z * Z) : Z * Z := (a.1 + b.1, a.2 + b.2).
Definition zsub (a b : Z * Z) : Z * Z := (a.1 - b.1, a.2 - b.2).
Definition zle (a b : Z * Z) : Prop := a.1 <= b.1 /\ a.2 <= b.2.

Lemma read_int_run k d n : py_int (get_setting k d or "0") = Some n -> read_int k d = (inr n, d).
Proof. intros Hn. unfold read_int, mbind, mget. by rewrite Hn. Qed.

Lemma bind_run {A B} (m : M A) (k : A -> M B) d a d' : m d = (inr a, d') -> mbind m k d = k a d'.
Proof. unfold mbind. by intros ->. Qed.
Lemma bind_raise {A B} (m : M A) (k : A -> M B) d e d' : m d = (inl e, d') -> mbind m k d = (inl e, d').
Proof. unfold mbind. by intros ->. Qed.

Lemma set_run k v d :
  (exists e, set_setting k v d = (inl e, d)) \/ set_setting k v d = (inr tt, set_settings (<[k := v]> (d_settings d)) d).
Proof. unfold set_setting, stmt. case_decide; [by right|left; by eexists]. Qed.

Lemma get_set k k' v d : get_setting k (set_settings (<[k' := v]> (d_settings d)) d) = if decide (k' = k) then Some v else get_setting k d.
Proof. unfold get_setting. cbn. rewrite lookup_insert. done. Qed.

Lemma py_int_or z : py_int (Some (str_int z) or "0") = Some z.
Proof. unfold str_or. pose proof (str_int_nonempty z). destruct (str_int z) eqn:E; [done|]. rewrite <- E. apply py_int_str_int. Qed.

Lemma add_data_used_cases x u d : data_used d = Some u ->
  (exists e, add_data_used x d = (inl e, d)) \/
  exists d', add_data_used x d = (inr tt, d') /\ data_used d' = Some (zadd u x) /\ get_setting BASELINE d' = get_setting BASELINE d.
Proof.
  unfold data_used. intros Hu. destruct (py_int (get_setting USED_UP d or "0")) as [a|] eqn:Ea; [|done].
  destruct (py_int (get_setting USED_DOWN d or "0")) as [b|] eqn:Eb; [|done]. injection Hu as <-.
  unfold add_data_used, tx. rewrite (bind_run _ _ _ _ _ (read_int_run _ _ _ Ea)).
  destruct (set_run USED_UP (str_int (a + x.1)) d) as [[e E1] | E1]; [rewrite (bind_raise _ _ _ _ _ E1); left; by eexists|].
  rewrite (bind_run _ _ _ _ _ E1). set (d1 := set_settings _ d) in *.
  assert (py_int (get_setting USED_DOWN d1 or "0") = Some b) as Eb1 by (unfold d1; by rewrite get_set).
  rewrite (bind_run _ _ _ _ _ (read_int_run _ _ _ Eb1)).
  destruct (set_run USED_DOWN (str_int (b + x.2)) d1) as [[e E2] | E2]; rewrite E2; [left; by eexists|right].
  eexists. split; [done|]. split; [unfold data_used|]; unfold d1; rewrite !get_set; repeat (rewrite decide_False by done);
    repeat (rewrite decide_True by done); [|done]. by rewrite !py_int_or.
Qed.

Lemma some_bytes_false x : some_bytes x = false -> x = (0, 0).
Proof.
  destruct x as [a b]. unfold some_bytes. cbn. intros [H1 H2]%orb_false_iff.
  apply negb_false_iff, Z.eqb_eq in H1, H2. by subst.
Qed.

(** A flush commits the baseline and the bytes up to it together, or nothing. *)
Lemma flush_body_cases p x u d : data_used d = Some u ->
  (exists e, flush_body (Some p) x d = (inl e, d)) \/
  exists d', flush_body (Some p) x d = (inr tt, d') /\ data_used d' = Some (zadd u x) /\ load_proxy_baseline d' = Some p.
Proof.
  intros Hu. unfold flush_body, tx, save_proxy_baseline.
  destruct (set_run BASELINE (str_int p.1 +:+ ":" +:+ str_int p.2) d) as [[e E1] | E1]; [rewrite (bind_raise _ _ _ _ _ E1); left; by eexists|].
  rewrite (bind_run _ _ _ _ _ E1). set (d1 := set_settings _ d) in *.
  assert (data_used d1 = Some u) as Hu1 by (unfold d1, data_used; by rewrite !get_set).
  assert (get_setting BASELINE d1 = Some (str_int p.1 +:+ ":" +:+ str_int p.2)) as Hb1 by (unfold d1; by rewrite get_set).
  destruct (some_bytes x) eqn:Es.
  - destruct (add_data_used_cases x u d1 Hu1) as [[e E2] | (d' & E2 & H1 & H2)]; rewrite E2; [left; by eexists|right].
    exists d'. split; [done|]. split; [done|]. apply load_saved. congruence.
  - apply some_bytes_false in Es as ->. right. exists d1. split; [done|]. split; [|by apply load_saved].
    rewrite Hu1. unfold zadd. cbn. destruct u. cbn. do 2 f_equal; lia.
Qed.

#[local] Open Scope list_scope.

(** * Every byte once *)

(** The absolute counters of the proxy in one answer of xray. *)
Definition totals_step (acc : gmap string (Z * Z)) (c : string * Z) : gmap string (Z * Z) :=
  match parse c.1 with
  | None => acc
  | Some (tag, dir) => <[tag := put_dir 0 dir c.2 (acc !! tag)]> acc
  end.
Definition totals_of (cs : counters) : gmap string (Z * Z) := foldl totals_step ∅ cs.
Definition proxy_total (cs : counters) : option (Z * Z) := totals_of cs !! "proxy".

Lemma sample_totals now cs s : sm_totals (sample now cs s).2 = totals_of cs.
Proof.
  unfold sample, totals_of. set (dt := match sm_prev_t s with Some t => now - t | None => 0 end).
  assert (forall l acc, (foldl (sample_step s dt) acc l).2 = foldl totals_step acc.2 l) as H.
  { induction l as [|c l IH]; intros acc; [done|]. cbn [foldl]. rewrite IH. f_equal.
    unfold sample_step, totals_step. by destruct (parse c.1) as [[tag dir]|]. }
  specialize (H cs (∅, ∅)). destruct (foldl (sample_step s dt) (∅, ∅) cs). cbn in *. done.
Qed.

Lemma zadd_assoc a b c : zadd a (zadd b c) = zadd (zadd a b) c.
Proof. unfold zadd. cbn. f_equal; lia. Qed.
Lemma zadd_0_l a : zadd (0, 0) a = a.
Proof. destruct a. done. Qed.
Lemma zadd_0_r a : zadd a (0, 0) = a.
Proof. destruct a. unfold zadd. cbn. f_equal; lia. Qed.
(** The bytes between two readings of a counter: a reading below the one before is of an xray that was started
    again, and counts from zero. *)
Definition moved (before now : Z) : Z := if now <? before then Z.max 0 now else now - before.
Definition moved2 (before now : Z * Z) : Z * Z := (moved before.1 now.1, moved before.2 now.2).
Fixpoint moved_along (b : Z * Z) (samples : list (Z * Z)) : Z * Z :=
  match samples with [] => (0, 0) | x :: l => zadd (moved2 b x) (moved_along x l) end.

Lemma delta_moved p q : delta p q = moved p q.
Proof. unfold delta, moved. destruct (Z.ltb_spec q p), (Z.leb_spec 0 (q - p)); lia. Qed.
Lemma moved_along_app b l1 l2 : moved_along b (l1 ++ l2) = zadd (moved_along b l1) (moved_along (default b (last l1)) l2).
Proof.
  revert b. induction l1 as [|x l1 IH]; intros b; cbn [app moved_along]; [by rewrite zadd_0_l|].
  rewrite IH, zadd_assoc. f_equal. f_equal. destruct l1 as [|y l1]; [done|]. by rewrite last_cons_cons; destruct (last_is_Some (y :: l1)) as [_ [z ->]].
Qed.
Lemma last_app_default (b : Z * Z) l1 l2 : default b (last (l1 ++ l2)) = default (default b (last l1)) (last l2).
Proof. rewrite last_app. by destruct (last l2). Qed.

(** [path] has gone into the stored total and ends at the stored baseline, [tail] is pending: both are readings
    of [seen], in order, and all of them on a [whole] run. *)
Definition accounted (b0 u0 : Z * Z) (whole : bool) (seen : list (Z * Z)) (r : recorder) (d : db) : Prop :=
  exists path tail, sublist (path ++ tail) seen /\ (whole = true -> path ++ tail = seen) /\
    load_proxy_baseline d = Some (default b0 (last path)) /\ data_used d = Some (zadd u0 (moved_along b0 path)) /\
    rc_prev r = Some (default b0 (last (path ++ tail))) /\ rc_pending r = moved_along (default b0 (last path)) tail.

Lemma bytes_frame b0 u0 whole seen r d r' d' :
  accounted b0 u0 whole seen r d -> d_settings d' = d_settings d -> rc_prev r' = rc_prev r -> rc_pending r' = rc_pending r ->
  accounted b0 u0 whole seen r' d'.
Proof.
  intros (path & tail & H1 & H2 & H3 & H4 & H5 & H6) Hs Hp Hq. exists path, tail.
  unfold load_proxy_baseline, data_used, get_setting in *. rewrite Hs, Hp, Hq. done.
Qed.

Lemma add_traffic_minute_settings t u v d : d_settings (add_traffic_minute t u v d).2 = d_settings d.
Proof. unfold add_traffic_minute, tx, mbind, mget, stmt. cbn. case_decide; cbn; [case_decide; done|done]. Qed.

Lemma write_minutes_settings oks q d : d_settings (write_minutes oks q d).2 = d_settings d.
Proof.
  revert oks d. induction q as [|b q IH]; intros oks d; cbn; [done|]. destruct oks as [|oks]; [done|].
  pose proof (add_traffic_minute_settings b.1 b.2.1 b.2.2 d) as Hs. destruct (add_traffic_minute _ _ _ d) as [[e|[]] d']; cbn in *; [done|].
  by rewrite IH.
Qed.

Lemma close_minute_same r : rc_prev (close_minute r) = rc_prev r /\ rc_pending (close_minute r) = rc_pending r /\
  rc_history (close_minute r) = rc_history r.
Proof. unfold close_minute. by destruct (rc_minute r). Qed.

Lemma flush_minute_accounted b0 u0 whole seen cur oks r d :
  accounted b0 u0 whole seen r d -> let '(_, r', d') := flush_minute cur oks r d in accounted b0 u0 whole seen r' d'.
Proof.
  intros Ha. unfold flush_minute. set (r1 := if cur then close_minute r else r).
  pose proof (write_minutes_settings oks (rc_minutes r1) d) as Hs. destruct (write_minutes oks (rc_minutes r1) d) as [[raised q] d'].
  cbn in Hs. eapply bytes_frame; [exact Ha|done| |]; unfold r1; destruct cur; cbn; try done; apply close_minute_same.
Qed.

(** A flush that does not raise leaves nothing pending. *)
Definition settled (r : recorder) (d : db) : Prop := load_proxy_baseline d = rc_prev r /\ rc_pending r = (0, 0).
Lemma flush_total_accounted b0 u0 whole seen ok clock r d :
  accounted b0 u0 whole seen r d -> let '(raised, r', d') := flush_total ok clock r d in
  accounted b0 u0 whole seen r' d' /\ rc_prev r' = rc_prev r /\ (raised = false -> settled r' d').
Proof.
  intros (path & tail & H1 & H2 & H3 & H4 & H5 & H6). unfold flush_total. rewrite H5. cbn [andb].
  destruct ok; [|split; [by exists path, tail|by rewrite H5]].
  destruct (flush_body_cases (default b0 (last (path ++ tail))) (rc_pending r) _ d H4) as [[e ->] | (d' & -> & Hu & Hb)]; [split; [by exists path, tail|by rewrite H5]|].
  assert (rc_pending (with_flush (if some_bytes (rc_pending r) then (0, 0) else rc_pending r) clock r) = (0, 0)) as Hp.
  { cbn. destruct (some_bytes (rc_pending r)) eqn:E; [done|by apply some_bytes_false]. }
  split; [|split; [done|intros _; split; [by rewrite Hb|done]]]. exists (path ++ tail), []. rewrite app_nil_r. split_and!; try done.
  by rewrite Hu, H6, moved_along_app, zadd_assoc.
Qed.

Lemma accumulate_minute_same du dd ts r :
  rc_prev (accumulate_minute du dd ts r) = rc_prev r /\ rc_pending (accumulate_minute du dd ts r) = rc_pending r /\
  rc_history (accumulate_minute du dd ts r) = rc_history r.
Proof.
  unfold accumulate_minute. set (r1 := match rc_minute r with Some b => _ | None => _ end).
  assert (rc_prev r1 = rc_prev r /\ rc_pending r1 = rc_pending r /\ rc_history r1 = rc_history r) as Hr.
  { unfold r1. destruct (rc_minute r) as [b|]; [|done]. destruct (b.1 =? _); [done|]. apply close_minute_same. }
  destruct (_ || _); [|done]. by destruct (match rc_minute r1 with Some b => b.2 | None => (0, 0) end).
Qed.

Lemma accumulate_accounted b0 u0 whole seen ok oks clock ts r d :
  accounted b0 u0 whole seen r d -> let '(r', d') := accumulate_total ok oks clock ts r d in
  accounted b0 u0 whole (seen ++ option_list (sm_totals (rc_sampler r) !! "proxy")) r' d'.
Proof.
  intros Ha. unfold accumulate_total. destruct (sm_totals (rc_sampler r) !! "proxy") as [[up down]|]; cbn [option_list]; [|by rewrite app_nil_r].
  set (r1 := match rc_prev r with Some _ => _ | None => _ end).
  assert (accounted b0 u0 whole (seen ++ [(up, down)]) r1 d) as Ha1.
  { destruct Ha as (path & tail & H1 & H2 & H3 & H4 & H5 & H6). exists path, (tail ++ [(up, down)]). rewrite app_assoc. split_and!; try done.
    - by apply sublist_app.
    - intros Hw. by rewrite H2.
    - unfold r1. rewrite H5, last_snoc. destruct (default b0 (last (path ++ tail))) as [pu pd]. destruct (rc_recovered r); [done|]. by rewrite (proj1 (accumulate_minute_same _ _ _ _)).
    - unfold r1. rewrite H5, moved_along_app, <- H6, <- last_app_default. destruct (default b0 (last (path ++ tail))) as [pu pd].
      destruct (rc_recovered r); [|rewrite (proj1 (proj2 (accumulate_minute_same _ _ _ _)))]; cbn; unfold zadd, moved2; cbn; rewrite !delta_moved; f_equal; lia. }
  assert (exists r2 d2, (if some_bytes (rc_pending r1) && (FLUSH_INTERVAL <=? ts - rc_last_flush r1)
        then let '(_, r', d') := flush_total ok clock r1 d in (r', d') else (r1, d)) = (r2, d2) /\ accounted b0 u0 whole (seen ++ [(up, down)]) r2 d2) as (r2 & d2 & -> & Ha2).
  { destruct (_ && _); [|by eexists _, _]. pose proof (flush_total_accounted _ _ _ _ ok clock _ _ Ha1) as Hf.
    destruct (flush_total ok clock r1 d) as [[x r'] d']. eexists _, _. split; [done|]. apply Hf. }
  pose proof (flush_minute_accounted _ _ _ _ false oks _ _ Ha2) as Hf. by destruct (flush_minute false oks r2 d2) as [[x r'] d'].
Qed.

(** The proxy's counters a tick reads: with statistics on and xray running, what xray answers. *)
Definition reading (e : env) (d : db) : option (Z * Z) :=
  if stats_enabled d && ev_running e then ev_counters e ≫= proxy_total else None.
(** The readings of a run, in order. *)
Fixpoint readings (x : recorder * db) (evs : list event_t) : list (Z * Z) :=
  match evs with
  | [] => []
  | v :: evs' => match v with Tick e => option_list (reading e x.2) | _ => [] end ++ readings (happen x v) evs'
  end.
(** No panel of the run crashed, or stopped without flushing the total. *)
Fixpoint unbroken (x : recorder * db) (evs : list event_t) : bool :=
  match evs with
  | [] => true
  | v :: evs' => match v with Tick _ => true | Shutdown e => negb (flush_total (ev_total_ok e) (ev_clock e) x.1 x.2).1.1 | Crash => false end &&
                 unbroken (happen x v) evs'
  end.

(** A panel that starts goes on from the stored baseline; nothing is left behind when nothing was pending. *)
Lemma new_recorder_accounted b0 u0 whole seen r d : accounted b0 u0 whole seen r d ->
  accounted b0 u0 false seen (new_recorder d) d /\ (settled r d -> accounted b0 u0 whole seen (new_recorder d) d).
Proof.
  intros (path & tail & H1 & H2 & H3 & H4 & H5 & H6). split.
  - exists path, []. rewrite app_nil_r. unfold new_recorder. rewrite H3. split_and!; try done. etrans; [|exact H1]. by apply sublist_inserts_r.
  - intros [Hb Hp]. exists (path ++ tail), []. rewrite app_nil_r. unfold new_recorder. rewrite Hb, H5. split_and!; try done.
    rewrite H4, moved_along_app, <- H6, Hp, zadd_0_r. done.
Qed.

Lemma tick_accounted b0 u0 whole seen e r d : accounted b0 u0 whole seen r d ->
  let '(_, r', d') := tick e r d in accounted b0 u0 whole (seen ++ option_list (reading e d)) r' d'.
Proof.
  intros Ha. unfold tick, reading. destruct (stats_enabled d); cbn [andb option_list]; [|by rewrite app_nil_r].
  destruct (ev_running e); cbn [option_list]; [|rewrite app_nil_r; by eapply bytes_frame].
  destruct (ev_counters e) as [cs|]; cbn [option_bind mbind option_list]; [|rewrite app_nil_r; by eapply bytes_frame].
  pose proof (sample_totals (ev_mono e) cs (rc_sampler r)) as Hs. destruct (sample (ev_mono e) cs (rc_sampler r)) as [out s]. cbn in Hs.
  unfold record_sample. destruct (record_point _ _ _) as [ts h]. set (r1 := with_point _ _ _).
  assert (accounted b0 u0 whole seen r1 d) as Ha1 by (by eapply bytes_frame).
  assert (sm_totals (rc_sampler r1) = totals_of cs) as Hs1 by (unfold r1; cbn; done).
  pose proof (accumulate_accounted b0 u0 whole seen (ev_total_ok e) (ev_minutes_ok e) (ev_clock e) ts r1 d Ha1) as Hacc.
  rewrite Hs1 in Hacc. fold (proxy_total cs) in Hacc. by destruct (accumulate_total _ _ _ _ _ _) as [r' d'].
Qed.

Lemma stop_accounted b0 u0 whole seen e r d : accounted b0 u0 whole seen r d ->
  let d' := (flush_on_stop e r d).2 in
  accounted b0 u0 (whole && negb (flush_total (ev_total_ok e) (ev_clock e) r d).1.1) seen (new_recorder d') d'.
Proof.
  intros Ha. unfold flush_on_stop. pose proof (flush_total_accounted _ _ _ _ (ev_total_ok e) (ev_clock e) _ _ Ha) as Hf.
  destruct (flush_total _ _ r d) as [[raised r1] d1]. destruct Hf as (Hf & _ & Hs). cbn [fst snd]. destruct raised; cbn [negb].
  { rewrite andb_false_r. cbn [snd]. exact (proj1 (new_recorder_accounted _ _ _ _ _ _ Hf)). }
  rewrite andb_true_r. destruct (Hs eq_refl) as [Hb Hp].
  assert (forall t, d_settings (flush_minute true t r1 d1).2 = d_settings d1 /\ rc_prev (flush_minute true t r1 d1).1.2 = rc_prev r1 /\
    rc_pending (flush_minute true t r1 d1).1.2 = rc_pending r1) as Hm.
  { intros t. unfold flush_minute. pose proof (write_minutes_settings t (rc_minutes (close_minute r1)) d1) as Hw.
    destruct (write_minutes _ _ d1) as [[x q] d2]. destruct (close_minute_same r1) as (C1 & C2 & _). done. }
  specialize (Hm (ev_minutes_ok e)). destruct (flush_minute _ _ r1 d1) as [[x r2] d2]. cbn [fst snd] in *. destruct Hm as (M1 & M2 & M3).
  assert (accounted b0 u0 whole seen r2 d2) as H2 by (by eapply bytes_frame).
  apply (proj2 (new_recorder_accounted _ _ _ _ _ _ H2)). split; [|congruence].
  rewrite M2, <- Hb. unfold load_proxy_baseline, get_setting. by rewrite M1.
Qed.

Lemma happens_accounted b0 u0 whole seen x evs : accounted b0 u0 whole seen x.1 x.2 ->
  accounted b0 u0 (whole && unbroken x evs) (seen ++ readings x evs) (happens x evs).1 (happens x evs).2.
Proof.
  revert whole seen x. induction evs as [|v evs IH]; intros whole seen x Ha; [by rewrite andb_true_r, app_nil_r|].
  change (happens x (v :: evs)) with (happens (happen x v) evs). cbn [readings unbroken]. rewrite app_assoc, andb_assoc. apply IH.
  destruct x as [r d], v as [e|e|]; cbn [happen fst snd] in *.
  - rewrite andb_true_r. pose proof (tick_accounted _ _ _ _ e _ _ Ha) as Ht. by destruct (tick e r d) as [[i r'] d'].
  - rewrite app_nil_r. pose proof (stop_accounted _ _ _ _ e _ _ Ha) as Ht. cbv zeta in Ht. by destruct (flush_on_stop e r d) as [r' d'].
  - rewrite app_nil_r, andb_false_r. exact (proj1 (new_recorder_accounted _ _ _ _ _ _ Ha)).
Qed.

(** Leaving readings out never adds bytes, and takes none away while the counters only rise. *)
Lemma moved_triangle a b c : moved a c <= moved a b + moved b c.
Proof. unfold moved. destruct (Z.ltb_spec c a), (Z.ltb_spec b a), (Z.ltb_spec c b); lia. Qed.
Lemma moved_along_skip a b l : zle (moved_along a l) (zadd (moved2 a b) (moved_along b l)).
Proof.
  destruct l as [|c l]; cbn [moved_along].
  - unfold zle, zadd, moved2, moved. cbn. destruct (Z.ltb_spec b.1 a.1), (Z.ltb_spec b.2 a.2); lia.
  - pose proof (moved_triangle a.1 b.1 c.1). pose proof (moved_triangle a.2 b.2 c.2). unfold zle, zadd, moved2. cbn. lia.
Qed.
Lemma moved_along_sublist b l1 l2 : sublist l1 l2 -> zle (moved_along b l1) (moved_along b l2).
Proof.
  intros H. revert b. induction H as [|x l1 l2 H IH|x l1 l2 H IH]; intros b; cbn [moved_along]; [done| |].
  - destruct (IH x). unfold zle, zadd. cbn. lia.
  - destruct (moved_along_skip b x l1), (IH x). unfold zle, zadd in *. cbn in *. lia.
Qed.
Fixpoint rising (b : Z * Z) (samples : list (Z * Z)) : Prop :=
  match samples with [] => True | x :: l => zle b x /\ rising x l end.
Lemma rising_from b b' l : zle b' b -> rising b l -> rising b' l.
Proof. destruct l as [|x l]; [done|]. intros [? ?] [[? ?] ?]. split; [split; lia|done]. Qed.
Lemma rising_sublist b l1 l2 : sublist l1 l2 -> rising b l2 -> rising b l1.
Proof.
  intros H. revert b. induction H as [|x l1 l2 H IH|x l1 l2 H IH]; intros b; cbn [rising]; [done| |]; intros [Hx Hl]; [split; auto|].
  apply IH. by eapply rising_from.
Qed.
Lemma rising_moved b l : rising b l -> moved_along b l = zsub (default b (last l)) b.
Proof.
  revert b. induction l as [|x l IH]; intros b; cbn [rising moved_along]; [intros _; unfold zsub; cbn; f_equal; lia|].
  intros [[H1 H2] Hl]. rewrite (IH x Hl). assert (default b (last (x :: l)) = default x (last l)) as -> by (destruct l; [done|]; by rewrite last_cons_cons; destruct (last_is_Some (p :: l)) as [_ [z ->]]).
  unfold zadd, zsub, moved2, moved. cbn. destruct (Z.ltb_spec x.1 b.1), (Z.ltb_spec x.2 b.2); try lia. f_equal; lia.
Qed.

(** C25: what the durable total counts.  From a panel that has stored a baseline, over any sequence of ticks,
    shutdowns and crashes, with any of the store's callbacks failing at any of them: the durable "data used" has
    grown by the bytes along a series of the readings that ends at the durable baseline, and what the recorder
    holds pending are the bytes along further readings up to the last one it used; a reading below the one
    before (xray was restarted) counts from zero.  So no byte is counted twice.  Every reading is used, and no
    byte lost, on a run without a crash or a stop whose flush failed, restarts of xray included; and a crash
    loses none as long as the counters rise.  A flush that does not raise leaves nothing outside the durable
    total. *)
Theorem bytes_accounted d0 b0 u0 evs :
  load_proxy_baseline d0 = Some b0 -> data_used d0 = Some u0 ->
  let '(r, d) := happens (new_recorder d0, d0) evs in
  let all := readings (new_recorder d0, d0) evs in
  exists path tail, sublist (path ++ tail) all /\
    let b := default b0 (last path) in
    let p := default b0 (last (path ++ tail)) in
    load_proxy_baseline d = Some b /\ data_used d = Some (zadd u0 (moved_along b0 path)) /\
    rc_prev r = Some p /\ rc_pending r = moved_along b tail /\
    zle (zadd (moved_along b0 path) (rc_pending r)) (moved_along b0 all) /\
    (unbroken (new_recorder d0, d0) evs = true -> path ++ tail = all) /\
    (rising b0 all -> moved_along b0 path = zsub b b0 /\ rc_pending r = zsub p b) /\
    forall clock, let '(raised, _, d') := flush_total true clock r d in
      raised = false -> data_used d' = Some (zadd u0 (moved_along b0 (path ++ tail))).
Proof.
  intros Hb Hu. assert (accounted b0 u0 true [] (new_recorder d0) d0) as Ha.
  { exists [], []. unfold new_recorder. rewrite Hb. cbn. rewrite zadd_0_r. done. }
  pose proof (happens_accounted _ _ _ _ (new_recorder d0, d0) evs Ha) as Ha'. destruct (happens _ _) as [r d]. cbn [fst snd app andb] in Ha'.
  destruct Ha' as (path & tail & H1 & H2 & H3 & H4 & H5 & H6). exists path, tail. cbv zeta.
  assert (moved_along b0 (path ++ tail) = zadd (moved_along b0 path) (rc_pending r)) as Happ by (by rewrite moved_along_app, H6).
  split_and!; try done.
  - rewrite <- Happ. by apply moved_along_sublist.
  - intros Hr. assert (rising b0 (path ++ tail)) as Hpt by (by eapply rising_sublist).
    assert (rising b0 path) as Hp by (eapply rising_sublist; [|exact Hpt]; by apply sublist_inserts_r).
    split; [by apply rising_moved|]. rewrite (rising_moved _ _ Hpt), (rising_moved _ _ Hp) in Happ. unfold zsub, zadd in *. destruct (rc_pending r). cbn in *.
    injection Happ as E1 E2. f_equal; lia.
  - intros clock. unfold flush_total. rewrite H5. cbn [andb].
    destruct (flush_body_cases (default b0 (last (path ++ tail))) (rc_pending r) _ d H4) as [[e ->] | (d' & -> & Hu' & _)]; [done|].
    intros _. by rewrite Hu', <- zadd_assoc, Happ.
Qed.

(** * Minutes *)

Fixpoint bytes (l : list bucket_min) : Z * Z :=
  match l with [] => (0, 0) | b :: l' => zadd b.2 (bytes l') end.
Definition held (r : recorder) : list bucket_min := app (rc_minutes r) (option_list (rc_minute r)).

Lemma bytes_app l1 l2 : bytes (l1 ++ l2) = zadd (bytes l1) (bytes l2).
Proof. induction l1 as [|b l1 IH]; cbn [app bytes]; [by rewrite zadd_0_l|]. by rewrite IH, zadd_assoc. Qed.
Lemma bytes_one b : bytes [b] = b.2.
Proof. cbn. apply zadd_0_r. Qed.

(** One row of the minute table, added and pruned. *)
Definition record_minute (m : gmap Z (Z * Z)) (b : bucket_min) : gmap Z (Z * Z) :=
  let newest := zmax_opt (map_to_list m).*1 in
  filter (fun r : Z * (Z * Z) => anchor newest b.1 - TRAFFIC_RETENTION_MIN <= r.1) (add_bytes b.1 b.2.1 b.2.2 m).

Lemma add_traffic_minute_cases b d :
  (exists e, add_traffic_minute b.1 b.2.1 b.2.2 d = (inl e, d)) \/
  exists d', add_traffic_minute b.1 b.2.1 b.2.2 d = (inr tt, d') /\ d_traffic d' = record_minute (d_traffic d) b.
Proof.
  unfold add_traffic_minute, tx, mbind, mget, stmt. cbn. case_decide; cbn; [|left; by eexists].
  case_decide; cbn; [right|left; by eexists]. by eexists.
Qed.

(** Writing takes a prefix of the queue into the table, each bucket once and in order. *)
Lemma write_minutes_spec oks q d :
  let '(raised, q', d') := write_minutes oks q d in
  exists w, q = app w q' /\ d_traffic d' = foldl record_minute (d_traffic d) w /\ (raised = false -> q' = []).
Proof.
  revert oks d. induction q as [|b q IH]; intros oks d; cbn [write_minutes]; [by exists []|].
  destruct oks as [|oks]; [by exists []|].
  destruct (add_traffic_minute_cases b d) as [[e ->] | (d' & -> & Ht)]; [by exists []|].
  specialize (IH oks d'). destruct (write_minutes oks q d') as [[raised q'] d'']. destruct IH as (w & -> & Hw & Hr).
  exists (b :: w). split; [done|]. split; [|done]. cbn. by rewrite Hw, Ht.
Qed.

Lemma queue_minute_room b q : (length q < MAX_PENDING_MINUTES)%nat -> queue_minute b q = app q [b].
Proof. intros Hq. unfold queue_minute. by replace (S (length q) - MAX_PENDING_MINUTES)%nat with 0%nat by lia. Qed.

Lemma close_minute_bytes r : (length (rc_minutes r) < MAX_PENDING_MINUTES)%nat ->
  bytes (held (close_minute r)) = bytes (held r) /\ exists closed, rc_minutes (close_minute r) = app (rc_minutes r) closed.
Proof.
  intros Hl. unfold close_minute, held. destruct (rc_minute r) as [b|] eqn:Em; [|rewrite Em; split; [done|exists []; by rewrite app_nil_r]].
  cbn [rc_minute rc_minutes with_minutes option_list]. destruct (some_bytes b.2) eqn:Eb.
  - rewrite queue_minute_room by done. rewrite app_nil_r. split; [done|by eexists].
  - apply some_bytes_false in Eb. split; [|exists []; by rewrite app_nil_r].
    change (option_list (Some b)) with [b]. rewrite !bytes_app, bytes_one, Eb. done.
Qed.

Lemma accumulate_minute_bytes du dd ts r : (length (rc_minutes r) < MAX_PENDING_MINUTES)%nat ->
  bytes (held (accumulate_minute du dd ts r)) = zadd (bytes (held r)) (du, dd) /\
  exists closed, rc_minutes (accumulate_minute du dd ts r) = app (rc_minutes r) closed.
Proof.
  intros Hl. unfold accumulate_minute. set (r1 := match rc_minute r with Some b => _ | None => _ end).
  assert (bytes (held r1) = bytes (held r) /\ exists closed, rc_minutes r1 = app (rc_minutes r) closed) as [Hb [closed Hc]].
  { unfold r1. destruct (rc_minute r) as [b|]; [destruct (b.1 =? _)|];
      [split; [done|exists []; by rewrite app_nil_r]|by apply close_minute_bytes|split; [done|exists []; by rewrite app_nil_r]]. }
  destruct (_ || _) eqn:E.
  - set (uv := match rc_minute r1 with Some b => b.2 | None => (0, 0) end).
    assert (bytes (option_list (rc_minute r1)) = uv) as Huv.
    { unfold uv. destruct (rc_minute r1); [apply bytes_one|done]. }
    destruct uv as [u v]. split; [|by exists closed]. unfold held in *. cbn [rc_minutes rc_minute with_minutes].
    match goal with |- context [option_list (Some ?x)] => change (option_list (Some x)) with [x] end.
    rewrite <- Hb, !bytes_app, bytes_one, Huv, <- zadd_assoc. done.
  - apply orb_false_iff in E as [E1%negb_false_iff%Z.eqb_eq E2%negb_false_iff%Z.eqb_eq]. subst. rewrite zadd_0_r.
    split; [done|by exists closed].
Qed.

Lemma flush_total_minutes ok clock r d : let '(_, r', d') := flush_total ok clock r d in
  rc_minutes r' = rc_minutes r /\ rc_minute r' = rc_minute r /\ d_traffic d' = d_traffic d.
Proof.
  assert (forall k v d, d_traffic (set_setting k v d).2 = d_traffic d) as Hs.
  { intros k v d1. by destruct (set_run k v d1) as [[e ->] | ->]. }
  assert (forall k d, (read_int k d).2 = d) as Hi by (intros k d1; unfold read_int, mbind, mget; by destruct (py_int _)).
  assert (forall x d, d_traffic (add_data_used x d).2 = d_traffic d) as Ha.
  { intros x d1. unfold add_data_used, tx, mbind. pose proof (Hi USED_UP d1) as H1. destruct (read_int USED_UP d1) as [[e|u] d2]; [done|]. cbn in H1. subst d2.
    pose proof (Hs USED_UP (str_int (u + x.1)) d1) as H2. destruct (set_setting USED_UP _ d1) as [[e|[]] d2]; [done|].
    pose proof (Hi USED_DOWN d2) as H3. destruct (read_int USED_DOWN d2) as [[e|v] d3]; [done|]. cbn in H2, H3. subst d3.
    pose proof (Hs USED_DOWN (str_int (v + x.2)) d2) as H4. destruct (set_setting USED_DOWN _ d2) as [[e|[]] d3]; [done|]. cbn in *. congruence. }
  unfold flush_total. destruct (_ && _); [done|]. destruct ok; [|done].
  assert (d_traffic (flush_body (rc_prev r) (rc_pending r) d).2 = d_traffic d) as Hf.
  { unfold flush_body, tx, mbind. destruct (rc_prev r) as [p|].
    - unfold save_proxy_baseline. match goal with |- context [set_setting ?k ?v d] => pose proof (Hs k v d) as H1; destruct (set_setting k v d) as [[e|[]] d2] end; [done|].
      cbn in H1. destruct (some_bytes _); [|done]. pose proof (Ha (rc_pending r) d2) as H2. destruct (add_data_used _ d2) as [[e|[]] d3]; cbn in *; congruence.
    - cbn. destruct (some_bytes _); [|done]. pose proof (Ha (rc_pending r) d) as H2. by destruct (add_data_used _ d) as [[e|[]] d3]. }
  by destruct (flush_body _ _ d) as [[e|[]] d'].
Qed.

(** a tick accounts for every byte of its minute.  The bytes xray moved since the last
    tick go into the current minute or the queue; what the tick writes is a prefix of the
    queue, each bucket added once to its row and in order, and a bucket whose write fails
    stays queued. *)
Theorem tick_minutes e r d cs t p :
  stats_enabled d = true -> ev_running e = true -> ev_counters e = Some cs -> proxy_total cs = Some t ->
  rc_prev r = Some p -> rc_recovered r = false -> (length (rc_minutes r) < MAX_PENDING_MINUTES)%nat ->
  let '(_, r', d') := tick e r d in
  exists written closed,
    app written (rc_minutes r') = app (rc_minutes r) closed /\
    d_traffic d' = foldl record_minute (d_traffic d) written /\
    zadd (bytes written) (bytes (held r')) = zadd (bytes (held r)) (delta p.1 t.1, delta p.2 t.2).
Proof.
  intros He Hrun Hc Ht Hp Hrec Hl. unfold tick. rewrite He, Hrun, Hc.
  pose proof (sample_totals (ev_mono e) cs (rc_sampler r)) as Hs. destruct (sample (ev_mono e) cs (rc_sampler r)) as [out s]. cbn in Hs.
  unfold record_sample. destruct (record_point _ _ _) as [ts h]. set (r1 := with_point _ _ _). unfold accumulate_total.
  assert (sm_totals (rc_sampler r1) !! "proxy" = Some t) as -> by (unfold r1; cbn; by rewrite Hs).
  destruct t as [up down], p as [pu pd]. cbn [fst snd].
  change (rc_prev r1) with (rc_prev r). rewrite Hp. change (rc_recovered r1) with (rc_recovered r). rewrite Hrec.
  set (r2 := with_delta _ _ _ r1). assert (held r2 = held r /\ rc_minutes r2 = rc_minutes r) as [Hh Hm] by done.
  destruct (accumulate_minute_bytes (delta pu up) (delta pd down) ts r2) as [Hb [closed Hcl]]; [by rewrite Hm|].
  set (r3 := accumulate_minute _ _ _ _) in *. rewrite Hh in Hb. rewrite Hm in Hcl.
  assert (exists r4 d4, (if some_bytes (rc_pending r3) && (FLUSH_INTERVAL <=? ts - rc_last_flush r3)
        then let '(_, r', d') := flush_total (ev_total_ok e) (ev_clock e) r3 d in (r', d') else (r3, d)) = (r4, d4) /\
        rc_minutes r4 = rc_minutes r3 /\ rc_minute r4 = rc_minute r3 /\ d_traffic d4 = d_traffic d) as (r4 & d4 & -> & H1 & H2 & H3).
  { destruct (_ && _); [|by eexists _, _]. pose proof (flush_total_minutes (ev_total_ok e) (ev_clock e) r3 d) as Hf.
    destruct (flush_total _ _ r3 d) as [[x r'] d']. by eexists _, _. }
  unfold flush_minute. pose proof (write_minutes_spec (ev_minutes_ok e) (rc_minutes r4) d4) as Hw.
  destruct (write_minutes _ _ d4) as [[x q] d5]. destruct Hw as (w & Hq & Hd & _). exists w, closed.
  cbn [rc_minutes with_minutes]. rewrite <- Hq, H1, Hd, H3. split; [done|]. split; [done|].
  rewrite <- Hb. unfold held. cbn [rc_minutes rc_minute with_minutes]. rewrite H2, !bytes_app, zadd_assoc, <- bytes_app, <- Hq. by rewrite H1.
Qed.

(** * Bounds *)

Definition in_order (h : list (Z * (Z * Z))) : Prop :=
  forall i j p q, h !! i = Some p -> h !! j = Some q -> (i <= j)%nat -> p.1 <= q.1.

Lemma record_point_ok ts rates h : in_order h -> (length h <= HISTORY_MAX)%nat ->
  in_order (record_point ts rates h).2 /\ (length (record_point ts rates h).2 <= HISTORY_MAX)%nat.
Proof.
  intros Ho Hl. unfold record_point. set (t := match last h with Some p => _ | None => ts end). cbn [snd]. split.
  - assert (in_order (app h [(t, (py_round rates.1, py_round rates.2))])) as Ha.
    { intros i j p q Hi Hj Hij. apply lookup_app_Some in Hi as [Hi | [Hi1 Hi]], Hj as [Hj | [Hj1 Hj]].
      - by eapply (Ho i j).
      - apply list_lookup_singleton_Some in Hj as [_ <-]. cbn. unfold t.
        destruct (last h) as [l|] eqn:El; [|apply last_None in El; by rewrite El in Hi].
        rewrite last_lookup in El. assert (p.1 <= l.1) as Hpl by (eapply (Ho i); [done|exact El|apply lookup_lt_Some in Hi; lia]).
        destruct (Z.ltb_spec ts l.1); lia.
      - apply lookup_lt_Some in Hj. lia.
      - apply list_lookup_singleton_Some in Hi as [_ <-], Hj as [_ <-]. done. }
    intros i j p q Hi Hj Hij. unfold last_n in Hi, Hj. rewrite lookup_drop in Hi. rewrite lookup_drop in Hj.
    eapply (Ha _ _ _ _ Hi Hj). lia.
  - unfold last_n. rewrite length_drop. lia.
Qed.

Definition bounded_recorder (r : recorder) : Prop :=
  in_order (rc_history r) /\ (length (rc_history r) <= HISTORY_MAX)%nat /\ (length (rc_minutes r) <= MAX_PENDING_MINUTES)%nat.

Lemma max_pending_pos : (1 <= MAX_PENDING_MINUTES)%nat.
Proof. unfold MAX_PENDING_MINUTES. lia. Qed.

Lemma close_minute_bounded r : bounded_recorder r -> bounded_recorder (close_minute r).
Proof.
  intros (H1 & H2 & H3). unfold close_minute. destruct (rc_minute r) as [b|]; [|done]. split; [done|]. split; [done|]. cbn.
  destruct (some_bytes b.2); [|done]. unfold queue_minute. rewrite length_app, length_drop. cbn. pose proof max_pending_pos. lia.
Qed.

Lemma flush_minute_bounded cur oks r d : bounded_recorder r -> bounded_recorder (flush_minute cur oks r d).1.2.
Proof.
  intros Hr. unfold flush_minute. assert (bounded_recorder (if cur then close_minute r else r)) as (H1 & H2 & H3) by (destruct cur; [by apply close_minute_bounded|done]).
  set (r1 := if cur then close_minute r else r) in *. pose proof (write_minutes_spec oks (rc_minutes r1) d) as Hw.
  destruct (write_minutes _ _ d) as [[x q] d']. destruct Hw as (w & Hq & _). split; [done|]. split; [done|]. cbn. rewrite Hq, length_app in H3. lia.
Qed.

Lemma accumulate_minute_bounded du dd ts r : bounded_recorder r -> bounded_recorder (accumulate_minute du dd ts r).
Proof.
  intros Hr. unfold accumulate_minute. set (r1 := match rc_minute r with Some b => _ | None => _ end).
  assert (bounded_recorder r1) as H1.
  { unfold r1. destruct (rc_minute r) as [b|]; [|done]. destruct (b.1 =? _); [done|by apply close_minute_bounded]. }
  destruct (_ || _); [|done]. by destruct (match rc_minute r1 with Some b => b.2 | None => (0, 0) end).
Qed.

Lemma flush_total_bounded ok clock r d : bounded_recorder r -> bounded_recorder (flush_total ok clock r d).1.2.
Proof.
  intros Hr. unfold flush_total. destruct (_ && _); [done|]. destruct ok; [|done]. by destruct (flush_body _ _ d) as [[e|[]] d'].
Qed.

Lemma tick_bounded e r d : bounded_recorder r -> bounded_recorder (tick e r d).1.2 /\ 500 <= (tick e r d).1.1 <= 60000.
Proof.
  intros Hr. unfold tick. set (i := bounded_interval_ms _). assert (500 <= i <= 60000) as Hi by (unfold i, bounded_interval_ms; lia).
  destruct (stats_enabled d); [|done]. destruct (ev_running e); [|done]. destruct (ev_counters e) as [cs|]; [|done].
  destruct (sample _ _ _) as [out s]. unfold record_sample.
  pose proof (record_point_ok (ev_clock e) (default (0, 0)%Q (out !! "proxy")) (rc_history (with_sampler s r))) as Hp.
  destruct (record_point _ _ _) as [ts h]. destruct Hr as (H1 & H2 & H3). destruct (Hp H1 H2) as [P1 P2]. cbn [snd] in P1, P2.
  set (r1 := with_point _ _ _). assert (bounded_recorder r1) as Hr1 by done. clearbody r1.
  unfold accumulate_total. destruct (sm_totals (rc_sampler r1) !! "proxy") as [[up down]|]; [|done].
  set (r2 := match rc_prev r1 with Some _ => _ | None => _ end). assert (bounded_recorder r2) as Hr2.
  { unfold r2. destruct (rc_prev r1) as [[pu pd]|]; [|done]. destruct (rc_recovered r1); [done|by apply accumulate_minute_bounded]. }
  clearbody r2. destruct (_ && _).
  - pose proof (flush_total_bounded (ev_total_ok e) (ev_clock e) r2 d Hr2) as Hf. destruct (flush_total _ _ r2 d) as [[x r3] d3]. cbn in Hf.
    pose proof (flush_minute_bounded false (ev_minutes_ok e) r3 d3 Hf) as Hm. by destruct (flush_minute _ _ r3 d3) as [[y r4] d4].
  - pose proof (flush_minute_bounded false (ev_minutes_ok e) r2 d Hr2) as Hm. by destruct (flush_minute _ _ r2 d) as [[y r4] d4].
Qed.

(** A tick begins half a second after the deadline before its own at the earliest. *)
Lemma run_loop_paced next_t start r d rounds : bounded_recorder r -> next_t <= start ->
  Forall (fun o => 0 <= rd_took o /\ 0 <= rd_late o) rounds ->
  forall k t sleep, run_loop next_t start r d rounds !! k = Some (t, sleep) -> next_t + 500 * Z.of_nat k <= t /\ 0 <= sleep <= 60000.
Proof.
  intros Hr Hs HF. revert next_t start r d Hr Hs. induction HF as [|o rounds [H1 H2] _ IH]; intros next_t start r d Hr Hs k t sleep; cbn [run_loop]; [done|].
  destruct (tick_bounded (rd_env o) r d Hr) as [Hr' Hi]. destruct (tick (rd_env o) r d) as [[interval r'] d']. cbn [fst snd] in *.
  unfold pace. set (next := if _ <? _ then _ else _). assert (next_t + 500 <= next /\ start + rd_took o <= next /\ next <= start + rd_took o + 60000) as (N1 & N2 & N3).
  { unfold next. destruct (Z.ltb_spec (next_t + interval) (start + rd_took o)); lia. }
  destruct k as [|k]; cbn [lookup list_lookup].
  - intros [= <- <-]. lia.
  - intros H. apply IH in H; [lia|done|lia].
Qed.

(** C26: what the recorder holds is bounded for any run, however long the store stays broken: at most 3600
    points, their times in order even when the clock steps back, and at most a day of unwritten minutes.  And
    its loop is paced, whatever the setting says and however long ticks take: the tick number [k] (from 0)
    begins at least [k] half seconds after the loop, and no sleep is longer than a minute. *)
Theorem recorder_bounded d0 evs t0 rounds :
  Forall (fun o => 0 <= rd_took o /\ 0 <= rd_late o) rounds ->
  let '(r, d) := happens (new_recorder d0, d0) evs in
  in_order (rc_history r) /\ (length (rc_history r) <= 3600)%nat /\ (length (rc_minutes r) <= 1440)%nat /\
  forall k start sleep, run_loop t0 t0 r d rounds !! k = Some (start, sleep) -> t0 + 500 * Z.of_nat k <= start /\ 0 <= sleep <= 60000.
Proof.
  intros HF. assert (forall d, bounded_recorder (new_recorder d)) as Hnew.
  { intros d. split; [by intros i j p q Hi|]. cbn. lia. }
  assert (forall x, bounded_recorder x.1 -> bounded_recorder (happens x evs).1) as Hall.
  { induction evs as [|v evs IH]; intros x Hx; [done|]. unfold happens. cbn [foldl]. apply IH. destruct v as [e'|e'|]; cbn [happen].
    - pose proof (proj1 (tick_bounded e' x.1 x.2 Hx)). by destruct (tick e' x.1 x.2) as [[i r'] d'].
    - destruct (flush_on_stop e' x.1 x.2) as [r' d']. apply Hnew.
    - apply Hnew. }
  specialize (Hall (new_recorder d0, d0) (Hnew d0)). destruct (happens _ evs) as [r d]. cbn in Hall.
  pose proof Hall as (H1 & H2 & H3). split_and!; try done. by apply run_loop_paced.
Qed.

(** * A recorder at work *)
Module TrafficDemo.
Definition answer (up down : Z) : counters :=
  [("outbound>>>direct>>>traffic>>>uplink", 7); ("outbound>>>proxy>>>traffic>>>uplink", up);
   ("outbound>>>proxy>>>traffic>>>downlink", down)].
Definition at_ (clock up down : Z) (ok : bool) : env := Env clock (clock * 1000) true (Some (answer up down)) ok 5.
Definition box : db := set_settings {[USED_UP := "100"; USED_DOWN := "200"; BASELINE := "1000:2000"]} empty_db.
(** A flush that fails, a crash, and a flush that succeeds. *)
Definition evs : list event_t :=
  [Tick (at_ 60000 1010 2100 false); Tick (at_ 120000 1030 2200 false); Crash; Tick (at_ 180000 1100 2300 true); Tick (at_ 180500 1100 2350 true)].

(** The run ends with an xray that was started again. *)
Definition restarted : list event_t := evs ++ [Tick (at_ 240000 40 60 true)].
Lemma bytes_accounted_witness :
  let '(r, d) := happens (new_recorder box, box) restarted in
  let all := readings (new_recorder box, box) restarted in
  exists path tail, sublist (path ++ tail) all /\
    let b := default (1000, 2000) (last path) in
    let p := default (1000, 2000) (last (path ++ tail)) in
    load_proxy_baseline d = Some b /\ data_used d = Some (zadd (100, 200) (moved_along (1000, 2000) path)) /\
    rc_prev r = Some p /\ rc_pending r = moved_along b tail /\
    zle (zadd (moved_along (1000, 2000) path) (rc_pending r)) (moved_along (1000, 2000) all) /\
    (unbroken (new_recorder box, box) restarted = true -> path ++ tail = all) /\
    (rising (1000, 2000) all -> moved_along (1000, 2000) path = zsub b (1000, 2000) /\ rc_pending r = zsub p b) /\
    forall clock, let '(raised, _, d') := flush_total true clock r d in
      raised = false -> data_used d' = Some (zadd (100, 200) (moved_along (1000, 2000) (path ++ tail))).
Proof. apply (bytes_accounted box (1000, 2000) (100, 200) restarted); by vm_compute. Defined.
Example restarted_totals :
  let '(r, d) := happens (new_recorder box, box) restarted in data_used d = Some (240, 610) /\ load_proxy_baseline d = Some (40, 60) /\ rc_pending r = (0, 0).
Proof. vm_compute. done. Qed.

(** 100 bytes up and 300 down are durable, the crash notwithstanding; 50 more are pending. *)
Example demo_totals :
  let '(r, d) := happens (new_recorder box, box) evs in
  data_used d = Some (200, 500) /\ load_proxy_baseline d = Some (1100, 2300) /\ rc_pending r = (0, 50).
Proof. vm_compute. done. Qed.

(** A slow tick puts the loop behind: it does not sleep, and goes on from there. *)
Definition slow : list round := [Round (at_ 60000 1010 2100 true) 40 1; Round (at_ 61000 1020 2150 true) 2500 0; Round (at_ 63500 1030 2200 true) 40 0].
Lemma recorder_bounded_witness :
  let '(r, d) := happens (new_recorder box, box) evs in
  in_order (rc_history r) /\ (length (rc_history r) <= 3600)%nat /\ (length (rc_minutes r) <= 1440)%nat /\
  forall k start sleep, run_loop 0 0 r d slow !! k = Some (start, sleep) -> 0 + 500 * Z.of_nat k <= start /\ 0 <= sleep <= 60000.
Proof. apply (recorder_bounded box evs 0 slow). repeat constructor; cbn; lia. Defined.
Example slow_rounds : run_loop 0 0 (new_recorder box) box slow = [(0, 960); (1001, 0); (3501, 960)].
Proof. by vm_compute. Qed.

Definition running : recorder := (happens (new_recorder box, box) [Tick (at_ 60000 1010 2100 true); Tick (at_ 60500 1030 2200 true)]).1.
Lemma tick_minutes_witness :
  let e := at_ 120500 1100 2300 true in
  let '(_, r', d') := tick e running box in
  exists written closed,
    app written (rc_minutes r') = app (rc_minutes running) closed /\
    d_traffic d' = foldl record_minute (d_traffic box) written /\
    zadd (bytes written) (bytes (held r')) = zadd (bytes (held running)) (delta 1030 1100, delta 2200 2300).
Proof.
  apply (tick_minutes (at_ 120500 1100 2300 true) running box (answer 1100 2300) (1100, 2300) (1030, 2200)); try done.
  all: try (by vm_compute). apply Nat.ltb_lt. by vm_compute.
Defined.
End TrafficDemo.
