(* ===== verification/Web.v ===== *)
(** Request handlers of the HTTP layer as programs that other threads interleave with.

    The panel runs its handlers in a thread pool over one store (FastAPI runs a
    [def] handler in a worker thread).  [prog A] is a handler as the sequence of its
    accesses to the shared state: each [Act] is one access, atomic because it is one
    statement under the connection's lock, one [with store.transaction()] block, or
    one block under the login lock; between two of them anything may happen.  [run]
    is a handler alone on the panel; the interleavings are the step relation of
    AuthFlow.v.

    [world] is what handlers share: the database, the login guard's buckets (a
    dictionary of references into a heap, because a handler keeps its bucket across
    the lock), the free slots of the password verifier, and the file with the
    first-run token.  [H A] is a handler: it reads and changes the request's own
    state (the session and the cached principal), and returns, raises an
    [HTTPException] or lets another exception through. *)
From Stdlib Require Import ZArith Lia.
From stdpp Require Import base gmap strings list.
From S2P Require Import Prelude PyStr Store.
Open Scope Z_scope.

(** * Interruptible programs *)

Inductive prog (Σ : Type) (A : Type) : Type :=
  | Ret (a : A)
  | Act {B : Type} (m : Σ -> B * Σ) (k : B -> prog Σ A).
Arguments Ret {Σ A} a.
Arguments Act {Σ A B} m k.

Fixpoint pbind {Σ A B} (p : prog Σ A) (f : A -> prog Σ B) : prog Σ B :=
  match p with
  | Ret a => f a
  | Act m k => Act m (fun b => pbind (k b) f)
  end.

(** A program alone on its state. *)
Fixpoint run {Σ A} (p : prog Σ A) (w : Σ) : A * Σ :=
  match p with
  | Ret a => (a, w)
  | Act m k => let (b, w') := m w in run (k b) w'
  end.

Lemma run_pbind {Σ A B} (p : prog Σ A) (f : A -> prog Σ B) w :
  run (pbind p f) w = let (a, w') := run p w in run (f a) w'.
Proof.
  revert w. induction p as [a|X m k IH]; intros w; cbn; [done|].
  destruct (m w) as [b w']. apply IH.
Qed.

(** What every access of a program keeps between its start and its end. *)
Definition keeping {Σ} (R : Σ -> Σ -> Prop) {A} : prog Σ A -> Prop :=
  fix go p := match p with
              | Ret _ => True
              | Act m k => forall w, R w (m w).2 /\ go (k (m w).1)
              end.

Lemma keeping_run {Σ} (R : Σ -> Σ -> Prop) `{!Reflexive R, !Transitive R} {A} (p : prog Σ A) w :
  keeping R p -> R w (run p w).2.
Proof.
  revert w. induction p as [a|X m k IH]; intros w; cbn; [done|]. intros Hp.
  destruct (Hp w) as [H1 H2]. destruct (m w) as [b w'] eqn:E; cbn in *. etrans; [exact H1|]. by apply IH.
Qed.

Lemma keeping_bind {Σ} (R : Σ -> Σ -> Prop) {A B} (p : prog Σ A) (f : A -> prog Σ B) :
  keeping R p -> (forall a, keeping R (f a)) -> keeping R (pbind p f).
Proof.
  intros Hp Hf. induction p as [a|X m k IH]; cbn in *; [apply Hf|]. intros w.
  destruct (Hp w) as [H1 H2]. split; [done|]. by apply IH.
Qed.

(** * The shared state *)

(** A bucket of the login guard; times in microseconds. *)
Record guard := Guard { g_count : Z; g_until : Z; g_in_flight : Z; g_seen : Z }.

(** The file with the first-run token. *)
Inductive token_file := NoFile | Unreadable | Holds (text : string).

Record world := World {
  w_db : db;
  w_guards : gmap string nat;
  w_heap : list guard;
  w_kdf : Z;
  w_file : token_file;
  w_unlinks : bool   (* the data directory lets the panel remove the file *)
}.

Definition set_db d w := World d (w_guards w) (w_heap w) (w_kdf w) (w_file w) (w_unlinks w).
Definition set_guards g h w := World (w_db w) g h (w_kdf w) (w_file w) (w_unlinks w).
Definition set_kdf k w := World (w_db w) (w_guards w) (w_heap w) k (w_file w) (w_unlinks w).
Definition set_file f w := World (w_db w) (w_guards w) (w_heap w) (w_kdf w) f (w_unlinks w).

(** * Requests *)

(** The session cookie's dictionary, by the keys the panel uses. *)
Record session := Session {
  s_authed : bool;
  s_epoch : option Z;
  s_last_seen : option Z;
  s_csrf : option string
}.
Definition empty_session : session := Session false None None None.
#[export] Instance session_eq_dec : EqDecision session.
Proof. solve_decision. Defined.

Definition with_epoch e s := Session (s_authed s) (Some e) (s_last_seen s) (s_csrf s).
Definition with_last_seen t s := Session (s_authed s) (s_epoch s) (Some t) (s_csrf s).

(** What a token authenticates as. *)
Record principal := Principal { p_scope : string; p_id : Z; p_prefix : string; p_expires_at : option Z }.

Record request := Request {
  rq_method : string;
  rq_path : string;
  rq_ip : string;
  rq_authorization : string;
  rq_csrf : option string;
  rq_now : Z;                            (* the clock, in microseconds *)
  rq_session : session;
  rq_principal : option (option principal)   (* [request.state._token_principal], once set *)
}.
Definition with_session s rq :=
  Request (rq_method rq) (rq_path rq) (rq_ip rq) (rq_authorization rq) (rq_csrf rq) (rq_now rq) s (rq_principal rq).
Definition with_principal p rq :=
  Request (rq_method rq) (rq_path rq) (rq_ip rq) (rq_authorization rq) (rq_csrf rq) (rq_now rq) (rq_session rq) (Some p).

(** [int(time.time())]. *)
Definition now_sec (rq : request) : Z := rq_now rq / 1000000.

(** * Handlers *)

(** An exception that is no [HTTPException]. *)
Inductive fault := StoreError (e : exn) | TypeError | OSError.

Inductive res (A : Type) : Type :=
  | Ok (a : A)
  | Http (status : Z) (detail : string)
  | Err (f : fault).
Arguments Ok {A} a.
Arguments Http {A} status detail.
Arguments Err {A} f.

Definition H (A : Type) : Type := request -> prog world (res A * request).

Definition hret {A} (a : A) : H A := fun rq => Ret (Ok a, rq).
Definition http {A} (status : Z) (detail : string) : H A := fun rq => Ret (Http status detail, rq).
Definition hraise {A} (f : fault) : H A := fun rq => Ret (Err f, rq).
Definition hbind {A B} (h : H A) (k : A -> H B) : H B := fun rq =>
  pbind (h rq) (fun r => match r.1 with
                         | Ok a => k a r.2
                         | Http s d => Ret (Http s d, r.2)
                         | Err f => Ret (Err f, r.2)
                         end).

Declare Scope web_scope.
Delimit Scope web_scope with web.
Notation "x <~ m ;; k" := (hbind m (fun x => k))
  (at level 100, m at next level, right associativity) : web_scope.
Notation "m ;~ k" := (hbind m (fun _ => k)) (at level 100, right associativity) : web_scope.
Open Scope web_scope.

(** [except e: h e], for any exception that is no [HTTPException]. *)
Definition hcatch {A} (h : H A) (k : fault -> H A) : H A := fun rq =>
  pbind (h rq) (fun r => match r.1 with Err f => k f r.2 | _ => Ret r end).

(** [try: h finally: k]. *)
Definition hfinally {A} (h : H A) (k : H unit) : H A := fun rq =>
  pbind (h rq) (fun r =>
  pbind (k r.2) (fun x => Ret (match x.1 with Ok _ => r.1 | Http s d => Http s d | Err f => Err f end, x.2))).

(** One access to the shared state that raises nothing. *)
Definition access {A} (m : world -> A * world) : H A := fun rq => Act m (fun a => Ret (Ok a, rq)).

(** One statement or transaction of the store. *)
Definition on_db {A} (m : M A) (w : world) : (exn + A) * world :=
  let (r, d) := m (w_db w) in (r, set_db d w).
Definition store {A} (m : M A) : H A := fun rq =>
  Act (on_db m) (fun r => match r with
                          | inr a => Ret (Ok a, rq)
                          | inl e => Ret (Err (StoreError e), rq)
                          end).

Definition get_session : H session := fun rq => Ret (Ok (rq_session rq), rq).
Definition put_session (s : session) : H unit := fun rq => Ret (Ok tt, with_session s rq).
Definition ask {A} (f : request -> A) : H A := fun rq => Ret (Ok (f rq), rq).
Definition hmap {A B} (f : A -> B) (h : H A) : H B := a <~ h ;; hret (f a).
