(* ===== verification/Auth.v ===== *)
(** The panel's authentication: [auth/auth.py], [auth/service.py], [auth/tokens.py], the gates of
    [api/deps.py], the authentication routes of [api/routes.py] and the audit middleware of [app.py].

    scrypt and SHA-256 are arguments of the model; everything random (salts, secrets, CSRF
    tokens) is an argument of the operation that draws it.  Text is held as its UTF-8 bytes,
    so [str.encode] is the identity and [hmac.compare_digest] of two encoded strings is
    equality.  A request reads the clock at one instant ([rq_now]).  Bodies have passed
    their schemas (non-empty user name, new passwords of at least eight characters). *)
From Stdlib Require Import ZArith Lia Ascii.
From stdpp Require Import base gmap strings list.
From S2P Require Import Prelude PyStr Store Ip Uri Inject Web.
Open Scope string_scope.
Open Scope Z_scope.
Open Scope web_scope.

(** * Passwords *)

Fixpoint from_hex (s : string) : option string :=
  match s with
  | EmptyString => Some ""
  | String a s1 =>
      if bool_decide (a ∈ [" "; "009"; "010"; "011"; "012"; "013"]%char) then from_hex s1
      else match s1 with
           | EmptyString => None
           | String b s2 =>
               match hex_digit a, hex_digit b, from_hex s2 with
               | Some x, Some y, Some r => Some (String (ascii_of_N (Z.to_N (16 * x + y))) r)
               | _, _, _ => None
               end
           end
  end.

Definition is_ascii (s : string) : bool := str_all (fun c => (N_of_ascii c <? 128)%N) s.

(** [hmac.compare_digest] on two [str]. *)
Definition compare_digest_str (a b : string) : fault + bool :=
  if is_ascii a && is_ascii b then inr (bool_decide (a = b)) else inl TypeError.

Section passwords.
Context (scrypt : string -> string -> string).

Definition hash_password (salt password : string) : string :=
  hexdigest salt +:+ "$" +:+ hexdigest (scrypt salt password).

Definition verify_password_hash (stored given : string) : fault + bool :=
  if bool_decide (stored = "") || bool_decide (given = "") || negb (contains "$" stored) then inr false
  else
    let salt_hex := before_first "$"%char stored in
    let hash_hex := after_first "$"%char stored in
    match from_hex salt_hex with
    | None => inr false
    | Some salt => compare_digest_str (hexdigest (scrypt salt given)) hash_hex
    end.
End passwords.

Definition csrf_matches (session_token header_token : option string) : bool :=
  truthy session_token && truthy header_token && bool_decide (session_token = header_token).

(** * The credential *)

Definition AUTH_USER : string := "auth_username".
Definition AUTH_HASH : string := "auth_password_hash".
Definition EPOCH : string := "session_epoch".
Definition TIMEOUT : string := "session_timeout_min".

Definition needs_setup (d : db) : bool := negb (truthy (get_setting AUTH_HASH d)).

Definition create_credential (username password_hash : string) : M unit :=
  tx (setup <- mget needs_setup ;;
      if setup then set_setting AUTH_USER username ;;; set_setting AUTH_HASH password_hash
      else mraise (ValueError "credential already exists"))%store.

(** [int(store.get_setting(k) or "0")]. *)
Definition int_setting (k : string) : M Z :=
  (v <- mget (get_setting k) ;;
   match py_int (v or "0") with
   | Some n => mret n
   | None => mraise (ValueError "invalid literal for int()")
   end)%store.

Definition session_epoch : M Z := int_setting EPOCH.
Definition bump_session_epoch : M Z :=
  (e <- session_epoch ;; set_setting EPOCH (str_int (e + 1)) ;;; mret (e + 1))%store.

Definition set_password (password_hash : string) : M unit :=
  tx (set_setting AUTH_HASH password_hash ;;;
      _ <- bump_session_epoch ;;
      rows <- mget list_tokens ;;
      mfor rows (fun row => _ <- delete_token row.1 ;; mret tt))%store.

Definition verify_login (scrypt : string -> string -> string) (dummy_hash username password : string) : H bool :=
  user <~ store (mget (get_setting AUTH_USER)) ;;
  pw_hash <~ store (mget (get_setting AUTH_HASH)) ;;
  let ok_user := truthy user && bool_decide (user = Some username) in
  match verify_password_hash scrypt (pw_hash or dummy_hash) password with
  | inl f => hraise f
  | inr ok_pw => hret (ok_user && ok_pw)
  end.

(** * API tokens *)

Definition PREFIX : string := "pgwp_".
Definition SCOPE_MONITOR : string := "monitor".
Definition SCOPE_READ : string := "read".
Definition SCOPE_READWRITE : string := "readwrite".

Section tokens.
Context (sha256 : string -> string).
Definition hash_token (token : string) : string := hexdigest (sha256 token).
Definition generate (random : string) : string * string * string :=
  let full := PREFIX +:+ random in (full, hash_token full, str_take 12 full).

(** * The gates *)

Definition expired (t : token) (now : Z) : bool :=
  match tk_expires_at t with None => false | Some e => e <=? now end.

Definition token_principal : H (option principal) := fun rq =>
  match rq_principal rq with
  | Some p => Ret (Ok p, rq)
  | None =>
      (p <~ (if bool_decide (lower (str_take 7 (rq_authorization rq)) = "bearer ") then
               let secret := strip (str_drop 7 (rq_authorization rq)) in
               if bool_decide (secret = "") then hret None
               else row <~ store (mget (get_token_by_hash (hash_token secret))) ;;
                    match row with
                    | Some (i, t) =>
                        if expired t (now_sec rq) then hret None
                        else store (touch_token i (now_sec rq)) ;~
                             hret (Some (Principal (tk_scope t) i (tk_prefix t) (tk_expires_at t)))
                    | None => hret None
                    end
             else hret None) ;;
       (fun rq => Ret (Ok p, with_principal p rq))) rq
  end.
End tokens.

Definition session_invalid_reason (touch : bool) : H (option string) :=
  ss <~ get_session ;;
  if negb (s_authed ss) then hret (Some "auth required") else
  epoch <~ store session_epoch ;;
  if negb (bool_decide (default 0 (s_epoch ss) = epoch)) then hret (Some "session expired") else
  timeout_min <~ store (int_setting TIMEOUT) ;;
  if 0 <? timeout_min then
    now <~ ask now_sec ;;
    if timeout_min * 60 <? now - default now (s_last_seen ss) then hret (Some "session idle timeout")
    else (if touch then put_session (with_last_seen now ss) else hret tt) ;~ hret None
  else hret None.

Definition MONITOR_PATHS : list string :=
  ["/api/status"; "/api/traffic/history"; "/api/node-health"; "/api/network"].

Definition monitor_allowed (rq : request) : bool :=
  bool_decide (rq_method rq = "GET") && bool_decide (rq_path rq ∈ MONITOR_PATHS).

Section gates.
Context (sha256 : string -> string).

Definition require_auth : H unit :=
  token <~ token_principal sha256 ;;
  match token with
  | Some p =>
      if bool_decide (p_scope p = SCOPE_MONITOR) then
        allowed <~ ask monitor_allowed ;;
        if allowed then hret tt else http 403 "monitor token cannot access secrets"
      else hret tt
  | None =>
      reason <~ session_invalid_reason true ;;
      match reason with
      | Some why =>
          (if bool_decide (why = "session idle timeout") then put_session empty_session else hret tt) ;~
          http 401 why
      | None => hret tt
      end
  end.

Definition require_csrf : H unit :=
  token <~ token_principal sha256 ;;
  match token with
  | Some p => if bool_decide (p_scope p = SCOPE_READWRITE) then hret tt else http 403 "token is read-only"
  | None =>
      ss <~ get_session ;;
      header <~ ask rq_csrf ;;
      if csrf_matches (s_csrf ss) header then hret tt else http 403 "bad csrf token"
  end.
End gates.

(** * The login guard *)

Definition LOGIN_GUARD_MAX : nat := 1000.
Definition KDF_SLOTS : Z := 2.

Definition bucket (w : world) (r : nat) : guard := default (Guard 0 0 0 0) (w_heap w !! r).

Definition older (a b : string * nat) (w : world) : bool :=
  let (sa, sb) := (g_seen (bucket w a.2), g_seen (bucket w b.2)) in
  (sa <? sb) || ((sa =? sb) && String.leb a.1 b.1).

Fixpoint least (w : world) (x : string * nat) (l : list (string * nat)) : string * nat :=
  match l with
  | [] => x
  | y :: l' => least w (if older x y w then x else y) l'
  end.

(** [_evict_login_guard]: the buckets afterwards, or [None] when no slot can be freed. *)
Definition evict_login_guard (now : Z) (w : world) : option (gmap string nat) :=
  let idle g := (g_until g <=? now) && (g_count g =? 0) && (g_in_flight g =? 0) in
  let kept := filter (fun b => idle (bucket w b.2) = false) (w_guards w) in
  if (size kept <? size (w_guards w))%nat then Some kept
  else match filter (fun b => g_in_flight (bucket w b.2) = 0) (map_to_list (w_guards w)) with
       | [] => None
       | b :: l => Some (delete (least w b l).1 (w_guards w))
       end.

Definition upd_bucket (r : nat) (f : guard -> guard) (w : world) : world :=
  set_guards (w_guards w) (alter f r (w_heap w)) w.

Inductive entry := Full | Throttled | Entered (r : nat).

(** The first block under the login lock. *)
Definition guard_enter (ip : string) (now : Z) (w : world) : entry * world :=
  let room := if (LOGIN_GUARD_MAX <=? size (w_guards w))%nat && bool_decide (w_guards w !! ip = None)
              then evict_login_guard now w else Some (w_guards w) in
  match room with
  | None => (Full, w)
  | Some guards =>
      let '(r, w) := match guards !! ip with
                     | Some r => (r, set_guards guards (w_heap w) w)
                     | None => (length (w_heap w),
                                set_guards (<[ip := length (w_heap w)]> guards)
                                  (app (w_heap w) [Guard 0 0 0 now]) w)
                     end in
      let w := upd_bucket r (fun g => Guard (g_count g) (g_until g) (g_in_flight g) now) w in
      let g := bucket w r in
      if (now <? g_until g) || (5 <=? g_in_flight g) then (Throttled, w)
      else (Entered r,
            upd_bucket r (fun g => Guard (g_count g) (g_until g) (g_in_flight g + 1) (g_seen g)) w)
  end.

Definition kdf_acquire (w : world) : bool * world :=
  if 0 <? w_kdf w then (true, set_kdf (w_kdf w - 1) w) else (false, w).
Definition kdf_release (w : world) : unit * world := (tt, set_kdf (w_kdf w + 1) w).

Definition guard_leave (r : nat) (w : world) : unit * world :=
  (tt, upd_bucket r (fun g => Guard (g_count g) (g_until g) (g_in_flight g - 1) (g_seen g)) w).

(** The last block under the login lock; [now] is when the request came in. *)
Definition settle (valid : bool) (now lockout : Z) (g : guard) : guard :=
  if valid then Guard 0 (g_until g) (g_in_flight g - 1) (g_seen g)
  else if 5 <=? g_count g + 1 then Guard 0 (now + sec lockout) (g_in_flight g - 1) (g_seen g)
  else Guard (g_count g + 1) (g_until g) (g_in_flight g - 1) (g_seen g).
Definition guard_settle (r : nat) (valid : bool) (now lockout : Z) (w : world) : unit * world :=
  (tt, upd_bucket r (settle valid now lockout) w).

(** * The routes *)

Record params := Params {
  pr_scrypt : string -> string -> string;
  pr_sha256 : string -> string;
  pr_dummy_salt : string;        (* drawn once at import *)
  pr_lockout : Z;                (* settings.login_lockout_sec *)
  pr_loopback : bool             (* settings.loopback_bind *)
}.

Section routes.
Context (P : params).

Definition DUMMY_HASH : string :=
  hash_password (pr_scrypt P) (pr_dummy_salt P) (String zero ("unused-dummy-credential" +:+ String zero "")).

Definition open_session (csrf : string) : H unit :=
  epoch <~ store session_epoch ;;
  now <~ ask now_sec ;;
  put_session (Session true (Some epoch) (Some now) (Some csrf)).

Definition is_file (w : world) : bool := match w_file w with NoFile => false | _ => true end.

(** [setup_status]: needs_setup and bootstrap_required. *)
Definition setup_status : H (bool * bool) :=
  needs <~ store (mget needs_setup) ;;
  present <~ access (fun w => (is_file w, w)) ;;
  hret (needs, negb (pr_loopback P) && present).

(** [open(token_path).read().strip()], "" when it cannot be read. *)
Definition read_token_file (w : world) : string :=
  match w_file w with Holds t => strip t | _ => "" end.

Definition unlink_token_file (w : world) : bool * world :=
  match w_file w with
  | NoFile => (true, w)
  | _ => if w_unlinks w then (true, set_file NoFile w) else (false, w)
  end.

Definition setup_create (username password salt csrf : string) (bootstrap : option string) : H unit :=
  expected <~ (if pr_loopback P then hret "" else access (fun w => (read_token_file w, w))) ;;
  (if negb (bool_decide (expected = "")) then
     if truthy bootstrap && bool_decide (bootstrap = Some expected) then hret tt
     else http 403 "bad bootstrap token"
   else if pr_loopback P then hret tt else http 503 "bootstrap token unavailable") ;~
  hcatch (store (create_credential username (hash_password (pr_scrypt P) salt password)))
    (fun f => match f with
              | StoreError (ValueError _) => http 409 "already configured"
              | f => hraise f
              end) ;~
  present <~ access (fun w => (is_file w, w)) ;;
  (if present then gone <~ access unlink_token_file ;; if gone then hret tt else hraise OSError else hret tt) ;~
  open_session csrf.

(** [login] after its bucket was entered: the verifier slot, the check, the outcome. *)
Definition login_verify (r : nat) (username password csrf : string) : H unit :=
  slot <~ access kdf_acquire ;;
  if negb slot then access (guard_leave r) ;~ http 429 "login verifier busy" else
  valid <~ hfinally (verify_login (pr_scrypt P) DUMMY_HASH username password) (access kdf_release) ;;
  now <~ ask rq_now ;;
  access (guard_settle r valid now (pr_lockout P)) ;~
  if valid then open_session csrf else http 401 "bad credentials".

Definition login (username password csrf : string) : H unit :=
  ip <~ ask rq_ip ;;
  now <~ ask rq_now ;;
  e <~ access (guard_enter ip now) ;;
  match e with
  | Full => http 429 "too many clients — try again shortly"
  | Throttled => http 429 "too many attempts — try again shortly"
  | Entered r => login_verify r username password csrf
  end.

Definition logout : H unit := require_csrf (pr_sha256 P) ;~ put_session empty_session.

Definition gated {A} (body : H A) : H A := require_auth (pr_sha256 P) ;~ body.
Definition gated_mutation {A} (body : H A) : H A := require_auth (pr_sha256 P) ;~ require_csrf (pr_sha256 P) ;~ body.

Definition change_password (current new salt : string) : H unit :=
  gated_mutation
    (username <~ store (mget (get_setting AUTH_USER)) ;;
     ok <~ verify_login (pr_scrypt P) DUMMY_HASH (username or "") current ;;
     if negb ok then http 403 "current password incorrect" else
     store (set_password (hash_password (pr_scrypt P) salt new)) ;~
     epoch <~ store session_epoch ;;
     ss <~ get_session ;;
     put_session (with_epoch epoch ss)).

Definition csrf : H (option string) := gated (ss <~ get_session ;; hret (s_csrf ss)).

Definition list_tokens_route : H (list (Z * token)) := gated (store (mget list_tokens)).

Definition create_token_route (name scope : string) (expires_at : option Z) (random : string) : H (Z * string) :=
  gated_mutation
    (let '(full, token_hash, prefix) := generate (pr_sha256 P) random in
     now <~ ask now_sec ;;
     if match expires_at with Some e => e <=? now | None => false end
     then http 422 "expires_at must be in the future"
     else i <~ store (create_token name scope token_hash prefix expires_at now) ;; hret (i, full)).

Definition delete_token_route (i : Z) : H unit :=
  gated_mutation
    (found <~ store (delete_token i) ;;
     if found then hret tt else http 404 "token not found").

(** The traffic socket: whether the handshake is accepted, whether a tick keeps it open. *)
Definition ws_open : H bool := reason <~ session_invalid_reason true ;; hret (bool_decide (reason = None)).
Definition ws_tick : H bool := reason <~ session_invalid_reason false ;; hret (bool_decide (reason = None)).

(** * The audit middleware *)

Definition mutating (rq : request) : bool :=
  bool_decide (rq_method rq ∈ ["POST"; "PUT"; "PATCH"; "DELETE"]) && startswith (rq_path rq) "/api".

Definition audit_actor : H string :=
  hcatch
    (p <~ token_principal (pr_sha256 P) ;;
     match p with
     | Some p => hret ("token:" +:+ p_prefix p)
     | None =>
         ss <~ get_session ;;
         if s_authed ss then
           user <~ store (mget (get_setting AUTH_USER)) ;;
           hret ("user:" +:+ (user or "?"))
         else hret "anon"
     end)
    (fun _ => hret "anon").

Definition audit_write (rq : request) (actor : string) (status : Z) : H unit :=
  hcatch (store (add_audit (Audit (now_sec rq) actor (rq_method rq) (rq_path rq) status))) (fun _ => hret tt).

Definition status_of {A} (success : Z) (r : res A) : Z :=
  match r with Ok _ => success | Http s _ => s | Err _ => 500 end.

(** A whole request: the actor before the handler, the outcome after it, whatever it is. *)
Definition audit_mw {A} (success : Z) (h : H A) : H A := fun rq =>
  pbind (if mutating rq then audit_actor rq else Ret (Ok "anon", rq)) (fun a =>
  pbind (h a.2) (fun r =>
  if mutating rq
  then pbind (audit_write rq (match a.1 with Ok actor => actor | _ => "anon" end) (status_of success r.1) r.2)
             (fun w => Ret (r.1, w.2))
  else Ret r)).
End routes.
