(* ===== verification/AuthFlow.v ===== *)
(** The panel's requests side by side: a transition system over the handlers of Auth.v.

    A state is the shared world, the handlers under way (each a program that has run
    up to one of its accesses), the session cookies handed out so far, and the hashes
    of the secrets drawn so far.  A request comes with any headers but only with a
    session the panel has issued (the cookie is signed) or none, and a secret the
    panel draws has not been drawn before.  [other] is the rest of the panel, which
    writes neither the credential, nor the epoch, nor the tokens.

    [wpg] is the rely-guarantee reading of a program: with a ghost state [g] it says
    that each access moves ghost and world along [R], and what holds at the end. *)
From Stdlib Require Import ZArith Lia.
From stdpp Require Import base gmap strings list relations.
From S2P Require Import Prelude PyStr Store Web Auth.
Open Scope string_scope.
Open Scope Z_scope.
Open Scope web_scope.

(** * Rely and guarantee *)

Section wpg.
Context {Σ G : Type} (pre : G -> Σ -> Prop) (R : G -> Σ -> G -> Σ -> Prop).

Fixpoint wpg {X} (g : G) (p : prog Σ X) (Q : G -> X -> Prop) : Prop :=
  match p with
  | Ret x => Q g x
  | Act m k => forall w, pre g w -> exists g', R g w g' (m w).2 /\ wpg g' (k (m w).1) Q
  end.

Lemma wpg_mono {X} g (p : prog Σ X) (Q Q' : G -> X -> Prop) :
  wpg g p Q -> (forall g x, Q g x -> Q' g x) -> wpg g p Q'.
Proof.
  intros Hp HQ. revert g Hp. induction p as [x|B m k IH]; intros g Hp; cbn in *; [by apply HQ|].
  intros w Hw. destruct (Hp w Hw) as (g' & H1 & H2). exists g'. split; [done|]. by apply IH.
Qed.

Lemma wpg_bind {X Y} g (p : prog Σ X) (f : X -> prog Σ Y) (Q : G -> Y -> Prop) :
  wpg g p (fun g x => wpg g (f x) Q) -> wpg g (pbind p f) Q.
Proof.
  revert g. induction p as [x|B m k IH]; intros g Hp; cbn in *; [done|].
  intros w Hw. destruct (Hp w Hw) as (g' & H1 & H2). exists g'. split; [done|]. by apply IH.
Qed.
End wpg.

(** * Requests of the panel *)

Inductive route :=
  | RSetupStatus
  | RSetup (username password salt csrf : string) (bootstrap : option string)
  | RLogin (username password csrf : string)
  | RLogout
  | RPassword (current new salt : string)
  | RCsrf
  | RListTokens
  | RCreateToken (name scope : string) (expires_at : option Z) (random : string)
  | RDeleteToken (i : Z)
  | RRead       (* any other route behind [require_auth] *)
  | RMutate.    (* any other route behind both gates *)

Section flow.
Context (P : params).

Definition skip {A} (h : H A) : H unit := hmap (fun _ => tt) h.

Definition handler (rt : route) : H unit :=
  match rt with
  | RSetupStatus => skip (setup_status P)
  | RSetup u p salt csrf bt => setup_create P u p salt csrf bt
  | RLogin u p csrf => login P u p csrf
  | RLogout => logout P
  | RPassword current new salt => change_password P current new salt
  | RCsrf => skip (csrf P)
  | RListTokens => skip (list_tokens_route P)
  | RCreateToken name scope e random => skip (create_token_route P name scope e random)
  | RDeleteToken i => delete_token_route P i
  | RRead => gated P (hret tt)
  | RMutate => gated_mutation P (hret tt)
  end.

Definition success (rt : route) : Z :=
  match rt with RCreateToken _ _ _ _ => 201 | RDeleteToken _ => 204 | _ => 200 end.

(** One request, from the middleware inwards. *)
Definition serve (rt : route) : H unit := audit_mw P (success rt) (handler rt).

(** The secret a request draws, by its hash. *)
Definition draws (rt : route) : option string :=
  match rt with
  | RCreateToken _ _ _ random => Some (generate (pr_sha256 P) random).1.2
  | _ => None
  end.

Record panel := Panel {
  pn_world : world;
  pn_threads : list (prog world (res unit * request));
  pn_issued : list session;
  pn_drawn : list string
}.
Definition pn_db (s : panel) : db := w_db (pn_world s).

(** What the rest of the panel leaves alone. *)
Definition auth_frame (d d' : db) : Prop :=
  get_setting AUTH_USER d' = get_setting AUTH_USER d /\
  get_setting AUTH_HASH d' = get_setting AUTH_HASH d /\
  get_setting EPOCH d' = get_setting EPOCH d /\
  d_tokens d' = d_tokens d.

Definition cookie_of (x : res unit * request) : list session :=
  match x.1 with Err _ => [] | _ => [rq_session x.2] end.

Inductive step : panel -> panel -> Prop :=
  | arrive rt rq s :
      rq_principal rq = None ->
      rq_session rq = empty_session \/ rq_session rq ∈ pn_issued s ->
      (forall h, draws rt = Some h -> h ∉ pn_drawn s) ->
      step s (Panel (pn_world s) (pn_threads s ++ [serve rt rq]) (pn_issued s)
                (option_list (draws rt) ++ pn_drawn s))
  | act s B (m : world -> B * world) k l1 l2 b w :
      pn_threads s = (l1 ++ Act m k :: l2)%list -> m (pn_world s) = (b, w) ->
      step s (Panel w (l1 ++ k b :: l2) (pn_issued s) (pn_drawn s))
  | finish s x l1 l2 :
      pn_threads s = (l1 ++ Ret x :: l2)%list ->
      step s (Panel (pn_world s) (l1 ++ l2) (cookie_of x ++ pn_issued s) (pn_drawn s))
  | other s d :
      auth_frame (pn_db s) d ->
      step s (Panel (set_db d (pn_world s)) (pn_threads s) (pn_issued s) (pn_drawn s)).

(** A panel that has just started: no login tried, cookies of an earlier run (the signing
    key is kept) and the tokens of the database drawn at some time before. *)
Definition started (s : panel) : Prop :=
  pn_threads s = [] /\
  w_guards (pn_world s) = ∅ /\ w_heap (pn_world s) = [] /\ w_kdf (pn_world s) = KDF_SLOTS /\
  (exists n, int_setting EPOCH (pn_db s) = (inr n, pn_db s) /\
     forall c, c ∈ pn_issued s -> default 0 (s_epoch c) <= n) /\
  (forall i t, d_tokens (pn_db s) !! i = Some t -> tk_hash t ∈ pn_drawn s).

Definition reachable (s : panel) : Prop := exists s0, started s0 /\ rtc step s0 s.
End flow.

(** * Schedules *)

Inductive move :=
  | MArrive (rt : route) (rq : request)
  | MAct (i : nat)       (* the next access of the i-th handler under way *)
  | MFinish (i : nat).

Section schedules.
Context (P : params).

Definition may_arrive (rt : route) (rq : request) (s : panel) : bool :=
  match rq_principal rq with None => true | Some _ => false end &&
  bool_decide (rq_session rq = empty_session \/ rq_session rq ∈ pn_issued s) &&
  match draws P rt with None => true | Some h => bool_decide (h ∉ pn_drawn s) end.

Definition exec1 (m : move) (s : panel) : option panel :=
  match m with
  | MArrive rt rq =>
      if may_arrive rt rq s
      then Some (Panel (pn_world s) (pn_threads s ++ [serve P rt rq]) (pn_issued s)
                   (option_list (draws P rt) ++ pn_drawn s))
      else None
  | MAct i =>
      match pn_threads s !! i with
      | Some (Act m k) =>
          let (b, w) := m (pn_world s) in
          Some (Panel w (take i (pn_threads s) ++ k b :: drop (S i) (pn_threads s)) (pn_issued s) (pn_drawn s))
      | _ => None
      end
  | MFinish i =>
      match pn_threads s !! i with
      | Some (Ret x) =>
          Some (Panel (pn_world s) (take i (pn_threads s) ++ drop (S i) (pn_threads s))
                  (cookie_of x ++ pn_issued s) (pn_drawn s))
      | _ => None
      end
  end.

Fixpoint exec (ms : list move) (s : panel) : option panel :=
  match ms with
  | [] => Some s
  | m :: ms' => match exec1 m s with Some s' => exec ms' s' | None => None end
  end.

Lemma exec1_step m s s' : exec1 m s = Some s' -> step P s s'.
Proof.
  destruct m as [rt rq|i|i]; cbn [exec1].
  - destruct (may_arrive rt rq s) eqn:E; [|done]. intros [= <-]. unfold may_arrive in E.
    apply andb_prop in E as [E Hd]. apply andb_prop in E as [Hp Hs]. apply arrive.
    + by destruct (rq_principal rq).
    + by apply bool_decide_eq_true in Hs.
    + intros h Hh. rewrite Hh in Hd. by apply bool_decide_eq_true in Hd.
  - destruct (pn_threads s !! i) as [[x|B m k]|] eqn:Et; [done| |done].
    destruct (m (pn_world s)) as [b w] eqn:Em. intros [= <-]. eapply act; [|exact Em]. by rewrite take_drop_middle.
  - destruct (pn_threads s !! i) as [[x|B m k]|] eqn:Et; [|done|done]. intros [= <-]. apply finish. by rewrite take_drop_middle.
Qed.

Lemma exec_steps ms s s' : exec ms s = Some s' -> rtc (step P) s s'.
Proof.
  revert s. induction ms as [|m ms IH]; intros s; cbn; [by intros [= ->]|].
  destruct (exec1 m s) as [s1|] eqn:E; [|done]. intros H. eapply rtc_l; [by eapply exec1_step|by apply IH].
Qed.

(** Where a schedule ends; where it cannot go on it has not started. *)
Definition after (ms : list move) (s : panel) : panel := default s (exec ms s).
Lemma after_steps ms s : rtc (step P) s (after ms s).
Proof. unfold after. destruct (exec ms s) eqn:E; cbn; [by eapply exec_steps|done]. Qed.
End schedules.
