(* ===== verification/AuthFacts.v ===== *)
(** Lemmas about the authentication: what each store operation does to the epoch, the tokens
    and the credential ([moves]), the rely-guarantee triples of the handlers ([triple],
    [wtriple]), and the discipline in which a handler uses its bucket of the login guard
    ([gmove]).  The step relation's invariants are at the end. *)
From Stdlib Require Import ZArith Lia.
From stdpp Require Import base gmap strings list relations.
From S2P Require Import Prelude PyStr Store StoreFacts Ip Uri Inject Web Auth AuthFlow.
Open Scope string_scope.
Open Scope Z_scope.
Open Scope web_scope.

(** * What an access does to the credential, the epoch and the tokens *)

Definition epoch_is (d : db) (e : Z) : Prop := py_int (get_setting EPOCH d or "0") = Some e.
Definition has_hash (h : string) (d : db) : Prop := exists i t, d_tokens d !! i = Some t /\ tk_hash t = h.

(** [pend] is the hash of the secret the handler has drawn and not stored yet. *)
Record moves (pend pend' : option string) (d d' : db) : Prop := {
  mv_epoch e : epoch_is d e -> exists e', epoch_is d' e' /\ e <= e' /\ (e < e' -> d_tokens d' = ∅);
  mv_hash h : has_hash h d' -> has_hash h d \/ (pend = Some h /\ pend' = None);
  mv_credential : needs_setup d = false ->
    needs_setup d' = false /\ get_setting AUTH_USER d' = get_setting AUTH_USER d /\
    (get_setting AUTH_HASH d' = get_setting AUTH_HASH d \/
     forall e e', epoch_is d e -> epoch_is d' e' -> e < e')
}.

Lemma int_setting_epoch d e : int_setting EPOCH d = (inr e, d) <-> epoch_is d e.
Proof.
  unfold int_setting, epoch_is, mbind, mget. destruct (py_int _) as [n|]; cbn; [|naive_solver].
  split; intros H; [injection H as ->; done|injection H as ->; done].
Qed.

Lemma int_setting_same k d : (int_setting k d).2 = d.
Proof. unfold int_setting, mbind, mget. by destruct (py_int _). Qed.

Lemma auth_moves_frame pd d d' :
  auth_frame d d' \/ get_settings_map d' = get_settings_map d /\ (forall h, has_hash h d' -> has_hash h d) ->
  moves pd pd d d'.
Proof.
  intros [(Hu & Hh & He & Ht) | [Hs Ht]]; split.
  - intros e H. exists e. unfold epoch_is in *. rewrite He. split_and!; [done|lia|lia].
  - intros h (i & t & Hi & Hh'). left. exists i, t. by rewrite <- Ht.
  - unfold needs_setup. rewrite Hh, Hu. auto.
  - unfold get_settings_map in Hs. intros e H. exists e. unfold epoch_is, get_setting in *. rewrite Hs.
    split_and!; [done|lia|lia].
  - intros h Hh. left. by apply Ht.
  - unfold needs_setup, get_setting. unfold get_settings_map in Hs. rewrite Hs. auto.
Qed.

Lemma auth_moves_refl pd d : moves pd pd d d.
Proof. apply auth_moves_frame. by left. Qed.

Lemma moves_touch pd i now d : moves pd pd d (touch_token i now d).2.
Proof.
  unfold touch_token, stmt. case_decide; cbn [snd]; [|apply auth_moves_refl].
  apply auth_moves_frame. right. split; [done|]. intros h (j & t & Hj & Hh). cbn in Hj.
  apply lookup_alter_Some in Hj as [(-> & t0 & Hj & ->) | [_ Hj]]; [|by exists j, t].
  exists j, t0. split; [done|]. rewrite <- Hh. by destruct (tk_last_used_at t0) as [u|]; [destruct (_ <? _)|].
Qed.

Lemma delete_token_cases i d :
  (exists e, delete_token i d = (inl e, d)) \/
  exists b d', delete_token i d = (inr b, d') /\ d_settings d' = d_settings d /\ d_tokens d' = delete i (d_tokens d).
Proof.
  unfold delete_token, tx, mbind, mget. destruct (bool_decide _) eqn:E; cbn.
  - unfold stmt. case_decide; cbn; [right|left; by eexists]. by eexists _, _.
  - right. eexists _, _. split_and!; [done|done|]. apply bool_decide_eq_false in E. symmetry.
    apply delete_id. destruct (d_tokens d !! i); [|done]. exfalso. apply E. by eexists.
Qed.

Lemma moves_delete pd i d : moves pd pd d (delete_token i d).2.
Proof.
  destruct (delete_token_cases i d) as [[e ->] | (b & d' & -> & Hs & Ht)]; [apply auth_moves_refl|].
  apply auth_moves_frame. right. split; [exact Hs|].
  intros h (j & t & Hj & Hh). exists j, t. split; [|done]. cbn in Hj. rewrite Ht in Hj. by apply lookup_delete_Some in Hj as [_ Hj].
Qed.

Lemma moves_create name scope h pfx e now d :
  moves (Some h) None d (create_token name scope h pfx e now d).2.
Proof.
  unfold create_token, mbind, mget. cbn. unfold stmt. case_decide; cbn.
  - split.
    + intros n Hn. exists n. split_and!; [done|lia|lia].
    + intros h' (j & t & Hj & Hh). cbn in Hj. apply lookup_insert_Some in Hj as [[_ <-] | [_ Hj]]; [right; by subst|].
      left. by exists j, t.
    + intros Hs. by auto.
  - split; [intros n Hn; exists n; split_and!; [done|lia|lia]|naive_solver|auto].
Qed.

Lemma moves_audit pd a d : moves pd pd d (add_audit a d).2.
Proof.
  unfold add_audit, tx, mbind, mget. cbn. unfold stmt. case_decide; cbn; [|apply auth_moves_refl].
  case_decide; cbn; [|apply auth_moves_refl]. apply auth_moves_frame. left. done.
Qed.

Lemma mbind_ok {A B} (m : M A) (k : A -> M B) d a d' : m d = (inr a, d') -> mbind m k d = k a d'.
Proof. unfold mbind. by intros ->. Qed.
Lemma mbind_fail {A B} (m : M A) (k : A -> M B) d e d' : m d = (inl e, d') -> mbind m k d = (inl e, d').
Proof. unfold mbind. by intros ->. Qed.

(** Creating the credential, whole or not at all, and only when there is none. *)
Lemma create_credential_cases u ph d :
  (exists e, create_credential u ph d = (inl e, d)) \/
  needs_setup d = true /\
  create_credential u ph d = (inr tt, set_settings (<[AUTH_HASH := ph]> (<[AUTH_USER := u]> (d_settings d))) d).
Proof.
  unfold create_credential, tx, mbind, mget. destruct (needs_setup d); cbn; [|left; by eexists].
  unfold set_setting, stmt. case_decide; cbn; [|left; by eexists]. case_decide; cbn; [|left; by eexists]. by right.
Qed.

Lemma moves_setup pd u ph d : moves pd pd d (create_credential u ph d).2.
Proof.
  destruct (create_credential_cases u ph d) as [[e ->] | [Hn ->]]; [apply auth_moves_refl|]. cbn. split.
  - intros n H. exists n. unfold epoch_is, get_setting in *. cbn.
    rewrite !lookup_insert_ne by done. split_and!; [done|lia|lia].
  - intros h Hh. by left.
  - by rewrite Hn.
Qed.

(** Deleting the tokens of the list, one after the other. *)
Lemma delete_rows_cases rows d :
  let r := mfor rows (fun row : Z * token => mbind (delete_token row.1) (fun _ => mret tt)) d in
  (exists e, r.1 = inl e) \/
  r.1 = inr tt /\ d_settings r.2 = d_settings d /\
  (forall i t, d_tokens r.2 !! i = Some t -> d_tokens d !! i = Some t /\ forall row, row ∈ rows -> row.1 <> i).
Proof.
  revert d. induction rows as [|row rows IH]; intros d.
  { right. split_and!; [done..|]. intros i t Hi. split; [done|]. by intros ? ?%elem_of_nil. }
  set (f := fun row : Z * token => mbind (delete_token row.1) (fun _ => mret tt)) in *.
  assert (mfor (row :: rows) f d =
          match delete_token row.1 d with (inl e, d') => (inl e, d') | (inr _, d') => mfor rows f d' end) as ->.
  { cbn [mfor]. unfold f at 1, mbind, mret. by destruct (delete_token row.1 d) as [[e|b] d']. }
  destruct (delete_token_cases row.1 d) as [[e ->] | (b & d' & -> & Hs & Ht)]; [left; by eexists|].
  destruct (IH d') as [[e He] | (H1 & H2 & H3)]; [left; exists e; exact He|].
  right. split_and!; [exact H1|by rewrite H2|]. intros i t Hi. apply H3 in Hi as [Hi Hr]. rewrite Ht in Hi.
  apply lookup_delete_Some in Hi as [Hne Hi]. split; [done|].
  intros row' [-> | Hin]%elem_of_cons; [done|by apply Hr].
Qed.

Lemma set_setting_cases k v d :
  (exists e, set_setting k v d = (inl e, d)) \/ set_setting k v d = (inr tt, set_settings (<[k := v]> (d_settings d)) d).
Proof. unfold set_setting, stmt. case_decide; [by right|left; by eexists]. Qed.

(** A rotation, whole or not at all: the new hash, the next epoch, no token. *)
Lemma set_password_cases ph d :
  (exists e, set_password ph d = (inl e, d)) \/
  exists d' e, set_password ph d = (inr tt, d') /\ epoch_is d e /\ d_tokens d' = ∅ /\
    d_settings d' = <[EPOCH := str_int (e + 1)]> (<[AUTH_HASH := ph]> (d_settings d)).
Proof.
  unfold set_password, tx.
  destruct (set_setting_cases AUTH_HASH ph d) as [[e E1] | E1]; [rewrite (mbind_fail _ _ _ _ _ E1); left; by eexists|].
  rewrite (mbind_ok _ _ _ _ _ E1). set (d1 := set_settings _ d).
  assert (get_setting EPOCH d1 = get_setting EPOCH d) as He.
  { unfold get_setting, d1. cbn. by rewrite lookup_insert_ne by done. }
  destruct (py_int (get_setting EPOCH d1 or "0")) as [e|] eqn:Ee.
  2: { assert (session_epoch d1 = (inl (ValueError "invalid literal for int()"), d1)) as E2.
       { unfold session_epoch, int_setting, mbind, mget. by rewrite Ee. }
       rewrite (mbind_fail bump_session_epoch _ _ _ _ (mbind_fail _ _ _ _ _ E2)). left. by eexists. }
  pose proof (proj2 (int_setting_epoch d1 e) Ee) as E2. rewrite He in Ee.
  destruct (set_setting_cases EPOCH (str_int (e + 1)) d1) as [[x E3] | E3].
  - assert (bump_session_epoch d1 = (inl x, d1)) as E4.
    { unfold bump_session_epoch. rewrite (mbind_ok _ _ _ _ _ E2). by rewrite (mbind_fail _ _ _ _ _ E3). }
    rewrite (mbind_fail _ _ _ _ _ E4). left. by eexists.
  - set (d2 := set_settings _ d1) in *.
    assert (bump_session_epoch d1 = (inr (e + 1), d2)) as E4.
    { unfold bump_session_epoch. rewrite (mbind_ok _ _ _ _ _ E2). by rewrite (mbind_ok _ _ _ _ _ E3). }
    rewrite (mbind_ok _ _ _ _ _ E4). rewrite (mbind_ok (mget list_tokens) _ d2 (list_tokens d2) d2) by done.
    destruct (delete_rows_cases (list_tokens d2) d2) as [[x Hx] | (H1 & H2 & H3)]; destruct (mfor _ _ d2) as [r d3];
      cbn [fst snd] in *; subst r; [left; by eexists|right].
    exists d3, e. split_and!; [reflexivity|exact Ee| |exact H2].
    apply map_empty. intros i. destruct (d_tokens d3 !! i) as [t|] eqn:Et; [|done].
    apply H3 in Et as [Et Hr]. exfalso. apply (Hr (i, t)); [|done]. unfold list_tokens.
    rewrite stable_sort_perm. apply elem_of_map_to_list. exact Et.
Qed.

Lemma needs_setup_hash d v : get_setting AUTH_HASH d = Some v -> v <> "" -> needs_setup d = false.
Proof.
  intros H Hv. unfold needs_setup. rewrite H. unfold truthy. destruct v; [done|done].
Qed.

Lemma moves_rotate pd ph d : ph <> "" -> moves pd pd d (set_password ph d).2.
Proof.
  intros Hph. destruct (set_password_cases ph d) as [[e ->] | (d' & e & -> & He & Ht & Hs)]; [apply auth_moves_refl|]. cbn.
  assert (epoch_is d' (e + 1)) as He'.
  { unfold epoch_is, get_setting. rewrite Hs, lookup_insert_eq. cbn.
    pose proof (str_int_nonempty (e + 1)). unfold str_or. destruct (str_int (e + 1)) eqn:E; [done|]. rewrite <- E. apply py_int_str_int. }
  split.
  - intros n Hn. unfold epoch_is in *. rewrite He in Hn. injection Hn as <-. exists (e + 1). split_and!; [done|lia|done].
  - intros h (i & t & Hi & _). by rewrite Ht in Hi.
  - intros _. split_and!.
    + apply (needs_setup_hash _ ph); [|done]. unfold get_setting. rewrite Hs, lookup_insert_ne, lookup_insert_eq by done. done.
    + unfold get_setting. by rewrite Hs, !lookup_insert_ne by done.
    + right. intros n n' Hn Hn'. unfold epoch_is in *. rewrite He in Hn. rewrite He' in Hn'. injection Hn as <-. injection Hn' as <-. lia.
Qed.

(** * Triples *)

(** The ghost state of a handler: an epoch the panel has reached, and its pending secret. *)
Definition tpre (g : Z * option string) (w : world) : Prop := exists e, epoch_is (w_db w) e /\ g.1 <= e.
Definition tmove (g : Z * option string) (w : world) (g' : Z * option string) (w' : world) : Prop :=
  epoch_is (w_db w') g'.1 /\ g.1 <= g'.1 /\ (g'.2 = g.2 \/ g'.2 = None) /\ moves g.2 g'.2 (w_db w) (w_db w').

(** A cookie that claims to be signed in claims an epoch already reached. *)
Definition bounded (n : Z) (c : session) : Prop := s_authed c = true -> default 0 (s_epoch c) <= n.

Lemma bounded_le n n' c : n <= n' -> bounded n c -> bounded n' c.
Proof. unfold bounded. intros ? H Ha. specialize (H Ha). lia. Qed.
Lemma bounded_empty n : bounded n empty_session.
Proof. by intros [=]. Qed.

(** From any epoch at least [c], the handler moves as it may, keeps its pending secret and a
    bounded session, and returns values with [Q]. *)
Definition triple {A} (c : Z) (h : H A) (Q : A -> Z -> Prop) : Prop :=
  forall n pd rq, c <= n -> bounded n (rq_session rq) ->
    wpg tpre tmove (n, pd) (h rq) (fun g x =>
      n <= g.1 /\ g.2 = pd /\ bounded g.1 (rq_session x.2) /\ forall a, x.1 = Ok a -> Q a g.1).

(** The same without the claim that the secret is still pending. *)
Definition wtriple {A} (c : Z) (pd : option string) (h : H A) : Prop :=
  forall n rq, c <= n -> bounded n (rq_session rq) ->
    wpg tpre tmove (n, pd) (h rq) (fun g x => n <= g.1 /\ bounded g.1 (rq_session x.2)).

Definition any {A} (a : A) (n : Z) : Prop := True.

Lemma triple_weak {A} c pd (h : H A) Q : triple c h Q -> wtriple c pd h.
Proof. intros Hh n rq Hc Hb. eapply wpg_mono; [by apply Hh|]. cbn. intros g x (? & ? & ? & ?). done. Qed.

Lemma triple_post {A} c (h : H A) (Q Q' : A -> Z -> Prop) : triple c h Q -> (forall a n, Q a n -> Q' a n) -> triple c h Q'.
Proof. intros Hh HQ n pd rq Hc Hb. eapply wpg_mono; [by apply Hh|]. cbn. intros g x (? & ? & ? & ?). split_and!; auto. Qed.

Lemma triple_ret {A} c (a : A) (Q : A -> Z -> Prop) : (forall n, c <= n -> Q a n) -> triple c (hret a) Q.
Proof. intros HQ n pd rq Hc Hb. cbn. split_and!; [lia|done|done|]. intros ? [= <-]. by apply HQ. Qed.
Lemma triple_http {A} c s d Q : triple c (@http A s d) Q.
Proof. intros n pd rq Hc Hb. cbn. split_and!; [lia|done|done|]. by intros ? [=]. Qed.
Lemma triple_raise {A} c f Q : triple c (@hraise A f) Q.
Proof. intros n pd rq Hc Hb. cbn. split_and!; [lia|done|done|]. by intros ? [=]. Qed.
Lemma triple_ask {A} c (f : request -> A) : triple c (ask f) any.
Proof. intros n pd rq Hc Hb. cbn. by split_and!; [lia|..]. Qed.
Lemma triple_get_session c : triple c get_session (fun ss n => bounded n ss).
Proof. intros n pd rq Hc Hb. cbn. split_and!; [lia|done|done|]. by intros ? [= <-]. Qed.
Lemma triple_put_session c s Q : bounded c s -> (forall n, Q tt n) -> triple c (put_session s) Q.
Proof.
  intros Hs HQ n pd rq Hc Hb. cbn. split_and!; [lia|done|by eapply bounded_le|]. intros ? [= <-]. apply HQ.
Qed.

Lemma triple_bind {A B} c (h : H A) (k : A -> H B) Q Q' :
  triple c h Q -> (forall a n, c <= n -> Q a n -> triple n (k a) Q') -> triple c (hbind h k) Q'.
Proof.
  intros Hh Hk n pd rq Hc Hb. unfold hbind. apply wpg_bind. eapply wpg_mono; [by apply Hh|]. cbn.
  intros [n' pd'] [[a|s d|f] rq']; cbn; intros (H1 & -> & H3 & H4).
  - eapply wpg_mono; [apply (Hk a n'); [lia|by apply H4|lia|done]|]. cbn. intros g x (? & ? & ? & ?). split_and!; [lia|done|done|done].
  - split_and!; [lia|done|done|]. by intros ? [=].
  - split_and!; [lia|done|done|]. by intros ? [=].
Qed.

Lemma wtriple_bind {A B} c pd (h : H A) (k : A -> H B) Q :
  triple c h Q -> (forall a n, c <= n -> Q a n -> wtriple n pd (k a)) -> wtriple c pd (hbind h k).
Proof.
  intros Hh Hk n rq Hc Hb. unfold hbind. apply wpg_bind. eapply wpg_mono; [by apply Hh|]. cbn.
  intros [n' pd'] [[a|s d|f] rq']; cbn; intros (H1 & -> & H3 & H4); [|done|done].
  eapply wpg_mono; [apply (Hk a n'); [lia|by apply H4|lia|done]|]. cbn. intros g x (? & ?). split; [lia|done].
Qed.

Lemma wtriple_map {A B} c pd (h : H A) (f : A -> B) : wtriple c pd h -> wtriple c pd (hmap f h).
Proof.
  intros Hh n rq Hc Hb. unfold hmap, hbind. apply wpg_bind. eapply wpg_mono; [by apply Hh|]. cbn.
  by intros g [[a|s d|x] rq'].
Qed.

Lemma triple_catch {A} c (h : H A) (k : fault -> H A) Q :
  triple c h Q -> (forall f, triple c (k f) Q) -> triple c (hcatch h k) Q.
Proof.
  intros Hh Hk n pd rq Hc Hb. unfold hcatch. apply wpg_bind. eapply wpg_mono; [by apply Hh|]. cbn.
  intros [n' pd'] [[a|s d|f] rq']; cbn; intros (H1 & -> & H3 & H4); [done|done|].
  eapply wpg_mono; [apply (Hk f n'); [lia|done]|]. cbn. intros g x (? & ? & ? & ?). split_and!; [lia|done|done|done].
Qed.

Lemma triple_finally {A} c (h : H A) (k : H unit) Q : triple c h Q -> (forall n, c <= n -> triple n k any) ->
  (forall a n n', n <= n' -> Q a n -> Q a n') -> triple c (hfinally h k) Q.
Proof.
  intros Hh Hk HQ n pd rq Hc Hb. unfold hfinally. apply wpg_bind. eapply wpg_mono; [by apply Hh|].
  intros [n' pd'] r (H1 & H2 & H3 & H4). cbn [fst snd] in H1, H2, H3, H4. subst pd'. cbv beta. apply wpg_bind.
  eapply wpg_mono; [apply (Hk n'); [lia|lia|done]|]. cbn. intros g x (? & ? & ? & _). split_and!; [lia|done|done|].
  intros a Ha. apply (HQ a n'); [lia|]. apply H4. by destruct x.1.
Qed.

(** An access that leaves the database alone. *)
Lemma triple_access {A} c (m : world -> A * world) : (forall w, w_db (m w).2 = w_db w) -> triple c (access m) any.
Proof.
  intros Hm n pd rq Hc Hb w (e & He & Hle). cbn in *. exists (e, pd). unfold tmove. rewrite Hm. split.
  - split_and!; [done|cbn; lia|by left|apply auth_moves_refl].
  - cbn. split_and!; [lia|done|by eapply bounded_le|done].
Qed.

Lemma wpg_store {A} n pd pd' (m : M A) rq (Q : Z * option string -> res A * request -> Prop) :
  (forall d, moves pd pd' d (m d).2) -> (pd' = pd \/ pd' = None) ->
  (forall d a d' e, m d = (inr a, d') -> epoch_is d' e -> n <= e -> Q (e, pd') (Ok a, rq)) ->
  (forall x e, n <= e -> Q (e, pd') (Err x, rq)) ->
  wpg tpre tmove (n, pd) (store m rq) Q.
Proof.
  intros Hm Hpd HQ HE w (e & He & Hle). cbn in *. unfold on_db. specialize (Hm (w_db w)).
  destruct (m (w_db w)) as [r d'] eqn:E. cbn [fst snd] in *. destruct (mv_epoch _ _ _ _ Hm e He) as (e' & He' & Hle' & _).
  exists (e', pd'). split; [split_and!; [done|cbn; lia|done|done]|].
  destruct r as [x|a]; cbn; [apply HE; lia|]. eapply HQ; [done|done|lia].
Qed.

Lemma triple_store {A} c (m : M A) (Q : A -> Z -> Prop) :
  (forall pd d, moves pd pd d (m d).2) ->
  (forall d a d' e, m d = (inr a, d') -> epoch_is d' e -> c <= e -> Q a e) -> triple c (store m) Q.
Proof.
  intros Hm HQ n pd rq Hc Hb. apply (wpg_store n pd pd); [apply Hm|by left| |]; cbn.
  - intros d a d' e Hd He Hle. split_and!; [lia|done|by eapply bounded_le|]. intros ? [= <-]. eapply HQ; [done|done|lia].
  - intros x e Hle. split_and!; [lia|done|by eapply bounded_le|]. by intros ? [=].
Qed.

Lemma triple_read {A} c (f : db -> A) : triple c (store (mget f)) any.
Proof. apply triple_store; [intros; apply auth_moves_refl|done]. Qed.

Lemma triple_do {A} c (m : M A) : (forall pd d, moves pd pd d (m d).2) -> triple c (store m) any.
Proof. intros Hm. by apply triple_store. Qed.

Lemma triple_epoch c : triple c (store session_epoch) (fun e n => e <= n).
Proof.
  apply triple_store; [intros pd d; unfold session_epoch; rewrite int_setting_same; apply auth_moves_refl|].
  intros d a d' e Hd He _. pose proof (int_setting_same EPOCH d) as Hs. unfold session_epoch in Hd. rewrite Hd in Hs. cbn in Hs. subst d'.
  apply int_setting_epoch in Hd. unfold epoch_is in *. rewrite Hd in He. injection He as <-. lia.
Qed.

Lemma triple_if {A} c (b : bool) (h1 h2 : H A) Q : triple c h1 Q -> triple c h2 Q -> triple c (if b then h1 else h2) Q.
Proof. by destruct b. Qed.

Create HintDb triple.
#[export] Hint Resolve triple_http triple_raise triple_get_session triple_put_session triple_bind
  triple_catch triple_read triple_if bounded_empty : triple.
#[export] Hint Extern 1 (triple _ (hret _) _) => apply triple_ret; done : triple.
#[export] Hint Extern 1 (triple _ (ask _) _) => apply triple_ask : triple.
#[export] Hint Extern 1 (triple _ (access _) _) => apply triple_access; intros []; done : triple.

(** One step through a handler's text. *)
Ltac trip1 :=
  match goal with
  | |- triple _ (hbind _ _) _ => eapply triple_bind; [|intros ? ? ? ?]
  | |- triple _ (hcatch _ _) _ => eapply triple_catch; [|intros ?]
  | |- triple _ (hfinally _ _) _ => apply (triple_finally _ _ _ any); [|intros ? ?|done]
  | |- triple _ (hmap _ _) _ => unfold hmap
  | |- triple _ (if ?b then _ else _) _ => destruct b
  | |- triple _ (match ?x with _ => _ end) _ => destruct x
  | |- triple _ (let '(_, _) := ?x in _) _ => destruct x
  | |- triple _ (store (mget _)) _ => apply triple_read
  | |- triple _ get_session _ => apply triple_get_session
  | |- triple _ (put_session empty_session) _ => apply triple_put_session
  | |- triple _ _ _ => first [apply triple_http | apply triple_raise | apply triple_ret; done | apply triple_ask
                             | apply triple_access; intros []; done | eassumption ]
  end.
Ltac trip := repeat trip1; eauto with triple.

Lemma triple_put {c} s : bounded c s -> triple c (put_session s) any.
Proof. intros Hs. by apply triple_put_session. Qed.
#[export] Hint Resolve triple_put : triple.

Section handlers.
Context (P : params).

Lemma triple_token_principal c : triple c (token_principal (pr_sha256 P)) any.
Proof.
  intros n pd rq Hc Hb. unfold token_principal. destruct (rq_principal rq) as [p|]; [cbn; split_and!; [lia|done|done|done]|].
  match goal with |- wpg _ _ _ (hbind ?h _ rq) _ => assert (triple c (hbind h (fun p rq => Ret (Ok p, with_principal p rq))) any) as Ht end.
  { eapply triple_bind with (Q := any).
    - repeat trip1. apply triple_do. intros. apply moves_touch.
    - intros p n' _ _ n2 pd2 rq2 Hc2 Hb2. cbn. split_and!; [lia|done|done|done]. }
  by apply Ht.
Qed.
#[local] Hint Resolve triple_token_principal : triple.

Lemma bounded_touch n t ss : bounded n ss -> bounded n (with_last_seen t ss).
Proof. done. Qed.

Lemma triple_timeout c : triple c (store (int_setting TIMEOUT)) any.
Proof. apply triple_do. intros. rewrite int_setting_same. apply auth_moves_refl. Qed.
#[local] Hint Resolve triple_timeout : triple.

Lemma triple_invalid_reason c touch : triple c (session_invalid_reason touch) any.
Proof.
  unfold session_invalid_reason. eapply triple_bind; [apply triple_get_session|intros ss n Hn Hss].
  destruct (negb (s_authed ss)); [by apply triple_ret|].
  eapply triple_bind; [apply triple_epoch|intros e n1 Hn1 _]. destruct (negb _); [by apply triple_ret|].
  eapply triple_bind; [apply triple_timeout|intros t n2 Hn2 _]. destruct (0 <? t); [|by apply triple_ret].
  eapply triple_bind; [apply triple_ask|intros now n3 Hn3 _]. destruct (_ <? _); [by apply triple_ret|].
  eapply triple_bind with (Q := any); [|intros; by apply triple_ret].
  destruct touch; [|by apply triple_ret]. apply triple_put, bounded_touch. eapply bounded_le; [|exact Hss]. lia.
Qed.
#[local] Hint Resolve triple_invalid_reason : triple.

Lemma triple_require_auth c : triple c (require_auth (pr_sha256 P)) any.
Proof. unfold require_auth. trip. Qed.
Lemma triple_require_csrf c : triple c (require_csrf (pr_sha256 P)) any.
Proof. unfold require_csrf. trip. Qed.
#[local] Hint Resolve triple_require_auth triple_require_csrf : triple.

Lemma triple_gated {A} c (h : H A) Q : (forall n, c <= n -> triple n h Q) -> triple c (gated P h) Q.
Proof. intros Hh. unfold gated. eapply triple_bind; [apply triple_require_auth|]. intros _ n Hn _. by apply Hh. Qed.
Lemma triple_gated_mutation {A} c (h : H A) Q : (forall n, c <= n -> triple n h Q) -> triple c (gated_mutation P h) Q.
Proof.
  intros Hh. unfold gated_mutation. eapply triple_bind; [apply triple_require_auth|]. intros _ n Hn _.
  eapply triple_bind; [apply triple_require_csrf|]. intros _ n' Hn' _. apply Hh. lia.
Qed.

Lemma triple_verify_login c dummy u p : triple c (verify_login (pr_scrypt P) dummy u p) any.
Proof. unfold verify_login. trip. Qed.
#[local] Hint Resolve triple_verify_login : triple.

Lemma triple_open_session c csrf : triple c (open_session csrf) any.
Proof.
  unfold open_session. eapply triple_bind; [apply triple_epoch|intros e n Hn He].
  eapply triple_bind; [apply triple_ask|intros now n1 Hn1 _]. apply triple_put. intros _. cbn in *. lia.
Qed.
#[local] Hint Resolve triple_open_session : triple.

Lemma triple_setup_status c : triple c (setup_status P) any.
Proof. unfold setup_status. trip. Qed.

Lemma hash_password_nonempty salt pw : hash_password (pr_scrypt P) salt pw <> "".
Proof. unfold hash_password. destruct (hexdigest salt); done. Qed.

Lemma triple_setup c u p salt csrf bt : triple c (setup_create P u p salt csrf bt) any.
Proof.
  unfold setup_create, unlink_token_file, is_file, read_token_file. trip.
  - apply triple_do. intros. apply moves_setup.
  - apply triple_access. intros [? ? ? ? [] []]; done.
Qed.

Lemma guard_enter_db ip now w : w_db (guard_enter ip now w).2 = w_db w.
Proof.
  unfold guard_enter. cbv zeta. generalize (if (LOGIN_GUARD_MAX <=? size (w_guards w))%nat && bool_decide (w_guards w !! ip = None)
    then evict_login_guard now w else Some (w_guards w)). intros [guards|]; [|done].
  destruct (guards !! ip); cbn; destruct (_ || _); done.
Qed.

Lemma triple_login c u p csrf : triple c (login P u p csrf) any.
Proof.
  unfold login, login_verify. trip.
  - apply triple_access, guard_enter_db.
  - apply triple_access. intros w. unfold kdf_acquire. by destruct (0 <? w_kdf w).
Qed.

Lemma triple_logout c : triple c (logout P) any.
Proof. unfold logout. trip. Qed.

Lemma triple_change_password c current new salt : triple c (change_password P current new salt) any.
Proof.
  unfold change_password. apply triple_gated_mutation. intros n Hn.
  eapply triple_bind; [apply triple_read|intros u n1 Hn1 _].
  eapply triple_bind; [apply triple_verify_login|intros ok n2 Hn2 _].
  destruct (negb ok); [apply triple_http|].
  eapply triple_bind; [apply triple_do; intros; apply moves_rotate, hash_password_nonempty|intros _ n3 Hn3 _].
  eapply triple_bind; [apply triple_epoch|intros e n4 Hn4 He].
  eapply triple_bind; [apply triple_get_session|intros ss n5 Hn5 _].
  apply triple_put. intros _. cbn in *. lia.
Qed.

Lemma triple_csrf c : triple c (csrf P) any.
Proof. apply triple_gated. intros. trip. Qed.
Lemma triple_list_tokens c : triple c (list_tokens_route P) any.
Proof. apply triple_gated. intros. trip. Qed.
Lemma triple_delete_token c i : triple c (delete_token_route P i) any.
Proof. apply triple_gated_mutation. intros. trip. apply triple_do. intros. apply moves_delete. Qed.

Lemma wtriple_create_token c name scope e random :
  wtriple c (Some (generate (pr_sha256 P) random).1.2) (create_token_route P name scope e random).
Proof.
  unfold create_token_route. eapply wtriple_bind; [apply triple_require_auth|intros _ n Hn _].
  eapply wtriple_bind; [apply triple_require_csrf|intros _ n1 Hn1 _]. destruct (generate _ _) as [[full h] pfx]. cbn [fst snd].
  eapply wtriple_bind; [apply triple_ask|intros now n2 Hn2 _].
  destruct (match e with Some _ => _ | None => _ end); [apply (triple_weak _ _ _ any), triple_http|].
  intros n3 rq Hc Hb. unfold hbind. apply wpg_bind. apply (wpg_store n3 (Some h) None); [intros; apply moves_create|by right| |]; cbn.
  - intros. split; [lia|by eapply bounded_le].
  - intros. split; [lia|by eapply bounded_le].
Qed.
End handlers.

(** * The requests side by side *)

Section panel.
Context (P : params).

Lemma wtriple_handler rt c : wtriple c (draws P rt) (handler P rt).
Proof.
  destruct rt; cbn [draws handler]; unfold skip;
    try match goal with |- wtriple _ _ (hmap _ _) => apply wtriple_map end;
    [..|apply wtriple_create_token| | |]; apply (triple_weak _ _ _ any).
  - apply triple_setup_status.
  - apply triple_setup.
  - apply triple_login.
  - apply triple_logout.
  - apply triple_change_password.
  - apply triple_csrf.
  - apply triple_list_tokens.
  - apply triple_delete_token.
  - apply triple_gated. intros. by apply triple_ret.
  - apply triple_gated_mutation. intros. by apply triple_ret.
Qed.

Lemma triple_audit_actor c : triple c (audit_actor P) any.
Proof.
  unfold audit_actor. eapply triple_catch; [|intros; by apply triple_ret].
  eapply triple_bind; [apply triple_token_principal|intros [p|] n Hn _]; [by apply triple_ret|]. trip.
Qed.

Lemma triple_audit_write c rq actor status : triple c (audit_write rq actor status) any.
Proof. unfold audit_write. trip. apply triple_do. intros. apply moves_audit. Qed.

Lemma wtriple_serve rt c : wtriple c (draws P rt) (serve P rt).
Proof.
  intros n rq Hc Hb. unfold serve, audit_mw. apply wpg_bind.
  assert (wpg tpre tmove (n, draws P rt) (if mutating rq then audit_actor P rq else Ret (Ok "anon", rq))
            (fun g x => n <= g.1 /\ g.2 = draws P rt /\ bounded g.1 (rq_session x.2))) as Ha.
  { destruct (mutating rq); [|cbn; split_and!; [lia|done|done]].
    eapply wpg_mono; [by apply (triple_audit_actor c)|]. cbn. naive_solver. }
  eapply wpg_mono; [exact Ha|]. intros [n1 pd1] a (Hn1 & Hpd & Hb1). cbn [fst snd] in Hn1, Hpd, Hb1. subst pd1. cbv beta. apply wpg_bind.
  eapply wpg_mono; [apply (wtriple_handler rt c); [lia|done]|]. intros [n2 pd2] r [Hn2 Hb2]. cbn [fst snd] in Hn2, Hb2. cbv beta.
  destruct (mutating rq); [|cbn; split; [lia|done]]. apply wpg_bind.
  eapply wpg_mono; [apply (triple_audit_write c); [lia|done]|]. cbn. intros g x (? & _ & ? & _). split; [lia|done].
Qed.

Definition ends (g : Z * option string) (x : res unit * request) : Prop := bounded g.1 (rq_session x.2).
Definition safe (n : Z) (pd : option string) (p : prog world (res unit * request)) : Prop :=
  wpg tpre tmove (n, pd) p ends.

Lemma epoch_is_fun d e e' : epoch_is d e -> epoch_is d e' -> e = e'.
Proof. unfold epoch_is. congruence. Qed.

Lemma safe_later n n' pd p : safe n pd p -> n <= n' -> safe n' pd p.
Proof.
  unfold safe. destruct p as [x|B m k]; cbn; intros Hp Hle; [by eapply bounded_le|].
  intros w (e & He & Hn). cbn in Hn. destruct (Hp w) as ([e' pd'] & (H1 & H2 & H3 & H4) & H5); [exists e; cbn; split; [done|lia]|].
  exists (e', pd'). split; [|done]. split_and!; [done| |done|done]. cbn in *.
  destruct (mv_epoch _ _ _ _ H4 e He) as (e2 & He2 & Hle2 & _). rewrite (epoch_is_fun _ _ _ H1 He2). lia.
Qed.

Definition pending (pends : list (option string)) : list string := omap id pends.

(** The invariant, with the pending secret of each handler. *)
Record inv (e : Z) (pends : list (option string)) (s : panel) : Prop := {
  inv_epoch : epoch_is (pn_db s) e;
  inv_issued c : c ∈ pn_issued s -> bounded e c;
  inv_safe : Forall2 (safe e) pends (pn_threads s);
  inv_nodup : NoDup (pending pends);
  inv_pending h : h ∈ pending pends -> h ∈ pn_drawn s /\ ~ has_hash h (pn_db s);
  inv_drawn h : has_hash h (pn_db s) -> h ∈ pn_drawn s
}.

(** What a step does to the access the panel gives. *)
Record advances (e : Z) (pends : list (option string)) (s : panel) (e' : Z) (pends' : list (option string)) (s' : panel) : Prop := {
  ad_epoch : e <= e';
  ad_rotated : e < e' -> d_tokens (pn_db s') = ∅;
  ad_drawn : pn_drawn s ⊆ pn_drawn s';
  ad_issued : pn_issued s ⊆ pn_issued s';
  ad_pending h : h ∈ pn_drawn s -> h ∈ pending pends' -> h ∈ pending pends;
  ad_hash h : has_hash h (pn_db s') -> has_hash h (pn_db s) \/ h ∈ pending pends;
  ad_credential : needs_setup (pn_db s) = false ->
    needs_setup (pn_db s') = false /\ get_setting AUTH_USER (pn_db s') = get_setting AUTH_USER (pn_db s) /\
    (get_setting AUTH_HASH (pn_db s') = get_setting AUTH_HASH (pn_db s) \/ e < e')
}.

Lemma started_inv s : started s -> exists e, inv e [] s.
Proof.
  intros (Ht & _ & _ & _ & (n & Hn & Hc) & Htok). exists n. split; [by apply int_setting_epoch| |by rewrite Ht|constructor| |].
  - intros c Hin _. by apply Hc.
  - intros h Hin. cbn in Hin. by apply elem_of_nil in Hin.
  - intros h (i & t & Hi & <-). by eapply Htok.
Qed.

Lemma Forall2_safe_later e e' pends ts : e <= e' -> Forall2 (safe e) pends ts -> Forall2 (safe e') pends ts.
Proof. intros Hle H. eapply Forall2_impl; [exact H|]. intros. by eapply safe_later. Qed.

Lemma elem_pending h pends : h ∈ pending pends <-> Some h ∈ pends.
Proof.
  unfold pending. rewrite list_elem_of_omap. split; [intros (x & Hx & Hid)|intros Hx; by exists (Some h)]. cbn in Hid. by subst x.
Qed.
Lemma pending_app l1 l2 : pending (l1 ++ l2) = (pending l1 ++ pending l2)%list.
Proof. apply omap_app. Qed.

Lemma safe_act e pd B (m : world -> B * world) k w b w' :
  safe e pd (Act m k) -> epoch_is (w_db w) e -> m w = (b, w') ->
  exists e' pd', e <= e' /\ epoch_is (w_db w') e' /\ (pd' = pd \/ pd' = None) /\
    moves pd pd' (w_db w) (w_db w') /\ safe e' pd' (k b).
Proof.
  intros Hs He Hm. destruct (Hs w) as ([e' pd'] & (H1 & H2 & H3 & H4) & H5); [exists e; by split|].
  rewrite Hm in *. cbn in *. by exists e', pd'.
Qed.

Lemma inv_act e pends s B (m : world -> B * world) k l1 l2 b w :
  inv e pends s -> pn_threads s = (l1 ++ Act m k :: l2)%list -> m (pn_world s) = (b, w) ->
  let s' := Panel w (l1 ++ k b :: l2) (pn_issued s) (pn_drawn s) in
  exists e' pends', inv e' pends' s' /\ advances e pends s e' pends' s'.
Proof.
  intros [He Hi Hf Hnd Hp Hd] Ht Hm s'. rewrite Ht in Hf.
  apply Forall2_app_inv_r in Hf as (p1 & p2 & Hf1 & Hf2 & ->).
  apply Forall2_cons_inv_r in Hf2 as (pd & p3 & Hsafe & Hf3 & ->).
  destruct (safe_act _ _ _ _ _ _ _ _ Hsafe He Hm) as (e' & pd' & Hle & He' & Hpd & Hmv & Hsafe').
  assert (forall h, h ∈ pending (p1 ++ pd' :: p3) -> h ∈ pending (p1 ++ pd :: p3)) as Hsub.
  { intros h. rewrite !elem_pending, !elem_of_app, !elem_of_cons. destruct Hpd as [-> | ->]; naive_solver. }
  destruct (mv_epoch _ _ _ _ Hmv e He) as (e2 & He2 & _ & Hrot). rewrite (epoch_is_fun _ _ _ He2 He') in Hrot. clear e2 He2.
  exists e', (p1 ++ pd' :: p3)%list. split; split; cbn.
  - done.
  - intros c Hc. eapply bounded_le; [exact Hle|]. by apply Hi.
  - apply Forall2_app; [by eapply Forall2_safe_later|]. constructor; [done|by eapply Forall2_safe_later].
  - destruct Hpd as [-> | ->]; [done|]. rewrite pending_app in *. cbn in *. destruct pd as [h|]; [|done]. cbn in Hnd.
    apply NoDup_app in Hnd as (N1 & N2 & N3). apply NoDup_cons in N3 as [_ N3].
    apply NoDup_app. split_and!; [done| |done]. intros x Hx Hx'. apply (N2 x Hx). by right.
  - intros h Hh. destruct (Hp h (Hsub h Hh)) as [H1 H2]. split; [done|]. intros Hhas.
    destruct (mv_hash _ _ _ _ Hmv h Hhas) as [Hhas' | [-> ->]]; [by apply H2|].
    clear Hsub. rewrite pending_app in Hnd, Hh. cbn in Hnd, Hh. apply NoDup_app in Hnd as (_ & N2 & N3).
    apply NoDup_cons in N3 as [N3 _]. apply elem_of_app in Hh as [Hh | Hh]; [|done]. apply (N2 h Hh). by left.
  - intros h Hhas. destruct (mv_hash _ _ _ _ Hmv h Hhas) as [Hhas' | [-> ->]]; [by apply Hd|].
    apply Hp. rewrite elem_pending. apply elem_of_app. right. by left.
  - done.
  - done.
  - done.
  - done.
  - intros h _. apply Hsub.
  - intros h Hhas. destruct (mv_hash _ _ _ _ Hmv h Hhas) as [Hhas' | [-> ->]]; [by left|right].
    rewrite elem_pending. apply elem_of_app. right. by left.
  - intros Hn. destruct (mv_credential _ _ _ _ Hmv Hn) as (H1 & H2 & H3). split_and!; [done|done|].
    destruct H3 as [H3 | H3]; [by left|right]. by apply H3.
Qed.

Lemma advances_same_db e pends s pends' s' :
  pn_db s' = pn_db s -> pn_drawn s ⊆ pn_drawn s' -> pn_issued s ⊆ pn_issued s' ->
  (forall h, h ∈ pn_drawn s -> h ∈ pending pends' -> h ∈ pending pends) ->
  advances e pends s e pends' s'.
Proof. intros Hd H1 H2 H3. split; rewrite ?Hd; auto; lia. Qed.

Lemma inv_arrive e pends s rt rq :
  inv e pends s -> rq_session rq = empty_session \/ rq_session rq ∈ pn_issued s ->
  (forall h, draws P rt = Some h -> h ∉ pn_drawn s) ->
  let s' := Panel (pn_world s) (pn_threads s ++ [serve P rt rq]) (pn_issued s) (option_list (draws P rt) ++ pn_drawn s) in
  exists e' pends', inv e' pends' s' /\ advances e pends s e' pends' s'.
Proof.
  intros [He Hi Hf Hnd Hp Hd] Hrq Hfresh s'. exists e, (pends ++ [draws P rt])%list.
  assert (forall h, h ∈ pending [draws P rt] -> draws P rt = Some h) as Hone.
  { intros h. rewrite elem_pending. by intros ->%list_elem_of_singleton. }
  split; [split; cbn|apply advances_same_db; cbn].
  - done.
  - done.
  - apply Forall2_app; [done|]. constructor; [|constructor]. unfold safe.
    eapply wpg_mono; [apply (wtriple_serve rt e); [lia|]|].
    + destruct Hrq as [-> | Hin]; [apply bounded_empty|by apply Hi].
    + intros g x [_ Hb]. exact Hb.
  - rewrite pending_app. apply NoDup_app. split_and!; [done| |].
    + intros h Hh Hh'. apply (Hfresh h); [by apply Hone|]. by apply Hp.
    + destruct (draws P rt); cbn; [apply NoDup_singleton|constructor].
  - intros h. rewrite pending_app, elem_of_app. intros [Hh | Hh].
    + destruct (Hp h Hh) as [H1 H2]. split; [|done]. apply elem_of_app. by right.
    + apply Hone in Hh. split; [rewrite Hh; apply elem_of_app; left; by left|]. intros Hhas. apply (Hfresh h Hh). by apply Hd.
  - intros h Hh. apply elem_of_app. right. by apply Hd.
  - done.
  - intros h Hh. apply elem_of_app. by right.
  - done.
  - intros h Hin. rewrite pending_app, elem_of_app. intros [Hh | Hh]; [done|]. apply Hone in Hh. by apply Hfresh in Hh.
Qed.

Lemma inv_finish e pends s x l1 l2 :
  inv e pends s -> pn_threads s = (l1 ++ Ret x :: l2)%list ->
  let s' := Panel (pn_world s) (l1 ++ l2) (cookie_of x ++ pn_issued s) (pn_drawn s) in
  exists e' pends', inv e' pends' s' /\ advances e pends s e' pends' s'.
Proof.
  intros [He Hi Hf Hnd Hp Hd] Ht s'. rewrite Ht in Hf.
  apply Forall2_app_inv_r in Hf as (p1 & p2 & Hf1 & Hf2 & ->).
  apply Forall2_cons_inv_r in Hf2 as (pd & p3 & Hsafe & Hf3 & ->).
  assert (forall h, h ∈ pending (p1 ++ p3) -> h ∈ pending (p1 ++ pd :: p3)) as Hsub.
  { intros h. rewrite !elem_pending, !elem_of_app, !elem_of_cons. naive_solver. }
  exists e, (p1 ++ p3)%list. split; [split; cbn|apply advances_same_db; cbn].
  - done.
  - intros c [Hc | Hc]%elem_of_app; [|by apply Hi]. unfold cookie_of in Hc. cbn in Hsafe.
    destruct x as [[a|st d|f] rq]; cbn in *; [apply list_elem_of_singleton in Hc; by subst..|by apply elem_of_nil in Hc].
  - by apply Forall2_app.
  - rewrite pending_app in *. cbn in Hnd. apply NoDup_app in Hnd as (N1 & N2 & N3).
    destruct pd as [h|]; cbn in *; [|by apply NoDup_app]. apply NoDup_cons in N3 as [_ N3].
    apply NoDup_app. split_and!; [done| |done]. intros y Hy Hy'. apply (N2 y Hy). by right.
  - intros h Hh. by apply Hp, Hsub.
  - done.
  - done.
  - done.
  - intros h Hh. apply elem_of_app. by right.
  - intros h _. apply Hsub.
Qed.

Lemma has_hash_tokens h d d' : d_tokens d' = d_tokens d -> has_hash h d' <-> has_hash h d.
Proof. intros H. unfold has_hash. by rewrite H. Qed.

Lemma inv_other e pends s d :
  inv e pends s -> auth_frame (pn_db s) d ->
  let s' := Panel (set_db d (pn_world s)) (pn_threads s) (pn_issued s) (pn_drawn s) in
  exists e' pends', inv e' pends' s' /\ advances e pends s e' pends' s'.
Proof.
  intros [He Hi Hf Hnd Hp Hd] (Hu & Hh & Hep & Ht) s'. exists e, pends. split; split; cbn; try done.
  - unfold epoch_is. by rewrite Hep.
  - intros h Hin. destruct (Hp h Hin) as [H1 H2]. split; [done|]. by rewrite (has_hash_tokens _ _ _ Ht).
  - intros h. rewrite (has_hash_tokens _ _ _ Ht). apply Hd.
  - lia.
  - intros h. rewrite (has_hash_tokens _ _ _ Ht). by left.
  - intros Hn. split; [|split; [exact Hu|left; exact Hh]]. unfold needs_setup in Hn. rewrite <- Hh in Hn. exact Hn.
Qed.

Lemma inv_step e pends s s' : inv e pends s -> step P s s' ->
  exists e' pends', inv e' pends' s' /\ advances e pends s e' pends' s'.
Proof.
  intros Hinv Hs. destruct Hs.
  - by apply inv_arrive.
  - by eapply inv_act.
  - by eapply inv_finish.
  - by apply inv_other.
Qed.

Lemma inv_steps e pends s s' : inv e pends s -> rtc (step P) s s' ->
  exists e' pends', inv e' pends' s' /\ e <= e' /\ (forall h, h ∈ pn_drawn s -> ~ has_hash h (pn_db s) -> h ∉ pending pends -> ~ has_hash h (pn_db s')).
Proof.
  intros Hinv Hs. revert e pends Hinv. induction Hs as [s|s s1 s2 H1 H2 IH]; intros e pends Hinv.
  { exists e, pends. split_and!; [done|lia|done]. }
  destruct (inv_step _ _ _ _ Hinv H1) as (e1 & p1 & Hinv1 & Had). destruct (IH e1 p1 Hinv1) as (e2 & p2 & Hinv2 & Hle & Hh).
  exists e2, p2. split_and!; [done|pose proof (ad_epoch _ _ _ _ _ _ Had); lia|].
  intros h Hd Hn Hpe. apply Hh.
  - by apply (ad_drawn _ _ _ _ _ _ Had).
  - intros Hhas. by destruct (ad_hash _ _ _ _ _ _ Had h Hhas).
  - intros Hp. by apply Hpe, (ad_pending _ _ _ _ _ _ Had).
Qed.

Lemma auth_reachable_inv s : reachable P s -> exists e pends, inv e pends s.
Proof.
  intros (s0 & Hst & Hs). destruct (started_inv _ Hst) as [e Hinv].
  destruct (inv_steps _ _ _ _ Hinv Hs) as (e' & p' & Hinv' & _). by exists e', p'.
Qed.
End panel.
