(* ===== verification/GuardFacts.v ===== *)
(** The login guard among concurrent logins: each handler under way holds at most one bucket
    and one verifier slot ([hold]); [ginv] ties the holds to the shared counters. *)
From Stdlib Require Import ZArith Lia.
From stdpp Require Import base gmap strings list relations.
From S2P Require Import Prelude PyStr Store Ip Uri Inject Web Auth AuthFlow.
Open Scope string_scope.
Open Scope Z_scope.
Open Scope web_scope.

(** * Holds *)

Record hold := Hold { h_bucket : option nat; h_slot : bool }.
Definition idle : hold := Hold None false.

Definition entered (e : entry) : option nat := match e with Entered r => Some r | _ => None end.

Inductive gmove : hold -> world -> hold -> world -> Prop :=
  | g_same h w w' :
      w_guards w' = w_guards w -> w_heap w' = w_heap w -> w_kdf w' = w_kdf w -> gmove h w h w'
  | g_enter ip now w :
      gmove idle w (Hold (entered (guard_enter ip now w).1) false) (guard_enter ip now w).2
  | g_acquire b w : gmove (Hold b false) w (Hold b (kdf_acquire w).1) (kdf_acquire w).2
  | g_release b w : gmove (Hold b true) w (Hold b false) (kdf_release w).2
  | g_leave r w : gmove (Hold (Some r) false) w idle (guard_leave r w).2
  | g_settle r valid now lockout w :
      gmove (Hold (Some r) false) w idle (guard_settle r valid now lockout w).2.

Notation gwp := (wpg (fun (_ : hold) (_ : world) => True) gmove).

(** A handler that leaves the guard alone. *)
Definition quiet {A} (h : H A) : Prop := forall g rq, gwp g (h rq) (fun g' _ => g' = g).

Lemma quiet_ret {A} (a : A) : quiet (hret a).
Proof. by intros g rq. Qed.
Lemma quiet_http {A} s d : quiet (@http A s d).
Proof. by intros g rq. Qed.
Lemma quiet_raise {A} f : quiet (@hraise A f).
Proof. by intros g rq. Qed.
Lemma quiet_ask {A} (f : request -> A) : quiet (ask f).
Proof. by intros g rq. Qed.
Lemma quiet_get_session : quiet get_session.
Proof. by intros g rq. Qed.
Lemma quiet_put_session s : quiet (put_session s).
Proof. by intros g rq. Qed.
Lemma quiet_pure {A} (f : request -> res A * request) : quiet (fun rq => Ret (f rq)).
Proof. by intros g rq. Qed.
Lemma quiet_store {A} (m : M A) : quiet (store m).
Proof.
  intros g rq w _. exists g. unfold on_db. destruct (m (w_db w)) as [[e|a] d]; cbn; (split; [by constructor|done]).
Qed.
Lemma quiet_access {A} (m : world -> A * world) :
  (forall w, w_guards (m w).2 = w_guards w /\ w_heap (m w).2 = w_heap w /\ w_kdf (m w).2 = w_kdf w) -> quiet (access m).
Proof. intros Hm g rq w _. exists g. destruct (Hm w) as (? & ? & ?). split; [by constructor|done]. Qed.
Lemma quiet_bind {A B} (h : H A) (k : A -> H B) : quiet h -> (forall a, quiet (k a)) -> quiet (hbind h k).
Proof.
  intros Hh Hk g rq. unfold hbind. apply wpg_bind. eapply wpg_mono; [apply Hh|].
  intros g' [[a|s d|f] rq'] ->; cbn; [apply Hk|done|done].
Qed.
Lemma quiet_catch {A} (h : H A) (k : fault -> H A) : quiet h -> (forall f, quiet (k f)) -> quiet (hcatch h k).
Proof.
  intros Hh Hk g rq. unfold hcatch. apply wpg_bind. eapply wpg_mono; [apply Hh|].
  intros g' [[a|s d|f] rq'] ->; cbn; [done|done|apply Hk].
Qed.

Create HintDb quiet.
#[export] Hint Resolve quiet_ret quiet_http quiet_raise quiet_ask quiet_get_session quiet_put_session quiet_store : quiet.
Ltac quiet1 :=
  match goal with
  | |- quiet (hbind _ _) => apply quiet_bind; [|intros ?]
  | |- quiet (hcatch _ _) => apply quiet_catch; [|intros ?]
  | |- quiet (hmap _ _) => unfold hmap
  | |- quiet (if ?b then _ else _) => destruct b
  | |- quiet (match ?x with _ => _ end) => destruct x
  | |- quiet (let '(_, _) := ?x in _) => destruct x
  | |- quiet _ => solve [auto with quiet]
  end.
Ltac quiet_all := repeat quiet1.

Section quiet_handlers.
Context (P : params).

Lemma quiet_token_principal : quiet (token_principal (pr_sha256 P)).
Proof.
  intros g rq. unfold token_principal. destruct (rq_principal rq) as [p|]; [done|].
  match goal with |- wpg _ _ _ (hbind ?h _ rq) _ =>
    assert (quiet (hbind h (fun p rq => Ret (Ok p, with_principal p rq)))) as Hq end; [|by apply Hq].
  apply quiet_bind; [quiet_all|intros p; apply quiet_pure].
Qed.
#[local] Hint Resolve quiet_token_principal : quiet.
Lemma quiet_require_auth : quiet (require_auth (pr_sha256 P)).
Proof. unfold require_auth, session_invalid_reason. quiet_all. Qed.
Lemma quiet_require_csrf : quiet (require_csrf (pr_sha256 P)).
Proof. unfold require_csrf. quiet_all. Qed.
#[local] Hint Resolve quiet_require_auth quiet_require_csrf : quiet.
Lemma quiet_gated {A} (h : H A) : quiet h -> quiet (gated P h).
Proof. intros Hh. unfold gated. quiet_all. Qed.
Lemma quiet_gated_mutation {A} (h : H A) : quiet h -> quiet (gated_mutation P h).
Proof. intros Hh. unfold gated_mutation. quiet_all. Qed.
Lemma quiet_open_session csrf : quiet (open_session csrf).
Proof. unfold open_session. quiet_all. Qed.
#[local] Hint Resolve quiet_open_session : quiet.
Lemma quiet_verify_login dummy u p : quiet (verify_login (pr_scrypt P) dummy u p).
Proof. unfold verify_login. quiet_all. Qed.
#[local] Hint Resolve quiet_verify_login : quiet.
Lemma quiet_setup_status : quiet (setup_status P).
Proof. unfold setup_status. quiet_all. by apply quiet_access. Qed.
Lemma quiet_setup u p salt csrf bt : quiet (setup_create P u p salt csrf bt).
Proof.
  unfold setup_create, unlink_token_file. quiet_all; apply quiet_access; try done. by intros [? ? ? ? [] []].
Qed.
Lemma quiet_change_password current new salt : quiet (change_password P current new salt).
Proof. apply quiet_gated_mutation. quiet_all. Qed.
Lemma quiet_create_token name scope e random : quiet (create_token_route P name scope e random).
Proof. unfold create_token_route. apply quiet_gated_mutation. destruct (generate _ _) as [[full h] pfx]. quiet_all. Qed.
Lemma quiet_delete_token i : quiet (delete_token_route P i).
Proof. apply quiet_gated_mutation. quiet_all. Qed.
Lemma quiet_audit_actor : quiet (audit_actor P).
Proof. unfold audit_actor. quiet_all. Qed.
Lemma quiet_audit_write rq actor status : quiet (audit_write rq actor status).
Proof. unfold audit_write. quiet_all. Qed.

(** * What a login holds, from its bucket to its answer *)

Definition settled (g : hold) : Prop := h_slot g = false.

Lemma gwp_access {A B} g g' (m : world -> A * world) (k : A -> H B) rq (Q : hold -> res B * request -> Prop) :
  (forall w, gmove g w (g' (m w).1) (m w).2 /\ gwp (g' (m w).1) (k (m w).1 rq) Q) ->
  gwp g (hbind (access m) k rq) Q.
Proof. intros Hm w _. destruct (Hm w) as [H1 H2]. exists (g' (m w).1). by split. Qed.

Lemma gwp_quiet {A B} g (h : H A) (k : A -> H B) rq (Q : hold -> res B * request -> Prop) :
  quiet h -> (forall a rq, gwp g (k a rq) Q) -> (forall s d rq, Q g (Http s d, rq)) -> (forall f rq, Q g (Err f, rq)) ->
  gwp g (hbind h k rq) Q.
Proof.
  intros Hh Hk H1 H2. unfold hbind. apply wpg_bind. eapply wpg_mono; [apply Hh|].
  intros g' [[a|s d|f] rq'] ->; cbn; auto.
Qed.

Lemma gwp_of_quiet {A} g (h : H A) rq (Q : hold -> res A * request -> Prop) :
  quiet h -> (forall x, Q g x) -> gwp g (h rq) Q.
Proof. intros Hh HQ. eapply wpg_mono; [apply Hh|]. by intros g' x ->. Qed.

Lemma gwp_login_verify r u p csrf rq :
  gwp (Hold (Some r) false) (login_verify P r u p csrf rq) (fun g _ => settled g).
Proof.
  unfold login_verify. apply (gwp_access _ (fun slot => Hold (Some r) slot)). intros w. split; [constructor|].
  destruct (kdf_acquire w).1; cbn [negb].
  2: { apply (gwp_access _ (fun _ => idle)). intros w1. split; [constructor|]. by apply gwp_of_quiet; [apply quiet_http|]. }
  unfold hbind at 1. apply wpg_bind. unfold hfinally. apply wpg_bind. eapply wpg_mono; [apply quiet_verify_login|].
  intros g' x ->. cbn [pbind access wpg]. intros w1 _. exists (Hold (Some r) false). split; [constructor|]. cbn [fst snd].
  destruct x as [[valid|s d|f] rq']; cbn [fst snd]; [|done|done].
  apply gwp_quiet; [apply quiet_ask|intros now rq2|done|done].
  apply (gwp_access _ (fun _ => idle)). intros w2. split; [constructor|].
  apply gwp_of_quiet; [|done]. destruct valid; [apply quiet_open_session|apply quiet_http].
Qed.

Lemma gwp_login u p csrf rq : gwp idle (login P u p csrf rq) (fun g _ => settled g).
Proof.
  unfold login. apply gwp_quiet; [apply quiet_ask|intros ip rq1|done|done].
  apply gwp_quiet; [apply quiet_ask|intros now rq2|done|done].
  apply (gwp_access _ (fun e => Hold (entered e) false)). intros w. split; [constructor|].
  destruct (guard_enter ip now w).1 as [| |r]; cbn [entered]; [done|done|apply gwp_login_verify].
Qed.

Lemma gwp_handler rt rq : gwp idle (handler P rt rq) (fun g _ => settled g).
Proof.
  destruct rt; cbn [handler]; try (apply gwp_login); (apply gwp_of_quiet; [|done]); unfold skip.
  - apply quiet_bind; [apply quiet_setup_status|intros; apply quiet_ret].
  - apply quiet_setup.
  - unfold logout. apply quiet_bind; [apply quiet_require_csrf|intros; apply quiet_put_session].
  - apply quiet_change_password.
  - apply quiet_bind; [apply quiet_gated; quiet_all|intros; apply quiet_ret].
  - apply quiet_bind; [apply quiet_gated; quiet_all|intros; apply quiet_ret].
  - apply quiet_bind; [apply quiet_create_token|intros; apply quiet_ret].
  - apply quiet_delete_token.
  - apply quiet_gated, quiet_ret.
  - apply quiet_gated_mutation, quiet_ret.
Qed.

Lemma gwp_serve rt rq : gwp idle (serve P rt rq) (fun g _ => settled g).
Proof.
  unfold serve, audit_mw. apply wpg_bind.
  assert (gwp idle (if mutating rq then audit_actor P rq else Ret (Ok "anon", rq)) (fun g _ => g = idle)) as Ha.
  { destruct (mutating rq); [apply quiet_audit_actor|done]. }
  eapply wpg_mono; [exact Ha|]. intros g a ->. cbv beta. apply wpg_bind. eapply wpg_mono; [apply gwp_handler|].
  intros g r Hg. destruct (mutating rq); [|done]. apply wpg_bind. eapply wpg_mono; [apply quiet_audit_write|].
  by intros g' x ->.
Qed.
End quiet_handlers.

(** * The shared counters *)

Definition holding (r : nat) (hs : list hold) : Z := Z.of_nat (length (filter (fun h => h_bucket h = Some r) hs)).
Definition slots (hs : list hold) : Z := Z.of_nat (length (filter (fun h => h_slot h = true) hs)).

Record guard_ok (hs : list hold) (w : world) : Prop := {
  ok_slots : w_kdf w + slots hs = KDF_SLOTS;
  ok_kdf : 0 <= w_kdf w;
  ok_size : (size (w_guards w) <= LOGIN_GUARD_MAX)%nat;
  ok_refs ip r : w_guards w !! ip = Some r -> (r < length (w_heap w))%nat;
  ok_inj ip ip' r : w_guards w !! ip = Some r -> w_guards w !! ip' = Some r -> ip = ip';
  ok_held r : 0 < holding r hs -> exists ip, w_guards w !! ip = Some r;
  ok_flight r : holding r hs <= g_in_flight (bucket w r);
  ok_bounds r : 0 <= g_count (bucket w r) < 5 /\ 0 <= g_in_flight (bucket w r) <= 5
}.

Lemma holding_app r l1 l2 : holding r (l1 ++ l2) = holding r l1 + holding r l2.
Proof. unfold holding. rewrite filter_app, length_app. lia. Qed.
Lemma slots_app l1 l2 : slots (l1 ++ l2) = slots l1 + slots l2.
Proof. unfold slots. rewrite filter_app, length_app. lia. Qed.
Definition holds1 (r : nat) (h : hold) : Z := if decide (h_bucket h = Some r) then 1 else 0.
Definition slot1 (h : hold) : Z := if h_slot h then 1 else 0.
Lemma holding_cons r h l : holding r (h :: l) = holds1 r h + holding r l.
Proof. unfold holding, holds1. rewrite filter_cons. case_decide; cbn [length]; lia. Qed.
Lemma slots_cons h l : slots (h :: l) = slot1 h + slots l.
Proof. unfold slots, slot1. rewrite filter_cons. destruct (h_slot h); case_decide; cbn [length]; try done; lia. Qed.
Lemma holding_nonneg r l : 0 <= holding r l.
Proof. unfold holding. lia. Qed.
Lemma slots_nonneg l : 0 <= slots l.
Proof. unfold slots. lia. Qed.

Lemma bucket_upd r f w r' :
  (r < length (w_heap w))%nat -> bucket (upd_bucket r f w) r' = if decide (r' = r) then f (bucket w r) else bucket w r'.
Proof.
  intros Hr. unfold bucket, upd_bucket. cbn. case_decide as Hd.
  - subst. rewrite list_lookup_alter_eq. by destruct (w_heap w !! r) eqn:E; [|apply lookup_ge_None in E; lia].
  - by rewrite list_lookup_alter_ne.
Qed.

Definition cnt (w : world) (r : nat) : Z := g_count (bucket w r).
Definition fl (w : world) (r : nat) : Z := g_in_flight (bucket w r).

(** * Entering the guard *)

Lemma least_in w x l : least w x l ∈ x :: l.
Proof.
  revert x. induction l as [|y l IH]; intros x; cbn [least]; [by left|].
  destruct (older x y w); [specialize (IH x)|specialize (IH y)]; apply elem_of_cons in IH as [-> | IH].
  - by left.
  - by right; right.
  - by right; left.
  - by right; right.
Qed.

(** Eviction frees a slot and never takes a bucket that a request holds. *)
Lemma evict_ok now w guards : evict_login_guard now w = Some guards ->
  guards ⊆ w_guards w /\ (size guards < size (w_guards w))%nat /\
  forall ip r, w_guards w !! ip = Some r -> fl w r <> 0 -> guards !! ip = Some r.
Proof.
  unfold evict_login_guard. cbv zeta. set (kept := filter _ (w_guards w)). destruct (Nat.ltb_spec (size kept) (size (w_guards w))).
  - intros [= <-]. split; [apply map_filter_subseteq|]. split; [done|]. intros ip r Hr Hf. apply map_lookup_filter_Some. split; [done|].
    cbn. apply andb_false_iff. right. by apply Z.eqb_neq.
  - destruct (filter _ (map_to_list (w_guards w))) as [|b l] eqn:E; [done|]. intros [= <-].
    assert (least w b l ∈ filter (fun b => g_in_flight (bucket w b.2) = 0) (map_to_list (w_guards w))) as Hin.
    { rewrite E. apply least_in. }
    apply list_elem_of_filter in Hin as [Hz Hin]. destruct (least w b l) as [k r0]. apply elem_of_map_to_list in Hin. cbn [fst snd] in *.
    split; [apply delete_subseteq|]. split.
    + rewrite map_size_delete, Hin. assert (w_guards w <> ∅) as Hne by (intros He; by rewrite He in Hin).
      apply map_size_non_empty_iff in Hne. lia.
    + intros ip r Hr Hf. rewrite lookup_delete_ne; [done|]. intros ->. unfold fl in Hf. congruence.
Qed.

Lemma room_ok ip now w guards :
  (size (w_guards w) <= LOGIN_GUARD_MAX)%nat ->
  (if (LOGIN_GUARD_MAX <=? size (w_guards w))%nat && bool_decide (w_guards w !! ip = None)
   then evict_login_guard now w else Some (w_guards w)) = Some guards ->
  guards ⊆ w_guards w /\ (guards !! ip = None -> (size guards < LOGIN_GUARD_MAX)%nat) /\ (size guards <= LOGIN_GUARD_MAX)%nat /\
  forall ip' r, w_guards w !! ip' = Some r -> fl w r <> 0 -> guards !! ip' = Some r.
Proof.
  intros Hs. destruct (Nat.leb_spec LOGIN_GUARD_MAX (size (w_guards w))); cbn [andb].
  - case_bool_decide as Hn.
    + intros (H1 & H2 & H3)%evict_ok. split; [done|]. split; [intros _; lia|]. split; [lia|done].
    + intros [= <-]. split; [done|]. split; [by intros ?|]. done.
  - intros [= <-]. done.
Qed.

(** What entering does to the counters, whatever its outcome. *)
Record entered_ok (ip : string) (w : world) (e : entry) (w' : world) : Prop := {
  en_kdf : w_kdf w' = w_kdf w;
  en_cnt r : cnt w' r = cnt w r;
  en_fl r : fl w' r = fl w r + (if decide (entered e = Some r) then 1 else 0);
  en_admitted r : entered e = Some r -> fl w r < 5 /\ w_guards w' !! ip = Some r;
  en_size : (size (w_guards w') <= LOGIN_GUARD_MAX)%nat;
  en_refs ip' r : w_guards w' !! ip' = Some r -> (r < length (w_heap w'))%nat;
  en_inj ip1 ip2 r : w_guards w' !! ip1 = Some r -> w_guards w' !! ip2 = Some r -> ip1 = ip2;
  en_kept ip' r : w_guards w !! ip' = Some r -> fl w r <> 0 -> w_guards w' !! ip' = Some r
}.

(** Giving [ip] its bucket, the one it has or a new one. *)
Definition with_bucket (ip : string) (now : Z) (guards : gmap string nat) (w : world) : nat * world :=
  match guards !! ip with
  | Some r => (r, set_guards guards (w_heap w) w)
  | None => (length (w_heap w), set_guards (<[ip := length (w_heap w)]> guards) (app (w_heap w) [Guard 0 0 0 now]) w)
  end.

Lemma with_bucket_ok hs ip now guards w r w1 :
  guard_ok hs w -> guards ⊆ w_guards w -> (guards !! ip = None -> (size guards < LOGIN_GUARD_MAX)%nat) ->
  (size guards <= LOGIN_GUARD_MAX)%nat ->
  (forall ip' r, w_guards w !! ip' = Some r -> fl w r <> 0 -> guards !! ip' = Some r) ->
  with_bucket ip now guards w = (r, w1) ->
  entered_ok ip w Throttled w1 /\ w_guards w1 !! ip = Some r.
Proof.
  intros Hok Hsub Hnew Hsize Hkept. unfold with_bucket. destruct (guards !! ip) as [r0|] eqn:Er; intros [= <- <-].
  - split; [|done]. split; cbn; try done.
    + intros r. unfold fl. cbn. case_decide; [done|]. unfold bucket. cbn. lia.
    + intros ip' r Hr. eapply (ok_refs _ _ Hok). by eapply lookup_weaken.
    + intros ip1 ip2 r H1 H2. eapply (ok_inj _ _ Hok); by eapply lookup_weaken.
  - split; [|cbn; by rewrite lookup_insert_eq].
    assert (forall r, let g := default (Guard 0 0 0 0) (app (w_heap w) [Guard 0 0 0 now] !! r) in
              g_count g = cnt w r /\ g_in_flight g = fl w r) as Hb.
    { intros r. unfold cnt, fl, bucket. destruct (decide (r < length (w_heap w))%nat).
      - by rewrite lookup_app_l.
      - rewrite (lookup_ge_None_2 (w_heap w)) by lia. rewrite lookup_app_r by lia. destruct (r - _)%nat as [|n']; [done|]. by destruct n'. }
    split; cbn.
    + done.
    + intros r. apply Hb.
    + intros r. unfold fl at 1, bucket. cbn. rewrite (proj2 (Hb r)). case_decide; [done|]. lia.
    + done.
    + rewrite map_size_insert, Er. specialize (Hnew eq_refl). lia.
    + intros ip' r Hr. rewrite length_app. cbn. apply lookup_insert_Some in Hr as [[_ <-] | [_ Hr]]; [lia|].
      assert (r < length (w_heap w))%nat; [|lia]. eapply (ok_refs _ _ Hok). by eapply lookup_weaken.
    + intros ip1 ip2 r H1 H2. apply lookup_insert_Some in H1 as [[<- <-] | [N1 H1]], H2 as [[<- H2] | [N2 H2]].
      * done.
      * exfalso. assert (length (w_heap w) < length (w_heap w))%nat; [|lia]. eapply (ok_refs _ _ Hok). by eapply lookup_weaken.
      * exfalso. assert (r < length (w_heap w))%nat; [|lia]. eapply (ok_refs _ _ Hok). by eapply lookup_weaken.
      * eapply (ok_inj _ _ Hok); by eapply lookup_weaken.
    + intros ip' r Hr Hf. specialize (Hkept _ _ Hr Hf). rewrite lookup_insert_ne; [done|]. intros ->. congruence.
Qed.

Lemma guard_enter_ok hs ip now w : guard_ok hs w ->
  entered_ok ip w (guard_enter ip now w).1 (guard_enter ip now w).2.
Proof.
  intros Hok. unfold guard_enter. cbv zeta.
  destruct (if (LOGIN_GUARD_MAX <=? size (w_guards w))%nat && bool_decide (w_guards w !! ip = None)
            then evict_login_guard now w else Some (w_guards w)) as [guards|] eqn:Er.
  2: { cbn. split; try done; [intros; case_decide; [done|lia]|by apply Hok|by eapply ok_refs|by eapply ok_inj]. }
  apply room_ok in Er as (H1 & H2 & H3 & H4); [|by apply Hok].
  fold (with_bucket ip now guards w). destruct (with_bucket ip now guards w) as [r w1] eqn:Ew.
  destruct (with_bucket_ok hs _ _ _ _ _ _ Hok H1 H2 H3 H4 Ew) as [[E1 E2 E3 E4 E5 E6 E7 E8] Hr].
  assert (r < length (w_heap w1))%nat as Hlt by (by eapply E6).
  set (w2 := upd_bucket r (fun g => Guard (g_count g) (g_until g) (g_in_flight g) now) w1).
  assert (forall r', g_count (bucket w2 r') = cnt w r' /\ g_in_flight (bucket w2 r') = fl w r') as Hb2.
  { intros r'. unfold w2. rewrite bucket_upd by done. specialize (E2 r'). specialize (E3 r'). unfold cnt, fl in *.
    rewrite decide_False in E3 by done. case_decide; [subst r'; cbn|]; split; lia. }
  destruct ((now <? g_until (bucket w2 r)) || (5 <=? g_in_flight (bucket w2 r))) eqn:Et; cbn [fst snd entered].
  - split; try done.
    + intros r'. apply Hb2.
    + intros r'. rewrite decide_False by done. unfold fl at 1. rewrite (proj2 (Hb2 r')). lia.
    + intros ip' r' Hr'. unfold w2. cbn. rewrite length_alter. by eapply E6.
  - apply orb_false_iff in Et as [_ Et%Z.leb_gt]. rewrite (proj2 (Hb2 r)) in Et.
    assert (r < length (w_heap w2))%nat as Hlt2 by (unfold w2; cbn; by rewrite length_alter).
    split; try done.
    + intros r'. unfold cnt at 1. rewrite bucket_upd by done. case_decide; [subst r'|]; apply Hb2.
    + intros r'. unfold fl at 1. rewrite bucket_upd by done. case_decide as Hd; [subst r'|].
      * rewrite decide_True by done. cbn. rewrite (proj2 (Hb2 r)). lia.
      * rewrite decide_False by (intros [= ->]; done). rewrite (proj2 (Hb2 r')). lia.
    + intros r' [= <-]. done.
    + intros ip' r' Hr'. cbn. rewrite !length_alter. by eapply E6.
Qed.

(** * Preservation *)

Lemma holding_mid r l1 h l2 : holding r (l1 ++ h :: l2) = holding r l1 + holding r l2 + holds1 r h.
Proof. rewrite holding_app, holding_cons. lia. Qed.
Lemma slots_mid l1 h l2 : slots (l1 ++ h :: l2) = slots l1 + slots l2 + slot1 h.
Proof. rewrite slots_app, slots_cons. lia. Qed.

Lemma holds1_eq r b s : holds1 r (Hold b s) = if decide (b = Some r) then 1 else 0.
Proof. done. Qed.

(** Giving a bucket back, with a count in bounds. *)
Lemma give_back_ok l1 l2 w r f :
  guard_ok (l1 ++ Hold (Some r) false :: l2) w ->
  (forall g, g_in_flight (f g) = g_in_flight g - 1) ->
  (forall g, 0 <= g_count g < 5 -> 0 <= g_count (f g) < 5) ->
  guard_ok (l1 ++ idle :: l2) (upd_bucket r f w).
Proof.
  intros Hok Hf Hc.
  assert (r < length (w_heap w))%nat as Hlt.
  { destruct (ok_held _ _ Hok r) as [ip Hip]; [|by eapply (ok_refs _ _ Hok)].
    rewrite holding_mid, holds1_eq, decide_True by done. pose proof (holding_nonneg r l1). pose proof (holding_nonneg r l2). lia. }
  assert (forall r', holding r' (l1 ++ idle :: l2) = holding r' (l1 ++ Hold (Some r) false :: l2) - (if decide (r' = r) then 1 else 0)) as Hh.
  { intros r'. rewrite !holding_mid. unfold idle. rewrite !holds1_eq. repeat case_decide; try congruence; lia. }
  split.
  - rewrite slots_mid. pose proof (ok_slots _ _ Hok) as H. rewrite slots_mid in H. cbn in *. lia.
  - apply Hok.
  - apply Hok.
  - intros ip r' Hr'. cbn. rewrite length_alter. by eapply (ok_refs _ _ Hok).
  - intros ip ip' r'. apply (ok_inj _ _ Hok).
  - intros r' Hr'. apply (ok_held _ _ Hok r'). rewrite Hh in Hr'. case_decide; lia.
  - intros r'. rewrite Hh, bucket_upd by done. pose proof (ok_flight _ _ Hok r') as H. case_decide; [subst r'; rewrite Hf|]; lia.
  - intros r'. rewrite bucket_upd by done. destruct (ok_bounds _ _ Hok r') as [B1 B2]. case_decide; [subst r'|done].
    split; [by apply Hc|]. rewrite Hf. pose proof (ok_flight _ _ Hok r) as H. rewrite holding_mid, holds1_eq, decide_True in H by done.
    pose proof (holding_nonneg r l1). pose proof (holding_nonneg r l2). lia.
Qed.

Lemma guard_ok_kdf l1 l2 b s s' w k :
  guard_ok (l1 ++ Hold b s :: l2) w -> 0 <= k -> k + slot1 (Hold b s') = w_kdf w + slot1 (Hold b s) ->
  guard_ok (l1 ++ Hold b s' :: l2) (set_kdf k w).
Proof.
  intros Hok Hk Hs.
  assert (forall r, holding r (l1 ++ Hold b s' :: l2) = holding r (l1 ++ Hold b s :: l2)) as Hh.
  { intros r. by rewrite !holding_mid, !holds1_eq. }
  split; try apply Hok; try done.
  - rewrite slots_mid. pose proof (ok_slots _ _ Hok) as H. rewrite slots_mid in H. cbn. lia.
  - intros r. rewrite Hh. apply Hok.
  - intros r. rewrite Hh. apply (ok_flight _ _ Hok r).
Qed.

Lemma gmove_ok l1 h l2 w h' w' : guard_ok (l1 ++ h :: l2) w -> gmove h w h' w' -> guard_ok (l1 ++ h' :: l2) w'.
Proof.
  intros Hok Hm. destruct Hm as [h w w' E1 E2 E3|ip now w|b w|b w|r w|r valid now lockout w].
  - assert (forall r, bucket w' r = bucket w r) as Hb by (intros r; unfold bucket; by rewrite E2).
    split; rewrite ?E1, ?E2, ?E3; try apply Hok; intros r; rewrite Hb; apply Hok.
  - destruct (guard_enter_ok _ ip now w Hok) as [E1 E2 E3 E4 E5 E6 E7 E8].
    destruct (guard_enter ip now w) as [e w']. cbn [fst snd] in *.
    assert (forall r, holding r (l1 ++ Hold (entered e) false :: l2) = holding r (l1 ++ idle :: l2) + (if decide (entered e = Some r) then 1 else 0)) as Hh.
    { intros r. rewrite !holding_mid. unfold idle. rewrite !holds1_eq. repeat case_decide; try done; lia. }
    split.
    + rewrite slots_mid, E1. pose proof (ok_slots _ _ Hok) as H. rewrite slots_mid in H. cbn in *. lia.
    + rewrite E1. apply Hok.
    + done.
    + done.
    + done.
    + intros r Hr. destruct (decide (entered e = Some r)) as [Hd|Hd]; [exists ip; by apply E4|].
      rewrite Hh, decide_False in Hr by done. destruct (ok_held _ _ Hok r) as [ip' Hip]; [lia|]. exists ip'. apply E8; [done|].
      pose proof (ok_flight _ _ Hok r). unfold fl. lia.
    + intros r. rewrite Hh. specialize (E3 r). unfold fl in E3. rewrite E3. pose proof (ok_flight _ _ Hok r). lia.
    + intros r. destruct (ok_bounds _ _ Hok r) as [B1 B2]. specialize (E2 r). specialize (E3 r). unfold cnt, fl in *.
      rewrite E2, E3. split; [done|]. case_decide as Hd; [|lia]. specialize (E4 r Hd). lia.
  - unfold kdf_acquire. pose proof (ok_kdf _ _ Hok). destruct (Z.ltb_spec 0 (w_kdf w)); cbn [fst snd]; [|done].
    eapply guard_ok_kdf; [exact Hok|lia|cbn; lia].
  - unfold kdf_release. pose proof (ok_kdf _ _ Hok). cbn [snd]. eapply guard_ok_kdf; [exact Hok|lia|cbn; lia].
  - by apply give_back_ok.
  - apply give_back_ok; [done|intros g|intros g Hg]; unfold settle.
    + destruct valid; [done|]. by destruct (5 <=? _).
    + destruct valid; [cbn; lia|]. destruct (Z.leb_spec 5 (g_count g + 1)); cbn; lia.
Qed.

Section ginv.
Context (P : params).

Definition ginv (hs : list hold) (s : panel) : Prop :=
  guard_ok hs (pn_world s) /\
  Forall2 (fun h t => gwp h t (fun g (_ : res unit * request) => settled g)) hs (pn_threads s).

Lemma started_ginv s : started s -> ginv [] s.
Proof.
  intros (Ht & Hg & Hh & Hk & _). split; [|by rewrite Ht].
  assert (forall r, bucket (pn_world s) r = Guard 0 0 0 0) as Hb by (intros r; unfold bucket; by rewrite Hh).
  split; rewrite ?Hg, ?Hk; [done|done|rewrite map_size_empty; lia|done|done|done| |]; intros r; rewrite Hb; cbn [g_count g_in_flight]; unfold holding; rewrite ?filter_nil; cbn [length]; lia.
Qed.

Lemma ginv_step hs s s' : ginv hs s -> step P s s' -> exists hs', ginv hs' s'.
Proof.
  intros [Hok Hf] Hs. destruct Hs as [rt rq s Hp Hc Hd|s B m k l1 l2 b w Ht Hm|s x l1 l2 Ht|s d Hd].
  - exists (hs ++ [idle])%list. split; cbn.
    + assert (forall r, holding r (hs ++ [idle]) = holding r hs) as Hh.
      { intros r. rewrite holding_app. change (holding r [idle]) with 0. lia. }
      split; try apply Hok; intros; rewrite ?Hh in *; try by apply Hok.
      rewrite slots_app. pose proof (ok_slots _ _ Hok). change (slots [idle]) with 0. cbn. lia.
    + apply Forall2_app; [done|]. constructor; [apply gwp_serve|constructor].
  - rewrite Ht in Hf. apply Forall2_app_inv_r in Hf as (h1 & h2 & Hf1 & Hf2 & ->).
    apply Forall2_cons_inv_r in Hf2 as (h & h3 & Hh & Hf3 & ->).
    destruct (Hh (pn_world s) I) as (h' & Hmv & Hh'). rewrite Hm in Hmv, Hh'. exists (h1 ++ h' :: h3)%list. split; cbn.
    + by eapply gmove_ok.
    + apply Forall2_app; [done|]. by constructor.
  - rewrite Ht in Hf. apply Forall2_app_inv_r in Hf as (h1 & h2 & Hf1 & Hf2 & ->).
    apply Forall2_cons_inv_r in Hf2 as (h & h3 & Hh & Hf3 & ->). cbn in Hh. exists (h1 ++ h3)%list. split; cbn; [|by apply Forall2_app].
    assert (forall r, holding r (h1 ++ h3) <= holding r (h1 ++ h :: h3)) as Hle.
    { intros r. rewrite holding_mid, holding_app. unfold holds1. case_decide; lia. }
    split; try apply Hok.
    + rewrite slots_app. pose proof (ok_slots _ _ Hok) as H. rewrite slots_mid in H. unfold slot1 in H. rewrite Hh in H. lia.
    + intros r Hr. apply (ok_held _ _ Hok). specialize (Hle r). lia.
    + intros r. specialize (Hle r). pose proof (ok_flight _ _ Hok r). lia.
  - exists hs. split; [|done]. cbn. split; try apply Hok.
Qed.

Lemma reachable_ginv s : reachable P s -> exists hs, ginv hs s.
Proof.
  intros (s0 & Hst & Hs). apply started_ginv in Hst. generalize (@nil hold) Hst. clear Hst. induction Hs as [s|s s1 s2 H1 H2 IH]; intros hs Hg.
  - by exists hs.
  - destruct (ginv_step _ _ _ Hg H1) as [hs' Hg']. by apply (IH hs').
Qed.
End ginv.
