(* ===== verification/AuthProps.v ===== *)
(** What the panel's authentication guarantees: a password rotation ends every cookie and
    token given out before it ([rotation_ends_access]), and the race by which a login with
    the old password survives it ([old_password_session]); a credential, once there, changes
    only with a rotation; the gates let through exactly the requests they are meant to
    ([gates_exact]); the audit log; and the login guard ([login_guard_bounded]). *)
From Stdlib Require Import ZArith Lia Ascii.
From stdpp Require Import base gmap strings list relations.
From S2P Require Import Prelude PyStr Store StoreFacts Ip Uri Inject Web Auth AuthFlow AuthFacts GuardFacts.
Open Scope string_scope.
Open Scope Z_scope.
Open Scope web_scope.

(** The secret of an Authorization header. *)
Definition bearer (rq : request) : option string :=
  let secret := strip (str_drop 7 (rq_authorization rq)) in
  if bool_decide (lower (str_take 7 (rq_authorization rq)) = "bearer ") && negb (bool_decide (secret = ""))
  then Some secret else None.

Lemma run_bind {A B} (h : H A) (k : A -> H B) rq w :
  run (hbind h k rq) w =
  let (x, w') := run (h rq) w in
  match x.1 with Ok a => run (k a x.2) w' | Http s d => ((Http s d, x.2), w') | Err f => ((Err f, x.2), w') end.
Proof. unfold hbind. rewrite run_pbind. destruct (run (h rq) w) as [[[a|s d|f] rq'] w']; done. Qed.

Lemma run_store {A} (m : M A) rq w :
  run (store m rq) w = let (r, d) := m (w_db w) in
    ((match r with inr a => Ok a | inl e => Err (StoreError e) end, rq), set_db d w).
Proof. cbn. unfold on_db. by destruct (m (w_db w)) as [[e|a] d]. Qed.

Lemma run_read {A} (f : db -> A) rq w : run (store (mget f) rq) w = ((Ok (f (w_db w)), rq), w).
Proof. rewrite run_store. cbn. by destruct w. Qed.

Lemma get_token_by_hash_none h d : ~ has_hash h d -> get_token_by_hash h d = None.
Proof.
  intros Hn. unfold get_token_by_hash. destruct (filter _ _) as [|[i t] l] eqn:E; [done|]. exfalso. apply Hn.
  assert ((i, t) ∈ filter (fun r : Z * token => tk_hash r.2 = h) (map_to_list (d_tokens d))) as Hin by (rewrite E; by left).
  apply list_elem_of_filter in Hin as [Hh Hin]. exists i, t. split; [by apply elem_of_map_to_list|done].
Qed.

Lemma set_db_same w : set_db (w_db w) w = w.
Proof. by destruct w. Qed.

(** A request without a stored secret has no principal, and finding that out changes nothing. *)
Lemma no_principal sha rq w :
  rq_principal rq = None -> (forall x, bearer rq = Some x -> ~ has_hash (hash_token sha x) (w_db w)) ->
  run (token_principal sha rq) w = ((Ok None, with_principal None rq), w).
Proof.
  intros Hp Hb. unfold token_principal. rewrite Hp, run_bind. unfold bearer in Hb.
  case_bool_decide; [|done]. cbv zeta in *. case_bool_decide; [done|]. specialize (Hb _ eq_refl).
  rewrite run_bind, run_read. cbn [fst snd]. by rewrite (get_token_by_hash_none _ _ Hb).
Qed.

(** A session stamped with an epoch that has passed is refused, and refusing it changes nothing. *)
Lemma stale_session touch rq w e :
  epoch_is (w_db w) e -> (s_authed (rq_session rq) = true -> default 0 (s_epoch (rq_session rq)) < e) ->
  exists why, why <> "session idle timeout" /\ run (session_invalid_reason touch rq) w = ((Ok (Some why), rq), w).
Proof.
  intros He Hs. unfold session_invalid_reason. rewrite run_bind. cbn [run get_session fst snd].
  destruct (s_authed (rq_session rq)) eqn:Ea; cbn [negb]; [|by exists "auth required"].
  rewrite run_bind, run_store. pose proof (proj2 (int_setting_epoch _ _) He) as E.
  unfold session_epoch. rewrite E. cbn [run fst snd]. rewrite bool_decide_eq_false_2 by (specialize (Hs eq_refl); lia).
  cbn [negb hret run]. rewrite set_db_same. by exists "session expired".
Qed.

Section props.
Context (P : params).

(** C20: a password rotation ends all access given out before it.  Once some step has moved the
    epoch, then in every later state, whatever other requests do in between, a request that
    carries a cookie issued before the rotation, or a token stored before it, or both, is
    answered 401 and changes nothing. *)
Theorem rotation_ends_access s s1 s2 e e1 rq :
  reachable P s -> step P s s1 -> epoch_is (pn_db s) e -> epoch_is (pn_db s1) e1 -> e <> e1 ->
  rtc (step P) s1 s2 ->
  rq_principal rq = None ->
  rq_session rq = empty_session \/ rq_session rq ∈ pn_issued s ->
  (forall x, bearer rq = Some x -> has_hash (hash_token (pr_sha256 P) x) (pn_db s)) ->
  exists why, run (require_auth (pr_sha256 P) rq) (pn_world s2) =
              ((Http 401 why, with_principal None rq), pn_world s2).
Proof.
  intros Hr Hs He He1 Hne Hs2 Hp Hc Hb.
  destruct (auth_reachable_inv P s Hr) as (e' & pends & Hinv).
  rewrite (epoch_is_fun _ _ _ He (inv_epoch _ _ _ Hinv)) in *. clear He e.
  destruct (inv_step P _ _ _ _ Hinv Hs) as (e2 & p1 & Hinv1 & Had).
  rewrite (epoch_is_fun _ _ _ He1 (inv_epoch _ _ _ Hinv1)) in *. clear He1 e1.
  assert (e' < e2) as Hlt by (pose proof (ad_epoch _ _ _ _ _ _ Had); lia).
  destruct (inv_steps P _ _ _ _ Hinv1 Hs2) as (e3 & p2 & Hinv2 & Hle & Hgone).
  unfold require_auth. rewrite run_bind, no_principal; [|done|]; cbn [fst snd].
  - rewrite run_bind. destruct (stale_session true (with_principal None rq) (pn_world s2) e3) as (why & Hw & ->).
    + apply Hinv2.
    + intros Ha. cbn in Ha. destruct Hc as [E | Hin]; [cbn; by rewrite E in Ha|].
      pose proof (inv_issued _ _ _ Hinv _ Hin Ha). cbn. lia.
    + cbn [fst snd]. exists why. rewrite run_bind. rewrite bool_decide_eq_false_2 by done. done.
  - intros x Hx. specialize (Hb x Hx). apply Hgone.
    + apply (ad_drawn _ _ _ _ _ _ Had). by apply (inv_drawn _ _ _ Hinv).
    + intros (i & t & Hi & _). by rewrite (ad_rotated _ _ _ _ _ _ Had Hlt) in Hi.
    + intros Hpe. apply (ad_pending _ _ _ _ _ _ Had) in Hpe; [|by apply (inv_drawn _ _ _ Hinv)].
      by apply (inv_pending _ _ _ Hinv) in Hpe as [_ Hpe].
Qed.

(** C23: once the panel has a credential, no interleaving of requests removes it, changes the
    user name, or changes the password hash without moving the session epoch: set-up happens
    once, and a new password always ends the sessions. *)
Theorem credential_only_rotates s s' e e' :
  reachable P s -> rtc (step P) s s' -> needs_setup (pn_db s) = false ->
  epoch_is (pn_db s) e -> epoch_is (pn_db s') e' ->
  needs_setup (pn_db s') = false /\
  get_setting AUTH_USER (pn_db s') = get_setting AUTH_USER (pn_db s) /\
  e <= e' /\
  (get_setting AUTH_HASH (pn_db s') = get_setting AUTH_HASH (pn_db s) \/ e < e').
Proof.
  intros Hr Hs Hn He He'. destruct (auth_reachable_inv P s Hr) as (e1 & pends & Hinv).
  rewrite (epoch_is_fun _ _ _ He (inv_epoch _ _ _ Hinv)) in *. clear He e Hr. revert e1 pends Hinv Hn He'.
  induction Hs as [s|s s1 s2 H1 H2 IH]; intros e1 pends Hinv Hn He'.
  - rewrite (epoch_is_fun _ _ _ He' (inv_epoch _ _ _ Hinv)). split_and!; [done|done|lia|by left].
  - destruct (inv_step P _ _ _ _ Hinv H1) as (e2 & p2 & Hinv2 & Had).
    destruct (ad_credential _ _ _ _ _ _ Had Hn) as (Hn2 & Hu2 & Hh2). pose proof (ad_epoch _ _ _ _ _ _ Had) as Hle.
    destruct (IH e2 p2 Hinv2 Hn2 He') as (Hn3 & Hu3 & Hle3 & Hh3). split_and!; [done|congruence|lia|].
    destruct Hh3 as [-> | ?]; [destruct Hh2 as [-> | ?]; [by left|right; lia]|right; lia].
Qed.
End props.

(** * What the gates are meant to let through *)

(** A token without an end, or whose end is still to come. *)
Definition in_date (t : token) (now : Z) : bool :=
  match tk_expires_at t with Some e => now <? e | None => true end.

(** The pages a monitor token is for. *)
Definition monitor_page (rq : request) : Prop :=
  rq_method rq = "GET" /\
  (rq_path rq = "/api/status" \/ rq_path rq = "/api/traffic/history" \/
   rq_path rq = "/api/node-health" \/ rq_path rq = "/api/network").
Instance monitor_page_dec rq : Decision (monitor_page rq).
Proof. unfold monitor_page. apply _. Defined.

(** The header repeats the session's own token. *)
Definition csrf_repeated (rq : request) : bool :=
  match s_csrf (rq_session rq), rq_csrf rq with
  | Some a, Some b => negb (bool_decide (a = "")) && bool_decide (a = b)
  | _, _ => false
  end.

Lemma expired_in_date t now : expired t now = negb (in_date t now).
Proof. unfold expired, in_date. destruct (tk_expires_at t) as [e|]; [|done]. by rewrite Z.leb_antisym. Qed.

Lemma monitor_allowed_page rq : monitor_allowed rq = bool_decide (monitor_page rq).
Proof.
  unfold monitor_allowed. rewrite <- bool_decide_and. apply bool_decide_ext.
  unfold monitor_page, MONITOR_PATHS. set_solver.
Qed.

Lemma csrf_matches_repeated rq : csrf_matches (s_csrf (rq_session rq)) (rq_csrf rq) = csrf_repeated rq.
Proof.
  unfold csrf_matches, csrf_repeated. destruct (s_csrf _) as [a|], (rq_csrf rq) as [b|]; try done.
  - destruct (decide (a = b)) as [<-|Hn].
    + rewrite (bool_decide_eq_true_2 (Some a = Some a)), (bool_decide_eq_true_2 (a = a)) by done. by destruct a.
    + rewrite (bool_decide_eq_false_2 (Some a = Some b)), (bool_decide_eq_false_2 (a = b)) by congruence.
      by rewrite !andb_false_r.
  - by rewrite andb_false_r.
Qed.

Definition live_token (sha256 : string -> string) (rq : request) (d : db) : option (Z * token) :=
  match bearer rq with
  | None => None
  | Some secret =>
      match get_token_by_hash (hash_token sha256 secret) d with
      | Some (i, t) => if in_date t (now_sec rq) then Some (i, t) else None
      | None => None
      end
  end.

(** A session opened in the current epoch and, with a timeout of [tmo] minutes set, seen since. *)
Definition live_session (e tmo : Z) (rq : request) : bool :=
  let ss := rq_session rq in
  s_authed ss && (default 0 (s_epoch ss) =? e) &&
  ((tmo <=? 0) || (now_sec rq - default (now_sec rq) (s_last_seen ss) <=? tmo * 60)).

Definition may_read (tok : option (Z * token)) (e tmo : Z) (rq : request) : bool :=
  match tok with
  | Some (_, t) => negb (bool_decide (tk_scope t = SCOPE_MONITOR)) || bool_decide (monitor_page rq)
  | None => live_session e tmo rq
  end.

Definition may_write (tok : option (Z * token)) (e tmo : Z) (rq : request) : bool :=
  match tok with
  | Some (_, t) => bool_decide (tk_scope t = SCOPE_READWRITE)
  | None => live_session e tmo rq && csrf_repeated rq
  end.

(** All a gate writes: when a token was last used. *)
Definition noted (tok : option (Z * token)) (rq : request) (w : world) : world :=
  match tok with Some (i, _) => set_db (touch_token i (now_sec rq) (w_db w)).2 w | None => w end.

Definition same_request (rq rq' : request) : Prop :=
  rq_method rq' = rq_method rq /\ rq_path rq' = rq_path rq /\ rq_ip rq' = rq_ip rq /\
  rq_authorization rq' = rq_authorization rq /\ rq_csrf rq' = rq_csrf rq /\ rq_now rq' = rq_now rq.

Definition principal_of (r : Z * token) : principal :=
  Principal (tk_scope r.2) r.1 (tk_prefix r.2) (tk_expires_at r.2).

Lemma touch_token_run i now d : constraints d -> (touch_token i now d).1 = inr tt.
Proof.
  intros Hd. unfold touch_token. rewrite stmt_ok; [done|].
  destruct Hd as (H1 & H2 & H3 & H4 & H5 & H6 & H7 & H8 & H9 & H10).
  assert (forall t : token, let t' := if match tk_last_used_at t with None => true | Some u => u <? now - 60 end
      then Token (tk_name t) (tk_hash t) (tk_scope t) (tk_prefix t) (tk_created_at t) (Some now) (tk_expires_at t) else t in
      tk_hash t' = tk_hash t /\ tk_scope t' = tk_scope t) as Hsame.
  { intros t. by destruct (match tk_last_used_at t with None => _ | Some _ => _ end). }
  split_and!; try done; cbn.
  - apply unique_by_alter; [done|]. intros t _. left. apply Hsame.
  - apply map_Forall_alter; [done|]. intros t Ht. cbv beta. pose proof (proj2 (Hsame t)) as Hs. cbv zeta in Hs. rewrite Hs. by eapply H7.
Qed.

Lemma run_token_principal sha rq w : constraints (w_db w) -> rq_principal rq = None ->
  let tok := live_token sha rq (w_db w) in
  run (token_principal sha rq) w = ((Ok (principal_of <$> tok), with_principal (principal_of <$> tok) rq), noted tok rq w).
Proof.
  intros Hc Hp. unfold token_principal. rewrite Hp, run_bind. unfold live_token, bearer.
  case_bool_decide; [|done]. cbv zeta. case_bool_decide; [done|]. cbn [andb negb].
  rewrite run_bind, run_read. cbn [fst snd]. destruct (get_token_by_hash _ _) as [[i t]|]; [|done].
  rewrite expired_in_date. destruct (in_date t (now_sec rq)); [|done]. cbn [negb]. rewrite run_bind, run_store. pose proof (touch_token_run i (now_sec rq) _ Hc) as Ht.
  unfold noted. destruct (touch_token i (now_sec rq) (w_db w)) as [r d']. cbn in *. by subst r.
Qed.

Lemma run_invalid_reason touch rq w e tmo :
  epoch_is (w_db w) e -> int_setting TIMEOUT (w_db w) = (inr tmo, w_db w) ->
  exists reason rq', run (session_invalid_reason touch rq) w = ((Ok reason, rq'), w) /\
    (reason = None <-> live_session e tmo rq = true) /\ same_request rq rq' /\
    rq_principal rq' = rq_principal rq /\ s_csrf (rq_session rq') = s_csrf (rq_session rq).
Proof.
  intros He Ht. unfold session_invalid_reason. rewrite run_bind. cbn [run get_session fst snd]. unfold live_session. cbv zeta.
  destruct (s_authed (rq_session rq)); cbn [negb andb]; [|by eexists _, rq].
  rewrite run_bind, run_store. pose proof (proj2 (int_setting_epoch _ _) He) as E. unfold session_epoch. rewrite E. cbn [fst snd].
  rewrite set_db_same. destruct (Z.eqb_spec (default 0 (s_epoch (rq_session rq))) e) as [Hq|Hq];
    [rewrite bool_decide_eq_true_2 by done|rewrite bool_decide_eq_false_2 by done]; cbn [negb andb]; [|by eexists _, rq].
  rewrite run_bind, run_store, Ht. cbn [fst snd]. rewrite set_db_same.
  destruct (Z.ltb_spec 0 tmo); [rewrite (proj2 (Z.leb_gt _ _)) by lia|rewrite (proj2 (Z.leb_le _ _)) by lia; by eexists _, rq]. cbn [orb].
  rewrite run_bind. cbn [run ask fst snd].
  destruct (Z.ltb_spec (tmo * 60) (now_sec rq - default (now_sec rq) (s_last_seen (rq_session rq))));
    [rewrite (proj2 (Z.leb_gt _ _)) by lia|rewrite (proj2 (Z.leb_le _ _)) by lia]; [by eexists _, rq|].
  rewrite run_bind. destruct touch; cbn; by eexists _, _.
Qed.

Section exact.
Context (P : params).

Lemma run_require_auth rq w e tmo :
  constraints (w_db w) -> rq_principal rq = None ->
  epoch_is (w_db w) e -> int_setting TIMEOUT (w_db w) = (inr tmo, w_db w) ->
  let tok := live_token (pr_sha256 P) rq (w_db w) in
  exists rq', same_request rq rq' /\ rq_principal rq' = Some (principal_of <$> tok) /\
    if may_read tok e tmo rq
    then s_csrf (rq_session rq') = s_csrf (rq_session rq) /\
         run (require_auth (pr_sha256 P) rq) w = ((Ok tt, rq'), noted tok rq w)
    else exists status why, (status = 401 \/ status = 403) /\
         run (require_auth (pr_sha256 P) rq) w = ((Http status why, rq'), noted tok rq w).
Proof.
  intros Hc Hp He Ht tok. unfold require_auth. rewrite run_bind, run_token_principal by done. fold tok. cbn [fst snd].
  destruct tok as [[i t]|] eqn:Etok; cbn [fmap option_fmap option_map principal_of p_scope fst snd may_read].
  - exists (with_principal (Some (principal_of (i, t))) rq). split; [done|]. split; [done|].
    case_bool_decide as Hm; cbn [negb orb]; [|done]. rewrite run_bind. cbn [run ask fst snd].
    change (monitor_allowed (with_principal _ rq)) with (monitor_allowed rq).
    rewrite monitor_allowed_page. destruct (bool_decide (monitor_page rq)); [done|]. eauto.
  - rewrite run_bind. destruct (run_invalid_reason true (with_principal None rq) w e tmo He Ht) as (reason & rq' & Hrun & Hr & Hsame & Hpr & Hcs).
    change (live_session e tmo (with_principal None rq)) with (live_session e tmo rq) in Hr. cbn [noted] in *.
    match goal with |- context [run ?p w] => change (run p w) with (run (session_invalid_reason true (with_principal None rq)) w) end.
    rewrite Hrun. cbn [fst snd].
    destruct reason as [why|].
    + destruct (live_session e tmo rq); [discriminate (proj2 Hr eq_refl)|]. rewrite run_bind.
      exists (if bool_decide (why = "session idle timeout") then with_session empty_session rq' else rq').
      destruct (bool_decide _); cbn; (split; [exact Hsame|split; [exact Hpr|]]); eauto.
    + rewrite (proj1 Hr eq_refl). exists rq'. done.
Qed.

Lemma run_require_csrf rq w p : rq_principal rq = Some p ->
  exists why, run (require_csrf (pr_sha256 P) rq) w =
    (((if match p with
          | Some p => bool_decide (p_scope p = SCOPE_READWRITE)
          | None => csrf_matches (s_csrf (rq_session rq)) (rq_csrf rq)
          end then Ok tt else Http 403 why), rq), w).
Proof.
  intros Hp. unfold require_csrf. rewrite run_bind. unfold token_principal. rewrite Hp. cbn [run fst snd].
  destruct p as [p|]; [exists "token is read-only"; by case_bool_decide|]. rewrite run_bind. cbn [run get_session fst snd].
  rewrite run_bind. cbn [run ask fst snd]. exists "bad csrf token". by destruct (csrf_matches _ _).
Qed.

(** C21: the two gates are exactly the rules they stand for.  A read runs its body when the
    request has an unexpired token (a monitor token on its four paths only) or else a session
    of the current epoch that is not idle; a mutation when the token may write, or else such a
    session and its CSRF token agree; otherwise the answer is 401 or 403.  In every case the
    gates write nothing but the time the token was last used. *)
Theorem gates_exact {A} (body : H A) rq w e tmo :
  constraints (w_db w) -> rq_principal rq = None ->
  epoch_is (w_db w) e -> int_setting TIMEOUT (w_db w) = (inr tmo, w_db w) ->
  let tok := live_token (pr_sha256 P) rq (w_db w) in
  exists rq', same_request rq rq' /\
    (if may_read tok e tmo rq then run (gated P body rq) w = run (body rq') (noted tok rq w)
     else exists status why, (status = 401 \/ status = 403) /\
            run (gated P body rq) w = ((Http status why, rq'), noted tok rq w)) /\
    (if may_write tok e tmo rq then run (gated_mutation P body rq) w = run (body rq') (noted tok rq w)
     else exists status why, (status = 401 \/ status = 403) /\
            run (gated_mutation P body rq) w = ((Http status why, rq'), noted tok rq w)).
Proof.
  intros Hc Hp He Ht tok. destruct (run_require_auth rq w e tmo Hc Hp He Ht) as (rq' & Hsame & Hpr & Hrun). fold tok in Hpr, Hrun.
  exists rq'. split; [done|]. unfold gated, gated_mutation. rewrite !run_bind.
  destruct (may_read tok e tmo rq) eqn:Er.
  - destruct Hrun as [Hcs ->]. cbn [fst snd]. split; [done|]. rewrite run_bind.
    destruct (run_require_csrf rq' (noted tok rq w) _ Hpr) as [why ->]. cbn [fst snd].
    assert (match principal_of <$> tok with
            | Some p => bool_decide (p_scope p = SCOPE_READWRITE)
            | None => csrf_matches (s_csrf (rq_session rq')) (rq_csrf rq')
            end = may_write tok e tmo rq) as ->.
    { unfold may_write, may_read in *. destruct tok as [[i t]|]; [done|]. cbn. rewrite Er, Hcs, <- csrf_matches_repeated.
      by destruct Hsame as (_ & _ & _ & _ & -> & _). }
    destruct (may_write tok e tmo rq); [done|]. eauto 6.
  - destruct Hrun as (status & why & Hst & ->). cbn [fst snd]. split; [eauto 6|].
    assert (may_write tok e tmo rq = false) as ->; [|eauto 6].
    unfold may_write, may_read in *. destruct tok as [[i t]|]; [|by rewrite Er].
    apply orb_false_iff in Er as [Er _]. apply negb_false_iff, bool_decide_eq_true in Er. by rewrite Er.
Qed.
End exact.

(** * Passwords *)

Definition plain_char (c : ascii) : bool := negb (bool_decide (c = "$"%char)) && (N_of_ascii c <? 128)%N.

Lemma hex_lower_digit n : (n < 16)%N ->
  hex_digit (hex_lower n) = Some (Z.of_N n) /\
  hex_lower n ∉ [" "; "009"; "010"; "011"; "012"; "013"]%char /\ plain_char (hex_lower n) = true.
Proof.
  intros Hn. assert (n ∈ (N.of_nat <$> seq 0 16)) as Hin.
  { apply list_elem_of_fmap. exists (N.to_nat n). rewrite elem_of_seq. split; lia. }
  change (N.of_nat <$> seq 0 16) with [0; 1; 2; 3; 4; 5; 6; 7; 8; 9; 10; 11; 12; 13; 14; 15]%N in Hin.
  repeat (apply elem_of_cons in Hin as [-> | Hin]; [split; [done|split; [refine (bool_decide_eq_false_1 _ _); by vm_compute|by vm_compute]]|]).
  by apply elem_of_nil in Hin.
Qed.

Lemma from_hex_cons c r :
  from_hex (String (hex_lower (code c / 16)%N) (String (hex_lower (code c mod 16)%N) r)) = String c <$> from_hex r.
Proof.
  pose proof (N_ascii_bounded c) as Hc. fold (code c) in Hc.
  assert (code c / 16 < 16)%N as H1 by (by apply N.Div0.div_lt_upper_bound).
  assert (code c mod 16 < 16)%N as H2 by (by apply N.mod_lt).
  destruct (hex_lower_digit _ H1) as (E1 & S1 & _), (hex_lower_digit _ H2) as (E2 & _ & _).
  cbn [from_hex]. rewrite (bool_decide_eq_false_2 _ S1), E1, E2. destruct (from_hex r); [|done]. cbn. do 2 f_equal.
  rewrite <- (ascii_N_embedding c) at 3. f_equal. pose proof (N.div_mod (code c) 16). unfold code in *. lia.
Qed.

Lemma from_hex_digest s : from_hex (hexdigest s) = Some s.
Proof. induction s as [|c s IH]; [done|]. cbn [hexdigest]. by rewrite from_hex_cons, IH. Qed.

#[export] Instance hexdigest_inj : Inj eq eq hexdigest.
Proof. intros a b Hab. apply (f_equal from_hex) in Hab. rewrite !from_hex_digest in Hab. by injection Hab. Qed.

Lemma hexdigest_plain s : str_all plain_char (hexdigest s) = true.
Proof.
  induction s as [|c s IH]; [done|]. cbn [hexdigest str_all]. rewrite IH.
  pose proof (N_ascii_bounded c) as Hc. fold (code c) in Hc.
  assert (code c / 16 < 16)%N as H1 by (by apply N.Div0.div_lt_upper_bound).
  assert (code c mod 16 < 16)%N as H2 by (by apply N.mod_lt).
  destruct (hex_lower_digit _ H1) as (_ & _ & ->), (hex_lower_digit _ H2) as (_ & _ & ->). done.
Qed.

Lemma plain_impl (p q : ascii -> bool) s : (forall c, p c = true -> q c = true) -> str_all p s = true -> str_all q s = true.
Proof.
  intros Hpq. induction s as [|c s IH]; cbn; [done|]. intros [H1 H2]%andb_prop. apply andb_true_intro. auto.
Qed.

Lemma partition_clean c a b : str_all (fun d => negb (bool_decide (d = c))) a = true ->
  partition c (a +:+ String c b) = (a, true, b).
Proof.
  induction a as [|d a IH]; intros Ha.
  - rewrite str_app_nil. cbn. by rewrite bool_decide_eq_true_2.
  - rewrite str_app_cons. cbn in *. apply andb_prop in Ha as [H1 H2]. apply negb_true_iff in H1. by rewrite H1, IH.
Qed.

Lemma contains_mid c a b : contains (String c "") (a +:+ String c b) = true.
Proof.
  induction a as [|d a IH]; [rewrite str_app_nil|rewrite str_app_cons]; cbn [contains]; apply orb_true_iff.
  - left. apply prefix_spec. exists b. by rewrite str_app_cons, str_app_nil.
  - by right.
Qed.

(** What a stored hash accepts: every non-empty password of the same key. *)
Lemma password_roundtrip scrypt salt password given :
  verify_password_hash scrypt (hash_password scrypt salt password) given =
  inr (negb (bool_decide (given = "")) && bool_decide (scrypt salt given = scrypt salt password)).
Proof.
  unfold verify_password_hash, before_first, after_first. rewrite (bool_decide_eq_false_2 (hash_password _ _ _ = "")).
  2: { unfold hash_password. destruct (hexdigest salt); done. }
  case_bool_decide as Hg; [done|]. unfold hash_password. rewrite (str_app_cons "$" ""), str_app_nil.
  rewrite contains_mid, partition_clean.
  2: { eapply plain_impl; [|apply hexdigest_plain]. by intros c [H _]%andb_prop. }
  cbn [orb negb fst snd andb]. rewrite from_hex_digest. unfold compare_digest_str, is_ascii.
  assert (forall s, str_all (fun c => (N_of_ascii c <? 128)%N) (hexdigest s) = true) as Ha.
  { intros s. eapply plain_impl; [|apply hexdigest_plain]. by intros c [_ H]%andb_prop. }
  rewrite !Ha. cbn [andb].
  f_equal. apply bool_decide_ext. split; [apply (inj hexdigest)|by intros ->].
Qed.

(** * The audit log *)

Section audit.
Context (P : params).

Lemma audit_newest a d : constraints d -> list_audit 1 (add_audit a d).2 = [a].
Proof.
  intros Hc. unfold add_audit, tx. rewrite (mbind_ok (mget _) _ d (d_audit_seq d + 1) d) by done.
  erewrite mbind_ok; [|apply stmt_ok; exact Hc].
  rewrite stmt_ok by done. cbn [snd]. unfold list_audit. cbn [d_audit set_audit]. rewrite filter_app.
  rewrite (filter_cons_True _ _ []) by (cbn; unfold AUDIT_CAP; lia). by rewrite reverse_app.
Qed.

(** A request that is meant to change something: one of four methods on a path of the API. *)
Definition mutates (rq : request) : Prop :=
  (rq_method rq = "POST" \/ rq_method rq = "PUT" \/ rq_method rq = "PATCH" \/ rq_method rq = "DELETE") /\ exists rest, rq_path rq = ("/api" +:+ rest)%string.
Lemma mutating_spec rq : mutating rq = true <-> mutates rq.
Proof.
  unfold mutating, mutates. rewrite andb_true_iff, bool_decide_eq_true, prefix_spec. set_solver.
Qed.

(** The status the client gets: that of the route, of the HTTP error it raised, 500 for any other exception. *)
Inductive answered {A} (success : Z) : res A -> Z -> Prop :=
  | answered_ok a : answered success (Ok a) success
  | answered_http status why : answered success (Http status why) status
  | answered_crash f : answered success (Err f) 500.

(** Who asks: the token of the request if it is live, else the user of the session, else nobody. *)
Definition who (tok : option (Z * token)) (rq : request) (d : db) : string :=
  match tok with
  | Some (_, t) => "token:" +:+ tk_prefix t
  | None => if s_authed (rq_session rq)
            then "user:" +:+ match get_setting "auth_username" d with Some "" | None => "?" | Some user => user end
            else "anon"
  end.

Lemma run_audit_actor rq w : constraints (w_db w) -> rq_principal rq = None ->
  let tok := live_token (pr_sha256 P) rq (w_db w) in
  run (audit_actor P rq) w = ((Ok (who tok rq (w_db w)), with_principal (principal_of <$> tok) rq), noted tok rq w).
Proof.
  intros Hc Hp tok. unfold audit_actor, hcatch. rewrite run_pbind, run_bind, run_token_principal by done. fold tok. cbn [fst snd].
  destruct tok as [[i t]|]; cbn [fmap option_fmap option_map principal_of p_prefix fst snd who]; [done|].
  rewrite run_bind. cbn [run get_session fst snd]. cbn [with_principal rq_session]. destruct (s_authed (rq_session rq)); [|done].
  rewrite run_bind, run_read. cbn [fst snd]. unfold AUTH_USER, hret. cbn [run]. by destruct (get_setting "auth_username" _) as [[|c u]|].
Qed.

End audit.

(** * The login guard *)

Section guard.
Context (P : params).

(** C22: in every reachable state, however logins interleave, the guard has at most a thousand
    buckets, each with fewer than five counted failures and at most five requests in flight; at
    most two passwords are being checked; each login holds at most one bucket, which counts it
    and is still in the table. *)
Theorem login_guard_bounded s : reachable P s ->
  let w := pn_world s in
  (size (w_guards w) <= LOGIN_GUARD_MAX)%nat /\
  (forall ip r, w_guards w !! ip = Some r -> exists g, w_heap w !! r = Some g /\ 0 <= g_count g < 5 /\ 0 <= g_in_flight g <= 5) /\
  exists holds,
    Forall2 (fun h t => wpg (fun _ _ => True) gmove h t (fun g _ => h_slot g = false)) holds (pn_threads s) /\
    slots holds = KDF_SLOTS - w_kdf w /\ slots holds <= KDF_SLOTS /\
    forall r, holding r holds <= g_in_flight (bucket w r) /\ (0 < holding r holds -> exists ip, w_guards w !! ip = Some r).
Proof.
  intros Hr w. destruct (reachable_ginv P s Hr) as (hs & Hok & Hf). fold w in Hok. split_and!.
  - apply Hok.
  - intros ip r Hip. pose proof (ok_refs _ _ Hok ip r Hip) as Hlt. apply lookup_lt_is_Some in Hlt as [g Hg].
    exists g. split; [done|]. pose proof (ok_bounds _ _ Hok r) as Hb. unfold bucket in Hb. by rewrite Hg in Hb.
  - exists hs. pose proof (ok_slots _ _ Hok). pose proof (ok_kdf _ _ Hok). split_and!; [exact Hf|lia|lia|].
    intros r. split; apply Hok.
Qed.

(** the fifth counted failure of an address locks it: until the lockout is over, a login
    from it is turned away before its password is looked at, and takes neither a verifier slot
    nor a place in flight. *)
Theorem fifth_failure_locks ip r now lockout t w :
  w_guards w !! ip = Some r -> (r < length (w_heap w))%nat -> g_count (bucket w r) = 4 ->
  t < now + sec lockout ->
  let w1 := (guard_settle r false now lockout w).2 in
  (guard_enter ip t w1).1 = Throttled /\ w_kdf (guard_enter ip t w1).2 = w_kdf w /\
  (forall r', g_in_flight (bucket (guard_enter ip t w1).2 r') = g_in_flight (bucket w1 r')).
Proof.
  intros Hip Hlt Hc Ht w1.
  assert (bucket w1 r = Guard 0 (now + sec lockout) (g_in_flight (bucket w r) - 1) (g_seen (bucket w r))) as Hb.
  { unfold w1, guard_settle. cbn [snd]. rewrite bucket_upd, decide_True by done. unfold settle. by rewrite Hc. }
  assert (w_guards w1 !! ip = Some r) as Hip1 by done.
  assert (r < length (w_heap w1))%nat as Hlt1 by (unfold w1; cbn; by rewrite length_alter).
  unfold guard_enter. rewrite (bool_decide_eq_false_2 (w_guards w1 !! ip = None)) by (by rewrite Hip1).
  rewrite andb_false_r, Hip1. cbv zeta. set (w2 := upd_bucket r _ _).
  assert (forall r', bucket w2 r' = if decide (r' = r) then Guard 0 (now + sec lockout) (g_in_flight (bucket w r) - 1) t else bucket w1 r') as Hb2.
  { intros r'. unfold w2. rewrite bucket_upd by done. case_decide; [|done]. by change (bucket (set_guards _ _ w1) r) with (bucket w1 r); rewrite Hb. }
  rewrite Hb2, decide_True by done. cbn [g_until]. rewrite (proj2 (Z.ltb_lt _ _)) by done. cbn [orb fst snd].
  split; [done|]. split; [done|]. intros r'. rewrite Hb2. case_decide; [subst; by rewrite Hb|done].
Qed.

(** A new address is turned away only while every bucket is held by a request. *)
Lemma full_only_in_flight ip now w :
  (guard_enter ip now w).1 = Full ->
  (LOGIN_GUARD_MAX <= size (w_guards w))%nat /\ w_guards w !! ip = None /\
  forall ip' r, w_guards w !! ip' = Some r -> g_in_flight (bucket w r) <> 0.
Proof.
  unfold guard_enter. cbv zeta. destruct (Nat.leb_spec LOGIN_GUARD_MAX (size (w_guards w))) as [Hs|Hs]; cbn [andb].
  2: { destruct (w_guards w !! ip); cbn [fst snd]; intros H; destruct (_ || _) in H; done. }
  case_bool_decide as Hn. 2: { destruct (w_guards w !! ip); cbn [fst snd]; intros H; destruct (_ || _) in H; done. }
  destruct (evict_login_guard now w) as [guards|] eqn:Ee; intros H.
  { destruct (guards !! ip) in H; cbn in H; destruct (_ || _) in H; done. }
  split; [done|]. split; [done|]. intros ip' r Hr Hz. unfold evict_login_guard in Ee. cbv zeta in Ee.
  destruct (_ <? _)%nat in Ee; [done|].
  assert ((ip', r) ∈ filter (fun b => g_in_flight (bucket w b.2) = 0) (map_to_list (w_guards w))) as Hin.
  { apply list_elem_of_filter. split; [done|]. by apply elem_of_map_to_list. }
  destruct (filter _ (map_to_list _)); [by apply elem_of_nil in Hin|done].
Qed.
End guard.

(** * A rotation among other requests *)
Module AuthDemo.
Definition demo : params := Params (fun _ pw => pw) (fun x => x) "salt" 60 true.
Definition old_hash : string := hash_password (pr_scrypt demo) "s" "old-password".
Definition demo_db : db :=
  set_tokens {[1 := Token "ci" (hash_token (pr_sha256 demo) "pgwp_secret") "readwrite" "pgwp_secret" 0 None None]} 1
    (set_settings {[AUTH_USER := "op"; AUTH_HASH := old_hash; TIMEOUT := "30"]} empty_db).
Definition cookie : session := Session true (Some 0) (Some 1000) (Some "tok").
Definition start : panel :=
  Panel (World demo_db ∅ [] KDF_SLOTS NoFile true) [] [cookie] [hash_token (pr_sha256 demo) "pgwp_secret"].

Definition ask_of (method path auth : string) (ss : session) : request :=
  Request method path "10.0.0.7" auth (Some "tok") (sec 1010) ss None.
(** Another client logs in with the old password; its check is done before the operator, in
    [cookie]'s session, changes the password, and its session is opened afterwards. *)
Definition before_rotation : list move :=
  MArrive (RLogin "op" "old-password" "intruder") (ask_of "POST" "/api/login" "" empty_session) ::
  MArrive (RPassword "old-password" "new-password" "t") (ask_of "POST" "/api/password" "" cookie) ::
  replicate 6 (MAct 0) ++ replicate 6 (MAct 1).
Definition rest : list move :=
  app (replicate 2 (MAct 1)) (MFinish 1 :: app (replicate 2 (MAct 0)) [MFinish 0]).

Definition s_before : panel := after demo before_rotation start.
Definition s_rotated : panel := default s_before (exec1 demo (MAct 1) s_before).
Definition s_after : panel := after demo rest s_rotated.

Lemma start_ok : started start.
Proof.
  split_and!; try done.
  - exists 0. split; [done|]. intros c ->%list_elem_of_singleton. done.
  - intros i t Hi. cbn in Hi. apply lookup_singleton_Some in Hi as [_ <-]. cbn. by left.
Qed.
Lemma s_before_reachable : reachable demo s_before.
Proof. exists start. split; [apply start_ok|apply after_steps]. Qed.
Lemma rotation_step : step demo s_before s_rotated.
Proof.
  unfold s_rotated. destruct (exec1 demo (MAct 1) s_before) as [s|] eqn:E; [by apply exec1_step in E|].
  exfalso. assert (bool_decide (is_Some (exec1 demo (MAct 1) s_before)) = true) as H by (by vm_compute). rewrite E in H. by vm_compute in H.
Qed.

(** The operator's old cookie together with the old token. *)
Definition returning : request := ask_of "GET" "/api/nodes" "Bearer pgwp_secret" cookie.

Lemma rotation_ends_access_witness :
  exists why, run (require_auth (pr_sha256 demo) returning) (pn_world s_after) =
              ((Http 401 why, with_principal None returning), pn_world s_after).
Proof.
  apply (rotation_ends_access demo s_before s_rotated s_after 0 1 returning).
  - apply s_before_reachable.
  - apply rotation_step.
  - by vm_compute.
  - by vm_compute.
  - done.
  - apply after_steps.
  - done.
  - right. vm_compute. by left.
  - intros x Hx. vm_compute in Hx. injection Hx as <-. exists 1. eexists. split; [by vm_compute|by vm_compute].
Defined.

Lemma credential_only_rotates_witness :
  needs_setup (pn_db s_after) = false /\
  get_setting AUTH_USER (pn_db s_after) = get_setting AUTH_USER (pn_db s_before) /\
  0 <= 1 /\
  (get_setting AUTH_HASH (pn_db s_after) = get_setting AUTH_HASH (pn_db s_before) \/ 0 < 1).
Proof.
  apply (credential_only_rotates demo s_before s_after 0 1).
  - apply s_before_reachable.
  - eapply rtc_l; [apply rotation_step|apply after_steps].
  - by vm_compute.
  - by vm_compute.
  - by vm_compute.
Defined.

(** a login that has checked the old password when the operator changes it, and opens its
    session afterwards, gets a session of the new epoch: the old password is refused by then,
    and the session is accepted. *)
Theorem old_password_session :
  exists s c, reachable demo s /\ epoch_is (pn_db s) 1 /\
    verify_password_hash (pr_scrypt demo) (get_setting AUTH_HASH (pn_db s) or "") "old-password" = inr false /\
    c ∈ pn_issued s /\ s_csrf c = Some "intruder" /\
    (run (require_auth (pr_sha256 demo) (ask_of "GET" "/api/nodes" "" c)) (pn_world s)).1.1 = Ok tt.
Proof.
  exists s_after, (Session true (Some 1) (Some 1010) (Some "intruder")). split_and!.
  - destruct s_before_reachable as (s0 & H0 & H1). exists s0. split; [done|].
    etrans; [exact H1|]. eapply rtc_l; [apply rotation_step|apply after_steps].
  - by vm_compute.
  - by vm_compute.
  - vm_compute. by left.
  - done.
  - by vm_compute.
Qed.

Lemma gates_exact_witness :
  let w := pn_world start in
  let tok := live_token (pr_sha256 demo) returning (w_db w) in
  exists rq', same_request returning rq' /\
    (if may_read tok 0 30 returning then run (gated demo (hret 7) returning) w = run (hret 7 rq') (noted tok returning w)
     else exists status why, (status = 401 \/ status = 403) /\
            run (gated demo (hret 7) returning) w = ((Http status why, rq'), noted tok returning w)) /\
    (if may_write tok 0 30 returning then run (gated_mutation demo (hret 7) returning) w = run (hret 7 rq') (noted tok returning w)
     else exists status why, (status = 401 \/ status = 403) /\
            run (gated_mutation demo (hret 7) returning) w = ((Http status why, rq'), noted tok returning w)).
Proof.
  apply (gates_exact demo (hret 7) returning (pn_world start) 0 30).
  - refine (bool_decide_eq_true_1 _ _). by vm_compute.
  - done.
  - by vm_compute.
  - done.
Defined.

(** Both gates let the token of the demo through, and none lets a monitor token write. *)
Example demo_gates :
  may_write (live_token (pr_sha256 demo) returning demo_db) 0 30 returning = true /\
  may_write (Some (1, Token "tv" "h" "monitor" "p" 0 None None)) 0 30 returning = false.
Proof. split; by vm_compute. Qed.

(** A handler that refuses with a 404, asked by the session's user. *)
Definition refusing : request := ask_of "DELETE" "/api/nodes/9" "" cookie.
Example refusing_row : list_audit 1 (w_db (run (audit_mw demo 200 (http (A := unit) 404 "node not found") refusing) (pn_world start)).2) =
  [Audit (now_sec refusing) "user:op" "DELETE" "/api/nodes/9" 404].
Proof. by vm_compute. Qed.

Lemma login_guard_bounded_witness :
  let w := pn_world s_before in
  (size (w_guards w) <= LOGIN_GUARD_MAX)%nat /\
  (forall ip r, w_guards w !! ip = Some r -> exists g, w_heap w !! r = Some g /\ 0 <= g_count g < 5 /\ 0 <= g_in_flight g <= 5) /\
  exists holds,
    Forall2 (fun h t => wpg (fun _ _ => True) gmove h t (fun g _ => h_slot g = false)) holds (pn_threads s_before) /\
    slots holds = KDF_SLOTS - w_kdf w /\ slots holds <= KDF_SLOTS /\
    forall r, holding r holds <= g_in_flight (bucket w r) /\ (0 < holding r holds -> exists ip, w_guards w !! ip = Some r).
Proof. apply (login_guard_bounded demo s_before s_before_reachable). Defined.

Definition busy : world := World demo_db {["10.0.0.7" := 0%nat]} [Guard 4 0 1 100] 1 NoFile true.
Lemma fifth_failure_locks_witness :
  let w1 := (guard_settle 0 false 200 60 busy).2 in
  (guard_enter "10.0.0.7" 300 w1).1 = Throttled /\ w_kdf (guard_enter "10.0.0.7" 300 w1).2 = w_kdf busy /\
  (forall r', g_in_flight (bucket (guard_enter "10.0.0.7" 300 w1).2 r') = g_in_flight (bucket w1 r')).
Proof. apply (fifth_failure_locks "10.0.0.7" 0 200 60 300 busy); [done|cbn; lia|done|vm_compute; done]. Defined.

(** Nine passwords from one address within one lockout, checked and answered: four failures,
    then five attempts that all entered before the first of them was counted. *)
Definition guess (pw : string) : move := MArrive (RLogin "op" pw "x") (ask_of "POST" "/api/login" "" empty_session).
Definition alone (pw : string) : list move := guess pw :: app (replicate 7 (MAct 0)) [MFinish 0].
Definition nine : list move :=
  app (mjoin (alone <$> ["a"; "b"; "c"; "d"]))
 (app (guess <$> ["e"; "f"; "g"; "h"; "i"])
 (app (MAct <$> [0; 1; 2; 3; 4]%nat)
 (app (mjoin ((fun i => replicate 4 (MAct i)) <$> [0; 1; 2; 3; 4]%nat))
 (app (mjoin ((fun i => replicate 2 (MAct i)) <$> [0; 1; 2; 3; 4]%nat))
      (replicate 5 (MFinish 0)))))).

Lemma nine_guesses :
  reachable demo (after demo nine start) /\ pn_threads (after demo nine start) = [] /\
  (fun a => (a_path a, a_status a)) <$> list_audit 100 (pn_db (after demo nine start)) = replicate 9 ("/api/login", 401).
Proof.
  split; [exists start; split; [apply start_ok|apply after_steps]|]. split; by vm_compute.
Qed.
End AuthDemo.
