(* ===== verification/Controller.v ===== *)
(** The other half of [controller.py]: rendering the configuration of a node from the
    store, and [apply_node], the one path by which the live tunnel changes node.

    [gateway] is everything an apply touches: the database, the configuration files,
    the xray supervisor with its processes, the network backend.  An apply is one
    critical section of [apply_lock], so it is a sequential program; [hist] carries
    the present gateway and, as a ghost, the earlier ones, most recent first: the
    states a crash of the panel can leave behind.

    What the outside decides during one apply is in [outside]: how the file writes of
    the apply and of the rollback end, what the two reloads and the stop meet, and the
    clock.  [xray] and [config_digest] are as in [ConfigFiles], [json_loads] as in
    [RwInbound].  A store is always given here. *)
From Stdlib Require Import ZArith Lia Ascii.
From stdpp Require Import base gmap strings list.
From S2P Require Import Prelude PyStr Models Scrub ConfigFiles Supervisor Config Store Tuning Routing Builder RwInbound Events Plan Enforcement.
Open Scope string_scope.
Open Scope list_scope.
Open Scope Z_scope.

(** * Configuration from the store *)

(** What rendering or writing a configuration raises. *)
Inductive config_exn :=
  | StoreRaised (e : exn)
  | BuildRaised (e : build_error)
  | BadStatsPort (raw : string)
  | WriteRaised (f : failure).

Definition tunneled_fetch (d : db) : bool := flag_setting "tunneled_fetch" "1" d.
Definition dns_intercept (d : db) : bool := flag_setting "dns_intercept" "0" d.
Definition ipv6_enabled (d : db) : bool := flag_setting "ipv6_enabled" "0" d.

Definition resolve_routing (d : db) : list rule * string :=
  (get_routing d, get_setting "routing_default_action" d or "proxy").

(** [int(port)] raises on a stored value that is no integer. *)
Definition resolve_stats (d : db) : config_exn + option Z :=
  if negb (flag_setting "stats_enabled" "1" d) then inr None
  else
    let port := get_setting "stats_api_port" d or "10085" in
    match py_int port with Some p => inr (Some p) | None => inl (BadStatsPort port) end.

Definition RW_PENDING_KEY : string := "rw_reconcile_pending".

Definition rw_reconcile_is_pending (d : db) : bool := truthy (get_setting RW_PENDING_KEY d).

(** Never raises; the answer is read back. *)
Definition rw_clear_reconcile_pending : M bool :=
  fun d => match set_setting RW_PENDING_KEY "" d with
           | (inl _, d') => (inr false, d')
           | (inr _, d') => (inr (negb (truthy (get_setting RW_PENDING_KEY d'))), d')
           end.

Definition rw_complete_pending : M unit :=
  pending <- mget rw_reconcile_is_pending ;;
  if pending then rw_clear_reconcile_pending ;;; mret tt else mret tt.

(** * The gateway *)

Record gateway (H : Type) := Gateway {
  g_db : db;
  g_disk : disk;
  g_sup : state_t;
  g_net : net H
}.
Arguments Gateway {H}.
Arguments g_db {H}.
Arguments g_disk {H}.
Arguments g_sup {H}.
Arguments g_net {H}.

Definition hist (H : Type) : Type := gateway H * list (gateway H).

Definition push {H} (g : gateway H) (h : hist H) : hist H := (g, h.1 :: h.2).
Definition put_db {H} (d : db) (h : hist H) : hist H := push (Gateway d (g_disk h.1) (g_sup h.1) (g_net h.1)) h.
Definition put_disk {H} (k : disk) (h : hist H) : hist H := push (Gateway (g_db h.1) k (g_sup h.1) (g_net h.1)) h.
Definition put_sup {H} (u : state_t) (h : hist H) : hist H := push (Gateway (g_db h.1) (g_disk h.1) u (g_net h.1)) h.
Definition put_net {H} (x : net H) (h : hist H) : hist H := push (Gateway (g_db h.1) (g_disk h.1) (g_sup h.1) x) h.

(** A store call. *)
Definition run_db {H A} (m : M A) (h : hist H) : (exn + A) * hist H :=
  let '(r, d) := m (g_db h.1) in (r, put_db d h).

Record outside := Outside {
  o_apply : oracle;
  o_rollback : oracle;
  o_reload : env;
  o_reload_back : env;
  o_stop : env;
  o_now : Z
}.

(** The supervisor reads the configuration file that is there. *)
Definition at_disk (e : env) (k : disk) : env :=
  Env (guard e) (cur (f_config k)) (spawn e) (on_term e) (on_kill e) (polls e).

(** Why a validated configuration did not come up. *)
Inductive fault :=
  | ReloadRaised (f : failure)
  | NotUp
  | NetRaised (exc : string)
  | NetFailed (why : string).

(** An entry of [recovery]. *)
Inductive note :=
  | RollbackWithheld
  | RollbackRaised (f : failure)
  | RollbackUnavailable
  | PreviousNotReady
  | PreviousNetFailed (why : string)
  | PreviousRaised (f : fault)
  | StopSurvived
  | FailClosedFailed (why : string).

Inductive apply_result :=
  | Applied
  | ConfigFailed (e : config_exn)
  | Rejected (out : string)
  | Undone (f : fault) (recovery : list note)
  | StaleCleanupFailed (why : string)
  | BootFailed (e : exn).

Definition result_ok (r : apply_result) : bool := match r with Applied => true | _ => false end.

Section controller.
Context `{NetHost H}.
Context (s : settings).
Context (xray : json -> test_result).
Context (config_digest : json -> string).
Context (json_loads : string -> option json).

Definition rw_inbound (d : db) : option rw := match resolve json_loads d with inr r => r | inl _ => None end.

Definition build_node_config (n : node) (d : db) : config_exn + json :=
  match resolve_profile n d with
  | inl e => inl (StoreRaised e)
  | inr profile =>
  match resolve_stats d with
  | inl e => inl e
  | inr stats =>
      let explicit := match profile with
                      | Some p => bool_decide (p_id p = n_tuning_profile_id n)
                      | None => false
                      end in
      match build_config n s profile (Some (resolve_routing d)) (tunneled_fetch d) stats (dns_intercept d)
              (get_setting "routing_domain_strategy" d or "IPIfNonMatch") (ipv6_enabled d) explicit
              (rw_inbound d) with
      | inl e => inl (BuildRaised e)
      | inr cfg => inr cfg
      end
  end end.

(** [supervisor.reload()], then [apply_net]: the candidate's, and the previous tunnel's. *)
Definition bring_up (e : env) (h : hist H) : option fault * hist H :=
  let '(r, u) := reload config_digest (at_disk e (g_disk h.1)) (g_sup h.1) in
  let h := put_sup u h in
  match r with
  | inl f => (Some (ReloadRaised f), h)
  | inr false => (Some NotUp, h)
  | inr true =>
      let '(r, x) := apply_net s (g_db h.1) (g_net h.1) in
      let h := put_net x h in
      match r with
      | inl exc => (Some (NetRaised exc), h)
      | inr res => if nr_ok res then (None, h) else (Some (NetFailed (nr_error res)), h)
      end
  end.

(** The configuration file back to the last-good one: whether it was, and the notes. *)
Definition undo_config (irreversible : bool) (o : outside) (h : hist H) : bool * list note * hist H :=
  if irreversible then (false, [RollbackWithheld], h)
  else
    let '(r, k) := rollback config_digest (o_rollback o) (g_disk h.1) in
    let h := put_disk k h in
    match r with
    | inl f => (false, [RollbackRaised f; RollbackUnavailable], h)
    | inr false => (false, [RollbackUnavailable], h)
    | inr true => (true, [], h)
    end.

Definition restore_note (f : fault) : note :=
  match f with
  | NotUp => PreviousNotReady
  | NetFailed why => PreviousNetFailed (Some why or "unknown error")
  | f => PreviousRaised f
  end.

(** The tunnel of the rolled-back configuration, if there was one. *)
Definition restore_previous (previous : option node) (rolled_back : bool) (o : outside) (h : hist H)
    : bool * list note * hist H :=
  match previous with
  | Some _ =>
      if rolled_back then
        match bring_up (o_reload_back o) h with
        | (None, h) => (true, [], h)
        | (Some f, h) => (false, [restore_note f], h)
        end
      else (false, [], h)
  | None => (false, [], h)
  end.

(** No verified tunnel: stop xray, install the kill-switch-aware guard. *)
Definition fail_closed (o : outside) (h : hist H) : list note * hist H :=
  let '(stopped, u) := stop (at_disk (o_stop o) (g_disk h.1)) (g_sup h.1) in
  let h := put_sup u h in
  let '(res, x) := stop_net s (g_db h.1) (g_net h.1) in
  let h := put_net x h in
  ((if stopped then [] else [StopSurvived])
   ++ (if nr_ok res then [] else [FailClosedFailed (Some (nr_error res) or "unknown error")]), h).

Definition recover (irreversible : bool) (previous : option node) (o : outside) (h : hist H)
    : list note * hist H :=
  let '(rolled_back, l1, h) := undo_config irreversible o h in
  let '(restored, l2, h) := restore_previous previous rolled_back o h in
  if restored then (l1 ++ l2, h)
  else let '(l3, h) := fail_closed o h in (l1 ++ l2 ++ l3, h).

(** [int(previous_id_raw) if previous_id_raw else None], [None] when it is no integer. *)
Definition node_id_of (raw : option string) : option Z :=
  match raw with
  | Some r => if bool_decide (r = "") then None else py_int r
  | None => None
  end.

(** [store.get_node(previous_id) if ... and previous_id else None] *)
Definition previous_node (d : db) : option node :=
  match node_id_of (get_setting "active_node_id" d) with
  | Some i => if bool_decide (i = 0) then None else get_node i d
  | None => None
  end.

(** The bookkeeping of a switch that happened. *)
Definition mark_active (i : Z) (previous_raw : option string) (now : Z) : M unit :=
  tx ((if bool_decide (node_id_of previous_raw = Some i) then mret tt
       else set_setting "prev_active_node_id" (default "" previous_raw)) ;;;
      set_setting "active_node_id" (str_int i) ;;;
      set_setting "pending_active_node_id" "" ;;;
      set_setting "active_since" (str_int (int_sec now)) ;;;
      up <- mget (get_setting "data_used_up") ;;
      set_setting "session_base_up" (up or "0") ;;;
      down <- mget (get_setting "data_used_down") ;;
      set_setting "session_base_down" (down or "0")).

(** [store.set_setting("pending_active_node_id", ...)], for a node that has an id. *)
Definition mark_pending (n : node) : M unit :=
  match n_id n with Some i => set_setting "pending_active_node_id" (str_int i) | None => mret tt end.

Definition finish_apply (n : node) (previous_raw : option string) (o : outside) (h : hist H)
    : (exn + apply_result) * hist H :=
  let '(r, h) := match n_id n with
                 | Some i => run_db (mark_active i previous_raw (o_now o)) h
                 | None => (inr tt, h)
                 end in
  match r with
  | inl e => (inl e, h)
  | inr _ => let '(_, h) := run_db rw_complete_pending h in (inr Applied, h)
  end.

Definition write_config (irreversible : bool) (w : oracle) (cfg : json) (k : disk) : (failure + bool * string) * disk :=
  if irreversible then apply_irreversible xray w cfg k else apply xray config_digest w cfg k.

Definition apply_node (n : node) (irreversible : bool) (o : outside) (h : hist H) : (exn + apply_result) * hist H :=
  let previous_raw := get_setting "active_node_id" (g_db h.1) in
  let previous := previous_node (g_db h.1) in
  match build_node_config n (g_db h.1) with
  | inl e => (inr (ConfigFailed e), h)
  | inr cfg =>
      let '(r, k) := write_config irreversible (o_apply o) cfg (g_disk h.1) in
      let h := put_disk k h in
      match r with
      | inl f => (inr (ConfigFailed (WriteRaised f)), h)
      | inr (false, out) => (inr (Rejected out), h)
      | inr (true, _) =>
          let '(r, h) := run_db (mark_pending n) h in
          match r with
          | inl e => (inl e, h)
          | inr _ =>
              match bring_up (o_reload o) h with
              | (None, h) => finish_apply n previous_raw o h
              | (Some f, h) =>
                  let '(notes, h) := recover irreversible previous o h in
                  let '(r, h) := run_db (set_setting "pending_active_node_id" "") h in
                  match r with
                  | inl e => (inl e, h)
                  | inr _ => (inr (Undone f notes), h)
                  end
              end
          end
      end
  end.

(** * Boot *)

(** Which node boot re-establishes. *)
Definition pending_or_active (now : Z) : M (option string) :=
  fun d =>
    let active := get_setting "active_node_id" d in
    let pending := get_setting "pending_active_node_id" d in
    let or_none := if truthy active then active else None in
    match pending with
    | None | Some "" => (inr or_none, d)
    | Some p =>
        if bool_decide (pending = active) then (inr or_none, d)
        else match py_int p ≫= (fun i => get_node i d) with
             | None => (set_setting "pending_active_node_id" "" ;;; mret or_none) d
             | Some _ =>
                 (record "failover" ("resumed node switch to " +:+ p +:+ " interrupted by shutdown") now ;;;
                  mret (Some p)) d
             end
    end.

Definition clear_stale (aid : string) (now : Z) : M unit :=
  tx (set_setting "active_node_id" "" ;;;
      set_setting "pending_active_node_id" "" ;;;
      set_setting "active_since" "" ;;;
      record "stale-active" ("cleared missing active node " +:+ aid) now).

Definition reapply_active_node (irreversible : bool) (o : outside) (h : hist H)
    : (exn + option apply_result) * hist H :=
  let '(r, h) := run_db (pending_or_active (o_now o)) h in
  match r with
  | inl e => (inl e, h)
  | inr None => (inr None, h)
  | inr (Some aid) =>
      match py_int aid ≫= (fun i => get_node i (g_db h.1)) with
      | None =>
          let '(r, h) := run_db (clear_stale aid (o_now o)) h in
          match r with
          | inl e => (inl e, h)
          | inr _ =>
              let '(res, x) := stop_net s (g_db h.1) (g_net h.1) in
              let h := put_net x h in
              if nr_ok res then (inr None, h) else (inr (Some (StaleCleanupFailed (nr_error res))), h)
          end
      | Some n =>
          match apply_node n irreversible o h with
          | (inl e, h) => (inr (Some (BootFailed e)), h)
          | (inr r, h) => (inr (Some r), h)
          end
      end
  end.

End controller.
