(* ===== verification/ControllerProps.v ===== *)
(** [apply_node] and the boot reapply: what holds after every outcome, and at every
    point where the panel can die. *)
From Stdlib Require Import ZArith Lia Ascii.
From stdpp Require Import base gmap strings list.
From S2P Require Import Prelude PyStr Models Store StoreFacts Events Scrub ConfigFiles Supervisor SupervisorProps Config Tuning Routing Builder RwInbound Plan Enforcement EnforcementProps Controller.
Open Scope string_scope.
Open Scope list_scope.
Open Scope Z_scope.

(** * Lemmas *)

(** Lemmas about [apply_node] and its parts: which of them leave the database, the
    files or the host alone, and what a tunnel that came up or was shut down
    guarantees. *)

(** The later history extends the earlier one, and every state it passed had the same database. *)
Definition quiet {H} (h h' : hist H) : Prop :=
  g_db h'.1 = g_db h.1 /\
  exists past, h'.2 = past ++ h.2 /\ Forall (fun g => g_db g = g_db h.1) past.

#[export] Instance quiet_preorder {H} : PreOrder (@quiet H).
Proof.
  split.
  - intros h. split; [done|]. by exists [].
  - intros h1 h2 h3 (E1 & p1 & H1 & F1) (E2 & p2 & H2 & F2). split; [congruence|].
    exists (p2 ++ p1). rewrite H2, H1, app_assoc. split; [done|]. apply Forall_app. split; [|done].
    eapply Forall_impl; [exact F2|]. simpl. intros. congruence.
Qed.

Lemma push_quiet {H} g (h : hist H) : g_db g = g_db h.1 -> quiet h (push g h).
Proof. intros Hg. split; [done|]. exists [h.1]. split; [done|]. by repeat constructor. Qed.

(** No teardown was asked of the backend. *)
Definition no_teardown {H} (h h' : hist H) : Prop :=
  exists ops, n_calls (g_net h'.1) = n_calls (g_net h.1) ++ ops /\ OpTeardown ∉ ops.

#[export] Instance no_teardown_preorder {H} : PreOrder (@no_teardown H).
Proof.
  split.
  - intros h. exists []. rewrite app_nil_r. split; [done|apply not_elem_of_nil].
  - intros h1 h2 h3 (o1 & H1 & F1) (o2 & H2 & F2). exists (o1 ++ o2).
    rewrite H2, H1, app_assoc. split; [done|]. rewrite elem_of_app. tauto.
Qed.

Lemma same_net_no_teardown {H} (h h' : hist H) : g_net h'.1 = g_net h.1 -> no_teardown h h'.
Proof. intros E. exists []. rewrite E, app_nil_r. split; [done|apply not_elem_of_nil]. Qed.

Section facts.
Context `{NetHost H}.
Context (s : settings).
Context (xray : json -> test_result).
Context (digest : json -> string).

(** ** What a network result proves *)

Lemma call_net_ok o w x r x' :
  call_net o w x = (r, x') -> nr_ok r = true -> n_status x' = "ok" /\ n_wan_blocked x' = w.
Proof.
  unfold call_net. destruct (perform o (n_host x)) as [c h]. set (r0 := match c with CallRaised _ => _ | _ => _ end).
  intros E Hok. pose proof (record_snapshot r0 w (log_call o (set_host h x))) as Hr. rewrite E in Hr.
  destruct Hr as (Hst & Hyes & _). split; [by apply Hst|]. by apply Hyes.
Qed.

Lemma refused_not_ok r x : nr_ok r = false -> nr_ok (record_enforcement r None x).1 = false.
Proof. intros E. unfold record_enforcement. by rewrite E. Qed.

Lemma apply_net_ok d x r x' :
  apply_net s d x = (inr r, x') -> nr_ok r = true -> n_status x' = "ok" /\ n_wan_blocked x' = Some false.
Proof.
  unfold apply_net, refuse_enforcement. destruct (enforcement_plan s d) as [exc|why|p]; [done|..].
  - pose proof (refused_not_ok (net_failed why) x eq_refl) as Hn.
    destruct (record_enforcement _ _ _). intros [= <- _]. simpl in Hn. congruence.
  - destruct (call_net _ _ _) as [r0 x0] eqn:E. intros [= <- <-]. by eapply call_net_ok.
Qed.

Lemma stop_net_ok d x r x' :
  stop_net s d x = (r, x') -> nr_ok r = true ->
  n_status x' = "ok" /\ n_wan_blocked x' = Some (kill_switch_on d).
Proof.
  assert (forall q, nr_ok q = false -> record_enforcement q None x = (r, x') -> nr_ok r = true -> False) as Href.
  { intros q Hq E Hok. pose proof (refused_not_ok q x Hq) as Hn. rewrite E in Hn. simpl in Hn. congruence. }
  unfold stop_net, refuse_enforcement. destruct (kill_switch_on d) eqn:Ek; [|by apply call_net_ok].
  destruct nh_apply_guard as [gd|]; [|intros E Hok; exfalso; by eapply Href; [|exact E|]].
  destruct (enforcement_plan s d) as [exc|why|p]; [intros E Hok; exfalso; by eapply Href; [|exact E|]..|by apply call_net_ok].
Qed.

Lemma apply_net_no_teardown d x :
  exists ops, n_calls (apply_net s d x).2 = n_calls x ++ ops /\ OpTeardown ∉ ops.
Proof.
  destruct (apply_closing s d x) as [->|(o & Ho%closing_closed & ->)]; [exists []; rewrite app_nil_r|exists [o]];
    (split; [done|]); set_solver.
Qed.

Lemma stop_net_no_teardown d x :
  kill_switch_on d = true -> exists ops, n_calls (stop_net s d x).2 = n_calls x ++ ops /\ OpTeardown ∉ ops.
Proof.
  intros Hk. destruct (stop_closing s d x Hk) as [->|(o & Ho%closing_closed & ->)];
    [exists []; rewrite app_nil_r|exists [o]]; (split; [done|]); set_solver.
Qed.

(** What a disconnect asks of the host. *)
Lemma stop_net_calls d x :
  exists ops, n_calls (stop_net s d x).2 = n_calls x ++ ops /\
    if kill_switch_on d then Forall (fun o => closing s d o RStop) ops else Forall (eq OpTeardown) ops.
Proof.
  destruct (kill_switch_on d) eqn:Hk.
  - destruct (stop_closing s d x Hk) as [->|(o & Ho & ->)]; [exists []; by rewrite app_nil_r|exists [o]].
    split; [done|]. by apply Forall_singleton.
  - exists [OpTeardown]. split; [|by apply Forall_singleton]. unfold stop_net. rewrite Hk. apply call_net_calls.
Qed.

(** ** A tunnel that came up *)

(** xray runs on the configuration that is on disk, and the host confirmed the tproxy rules. *)
Definition tunnel_up (g : gateway H) : Prop :=
  running (g_sup g) = true /\
  (forall pid c, procs (g_sup g).2 !! pid = Some (Alive c) -> c = cur (f_config (g_disk g))) /\
  n_status (g_net g) = "ok" /\ n_wan_blocked (g_net g) = Some false.

Lemma bring_up_facts e (h : hist H) r h' :
  bring_up s digest e h = (r, h') ->
  quiet h h' /\ no_teardown h h' /\ g_disk h'.1 = g_disk h.1 /\
  (inv digest (g_sup h.1) -> inv digest (g_sup h'.1) /\ (r = None -> tunnel_up h'.1)).
Proof.
  unfold bring_up. intros E.
  pose proof (reload_inv digest (at_disk e (g_disk h.1)) (g_sup h.1)) as Hre.
  destruct (reload digest _ _) as [[f|[]] u].
  - simplify_eq. split_and!; [by apply push_quiet|by apply same_net_no_teardown|done|].
    intros Hi. by destruct (Hre Hi).
  - pose proof (apply_net_no_teardown (g_db h.1) (g_net h.1)) as Hc.
    change (g_db (put_sup u h).1) with (g_db h.1) in E. change (g_net (put_sup u h).1) with (g_net h.1) in E.
    destruct (apply_net s (g_db h.1) (g_net h.1)) as [rn x] eqn:En.
    assert (h' = put_net x (put_sup u h)) as -> by (inv_match E; by simplify_eq).
    split_and!; [etrans; by apply push_quiet|exact Hc|done|].
    intros Hi. destruct (Hre Hi) as (Hi' & Hup & _). split; [exact Hi'|]. intros ->.
    destruct rn as [exc|res]; [done|]. destruct (nr_ok res) eqn:Eok; [|done].
    destruct (Hup eq_refl) as (Hrun & _ & _ & Hon). destruct (apply_net_ok _ _ _ _ En Eok) as [Hst Hw]. done.
  - simplify_eq. split_and!; [by apply push_quiet|by apply same_net_no_teardown|done|].
    intros Hi. by destruct (Hre Hi).
Qed.

(** ** The configuration files *)

Lemma write_other_path w p q j k r k' :
  write_atomic w p j k = (r, k') -> p <> q -> at_path q k' = at_path q k.
Proof. unfold write_atomic. intros E Hne. destruct (w p); simplify_eq; [done|]. by destruct p, q. Qed.

Lemma write_same_path w p j k b k' :
  write_atomic w p j k = (Some b, k') -> cur (at_path p k') = Some (CJson j).
Proof. unfold write_atomic. intros E. destruct (w p); simplify_eq. by destruct p. Qed.

Lemma write_raised w p j k k' : write_atomic w p j k = (None, k') -> k' = k.
Proof. unfold write_atomic. intros E. destruct (w p); by simplify_eq. Qed.

Lemma unlink_other w k :
  f_config (invalidate_provenance w k) = f_config k /\ f_lastgood (invalidate_provenance w k) = f_lastgood k.
Proof. unfold invalidate_provenance. by destruct (w PMarker). Qed.

(** An ordinary write: the live file changes last, and only then is the answer yes; the
    configuration it replaced is the last-good one. *)
Lemma apply_files w cfg k r k' :
  apply xray digest w cfg k = (r, k') ->
  match r with
  | inr (true, _) =>
      cur (f_config k') = Some (CJson cfg) /\
      forall prev, cur (f_config k) = Some (CJson prev) -> cur (f_lastgood k') = Some (CJson prev)
  | _ => f_config k' = f_config k
  end.
Proof.
  unfold apply. destruct (validate_config xray cfg) as [[] out]; simpl; [|by intros [= <- <-]].
  assert (forall k1, f_config k1 = f_config k ->
    match write_atomic w PConfig cfg k1 with
    | (None, d') => (inl OSError, d')
    | (Some _, d') => (inr (true, out), d')
    end = (r, k') ->
    (forall prev, cur (f_config k) = Some (CJson prev) -> cur (f_lastgood k1) = Some (CJson prev)) ->
    match r with
    | inr (true, _) => cur (f_config k') = Some (CJson cfg) /\
        forall prev, cur (f_config k) = Some (CJson prev) -> cur (f_lastgood k') = Some (CJson prev)
    | _ => f_config k' = f_config k
    end) as Hfin.
  { intros k1 Hk1 E Hlg. destruct (write_atomic w PConfig cfg k1) as [[b|] k2] eqn:E2; simplify_eq.
    - split; [by eapply (write_same_path w PConfig)|]. intros prev Hp.
      rewrite <-(Hlg prev Hp). f_equal. by apply (write_other_path w PConfig PLastgood) in E2.
    - by apply write_raised in E2 as ->. }
  destruct (cur (f_config k)) as [[previous| |]|] eqn:Ec.
  - destruct (write_atomic w PLastgood previous k) as [[b1|] k1] eqn:E1.
    2: { intros [= <- <-]. by apply write_raised in E1 as ->. }
    assert (f_config k1 = f_config k) as Hc1 by (by apply (write_other_path w PLastgood PConfig) in E1).
    destruct (write_atomic w PMarker _ k1) as [[b2|] k2] eqn:E2.
    2: { intros [= <- <-]. by apply write_raised in E2 as ->. }
    apply (write_other_path w PMarker PConfig) in E2 as Hc2; [|done]. simpl in Hc2.
    apply (write_other_path w PMarker PLastgood) in E2 as Hl2; [|done]. simpl in Hl2.
    intros E. eapply Hfin; [|exact E|]; [congruence|]. intros prev [= <-]. rewrite Hl2.
    by apply (write_same_path w PLastgood) in E1.
  - intros E. eapply Hfin; [|exact E|done]. apply unlink_other.
  - by intros [= <- <-].
  - intros E. eapply Hfin; [|exact E|done]. apply unlink_other.
Qed.

(** A write that may not be undone: the marker says so before the live file changes. *)
Lemma irreversible_files w cfg k r k' :
  apply_irreversible xray w cfg k = (r, k') ->
  match r with
  | inr (true, _) => cur (f_config k') = Some (CJson cfg) /\ cur (f_marker k') = Some (CJson invalid_marker)
  | _ => f_config k' = f_config k
  end.
Proof.
  unfold apply_irreversible. destruct (validate_config xray cfg) as [[] out]; simpl; [|by intros [= <- <-]].
  unfold invalidate_provenance_durably.
  destruct (write_atomic w PMarker invalid_marker k) as [[b|] k1] eqn:E1.
  2: { intros [= <- <-]. by apply write_raised in E1 as ->. }
  apply (write_other_path w PMarker PConfig) in E1 as Hc; [|done]. simpl in Hc.
  apply (write_same_path w PMarker) in E1 as Hm. simpl in Hm.
  destruct b; [|by intros [= <- <-]].
  destruct (write_atomic w PConfig cfg k1) as [[b|] k2] eqn:E2; intros [= <- <-].
  - split; [by apply (write_same_path w PConfig) in E2|].
    by apply (write_other_path w PConfig PMarker) in E2; [simpl in E2; rewrite E2|].
  - by apply write_raised in E2 as ->.
Qed.

Lemma no_target_invalid k lg :
  cur (f_marker k) = Some (CJson invalid_marker) -> rollback_target digest k <> inr (Some lg).
Proof.
  intros Hm. unfold rollback_target. rewrite Hm.
  destruct (cur (f_lastgood k)) as [[]|]; try done. by destruct (cur (f_config k)) as [[]|].
Qed.

(** A rollback that says yes put the last-good configuration back. *)
Lemma rollback_files w k k' :
  rollback digest w k = (inr true, k') -> cur (f_config k') = cur (f_lastgood k).
Proof.
  unfold rollback. destruct (rollback_target digest k) as [f|[lg|]] eqn:Et; try done.
  assert (cur (f_lastgood k) = Some (CJson lg)) as ->.
  { unfold rollback_target in Et. inv_match Et; by simplify_eq. }
  destruct (write_atomic w PConfig lg k) as [[b|] k1] eqn:E1; [|done].
  destruct (write_atomic w PMarker _ k1) as [[b'|] k2] eqn:E2; [|done]. intros [= <-].
  apply (write_other_path w PMarker PConfig) in E2; [|done]. simpl in E2. rewrite E2.
  by apply (write_same_path w PConfig) in E1.
Qed.

(** ** Recovery *)

(** Fail closed: no xray unless it survived SIGKILL, no open segment unless that was said. *)
Definition shut (notes : list note) (g : gateway H) : Prop :=
  (StopSurvived ∈ notes \/ forall pid c, procs (g_sup g).2 !! pid <> Some (Alive c)) /\
  ((exists why, FailClosedFailed why ∈ notes) \/
   n_status (g_net g) = "ok" /\ n_wan_blocked (g_net g) = Some (kill_switch_on (g_db g))).

Lemma fail_closed_facts o (h : hist H) notes h' :
  fail_closed s o h = (notes, h') ->
  quiet h h' /\ g_disk h'.1 = g_disk h.1 /\
  (kill_switch_on (g_db h.1) = true -> no_teardown h h') /\
  (inv digest (g_sup h.1) -> inv digest (g_sup h'.1) /\ shut notes h'.1).
Proof.
  unfold fail_closed, stop. intros E.
  set (e := at_disk (o_stop o) (g_disk h.1)) in *.
  pose proof (stop_child_inv digest e (set_want false (g_sup h.1).1, (g_sup h.1).2)) as Hs.
  destruct (stop_child e _) as [b u].
  change (g_db (put_sup u h).1) with (g_db h.1) in E. change (g_net (put_sup u h).1) with (g_net h.1) in E.
  pose proof (stop_net_no_teardown (g_db h.1) (g_net h.1)) as Hc.
  destruct (stop_net s (g_db h.1) (g_net h.1)) as [res x] eqn:En. injection E as <- <-.
  split_and!; [etrans; by apply push_quiet|done|exact Hc|]. intros Hi.
  destruct Hs as (Hi' & Hb & _); [destruct (g_sup h.1); by eapply inv_fields|]. split; [exact Hi'|]. split.
  - destruct b; [right; apply Hb|left; set_solver].
  - destruct (nr_ok res) eqn:Eok; [right; by eapply stop_net_ok|left]. eexists. apply elem_of_app. right. by left.
Qed.

Lemma undo_config_facts irr o (h : hist H) b l h' :
  undo_config digest irr o h = (b, l, h') ->
  quiet h h' /\ no_teardown h h' /\ g_sup h'.1 = g_sup h.1 /\
  (irr = true -> b = false /\ g_disk h'.1 = g_disk h.1) /\
  (b = true -> cur (f_config (g_disk h'.1)) = cur (f_lastgood (g_disk h.1))).
Proof.
  unfold undo_config. destruct irr; [by intros [= <- <- <-]|].
  destruct (rollback digest (o_rollback o) (g_disk h.1)) as [r k] eqn:E. intros E'.
  assert (h' = put_disk k h /\ (b = true -> r = inr true)) as [-> Hb] by (inv_match E'; by simplify_eq).
  split_and!; [by apply push_quiet|by apply same_net_no_teardown|done|done|].
  intros Ht. rewrite (Hb Ht) in E. by apply rollback_files in E.
Qed.

Lemma restore_previous_facts prev b o (h : hist H) r l h' :
  restore_previous s digest prev b o h = (r, l, h') ->
  quiet h h' /\ no_teardown h h' /\ g_disk h'.1 = g_disk h.1 /\
  (r = true -> is_Some prev /\ b = true) /\
  (inv digest (g_sup h.1) -> inv digest (g_sup h'.1) /\ (r = true -> tunnel_up h'.1)).
Proof.
  unfold restore_previous. destruct prev as [n|]; [|by intros [= <- <- <-]].
  destruct b; [|by intros [= <- <- <-]].
  destruct (bring_up s digest (o_reload_back o) h) as [f h1] eqn:E. apply bring_up_facts in E as (Hq & Hn & Hd & Hi).
  destruct f; intros [= <- <- <-]; split_and!; try done.
  - intros Hinv. by destruct (Hi Hinv).
  - intros Hinv. destruct (Hi Hinv). auto.
Qed.

Lemma shut_app l1 l2 g : shut l2 g -> shut (l1 ++ l2) g.
Proof.
  intros [Ha Hb]. split; [destruct Ha as [Ha|Ha]; [left; apply elem_of_app; by right|by right]|].
  destruct Hb as [[why Hw]|Hb]; [left; exists why; apply elem_of_app; by right|by right].
Qed.

(** The end of every recovery: the previous tunnel on the configuration it had, or fail closed. *)
Lemma recover_facts irr prev o (h : hist H) notes h' :
  recover s digest irr prev o h = (notes, h') ->
  quiet h h' /\ (kill_switch_on (g_db h.1) = true -> no_teardown h h') /\
  (irr = true -> g_disk h'.1 = g_disk h.1) /\
  (inv digest (g_sup h.1) ->
     inv digest (g_sup h'.1) /\
     ((irr = false /\ is_Some prev /\ tunnel_up h'.1 /\
       cur (f_config (g_disk h'.1)) = cur (f_lastgood (g_disk h.1))) \/ shut notes h'.1)).
Proof.
  unfold recover. destruct (undo_config digest irr o h) as [[rb l1] h1] eqn:E1.
  apply undo_config_facts in E1 as (Hq1 & Hn1 & Hs1 & Hirr & Hback).
  destruct (restore_previous s digest prev rb o h1) as [[rs l2] h2] eqn:E2.
  apply restore_previous_facts in E2 as (Hq2 & Hn2 & Hd2 & Hres & Hi2).
  assert (quiet h h2) as Hq by (by etrans). assert (no_teardown h h2) as Hn by (by etrans).
  rewrite Hs1 in Hi2. destruct rs.
  - intros [= <- <-]. destruct (Hres eq_refl) as [Hp ->]. split_and!; try done.
    + intros Hirr'. by destruct (Hirr Hirr').
    + intros Hi. destruct (Hi2 Hi) as [Hi' Hup]. split; [done|]. left. split_and!; auto.
      * destruct irr; [by destruct Hirr|done].
      * rewrite Hd2. auto.
  - destruct (fail_closed s o h2) as [l3 h3] eqn:E3. intros [= <- <-].
    apply fail_closed_facts in E3 as (Hq3 & Hd3 & Hn3 & Hi3). split_and!.
    + by etrans.
    + intros Hk. etrans; [done|]. apply Hn3. by rewrite (proj1 Hq).
    + intros Hirr'. rewrite Hd3, Hd2. by apply Hirr.
    + intros Hi. destruct (Hi2 Hi) as [Hi' _]. destruct (Hi3 Hi') as [Hi'' Hsh]. split; [done|].
      right. by do 2 apply shut_app.
Qed.

End facts.

(** * Properties *)

(** * The bookkeeping *)

(** One setting written. *)
Definition with_setting (k v : string) (d : db) : db := set_settings (<[k := v]> (d_settings d)) d.

Lemma get_with_setting k v k' d :
  get_setting k' (with_setting k v d) = if decide (k = k') then Some v else get_setting k' d.
Proof. apply get_set_setting. Qed.

Lemma set_setting_with k v d : constraints d -> set_setting k v d = (inr tt, with_setting k v d).
Proof. apply set_setting_run. Qed.

Lemma constraints_with k v d : constraints d -> constraints (with_setting k v d).
Proof. apply constraints_settings. Qed.
#[local] Hint Resolve constraints_with : v2pi.

Lemma seq_setting {B} k v (m : M B) d :
  constraints d -> mbind (set_setting k v) (fun _ => m) d = m (with_setting k v d).
Proof. intros Hc. unfold mbind. by rewrite set_setting_with. Qed.

Lemma kill_switch_pending v d :
  kill_switch_on (with_setting "pending_active_node_id" v d) = kill_switch_on d.
Proof. unfold kill_switch_on, flag_setting. by rewrite get_with_setting. Qed.

(** Nothing but these settings differs. *)
Definition same_but (keys : list string) (d d' : db) : Prop :=
  (exists m, d' = set_settings m d) /\ forall k, k ∉ keys -> get_setting k d' = get_setting k d.

Lemma mark_active_run i raw now d :
  constraints d ->
  exists d', mark_active i raw now d = (inr tt, d') /\
    same_but ["prev_active_node_id"; "active_node_id"; "pending_active_node_id"; "active_since";
              "session_base_up"; "session_base_down"] d d' /\
    get_setting "active_node_id" d' = Some (str_int i) /\
    get_setting "pending_active_node_id" d' = Some "" /\
    get_setting "prev_active_node_id" d' =
      if decide (node_id_of raw = Some i) then get_setting "prev_active_node_id" d else Some (default "" raw).
Proof.
  intros Hc. unfold mark_active, tx.
  set (d1 := if decide (node_id_of raw = Some i) then d else with_setting "prev_active_node_id" (default "" raw) d).
  assert (constraints d1) as Hc1 by (unfold d1; case_decide; auto with v2pi).
  assert (forall B (k : M B), mbind (if bool_decide (node_id_of raw = Some i) then mret tt
     else set_setting "prev_active_node_id" (default "" raw)) (fun _ => k) d = k d1) as Hfst.
  { intros B k. unfold d1. case_bool_decide; case_decide; try done. by apply seq_setting. }
  rewrite Hfst, !seq_setting by auto with v2pi.
  unfold mbind at 1, mget. rewrite seq_setting by auto with v2pi.
  unfold mbind at 1. rewrite set_setting_with by auto with v2pi.
  eexists; split; [done|]. unfold same_but. rewrite !get_with_setting. simpl. split_and!; try done.
  - unfold d1. case_decide; eexists; reflexivity.
  - intros k Hk. rewrite !get_with_setting, !decide_False by set_solver. unfold d1.
    destruct (decide (node_id_of raw = Some i)); [done|]. by rewrite get_with_setting, decide_False by set_solver.
  - unfold d1. destruct (decide (node_id_of raw = Some i)); [done|]. by rewrite get_with_setting.
Qed.

Lemma rw_complete_run d :
  constraints d ->
  exists d', rw_complete_pending d = (inr tt, d') /\ same_but [RW_PENDING_KEY] d d' /\
    rw_reconcile_is_pending d' = false.
Proof.
  intros Hc. unfold rw_complete_pending, mbind, mget. destruct (rw_reconcile_is_pending d) eqn:E.
  - unfold rw_clear_reconcile_pending. rewrite set_setting_with by done. simpl. eexists; split; [done|].
    split; [split; [by eexists|]|].
    + intros k Hk. by rewrite get_with_setting, decide_False by set_solver.
    + unfold rw_reconcile_is_pending. by rewrite get_with_setting, decide_True.
  - eexists; split; [done|]. split; [split; [exists (d_settings d); by destruct d|done]|done].
Qed.

Lemma record_run kind detail now d :
  constraints d -> exists d', record kind detail now d = (inr tt, d') /\ constraints d' /\
    d_settings d' = d_settings d /\ d_nodes d' = d_nodes d.
Proof.
  intros Hc. unfold record, add_event. run_stmt. eexists; split; [reflexivity|]. auto with v2pi.
Qed.

Section apply_node.
Context `{NetHost H}.
Context (s : settings).
Context (xray : json -> test_result).
Context (digest : json -> string).
Context (json_loads : string -> option json).

Notation apply_node := (apply_node s xray digest json_loads).

(** The database once the intent is recorded. *)
Definition intended (n : node) (d : db) : db :=
  match n_id n with Some i => with_setting "pending_active_node_id" (str_int i) d | None => d end.

Lemma intended_constraints n d : constraints d -> constraints (intended n d).
Proof. unfold intended. destruct (n_id n); auto with v2pi. Qed.

(** How an apply ends: refused before anything ran, or brought up, or recovered. *)
Lemma apply_node_cases n irr o (h : hist H) r h' :
  constraints (g_db h.1) -> apply_node n irr o h = (r, h') ->
  (((exists e, r = inr (ConfigFailed e)) \/ exists out, r = inr (Rejected out)) /\
   (h' = h \/ exists k, h' = put_disk k h /\ f_config k = f_config (g_disk h.1))) \/
  (exists cfg out k f h1,
     build_node_config s json_loads n (g_db h.1) = inr cfg /\
     write_config xray digest irr (o_apply o) cfg (g_disk h.1) = (inr (true, out), k) /\
     bring_up s digest (o_reload o) (put_db (intended n (g_db h.1)) (put_disk k h)) = (f, h1) /\
     match f with
     | None => finish_apply n (get_setting "active_node_id" (g_db h.1)) o h1 = (r, h')
     | Some f => exists notes h2, recover s digest irr (previous_node (g_db h.1)) o h1 = (notes, h2) /\
         r = inr (Undone f notes) /\ h' = put_db (with_setting "pending_active_node_id" "" (g_db h2.1)) h2
     end).
Proof.
  intros Hc. unfold Controller.apply_node.
  destruct (build_node_config s json_loads n (g_db h.1)) as [e|cfg] eqn:Eb.
  { intros [= <- <-]. left. split; [eauto|by left]. }
  destruct (write_config xray digest irr (o_apply o) cfg (g_disk h.1)) as [rw k] eqn:Ew.
  assert (match rw with inr (true, _) => True | _ => f_config k = f_config (g_disk h.1) end) as Hk.
  { unfold write_config in Ew. destruct irr; [apply irreversible_files in Ew|apply apply_files in Ew];
      by destruct rw as [|[[] ?]]. }
  destruct rw as [f|[[] out]]; [|clear Hk|].
  - intros [= <- <-]. left. split; [eauto|right; eauto].
  - assert (forall h1 : hist H, constraints (g_db h1.1) -> run_db (mark_pending n) h1 = (inr tt, put_db (intended n (g_db h1.1)) h1)) as Hmark.
    { intros h1 Hc1. unfold run_db, mark_pending, intended. destruct (n_id n); [by rewrite set_setting_with|done]. }
    rewrite Hmark by done. change (g_db (put_disk k h).1) with (g_db h.1).
    destruct (bring_up s digest (o_reload o) _) as [f h1] eqn:Eu. intros E. right.
    exists cfg, out, k, f, h1. split_and!; try done. destruct f as [f|]; [|done].
    apply bring_up_facts in Eu as (Hq & _ & _ & _).
    destruct (recover s digest irr _ o h1) as [notes h2] eqn:Er. exists notes, h2. split; [done|].
    apply recover_facts in Er as (Hq2 & _ & _ & _). unfold run_db in E.
    rewrite set_setting_with in E; [by injection E as <- <-|].
    rewrite (proj1 Hq2), (proj1 Hq). by apply intended_constraints.
  - intros [= <- <-]. left. split; [eauto|right; eauto].
Qed.

Lemma finish_apply_run n i raw o (h : hist H) :
  constraints (g_db h.1) -> n_id n = Some i ->
  exists d1 d2, finish_apply n raw o h = (inr Applied, put_db d2 (put_db d1 h)) /\
    mark_active i raw (o_now o) (g_db h.1) = (inr tt, d1) /\ rw_complete_pending d1 = (inr tt, d2).
Proof.
  intros Hc Hi. unfold finish_apply, run_db. rewrite Hi.
  destruct (mark_active_run i raw (o_now o) (g_db h.1) Hc) as (d1 & E1 & ((m & ->) & _) & _).
  destruct (rw_complete_run (set_settings m (g_db h.1))) as (d2 & E2 & _); [auto with v2pi|].
  exists (set_settings m (g_db h.1)), d2. split_and!; [|done..]. rewrite E1. simpl. by rewrite E2.
Qed.

(** ** Where boot goes *)

Definition boots_into (now : Z) (d : db) (v : option string) : Prop :=
  (pending_or_active now d).1 = inr v.

Lemma boots_pending now i d :
  get_setting "pending_active_node_id" d = Some (str_int i) -> is_Some (get_node i d) ->
  boots_into now d (Some (str_int i)).
Proof.
  intros Hp [n Hn]. unfold boots_into, pending_or_active. rewrite Hp.
  pose proof (str_int_nonempty i) as Hne. pose proof (py_int_str_int i) as Hpy.
  destruct (str_int i) as [|c v]; [done|]. case_bool_decide as E.
  - by rewrite <-E.
  - rewrite Hpy. simpl. rewrite Hn. unfold mbind.
    by destruct (record_ok "failover" ("resumed node switch to " +:+ String c v +:+ " interrupted by shutdown") now d) as [d' ->].
Qed.

Lemma boots_active now i d :
  get_setting "pending_active_node_id" d = Some "" -> get_setting "active_node_id" d = Some (str_int i) ->
  boots_into now d (Some (str_int i)).
Proof.
  intros Hp Ha. unfold boots_into, pending_or_active. rewrite Hp, Ha.
  by rewrite (truthy_str_int i).
Qed.

Lemma quiet_past (P : gateway H -> Prop) (h h' : hist H) past0 base :
  quiet h h' -> h.2 = past0 ++ base -> Forall P past0 ->
  (forall g, g_db g = g_db h.1 -> P g) -> exists past, h'.2 = past ++ base /\ Forall P past.
Proof.
  intros (_ & p & Hp & HF) Hh Hp0 HP. exists (p ++ past0). rewrite Hp, Hh, app_assoc. split; [done|].
  apply Forall_app. split; [|done]. eapply Forall_impl; [exact HF|]. auto.
Qed.

End apply_node.

Section theorems.
Context `{NetHost H}.
Context (s : settings).
Context (xray : json -> test_result).
Context (digest : json -> string).
Context (json_loads : string -> option json).

(** an apply that is refused mutates nothing.  When the configuration of the node cannot be
    rendered from the store, fails [xray -test], or cannot be written, the database, the running
    xray and the host's enforcement are exactly as before, and so is the live configuration
    file. *)
Theorem apply_refused_untouched n irr o (h : hist H) r h' (Hc : constraints (g_db h.1))
    (Hr : match r with ConfigFailed _ | Rejected _ => True | _ => False end)
    (E : apply_node s xray digest json_loads n irr o h = (inr r, h')) :
  g_db h'.1 = g_db h.1 /\ g_sup h'.1 = g_sup h.1 /\ g_net h'.1 = g_net h.1 /\
  f_config (g_disk h'.1) = f_config (g_disk h.1).
Proof.
  apply apply_node_cases in E as [(_ & [->|(k & -> & Hk)])|(cfg & out & k & f & h1 & _ & _ & _ & Hf)]; [done..| |done].
  destruct f as [f|].
  - destruct Hf as (notes & h2 & _ & [= ->] & _). done.
  - unfold finish_apply in Hf. repeat case_match; by simplify_eq.
Qed.

(** an apply that reports success switched the tunnel.  The live configuration file is the one
    rendered for the node from the store, xray runs and was started on exactly that file, the
    host confirmed the tproxy rules and does not block the WAN, the store names the node as the
    active one with no switch pending, the previous one is kept as the way back unless it is the
    same node, a pending remote-access revocation is completed, and a node that was given as
    irreversible leaves nothing to roll back to. *)
Theorem apply_success n i irr o (h h' : hist H) (Hc : constraints (g_db h.1))
    (Hi : inv digest (g_sup h.1)) (Hn : n_id n = Some i)
    (E : apply_node s xray digest json_loads n irr o h = (inr Applied, h')) :
  exists cfg, build_node_config s json_loads n (g_db h.1) = inr cfg /\
    cur (f_config (g_disk h'.1)) = Some (CJson cfg) /\ tunnel_up h'.1 /\
    get_setting "active_node_id" (g_db h'.1) = Some (str_int i) /\
    get_setting "pending_active_node_id" (g_db h'.1) = Some "" /\
    (get_setting "prev_active_node_id" (g_db h'.1) =
       let raw := get_setting "active_node_id" (g_db h.1) in
       if decide (node_id_of raw = Some i) then get_setting "prev_active_node_id" (g_db h.1)
       else Some (default "" raw)) /\
    rw_reconcile_is_pending (g_db h'.1) = false /\
    (irr = true -> forall lg, rollback_target digest (g_disk h'.1) <> inr (Some lg)).
Proof.
  apply apply_node_cases in E as [([[? ?]|[? ?]] & _)|(cfg & out & k & f & h1 & Hb & Hw & Hu & Hf)]; [done..| |done].
  destruct f as [f|]; [by destruct Hf as (? & ? & _ & ? & _)|].
  apply bring_up_facts in Hu as (Hq & _ & Hd & Hup). destruct (Hup Hi) as [_ Htun].
  specialize (Htun eq_refl). destruct Hq as [Hdb _]. simpl in Hdb, Hd.
  destruct (finish_apply_run n i (get_setting "active_node_id" (g_db h.1)) o h1) as (d1 & d2 & E & Hm & Hrw);
    [rewrite Hdb; by apply intended_constraints|done|].
  rewrite E in Hf. injection Hf as <-.
  destruct (mark_active_run i (get_setting "active_node_id" (g_db h.1)) (o_now o) (g_db h1.1))
    as (d1' & Hm' & ((m & Hd1) & _) & Ha & Hp & Hv); [rewrite Hdb; by apply intended_constraints|].
  rewrite Hm in Hm'. injection Hm' as <-.
  destruct (rw_complete_run d1) as (d2' & Hrw' & (_ & Hsame) & Hcl).
  { rewrite Hd1. apply constraints_settings. rewrite Hdb. by apply intended_constraints. }
  rewrite Hrw in Hrw'. injection Hrw' as <-. exists cfg. simpl. rewrite Hd.
  assert (cur (f_config k) = Some (CJson cfg) /\
    (irr = true -> cur (f_marker k) = Some (CJson invalid_marker))) as [Hk Hmk].
  { unfold write_config in Hw. destruct irr; [apply irreversible_files in Hw|apply apply_files in Hw];
      by destruct Hw. }
  rewrite !Hsame by (apply not_elem_of_cons; split; [done|apply not_elem_of_nil]).
  split_and!; try done.
  - unfold tunnel_up in *. simpl. by rewrite Hd in Htun.
  - rewrite Hv, Hdb. case_decide; [|done]. unfold intended. rewrite Hn. by rewrite get_with_setting.
  - intros Hirr lg. apply no_target_invalid. auto.
Qed.

(** C1: an apply that fails after validation converges.  Whatever failed (xray not coming up, the
    backend refusing, raising or lying) and whatever else fails on the way back: the database is
    as it was with the pending switch cleared, so the active node is still the old one; and the
    gateway is either the previous tunnel again, running and confirmed on the very configuration
    it had, or shut: no xray child unless it survived SIGKILL, and the host confirmed the
    kill-switch-aware fallback, each exception reported.  With the kill switch on no teardown is
    ever asked for, and an irreversible apply never puts the replaced configuration back nor
    leaves it as a rollback target. *)
Theorem apply_failure_converges n irr o (h h' : hist H) f notes (Hc : constraints (g_db h.1))
    (Hi : inv digest (g_sup h.1))
    (E : apply_node s xray digest json_loads n irr o h = (inr (Undone f notes), h')) :
  g_db h'.1 = with_setting "pending_active_node_id" "" (g_db h.1) /\
  ((irr = false /\ is_Some (previous_node (g_db h.1)) /\ tunnel_up h'.1 /\
    forall prev, cur (f_config (g_disk h.1)) = Some (CJson prev) ->
      cur (f_config (g_disk h'.1)) = Some (CJson prev)) \/ shut notes h'.1) /\
  (kill_switch_on (g_db h.1) = true -> no_teardown h h') /\
  (irr = true -> exists cfg, build_node_config s json_loads n (g_db h.1) = inr cfg /\
     cur (f_config (g_disk h'.1)) = Some (CJson cfg) /\
     forall lg, rollback_target digest (g_disk h'.1) <> inr (Some lg)).
Proof.
  apply apply_node_cases in E as [([[? ?]|[? ?]] & _)|(cfg & out & k & f' & h1 & Hb & Hw & Hu & Hf)]; [done..| |done].
  destruct f' as [f'|].
  2: { unfold finish_apply in Hf. repeat case_match; by simplify_eq. }
  destruct Hf as (notes' & h2 & Er & [= <- <-] & ->).
  apply bring_up_facts in Hu as (Hq & Hn & Hd & Hup). destruct (Hup Hi) as [Hi1 _].
  apply recover_facts in Er as (Hq2 & Hn2 & Hirr & Hend).
  destruct (Hend Hi1) as [_ Hend']. destruct Hq as [Hdb _], Hq2 as [Hdb2 _]. simpl in *.
  assert (kill_switch_on (g_db h1.1) = kill_switch_on (g_db h.1)) as Hks.
  { rewrite Hdb. unfold intended. destruct (n_id n); [apply kill_switch_pending|done]. }
  split_and!.
  - rewrite Hdb2, Hdb. unfold intended. destruct (n_id n); [|done]. unfold with_setting.
    destruct (g_db h.1); unfold set_settings; simpl. by rewrite insert_insert_eq.
  - destruct Hend' as [(-> & Hp & Ht & Hlg)|Hs]; [left|right]; [|by unfold shut in *; simpl; rewrite kill_switch_pending].
    split_and!; try done.
    intros prev Hprev. rewrite Hlg, Hd. unfold write_config in Hw. apply apply_files in Hw as [_ Hw]. auto.
  - intros Hk. rewrite <-Hks in Hk. specialize (Hn2 Hk).
    destruct Hn as (o1 & H1 & F1), Hn2 as (o2 & H2 & F2). exists (o1 ++ o2). simpl in *.
    rewrite H2, H1, app_assoc. split; [done|]. rewrite elem_of_app. tauto.
  - intros ->. exists cfg. unfold write_config in Hw. apply irreversible_files in Hw as [Hk Hmk].
    rewrite (Hirr eq_refl), Hd. split_and!; try done. intros lg. by apply no_target_invalid.
Qed.

(** C2: a crash of the panel in the middle of a switch converges forward.  At every intermediate
    state of an apply, for any outcome and any failure on the way, either nothing of the runtime
    was touched yet (database, xray and host as before), or the boot that follows resumes the
    node being switched to; after a success boot comes back to the new node, and after an undone
    apply to the node that is still active. *)
Theorem crash_forward n i irr o now (h h' : hist H) r (Hc : constraints (g_db h.1))
    (Hn : n_id n = Some i) (Hex : is_Some (get_node i (g_db h.1)))
    (E : apply_node s xray digest json_loads n irr o h = (r, h')) :
  (exists past, h'.2 = past ++ h.2 /\
     Forall (fun g => (g_db g = g_db h.1 /\ g_sup g = g_sup h.1 /\ g_net g = g_net h.1) \/
                      boots_into now (g_db g) (Some (str_int i))) past) /\
  (r = inr Applied -> boots_into now (g_db h'.1) (Some (str_int i))) /\
  (forall f notes, r = inr (Undone f notes) ->
     let active := get_setting "active_node_id" (g_db h.1) in
     boots_into now (g_db h'.1) (if truthy active then active else None)).
Proof.
  apply apply_node_cases in E as [(Hr & Hh)|(cfg & out & k & f & h1 & Hb & Hw & Hu & Hf)]; [| |done].
  { split_and!; [|intros ->; by destruct Hr as [[??]|[??]]|intros ?? ->; by destruct Hr as [[??]|[??]]].
    destruct Hh as [->|(k & -> & _)]; [by exists []|]. exists [h.1]. split; [done|]. by repeat constructor. }
  set (P := fun g : gateway H => _ \/ _).
  apply bring_up_facts in Hu as (Hq & _ & _ & _). pose proof (proj1 Hq) as Hdb. simpl in Hdb.
  assert (forall g : gateway H, g_db g = intended n (g_db h.1) -> P g) as HP.
  { intros g Hg. right. rewrite Hg. unfold intended. rewrite Hn. apply boots_pending; [|done].
    by rewrite get_with_setting, decide_True. }
  destruct (quiet_past P _ h1 [Gateway (g_db h.1) k (g_sup h.1) (g_net h.1); h.1] h.2 Hq eq_refl) as (p1 & Hp1 & HF1);
    [by repeat constructor|done|].
  destruct f as [f|].
  - destruct Hf as (notes & h2 & Er & -> & ->). apply recover_facts in Er as (Hq2 & _ & _ & _).
    destruct (quiet_past P h1 h2 p1 h.2 Hq2 Hp1 HF1) as (p2 & Hp2 & HF2).
    { intros g Hg. apply HP. congruence. }
    assert (g_db h2.1 = intended n (g_db h.1)) as Hdb2 by (rewrite (proj1 Hq2); done).
    split_and!; [|done|].
    + exists (h2.1 :: p2). simpl. rewrite Hp2. split; [done|]. constructor; auto.
    + intros f' notes' _. simpl. rewrite Hdb2. unfold boots_into, pending_or_active, intended. rewrite Hn.
      by rewrite !get_with_setting.
  - destruct (finish_apply_run n i (get_setting "active_node_id" (g_db h.1)) o h1) as (d1 & d2 & E & Hm & Hrw);
      [rewrite Hdb; by apply intended_constraints|done|].
    rewrite E in Hf. injection Hf as <- <-.
    destruct (mark_active_run i (get_setting "active_node_id" (g_db h.1)) (o_now o) (g_db h1.1))
      as (d1' & Hm' & ((m & Hd1) & _) & Ha & Hpe & _); [rewrite Hdb; by apply intended_constraints|].
    rewrite Hm in Hm'. injection Hm' as <-.
    destruct (rw_complete_run d1) as (d2' & Hrw' & (_ & Hsame) & _).
    { rewrite Hd1. apply constraints_settings. rewrite Hdb. by apply intended_constraints. }
    rewrite Hrw in Hrw'. injection Hrw' as <-. split_and!; [| |done].
    + exists (Gateway d1 (g_disk h1.1) (g_sup h1.1) (g_net h1.1) :: h1.1 :: p1). simpl. rewrite Hp1. split; [done|].
      constructor; [right; by apply boots_active|]. constructor; auto.
    + intros _. apply boots_active; simpl; rewrite Hsame; try done;
        (apply not_elem_of_cons; split; [done|apply not_elem_of_nil]).
Qed.

Lemma pending_or_active_run now d :
  constraints d -> exists v d', pending_or_active now d = (inr v, d') /\ constraints d' /\ d_nodes d' = d_nodes d /\
    (forall k, k <> "pending_active_node_id" -> get_setting k d' = get_setting k d) /\
    (v = None -> truthy (get_setting "active_node_id" d) = false).
Proof.
  intros Hc. unfold pending_or_active.
  set (active := get_setting "active_node_id" d). set (or_none := if truthy active then active else None).
  assert (or_none = None -> truthy active = false) as Hnone.
  { unfold or_none. destruct (truthy active) eqn:E; [|done]. intros Ha. by rewrite Ha in E. }
  destruct (get_setting "pending_active_node_id" d) as [[|c p]|]; [by eexists _, _| |by eexists _, _].
  case_bool_decide; [by eexists _, _|].
  destruct (py_int (String c p) ≫= _).
  - destruct (record_run "failover" ("resumed node switch to " +:+ String c p +:+ " interrupted by shutdown") now d Hc)
      as (d' & E & Hc' & Hs & Hns). unfold mbind, mret. rewrite E. eexists _, d'. split_and!; try done.
    intros k _. unfold get_setting. by rewrite Hs.
  - rewrite seq_setting by done. eexists _, _. split_and!; [done|by apply constraints_with|done| |done].
    intros k Hk. by rewrite get_with_setting, decide_False.
Qed.

Lemma clear_stale_run aid now d :
  constraints d -> exists d', clear_stale aid now d = (inr tt, d') /\ constraints d' /\
    get_setting "active_node_id" d' = Some "" /\ get_setting "pending_active_node_id" d' = Some "" /\
    kill_switch_on d' = kill_switch_on d.
Proof.
  intros Hc. unfold clear_stale, tx. rewrite !seq_setting by auto with v2pi.
  destruct (record_run "stale-active" ("cleared missing active node " +:+ aid) now
    (with_setting "active_since" "" (with_setting "pending_active_node_id" "" (with_setting "active_node_id" "" d))))
    as (d' & -> & Hc' & Hs & _); [auto with v2pi|].
  assert (forall k, get_setting k d' = d_settings d' !! k) as Hg by done. rewrite Hs in Hg.
  exists d'. unfold kill_switch_on, flag_setting. rewrite !Hg. unfold with_setting; simpl.
  rewrite !lookup_insert. by split_and!.
Qed.

(** C37: boot never raises and never keeps a tunnel that has no node.  With an intact database the
    reapply always returns: either it attempted an apply and reports its outcome, or it applies
    nothing and the store then names no active node.  In that case the only rules asked of the
    host are, with the kill switch on, the guard for the stored plan and its whole cover, so the
    segment stays closed; with it off, the teardown the operator has chosen. *)
Theorem reapply_total irr o (h : hist H) (Hc : constraints (g_db h.1)) :
  exists r h', reapply_active_node s xray digest json_loads irr o h = (inr r, h') /\
    (r = None \/ (exists why, r = Some (StaleCleanupFailed why)) ->
       truthy (get_setting "active_node_id" (g_db h'.1)) = false /\
       exists ops, n_calls (g_net h'.1) = n_calls (g_net h.1) ++ ops /\
         if kill_switch_on (g_db h.1) then Forall (fun o => closing s (g_db h'.1) o RStop) ops
         else Forall (eq OpTeardown) ops).
Proof.
  unfold reapply_active_node, run_db.
  destruct (pending_or_active_run (o_now o) (g_db h.1) Hc) as (v & d' & -> & Hc' & Hns & Hsame & Hv).
  assert (kill_switch_on d' = kill_switch_on (g_db h.1)) as Hk.
  { unfold kill_switch_on, flag_setting. by rewrite Hsame. }
  destruct v as [aid|].
  2: { eexists _, _. split; [done|]. intros _. split; [simpl; rewrite Hsame by done; auto|].
       exists []. rewrite app_nil_r. split; [done|]. destruct (kill_switch_on (g_db h.1)); apply Forall_nil_2. }
  destruct (py_int aid ≫= _) as [n|] eqn:En.
  - destruct (apply_node s xray digest json_loads n irr o _) as [[e|r] h'] eqn:Ea; eexists _, h'; (split; [done|]).
    + intros [|[? ?]]; done.
    + assert (match r with StaleCleanupFailed _ => False | _ => True end) as Hr.
      { apply apply_node_cases in Ea as [([[? [= ->]]|[? [= ->]]] & _)|(? & ? & ? & f & ? & _ & _ & _ & Hf)]; [done..| |done].
        destruct f; [by destruct Hf as (? & ? & _ & [= ->] & _)|]. unfold finish_apply in Hf.
        repeat case_match; by simplify_eq. }
      intros [|[? [= ->]]]; done.
  - simpl. destruct (clear_stale_run aid (o_now o) d' Hc') as (d2 & -> & Hc2 & Ha & _ & Hk2). simpl.
    pose proof (stop_net_calls s d2 (g_net h.1)) as Hstop. rewrite Hk2, Hk in Hstop.
    destruct (stop_net s d2 (g_net h.1)) as [res x]. destruct (nr_ok res); eexists _, _; (split; [done|]);
      intros _; (split; [simpl; by rewrite Ha|]); exact Hstop.
Qed.

End theorems.

(** Two nodes, the first one active; everything works, xray rejects, or xray does not come up. *)
Module Switch.
Import TestHost.

Definition digest0 (j : json) : string := match j with JObj [] => "empty" | _ => "config" end.
Definition no_rw (s : string) : option json := None.
Definition two_nodes : db :=
  set_settings {[ "active_node_id" := "1"; "rw_reconcile_pending" := "1" ]}
    (set_nodes {[ 1 := mk_node "a" "10.0.0.1" 443 "u1"; 2 := mk_node "b" "10.0.0.2" 443 "u2" ]} empty_db).
Definition node2 : node := row_to_node 2 (mk_node "b" "10.0.0.2" 443 "u2").
Definition start_gateway : hist host :=
  (Gateway two_nodes (Disk (File (Some (CJson (JObj []))) []) (File None []) (File None [])) init fresh, []).
Definition well : env := Env true None Spawned (Some 0) (Some 9) (Some [PollNot; PollReady]).
Definition dies : env := Env true None Spawned (Some 0) (Some 9) (Some [PollDied 1]).
Definition calm : outside := Outside (fun _ => WDone Fsynced) (fun _ => WDone Fsynced) well well well 1700000000000000.
Definition stormy : outside := Outside (fun _ => WDone Fsynced) (fun _ => WDone Fsynced) dies well well 1700000000000000.
Definition xray_ok (j : json) : test_result := Exited 0 "".
Definition xray_no (j : json) : test_result := Exited 23 "failed to parse".

Definition switched := apply_node default_settings xray_ok digest0 no_rw node2 false calm start_gateway.
Definition revoked := apply_node default_settings xray_ok digest0 no_rw node2 true stormy start_gateway.
Definition undone := apply_node default_settings xray_ok digest0 no_rw node2 false stormy start_gateway.
Definition rejected := apply_node default_settings xray_no digest0 no_rw node2 false calm start_gateway.

Lemma start_constraints : constraints (g_db start_gateway.1).
Proof. apply (bool_decide_unpack _). by vm_compute. Defined.

Lemma apply_refused_untouched_witness : g_db rejected.2.1 = two_nodes.
Proof.
  apply (apply_refused_untouched default_settings xray_no digest0 no_rw node2 false calm start_gateway
    (Rejected "failed to parse") rejected.2 start_constraints I).
  by vm_compute.
Defined.

Lemma apply_success_witness :
  get_setting "active_node_id" (g_db switched.2.1) = Some "2" /\ tunnel_up switched.2.1.
Proof.
  destruct (apply_success default_settings xray_ok digest0 no_rw node2 2 false calm start_gateway switched.2
    start_constraints (reachable_inv digest0 init (reach_init digest0)) eq_refl) as (cfg & _ & _ & Hup & Ha & _).
  - by vm_compute.
  - by split.
Defined.

(** The old tunnel is back on the old configuration. *)
Lemma apply_failure_converges_witness :
  (exists notes, undone.1 = inr (Undone NotUp notes) /\ notes = []) /\
  g_db undone.2.1 = with_setting "pending_active_node_id" "" two_nodes /\
  no_teardown start_gateway revoked.2.
Proof.
  split; [by eexists; split; [vm_compute|]|]. split.
  - apply (apply_failure_converges default_settings xray_ok digest0 no_rw node2 false stormy start_gateway undone.2
      NotUp [] start_constraints (reachable_inv digest0 init (reach_init digest0))).
    by vm_compute.
  - apply (apply_failure_converges default_settings xray_ok digest0 no_rw node2 true stormy start_gateway revoked.2
      NotUp [RollbackWithheld] start_constraints (reachable_inv digest0 init (reach_init digest0)));
      by vm_compute.
Defined.

Lemma crash_forward_witness :
  exists past, undone.2.2 = past ++ [] /\
    Forall (fun g => (g_db g = two_nodes /\ g_sup g = init /\ g_net g = fresh) \/
                     boots_into 0 (g_db g) (Some "2")) past.
Proof.
  apply (crash_forward default_settings xray_ok digest0 no_rw node2 2 false stormy 0 start_gateway undone.2
    undone.1 start_constraints eq_refl).
  - eexists. by vm_compute.
  - by vm_compute.
Defined.

Lemma reapply_total_witness :
  exists r h', reapply_active_node default_settings xray_ok digest0 no_rw false calm start_gateway = (inr r, h') /\
    r = Some Applied.
Proof.
  destruct (reapply_total default_settings xray_ok digest0 no_rw false calm start_gateway start_constraints)
    as (r & h' & E & _).
  exists r, h'. split; [exact E|]. revert E. vm_compute. by intros [= <- _].
Defined.

End Switch.
