(* ===== verification/Liveness.v ===== *)
(** [health/liveness.py]: the loop that restarts a crashed xray, finishes an interrupted
    revocation, probes the active node and drives failover; and the error reporter of
    [health/monitor.py].

    Times are microseconds.  What the loop calls is a parameter: the supervisor ([in_error],
    [restart], [ready]), the reconciliation of a revocation, the probe, failover.  [None] of a
    parameter's result is a raised exception.  One tick is a function from the loop's own
    state, the database and the supervisor to the same, with the events it filed.  [stop] is
    the stop event when the tick starts; the probe, which takes seconds, comes back to a
    database other threads have changed ([during]) and to the stop event as it is then. *)
From Stdlib Require Import ZArith Lia.
From stdpp Require Import base gmap strings list.
From S2P Require Import Prelude PyStr Models Store StoreFacts Events Selection Failover Controller.
Open Scope string_scope.
Open Scope Z_scope.

Definition DEFAULT_INTERVAL : Z := sec 20.
Definition DEFAULT_PROBE_INTERVAL : Z := sec 60.
Definition DEFAULT_PROBE_URL6 : string := "https://api6.ipify.org?format=json".
Definition WATCHDOG_BASE_BACKOFF : Z := DEFAULT_INTERVAL.
Definition WATCHDOG_MAX_BACKOFF : Z := sec 600.
Definition WATCHDOG_STABLE_SEC : Z := sec 300.
Definition RECONCILE_BASE_BACKOFF : Z := DEFAULT_INTERVAL.
Definition RECONCILE_MAX_BACKOFF : Z := sec 600.
Definition LOOP_ERROR_EVENT_GAP : Z := sec 300.

Record loop := Loop {
  lp_last_probe : Z;
  lp_attempts : Z;
  lp_last_ready : Z;          (* 0: never *)
  lp_next_restart : Z;
  lp_backoff_reported : bool;
  lp_rec_attempts : Z;
  lp_next_rec : Z;
  lp_rec_reported : bool;
  lp_errors_last : option Z
}.
Definition new_loop : loop := Loop 0 0 0 0 false 0 0 false None.

Definition with_watch attempts ready next reported l :=
  Loop (lp_last_probe l) attempts ready next reported (lp_rec_attempts l) (lp_next_rec l) (lp_rec_reported l) (lp_errors_last l).
Definition with_rec attempts next reported l :=
  Loop (lp_last_probe l) (lp_attempts l) (lp_last_ready l) (lp_next_restart l) (lp_backoff_reported l)
    attempts next reported (lp_errors_last l).
Definition with_last_probe t l :=
  Loop t (lp_attempts l) (lp_last_ready l) (lp_next_restart l) (lp_backoff_reported l)
    (lp_rec_attempts l) (lp_next_rec l) (lp_rec_reported l) (lp_errors_last l).
Definition with_errors t l :=
  Loop (lp_last_probe l) (lp_attempts l) (lp_last_ready l) (lp_next_restart l) (lp_backoff_reported l)
    (lp_rec_attempts l) (lp_next_rec l) (lp_rec_reported l) t.

(** An event filed: kind, detail, when. *)
Definition filed := (string * string * Z)%type.
Definition file_event (f : filed) (d : db) : db := (record f.1.1 f.1.2 f.2 d).2.
Definition file_all (fs : list filed) (d : db) : db := foldl (fun d f => file_event f d) d fs.

Definition backoff (base cap attempts : Z) : Z := Z.min cap (base * 2 ^ Z.max 0 (attempts - 1)).
Definition watchdog_backoff : Z -> Z := backoff WATCHDOG_BASE_BACKOFF WATCHDOG_MAX_BACKOFF.
Definition reconcile_backoff : Z -> Z := backoff RECONCILE_BASE_BACKOFF RECONCILE_MAX_BACKOFF.

(** [LoopErrorReporter.record] *)
Definition report_error (detail : string) (now : Z) (l : loop) : loop * list filed :=
  if match lp_errors_last l with Some t => now - t <? LOOP_ERROR_EVENT_GAP | None => false end
  then (l, [])
  else (with_errors (Some now) l, [("health-error", detail, now)]).

Section loop.
Context {X : Type}.
Context (in_error : X -> bool).              (* supervisor.state() == "error" *)
Context (restart : X -> bool * X).           (* whether it raised, and the supervisor after it *)
Context (ready : X -> bool).                 (* supervisor.status()["running"]; false when it raises *)
Context (reconcile : db -> X -> option bool * (db * X)).
Context (real_through : node -> string -> option string -> bool -> option probe_result).
Context (failover : Z -> db -> X -> (exn + option Z) * (db * X)).

(** ** The watchdog *)

(** The tick, and whether it tried to restart xray. *)
Definition watchdog (stop : bool) (now : Z) (l : loop) (d : db) (x : X) : loop * (db * X) * list filed * bool :=
  if stop then (l, (d, x), [], false)
  else if negb (in_error x) then (l, (d, x), [], false)
  else if now <? lp_next_restart l then (l, (d, x), [], false)
  else
    let fresh := negb (lp_last_ready l =? 0) && (WATCHDOG_STABLE_SEC <=? now - lp_last_ready l) in
    let attempts := (if fresh then 0 else lp_attempts l) + 1 in
    let reported := if fresh then false else lp_backoff_reported l in
    let '(raised, x) := restart x in
    if raised then (with_watch attempts (lp_last_ready l) (lp_next_restart l) reported l, (d, x), [], true)
    else
      let up := ready x in
      let last_ready := if up then now else lp_last_ready l in
      let delay := watchdog_backoff attempts in
      let next := now + delay in
      if attempts =? 1 then
        let f := ("xray-restart", "auto-restarted after crash", now) in
        (with_watch attempts last_ready next reported l, (file_event f d, x), [f], true)
      else if negb up && (WATCHDOG_MAX_BACKOFF <=? delay) && negb reported then
        let f := ("xray-restart", "xray keeps crashing — retrying every " +:+ str_int (Z.quot delay 1000000) +:+ "s", now) in
        (with_watch attempts last_ready next true l, (file_event f d, x), [f], true)
      else (with_watch attempts last_ready next reported l, (d, x), [], true).

(** ** A revocation interrupted between its two halves *)

(** The tick, and whether it called the reconciliation. *)
Definition reconcile_tick (stop : bool) (now : Z) (l : loop) (d : db) (x : X) : loop * (db * X) * list filed * bool :=
  if stop then (l, (d, x), [], false)
  else if negb (truthy (get_setting RW_PENDING_KEY d)) then (with_rec 0 0 false l, (d, x), [], false)
  else if now <? lp_next_rec l then (l, (d, x), [], false)
  else
    let attempts := lp_rec_attempts l + 1 in
    let next := now + reconcile_backoff attempts in
    let f := ("rw-revoke", "a remote-access revocation did not reach the running xray — retrying until it does", now) in
    let fs := if lp_rec_reported l then [] else [f] in
    let '(done, (d, x)) := reconcile (file_all fs d) x in
    (match done with
     | Some true => with_rec 0 0 false l
     | _ => with_rec attempts next true l
     end, (d, x), fs, true).

(** ** The probe of the active node *)

Definition probe_interval (d : db) : Z :=
  match get_setting "health_active_interval" d with
  | None => DEFAULT_PROBE_INTERVAL
  | Some raw => if bool_decide (raw = "") then DEFAULT_PROBE_INTERVAL
                else match py_float raw with Some v => Z.max (sec 10) v | None => DEFAULT_PROBE_INTERVAL end
  end.

(** [int(v) if v else None]; a value that is no integer raises. *)
Definition active_id (d : db) : exn + option Z := (opt_int "active_node_id" d).1.

Definition still_active (aid : Z) (d : db) : bool :=
  match active_id d with inr (Some i) => i =? aid | _ => false end.

(** [late]: the stop event when the probe has come back, and before the latency is noted;
    [during]: what other threads did meanwhile. *)
Definition probe_active (stop : bool) (late1 late2 : bool) (now_iso : Z) (during : db -> db) (d : db) (x : X) : db :=
  if stop || negb (bool_decide (get_setting "health_enabled" d or "1" = "1")) then d
  else match active_id d with
  | inr (Some aid) =>
      if negb (ready x) then d
      else match get_node aid d with
      | None => d
      | Some node =>
          let url := get_setting "health_probe_url" d or DEFAULT_PROBE_URL in
          let url6 := if bool_decide (get_setting "ipv6_enabled" d or "0" = "1")
                      then Some (get_setting "health_probe_url6" d or DEFAULT_PROBE_URL6) else None in
          match real_through node url url6 (operator_added node) with
          | None => during d
          | Some (real_ok, real_ms, egress, egress6) =>
              let d := during d in
              if late1 || negb (still_active aid d) then d
              else
                match update_health_real aid real_ok real_ms egress egress6 now_iso d with
                | (inl _, d) => d
                | (inr _, d) =>
                    match real_ms with
                    | Some ms => if real_ok && negb late2 && still_active aid d then (record_latency aid ms d).2 else d
                    | None => d
                    end
                end
          end
      end
  | _ => d
  end.

(** ** One tick *)

Record ticked := Ticked {
  t_loop : loop; t_db : db; t_sup : X; t_filed : list filed; t_restarted : bool;
  t_pending : bool;           (* the marker was set when the tick started *)
  t_reconciled : bool }.

(** What a tick meets: the stop event when it starts and at its two later checks, the clocks,
    what other threads do during the probe. *)
Record moment := Moment {
  m_stop : bool; m_late1 : bool; m_late2 : bool; m_now : Z; m_iso : Z; m_during : db -> db }.

Definition tick (m : moment) (l : loop) (d : db) (x : X) : ticked :=
  let now := m_now m in
  let pending := truthy (get_setting RW_PENDING_KEY d) in
  let '(l, (d, x), f1, reconciled) := reconcile_tick (m_stop m) now l d x in
  let '(l, (d, x), f2, restarted) := watchdog (m_stop m) now l d x in
  let due := negb (m_stop m) && (probe_interval d <=? now - lp_last_probe l) in
  let '(l, d) :=
    if due then (with_last_probe now l, probe_active (m_stop m) (m_late1 m) (m_late2 m) (m_iso m) (m_during m) d x)
    else (l, d) in
  if m_stop m || (due && (m_late1 m || m_late2 m)) then Ticked l d x (app f1 f2) restarted pending reconciled
  else
    match failover now d x with
    | (inr (Some new), (d, x)) =>
        let f := ("failover", "auto-failover to node " +:+ str_int new, now) in
        Ticked l (file_event f d) x (app f1 (app f2 [f])) restarted pending reconciled
    | (inr None, (d, x)) => Ticked l d x (app f1 f2) restarted pending reconciled
    | (inl exc, (d, x)) =>
        let '(l, f3) := report_error ("failover evaluation failed: " +:+ exn_str exc) now l in
        Ticked l (file_all f3 d) x (app f1 (app f2 f3)) restarted pending reconciled
    end.

(** The loop over a list of ticks; between two of them the rest of the panel works on the
    database and the supervisor. *)
Fixpoint ticks (ms : list (moment * (db * X -> db * X))) (l : loop) (d : db) (x : X) : list ticked :=
  match ms with
  | [] => []
  | (m, between) :: ms =>
      let t := tick m l d x in
      let '(d, x) := between (t_db t, t_sup t) in
      t :: ticks ms (t_loop t) d x
  end.
End loop.
