(* ===== verification/LivenessProps.v ===== *)
(** What the liveness loop guarantees: a crash loop is retried on a growing delay and files
    two events however long it lasts; a pending revocation is never left alone for longer than
    the cap of its own delay; a probe's verdict is written only for the node that is still
    active. *)
From Stdlib Require Import ZArith Lia Sorting.Sorted.
From stdpp Require Import base gmap strings list.
From S2P Require Import Prelude PyStr Models Store StoreFacts Events Selection Failover Controller Liveness.
Open Scope string_scope.
Open Scope Z_scope.

(** ** The delays *)

Lemma backoff_bounds base cap n : 0 < base <= cap -> base <= backoff base cap n <= cap.
Proof.
  intros H. unfold backoff.
  assert (1 <= 2 ^ Z.max 0 (n - 1)) by (pose proof (Z.pow_pos_nonneg 2 (Z.max 0 (n - 1))); lia). nia.
Qed.

Lemma backoff_mono base cap m n : 0 < base -> m <= n -> backoff base cap m <= backoff base cap n.
Proof.
  intros Hb H. unfold backoff.
  assert (2 ^ Z.max 0 (m - 1) <= 2 ^ Z.max 0 (n - 1)) by (apply Z.pow_le_mono_r; lia). nia.
Qed.

Lemma watchdog_backoff_bounds n : sec 20 <= watchdog_backoff n <= sec 600.
Proof. apply backoff_bounds. done. Qed.

Lemma reconcile_backoff_bounds n : sec 20 <= reconcile_backoff n <= sec 600.
Proof. apply backoff_bounds. done. Qed.

(** From the sixth attempt on the delay is the cap. *)
Lemma watchdog_backoff_capped n : 6 <= n -> watchdog_backoff n = sec 600.
Proof.
  intros H. pose proof (watchdog_backoff_bounds n).
  assert (watchdog_backoff 6 <= watchdog_backoff n) by (apply backoff_mono; [done | lia]).
  change (watchdog_backoff 6) with (sec 600) in *. lia.
Qed.

(** The wait after an attempt, the first being number 1. *)
Definition wait (n : Z) : Z :=
  sec (if n =? 1 then 20 else if n =? 2 then 40 else if n =? 3 then 80 else if n =? 4 then 160 else if n =? 5 then 320 else 600).
Lemma watchdog_wait n : 1 <= n -> watchdog_backoff n = wait n.
Proof.
  intros H. destruct (Z.le_gt_cases 6 n); [|by assert (n = 1 \/ n = 2 \/ n = 3 \/ n = 4 \/ n = 5) as [-> | [-> | [-> | [-> | ->]]]] by lia].
  rewrite watchdog_backoff_capped by done. unfold wait. by rewrite !(proj2 (Z.eqb_neq n _)) by lia.
Qed.

Definition restart_events (fs : list filed) : list filed := filter (fun f => f.1.1 = "xray-restart") fs.

Lemma restart_events_app fs gs : restart_events (app fs gs) = app (restart_events fs) (restart_events gs).
Proof. apply filter_app. Qed.

Section facts.
Context {X : Type}.
Context (in_error : X -> bool) (restart : X -> bool * X) (ready : X -> bool).
Context (reconcile : db -> X -> option bool * (db * X)).
Context (real_through : node -> string -> option string -> bool -> option probe_result).
Context (failover : Z -> db -> X -> (exn + option Z) * (db * X)).

Notation watchdog := (watchdog in_error restart ready).
Notation reconcile_tick := (reconcile_tick reconcile).
Notation tick := (tick in_error restart ready reconcile real_through failover).
Notation ticks := (ticks in_error restart ready reconcile real_through failover).

(** What of the loop's state the parts of a tick leave alone. *)
Definition watch_of (l : loop) := (lp_attempts l, lp_last_ready l, lp_next_restart l, lp_backoff_reported l).
Definition rec_of (l : loop) := (lp_rec_attempts l, lp_next_rec l, lp_rec_reported l).

Lemma reconcile_tick_frame stop now l d x l' dx fs called :
  reconcile_tick stop now l d x = (l', dx, fs, called) ->
  watch_of l' = watch_of l /\ lp_errors_last l' = lp_errors_last l /\ restart_events fs = [].
Proof.
  unfold Liveness.reconcile_tick. repeat case_match; intros [= <- <- <- <-]; repeat split; reflexivity.
Qed.

Lemma watchdog_frame stop now l d x l' dx fs tried :
  watchdog stop now l d x = (l', dx, fs, tried) ->
  rec_of l' = rec_of l /\ lp_errors_last l' = lp_errors_last l.
Proof. unfold Liveness.watchdog. repeat case_match; intros [= <- <- <- <-]; split; reflexivity. Qed.

(** A tick's state is that of its first two steps, the time of the last probe and of the last
    reported error apart; the steps after them file no restart. *)
Lemma tick_parts m l d x :
  exists l1 dx1 f1 called l2 dx2 f2 tried f3,
    reconcile_tick (m_stop m) (m_now m) l d x = (l1, dx1, f1, called)
    /\ watchdog (m_stop m) (m_now m) l1 dx1.1 dx1.2 = (l2, dx2, f2, tried)
    /\ watch_of (t_loop (tick m l d x)) = watch_of l2
    /\ rec_of (t_loop (tick m l d x)) = rec_of l2
    /\ t_filed (tick m l d x) = app f1 (app f2 f3)
    /\ restart_events f3 = []
    /\ t_restarted (tick m l d x) = tried /\ t_reconciled (tick m l d x) = called
    /\ t_pending (tick m l d x) = truthy (get_setting RW_PENDING_KEY d).
Proof.
  unfold Liveness.tick.
  destruct (reconcile_tick _ _ _ _ _) as [[[l1 [d1 x1]] f1] called] eqn:E1.
  destruct (watchdog _ _ _ _ _) as [[[l2 [d2 x2]] f2] tried] eqn:E2.
  exists l1, (d1, x1), f1, called, l2, (d2, x2), f2, tried.
  set (due := _ && _).
  set (p := if due then _ else (l2, d2)).
  assert (Hp : watch_of p.1 = watch_of l2 /\ rec_of p.1 = rec_of l2) by (subst p; destruct due; done).
  destruct p as [l3 d3]; cbn in Hp. destruct Hp as [Hw Hr].
  destruct (m_stop m || _).
  { exists []. rewrite app_nil_r. repeat split; first [exact E2 | apply Hw | apply Hr]. }
  destruct (failover _ _ _) as [[exc|[new|]] [d4 x4]].
  - unfold report_error. destruct (match lp_errors_last l3 with Some _ => _ | None => _ end).
    + exists []. repeat split; first [exact E2 | apply Hw | apply Hr].
    + eexists [_]. repeat split; first [exact E2 | apply Hw | apply Hr].
  - eexists [_]. repeat split; first [exact E2 | apply Hw | apply Hr].
  - exists []. rewrite app_nil_r. repeat split; first [exact E2 | apply Hw | apply Hr].
Qed.

(** ** A crash loop *)

(** A tick of the watchdog while no restart since the loop began has brought xray up: it
    either does nothing, or tries once its delay is over, and the next delay is the one of the
    new attempt, or still the last one when the restart raised.  [pot] counts the restart events still to come. *)
Definition pot (l : loop) : nat :=
  ((if (lp_attempts l =? 0)%Z then 1 else 0) + (if lp_backoff_reported l then 0 else 1))%nat.

Section crashing.
Context (never_ready : forall x, ready (restart x).2 = false).

Lemma watchdog_crash stop now l d x l' dx fs tried :
  lp_last_ready l = 0 -> 0 <= lp_attempts l -> watchdog stop now l d x = (l', dx, fs, tried) ->
  lp_last_ready l' = 0 /\ (length (restart_events fs) + pot l' <= pot l)%nat
  /\ lp_attempts l' = lp_attempts l + (if tried then 1 else 0)
  /\ if tried then lp_next_restart l <= now /\ lp_next_restart l' = (if (restart x).1 then lp_next_restart l else now + wait (lp_attempts l'))
     else lp_next_restart l' = lp_next_restart l.
Proof.
  intros H0 Hn. unfold Liveness.watchdog. rewrite H0. cbn [negb Z.eqb andb].
  destruct stop; [intros [= <- <- <- <-]; split_and!; [done | apply le_n | lia | done] |].
  destruct (in_error x); [| intros [= <- <- <- <-]; split_and!; [done | apply le_n | lia | done]]. cbn [negb].
  destruct (Z.ltb_spec now (lp_next_restart l)); [intros [= <- <- <- <-]; split_and!; [done | apply le_n | lia | done] |].
  assert (watchdog_backoff (lp_attempts l + 1) = wait (lp_attempts l + 1)) as Hw by (apply watchdog_wait; lia).
  specialize (never_ready x). destruct (restart x) as [raised x']; cbn in never_ready. cbn [fst].
  destruct raised.
  { intros [= <- <- <- <-]. unfold pot. cbn [with_watch lp_last_ready lp_attempts lp_next_restart lp_backoff_reported].
    split_and!; [done | | lia | lia | done]. rewrite (proj2 (Z.eqb_neq (lp_attempts l + 1) 0)) by lia. change (length (restart_events [])) with 0%nat. lia. }
  rewrite never_ready. cbn [negb andb].
  destruct (Z.eqb_spec (lp_attempts l + 1) 1) as [He|He];
    [| destruct (_ && _) eqn:Er]; intros [= <- <- <- <-]; unfold pot; cbn [with_watch lp_last_ready lp_attempts lp_next_restart lp_backoff_reported];
    (split_and!; [done | | lia | lia | by rewrite Hw]).
  - replace (lp_attempts l) with 0 by lia. change (length (restart_events _)) with 1%nat.
    change (0 + 1 =? 0) with false. destruct (lp_backoff_reported l); cbn; lia.
  - destruct (lp_backoff_reported l); [rewrite andb_false_r in Er; done |].
    rewrite (proj2 (Z.eqb_neq (lp_attempts l + 1) 0)) by lia.
    change (length (restart_events _)) with 1%nat. lia.
  - rewrite (proj2 (Z.eqb_neq (lp_attempts l + 1) 0)) by lia.
    change (length (restart_events [])) with 0%nat. lia.
Qed.

(** The supervisor as the watchdog of a tick finds it. *)
Definition found (m : moment) (l : loop) (d : db) (x : X) : X := (reconcile_tick (m_stop m) (m_now m) l d x).1.1.2.2.

Lemma tick_crash m l d x :
  lp_last_ready l = 0 -> 0 <= lp_attempts l ->
  let t := tick m l d x in
  lp_last_ready (t_loop t) = 0 /\ (length (restart_events (t_filed t)) + pot (t_loop t) <= pot l)%nat
  /\ lp_attempts (t_loop t) = lp_attempts l + (if t_restarted t then 1 else 0)
  /\ if t_restarted t
     then lp_next_restart l <= m_now m /\
          lp_next_restart (t_loop t) = (if (restart (found m l d x)).1 then lp_next_restart l else m_now m + wait (lp_attempts (t_loop t)))
     else lp_next_restart (t_loop t) = lp_next_restart l.
Proof.
  intros H0 Hn t.
  destruct (tick_parts m l d x) as (l1 & [d1 x1] & f1 & called & l2 & dx2 & f2 & tried & f3 & E1 & E2 & Hw & _ & Hf & Hf3 & Ht & _ & _).
  fold t in Hw, Hf, Ht. assert (found m l d x = x1) as -> by (unfold found; by rewrite E1).
  apply reconcile_tick_frame in E1 as (Hw1 & _ & Hf1).
  injection Hw as Ha Hr Hx Hb. injection Hw1 as Ha1 Hr1 Hx1 Hb1.
  apply watchdog_crash in E2 as (G1 & G2 & G3 & G4); [| lia | lia]. cbn [snd] in G4.
  rewrite Hf, !restart_events_app, Hf1, Hf3, app_nil_r, Ht. unfold pot in *. cbn [app].
  rewrite Ha1, Hb1 in G2. rewrite Ha, Hb, Hr, Hx. rewrite Ha1 in G3. rewrite Hx1 in G4.
  split_and!; [lia | exact G2 | exact G3 | exact G4].
Qed.

(** When the watchdog tried to restart xray, and whether the attempt raised. *)
Fixpoint restart_log (ms : list (moment * (db * X -> db * X))) (l : loop) (d : db) (x : X) : list (Z * bool) :=
  match ms with
  | [] => []
  | (m, between) :: ms =>
      let t := tick m l d x in
      let '(d', x') := between (t_db t, t_sup t) in
      app (if t_restarted t then [(m_now m, (restart (found m l d x)).1)] else []) (restart_log ms (t_loop t) d' x')
  end.

(** The [n]-th attempt comes at [earliest] or later, and the ones after it are apart by the waits; an attempt
    that raised adds none. *)
Fixpoint spaced (n : Z) (earliest : Z) (log : list (Z * bool)) : Prop :=
  match log with
  | [] => True
  | (t, raised) :: log => earliest <= t /\ spaced (n + 1) (if raised then earliest else t + wait n) log
  end.

Lemma crash_run ms l d x :
  lp_last_ready l = 0 -> 0 <= lp_attempts l ->
  (length (restart_events (concat (map t_filed (ticks ms l d x)))) <= pot l)%nat
  /\ spaced (lp_attempts l + 1) (lp_next_restart l) (restart_log ms l d x).
Proof.
  revert l d x. induction ms as [|[m between] ms IH]; intros l d x H0 Hn; [cbn; split; [lia | done] |].
  cbn [Liveness.ticks restart_log].
  pose proof (tick_crash m l d x H0 Hn) as (G1 & G2 & G3 & G4).
  destruct (between _) as [d' x'].
  specialize (IH (t_loop (tick m l d x)) d' x' G1 ltac:(destruct (t_restarted _); lia)) as [I1 I2].
  cbn [map concat]. rewrite restart_events_app, length_app. split; [lia |].
  destruct (t_restarted (tick m l d x)); cbn [app].
  - destruct G4 as [G4 G5]. rewrite G3 in I2, G5. rewrite G5 in I2. cbn [spaced]. split; [exact G4 | exact I2].
  - rewrite G4, G3, Z.add_0_r in I2. exact I2.
Qed.
End crashing.

(** C27: as long as no restart brings xray up, the loop files at most two events about it, whatever the ticks,
    the rest of the panel and failover do, and retries it on a growing delay: after the first attempt it waits
    20 s, then 40, 80, 160, 320, and from the sixth on ten minutes.  An attempt that raises counts, but is
    followed by no wait of its own. *)
Theorem crash_loop_quiet ms d x (never_ready : forall x, ready (restart x).2 = false) :
  (length (restart_events (concat (map t_filed (ticks ms new_loop d x)))) <= 2)%nat /\ spaced 1 0 (restart_log ms new_loop d x).
Proof. apply (crash_run never_ready ms new_loop d x); done. Qed.

(** ** A pending revocation *)

Lemma reconcile_tick_next stop now l d x l' dx fs called :
  reconcile_tick stop now l d x = (l', dx, fs, called) ->
  lp_next_rec l' <= Z.max (Z.max 0 (lp_next_rec l)) (now + RECONCILE_MAX_BACKOFF)
  /\ (called = false -> lp_next_rec l' <= Z.max 0 (lp_next_rec l))
  /\ (stop = false -> truthy (get_setting RW_PENDING_KEY d) = true -> lp_next_rec l <= now -> called = true).
Proof.
  unfold Liveness.reconcile_tick. pose proof (reconcile_backoff_bounds (lp_rec_attempts l + 1)) as Hb.
  change (sec 600) with RECONCILE_MAX_BACKOFF in Hb.
  destruct stop; [intros [= <- <- <- <-]; split_and!; [lia | lia | done] |].
  destruct (truthy _); [| intros [= <- <- <- <-]; cbn; split_and!; [lia | lia | done]]. cbn [negb].
  destruct (Z.ltb_spec now (lp_next_rec l)); [intros [= <- <- <- <-]; split_and!; [lia | lia | lia] |].
  destruct (reconcile _ x) as [done [d' x']]. intros [= <- <- <- <-].
  destruct done as [[|]|]; cbn; split_and!; first [done | lia].
Qed.

Lemma tick_next m l d x :
  let t := tick m l d x in
  lp_next_rec (t_loop t) <= Z.max (Z.max 0 (lp_next_rec l)) (m_now m + RECONCILE_MAX_BACKOFF)
  /\ (t_reconciled t = false -> lp_next_rec (t_loop t) <= Z.max 0 (lp_next_rec l))
  /\ (m_stop m = false -> t_pending t = true -> lp_next_rec l <= m_now m -> t_reconciled t = true).
Proof.
  intros t.
  destruct (tick_parts m l d x) as (l1 & [d1 x1] & f1 & called & l2 & dx2 & f2 & tried & f3 & E1 & E2 & _ & Hr & _ & _ & _ & Hc & Hp).
  fold t in Hr, Hc, Hp. apply watchdog_frame in E2 as [Hr2 _]. rewrite Hr2 in Hr. injection Hr as _ Hn _.
  rewrite Hn, Hc, Hp. exact (reconcile_tick_next _ _ _ _ _ _ _ _ _ E1).
Qed.

(** From a loop whose delay ends by [c], the marker is not left alone past [c]. *)
Lemma retried_by c ms l d x k t m between :
  0 <= c -> lp_next_rec l <= c ->
  ticks ms l d x !! k = Some t -> ms !! k = Some (m, between) ->
  c <= m_now m -> m_stop m = false -> t_pending t = true ->
  exists k' t', (k' <= k)%nat /\ ticks ms l d x !! k' = Some t' /\ t_reconciled t' = true.
Proof.
  intros H0. revert l d x k. induction ms as [|[m1 b1] ms IH]; intros l d x k Hl Ht Hm Hc Hs Hp; [done |].
  cbn [Liveness.ticks] in *. pose proof (tick_next m1 l d x) as (_ & Hn & Hcall). set (t1 := tick m1 l d x) in *.
  destruct (b1 _) as [d' x']. destruct k as [|k]; cbn in Ht, Hm.
  - injection Ht as <-. injection Hm as -> ->. exists 0%nat, t1. split_and!; [lia | done | apply Hcall; [done | done | lia]].
  - destruct (t_reconciled t1) eqn:E; [exists 0%nat, t1; split_and!; [lia | done | done] |].
    specialize (IH (t_loop t1) d' x' k ltac:(specialize (Hn eq_refl); lia) Ht Hm Hc Hs Hp) as (k' & t' & ? & ? & ?).
    exists (S k'), t'. split_and!; [lia | done | done].
Qed.

(** The state the loop has when tick [i] is over, and the ticks from there on. *)
Lemma ticks_from t0 ms l d x i t m between :
  0 <= t0 -> lp_next_rec l <= t0 + RECONCILE_MAX_BACKOFF -> StronglySorted Z.le (t0 :: map (fun p => m_now p.1) ms) ->
  ticks ms l d x !! i = Some t -> ms !! i = Some (m, between) ->
  lp_next_rec (t_loop t) <= m_now m + RECONCILE_MAX_BACKOFF
  /\ exists d' x', forall k, ticks ms l d x !! (S i + k)%nat = ticks (drop (S i) ms) (t_loop t) d' x' !! k.
Proof.
  revert t0 l d x i. induction ms as [|[m1 b1] ms IH]; intros t0 l d x i H0 Hl Hs Ht Hm; [done |].
  cbn [Liveness.ticks map fst] in *. pose proof (tick_next m1 l d x) as (Hn & _ & _). set (t1 := tick m1 l d x) in *.
  destruct (b1 _) as [d' x'] eqn:Eb. apply StronglySorted_inv in Hs as [Hs Hle]. inversion Hle; subst.
  assert (0 <= RECONCILE_MAX_BACKOFF) by done.
  destruct i as [|i]; cbn in Ht, Hm.
  - injection Ht as <-. injection Hm as -> ->. split; [lia |]. exists d', x'. intros k. reflexivity.
  - destruct (IH (m_now m1) (t_loop t1) d' x' i ltac:(lia) ltac:(lia) Hs Ht Hm) as [G1 (d2 & x2 & G2)].
    split; [exact G1 |]. exists d2, x2. intros k. exact (G2 k).
Qed.

(** C28: once the revocation marker is set, it is not left alone for longer than the cap of the
    retry delay: between a tick and any later one, ten minutes or more apart, that finds the
    marker set, the reconciliation has been called — whatever other threads, failover and
    failed attempts do in between. *)
Theorem pending_retried ms d x i j ti tj mi mj bi bj
  (times : StronglySorted Z.le (0 :: map (fun p => m_now p.1) ms))
  (at_i : ticks ms new_loop d x !! i = Some ti) (mom_i : ms !! i = Some (mi, bi))
  (at_j : ticks ms new_loop d x !! j = Some tj) (mom_j : ms !! j = Some (mj, bj))
  (later : (i < j)%nat) (apart : m_now mi + sec 600 <= m_now mj)
  (runs : m_stop mj = false) (pending : t_pending tj = true) :
  exists k t, (i < k <= j)%nat /\ ticks ms new_loop d x !! k = Some t /\ t_reconciled t = true.
Proof.
  destruct (ticks_from 0 ms new_loop d x i ti mi bi ltac:(lia) ltac:(done) times at_i mom_i) as [Hn (d' & x' & Hk)].
  assert (Hj : j = (S i + (j - S i))%nat) by lia. rewrite Hj in at_j, mom_j. rewrite Hk in at_j.
  assert (0 <= m_now mi).
  { apply StronglySorted_inv in times as [_ Hle]. rewrite Forall_map, Forall_lookup in Hle. exact (Hle i _ mom_i). }
  change (sec 600) with RECONCILE_MAX_BACKOFF in apart. assert (0 <= RECONCILE_MAX_BACKOFF) by done.
  destruct (retried_by (m_now mi + RECONCILE_MAX_BACKOFF) (drop (S i) ms) (t_loop ti) d' x' (j - S i) tj mj bj)
    as (k & t & ? & Ht & ?); [lia | lia | exact at_j | rewrite lookup_drop; exact mom_j | lia | done | done |].
  exists (S i + k)%nat, t. split_and!; [lia | lia | rewrite Hk; exact Ht | done].
Qed.

(** ** The probe *)

Lemma stmt_cases f d : stmt f d = (inr tt, f d) \/ stmt f d = (inl IntegrityError, d).
Proof. unfold stmt. case_decide; auto. Qed.

(** [d'] is [d] with another health row for node [i]. *)
Definition health_written (i : Z) (d d' : db) : Prop :=
  exists h, d' = set_health h d /\ forall k, k <> i -> h !! k = d_health d !! k.

Lemma health_written_settings i d d' k : health_written i d d' -> get_setting k d' = get_setting k d.
Proof. intros (h & -> & _). reflexivity. Qed.

Lemma update_health_real_written i ok ms ip ip6 t d :
  health_written i d (update_health_real i ok ms ip ip6 t d).2
  \/ update_health_real i ok ms ip ip6 t d = (inl IntegrityError, d).
Proof.
  unfold update_health_real. destruct (stmt_cases (fun d0 => set_health (partial_alter (fun o => Some (real_row i ok ms ip ip6 t o)) i (d_health d0)) d0) d) as [-> | ->]; [left | right; reflexivity].
  eexists. split; [reflexivity |]. intros k Hk. apply lookup_partial_alter_ne. congruence.
Qed.

Lemma record_latency_written i j ms d0 d : health_written i d0 d -> i = j -> health_written i d0 (record_latency j ms d).2.
Proof.
  intros (h & -> & Hh) <-. unfold record_latency, tx.
  match goal with |- context [stmt ?f ?d] => destruct (stmt_cases f d) as [-> | ->] end; cbn [snd].
  - eexists. split; [reflexivity |]. intros k Hk. rewrite lookup_alter_ne by congruence. exact (Hh k Hk).
  - exists h. split; [reflexivity | exact Hh].
Qed.

Lemma still_active_true aid d : still_active aid d = true -> active_id d = inr (Some aid).
Proof. unfold still_active. destruct (active_id d) as [|[i|]]; try done. intros ->%Z.eqb_eq. reflexivity. Qed.

(** a probe's verdict reaches the database only for the node that is active when the probe
    comes back, and never once the loop has been asked to stop: else the database stays as it
    was or as the rest of the panel made it meanwhile. *)
Theorem probe_only_active stop late1 late2 iso during d x :
  let d' := probe_active ready real_through stop late1 late2 iso during d x in
  d' = d \/ d' = during d
  \/ (stop = false /\ late1 = false /\ exists aid,
       active_id d = inr (Some aid) /\ active_id (during d) = inr (Some aid) /\ health_written aid (during d) d').
Proof.
  intros d'. subst d'. unfold probe_active.
  destruct stop; [auto |]. destruct (negb _); [auto |]. cbn [orb].
  destruct (active_id d) as [|[aid|]] eqn:Ea; [auto | | auto].
  destruct (ready x); [| auto]. cbn [negb]. destruct (get_node aid d) as [node|]; [| auto].
  destruct (real_through _ _ _ _) as [[[[ok ms] ip] ip6]|]; [| auto].
  destruct late1; [auto |]. destruct (still_active aid (during d)) eqn:Es; [| auto]. cbn [negb orb].
  apply still_active_true in Es.
  destruct (update_health_real_written aid ok ms ip ip6 iso (during d)) as [Hw | ->]; [| auto].
  destruct (update_health_real _ _ _ _ _ _ _) as [[exc|[]] d2]; cbn [snd] in Hw.
  all: right; right; split_and!; [done | done |]; exists aid; split_and!; [done | done |].
  - exact Hw.
  - destruct ms; [| exact Hw]. destruct (_ && _ && _); [| exact Hw].
    apply record_latency_written; [exact Hw | reflexivity].
Qed.

(** ** Reported errors *)

(** Two errors the loop reports are at least five minutes apart. *)
Lemma errors_apart detail now l t :
  lp_errors_last l = Some t -> now < t + LOOP_ERROR_EVENT_GAP -> report_error detail now l = (l, []).
Proof. intros H Hlt. unfold report_error. rewrite H. destruct (Z.ltb_spec (now - t) LOOP_ERROR_EVENT_GAP); [done | lia]. Qed.
End facts.

(** ** Concrete runs *)

Module LivenessDemo.

Definition calm (t : Z) : moment * (db * Z -> db * Z) := (Moment false false false (sec t) (sec t) id, id).
Definition no_probe (n : node) (u : string) (u6 : option string) (p : bool) : option probe_result := None.
Definition no_failover (t : Z) (d : db) (x : Z) : (exn + option Z) * (db * Z) := (inr None, (d, x)).
Definition never (d : db) (x : Z) : option bool * (db * Z) := (Some false, (d, x)).

(** The supervisor: a counter of restarts. *)
Definition restarted (x : Z) : bool * Z := (false, x + 1).

Definition every (start gap : Z) (n : nat) : list Z := map (fun k => start + gap * Z.of_nat k) (seq 0 n).

(** The third attempt raises. *)
Definition third_raises (x : Z) : bool * Z := (x =? 2, x + 1).
Definition run_log := restart_log (fun _ => true) third_raises (fun _ => false) never no_probe no_failover (map calm (every 100 20 200)) new_loop empty_db 0.
Definition run_ticks := ticks (fun _ => true) third_raises (fun _ => false) never no_probe no_failover (map calm (every 100 20 200)) new_loop empty_db 0.
Example crash_loop_quiet_witness :
  ((length (restart_events (concat (map t_filed run_ticks))) <= 2)%nat /\ spaced 1 0 run_log)
  /\ length (restart_events (concat (map t_filed run_ticks))) = 2%nat
  /\ map (fun t => (Z.quot t.1 1000000, t.2)) run_log =
     [(100, false); (120, false); (160, true); (180, false); (340, false); (660, false); (1260, false); (1860, false); (2460, false); (3060, false); (3660, false)].
Proof.
  split; [| split; vm_compute; reflexivity].
  apply (crash_loop_quiet (fun _ => true) third_raises (fun _ => false) never no_probe no_failover (map calm (every 100 20 200)) empty_db 0);
    reflexivity.
Defined.

(** The first restart brings xray up; every later one leaves it down, again and again: the
    tunnel has been down for the whole run, yet once five minutes have passed since that first
    restart every attempt counts as a new episode. *)
Definition up_once (x : Z) : bool := x =? 1.
Definition before : db := file_event ("connect", "node 1", sec 50) empty_db.

(** the growing delay protects only a loop whose restarts have never succeeded: after one
    that did, five minutes earlier or more, every failed attempt is the first of a new episode,
    retried after 20 s and filed, and forty of them push every other event out of the ring. *)
Theorem escalation_lost :
  let ms := map calm (100 :: every 400 20 40) in
  let ts := ticks (fun _ => true) restarted up_once never no_probe no_failover ms new_loop before 0 in
  length (filter (fun t => t_restarted t = true) ts) = 41%nat /\ length (restart_events (concat (map t_filed ts))) = 41%nat
  /\ map e_kind (recent RECENT_CAP before) = ["connect"]
  /\ (forall t, last ts = Some t -> forallb (fun e => bool_decide (e_kind e = "xray-restart")) (recent RECENT_CAP (t_db t)) = true).
Proof. vm_compute. split_and!; [reflexivity | reflexivity | reflexivity |]. intros t [= <-]. reflexivity. Qed.

Definition pending_db : db := (set_setting RW_PENDING_KEY "1" empty_db).2.

Example pending_retried_witness :
  let ms := map calm (every 100 20 60) in
  let ts := ticks (fun _ => false) restarted up_once never no_probe no_failover ms new_loop pending_db 0 in
  exists k t, (20 < k <= 50)%nat /\ ts !! k = Some t /\ t_reconciled t = true.
Proof.
  set (ms := map calm (every 100 20 60)).
  assert (Hs : StronglySorted Z.le (0 :: map (fun p => m_now p.1) ms)).
  { apply Sorted.Sorted_StronglySorted; [intros ???; lia |].
    subst ms. vm_compute. repeat constructor; discriminate. }
  eapply (pending_retried (fun _ => false) restarted up_once never no_probe no_failover ms pending_db 0 20 50).
  - exact Hs.
  - vm_compute. reflexivity.
  - vm_compute. reflexivity.
  - vm_compute. reflexivity.
  - vm_compute. reflexivity.
  - lia.
  - vm_compute. discriminate.
  - reflexivity.
  - reflexivity.
Defined.
End LivenessDemo.
