(* ===== verification/Service.v ===== *)
(** A subscription refresh ([subs/service.py]): fetch, parse, merge in one transaction, re-apply of
    the live tunnel when its row changed, and the record of how it went.

    A refresh holds the lock of its subscription, but not the store and not [apply_lock] (only the
    re-apply does): other threads of the panel work between its steps.  [others] is what they do,
    any change of the gateway, at the four places where the refresh is not inside a transaction or
    the lock ([meanwhile]).  [fetch_feed] is [fetcher.fetch] ([Fetch.fetch] without its hops), with the text of
    the exception it raises; [class_of] the class of an exception, from its text; [show_exn] and
    [show_apply] the texts of a store exception and of a failed apply. *)
From Stdlib Require Import ZArith Lia Ascii.
From stdpp Require Import base gmap strings list.
From S2P Require Import Prelude PyStr Models Json ConfigFiles Supervisor Config Store Reconcile Plan Enforcement Controller Uri Feed Inject.
Open Scope string_scope.
Open Scope list_scope.
Open Scope Z_scope.

Definition MAX_NODES : nat := 500.
Definition MAX_USERINFO : Z := Z.shiftl 1 60.
Definition MAX_EPOCH : Z := 4102444800.

(** * [Subscription-Userinfo] *)

Notation counters := (list (string * Z)).
Definition bounded_value (key : string) (number : Z) : bool :=
  (0 <=? number) && (number <=? (if bool_decide (key = "expire") then MAX_EPOCH else MAX_USERINFO)).
Definition userinfo_part (values : counters) (part : string) : counters :=
  let '(key, _, value) := partition "=" (strip part) in
  let key := lower (strip key) in
  match py_int (strip value) with
  | Some number => if bounded_value key number then kv_set key number values else values
  | None => values
  end.
Definition comma_to_semicolon (s : string) : string := str_map (fun c => if bool_decide (c = ","%char) then ";"%char else c) s.
Definition userinfo_header (values : counters) (header : string * string) : counters :=
  if bool_decide (lower header.1 = "subscription-userinfo") then foldl userinfo_part values (split_on ";"%char (comma_to_semicolon header.2))
  else values.
Definition userinfo_values (hs : headers) : counters := foldl userinfo_header [] hs.
Definition or_kept (key : string) (values : counters) (old : option Z) : option Z :=
  match assoc key values with Some n => Some n | None => old end.
Definition apply_userinfo (sub : subscription) (hs : headers) : subscription :=
  let values := userinfo_values hs in
  Subscription (s_id sub) (s_name sub) (s_url sub) (s_injection sub) (s_interval_sec sub) (s_enabled sub) (s_default_profile_id sub)
    (s_last_fetched sub) (s_last_status sub) (s_last_path sub) (s_last_error sub)
    (or_kept "upload" values (s_up_bytes sub)) (or_kept "download" values (s_down_bytes sub)) (or_kept "total" values (s_total_bytes sub))
    (or_kept "expire" values (s_expire_at sub)) (s_last_skipped sub).

(** The columns a refresh sets. *)
Definition with_refresh (fetched : option Z) (status path error : option string) (skipped : skips) (sub : subscription) : subscription :=
  Subscription (s_id sub) (s_name sub) (s_url sub) (s_injection sub) (s_interval_sec sub) (s_enabled sub) (s_default_profile_id sub)
    fetched status path error (s_up_bytes sub) (s_down_bytes sub) (s_total_bytes sub) (s_expire_at sub) skipped.

(** [" ".join(s.split())], at most 120 characters. *)
Definition words (s : string) : list string := filter (fun w => w <> "") (split_char is_space s).
Definition ELLIPSIS : string := String "226" (String "128" (String "166" "")).
Definition short (text : string) : string :=
  let s := join " " (words text) in
  if (String.length s <=? 120)%nat then s else str_take 119 s +:+ ELLIPSIS.

(** * Outcomes *)

(** What leaves the [try]: an exception of the fetch or the parser, of the store or raised on
    purpose ([exn]), a refused downgrade with the counts of the merge. *)
Inductive raised :=
  | FeedRaised (text : string)
  | StoreRaises (e : exn)
  | FeedDowngradeRefused (text : string) (counts : outcome).

Record result := Result {
  rr_ok : bool;
  rr_status : string;
  rr_error : option string;
  rr_added : Z;
  rr_updated : Z;
  rr_removed : Z;
  rr_path : string;
  rr_capped : bool;
  rr_skipped : skips
}.
Definition failure_result (status error : string) (counts : option outcome) (path : string) : result :=
  Result false status (Some error) (from_option o_added 0 counts) (from_option o_updated 0 counts) (from_option o_removed 0 counts) path false [].
Definition unusable (error : string) : result := failure_result ("error: " +:+ error) error None "direct".

(** What [_restart_active] returns besides [None]. *)
Inductive restarted := Refused (old new : string) | Ran (r : apply_result).
Definition restarted_ok (r : restarted) : bool := match r with Refused _ _ => false | Ran r => result_ok r end.

(** What it decides to do: nothing, refuse, or apply a node and then drop the one that vanished. *)
Inductive decision := LeaveAlone | Refuse (old new : string) | ApplyNode (n : node) (drop : option Z).

Definition get_opt (i : option Z) (d : db) : option node := match i with Some i => get_node i d | None => None end.

Record others (H : Type) := Others {
  during_fetch : gateway H -> gateway H;
  before_apply : gateway H -> gateway H;
  before_restore : gateway H -> gateway H;
  before_persist : gateway H -> gateway H
}.
Arguments Others {H}.
Arguments during_fetch {H}.
Arguments before_apply {H}.
Arguments before_restore {H}.
Arguments before_persist {H}.

Definition meanwhile {H} (f : gateway H -> gateway H) (h : hist H) : hist H := push (f h.1) h.

(** * Deciding on the live tunnel *)

Definition auto_switch_allowed (active_id : option Z) (replacement : Z) (d : db) : bool :=
  if negb (bool_decide ((get_setting "subs_auto_switch" d or "1") = "1")) then false
  else match get_opt active_id d, get_node replacement d with
       | Some old, Some new => security_kept (Some old) (Some new)
       | _, new => bool_decide (is_Some new)
       end.
(** [_restart_active] up to its apply, as one reads the store under [apply_lock]. *)
Definition in_place (active_id : option Z) (counts : outcome) (old_active : option node) (d : db) : decision :=
  if o_active_changed counts then
    match get_opt active_id d with
    | None => LeaveAlone
    | Some n => if security_kept old_active (Some n) then ApplyNode n None
                else Refuse (from_option n_security "" old_active) (n_security n)
    end
  else LeaveAlone.
Definition decide_restart (active_id : option Z) (counts : outcome) (old_active : option node) (d : db) : decision :=
  if negb (bool_decide (node_id_of (get_setting "active_node_id" d) = active_id)) then LeaveAlone
  else match o_active_replacement counts with
       | Some replacement =>
           if auto_switch_allowed active_id replacement d then
             match get_node replacement d with
             | Some n => ApplyNode n active_id
             | None => in_place active_id counts old_active d
             end
           else in_place active_id counts old_active d
       | None => in_place active_id counts old_active d
       end.

(** * The merge *)

Section merge.
Context (digest : list identity_t -> string).
Definition merge_block (i : Z) (url : string) (injection : json) (parsed : list node) : M (subscription * option Z * option node * outcome) :=
  tx (latest <- mget (get_subscription i) ;;
      match latest with
      | None => mraise (RuntimeError "subscription was deleted during refresh")
      | Some current =>
          if negb (bool_decide (s_url current = url)) || negb (bool_decide (s_injection current = injection)) then
            mraise (RuntimeError "subscription changed during fetch; refresh again")
          else
            active_id <- mget (fun d => node_id_of (get_setting "active_node_id" d)) ;;
            old_active <- mget (get_opt active_id) ;;
            counts <- reconcile digest i active_id (s_default_profile_id current) parsed ;;
            mret (current, active_id, old_active, counts)
      end).
End merge.

Section service.
Context `{NetHost H}.
Context (s : settings).
Context (xray : json -> test_result).
Context (config_digest : json -> string).
Context (json_loads : string -> option json) (yaml_load : string -> string + json).
Context (digest : list identity_t -> string).
Context (fetch_feed : string -> json -> headers -> option string -> string + (string * string * headers)).
Context (tokens_of : Z -> headers).
Context (class_of : string -> string) (show_exn : exn -> string) (class_exn : exn -> string) (show_apply : apply_result -> string).

Definition show_raised (e : raised) : string :=
  match e with FeedRaised t => t | StoreRaises e => show_exn e | FeedDowngradeRefused t _ => t end.
Definition class_raised (e : raised) : string :=
  match e with FeedRaised t => class_of t | StoreRaises e => class_exn e | FeedDowngradeRefused _ _ => "FeedDowngradeRefused" end.
Definition counts_of (e : raised) : option outcome := match e with FeedDowngradeRefused _ c => Some c | _ => None end.

Definition tunnel_proxy (h : hist H) : option string * hist H :=
  if bool_decide (get_setting "tunneled_fetch" (g_db h.1) = Some "0") then (None, h)
  else
    let '(st, u) := status (g_sup h.1) in
    let h := put_sup u h in
    if negb (st_running st) then (None, h)
    else if negb (truthy (get_setting "active_node_id" (g_db h.1))) then (None, h)
    else (Some ("http://127.0.0.1:" +:+ str_int (c_local_proxy_port s)), h).

(** [_restart_active], one critical section of [apply_lock]. *)
Definition restart_active (active_id : option Z) (counts : outcome) (old_active : option node) (o : outside) (h : hist H)
    : (exn + option restarted) * hist H :=
  match decide_restart active_id counts old_active (g_db h.1) with
  | LeaveAlone => (inr None, h)
  | Refuse old new => (inr (Some (Refused old new)), h)
  | ApplyNode n drop =>
      match apply_node s xray config_digest json_loads n false o h with
      | (inl e, h) => (inl e, h)
      | (inr r, h) =>
          match drop with
          | Some i => if result_ok r then
                        match run_db (delete_node i) h with (inl e, h) => (inl e, h) | (inr _, h) => (inr (Some (Ran r)), h) end
                      else (inr (Some (Ran r)), h)
          | None => (inr (Some (Ran r)), h)
          end
      end
  end.
Definition show_restarted (r : restarted) : string :=
  match r with
  | Refused old new => "refusing a feed-driven security downgrade of the active node: " +:+ old +:+ " -> " +:+ new
  | Ran r => show_apply r
  end.

(** What the [try] leaves: the subscription in memory and a result, or an exception. *)
Notation attempt := (subscription * string * (raised + (outcome * bool * skips * headers)))%type.
(** The part after the merge: the re-apply, and the old row back when it failed. *)
Definition follow_up (current : subscription) (active_id : option Z) (old_active : option node) (counts : outcome) (w : others H) (o : outside)
    (h : hist H) : (raised + unit) * hist H :=
  match o_active_downgrade counts with
  | Some (stored, offered) =>
      (inl (FeedDowngradeRefused ("refusing the feed's security downgrade of the active node (" +:+ stored +:+ " -> " +:+ offered +:+
              "); the stored node was left unchanged") counts), h)
  | None =>
      match restart_active active_id counts old_active o (meanwhile (before_apply w) h) with
      | (inl e, h) => (inl (StoreRaises e), h)
      | (inr None, h) => (inr tt, h)
      | (inr (Some applied), h) =>
          if restarted_ok applied then (inr tt, h)
          else
            let h := meanwhile (before_restore w) h in
            match old_active with
            | Some n =>
                if bool_decide (n_subscription_id n = s_id current) then
                  match run_db (update_node n) h with
                  | (inl e, h) => (inl (StoreRaises e), h)
                  | (inr _, h) => (inl (StoreRaises (RuntimeError (show_restarted applied))), h)
                  end
                else (inl (StoreRaises (RuntimeError (show_restarted applied))), h)
            | None => (inl (StoreRaises (RuntimeError (show_restarted applied))), h)
            end
      end
  end.
Definition attempt_refresh (i : Z) (current : subscription) (proxy : option string) (w : others H) (o : outside) (h : hist H) : attempt * hist H :=
  let path := match proxy with Some _ => "tunnel" | None => "direct" end in
  let got := fetch_feed (s_url current) (s_injection current) (tokens_of i) proxy in
  let h := meanwhile (during_fetch w) h in
  match got with
  | inl e => ((current, path, inl (FeedRaised e)), h)
  | inr (body, path, hs) =>
      match parse_subscription json_loads yaml_load body (Some (S MAX_NODES)) with
      | inl e => ((current, path, inl (FeedRaised e)), h)
      | inr ([], _) => ((current, path, inl (StoreRaises (ValueError "zero valid nodes in subscription response"))), h)
      | inr (parsed, dropped) =>
          let capped := (MAX_NODES <? length parsed)%nat in
          match run_db (merge_block digest i (s_url current) (s_injection current) (take MAX_NODES parsed)) h with
          | (inl e, h) => ((default current (get_subscription i (g_db h.1)), path, inl (StoreRaises e)), h)
          | (inr (current, active_id, old_active, counts), h) =>
              match follow_up current active_id old_active counts w o h with
              | (inl e, h) => ((current, path, inl e), h)
              | (inr _, h) => ((apply_userinfo current hs, path, inr (counts, capped, dropped, hs)), h)
              end
          end
      end
  end.

Definition ok_status (counts : outcome) (capped : bool) (dropped : skips) : string :=
  let bad := foldr Z.add 0 dropped.*2 in
  "ok: +" +:+ str_int (o_added counts) +:+ " ~" +:+ str_int (o_updated counts) +:+ " -" +:+ str_int (o_removed counts) +:+
  (if capped then " (capped at 500)" else "") +:+
  (if o_skipped_deletes counts =? 0 then "" else " (" +:+ str_int (o_skipped_deletes counts) +:+ " stale pending confirmation)") +:+
  (if bad =? 0 then "" else " (" +:+ str_int bad +:+ " unsupported)").
(** The row and the answer an attempt ends with. *)
Definition conclude (now : Z) (a : attempt) : subscription * result * bool :=
  match a with
  | (current, path, inr (counts, capped, dropped, _)) =>
      let status := ok_status counts capped dropped in
      (with_refresh (Some now) (Some status) (Some path) None dropped current,
       Result true status None (o_added counts) (o_updated counts) (o_removed counts) path capped dropped, true)
  | (current, path, inl e) =>
      let status := "error: " +:+ short (show_raised e) in
      (with_refresh (s_last_fetched current) (Some status) (Some path) (Some (class_raised e +:+ ": " +:+ show_raised e)) (s_last_skipped current) current,
       failure_result status (show_raised e) (counts_of e) path, false)
  end.
Definition refresh (sub : option Z) (w : others H) (o : outside) (h : hist H) : result * hist H :=
  match sub with
  | None => (unusable "subscription is not persisted", h)
  | Some i =>
      match get_subscription i (g_db h.1) with
      | None => (unusable "subscription was deleted", h)
      | Some current =>
          let '(proxy, h) := tunnel_proxy h in
          let '(a, h) := attempt_refresh i current proxy w o h in
          let '(row, answer, success) := conclude (o_now o) a in
          match run_db (update_subscription_refresh row success) (meanwhile (before_persist w) h) with
          | (inr _, h) => (answer, h)
          | (inl e, h) =>
              (Result false ("error: " +:+ short (show_exn e)) (Some (show_exn e)) (rr_added answer) (rr_updated answer) (rr_removed answer)
                 (rr_path answer) (rr_capped answer) (rr_skipped answer), h)
          end
      end
  end.
End service.
