(* ===== verification/ServiceProps.v ===== *)
(** What a refresh may do to the box: a failed one costs nothing, the live tunnel is touched only for
    the node the merge was made for and never weakened, a failed re-apply leaves the stored node as
    it was, and the quota a provider reports stays within its bounds. *)
From Stdlib Require Import ZArith Lia Ascii.
From stdpp Require Import base gmap strings list fin_maps.
From S2P Require Import Prelude PyStr Models Json Store StoreFacts Reconcile ReconcileProps ConfigFiles Supervisor Config Plan Enforcement EnforcementProps Uri Feed FeedProps Inject Controller ControllerProps Service.
Open Scope string_scope.
Open Scope list_scope.
Open Scope Z_scope.

(** * Quota *)

(** A value of the header. *)
Definition in_bounds (kv : string * Z) : Prop := 0 <= kv.2 <= (if bool_decide (kv.1 = "expire") then MAX_EPOCH else MAX_USERINFO).
Lemma userinfo_part_bounds values part : Forall in_bounds values -> Forall in_bounds (userinfo_part values part).
Proof.
  intros Hv. unfold userinfo_part. destruct (partition "=" (strip part)) as [[key b] value]. cbv zeta. destruct (py_int _) as [n|]; [|done].
  destruct (bounded_value (lower (strip key)) n) eqn:Eb; [|done]. apply andb_true_iff in Eb as [E1%Z.leb_le E2%Z.leb_le].
  apply Forall_forall. intros kv [[Ev Ek]|Hin]%kv_set_keys; [|by eapply Forall_forall in Hv]. unfold in_bounds. rewrite Ek, Ev. done.
Qed.
Lemma foldl_forall {A} (P : string * Z -> Prop) (f : list (string * Z) -> A -> list (string * Z)) l :
  (forall v a, Forall P v -> Forall P (f v a)) -> forall v, Forall P v -> Forall P (foldl f v l).
Proof. intros Hf. induction l as [|a l IH]; intros v Hv; cbn; [done|]. apply IH, Hf, Hv. Qed.
Lemma assoc_in {V} k (l : list (string * V)) v : assoc k l = Some v -> (k, v) ∈ l.
Proof. induction l as [|[k' v'] l IH]; cbn; [done|]. case_decide; [intros [= ->]; subst; by left|intros ?%IH; by right]. Qed.
Lemma or_kept_bounds key values old v : Forall in_bounds values -> or_kept key values old = Some v -> old = Some v \/ in_bounds (key, v).
Proof.
  intros Hv. unfold or_kept. destruct (assoc key values) as [n|] eqn:E; [|by left]. intros [= ->]. right. apply assoc_in in E. by eapply Forall_forall in Hv.
Qed.
(** What the operator configured of a subscription. *)
Definition config_of (x : subscription) : option Z * string * string * json * Z * bool * option Z :=
  (s_id x, s_name x, s_url x, s_injection x, s_interval_sec x, s_enabled x, s_default_profile_id x).

(** whatever the headers of a feed say, every quota and expiry a refresh puts into the
    subscription is one it already had, or a number between zero and 2^60 bytes, an epoch up to the
    year 2100 for the expiry; what the operator configured does not change. *)
Theorem userinfo_bounded sub hs :
  let sub' := apply_userinfo sub hs in
  config_of sub' = config_of sub /\
  (forall v, s_up_bytes sub' = Some v -> s_up_bytes sub = Some v \/ 0 <= v <= MAX_USERINFO) /\
  (forall v, s_down_bytes sub' = Some v -> s_down_bytes sub = Some v \/ 0 <= v <= MAX_USERINFO) /\
  (forall v, s_total_bytes sub' = Some v -> s_total_bytes sub = Some v \/ 0 <= v <= MAX_USERINFO) /\
  (forall v, s_expire_at sub' = Some v -> s_expire_at sub = Some v \/ 0 <= v <= MAX_EPOCH).
Proof.
  assert (Forall in_bounds (userinfo_values hs)) as Hv.
  { apply foldl_forall; [|done]. intros v h Hv. unfold userinfo_header. case_bool_decide; [|done]. apply foldl_forall; [|done]. intros. by apply userinfo_part_bounds. }
  split; [done|]. split_and!; intros v H; cbn in H; apply (or_kept_bounds _ _ _ _ Hv) in H as [H|H]; auto.
Qed.

(** * The live tunnel *)

Section service.
Context `{NetHost H}.
Context (s : settings) (xray : json -> test_result) (config_digest : json -> string).
Context (json_loads : string -> option json) (yaml_load : string -> string + json) (digest : list identity_t -> string).
Context (fetch_feed : string -> json -> headers -> option string -> string + (string * string * headers)) (tokens_of : Z -> headers).
Context (class_of : string -> string) (show_exn : exn -> string) (class_exn : exn -> string) (show_apply : apply_result -> string).
Notation restart_active := (restart_active s xray config_digest json_loads).
Notation apply_node := (apply_node s xray config_digest json_loads).
Notation follow_up := (follow_up s xray config_digest json_loads show_apply).
Notation refresh := (refresh s xray config_digest json_loads yaml_load digest fetch_feed tokens_of class_of show_exn class_exn show_apply).

(** C15: the only nodes a refresh ever brings up are the active one, still active, when the merge
    changed its row and its transport security is no weaker than before the merge; and, when the
    operator left the automatic switch on, the one server left of a feed the active one vanished
    from, no weaker than the row of the active one.  In every other case, a tunnel moved by a
    failover in between first of all, the gateway is left exactly as it is. *)
Theorem restart_guarded active_id counts old_active o (h : hist H) r h' : restart_active active_id counts old_active o h = (r, h') ->
  (h' = h /\ forall a, r <> inr (Some (Ran a))) \/
  exists n rn hn, apply_node n false o h = (rn, hn) /\ node_id_of (get_setting "active_node_id" (g_db h.1)) = active_id /\
    ((h' = hn /\ o_active_changed counts = true /\ get_opt active_id (g_db h.1) = Some n /\ security_kept old_active (Some n) = true) \/
     (exists j, o_active_replacement counts = Some j /\ get_node j (g_db h.1) = Some n /\
        get_setting "subs_auto_switch" (g_db h.1) or "1" = "1" /\ security_kept (get_opt active_id (g_db h.1)) (Some n) = true /\
        (h' = hn \/ rn = inr Applied /\ exists a, active_id = Some a /\ h' = (run_db (delete_node a) hn).2))).
Proof.
  unfold Service.restart_active. set (d := g_db h.1).
  assert (match decide_restart active_id counts old_active d with
    | ApplyNode n drop => node_id_of (get_setting "active_node_id" d) = active_id /\
        ((drop = None /\ o_active_changed counts = true /\ get_opt active_id d = Some n /\ security_kept old_active (Some n) = true) \/
         (drop = active_id /\ exists j, o_active_replacement counts = Some j /\ get_node j d = Some n /\
            get_setting "subs_auto_switch" d or "1" = "1" /\ security_kept (get_opt active_id d) (Some n) = true))
    | _ => True end) as Hd.
  { unfold decide_restart. case_bool_decide as Ha; cbn [negb]; [|done].
    assert (match in_place active_id counts old_active d with ApplyNode n drop => drop = None /\ o_active_changed counts = true /\
        get_opt active_id d = Some n /\ security_kept old_active (Some n) = true | _ => True end) as Hip.
    { unfold in_place. destruct (o_active_changed counts); [|done]. destruct (get_opt active_id d) as [n|]; [|done]. by destruct (security_kept old_active (Some n)) eqn:E. }
    assert (match in_place active_id counts old_active d with ApplyNode n drop => node_id_of (get_setting "active_node_id" d) = active_id /\
        ((drop = None /\ o_active_changed counts = true /\ get_opt active_id d = Some n /\ security_kept old_active (Some n) = true) \/
         (drop = active_id /\ exists j, o_active_replacement counts = Some j /\ get_node j d = Some n /\
            get_setting "subs_auto_switch" d or "1" = "1" /\ security_kept (get_opt active_id d) (Some n) = true)) | _ => True end) as Hin
      by (destruct (in_place active_id counts old_active d); auto).
    destruct (o_active_replacement counts) as [j|] eqn:Ej; [|done]. destruct (auto_switch_allowed active_id j d) eqn:Es; [|done].
    destruct (get_node j d) as [n|] eqn:En; [|done]. split; [done|]. right. split; [done|]. exists j. split_and!; try done.
    - unfold auto_switch_allowed in Es. by case_bool_decide.
    - unfold auto_switch_allowed in Es. case_bool_decide; [|done]. cbn [negb] in Es. rewrite En in Es. by destruct (get_opt active_id d). }
  destruct (decide_restart active_id counts old_active d) as [|old new|n drop]; [intros [= <- <-]; by left..|].
  destruct Hd as [Ha Hcase]. destruct (apply_node n false o h) as [rn hn] eqn:Ea. intros E. right. exists n, rn, hn. split; [done|]. split; [done|].
  destruct Hcase as [(-> & H1 & H2 & H3) | (-> & j & H1 & H2 & H3 & H4)].
  - left. split_and!; try done. by destruct rn; injection E as <- <-.
  - right. exists j. split_and!; try done. destruct rn as [e|a]; [injection E as <- <-; by left|].
    destruct active_id as [i|]; [|injection E as <- <-; by left]. destruct (result_ok a) eqn:Eok; [|injection E as <- <-; by left].
    right. split; [by destruct a|]. exists i. split; [done|]. destruct (run_db (delete_node i) hn) as [[|] hd]; by injection E as <- <-.
Qed.

(** ** A refresh that fails before the merge *)

(** The quota and the skip counts of a row. *)
Definition quota_of (x : subscription) := (s_up_bytes x, s_down_bytes x, s_total_bytes x, s_expire_at x, s_last_skipped x).
(** Two gateways that differ in how the last refresh of subscription [i] went, if at all: status, path and
    error.  Its quota and skip counts are those of [current]. *)
Definition only_status (i : Z) (current : subscription) (g g' : gateway H) : Prop :=
  g_disk g' = g_disk g /\ g_sup g' = g_sup g /\ g_net g' = g_net g /\
  (g_db g' = g_db g \/
   exists f, g_db g' = set_subs (alter f i (d_subs (g_db g))) (d_sub_seq (g_db g)) (g_db g) /\
     forall x, s_id x = Some i -> config_of (f x) = config_of x /\ s_last_fetched (f x) = s_last_fetched x /\ quota_of (f x) = quota_of current).
Lemma status_written i current (row : subscription) (h : hist H) r h' : s_id row = Some i -> quota_of row = quota_of current ->
  run_db (update_subscription_refresh row false) h = (r, h') -> only_status i current h.1 h'.1.
Proof.
  intros Hi Hq. unfold run_db, update_subscription_refresh. rewrite Hi. unfold stmt. case_decide; intros [= _ <-]; (do 3 (split; [done|])); [right|left].
  - eexists. split; [done|]. intros x Hx. cbn. unfold config_of. cbn. by rewrite Hx.
  - by destruct h as [[db k u x] past].
Qed.
(** What [tunnel_proxy] leaves: the supervisor asked for its status. *)
Lemma tunnel_proxy_gateway (h : hist H) proxy h' : tunnel_proxy s h = (proxy, h') -> g_db h'.1 = g_db h.1 /\ g_disk h'.1 = g_disk h.1 /\ g_net h'.1 = g_net h.1 /\
  (g_sup h'.1 = g_sup h.1 \/ g_sup h'.1 = (status (g_sup h.1)).2).
Proof.
  unfold tunnel_proxy. case_bool_decide; [intros [= _ <-]; auto|]. destruct (status (g_sup h.1)) as [st u]. cbv zeta.
  repeat case_match; intros [= _ <-]; auto.
Qed.
Lemma conclude_failed now sub path e : let '(row, answer, success) := conclude class_of show_exn class_exn now (sub, path, inl e) in
  quota_of row = quota_of sub /\ s_id row = s_id sub /\ rr_ok answer = false /\ success = false.
Proof. done. Qed.

(** C16: a fetch that fails, an answer that cannot be parsed or holds no node costs nothing: the
    refresh is reported failed, and beside what other threads did meanwhile only the status, the path and
    the error of that subscription have changed: not the time of the last success, and its quota (bytes,
    total, expiry) and skip counts are those the refresh read when it began. *)
Theorem failed_fetch_costs_nothing i current w o (h : hist H) res h' :
  get_subscription i (g_db h.1) = Some current -> s_id current = Some i ->
  (forall proxy, match fetch_feed (s_url current) (s_injection current) (tokens_of i) proxy with
     | inl _ => True
     | inr (body, _, _) => match parse_subscription json_loads yaml_load body (Some (S MAX_NODES)) with inr (_ :: _, _) => False | _ => True end
     end) ->
  refresh (Some i) w o h = (res, h') ->
  rr_ok res = false /\
  exists g u, (u = g_sup h.1 \/ u = (status (g_sup h.1)).2) /\
    g = before_persist w (during_fetch w (Gateway (g_db h.1) (g_disk h.1) u (g_net h.1))) /\ only_status i current g h'.1.
Proof.
  intros Hsub Hi Hfail. unfold Service.refresh. rewrite Hsub. destruct (tunnel_proxy s h) as [proxy h1] eqn:Et.
  apply tunnel_proxy_gateway in Et as (Ed & Ek & En & Eu). specialize (Hfail proxy).
  assert (exists path e, attempt_refresh s xray config_digest json_loads yaml_load digest fetch_feed tokens_of show_apply i current proxy w o h1 =
    ((current, path, inl e), meanwhile (during_fetch w) h1)) as (path & e & ->).
  { unfold attempt_refresh. destruct (fetch_feed _ _ _ _) as [e|[[body path] hs]]; [by eexists _, _|].
    destruct (parse_subscription _ _ _ _) as [e|[[|n l] dropped]]; [by eexists _, _..|done]. }
  pose proof (conclude_failed (o_now o) current path e) as Hc. destruct (conclude class_of show_exn class_exn (o_now o) (current, path, inl e)) as [[row answer] success].
  destruct Hc as (Hq & Hid & Hok & ->).
  destruct (run_db _ _) as [r h2] eqn:Er. assert (s_id row = Some i) as Hrow by (by rewrite Hid).
  apply (status_written i current) in Er; [|done|done]. intros E. split.
  - by destruct r; injection E as <- <-.
  - exists (before_persist w (during_fetch w h1.1)), (g_sup h1.1). split; [done|]. split.
    + do 2 f_equal. destruct h1 as [[d k u x] past]. cbn in *. by subst.
    + by destruct r; injection E as <- <-.
Qed.

(** ** A re-apply that fails *)

Lemma wf_settings m d : wf d -> wf (set_settings m d).
Proof. intros [Hc Hr]. split; [by apply constraints_settings|done]. Qed.
(** An apply of a stored node answers, and writes settings only. *)
Lemma apply_settings_only n j irr o (h : hist H) r h' : constraints (g_db h.1) -> n_id n = Some j ->
  Controller.apply_node s xray config_digest json_loads n irr o h = (r, h') -> exists m a, g_db h'.1 = set_settings m (g_db h.1) /\ r = inr a.
Proof.
  intros Hc Hn E. apply apply_node_cases in E as [(Hr & Hh)|(cfg & out & k & f & h1 & _ & _ & Hu & Hf)]; [| |done].
  - assert (g_db h'.1 = g_db h.1) as -> by (by destruct Hh as [->|(k & -> & _)]).
    exists (d_settings (g_db h.1)). destruct Hr as [[e ->]|[out ->]]; eexists; (split; [by destruct (g_db h.1)|done]).
  - apply bring_up_facts in Hu as (Hq & _). pose proof (proj1 Hq) as Eq. cbn in Eq. unfold intended in Eq. rewrite Hn in Eq.
    destruct f as [f|].
    + destruct Hf as (notes & h2 & Hrec & -> & ->). apply recover_facts in Hrec as (Hq2 & _). cbn. rewrite (proj1 Hq2), Eq. eexists _, _. done.
    + destruct (finish_apply_run n j (get_setting "active_node_id" (g_db h.1)) o h1) as (d1 & d2 & E & E1 & E2); [|done|].
      { rewrite Eq. by apply constraints_with. }
      rewrite Hf in E. injection E as -> ->. cbn.
      destruct (mark_active_run j (get_setting "active_node_id" (g_db h.1)) (o_now o) (g_db h1.1)) as (d1' & E1' & ((m1 & ->) & _) & _).
      { rewrite Eq. by apply constraints_with. }
      rewrite E1' in E1. injection E1 as <-.
      destruct (rw_complete_run (set_settings m1 (g_db h1.1))) as (d2' & E2' & ((m2 & ->) & _) & _).
      { apply constraints_settings. rewrite Eq. by apply constraints_with. }
      rewrite E2' in E2. injection E2 as <-. rewrite Eq. eexists _, _. done.
Qed.
Lemma merged_old i url injection parsed (h : hist H) current a old counts h1 :
  run_db (merge_block digest i url injection parsed) h = (inr (current, Some a, Some old, counts), h1) -> get_node a (g_db h.1) = Some old.
Proof.
  unfold run_db, merge_block, tx. unfold mbind at 1, mget at 1. destruct (get_subscription i (g_db h.1)); [|done]. destruct (negb _ || negb _); [done|].
  unfold mbind, mget. cbv beta iota. destruct (reconcile _ _ _ _ _ _) as [[|] d']; [done|]. intros [= _ Ea Eo _ _]. rewrite Ea in Eo. exact Eo.
Qed.
(** Threads that leave the store well formed and the row of node [a] alone. *)
Definition leaves (a : Z) (f : gateway H -> gateway H) : Prop :=
  forall g, wf (g_db g) -> wf (g_db (f g)) /\ d_nodes (g_db (f g)) !! a = d_nodes (g_db g) !! a.

(** The row of the active node after the merge: still there, with its identity, subscription and profile. *)
Lemma merge_keeps_active i url injection parsed (h : hist H) current a old counts h1 r0 : wf (g_db h.1) -> Forall normal parsed -> 0 <= i ->
  run_db (merge_block digest i url injection parsed) h = (inr (current, Some a, Some old, counts), h1) -> d_nodes (g_db h.1) !! a = Some r0 ->
  wf (g_db h1.1) /\ exists r1, d_nodes (g_db h1.1) !! a = Some r1 /\ n_subscription_id r1 = n_subscription_id r0 /\ identity r1 = identity r0 /\
    n_tuning_profile_id r1 = n_tuning_profile_id r0 /\ (n_subscription_id r0 <> Some i -> r1 = r0).
Proof.
  intros Hw Hn Hi E H0'. unfold run_db, merge_block, tx in E. unfold mbind at 1, mget at 1 in E. 
  destruct (get_subscription i (g_db h.1)) as [latest|] eqn:El; [|done]. destruct (negb _ || negb _); [done|].
  unfold mbind, mget in E. cbv beta iota in E.
  set (active := node_id_of (get_setting "active_node_id" (g_db h.1))) in E.
  destruct (reconcile digest i active (s_default_profile_id latest) parsed (g_db h.1)) as [[e|o] d'] eqn:Er; [done|].
  injection E as <- Ea _ <- <-. cbn. assert (ready i (s_default_profile_id latest) parsed (g_db h.1)) as Hr.
  { split; [done|]. split; [done|]. split; [by eexists|]. split; [|done]. destruct Hw as [Hc _]. by apply (proj1 (proj2 (proj2 (proj2 (proj2 Hc)))) i). }
  destruct (reconcile_run digest i active (s_default_profile_id latest) parsed (g_db h.1) Hr) as (o' & d1 & d'' & Er' & Hw' & _ & Hd & Hkept & _).
  rewrite Er' in Er. injection Er as <- <-. split; [done|].
  destruct (Hkept a r0 H0') as (r1 & H1 & (K1 & K2 & K3 & _) & Hother). destruct (d_nodes d'' !! a) as [r|] eqn:Ed.
  - exists r. split; [done|]. assert (n_subscription_id r0 <> Some i -> r = r0) as Hsame.
    { intros Hs. rewrite Hd, sweep_untouched in Ed; [rewrite H1, (Hother Hs) in Ed; by injection Ed as <-|].
      intros n Hin Hid. apply (existing_elem i (g_db h.1) n Hw) in Hin as (j & q & Hj & Hsj & _ & Hq & _). rewrite Hq in Hid. cbn in Hid. congruence. }
    rewrite Hd in Ed. destruct (sweep_back _ _ _ _ _ _ _ _ Ed) as (r1' & E1 & Hsw).
    assert (r1' = r1) as -> by congruence. destruct Hsw as [-> | ->]; (split_and!; [exact K1|exact K2|exact K3|exact Hsame]).
  - exfalso. rewrite Hd in Ed. destruct (sweep_gone _ _ _ _ _ _ _ _ H1 Ed) as (n & Hin & Hid & _ & Hna & _). apply Hna.
    apply (existing_elem i (g_db h.1) n Hw) in Hin as (j & r & _ & _ & _ & Hj & _). rewrite Hj in *. cbn in Hid. congruence.
Qed.

(** A node the restart applies is a row of the store. *)
Lemma decided_stored active_id counts old_active d n drop : decide_restart active_id counts old_active d = ApplyNode n drop -> exists j, n_id n = Some j.
Proof.
  assert (forall i m, get_node i d = Some m -> n_id m = Some i) as Hget.
  { intros i m Hm. unfold get_node in Hm. apply fmap_Some in Hm as (r & _ & ->). unfold row_to_node. by destruct (normalize_owned (with_id (Some i) r)) as [-> _]. }
  assert (in_place active_id counts old_active d = ApplyNode n drop -> exists j, n_id n = Some j) as Hin.
  { unfold in_place. destruct (o_active_changed counts); [|done]. destruct active_id as [i|]; [|done]. cbn [get_opt].
    destruct (get_node i d) as [m|] eqn:E; [|done]. destruct (security_kept _ _); [|done]. intros [= -> _]. eauto. }
  unfold decide_restart. destruct (negb _); [done|]. destruct (o_active_replacement counts) as [i|]; [|done]. destruct (auto_switch_allowed _ _ _); [|done].
  destruct (get_node i d) as [m|] eqn:E; [|done]. intros [= -> _]. eauto.
Qed.
Lemma restart_fails active_id counts old_active o (h : hist H) r h' : wf (g_db h.1) ->
  restart_active active_id counts old_active o h = (r, h') ->
  match r with
  | inl _ => False
  | inr (Some x) => restarted_ok x = false -> exists m, g_db h'.1 = set_settings m (g_db h.1)
  | inr None => True
  end.
Proof.
  intros Hw. unfold Service.restart_active. destruct (decide_restart active_id counts old_active (g_db h.1)) as [|old new|n drop] eqn:Ed.
  - by intros [= <- <-].
  - intros [= <- <-] _. exists (d_settings (g_db h.1)). by destruct (g_db h.1).
  - apply decided_stored in Ed as [j Hj]. destruct (apply_node n false o h) as [rn hn] eqn:Ea.
    apply (apply_settings_only n j) in Ea as (m & a & Em & ->); [|apply Hw|done].
    assert (wf (g_db hn.1)) as Hwn by (rewrite Em; by apply wf_settings).
    destruct drop as [i|]; [|intros [= <- <-] _; eauto]. destruct (result_ok a) eqn:Eok; [|intros [= <- <-] _; eauto].
    unfold run_db. destruct (delete_node_ok i (g_db hn.1) Hwn) as (d' & -> & _). intros [= <- <-]. cbn. by rewrite Eok.
Qed.
(** when the re-apply that follows a merge fails, the panel ends with the stored active node it
    had before the merge, as the running tunnel has: whatever else the merge and other threads did,
    provided these leave that row alone. *)
Theorem failed_reapply_restores i url injection parsed (h : hist H) current a old counts h1 w o e h' :
  wf (g_db h.1) -> Forall normal parsed -> 0 <= i -> s_id current = Some i -> leaves a (before_apply w) -> leaves a (before_restore w) ->
  run_db (merge_block digest i url injection parsed) h = (inr (current, Some a, Some old, counts), h1) ->
  o_active_downgrade counts = None ->
  follow_up current (Some a) (Some old) counts w o h1 = (inl e, h') ->
  get_node a (g_db h'.1) = Some old.
Proof.
  intros Hw Hn Hi Hid Ha Hr E Hdown.
  assert (get_node a (g_db h.1) = Some old) as Hold by (by eapply merged_old).
  apply fmap_Some in Hold as (r0 & Hr0 & ->). rewrite (row_to_node_ok (g_db h.1)) in * by (by apply Hw).
  pose proof (proj2 Hw a r0 Hr0) as (Hid0 & Hseq0 & Hpath0).
  destruct (merge_keeps_active _ _ _ _ _ _ _ _ _ _ r0 Hw Hn Hi E Hr0) as (Hw1 & r1 & H1 & K1 & K2 & K3 & K4).
  unfold Service.follow_up. rewrite Hdown. destruct (Ha h1.1 Hw1) as [Hw2 H2]. set (h2 := meanwhile (before_apply w) h1).
  destruct (restart_active (Some a) counts (Some (normalize r0)) o h2) as [r h3] eqn:Er. pose proof (restart_fails (Some a) counts (Some (normalize r0)) o h2 r h3 Hw2 Er) as Hf.
  destruct r as [|[x|]]; [done| |by intros [= ]]. destruct (restarted_ok x); [by intros [= ]|]. destruct (Hf eq_refl) as [m Hm].
  assert (wf (g_db h3.1)) as Hw3 by (rewrite Hm; by apply wf_settings).
  destruct (Hr h3.1 Hw3) as [Hw4 H4].
  assert (d_nodes (g_db (before_restore w h3.1)) !! a = Some r1) as Hrow by (rewrite H4, Hm; cbn; by rewrite H2).
  destruct (normalize_owned r0) as (O1 & O2 & _ & O4 & _). case_bool_decide as Hsub.
  2: { intros [= _ <-]. cbn. unfold get_node. rewrite Hrow, K4 by congruence. cbn. by rewrite (row_to_node_ok (g_db h.1)) by (by apply Hw). }
  set (g4 := before_restore w h3.1) in *.
  assert (wf (set_nodes (<[a := normalize r0]> (d_nodes (g_db g4))) (g_db g4))) as Hw5.
  { eapply update_row_ok; [done|exact Hrow| | | | |].
    - by rewrite O2, K1.
    - by rewrite identity_normalize, K2.
    - by rewrite O4, K3.
    - by rewrite O1.
    - by rewrite (normalize_fixed (normalize r0)) by apply normalize_normal_aux. }
  unfold run_db, update_node. change (g_db (meanwhile (before_restore w) h3).1) with (g_db g4). rewrite O1, Hid0.
  erewrite stmt_eq; [|by rewrite (alter_insert_same _ a r1) by done|apply Hw5]. intros [= _ <-]. cbn. unfold get_node. cbn. rewrite lookup_insert_eq. cbn.
  unfold row_to_node. rewrite with_id_same by (by rewrite O1). by rewrite (normalize_fixed (normalize r0)) by apply normalize_normal_aux.
Qed.
End service.

(** * A box with one subscription *)

Module RefreshDemo.
Import TestHost Switch.

Definition demo_sub : subscription :=
  Subscription (Some 1) "provider" "https://a.example/sub" (JObj []) 3600 true None (Some 5) None None None None None None None [].
Definition demo_row : node := with_owned (Some 1) (Some 1) false 0 None "" (normalize (mk_node "a" "10.0.0.1" 443 "u1")).
Definition demo_db : db :=
  set_settings {[ "active_node_id" := "1" ]}
    (set_node_seq 1 (set_nodes {[ 1 := demo_row ]} (set_subs {[ 1 := demo_sub ]} 1 empty_db))).
Definition demo_box : hist host := (Gateway demo_db (g_disk start_gateway.1) init fresh, []).
Definition demo_digest (l : list identity_t) : string := "digest".
Definition no_json (_ : string) : option json := None.
Definition no_yaml (_ : string) : string + json := inr JNull.
(** The provider now asks for another fingerprint. *)
Definition demo_feed : list node :=
  match parse_subscription no_json no_yaml "vless://u1@10.0.0.1:443?fp=firefox" (Some 501%nat) with inr (l, _) => l | _ => [] end.
Definition quiet_box : others host := Others id id id id.
Definition no_tokens (_ : Z) : headers := [].
Definition down (url : string) (injection : json) (tokens : headers) (proxy : option string) : string + (string * string * headers) := inl "timed out".
Definition text_of (e : exn) : string := "failed".
Definition apply_text (r : apply_result) : string := "apply failed after validation".

Lemma demo_wf : wf demo_db.
Proof. apply (bool_decide_unpack _). by vm_compute. Qed.
Lemma demo_normal : Forall normal demo_feed.
Proof.
  apply Forall_forall. intros n Hn.
  assert (parse_subscription no_json no_yaml "vless://u1@10.0.0.1:443?fp=firefox" (Some 501%nat) = inr (demo_feed, [])) as Hp by (by vm_compute).
  apply parsed_nodes in Hp as [_ Hp]. by apply Hp in Hn as [[? _] _].
Qed.
Definition merged := run_db (merge_block demo_digest 1 "https://a.example/sub" (JObj []) demo_feed) demo_box.
Definition counts : Reconcile.outcome := Reconcile.Outcome 0 1 0 true None 0 None.
Definition old : node := row_to_node 1 demo_row.
Lemma merged_eq : run_db (merge_block demo_digest 1 "https://a.example/sub" (JObj []) demo_feed) demo_box = (inr (demo_sub, Some 1, Some old, counts), merged.2).
Proof. by vm_compute. Qed.
Lemma demo_leaves : leaves 1 (before_apply quiet_box) /\ leaves 1 (before_restore quiet_box).
Proof. done. Qed.

Definition after := follow_up default_settings xray_ok digest0 no_rw apply_text demo_sub (Some 1) (Some old) counts quiet_box stormy merged.2.
Definition why : raised := StoreRaises (RuntimeError "apply failed after validation").
Lemma after_eq : follow_up default_settings xray_ok digest0 no_rw apply_text demo_sub (Some 1) (Some old) counts quiet_box stormy merged.2 = (inl why, after.2).
Proof. by vm_compute. Qed.
(** The row the merge had written, and the one that is there after the failed apply. *)
Lemma merge_wrote : n_fingerprint <$> get_node 1 (g_db merged.2.1) = Some "firefox".
Proof. by vm_compute. Qed.
Lemma failed_reapply_restores_witness : get_node 1 (g_db after.2.1) = Some old.
Proof.
  exact (failed_reapply_restores default_settings xray_ok digest0 no_rw demo_digest apply_text 1 "https://a.example/sub" (JObj []) demo_feed demo_box
    demo_sub 1 old counts merged.2 quiet_box stormy why after.2 demo_wf demo_normal ltac:(lia) eq_refl (proj1 demo_leaves) (proj2 demo_leaves) merged_eq eq_refl after_eq).
Defined.

Definition restarted_run := restart_active default_settings xray_ok digest0 no_rw (Some 1) counts (Some old) calm merged.2.
Lemma restarted_eq : restart_active default_settings xray_ok digest0 no_rw (Some 1) counts (Some old) calm merged.2 = (inr (Some (Ran Applied)), restarted_run.2).
Proof. by vm_compute. Qed.
Lemma restart_guarded_witness : exists n, get_opt (Some 1) (g_db merged.2.1) = Some n /\ security_kept (Some old) (Some n) = true.
Proof.
  destruct (restart_guarded default_settings xray_ok digest0 no_rw (Some 1) counts (Some old) calm merged.2 (inr (Some (Ran Applied))) restarted_run.2 restarted_eq)
    as [[_ Hno] | (n & rn & hn & _ & _ & [(_ & _ & Hn & Hs) | (j & Hj & _)])].
  - destruct (Hno Applied eq_refl).
  - exact (ex_intro _ n (conj Hn Hs)).
  - discriminate Hj.
Defined.

Definition failed_run := refresh default_settings xray_ok digest0 no_json no_yaml demo_digest down no_tokens id text_of text_of apply_text (Some 1) quiet_box calm demo_box.
Lemma failed_eq : refresh default_settings xray_ok digest0 no_json no_yaml demo_digest down no_tokens id text_of text_of apply_text (Some 1) quiet_box calm demo_box =
  (failed_run.1, failed_run.2).
Proof. by vm_compute. Qed.
Lemma demo_sub_there : get_subscription 1 (g_db demo_box.1) = Some demo_sub.
Proof. by vm_compute. Qed.
Lemma failed_fetch_costs_nothing_witness : rr_ok failed_run.1 = false /\
  exists g u, (u = g_sup demo_box.1 \/ u = (status (g_sup demo_box.1)).2) /\
    g = Gateway (g_db demo_box.1) (g_disk demo_box.1) u (g_net demo_box.1) /\ only_status 1 demo_sub g failed_run.2.1.
Proof.
  exact (failed_fetch_costs_nothing default_settings xray_ok digest0 no_json no_yaml demo_digest down no_tokens id text_of text_of apply_text
    1 demo_sub quiet_box calm demo_box failed_run.1 failed_run.2 demo_sub_there eq_refl (fun _ => I) failed_eq).
Defined.
Lemma userinfo_bounded_witness :
  let sub := apply_userinfo demo_sub [("Subscription-Userinfo", "upload=5; download=99999999999999999999, total=10")] in
  s_up_bytes sub = Some 5 /\ s_down_bytes sub = None /\ config_of sub = config_of demo_sub.
Proof.
  split; [by vm_compute|]. split; [by vm_compute|].
  exact (proj1 (userinfo_bounded demo_sub [("Subscription-Userinfo", "upload=5; download=99999999999999999999, total=10")])).
Defined.
End RefreshDemo.
