(* ===== verification/Revocation.v ===== *)
(** The revocation protocol of [api/routes.py]: taking remote access away from the file on
    disk, from the running xray and from the rollback target, and finishing later what
    a failure or a crash interrupted.

    [rw_reconciled] edits a configuration; [rw_write_config] brings the live file in line
    with the store; [rw_start_guard] is the supervisor's start hook, so every start and
    reload here goes through it ([sup_start], [sup_reload]); [rw_revoke] is a revocation
    whose store half is committed, [rw_reconcile_pending] its retry.  The request
    handlers that revoke are at the end.

    The state is the controller's [hist]: the gateway with its past states.  [around] is
    what the outside decides during one call: whether [status()] can be queried, how
    each write ends, what the reload and the stop meet, whether the child exits between
    the sample of its state and the reload.  [apply_lock] is held throughout. *)
From Stdlib Require Import ZArith Lia Ascii.
From stdpp Require Import base gmap strings list.
From S2P Require Import Prelude PyStr Models Json Scrub ConfigFiles Supervisor Config Store Tuning Routing Builder RwInbound Events Plan Enforcement Controller.
Open Scope string_scope.
Open Scope list_scope.
Open Scope Z_scope.

(** * Editing a configuration *)

(** [i.get("tag") == t] *)
Definition has_tag (t : string) (j : json) : bool := bool_decide (jget "tag" j = Some (JStr t)).

Definition rw_config_shape (cfg : json) : bool :=
  match jget "inbounds" cfg with Some (JArr l) => forallb is_obj l | _ => false end.

(** [rule["inboundTag"] = [t for t in tags if t != RW_TAG]], unless that would leave it empty. *)
Definition drop_ref (rule : json) : json :=
  match jget "inboundTag" rule with
  | Some (JArr tags) =>
      let others := filter (fun t => t <> JStr RW_TAG) tags in
      if bool_decide (JStr RW_TAG ∈ tags) && bool_decide (others <> []) then jset "inboundTag" (JArr others) rule
      else rule
  | _ => rule
  end.

(** [cfg["routing"]["rules"]] when both have their shape, and an update of it in place. *)
Definition cfg_rule_list (cfg : json) : option (list json) :=
  match jget "routing" cfg with
  | Some routing => match jget "rules" routing with Some (JArr l) => Some l | _ => None end
  | None => None
  end.
Definition set_rule_list (l : list json) (cfg : json) : json :=
  match jget "routing" cfg with
  | Some routing => jset "routing" (jset "rules" (JArr l) routing) cfg
  | None => cfg
  end.

Definition rw_drop_routing_refs (cfg : json) : json :=
  match cfg_rule_list cfg with
  | Some rules => set_rule_list (drop_ref <$> rules) cfg
  | None => cfg
  end.

(** [isinstance(o, dict) and o.get(key) == DIRECT_LAN_TAG] *)
Definition lan_fragment (key : string) (o : json) : bool := bool_decide (jget key o = Some (JStr DIRECT_LAN_TAG)).

(** The rules without the LAN one, and where the first of it was. *)
Fixpoint drop_lan_rules (rules : list json) : list json * option nat :=
  match rules with
  | [] => ([], None)
  | rule :: rules' =>
      let '(keep, at_) := drop_lan_rules rules' in
      if lan_fragment "outboundTag" rule then (keep, Some 0%nat) else (rule :: keep, S <$> at_)
  end.

(** [l.insert(i, x)] *)
Definition insert_at (i : nat) (x : json) (l : list json) : list json := take i l ++ [x] ++ drop i l.

Section lan.
Context (s : settings).

Definition rw_reconcile_lan (hosts : list (string * string)) (cfg : json) : json :=
  let cfg := match jget "outbounds" cfg with
             | Some (JArr outs) => jset "outbounds" (JArr (filter (fun o => lan_fragment "tag" o = false) outs)) cfg
             | _ => cfg
             end in
  let cfg := match jget "dns" cfg with
             | Some (JObj kvs) => jset "dns" (jdel "hosts" (JObj kvs)) cfg
             | _ => cfg
             end in
  let '(cfg, at_) := match cfg_rule_list cfg with
                     | Some rules => let '(keep, i) := drop_lan_rules rules in (set_rule_list keep cfg, i)
                     | None => (cfg, None)
                     end in
  if bool_decide (hosts = []) then cfg
  else match jget "dns" cfg, jget "outbounds" cfg with
       | Some (JObj kvs), Some (JArr outs) =>
           let cfg := jset "dns" (jset "hosts" (JObj ((fun h => (h.1, JStr h.2)) <$> hosts)) (JObj kvs)) cfg in
           let cfg := jset "outbounds" (JArr (outs ++ [rw_lan_outbound s])) cfg in
           match cfg_rule_list cfg with
           | Some rules => set_rule_list (insert_at (default (length rules - 1)%nat at_) (rw_lan_rule hosts) rules) cfg
           | None => cfg
           end
       | _, _ => cfg
       end.

(** [_rw_reconciled], with the inbound the store resolves to. *)
Definition rw_reconciled (rw : option rw) (cfg : json) : json :=
  let inbounds := match jget "inbounds" cfg with Some (JArr l) => l | _ => [] end in
  let kept := filter (fun i => has_tag RW_TAG i = false) inbounds in
  let '(kept, cfg) := match rw with
                      | Some r => (kept ++ [rw_inbound_block r], cfg)
                      | None => (kept, rw_drop_routing_refs cfg)
                      end in
  rw_reconcile_lan (from_option rw_hosts [] rw) (jset "inbounds" (JArr kept) cfg).

End lan.

(** [_rw_excess]: a grant of the configuration the store does not make. *)
Definition rw_excess (rw : option rw) (cfg : json) : bool :=
  match jget "inbounds" cfg with
  | Some (JArr l) =>
      let live := concat (rw_grants <$> filter (fun i => has_tag RW_TAG i = true) l) in
      let granted := from_option (fun r => rw_grants (rw_inbound_block r)) [] rw in
      existsb (fun g => negb (bool_decide (g ∈ granted))) live
  | _ => false
  end.

(** [_rw_config_from_disk] *)
Definition config_of (c : option content) : option json :=
  match c with Some (CJson j) => if rw_config_shape j then Some j else None | _ => None end.
Definition rw_config_from_disk (k : disk) : option json := config_of (cur (f_config k)).

Definition rw_sanitized_config (s : settings) (rw : option rw) (on_disk : option json) : option json :=
  rw_reconciled s rw <$> on_disk.

Definition rw_live_inbound (k : disk) : bool :=
  match cur (f_config k) with
  | Some (CJson cfg) =>
      match jget "inbounds" cfg with
      | Some (JArr l) => if forallb is_obj l then existsb (has_tag RW_TAG) l else true
      | _ => true
      end
  | _ => true
  end.

Definition RW_RECONCILED : list string := ["reapplied"; "rebuilt"; "cleaned"; "not-live"; "stopped"].

(** The node a rebuild is made from: the active one, else the previous one. *)
Definition node_of_setting (key : string) (d : db) : option node :=
  match get_setting key d with
  | Some raw => if bool_decide (raw = "") then None else py_int raw ≫= (fun i => get_node i d)
  | None => None
  end.
Definition rw_rebuild_node (d : db) : option node :=
  match node_of_setting "active_node_id" d with
  | Some n => Some n
  | None => node_of_setting "prev_active_node_id" d
  end.

(** What the store does when the marker is cleared: it takes the write; the write raises, or returns with nothing
    written; or the read after it raises. *)
Inductive clearing := ClearTaken | ClearRaises | ClearLost | ClearUnread.
Definition rw_clear_marker (c : clearing) : M bool :=
  match c with
  | ClearTaken => rw_clear_reconcile_pending
  | ClearRaises => mret false
  | ClearLost => mget (fun d => negb (rw_reconcile_is_pending d))
  | ClearUnread => fun d => (inr false, (rw_clear_reconcile_pending d).2)
  end.

(** What the outside decides during one call. *)
Record around := Around {
  a_query : bool;                    (* [status()] answers *)
  a_query2 : bool;                   (* and after a failed rebuild *)
  a_reapply : outside;
  a_sanitize : oracle;               (* the two writes of [_rw_write_config] *)
  a_rebuild : oracle;
  a_exit : option Z;                 (* the child exits by itself before the reload *)
  a_reload : env;
  a_guard_sanitize : oracle;         (* the writes of the start guard *)
  a_guard_rebuild : oracle;
  a_stop : env;
  a_stop_raised : option string;     (* [supervisor.stop()] raises *)
  a_invalidate : oracle;
  a_promote : oracle;
  a_now : Z;
  a_clear : clearing
}.

Section revocation.
Context `{NetHost H}.
Context (s : settings).
Context (xray : json -> test_result).
Context (config_digest : json -> string).
Context (json_loads : string -> option json).
(** [res.error] of a failed apply. *)
Context (error_text : exn + apply_result -> string).

Notation rw_now := (rw_inbound json_loads).

(** * The file *)

(** The loop of [_rw_write_config] over its producers. *)
Fixpoint try_producers (on_disk : option json) (l : list (option json * oracle)) (k : disk) : bool * disk :=
  match l with
  | [] => (false, k)
  | (None, _) :: l' => try_producers on_disk l' k
  | (Some cfg, w) :: l' =>
      if bool_decide (config_digest <$> on_disk = Some (config_digest cfg)) then (true, k)
      else match apply_irreversible xray w cfg k with
           | (inr (true, _), k') => (true, k')
           | (_, k') => try_producers on_disk l' k'
           end
  end.

Definition rebuilt_config (d : db) : option json :=
  rw_rebuild_node d ≫= (fun n => match build_node_config s json_loads n d with inr cfg => Some cfg | inl _ => None end).

Definition rw_write_config (w1 w2 : oracle) (d : db) (k : disk) : bool * disk :=
  let on_disk := rw_config_from_disk k in
  try_producers on_disk [(rw_sanitized_config s (rw_now d) on_disk, w1); (rebuilt_config d, w2)] k.

Definition rw_live_excess (d : db) (k : disk) : bool :=
  from_option (rw_excess (rw_now d)) false (rw_config_from_disk k).

Definition record_revoke (detail : string) (now : Z) (h : hist H) : hist H := (run_db (record "rw-revoke" detail now) h).2.

(** * Starting xray *)

Definition rw_reconcile_before_serving (a : around) (h : hist H) : bool * hist H :=
  if negb (rw_live_excess (g_db h.1) (g_disk h.1)) then (true, h)
  else
    let '(ok, k) := rw_write_config (a_guard_sanitize a) (a_guard_rebuild a) (g_db h.1) (g_disk h.1) in
    let h := put_disk k h in
    if ok then
      (true, record_revoke "cleaned a remote-access grant the store no longer makes out of the config before serving it" (a_now a) h)
    else (false, h).

(** Nothing in it raises here. *)
Definition rw_start_guard (a : around) (h : hist H) : bool * hist H := rw_reconcile_before_serving a h.

Definition guarded (e : env) (b : bool) (k : disk) : env :=
  Env b (cur (f_config k)) (spawn e) (on_term e) (on_kill e) (polls e).

(** [supervisor.start()] and [supervisor.reload()] with the guard as their hook; it is consulted
    only when there is no child. *)
Definition sup_start (a : around) (h : hist H) : option failure * hist H :=
  if running (g_sup h.1) then
    let '(f, u) := start config_digest (guarded (a_reload a) true (g_disk h.1)) (g_sup h.1) in (f, put_sup u h)
  else
    let '(b, h) := rw_start_guard a h in
    let '(f, u) := start config_digest (guarded (a_reload a) b (g_disk h.1)) (g_sup h.1) in (f, put_sup u h).

Definition sup_reload (a : around) (h : hist H) : (failure + bool) * hist H :=
  match stop (guarded (a_reload a) true (g_disk h.1)) (g_sup h.1) with
  | (false, u) => (inr false, put_sup u h)
  | (true, u) =>
      let st := g_sup h.1 in
      let '(b, h) := rw_start_guard a (put_sup u h) in
      let '(r, u) := reload config_digest (guarded (a_reload a) b (g_disk h.1)) st in (r, put_sup u h)
  end.

(** [_rw_reload_if_running]: an exception is a failed reload. *)
Definition rw_reload_if_running (a : around) (h : hist H) : option bool * hist H :=
  if running (g_sup h.1) then
    match sup_reload a h with
    | (inl _, h) => (Some false, h)
    | (inr b, h) => (Some b, h)
    end
  else (None, h).

(** The child exits by itself. *)
Definition child_exits (code : option Z) (h : hist H) : hist H :=
  match code, proc (g_sup h.1).1 with
  | Some c, Some pid =>
      if running (g_sup h.1) then put_sup ((g_sup h.1).1, set_gone pid c (g_sup h.1).2) h else h
  | _, _ => h
  end.

(** * The revocation *)

(** [None]: the supervisor could not be queried. *)
Definition rw_supervisor_running (query : bool) (h : hist H) : option bool * hist H :=
  if query then
    let '(t, u) := status (g_sup h.1) in (Some (st_running t), put_sup u h)
  else (None, h).

Definition rw_serving (query : bool) (h : hist H) : bool * hist H :=
  let '(r, h) := rw_supervisor_running query h in
  (negb (bool_decide (r = Some false)) && rw_live_inbound (g_disk h.1), h).

Definition stop_detail_of (a : around) (h : hist H) : string * hist H :=
  match a_stop_raised a with
  | Some exc => (" (the stop itself failed: " +:+ exc +:+ ")", put_sup (set_want false (g_sup h.1).1, (g_sup h.1).2) h)
  | None =>
      match stop (at_disk (a_stop a) (g_disk h.1)) (g_sup h.1) with
      | (true, u) => ("", put_sup u h)
      | (false, u) => (" (the stop itself failed: xray survived SIGKILL)", put_sup u h)
      end
  end.

Definition did (stop_detail : string) (running : option bool) : string :=
  if negb (bool_decide (stop_detail = "")) then "tried and failed to stop xray"
  else match running with
       | Some true => "stopped xray"
       | Some false => "ensured xray remained stopped"
       | None => "issued a stop to an xray whose state could not be observed"
       end.

Definition rw_fail_safe_stop (a : around) (running : option bool) (quiet : bool) (h : hist H) : string * hist H :=
  let '(stop_detail, h) := stop_detail_of a h in
  let '(res, x) := stop_net s (g_db h.1) (g_net h.1) in
  let h := put_net x h in
  let net_detail := if nr_ok res then "" else " (network stop failed: " +:+ nr_error res +:+ ")" in
  let h := if quiet then h
           else record_revoke (did stop_detail running +:+ " to apply a remote-access revocation" +:+ stop_detail +:+ net_detail)
                  (a_now a) h in
  (if bool_decide (stop_detail = "") then "stopped" else "stop-failed", h).

Definition rw_push_to_runtime (a : around) (running : option bool) (quiet : bool) (h : hist H) : string * hist H :=
  if negb (rw_live_inbound (g_disk h.1)) then
    match running with
    | Some false => ("not-live", h)
    | Some true =>
        match rw_reload_if_running a (child_exits (a_exit a) h) with
        | (Some true, h) => ("rebuilt", h)
        | (None, h) => ("not-live", h)
        | (Some false, h) => rw_fail_safe_stop a running quiet h
        end
    | None => rw_fail_safe_stop a running quiet h
    end
  else
    let '(clean, k) := rw_write_config (a_sanitize a) (a_rebuild a) (g_db h.1) (g_disk h.1) in
    let h := put_disk k h in
    match running, clean with
    | Some true, true =>
        match rw_reload_if_running a (child_exits (a_exit a) h) with
        | (Some true, h) => ("rebuilt", h)
        | (None, h) => ("cleaned", h)
        | (Some false, h) => rw_fail_safe_stop a running quiet h
        end
    | Some false, true => ("cleaned", h)
    | _, _ => rw_fail_safe_stop a running quiet h
    end.

Definition reapply_failed (r : exn + apply_result) (a : around) (h : hist H) : string * hist H :=
  let h := record_revoke ("rebuilding the active node's config failed (" +:+ str_take 200 (error_text r) +:+
             ") — falling back to rewriting the live config") (a_now a) h in
  let '(running, h) := rw_supervisor_running (a_query2 a) h in
  rw_push_to_runtime a running false h.

Definition rw_revoke_apply (a : around) (h : hist H) : string * hist H :=
  let '(running, h) := rw_supervisor_running (a_query a) h in
  match running with
  | Some true =>
      match reapply_active_node s xray config_digest json_loads true (a_reapply a) h with
      | (inr (Some Applied), h) => ("reapplied", h)
      | (inr (Some r), h) => reapply_failed (inr r) a h
      | (inl e, h) => reapply_failed (inl e) a h
      | (inr None, h) => rw_push_to_runtime a running false h
      end
  | _ => rw_push_to_runtime a running false h
  end.

Definition rw_revoke (a : around) (h : hist H) : string * hist H :=
  let '(how, h) := rw_revoke_apply a h in
  let '(dropped, k) := invalidate_rollback (a_invalidate a) (g_disk h.1) in
  let h := put_disk k h in
  let h := if dropped then h
           else record_revoke "could not drop the rollback target after a remote-access revocation — rolling back may reinstate the revoked device" (a_now a) h in
  if bool_decide (how ∈ RW_RECONCILED) then (how, (run_db (rw_clear_marker (a_clear a)) h).2) else (how, h).

(** * The retry *)

Definition rw_drop_unsafe_rollback (a : around) (h : hist H) : hist H :=
  let safe := match rollback_target config_digest (g_disk h.1) with
              | inr (Some candidate) => negb (rw_excess (rw_now (g_db h.1)) candidate)
              | _ => false
              end in
  if safe then h else put_disk (invalidate_rollback (a_invalidate a) (g_disk h.1)).2 h.

Definition rw_reconcile_runtime (a : around) (h : hist H) : string * bool * hist H :=
  let '(running, h) := rw_supervisor_running (a_query a) h in
  let '(how, h) := rw_push_to_runtime a running true h in
  let h := rw_drop_unsafe_rollback a h in
  if bool_decide (how ∈ RW_RECONCILED) then
    match run_db (rw_clear_marker (a_clear a)) h with
    | (inr cleared, h) => (how, cleared, h)
    | (inl _, h) => (how, false, h)
    end
  else (how, false, h).

Definition rw_reconcile_pending (a : around) (h : hist H) : bool * hist H :=
  if negb (rw_reconcile_is_pending (g_db h.1)) then (true, h)
  else let '(how, cleared, h) := rw_reconcile_runtime a h in
       (bool_decide (how ∈ RW_RECONCILED) && cleared, h).

(** * Promoting the rollback target *)

Inductive promotion := Promoted | NotPromotable | RefusedExcess | PromotionRaised (f : failure).

Definition rw_guard_promotion (a : around) (candidate : json) (h : hist H) : promotion * hist H :=
  if negb (rw_excess (rw_now (g_db h.1)) candidate) then
    let '(r, k) := rollback config_digest (a_promote a) (g_disk h.1) in
    (match r with inl f => PromotionRaised f | inr true => Promoted | inr false => NotPromotable end, put_disk k h)
  else
    let clean := if rw_config_shape candidate then Some (rw_reconciled s (rw_now (g_db h.1)) candidate) else None in
    let '(written, h) :=
      match clean with
      | Some cfg =>
          if negb (rw_excess (rw_now (g_db h.1)) cfg) then
            let '(r, k) := apply_irreversible xray (a_promote a) cfg (g_disk h.1) in
            (match r with inr (b, _) => b | inl _ => false end, put_disk k h)
          else (false, h)
      | None => (false, h)
      end in
    if written then
      (Promoted, record_revoke "cleaned a remote-access grant the store no longer makes out of the rollback target before promoting it" (a_now a) h)
    else (RefusedExcess, h).

End revocation.
