(* ===== verification/RevocationFacts.v ===== *)
(** Lemmas on the revocation protocol: what counts as excess, what the edit of a
    configuration leaves, and the effect of each step of a revocation. *)
From Stdlib Require Import ZArith Lia Ascii.
From stdpp Require Import base gmap strings list.
From S2P Require Import Prelude PyStr Models Json Store StoreFacts Events Scrub ConfigFiles Supervisor SupervisorProps Config Tuning Routing Builder BuilderProps RwInbound Plan Enforcement Controller ControllerProps Revocation.
Open Scope string_scope.
Open Scope list_scope.
Open Scope Z_scope.

(** * Excess *)

(** The remote-access inbounds of a configuration. *)
Definition rw_blocks (cfg : json) : list json :=
  match jget "inbounds" cfg with Some (JArr l) => filter (fun i => has_tag RW_TAG i = true) l | _ => [] end.

Definition granted (rw : option rw) : list grant := from_option (fun r => rw_grants (rw_inbound_block r)) [] rw.

Lemma rw_excess_spec rw cfg :
  rw_excess rw cfg = false <-> forall b g, b ∈ rw_blocks cfg -> g ∈ rw_grants b -> g ∈ granted rw.
Proof.
  unfold rw_excess, rw_blocks.
  assert (forall l, existsb (fun g => negb (bool_decide (g ∈ granted rw))) (concat (rw_grants <$> l)) = false <->
            forall b g, b ∈ l -> g ∈ rw_grants b -> g ∈ granted rw) as Hl.
  { intros l. rewrite <-not_true_iff_false, existsb_exists. split.
    - intros Hn b g Hb Hg. destruct (bool_decide_reflect (g ∈ granted rw)) as [|Hno]; [done|]. destruct Hn. exists g.
      split; [|by rewrite bool_decide_false]. apply in_concat. exists (rw_grants b).
      split; [apply list_elem_of_In; by apply list_elem_of_fmap_2|by apply list_elem_of_In].
    - intros Ha (g & Hin & Hn). apply in_concat in Hin as (gs & Hgs & Hg).
      apply list_elem_of_In, list_elem_of_fmap in Hgs as (b & -> & Hb). apply list_elem_of_In in Hg.
      rewrite bool_decide_true in Hn; [done|eauto]. }
  destruct (jget "inbounds" cfg) as [[]|]; try (split; [intros _ ? ? Hb; by apply elem_of_nil in Hb|done]). apply Hl.
Qed.

(** The grants of a store name only scalars. *)
Lemma granted_leaf rw ns v : (ns, v) ∈ granted rw -> exists x, v = Some x /\ leaf x.
Proof.
  destruct rw as [r|]; simpl; [|intros H; by apply elem_of_nil in H].
  unfold rw_grants, list_grants; simpl. rewrite <-!list_fmap_compose.
  rewrite !elem_of_cons, !elem_of_app, !elem_of_cons, elem_of_app, !list_elem_of_fmap. simpl. intros Hg.
  destruct_or?; destruct_and?; simplify_eq; try (by eexists);
    match goal with H : exists _, _ |- _ => destruct H as (? & ? & _) end; simplify_eq; by eexists.
Qed.

(** ** Up to the order of keys *)

Definition grant_eq (g g' : grant) : Prop := g.1 = g'.1 /\ option_Forall2 jeq g.2 g'.2.

Lemma jeq_arr_opt v v' : option_Forall2 jeq v v' ->
  match v with
  | Some (JArr l) => exists l', v' = Some (JArr l') /\ Forall2 jeq l l'
  | _ => match v' with Some (JArr _) => False | _ => True end
  end.
Proof.
  destruct 1 as [x y Hxy|]; [|done]. inversion Hxy; subst; try done; [|by eauto].
  destruct y; try done. eexists; split; [done|]. by apply jeq_arr_inv in Hxy as (? & [= <-] & ?).
Qed.

Lemma list_grants_jeq key ns v v' :
  option_Forall2 jeq v v' -> Forall2 grant_eq (list_grants key ns v) (list_grants key ns v').
Proof.
  intros Hv. pose proof (jeq_arr_opt v v' Hv) as Ha. unfold list_grants.
  assert (Forall2 grant_eq [(key, v)] [(key, v')]) as Hone by (by repeat constructor).
  destruct v as [[| | | |l|]|].
  5: { destruct Ha as (l' & -> & HF). apply Forall2_fmap. eapply Forall2_impl; [exact HF|].
       intros x y Hxy. by repeat constructor. }
  all: destruct v' as [[]|]; by try destruct Ha.
Qed.

Lemma jeq_get2 k k' a b : jeq a b -> option_Forall2 jeq (jget k a ≫= jget k') (jget k b ≫= jget k').
Proof. intros Hj. destruct (jeq_get k a b Hj); simpl; [by apply jeq_get|constructor]. Qed.

Lemma rw_grants_jeq a b : jeq a b -> Forall2 grant_eq (rw_grants a) (rw_grants b).
Proof.
  intros Hj. pose proof (jeq_is_obj a b Hj) as Ho. unfold rw_grants.
  destruct a as [| | | | |kvs], b as [| | | | |kvs']; try done.
  set (a := JObj kvs) in *. set (b := JObj kvs') in *.
  set (ra := match jget "streamSettings" a ≫= jget "realitySettings" with Some (JObj k) => JObj k | _ => JObj [] end).
  set (rb := match jget "streamSettings" b ≫= jget "realitySettings" with Some (JObj k) => JObj k | _ => JObj [] end).
  assert (jeq ra rb) as Hr.
  { unfold ra, rb. destruct (jeq_get2 "streamSettings" "realitySettings" a b Hj) as [x y Hxy|]; [|constructor].
    pose proof (jeq_is_obj x y Hxy). destruct x, y; try done; constructor. }
  repeat apply Forall2_app; try (by apply list_grants_jeq, jeq_get).
  - repeat constructor. by apply jeq_get.
  - pose proof (jeq_get2 "settings" "clients" a b Hj) as Hc. pose proof (jeq_arr_opt _ _ Hc) as Ha.
    assert (Forall2 grant_eq [("clients", jget "settings" a ≫= jget "clients")]
                             [("clients", jget "settings" b ≫= jget "clients")]) as Hone by (by repeat constructor).
    destruct (jget "settings" a ≫= jget "clients") as [[| | | |l|]|].
    5: { destruct Ha as (l' & -> & HF). apply Forall2_fmap. eapply Forall2_impl; [exact HF|]. intros x y Hxy.
         split; [done|]. simpl. rewrite <-(jeq_is_obj x y Hxy). destruct (is_obj x); [by apply jeq_get|by constructor]. }
    all: destruct (jget "settings" b ≫= jget "clients") as [[]|]; by try destruct Ha.
  - repeat constructor; by apply jeq_get.
Qed.

Lemma has_tag_jeq t a b : jeq a b -> has_tag t a = has_tag t b.
Proof.
  intros Hj. unfold has_tag. apply bool_decide_ext. destruct (jeq_get "tag" a b Hj) as [x y Hxy|]; [|done].
  split; intros [= ->]; [by rewrite (jeq_leaf _ _ Hxy)|]. by inversion Hxy.
Qed.

Lemma rw_excess_jeq rw a b : jeq a b -> rw_excess rw a = false -> rw_excess rw b = false.
Proof.
  rewrite !rw_excess_spec. intros Hj Ha y g Hy Hg. unfold rw_blocks in Hy, Ha.
  pose proof (jeq_arr_opt _ _ (jeq_get "inbounds" a b Hj)) as Hin.
  destruct (jget "inbounds" b) as [[| | | |l'|]|]; try (by apply elem_of_nil in Hy).
  destruct (jget "inbounds" a) as [[| | | |l|]|]; try done.
  destruct Hin as (l2 & [= <-] & HF). apply list_elem_of_filter in Hy as [Ht Hy].
  apply list_elem_of_lookup in Hy as [i Hi]. destruct (Forall2_lookup_r _ _ _ _ _ HF Hi) as (x & Hx & Hxy).
  apply list_elem_of_lookup in Hg as [j Hg].
  destruct (Forall2_lookup_r _ _ _ _ _ (rw_grants_jeq x y Hxy) Hg) as ([ns v] & Hgx & He & Hv).
  assert ((ns, v) ∈ granted rw) as Hin.
  { apply (Ha x); [|by eapply list_elem_of_lookup_2]. apply list_elem_of_filter. split; [by rewrite (has_tag_jeq _ _ _ Hxy)|].
    by eapply list_elem_of_lookup_2. }
  destruct (granted_leaf rw ns v Hin) as (z & -> & Hz). destruct g as [ns' v']. simpl in He, Hv. subst ns'.
  inversion Hv as [? z' Hzz|]; subst. by rewrite (jeq_leaf _ _ Hzz Hz).
Qed.

(** * The edit *)

Lemma jget_jset_ne k k' v j : k <> k' -> jget k' (jset k v j) = jget k' j.
Proof. destruct j; try done. intros Hk. simpl. by rewrite assoc_set, decide_False. Qed.

Lemma set_rule_list_get l cfg k : k <> "routing" -> jget k (set_rule_list l cfg) = jget k cfg.
Proof. intros Hk. unfold set_rule_list. destruct (jget "routing" cfg); [|done]. by apply jget_jset_ne. Qed.

Lemma drop_refs_get cfg k : k <> "routing" -> jget k (rw_drop_routing_refs cfg) = jget k cfg.
Proof. intros Hk. unfold rw_drop_routing_refs. destruct (cfg_rule_list cfg); [by apply set_rule_list_get|done]. Qed.

Lemma reconcile_lan_get s hosts cfg k :
  k <> "routing" -> k <> "dns" -> k <> "outbounds" -> jget k (rw_reconcile_lan s hosts cfg) = jget k cfg.
Proof.
  intros H1 H2 H3. unfold rw_reconcile_lan.
  set (c1 := match jget "outbounds" cfg with Some (JArr _) => _ | _ => cfg end).
  assert (jget k c1 = jget k cfg) as E1.
  { unfold c1. destruct (jget "outbounds" cfg) as [[]|]; try done. by apply jget_jset_ne. }
  set (c2 := match jget "dns" c1 with Some (JObj _) => _ | _ => c1 end).
  assert (jget k c2 = jget k cfg) as E2.
  { rewrite <-E1. unfold c2. destruct (jget "dns" c1) as [[]|]; try done. by apply jget_jset_ne. }
  set (p3 := match cfg_rule_list c2 with Some _ => _ | None => (c2, None) end).
  assert (jget k p3.1 = jget k cfg) as E3.
  { rewrite <-E2. unfold p3. destruct (cfg_rule_list c2); [|done]. destruct (drop_lan_rules l).
    by apply set_rule_list_get. }
  destruct p3 as [c3 at_]. simpl in E3. case_bool_decide; [done|].
  destruct (jget "dns" c3) as [[| | | | |kvs]|]; try done. destruct (jget "outbounds" c3) as [[| | | |outs|]|]; try done.
  rewrite <-E3. destruct (cfg_rule_list _); rewrite ?set_rule_list_get, !jget_jset_ne by done; done.
Qed.

Lemma rw_config_shape_inv cfg : rw_config_shape cfg = true ->
  exists l, jget "inbounds" cfg = Some (JArr l) /\ forallb is_obj l = true.
Proof. unfold rw_config_shape. destruct (jget "inbounds" cfg) as [[]|]; try done. eauto. Qed.

Definition block_list (rw : option rw) : list json := match rw with Some r => [rw_inbound_block r] | None => [] end.

Lemma reconciled_inbounds s rw cfg l :
  jget "inbounds" cfg = Some (JArr l) ->
  jget "inbounds" (rw_reconciled s rw cfg) = Some (JArr (filter (fun i => has_tag RW_TAG i = false) l ++ block_list rw)).
Proof.
  intros Hl. unfold rw_reconciled. rewrite Hl. destruct rw as [r|]; rewrite reconcile_lan_get by done.
  - rewrite jget_jset by (by eapply jget_obj). by rewrite decide_True.
  - rewrite jget_jset, decide_True, app_nil_r; try done.
    eapply (jget_obj "inbounds"). by rewrite drop_refs_get.
Qed.

Lemma filter_kept_blocks l : filter (fun i => has_tag RW_TAG i = true) (filter (fun i => has_tag RW_TAG i = false) l) = [].
Proof. induction l as [|x l IH]; [done|]. rewrite filter_cons. case_decide; [|done]. rewrite filter_cons, decide_False by congruence. done. Qed.

Lemma filter_block_list rw : filter (fun i => has_tag RW_TAG i = true) (block_list rw) = block_list rw.
Proof. by destruct rw. Qed.

(** A configuration whose remote-access inbounds are the store's. *)
Definition agrees (rw : option rw) (cfg : json) : Prop := rw_config_shape cfg = true /\ rw_blocks cfg = block_list rw.

Lemma agrees_no_excess rw cfg : agrees rw cfg -> rw_excess rw cfg = false.
Proof.
  intros [_ Hb]. apply rw_excess_spec. rewrite Hb. intros b g Hin Hg. destruct rw as [r|]; simpl in *.
  - by apply list_elem_of_singleton in Hin as ->.
  - by apply elem_of_nil in Hin.
Qed.

Lemma reconciled_agrees s rw cfg : rw_config_shape cfg = true -> agrees rw (rw_reconciled s rw cfg).
Proof.
  intros (l & Hl & Ho)%rw_config_shape_inv. unfold agrees, rw_config_shape, rw_blocks.
  rewrite (reconciled_inbounds s rw cfg l Hl). split.
  - rewrite forallb_app. apply andb_true_intro. split; [|by destruct rw]. apply forallb_forall. intros x Hx.
    apply list_elem_of_In, list_elem_of_filter in Hx as [_ Hx]. rewrite forallb_forall in Ho. apply Ho. by apply list_elem_of_In.
  - by rewrite filter_app, filter_kept_blocks, filter_block_list.
Qed.

Section gateway.
Context `{NetHost H}.
Context (s : settings).
Context (xray : json -> test_result).
Context (digest : json -> string).
Context (json_loads : string -> option json).
Context (error_text : exn + apply_result -> string).

Notation rw_now := (rw_inbound json_loads).

Lemma built_agrees n d cfg : build_node_config s json_loads n d = inr cfg -> agrees (rw_now d) cfg.
Proof.
  unfold build_node_config. destruct (resolve_profile n d) as [|p]; [done|]. destruct (resolve_stats d) as [|st]; [done|].
  destruct (build_config _ _ _ _ _ _ _ _ _ _ _) as [|cfg'] eqn:E; [done|]. intros [= ->].
  apply build_parts in E as (sv & pr & bl & mx & rl & _ & _ & _ & _ & _ & _ & _ & Hin & _).
  unfold cfg_inbounds, jlist in Hin. unfold agrees, rw_config_shape, rw_blocks.
  destruct (jget "inbounds" cfg) as [[| | | |l|]|]; try done. subst l. unfold inbounds.
  by destruct (ipv6_enabled d), st, (tunneled_fetch d), (rw_now d).
Qed.

(** * The file *)

Definition file_excess (d : db) (c : option content) : bool := from_option (rw_excess (rw_now d)) false (config_of c).

Lemma agrees_file d cfg : agrees (rw_now d) cfg -> file_excess d (Some (CJson cfg)) = false.
Proof. intros Ha. unfold file_excess, config_of. destruct (rw_config_shape cfg); [by apply agrees_no_excess|done]. Qed.

(** A write by agreeing producers either lands, or leaves the live file as it was. *)
Lemma try_producers_facts d l k b k' :
  collision_free digest -> Forall (fun p => from_option (agrees (rw_now d)) True p.1) l ->
  forall k0, f_config k = f_config k0 ->
  try_producers xray digest (rw_config_from_disk k0) l k = (b, k') ->
  if b then file_excess d (cur (f_config k')) = false else f_config k' = f_config k0.
Proof.
  intros Hd. revert k. induction l as [|[[cfg|] w] l IH]; intros k Hl k0 Hk0; simpl.
  - by intros [= <- <-].
  - inversion_clear Hl as [|? ? Hc Hl']. simpl in Hc. case_bool_decide as Ed.
    + intros [= <- <-]. unfold file_excess. rewrite Hk0. unfold rw_config_from_disk in Ed.
      destruct (config_of (cur (f_config k0))) as [j|]; [|done]. simpl in *. injection Ed as Ed.
      eapply rw_excess_jeq; [by apply Hd|]. by apply agrees_no_excess.
    + destruct (apply_irreversible xray w cfg k) as [r k1] eqn:Ea. apply irreversible_files in Ea.
      destruct r as [|[[] out]].
      * apply IH; [done|congruence].
      * intros [= <- <-]. destruct Ea as [-> _]. by apply agrees_file.
      * apply IH; [done|congruence].
  - inversion_clear Hl. by apply IH.
Qed.

Lemma rw_write_config_facts w1 w2 d k b k' :
  collision_free digest -> rw_write_config s xray digest json_loads w1 w2 d k = (b, k') ->
  if b then file_excess d (cur (f_config k')) = false else f_config k' = f_config k.
Proof.
  intros Hd. unfold rw_write_config. apply try_producers_facts; [done| |done].
  repeat constructor; simpl.
  - unfold rw_sanitized_config, rw_config_from_disk, config_of. destruct (cur (f_config k)) as [[j| |]|]; try done.
    destruct (rw_config_shape j) eqn:Es; [|done]. by apply reconciled_agrees.
  - unfold rebuilt_config. destruct (rw_rebuild_node d) as [n|]; [|done]. simpl.
    destruct (build_node_config s json_loads n d) eqn:Eb; [done|]. by eapply built_agrees.
Qed.

(** ** What the store grants depends on these settings only *)

Definition RW_KEYS : list string :=
  ["rw_enabled"; "rw_private_key"; "rw_clients"; "rw_dest"; "rw_port"; "rw_server_names"; "rw_short_ids"; "rw_hosts"].

Definition same_rw (d d' : db) : Prop := forall k, k ∈ RW_KEYS -> get_setting k d' = get_setting k d.

#[local] Instance same_rw_preorder : PreOrder same_rw.
Proof. split; [by intros d k|]. intros d1 d2 d3 H1 H2 k Hk. by rewrite H2, H1. Qed.

Lemma same_rw_now d d' : same_rw d d' -> rw_now d' = rw_now d.
Proof.
  intros Hs. assert (forall k, k ∈ RW_KEYS -> get k d' = get k d) as Hg.
  { intros k Hk. unfold get. by rewrite Hs. }
  unfold rw_inbound, resolve, server_names, get_clients, roster, get_hosts. by rewrite !Hg by set_solver.
Qed.

Lemma same_rw_excess d d' c : same_rw d d' -> file_excess d' c = file_excess d c.
Proof. intros Hs. unfold file_excess. by rewrite (same_rw_now d d' Hs). Qed.

Lemma same_settings_rw d d' : d_settings d' = d_settings d -> same_rw d d'.
Proof. intros Hs k _. unfold get_setting. by rewrite Hs. Qed.

(** * Steps that keep the settings *)

Definition calm (h h' : hist H) : Prop :=
  d_settings (g_db h'.1) = d_settings (g_db h.1) /\
  (constraints (g_db h.1) -> constraints (g_db h'.1)) /\
  exists past, h'.2 = past ++ h.2 /\ Forall (fun g => d_settings (g_db g) = d_settings (g_db h.1)) past.

#[local] Instance calm_preorder : PreOrder calm.
Proof.
  split.
  - intros h. split_and!; try done. by exists [].
  - intros h1 h2 h3 (E1 & C1 & p1 & H1 & F1) (E2 & C2 & p2 & H2 & F2). split_and!; [congruence|auto|].
    exists (p2 ++ p1). rewrite H2, H1, app_assoc. split; [done|]. apply Forall_app. split; [|done].
    eapply Forall_impl; [exact F2|]. simpl. intros. congruence.
Qed.

Lemma push_calm g (h : hist H) : g_db g = g_db h.1 -> calm h (push g h).
Proof. intros Hg. split_and!; simpl; [congruence|by rewrite Hg|]. exists [h.1]. split; [done|]. by repeat constructor. Qed.

Lemma calm_rw h h' : calm h h' -> same_rw (g_db h.1) (g_db h'.1).
Proof. intros [Hs _]. by apply same_settings_rw. Qed.

Lemma record_calm detail now (h : hist H) :
  constraints (g_db h.1) ->
  calm h (record_revoke detail now h) /\ g_disk (record_revoke detail now h).1 = g_disk h.1 /\
  g_sup (record_revoke detail now h).1 = g_sup h.1 /\ g_net (record_revoke detail now h).1 = g_net h.1.
Proof.
  intros Hc. unfold record_revoke, run_db.
  destruct (record_run "rw-revoke" detail now (g_db h.1) Hc) as (d' & -> & Hc' & Hs & _). simpl.
  split_and!; try done. split_and!; simpl; [done|done|]. exists [h.1]. split; [done|]. by repeat constructor.
Qed.

(** * Processes *)

Definition dead (st : state_t) : Prop := forall pid c, procs st.2 !! pid <> Some (Alive c).

(** Every running child was started on a file that grants no more than the store. *)
Definition serves_granted (g : gateway H) : Prop :=
  forall pid c, procs (g_sup g).2 !! pid = Some (Alive c) -> file_excess (g_db g) c = false.

(** No child that was not there. *)
Definition fewer (st st' : state_t) : Prop :=
  forall pid c, procs st'.2 !! pid = Some (Alive c) -> procs st.2 !! pid = Some (Alive c).

#[local] Instance fewer_preorder : PreOrder fewer.
Proof. split; [by intros st pid c|]. intros s1 s2 s3 H1 H2 pid c Hp. by apply H1, H2. Qed.
Lemma fewer_dead st st' : fewer st st' -> dead st -> dead st'.
Proof. intros Hf Hd pid c Hp. by apply (Hd pid c), Hf. Qed.
Lemma dead_fewer st st' : dead st' -> fewer st st'.
Proof. intros Hd pid c Hp. by destruct (Hd pid c). Qed.

Lemma dead_serves g : dead (g_sup g) -> serves_granted g.
Proof. intros Hd pid c Hp. by destruct (Hd pid c). Qed.

Lemma dead_running st : dead st -> running st = false.
Proof.
  intros Hd. unfold running. destruct (proc st.1) as [pid|]; [|done]. apply bool_decide_eq_false. intros Hp.
  apply poll_alive in Hp as [c Hc]. by destruct (Hd pid c).
Qed.

Lemma observe_facts q (h : hist H) r h' :
  rw_supervisor_running q h = (r, h') ->
  calm h h' /\ g_db h'.1 = g_db h.1 /\ g_disk h'.1 = g_disk h.1 /\ (g_sup h'.1).2 = (g_sup h.1).2 /\
  (inv digest (g_sup h.1) -> inv digest (g_sup h'.1) /\ (r = Some false -> dead (g_sup h'.1))) /\
  (dead (g_sup h.1) -> r <> Some true).
Proof.
  unfold rw_supervisor_running. destruct q; [|by intros [= <- <-]].
  unfold status. intros [= <- <-]. simpl. split_and!; try done; [by apply push_calm| |].
  - intros Hi. split.
    + destruct (g_sup h.1) as [s0 o]; simpl in *. destruct (proc s0) as [pid|]; [|done].
      destruct (poll o pid); [|done]. by eapply inv_fields.
    + intros [= Hr] pid c. simpl. by apply (not_running_none digest (g_sup h.1)).
  - intros Hd [= Hr]. by rewrite dead_running in Hr.
Qed.

Lemma child_exits_facts code (h : hist H) :
  let h' := child_exits code h in
  calm h h' /\ g_db h'.1 = g_db h.1 /\ g_disk h'.1 = g_disk h.1 /\
  (inv digest (g_sup h.1) -> inv digest (g_sup h'.1) /\ (is_Some code -> dead (g_sup h'.1)) /\
     fewer (g_sup h.1) (g_sup h'.1)).
Proof.
  unfold child_exits. destruct code as [c|].
  2: { by split_and!. }
  destruct (g_sup h.1) as [s0 o] eqn:Es. simpl. destruct (proc s0) as [pid|] eqn:Ep.
  - destruct (running (s0, o)) eqn:Er.
    + split_and!; try done; [by apply push_calm|].
      intros Hi. destruct (inv_gone digest s0 o pid c Ep Hi) as [Hi' Hno]. split_and!; [done|done|by apply dead_fewer].
    + rewrite Es. split_and!; try done. intros Hi. split_and!; [done| |done]. intros _ q c'. by apply (not_running_none digest (s0, o)).
  - rewrite Es. split_and!; try done. intros Hi. split_and!; [done| |done]. intros _ q c'. apply (not_running_none digest (s0, o)); [done|].
    unfold running. simpl. by rewrite Ep.
Qed.

Lemma stop_facts e st b u :
  stop e st = (b, u) -> inv digest st ->
  inv digest u /\ (if b then dead u else u.2 = st.2) /\ fewer st u.
Proof.
  unfold stop. intros E Hi. pose proof (stop_child_inv digest e (set_want false st.1, st.2)) as Hs.
  rewrite E in Hs. destruct Hs as (Hi' & Hb & _); [destruct st; by eapply inv_fields|]. split; [done|]. destruct b.
  - destruct Hb as [_ Hb]. split; [done|by apply dead_fewer].
  - destruct Hb as [-> _]. split; [done|]. by intros pid c.
Qed.

(** ** The start guard *)

Context (Hcf : collision_free digest).

Lemma guard_facts a (h : hist H) b h' :
  constraints (g_db h.1) -> rw_start_guard s xray digest json_loads a h = (b, h') ->
  calm h h' /\ g_sup h'.1 = g_sup h.1 /\ g_net h'.1 = g_net h.1 /\
  (b = true -> file_excess (g_db h'.1) (cur (f_config (g_disk h'.1))) = false) /\
  (file_excess (g_db h.1) (cur (f_config (g_disk h.1))) = false -> b = true /\ h' = h).
Proof.
  intros Hc. unfold rw_start_guard, rw_reconcile_before_serving.
  change (rw_live_excess json_loads (g_db h.1) (g_disk h.1)) with (file_excess (g_db h.1) (cur (f_config (g_disk h.1)))).
  destruct (file_excess (g_db h.1) (cur (f_config (g_disk h.1)))) eqn:Ex; simpl; [|by intros [= <- <-]].
  destruct (rw_write_config _ _ _ _ _ _ _ _) as [ok k] eqn:Ew. apply rw_write_config_facts in Ew; [|done].
  destruct ok; intros [= <- <-].
  - destruct (record_calm "cleaned a remote-access grant the store no longer makes out of the config before serving it"
      (a_now a) (put_disk k h) Hc) as (Hca & Hd & Hs & Hn). split_and!; try done.
    + etrans; [by apply push_calm|exact Hca].
    + intros _. rewrite Hd. rewrite (same_rw_excess (g_db h.1)); [exact Ew|]. by apply (calm_rw _ _ Hca).
  - by split_and!; try apply push_calm.
Qed.

(** No start or reload brings up a child on a file in excess. *)
Lemma sup_start_facts a (h : hist H) f h' :
  constraints (g_db h.1) -> inv digest (g_sup h.1) -> sup_start s xray digest json_loads a h = (f, h') ->
  calm h h' /\ inv digest (g_sup h'.1) /\
  (forall pid c, procs (g_sup h'.1).2 !! pid = Some (Alive c) -> procs (g_sup h.1).2 !! pid <> Some (Alive c) ->
     file_excess (g_db h'.1) c = false).
Proof.
  intros Hc Hi. unfold sup_start. destruct (running (g_sup h.1)) eqn:Er.
  - pose proof (start_inv digest (guarded (a_reload a) true (g_disk h.1)) (g_sup h.1) Hi) as Hst.
    destruct (start digest _ _) as [f' u]. destruct Hst as (Hi' & _ & Hrun & _). destruct (Hrun Er) as [_ ->].
    intros [= <- <-]. split_and!; [by apply push_calm|done|]. intros pid c H1 H2. done.
  - destruct (rw_start_guard s xray digest json_loads a h) as [b h1] eqn:Eg.
    apply guard_facts in Eg as (Hca & Hsup & _ & Hclean & _); [|done].
    pose proof (start_inv digest (guarded (a_reload a) b (g_disk h1.1)) (g_sup h1.1)) as Hst.
    destruct (start digest _ _) as [f' u]. rewrite Hsup in Hst. destruct (Hst Hi) as (Hi' & _ & _ & Hnew).
    intros [= <- <-]. split_and!; [etrans; [exact Hca|by apply push_calm]|done|].
    intros pid c H1 H2. destruct (Hnew pid c H1 H2) as [Hb ->]. exact (Hclean Hb).
Qed.

Lemma sup_reload_facts a (h : hist H) r h' :
  constraints (g_db h.1) -> inv digest (g_sup h.1) -> sup_reload s xray digest json_loads a h = (r, h') ->
  calm h h' /\ inv digest (g_sup h'.1) /\ g_net h'.1 = g_net h.1 /\
  (r = inr true -> running (g_sup h'.1) = true /\ serves_granted h'.1) /\
  (forall pid c, procs (g_sup h'.1).2 !! pid = Some (Alive c) -> procs (g_sup h.1).2 !! pid <> Some (Alive c) ->
     file_excess (g_db h'.1) c = false) /\
  (file_excess (g_db h.1) (cur (f_config (g_disk h.1))) = false -> g_disk h'.1 = g_disk h.1 /\ g_db h'.1 = g_db h.1).
Proof.
  intros Hc Hi. unfold sup_reload.
  destruct (stop (guarded (a_reload a) true (g_disk h.1)) (g_sup h.1)) as [b u] eqn:Es.
  destruct (stop_facts _ _ _ _ Es Hi) as (Hiu & Hb & _). destruct b.
  2: { intros [= <- <-]. split_and!; try done; [by apply push_calm|]. intros pid c. simpl. rewrite Hb. done. }
  destruct (rw_start_guard s xray digest json_loads a (put_sup u h)) as [b h1] eqn:Eg.
  apply guard_facts in Eg as (Hca & Hsup & Hnet & Hclean & Hsame); [|done].
  pose proof (reload_inv digest (guarded (a_reload a) b (g_disk h1.1)) (g_sup h.1) Hi) as Hre.
  destruct (reload digest _ (g_sup h.1)) as [r' u']. destruct Hre as (Hi' & Hup & Hnew). intros [= <- <-].
  assert (calm h (put_sup u' h1)) as Hcalm.
  { etrans; [|by apply push_calm]. etrans; [|exact Hca]. by apply push_calm. }
  split_and!; try done.
  - intros ->. destruct (Hup eq_refl) as (Hr & _ & Hg & Hon). split; [done|]. intros pid c Hp.
    rewrite (Hon pid c Hp). exact (Hclean Hg).
  - intros pid c H1 H2. destruct (Hnew pid c H1 H2) as [Hg ->]. exact (Hclean Hg).
  - intros Hf. destruct (Hsame Hf) as [_ ->]. done.
Qed.

Lemma reload_facts a (h : hist H) r h' :
  constraints (g_db h.1) -> inv digest (g_sup h.1) ->
  file_excess (g_db h.1) (cur (f_config (g_disk h.1))) = false ->
  rw_reload_if_running s xray digest json_loads a h = (r, h') ->
  calm h h' /\ inv digest (g_sup h'.1) /\ g_disk h'.1 = g_disk h.1 /\ g_db h'.1 = g_db h.1 /\
  (r = Some true -> serves_granted h'.1) /\ (r = None -> h' = h /\ dead (g_sup h'.1)) /\
  (dead (g_sup h.1) -> r = None).
Proof.
  intros Hc Hi Hf. unfold rw_reload_if_running. destruct (running (g_sup h.1)) eqn:Er.
  - destruct (sup_reload s xray digest json_loads a h) as [r' h1] eqn:Es.
    apply sup_reload_facts in Es as (Hca & Hi' & _ & Hup & _ & Hsame); [|done..]. destruct (Hsame Hf) as [Hd Hdb].
    intros E. assert (h' = h1 /\ (r = Some true -> r' = inr true) /\ r <> None) as (-> & Hr & Hn).
    { destruct r' as [|b]; injection E as <- <-; split_and!; try done. by intros [= ->]. }
    split_and!; try done; [intros Hrt; by apply Hup, Hr|..]; intros Hdd; by rewrite dead_running in Er.
  - intros [= <- <-]. split_and!; try done. intros _. split; [done|]. intros pid c. by apply (not_running_none digest (g_sup h.1)).
Qed.

Lemma fail_safe_facts a run quiet (h : hist H) how h' :
  constraints (g_db h.1) -> inv digest (g_sup h.1) -> rw_fail_safe_stop s a run quiet h = (how, h') ->
  calm h h' /\ inv digest (g_sup h'.1) /\ g_disk h'.1 = g_disk h.1 /\
  (how = "stopped" /\ dead (g_sup h'.1) \/ how = "stop-failed") /\ fewer (g_sup h.1) (g_sup h'.1) /\
  (quiet = true -> g_db h'.1 = g_db h.1).
Proof.
  intros Hc Hi. unfold rw_fail_safe_stop.
  destruct (stop_detail_of a h) as [detail h1] eqn:Es.
  assert (calm h h1 /\ g_db h1.1 = g_db h.1 /\ inv digest (g_sup h1.1) /\ g_disk h1.1 = g_disk h.1 /\
    (detail = "" -> dead (g_sup h1.1)) /\ fewer (g_sup h.1) (g_sup h1.1)) as (Hca & Hdb & Hi1 & Hd1 & Hdead & Hkeep).
  { unfold stop_detail_of in Es. destruct (a_stop_raised a) as [exc|].
    - injection Es as <- <-. split_and!; try done; try (by apply push_calm); simpl; destruct (g_sup h.1); first [by intros pid c|by eapply inv_fields].
    - destruct (stop _ _) as [b u] eqn:E. destruct (stop_facts _ _ _ _ E Hi) as (Hiu & Hb & Hk).
      destruct b; injection Es as <- <-; split_and!; try done; by apply push_calm. }
  destruct (stop_net s (g_db h1.1) (g_net h1.1)) as [res x].
  assert (calm h (put_net x h1)) as Hca2 by (etrans; [exact Hca|by apply push_calm]).
  set (text := did detail run +:+ _).
  assert (constraints (g_db (put_net x h1).1)) as Hc1 by (simpl; by rewrite Hdb).
  destruct (record_calm text (a_now a) (put_net x h1) Hc1) as (Hca3 & Hd3 & Hs3 & _).
  assert ((if bool_decide (detail = "") then "stopped" else "stop-failed") = "stopped" /\ dead (g_sup h1.1) \/
          (if bool_decide (detail = "") then "stopped" else "stop-failed") = "stop-failed") as Hhow
    by (case_bool_decide; auto).
  destruct quiet; intros [= <- <-]; [by split_and!|]. rewrite Hs3, Hd3. split_and!; try done.
  etrans; [exact Hca2|exact Hca3].
Qed.

(** ** Pushing the store into the runtime *)

Lemma no_inbound_no_excess d k : rw_live_inbound k = false -> file_excess d (cur (f_config k)) = false.
Proof.
  unfold rw_live_inbound, file_excess, config_of. destruct (cur (f_config k)) as [[j| |]|]; try done.
  unfold rw_config_shape. destruct (jget "inbounds" j) as [[| | | |l|]|] eqn:Ej; try done.
  destruct (forallb is_obj l); [|done]. intros Hn. simpl. apply rw_excess_spec. intros b g Hb. exfalso.
  unfold rw_blocks in Hb. rewrite Ej in Hb. apply list_elem_of_filter in Hb as [Ht Hb].
  apply not_true_iff_false in Hn. apply Hn, existsb_exists. exists b. split; [by apply list_elem_of_In|done].
Qed.

Lemma stop_failed_pending how : how = "stop-failed" -> how ∉ RW_RECONCILED.
Proof. intros ->. apply (bool_decide_unpack _). by vm_compute. Qed.

(** What one call of [_rw_push_to_runtime] leaves. *)
Definition pushed (a : around) (quiet : bool) (h : hist H) (how : string) (h' : hist H) : Prop :=
  calm h h' /\ inv digest (g_sup h'.1) /\
  (how ∈ RW_RECONCILED -> serves_granted h'.1) /\
  (dead (g_sup (child_exits (a_exit a) h).1) -> fewer (g_sup h.1) (g_sup h'.1)) /\
  (how ∈ ["rebuilt"; "cleaned"; "not-live"] -> file_excess (g_db h'.1) (cur (f_config (g_disk h'.1))) = false) /\
  (quiet = true -> g_db h'.1 = g_db h.1).

Lemma fail_safe_pushed a run quiet (h0 h : hist H) how h' :
  constraints (g_db h.1) -> inv digest (g_sup h.1) -> calm h0 h -> g_db h.1 = g_db h0.1 ->
  (dead (g_sup (child_exits (a_exit a) h0).1) -> fewer (g_sup h0.1) (g_sup h.1)) ->
  rw_fail_safe_stop s a run quiet h = (how, h') -> pushed a quiet h0 how h'.
Proof.
  intros Hc Hi Hca Hdb Hfew E. apply fail_safe_facts in E as (Hca' & Hi' & _ & Hhow & Hf & Hq); [|done..].
  split_and!; [by etrans|done| | | |].
  - intros Hin. destruct Hhow as [[_ Hd]|Hs]; [by apply dead_serves|by apply stop_failed_pending in Hs].
  - intros Hd pid c Hp. by apply Hfew, Hf.
  - destruct Hhow as [[-> _]| ->]; intros Hin; set_solver.
  - intros ->. by rewrite Hq.
Qed.

(** The reload of a file that is not in excess, and what follows it. *)
Lemma reload_pushed a quiet (h0 h : hist H) how_none r h' how :
  constraints (g_db h.1) -> inv digest (g_sup h.1) -> calm h0 h -> g_db h.1 = g_db h0.1 -> g_sup h.1 = g_sup h0.1 ->
  file_excess (g_db h.1) (cur (f_config (g_disk h.1))) = false ->
  match rw_reload_if_running s xray digest json_loads a (child_exits (a_exit a) h) with
  | (Some true, h) => ("rebuilt", h)
  | (None, h) => (how_none, h)
  | (Some false, h) => rw_fail_safe_stop s a r quiet h
  end = (how, h') ->
  pushed a quiet h0 how h'.
Proof.
  intros Hc Hi Hca Hdb Hsup Hf.
  destruct (child_exits_facts (a_exit a) h) as (Hca1 & Hdb1 & Hd1 & Hi1). destruct (Hi1 Hi) as (Hi1' & _ & Hf1).
  assert (g_sup (child_exits (a_exit a) h).1 = g_sup (child_exits (a_exit a) h0).1) as Hsame.
  { unfold child_exits. rewrite Hsup. destruct (a_exit a); [|done]. destruct (proc (g_sup h0.1).1); [|done].
    by destruct (running (g_sup h0.1)). }
  rewrite Hsup in Hf1. set (h1 := child_exits (a_exit a) h) in *.
  destruct (rw_reload_if_running s xray digest json_loads a h1) as [b h2] eqn:Er.
  apply reload_facts in Er as (Hca2 & Hi2 & Hd2 & Hdb2 & Htrue & Hnone & Hdead);
    [|rewrite ?Hdb1, ?Hd1; done..].
  assert (calm h0 h2) as Hcalm by (etrans; [exact Hca|etrans; [exact Hca1|exact Hca2]]).
  assert (g_db h2.1 = g_db h0.1) as Hdb' by (by rewrite Hdb2, Hdb1).
  assert (file_excess (g_db h2.1) (cur (f_config (g_disk h2.1))) = false) as Hf2 by (by rewrite Hd2, Hdb2, Hd1, Hdb1).
  assert (dead (g_sup (child_exits (a_exit a) h0).1) -> fewer (g_sup h0.1) (g_sup h2.1)) as Hfew.
  { intros Hd. rewrite <-Hsame in Hd. destruct (Hnone (Hdead Hd)) as [-> _]. done. }
  destruct b as [[]|].
  - intros [= <- <-]. split_and!; try done. by intros _; apply Htrue.
  - apply fail_safe_pushed; try done. rewrite Hdb', <-Hdb. done.
  - intros [= <- <-]. split_and!; try done. intros _. by apply dead_serves, Hnone.
Qed.

Lemma push_facts a run quiet (h : hist H) how h' :
  constraints (g_db h.1) -> inv digest (g_sup h.1) -> (run = Some false -> dead (g_sup h.1)) ->
  rw_push_to_runtime s xray digest json_loads a run quiet h = (how, h') -> pushed a quiet h how h'.
Proof.
  intros Hc Hi Hrun. unfold rw_push_to_runtime. destruct (rw_live_inbound (g_disk h.1)) eqn:El; simpl.
  - destruct (rw_write_config _ _ _ _ _ _ _ _) as [clean k] eqn:Ew. apply rw_write_config_facts in Ew; [|done].
    assert (calm h (put_disk k h)) as Hcal by (by apply push_calm).
    destruct run as [[]|], clean; try (by apply fail_safe_pushed); [by apply reload_pushed|].
    intros [= <- <-]. split_and!; try done. intros _. apply dead_serves, Hrun. done.
  - apply (no_inbound_no_excess (g_db h.1)) in El. destruct run as [[]|].
    + by apply reload_pushed.
    + intros [= <- <-]. split_and!; try done. intros _. by apply dead_serves, Hrun.
    + by apply fail_safe_pushed.
Qed.

(** * The rebuild of the active node *)

(** The marker and what the store grants stay, at every state passed. *)
Definition same_marks (d d' : db) : Prop := forall k, k ∈ RW_PENDING_KEY :: RW_KEYS -> get_setting k d' = get_setting k d.

Definition tame (h h' : hist H) : Prop :=
  same_marks (g_db h.1) (g_db h'.1) /\ (constraints (g_db h.1) -> constraints (g_db h'.1)) /\
  exists past, h'.2 = past ++ h.2 /\ Forall (fun g => same_marks (g_db h.1) (g_db g)) past.

#[local] Instance same_marks_preorder : PreOrder same_marks.
Proof. split; [by intros d k|]. intros d1 d2 d3 H1 H2 k Hk. by rewrite H2, H1. Qed.

#[local] Instance tame_preorder : PreOrder tame.
Proof.
  split.
  - intros h. split_and!; try done. by exists [].
  - intros h1 h2 h3 (E1 & C1 & p1 & H1 & F1) (E2 & C2 & p2 & H2 & F2). split_and!; [by etrans|auto|].
    exists (p2 ++ p1). rewrite H2, H1, app_assoc. split; [done|]. apply Forall_app. split; [|done].
    eapply Forall_impl; [exact F2|]. simpl. intros g Hg. by etrans.
Qed.

Lemma same_settings_marks d d' : d_settings d' = d_settings d -> same_marks d d'.
Proof. intros Hs k _. unfold get_setting. by rewrite Hs. Qed.

Lemma same_marks_rw d d' : same_marks d d' -> same_rw d d'.
Proof. intros Hm k Hk. apply Hm. by right. Qed.

Lemma same_marks_pending d d' : same_marks d d' -> rw_reconcile_is_pending d' = rw_reconcile_is_pending d.
Proof. intros Hm. unfold rw_reconcile_is_pending. rewrite Hm; [done|]. by left. Qed.

Lemma calm_tame (h h' : hist H) : calm h h' -> tame h h'.
Proof.
  intros (E & C & p & Hp & F). split_and!; [by apply same_settings_marks|done|]. exists p. split; [done|].
  eapply Forall_impl; [exact F|]. intros g. apply same_settings_marks.
Qed.

Lemma quiet_tame (h h' : hist H) : quiet h h' -> tame h h'.
Proof.
  intros (E & p & Hp & F). rewrite <-E in F. split_and!; [by rewrite E|by rewrite E|]. exists p. split; [done|].
  eapply Forall_impl; [exact F|]. simpl. intros g ->. by rewrite E.
Qed.

(** One write of the database that leaves the marks. *)
Lemma put_db_tame d (h : hist H) :
  same_marks (g_db h.1) d -> (constraints (g_db h.1) -> constraints d) -> tame h (put_db d h).
Proof. intros Hm Hc. split_and!; [done|done|]. exists [h.1]. split; [done|]. by repeat constructor. Qed.

Lemma same_but_marks keys d d' :
  same_but keys d d' -> Forall (fun k => k ∉ keys) (RW_PENDING_KEY :: RW_KEYS) -> same_marks d d'.
Proof. intros [_ Hs] HF k Hk. apply Hs. rewrite Forall_forall in HF. by apply HF. Qed.

Lemma with_setting_marks k v d : k ∉ RW_PENDING_KEY :: RW_KEYS -> same_marks d (with_setting k v d).
Proof. intros Hk q Hq. rewrite get_with_setting, decide_False; [done|]. by intros ->. Qed.

Lemma intended_tame n (h : hist H) : tame h (put_db (intended n (g_db h.1)) h).
Proof.
  apply put_db_tame; [|apply intended_constraints]. unfold intended. destruct (n_id n); [|done].
  apply with_setting_marks, (bool_decide_unpack _). by vm_compute.
Qed.

(** How an irreversible apply ends: with the marker cleared on a tunnel that serves what the
    store grants, or with the marks as they were. *)
Definition applied_granted (h0 h' : hist H) : Prop :=
  exists h, tame h0 h /\ serves_granted h.1 /\ file_excess (g_db h.1) (cur (f_config (g_disk h.1))) = false /\
    exists d, h' = put_db d h /\ same_but [RW_PENDING_KEY] (g_db h.1) d /\ rw_reconcile_is_pending d = false /\ constraints d.

Lemma finish_granted n raw o (h0 h : hist H) r h' :
  constraints (g_db h.1) -> tame h0 h -> serves_granted h.1 ->
  file_excess (g_db h.1) (cur (f_config (g_disk h.1))) = false ->
  finish_apply n raw o h = (r, h') -> r = inr Applied /\ applied_granted h0 h' /\ g_sup h'.1 = g_sup h.1.
Proof.
  intros Hc Ht Hs Hf. unfold finish_apply.
  assert (exists d1, match n_id n with Some i => run_db (mark_active i raw (o_now o)) h | None => (inr tt, h) end =
            (inr tt, match n_id n with Some i => put_db d1 h | None => h end) /\
          same_marks (g_db h.1) d1 /\ constraints d1) as (d1 & -> & Hm1 & Hc1).
  { destruct (n_id n) as [i|]; [|by exists (g_db h.1)]. unfold run_db.
    destruct (mark_active_run i raw (o_now o) (g_db h.1) Hc) as (d1 & -> & Hsame & _). exists d1. split_and!; [done| |].
    - eapply same_but_marks; [exact Hsame|]. apply (bool_decide_unpack _). by vm_compute.
    - destruct Hsame as [[m ->] _]. auto with v2pi. }
  set (h1 := match n_id n with Some i => put_db d1 h | None => h end).
  assert (tame h h1 /\ g_sup h1.1 = g_sup h.1 /\ g_disk h1.1 = g_disk h.1) as (Ht1 & Hsup & Hd).
  { unfold h1. destruct (n_id n); [|done]. split_and!; try done. by apply put_db_tame. }
  assert (constraints (g_db h1.1)) as Hc1' by (by apply Ht1).
  unfold run_db. destruct (rw_complete_run (g_db h1.1) Hc1') as (d2 & -> & Hsame & Hp).
  intros [= <- <-]. split_and!; [done| |done]. exists h1.
  assert (same_rw (g_db h.1) (g_db h1.1)) as Hrw by (apply same_marks_rw, Ht1).
  split_and!; [by etrans| |by rewrite Hd, (same_rw_excess (g_db h.1))|].
  - intros pid c. rewrite Hsup. intros Hpc. rewrite (same_rw_excess (g_db h.1)) by done. by apply (Hs pid).
  - exists d2. split_and!; try done. destruct Hsame as [[m ->] _]. auto with v2pi.
Qed.

Lemma apply_irreversible_granted n o (h : hist H) r h' :
  constraints (g_db h.1) -> inv digest (g_sup h.1) ->
  apply_node s xray digest json_loads n true o h = (r, h') ->
  inv digest (g_sup h'.1) /\
  match r with inr Applied => applied_granted h h' | inr _ => tame h h' | inl _ => False end.
Proof.
  intros Hc Hi E. apply apply_node_cases in E as [(Hr & Hh)|(cfg & out & k & f & h1 & Hb & Hw & Hu & Hf)]; [| |done].
  - assert (tame h h' /\ g_sup h'.1 = g_sup h.1) as [Ht ->].
    { destruct Hh as [->|(k & -> & _)]; [done|]. split; [|done]. by apply calm_tame, push_calm. }
    split; [done|]. by destruct Hr as [[e ->]|[out ->]].
  - unfold write_config in Hw. apply irreversible_files in Hw as [Hk _].
    assert (tame h (put_db (intended n (g_db h.1)) (put_disk k h))) as Ht0.
    { etrans; [by apply calm_tame, (push_calm (Gateway (g_db h.1) k (g_sup h.1) (g_net h.1)))|]. apply (intended_tame n (put_disk k h)). }
    apply bring_up_facts in Hu as (Hq & _ & Hd & Hup). destruct (Hup Hi) as [Hi1 Htun].
    assert (tame h h1) as Ht1 by (etrans; [exact Ht0|by apply quiet_tame]).
    assert (constraints (g_db h1.1)) as Hc1 by (by apply Ht1).
    destruct f as [f|].
    + destruct Hf as (notes & h2 & Er & -> & ->). apply recover_facts in Er as (Hq2 & _ & _ & Hi2).
      destruct (Hi2 Hi1) as [Hi3 _]. split; [done|].
      etrans; [exact Ht1|]. etrans; [by apply quiet_tame|]. apply put_db_tame; [|by intros; apply constraints_with].
      apply with_setting_marks, (bool_decide_unpack _). by vm_compute.
    + destruct (Htun eq_refl) as (_ & Hon & _). simpl in Hd. rewrite Hd in Hon.
      assert (file_excess (g_db h1.1) (Some (CJson cfg)) = false) as Hclean.
      { rewrite (same_rw_excess (g_db h.1)) by (by apply same_marks_rw, Ht1). apply agrees_file. by eapply built_agrees. }
      apply (finish_granted n _ o h h1) in Hf as (-> & Hg & Hsup); try done.
      * by rewrite Hsup.
      * intros pid c Hp. by rewrite (Hon pid c Hp), Hk.
      * by rewrite Hd, Hk.
Qed.

Lemma clear_stale_marks aid now d :
  constraints d -> exists d', clear_stale aid now d = (inr tt, d') /\ constraints d' /\ same_marks d d'.
Proof.
  intros Hc. unfold clear_stale, tx. rewrite !seq_setting by auto using constraints_with.
  destruct (record_run "stale-active" ("cleared missing active node " +:+ aid) now
    (with_setting "active_since" "" (with_setting "pending_active_node_id" "" (with_setting "active_node_id" "" d))))
    as (d' & -> & Hc' & Hs & _); [auto using constraints_with|].
  exists d'. split_and!; [done|done|]. etrans; [|by apply same_settings_marks].
  do 3 (etrans; [|apply with_setting_marks, (bool_decide_unpack _); by vm_compute]). done.
Qed.

Lemma reapply_granted o (h : hist H) r h' :
  constraints (g_db h.1) -> inv digest (g_sup h.1) ->
  reapply_active_node s xray digest json_loads true o h = (r, h') ->
  inv digest (g_sup h'.1) /\
  match r with inr (Some Applied) => applied_granted h h' | inr _ => tame h h' | inl _ => False end.
Proof.
  intros Hc Hi. unfold reapply_active_node, run_db.
  destruct (pending_or_active_run (o_now o) (g_db h.1) Hc) as (v & d' & -> & Hc' & _ & Hsame & _).
  assert (tame h (put_db d' h)) as Ht.
  { apply put_db_tame; [|done]. intros k Hk. apply Hsame. intros ->. revert Hk. apply (bool_decide_unpack _). by vm_compute. }
  destruct v as [aid|]; [|by intros [= <- <-]].
  destruct (py_int aid ≫= _) as [n|].
  - destruct (apply_node s xray digest json_loads n true o (put_db d' h)) as [r1 h1] eqn:Ea.
    apply apply_irreversible_granted in Ea as (Hi1 & Hg); [|done..]. destruct r1 as [e|x]; [done|].
    intros [= <- <-]. split; [done|]. destruct x; try (by etrans).
    destruct Hg as (h2 & Ht2 & Hrest). exists h2. split; [by etrans|done].
  - simpl. destruct (clear_stale_marks aid (o_now o) d' Hc') as (d2 & -> & Hc2 & Hm). simpl.
    destruct (stop_net s d2 (g_net h.1)) as [res x].
    assert (tame h (put_net x (put_db d2 (put_db d' h)))) as Ht2.
    { etrans; [exact Ht|]. etrans; [by apply (put_db_tame d2 (put_db d' h))|]. by apply calm_tame, push_calm. }
    destruct (nr_ok res); by intros [= <- <-].
Qed.

End gateway.
