(* ===== verification/RevocationProps.v ===== *)
(** What a revocation guarantees: outcomes that mean what they say, no start, a marker
    that outlives a crash, a quiet retry, a start guard and a rollback that never serve
    what the store stopped granting. *)
From Stdlib Require Import ZArith Lia Ascii.
From stdpp Require Import base gmap strings list.
From S2P Require Import Prelude PyStr Models Json Store StoreFacts Events Scrub ConfigFiles Supervisor SupervisorProps Config Tuning Routing Builder BuilderProps RwInbound RwInboundProps Plan Enforcement EnforcementProps Controller ControllerProps Revocation RevocationFacts.
Open Scope string_scope.
Open Scope list_scope.
Open Scope Z_scope.

Section revoke.
Context `{NetHost H}.
Context (s : settings).
Context (xray : json -> test_result).
Context (digest : json -> string).
Context (json_loads : string -> option json).
Context (error_text : exn + apply_result -> string).
Context (Hcf : collision_free digest).

Notation rw_revoke := (rw_revoke s xray digest json_loads error_text).
Notation rw_revoke_apply := (rw_revoke_apply s xray digest json_loads error_text).
Notation serves_granted := (serves_granted json_loads).
Notation file_excess := (file_excess json_loads).
Notation tame := (@tame H).
Notation applied_granted := (applied_granted json_loads).

#[local] Existing Instances tame_preorder same_marks_preorder calm_preorder.

(** The runtime half of a revocation, once. *)
Definition revoked_to (h : hist H) (how : string) (h' : hist H) : Prop :=
  (how = "reapplied" /\ applied_granted h h') \/
  (tame h h' /\ (how ∈ RW_RECONCILED -> serves_granted h'.1)).

Lemma push_revoked a run (h0 h : hist H) how h' :
  constraints (g_db h.1) -> inv digest (g_sup h.1) -> (run = Some false -> dead (g_sup h.1)) -> tame h0 h ->
  rw_push_to_runtime s xray digest json_loads a run false h = (how, h') ->
  inv digest (g_sup h'.1) /\ revoked_to h0 how h' /\ (dead (g_sup h.1) -> dead (g_sup h'.1)).
Proof.
  intros Hc Hi Hrun Ht E. apply push_facts in E as (Hca & Hi' & Hs & Hf & _); [|done..]. split_and!; [done| |].
  - right. split; [|done]. etrans; [exact Ht|by apply calm_tame].
  - intros Hd. eapply fewer_dead; [|exact Hd]. apply Hf.
    destruct (child_exits_facts digest (a_exit a) h) as (_ & _ & _ & Hx). destruct (Hx Hi) as (_ & _ & Hfew).
    by eapply fewer_dead.
Qed.

Lemma reapply_failed_revoked r a (h0 h : hist H) how h' :
  constraints (g_db h.1) -> inv digest (g_sup h.1) -> tame h0 h ->
  reapply_failed s xray digest json_loads error_text r a h = (how, h') ->
  inv digest (g_sup h'.1) /\ revoked_to h0 how h'.
Proof.
  intros Hc Hi Ht. unfold reapply_failed. set (text := "rebuilding the active node's config failed (" +:+ _).
  destruct (record_calm text (a_now a) h Hc) as (Hca & _ & Hs & _). set (h1 := record_revoke text (a_now a) h) in *.
  destruct (rw_supervisor_running (a_query2 a) h1) as [run h2] eqn:Eo.
  apply (observe_facts digest) in Eo as (Hca2 & Hdb & _ & _ & Ho & _). rewrite Hs in Ho. destruct (Ho Hi) as [Hi2 Hd2]. intros E.
  apply (push_revoked a run h0) in E as (Hi' & Hr & _); try done.
  - rewrite Hdb. by apply Hca.
  - etrans; [exact Ht|]. etrans; [by apply calm_tame|by apply calm_tame].
Qed.

Lemma revoke_apply_facts a (h : hist H) how h' :
  constraints (g_db h.1) -> inv digest (g_sup h.1) -> rw_revoke_apply a h = (how, h') ->
  inv digest (g_sup h'.1) /\ revoked_to h how h' /\ (dead (g_sup h.1) -> dead (g_sup h'.1)).
Proof.
  intros Hc Hi. unfold Revocation.rw_revoke_apply.
  destruct (rw_supervisor_running (a_query a) h) as [run h1] eqn:Eo.
  apply (observe_facts digest) in Eo as (Hca & Hdb & _ & Hprocs & Ho & Hdead). destruct (Ho Hi) as [Hi1 Hd1].
  assert (tame h h1) as Ht by (by apply calm_tame). assert (constraints (g_db h1.1)) as Hc1 by (by rewrite Hdb).
  assert (dead (g_sup h.1) <-> dead (g_sup h1.1)) as Hdd by (unfold dead; by rewrite Hprocs).
  assert (forall how h', rw_push_to_runtime s xray digest json_loads a run false h1 = (how, h') ->
    inv digest (g_sup h'.1) /\ revoked_to h how h' /\ (dead (g_sup h.1) -> dead (g_sup h'.1))) as Hpush.
  { intros how1 h2 E. rewrite Hdd. eapply push_revoked; eauto. }
  destruct run as [[]|]; [|by apply Hpush..].
  assert (dead (g_sup h.1) -> forall P : Prop, P) as Hno by (intros Hd; by destruct (Hdead Hd)).
  destruct (reapply_active_node s xray digest json_loads true (a_reapply a) h1) as [r h2] eqn:Er.
  apply reapply_granted in Er as (Hi2 & Hg); [|done..].
  assert (forall r how h', tame h1 h2 -> reapply_failed s xray digest json_loads error_text r a h2 = (how, h') ->
    inv digest (g_sup h'.1) /\ revoked_to h how h' /\ (dead (g_sup h.1) -> dead (g_sup h'.1))) as Hfail.
  { intros r1 how1 h3 Ht2 E. apply (reapply_failed_revoked r1 a h) in E as [? ?]; [|by apply Ht2|done|by etrans].
    split_and!; [done|done|]. intros Hd. by apply (Hno Hd). }
  destruct r as [e|[x|]]; [done| |].
  - destruct x; try (by apply Hfail). intros [= <- <-]. split_and!; [done| |intros Hd; by apply (Hno Hd)].
    left. split; [done|]. destruct Hg as (h3 & Ht3 & Hrest). exists h3. split; [by etrans|done].
  - intros E. apply (push_revoked a (Some true) h) in E as (? & ? & _); [|by apply Hg|done|done|by etrans].
    split_and!; [done|done|]. intros Hd. by apply (Hno Hd).
Qed.

(** ** The sweep of the rollback target, and the marker *)

Lemma record_put detail now (h : hist H) :
  constraints (g_db h.1) ->
  exists d, record_revoke detail now h = put_db d h /\ d_settings d = d_settings (g_db h.1) /\ constraints d.
Proof.
  intros Hc. unfold record_revoke, run_db.
  destruct (record_run "rw-revoke" detail now (g_db h.1) Hc) as (d' & -> & Hc' & Hs & _). by exists d'.
Qed.

Lemma clear_run d : constraints d ->
  rw_clear_reconcile_pending d = (inr true, with_setting RW_PENDING_KEY "" d).
Proof.
  intros Hc. unfold rw_clear_reconcile_pending. rewrite set_setting_with by done.
  by rewrite get_with_setting, decide_True.
Qed.

Lemma cleared_rw d : same_rw d (with_setting RW_PENDING_KEY "" d).
Proof.
  intros k Hk. rewrite get_with_setting, decide_False; [done|]. intros <-. revert Hk. apply (bool_decide_unpack _). by vm_compute.
Qed.

Lemma cleared_pending d : rw_reconcile_is_pending (with_setting RW_PENDING_KEY "" d) = false.
Proof. unfold rw_reconcile_is_pending. by rewrite get_with_setting, decide_True. Qed.

(** Whatever the store does: an answer, the marker gone or nothing written, and yes only with the marker gone. *)
Lemma clear_marker_run c d : constraints d -> exists b d', rw_clear_marker c d = (inr b, d') /\
  (d' = d \/ d' = with_setting RW_PENDING_KEY "" d) /\ (b = true -> rw_reconcile_is_pending d' = false) /\
  (c = ClearTaken -> b = true).
Proof.
  intros Hc. destruct c; cbn [rw_clear_marker].
  - rewrite clear_run by done. eexists _, _. split; [done|]. split; [by right|]. split; [intros _; apply cleared_pending|done].
  - eexists _, _. split; [done|]. split; [by left|done].
  - eexists _, d. split; [done|]. split; [by left|]. split; [|done]. by intros ->%negb_true_iff.
  - rewrite clear_run by done. eexists _, _. split; [done|]. split; [by right|done].
Qed.
Lemma clear_marker_rw c d : constraints d -> same_rw d (rw_clear_marker c d).2.
Proof. intros Hc. destruct (clear_marker_run c d Hc) as (b & d' & -> & [-> | ->] & _); [done|apply cleared_rw]. Qed.

(** A state a crash may leave: the marker is set, or nothing runs in excess. *)
Definition recoverable (g : gateway H) : Prop := rw_reconcile_is_pending (g_db g) = true \/ serves_granted g.

Lemma serves_same (g g' : gateway H) :
  same_rw (g_db g) (g_db g') -> g_sup g' = g_sup g -> serves_granted g -> serves_granted g'.
Proof. intros Hm Hs Hg pid c. rewrite Hs. intros Hp. rewrite (same_rw_excess _ (g_db g)) by done. by apply (Hg pid). Qed.

Lemma recoverable_same (g g' : gateway H) :
  same_marks (g_db g) (g_db g') -> g_sup g' = g_sup g -> recoverable g -> recoverable g'.
Proof.
  intros Hm Hs [Hp|Hg]; [left; by rewrite (same_marks_pending _ _ Hm)|right].
  eapply serves_same; [by apply same_marks_rw|done|done].
Qed.

Lemma tame_past (h h' : hist H) :
  tame h h' -> rw_reconcile_is_pending (g_db h.1) = true ->
  exists past, h'.2 = past ++ h.2 /\ Forall recoverable (h'.1 :: past).
Proof.
  intros (Hm & _ & past & Hp & HF) Hpe. exists past. split; [done|]. constructor.
  - left. by rewrite (same_marks_pending _ _ Hm).
  - eapply Forall_impl; [exact HF|]. simpl. intros g Hg. left. by rewrite (same_marks_pending _ _ Hg).
Qed.

Lemma revoked_past (h : hist H) how h' :
  revoked_to h how h' -> rw_reconcile_is_pending (g_db h.1) = true ->
  exists past, h'.2 = past ++ h.2 /\ Forall recoverable (h'.1 :: past).
Proof.
  intros [(_ & h1 & Ht & Hs & _ & d & -> & Hsame & _)|[Ht _]] Hp; [|by apply tame_past].
  destruct (tame_past h h1 Ht Hp) as (past & Hpast & HF). exists (h1.1 :: past). simpl. rewrite Hpast. split; [done|].
  constructor; [|done]. right. eapply (serves_same h1.1); [|done|done].
  intros k Hk. apply Hsame. revert Hk. intros Hk Hin. apply list_elem_of_singleton in Hin as ->. revert Hk.
  apply (bool_decide_unpack _). by vm_compute.
Qed.

(** What every revocation leaves. *)
Lemma revoke_facts a (h : hist H) how h' :
  constraints (g_db h.1) -> inv digest (g_sup h.1) -> rw_revoke a h = (how, h') ->
  exists h1 h2, revoked_to h how h1 /\ inv digest (g_sup h1.1) /\ (dead (g_sup h.1) -> dead (g_sup h1.1)) /\
    g_sup h2.1 = g_sup h1.1 /\ same_marks (g_db h1.1) (g_db h2.1) /\ constraints (g_db h2.1) /\
    g_disk h2.1 = (invalidate_rollback (a_invalidate a) (g_disk h1.1)).2 /\
    (exists past, h2.2 = past ++ h1.2 /\
       Forall (fun g => same_marks (g_db h1.1) (g_db g) /\ g_sup g = g_sup h1.1) past) /\
    h' = if bool_decide (how ∈ RW_RECONCILED) then put_db (rw_clear_marker (a_clear a) (g_db h2.1)).2 h2 else h2.
Proof.
  intros Hc Hi. unfold Revocation.rw_revoke. destruct (rw_revoke_apply a h) as [how1 h1] eqn:E1.
  apply revoke_apply_facts in E1 as (Hi1 & Hr & Hd); [|done..].
  assert (constraints (g_db h1.1)) as Hc1.
  { destruct Hr as [(_ & h3 & _ & _ & _ & d & -> & _ & _ & Hcd)|[Ht _]]; [done|by apply Ht]. }
  destruct (invalidate_rollback (a_invalidate a) (g_disk h1.1)) as [dropped k] eqn:Ei.
  set (text := "could not drop the rollback target after a remote-access revocation — rolling back may reinstate the revoked device").
  destruct (record_put text (a_now a) (put_disk k h1) Hc1) as (d & Erec & Hsd & Hcd). rewrite Erec.
  set (h2 := if dropped then put_disk k h1 else put_db d (put_disk k h1)).
  assert (g_sup h2.1 = g_sup h1.1 /\ same_marks (g_db h1.1) (g_db h2.1) /\ constraints (g_db h2.1) /\ g_disk h2.1 = k /\
    exists past, h2.2 = past ++ h1.2 /\ Forall (fun g => same_marks (g_db h1.1) (g_db g) /\ g_sup g = g_sup h1.1) past)
    as (Hsup & Hm & Hc2 & Hk & Hpast).
  { unfold h2. destruct dropped; split_and!; try done.
    - exists [h1.1]. split; [done|]. by repeat constructor.
    - by apply same_settings_marks.
    - exists [(put_disk k h1).1; h1.1]. split; [done|]. by repeat constructor. }
  unfold run_db. intros E. exists h1, h2.
  assert (how1 = how /\ h' = if bool_decide (how ∈ RW_RECONCILED) then put_db (rw_clear_marker (a_clear a) (g_db h2.1)).2 h2 else h2) as [-> ->].
  { fold h2 in E. destruct (rw_clear_marker (a_clear a) (g_db h2.1)) as [r d']. cbn [snd] in *. destruct (bool_decide_reflect (how1 ∈ RW_RECONCILED)); injection E as <- <-; [by rewrite bool_decide_true|by rewrite bool_decide_false]. }
  rewrite Ei. split_and!; done.
Qed.

(** A marker that was replaced says so. *)
Lemma invalidated_no_target w k lg r :
  w PMarker = WDone r -> rollback_target digest (invalidate_rollback w k).2 <> inr (Some lg).
Proof.
  intros Hw. apply no_target_invalid. unfold invalidate_rollback, invalidate_provenance_durably, write_atomic. by rewrite Hw.
Qed.

(** ** The retry *)

(** The live file already says what the store grants. *)
Definition in_line (d : db) (k : disk) : Prop :=
  exists cfg, rw_config_from_disk k = Some cfg /\ rw_reconciled s (rw_inbound json_loads d) cfg = cfg.

Lemma in_line_no_write w1 w2 d k : in_line d k -> rw_write_config s xray digest json_loads w1 w2 d k = (true, k).
Proof.
  intros (cfg & Hk & Hr). unfold rw_write_config. rewrite Hk. simpl. rewrite Hr. by rewrite bool_decide_true.
Qed.

Lemma in_line_no_excess d k : in_line d k -> file_excess d (cur (f_config k)) = false.
Proof.
  intros (cfg & Hk & Hr). unfold RevocationFacts.file_excess. unfold rw_config_from_disk in Hk. rewrite Hk. simpl.
  apply agrees_no_excess. rewrite <-Hr. apply reconciled_agrees. unfold config_of in Hk.
  destruct (cur (f_config k)) as [[j| |]|]; try done. destruct (rw_config_shape j) eqn:E; [by injection Hk as <-|done].
Qed.

Lemma push_in_line a run quiet (h : hist H) how h' :
  constraints (g_db h.1) -> inv digest (g_sup h.1) -> in_line (g_db h.1) (g_disk h.1) ->
  rw_push_to_runtime s xray digest json_loads a run quiet h = (how, h') -> g_disk h'.1 = g_disk h.1.
Proof.
  intros Hc Hi Hl. unfold rw_push_to_runtime. rewrite in_line_no_write by done. pose proof (in_line_no_excess _ _ Hl) as Hx.
  assert (forall (h1 : hist H) how h', constraints (g_db h1.1) -> inv digest (g_sup h1.1) -> g_disk h1.1 = g_disk h.1 ->
    rw_fail_safe_stop s a run quiet h1 = (how, h') -> g_disk h'.1 = g_disk h.1) as Hstop.
  { intros h1 how1 h2 Hc1 Hi1 Hd E. apply (fail_safe_facts s digest) in E as (_ & _ & Hd2 & _); [|done..]. congruence. }
  assert (forall (h1 : hist H) how_none how h', g_db h1.1 = g_db h.1 -> g_sup h1.1 = g_sup h.1 -> g_disk h1.1 = g_disk h.1 ->
    match rw_reload_if_running s xray digest json_loads a (child_exits (a_exit a) h1) with
    | (Some true, h) => ("rebuilt", h)
    | (None, h) => (how_none, h)
    | (Some false, h) => rw_fail_safe_stop s a run quiet h
    end = (how, h') -> g_disk h'.1 = g_disk h.1) as Hre.
  { intros h1 hn how1 h3 E1 E2 E3. destruct (child_exits_facts digest (a_exit a) h1) as (_ & Edb & Ed & Ei).
    rewrite E2 in Ei. destruct (Ei Hi) as [Hi1 _].
    destruct (rw_reload_if_running s xray digest json_loads a _) as [b h2] eqn:Er.
    apply reload_facts in Er as (_ & Hi2 & Hd2 & Hdb2 & _); [|done|by rewrite Edb, E1|done|by rewrite Edb, E1, Ed, E3].
    assert (g_disk h2.1 = g_disk h.1) as Hd by congruence.
    destruct b as [[]|]; [by intros [= <- <-]| |by intros [= <- <-]]. apply Hstop; [|done|done].
    by rewrite Hdb2, Edb, E1. }
  destruct (negb (rw_live_inbound (g_disk h.1))); destruct run as [[]|];
    try (by intros [= <- <-]); first [by apply Hre|by apply Hstop|idtac].
Qed.

Lemma drop_unsafe_facts a (h : hist H) :
  let h' := rw_drop_unsafe_rollback digest json_loads a h in
  g_db h'.1 = g_db h.1 /\ g_sup h'.1 = g_sup h.1 /\ f_config (g_disk h'.1) = f_config (g_disk h.1) /\
  (forall lg, rollback_target digest (g_disk h.1) = inr (Some lg) ->
     rw_excess (rw_inbound json_loads (g_db h.1)) lg = false -> h' = h) /\
  (forall lg r, a_invalidate a PMarker = WDone r -> rollback_target digest (g_disk h'.1) = inr (Some lg) ->
     rw_excess (rw_inbound json_loads (g_db h'.1)) lg = false).
Proof.
  unfold rw_drop_unsafe_rollback.
  set (safe := match rollback_target digest (g_disk h.1) with inr (Some c) => _ | _ => false end).
  assert (f_config (invalidate_rollback (a_invalidate a) (g_disk h.1)).2 = f_config (g_disk h.1)) as Hcfg.
  { unfold invalidate_rollback, invalidate_provenance_durably, write_atomic. by destruct (a_invalidate a PMarker). }
  destruct safe eqn:Es; simpl; split_and!; try done.
  - intros lg r _ Hlg. unfold safe in Es. rewrite Hlg in Es. by apply negb_true_iff in Es.
  - intros lg Hlg Hx. unfold safe in Es. rewrite Hlg, Hx in Es. done.
  - intros lg r Hw Hlg. by apply (invalidated_no_target _ _ _ _ Hw) in Hlg.
Qed.

Lemma recovery_facts a (h : hist H) b h' :
  constraints (g_db h.1) -> inv digest (g_sup h.1) -> rw_reconcile_is_pending (g_db h.1) = true ->
  rw_reconcile_pending s xray digest json_loads a h = (b, h') ->
  (g_db h'.1 = g_db h.1 \/ g_db h'.1 = with_setting RW_PENDING_KEY "" (g_db h.1)) /\ (b = true -> rw_reconcile_is_pending (g_db h'.1) = false) /\
  (b = true -> serves_granted h'.1) /\ (dead (g_sup h.1) -> dead (g_sup h'.1)) /\
  (forall lg r, a_invalidate a PMarker = WDone r -> rollback_target digest (g_disk h'.1) = inr (Some lg) ->
     rw_excess (rw_inbound json_loads (g_db h'.1)) lg = false) /\
  (in_line (g_db h.1) (g_disk h.1) -> forall lg, rollback_target digest (g_disk h.1) = inr (Some lg) ->
     rw_excess (rw_inbound json_loads (g_db h.1)) lg = false -> g_disk h'.1 = g_disk h.1).
Proof.
  intros Hc Hi Hp. unfold rw_reconcile_pending. rewrite Hp. simpl. unfold rw_reconcile_runtime.
  destruct (rw_supervisor_running (a_query a) h) as [run h1] eqn:Eo.
  apply (observe_facts digest) in Eo as (_ & Hdb1 & Hd1 & Hprocs & Ho & _). destruct (Ho Hi) as [Hi1 Hdead1].
  destruct (rw_push_to_runtime s xray digest json_loads a run true h1) as [how h2] eqn:Ep.
  assert (in_line (g_db h1.1) (g_disk h1.1) -> g_disk h2.1 = g_disk h1.1) as Hline.
  { intros Hl. eapply push_in_line; [..|exact Ep]; [by rewrite Hdb1|done|done]. }
  apply push_facts in Ep as (_ & Hi2 & Hserve & Hfew & _ & Hq); [|done|by rewrite Hdb1|done|done].
  specialize (Hq eq_refl). destruct (drop_unsafe_facts a h2) as (Hdb3 & Hs3 & _ & Hkeep & Hsafe).
  set (h3 := rw_drop_unsafe_rollback digest json_loads a h2) in *.
  assert (g_db h3.1 = g_db h.1) as Hdb by congruence.
  assert (dead (g_sup h.1) -> dead (g_sup h3.1)) as Hdd.
  { rewrite Hs3. intros Hd. assert (dead (g_sup h1.1)) as Hd' by (unfold dead; by rewrite Hprocs).
    eapply fewer_dead; [|exact Hd']. apply Hfew. destruct (child_exits_facts digest (a_exit a) h1) as (_ & _ & _ & Hx).
    destruct (Hx Hi1) as (_ & _ & Hfx). by eapply fewer_dead. }
  assert (in_line (g_db h.1) (g_disk h.1) -> forall lg, rollback_target digest (g_disk h.1) = inr (Some lg) ->
     rw_excess (rw_inbound json_loads (g_db h.1)) lg = false -> g_disk h3.1 = g_disk h.1) as Hdisk.
  { intros Hl lg Hlg Hx. assert (g_disk h2.1 = g_disk h.1) as E2 by (rewrite <-Hd1; apply Hline; by rewrite Hdb1, Hd1).
    rewrite (Hkeep lg); [done|by rewrite E2|by rewrite Hq, Hdb1]. }
  destruct (bool_decide_reflect (how ∈ RW_RECONCILED)) as [Hin|Hout].
  - unfold run_db. rewrite Hdb. destruct (clear_marker_run (a_clear a) (g_db h.1) Hc) as (cl & d' & E & Hd' & Hb & _).
    pose proof (clear_marker_rw (a_clear a) (g_db h.1) Hc) as Hrw. rewrite E in Hrw |- *. intros [= <- <-]. rewrite bool_decide_true by done. simpl in *.
    split_and!; try done.
    + intros _. eapply (serves_same h2.1); [|done|by apply Hserve]. by rewrite Hq, Hdb1.
    + intros lg r Hw Hlg. rewrite (same_rw_now _ (g_db h.1)) by done. rewrite <-Hdb. by apply (Hsafe lg r).
  - intros [= <- <-]. rewrite bool_decide_false by done. split_and!; try done. by left.
Qed.

(** ** Promotion of the rollback target *)

Lemma rollback_config w k r k' candidate :
  rollback_target digest k = inr (Some candidate) -> rollback digest w k = (r, k') ->
  (f_config k' = f_config k \/ cur (f_config k') = Some (CJson candidate)) /\
  (r = inr true -> cur (f_config k') = Some (CJson candidate)).
Proof.
  intros Ht. unfold rollback. rewrite Ht.
  destruct (write_atomic w PConfig candidate k) as [[b|] k1] eqn:E1.
  2: { intros [= <- <-]. apply write_raised in E1 as ->. by split; [left|]. }
  apply (write_same_path w PConfig) in E1. simpl in E1.
  destruct (write_atomic w PMarker _ k1) as [[b'|] k2] eqn:E2; intros [= <- <-];
    apply (write_other_path w PMarker PConfig) in E2; [|done| |done]; simpl in E2; rewrite E2; auto.
Qed.

Lemma promotion_facts a candidate (h : hist H) r h' :
  constraints (g_db h.1) -> rollback_target digest (g_disk h.1) = inr (Some candidate) ->
  rw_guard_promotion s xray digest json_loads a candidate h = (r, h') ->
  calm h h' /\ g_sup h'.1 = g_sup h.1 /\
  (f_config (g_disk h'.1) = f_config (g_disk h.1) \/ file_excess (g_db h'.1) (cur (f_config (g_disk h'.1))) = false) /\
  (r = Promoted -> file_excess (g_db h'.1) (cur (f_config (g_disk h'.1))) = false) /\
  (r = RefusedExcess -> f_config (g_disk h'.1) = f_config (g_disk h.1)).
Proof.
  intros Hc Ht. unfold rw_guard_promotion. set (now := rw_inbound json_loads (g_db h.1)).
  destruct (rw_excess now candidate) eqn:Ex; simpl.
  - set (clean := if rw_config_shape candidate then Some (rw_reconciled s now candidate) else None).
    destruct clean as [cfg|] eqn:Ecl.
    2: { intros [= <- <-]. by split_and!; auto. }
    assert (agrees now cfg) as Hag.
    { unfold clean in Ecl. destruct (rw_config_shape candidate) eqn:Es; [|done]. injection Ecl as <-.
      by apply reconciled_agrees. }
    rewrite (agrees_no_excess now cfg Hag). simpl.
    destruct (apply_irreversible xray (a_promote a) cfg (g_disk h.1)) as [w k] eqn:Ea. apply irreversible_files in Ea.
    assert (calm h (put_disk k h)) as Hca by (by apply push_calm).
    destruct w as [f|[[] out]]; [by intros [= <- <-]; split_and!; auto| |by intros [= <- <-]; split_and!; auto].
    destruct Ea as [Hk _]. set (text := "cleaned a remote-access grant the store no longer makes out of the rollback target before promoting it").
    destruct (record_calm text (a_now a) (put_disk k h) Hc) as (Hca2 & Hd & Hs & _). intros [= <- <-].
    assert (file_excess (g_db (record_revoke text (a_now a) (put_disk k h)).1)
              (cur (f_config (g_disk (record_revoke text (a_now a) (put_disk k h)).1))) = false) as Hclean.
    { rewrite Hd. simpl. rewrite Hk, (same_rw_excess _ (g_db h.1)) by (by apply (calm_rw _ _ Hca2)). by apply agrees_file. }
    split_and!; [by etrans|by rewrite Hs|by right|done|done].
  - destruct (rollback digest (a_promote a) (g_disk h.1)) as [w k] eqn:Er.
    apply (rollback_config _ _ _ _ _ Ht) in Er as [Hor Htrue]. intros [= <- <-].
    assert (forall c, cur (f_config k) = Some (CJson c) -> c = candidate -> file_excess (g_db h.1) (cur (f_config k)) = false) as Hx.
    { intros c -> ->. unfold RevocationFacts.file_excess, config_of. destruct (rw_config_shape candidate); done. }
    split_and!; [by apply push_calm|done| | |].
    + destruct Hor as [Hor|Hor]; [by left|right]. by eapply Hx.
    + destruct w as [|[]]; try done. intros _. eapply Hx; [by apply Htrue|done].
    + by destruct w as [|[]].
Qed.

(** With signals that work every push ends reconciled. *)
Lemma stop_works e st : is_Some (on_term e) \/ is_Some (on_kill e) -> (stop e st).1 = true.
Proof.
  intros Hk. unfold stop, stop_child. simpl. destruct (proc st.1) as [pid|]; [|done].
  destruct (poll st.2 pid); [done|]. destruct (on_term e); [done|]. destruct (on_kill e); [done|].
  destruct Hk as [Hk|Hk]; by apply is_Some_None in Hk.
Qed.

Lemma fail_safe_stops a run quiet (h : hist H) :
  a_stop_raised a = None -> is_Some (on_term (a_stop a)) \/ is_Some (on_kill (a_stop a)) ->
  (rw_fail_safe_stop s a run quiet h).1 = "stopped".
Proof.
  intros Hr Hk. unfold rw_fail_safe_stop, stop_detail_of. rewrite Hr.
  pose proof (stop_works (at_disk (a_stop a) (g_disk h.1)) (g_sup h.1) Hk) as Hs.
  destruct (stop _ _) as [b u]. simpl in Hs. subst b. by destruct (stop_net _ _ _).
Qed.

Lemma push_reconciles a run quiet (h : hist H) how h' :
  a_stop_raised a = None -> is_Some (on_term (a_stop a)) \/ is_Some (on_kill (a_stop a)) ->
  rw_push_to_runtime s xray digest json_loads a run quiet h = (how, h') -> how ∈ RW_RECONCILED.
Proof.
  intros Hr Hk E. assert (how = (rw_push_to_runtime s xray digest json_loads a run quiet h).1) as -> by (by rewrite E).
  assert (forall run (h : hist H), (rw_fail_safe_stop s a run quiet h).1 ∈ RW_RECONCILED) as Hstop.
  { intros r h1. rewrite fail_safe_stops by done. apply (bool_decide_unpack _). by vm_compute. }
  assert (Forall (fun w => w ∈ RW_RECONCILED) ["rebuilt"; "cleaned"; "not-live"]) as HF.
  { apply (bool_decide_unpack _). by vm_compute. }
  inversion_clear HF as [|? ? H1 HF1]. inversion_clear HF1 as [|? ? H2 HF2]. inversion_clear HF2 as [|? ? H3 _].
  unfold rw_push_to_runtime. destruct (negb (rw_live_inbound (g_disk h.1))).
  - destruct run as [[]|]; [|done|done]. by destruct (rw_reload_if_running _ _ _ _ _ _) as [[[]|] h1].
  - destruct (rw_write_config _ _ _ _ _ _ _ _) as [[] k]; destruct run as [[]|]; try done.
    by destruct (rw_reload_if_running _ _ _ _ _ _) as [[[]|] h1].
Qed.

(** An outcome that counts as reconciled. *)
Lemma revoke_serves a (h : hist H) how h' :
  constraints (g_db h.1) -> inv digest (g_sup h.1) -> rw_revoke a h = (how, h') -> how ∈ RW_RECONCILED ->
  serves_granted h'.1 /\ same_rw (g_db h.1) (g_db h'.1) /\ (a_clear a = ClearTaken -> rw_reconcile_is_pending (g_db h'.1) = false) /\
  exists k, g_disk h'.1 = (invalidate_rollback (a_invalidate a) k).2.
Proof.
  intros Hc Hi E Hin. apply revoke_facts in E as (h1 & h2 & Hr & Hi1 & _ & Hsup & Hm & Hc2 & Hk & _ & ->); [|done..].
  rewrite bool_decide_true by done.
  assert (serves_granted h1.1 /\ same_rw (g_db h.1) (g_db h1.1)) as [Hs Hrw].
  { destruct Hr as [(_ & h3 & Ht & Hs & _ & d & -> & Hsame & _)|[Ht Hs]]; [|split; [auto|by apply same_marks_rw, Ht]].
    assert (same_rw (g_db h3.1) d) as Hd.
    { intros k Hkin. apply Hsame. intros ->%list_elem_of_singleton. revert Hkin. apply (bool_decide_unpack _). by vm_compute. }
    split; [by eapply (serves_same h3.1)|]. intros k Hkin. simpl. rewrite Hd by done. by apply (same_marks_rw _ _ (proj1 Ht)). }
  assert (same_rw (g_db h1.1) (rw_clear_marker (a_clear a) (g_db h2.1)).2) as Hrw2.
  { intros k Hkin. rewrite (clear_marker_rw _ _ Hc2 k Hkin). by apply (same_marks_rw _ _ Hm). }
  split_and!; [by eapply (serves_same h1.1)| | |by eauto].
  2: { destruct (clear_marker_run (a_clear a) (g_db h2.1) Hc2) as (b & d' & E & _ & Hb & Ht). simpl. rewrite E. intros Hx. by apply Hb, Ht. }
  intros k Hkin. simpl. rewrite Hrw2 by done. by apply Hrw.
Qed.

(** What every revocation keeps. *)
Lemma revoke_keeps_rw a (h : hist H) how h' :
  constraints (g_db h.1) -> inv digest (g_sup h.1) -> rw_revoke a h = (how, h') -> same_rw (g_db h.1) (g_db h'.1).
Proof.
  intros Hc Hi E. destruct (decide (how ∈ RW_RECONCILED)) as [Hin|Hout]; [by apply revoke_serves in E as (_ & ? & _)|].
  apply revoke_facts in E as (h1 & h2 & Hr & _ & _ & _ & Hm & _ & _ & _ & ->); [|done..].
  rewrite bool_decide_false by done. destruct Hr as [[-> _]|[Ht _]]; [by destruct Hout; apply (bool_decide_unpack _); vm_compute|].
  intros k Hk. rewrite (same_marks_rw _ _ Hm) by done. by apply (same_marks_rw _ _ (proj1 Ht)).
Qed.

Lemma revoke_unconfirmed a (h : hist H) how h' :
  constraints (g_db h.1) -> inv digest (g_sup h.1) -> rw_revoke a h = (how, h') -> how ∉ RW_RECONCILED ->
  rw_reconcile_is_pending (g_db h'.1) = rw_reconcile_is_pending (g_db h.1).
Proof.
  intros Hc Hi E Hout. apply revoke_facts in E as (h1 & h2 & Hr & _ & _ & _ & Hm & _ & _ & _ & ->); [|done..].
  rewrite bool_decide_false by done. destruct Hr as [[-> _]|[Ht _]]; [by destruct Hout; apply (bool_decide_unpack _); vm_compute|].
  by rewrite (same_marks_pending _ _ Hm), (same_marks_pending _ _ (proj1 Ht)).
Qed.

End revoke.

(** * The theorems *)

Section theorems.
Context `{NetHost H}.
Context (s : settings).
Context (xray : json -> test_result).
Context (digest : json -> string).
Context (json_loads : string -> option json).
Context (error_text : exn + apply_result -> string).

(** C30: an outcome that says a revocation reached the runtime is true.  When [_rw_revoke] answers
    reapplied, rebuilt, cleaned, not-live or stopped, then whatever failed on the way every xray
    child that runs was started on a file granting no more than the store grants, the durable
    marker is cleared if the store takes that write, what the store grants is untouched, and unless the
    rollback marker could not be written at all there is no configuration left to roll back to. *)
Theorem revoke_outcome_true a (h : hist H) how h' (Hcf : collision_free digest)
    (Hc : constraints (g_db h.1)) (Hi : inv digest (g_sup h.1))
    (E : rw_revoke s xray digest json_loads error_text a h = (how, h')) (Hin : how ∈ RW_RECONCILED) :
  serves_granted json_loads h'.1 /\ (a_clear a = ClearTaken -> rw_reconcile_is_pending (g_db h'.1) = false) /\
  rw_inbound json_loads (g_db h'.1) = rw_inbound json_loads (g_db h.1) /\
  (a_invalidate a PMarker <> WRaise -> forall lg, rollback_target digest (g_disk h'.1) <> inr (Some lg)).
Proof.
  apply revoke_serves in E as (Hs & Hrw & Hp & k & Hk); [|done..]. split_and!; [done|done|by apply same_rw_now|].
  intros Hw lg. rewrite Hk. destruct (a_invalidate a PMarker) as [|r] eqn:Ew; [done|]. by eapply invalidated_no_target.
Qed.

(** C31: a crash anywhere in a revocation is recoverable.  Once the narrowing is committed with its
    marker, every state the gateway passes through, the last included, still has the marker set,
    or runs no xray child in excess of the store; and an outcome that could not be confirmed
    leaves the marker set. *)
Theorem revoke_crash_safe a (h : hist H) how h' (Hcf : collision_free digest)
    (Hc : constraints (g_db h.1)) (Hi : inv digest (g_sup h.1)) (Hp : rw_reconcile_is_pending (g_db h.1) = true)
    (E : rw_revoke s xray digest json_loads error_text a h = (how, h')) :
  (exists past, h'.2 = past ++ h.2 /\ Forall (recoverable json_loads) (h'.1 :: past)) /\
  (how ∉ RW_RECONCILED -> rw_reconcile_is_pending (g_db h'.1) = true).
Proof.
  pose proof (fun Hin => revoke_serves s xray digest json_loads error_text Hcf a h how h' Hc Hi E Hin) as Hout.
  pose proof (revoke_unconfirmed s xray digest json_loads error_text Hcf a h how h' Hc Hi E) as Hsame.
  apply revoke_facts in E as (h1 & h2 & Hr & _ & _ & Hsup & Hm & _ & _ & (past2 & Hp2 & HF2) & Eh); [|done..].
  destruct (revoked_past json_loads h how h1 Hr Hp) as (past1 & Hp1 & HF1).
  inversion HF1 as [|? ? Hrec1 HF1']; subst.
  assert (recoverable json_loads h2.1) as Hrec2 by (by eapply recoverable_same).
  assert (Forall (recoverable json_loads) (past2 ++ past1)) as HF.
  { apply Forall_app. split; [|done]. eapply Forall_impl; [exact HF2|]. simpl. intros g [Hg1 Hg2]. by eapply recoverable_same. }
  case_bool_decide as Hin.
  - split; [|done]. exists (h2.1 :: past2 ++ past1). simpl. rewrite Hp2, Hp1, app_assoc. split; [done|].
    constructor; [right; by apply Hout|]. by constructor.
  - split.
    + exists (past2 ++ past1). rewrite Hp2, Hp1, app_assoc. split; [done|]. by constructor.
    + intros _. by rewrite Hsame.
Qed.

(** a revocation never starts xray.  With no child running, [_rw_revoke] leaves none running,
    whatever its branches do; and when the child exits by itself between the sample of its state
    and the reload, the push into the runtime starts no other one. *)
Theorem revoke_never_starts a (h : hist H) (Hcf : collision_free digest)
    (Hc : constraints (g_db h.1)) (Hi : inv digest (g_sup h.1)) :
  (dead (g_sup h.1) -> dead (g_sup (rw_revoke s xray digest json_loads error_text a h).2.1)) /\
  (is_Some (a_exit a) -> forall run quiet, (run = Some false -> dead (g_sup h.1)) ->
     fewer (g_sup h.1) (g_sup (rw_push_to_runtime s xray digest json_loads a run quiet h).2.1)).
Proof.
  split.
  - intros Hd. destruct (rw_revoke s xray digest json_loads error_text a h) as [how h'] eqn:E.
    apply revoke_facts in E as (h1 & h2 & _ & _ & Hdead & Hsup & _ & _ & _ & _ & ->); [|done..].
    case_bool_decide; simpl; rewrite Hsup; auto.
  - intros Hx run quiet Hrun. destruct (rw_push_to_runtime s xray digest json_loads a run quiet h) as [how h'] eqn:E.
    apply push_facts in E as (_ & _ & _ & Hf & _); [|done..]. apply Hf.
    destruct (child_exits_facts digest (a_exit a) h) as (_ & _ & _ & Hex). by apply Hex.
Qed.

(** no start serves what was revoked.  Every xray child that a guarded start or reload brings
    up was started on a file that grants no more than the store, whether that file was already
    so or the guard rewrote it; when neither is possible nothing is started. *)
Theorem starts_granted a (h : hist H) (Hcf : collision_free digest)
    (Hc : constraints (g_db h.1)) (Hi : inv digest (g_sup h.1)) :
  forall h', h' = (sup_start s xray digest json_loads a h).2 \/ h' = (sup_reload s xray digest json_loads a h).2 ->
  rw_inbound json_loads (g_db h'.1) = rw_inbound json_loads (g_db h.1) /\
  forall pid c, procs (g_sup h'.1).2 !! pid = Some (Alive c) -> procs (g_sup h.1).2 !! pid <> Some (Alive c) ->
    file_excess json_loads (g_db h'.1) c = false.
Proof.
  intros h' [-> | ->].
  - destruct (sup_start s xray digest json_loads a h) as [f h1] eqn:E.
    apply sup_start_facts in E as (Hca & _ & Hnew); [|done..]. split; [by apply same_rw_now, calm_rw|done].
  - destruct (sup_reload s xray digest json_loads a h) as [r h1] eqn:E.
    apply sup_reload_facts in E as (Hca & _ & _ & _ & Hnew & _); [|done..]. split; [by apply same_rw_now, calm_rw|done].
Qed.

(** the retry of a revocation is sound and does nothing else.  Called on a pending revocation,
    [rw_reconcile_pending] changes nothing in the database but the marker (so it files no event),
    answers yes only when it is gone, and then no running child is in excess; it never
    starts xray; any configuration it leaves to roll back to is one the store grants; and when
    the live file and the rollback target already agree with the store, it writes neither. *)
Theorem recovery_sound a (h : hist H) b h' (Hcf : collision_free digest)
    (Hc : constraints (g_db h.1)) (Hi : inv digest (g_sup h.1)) (Hp : rw_reconcile_is_pending (g_db h.1) = true)
    (E : rw_reconcile_pending s xray digest json_loads a h = (b, h')) :
  (g_db h'.1 = g_db h.1 \/ g_db h'.1 = with_setting RW_PENDING_KEY "" (g_db h.1)) /\ (b = true -> rw_reconcile_is_pending (g_db h'.1) = false) /\
  (b = true -> serves_granted json_loads h'.1) /\ (dead (g_sup h.1) -> dead (g_sup h'.1)) /\
  (a_invalidate a PMarker <> WRaise -> forall lg, rollback_target digest (g_disk h'.1) = inr (Some lg) ->
     rw_excess (rw_inbound json_loads (g_db h'.1)) lg = false) /\
  (in_line s json_loads (g_db h.1) (g_disk h.1) -> forall lg, rollback_target digest (g_disk h.1) = inr (Some lg) ->
     rw_excess (rw_inbound json_loads (g_db h.1)) lg = false -> g_disk h'.1 = g_disk h.1).
Proof.
  apply recovery_facts in E as (Hdb & Hm & Hs & Hd & Hr & Hl); [|done..]. split_and!; try done.
  intros Hw lg. destruct (a_invalidate a PMarker) as [|r] eqn:Ew; [done|]. by apply (Hr lg r).
Qed.

(** C32: a pending revocation is finished as soon as xray can be stopped.  If the stop does not raise
    and the child dies on SIGTERM or SIGKILL, one call of [rw_reconcile_pending] leaves no xray child in
    excess of the store, whatever fails with the supervisor's status, the configuration files, [xray -test],
    the node to rebuild from and the reload.  It answers yes only with the marker gone; and it does answer
    yes when the store takes the write that clears it. *)
Theorem recovery_completes a (h : hist H) (Hcf : collision_free digest)
    (Hc : constraints (g_db h.1)) (Hi : inv digest (g_sup h.1)) (Hp : rw_reconcile_is_pending (g_db h.1) = true)
    (Hraise : a_stop_raised a = None) (Hkill : is_Some (on_term (a_stop a)) \/ is_Some (on_kill (a_stop a))) :
  exists b h', rw_reconcile_pending s xray digest json_loads a h = (b, h') /\ serves_granted json_loads h'.1 /\
    (b = true -> rw_reconcile_is_pending (g_db h'.1) = false) /\ (a_clear a = ClearTaken -> b = true).
Proof.
  destruct (rw_reconcile_pending s xray digest json_loads a h) as [b h'] eqn:E. exists b, h'. split; [done|].
  apply recovery_facts in E as Hf; [|done..]. destruct Hf as (_ & Hgone & _). unfold rw_reconcile_pending in E. rewrite Hp in E. simpl in E. unfold rw_reconcile_runtime in E.
  destruct (rw_supervisor_running (a_query a) h) as [run h1] eqn:Eo.
  apply (observe_facts digest) in Eo as (_ & Hdb1 & _ & _ & Ho & _). destruct (Ho Hi) as [Hi1 Hdead].
  destruct (rw_push_to_runtime s xray digest json_loads a run true h1) as [how h2] eqn:Ep.
  apply push_reconciles in Ep as Hin; [|done..].
  apply push_facts in Ep as (_ & _ & Hserve & _ & _ & Hq); [|done|by rewrite Hdb1|done|done]. specialize (Hq eq_refl).
  rewrite bool_decide_true in E by done. unfold run_db in E.
  destruct (drop_unsafe_facts digest json_loads a h2) as (Hdb3 & Hs3 & _).
  assert (g_db (rw_drop_unsafe_rollback digest json_loads a h2).1 = g_db h.1) as Hdb by congruence. rewrite Hdb in E.
  destruct (clear_marker_run (a_clear a) (g_db h.1) Hc) as (cl & d' & Er & _ & _ & Ht).
  pose proof (clear_marker_rw (a_clear a) (g_db h.1) Hc) as Hrw. rewrite Er in E, Hrw. injection E as <- <-. rewrite bool_decide_true in Hgone |- * by done.
  split_and!; [|exact Hgone|exact Ht]. eapply (serves_same json_loads h2.1); [|done|by apply Hserve]. by rewrite Hq, Hdb1.
Qed.

End theorems.

(** A lost phone: its client is deleted from the store, and xray still runs on the configuration
    that granted it. *)
Module Lost.
Import TestHost Switch Roster.

Definition granted_db (clients : list client) : db :=
  set_settings {[ "active_node_id" := "1"; "rw_enabled" := "1"; "rw_private_key" := key43; "rw_short_ids" := "ab12";
                  "rw_clients" := dumps0 (JArr (client_json <$> clients)); "rw_reconcile_pending" := "1" ]}
    (set_nodes {[ 1 := mk_node "a" "10.0.0.1" 443 "u1" ]} empty_db).

Definition node1 : node := row_to_node 1 (mk_node "a" "10.0.0.1" 443 "u1").
Definition old_cfg : json :=
  match build_node_config default_settings loads0 node1 (granted_db [phone; laptop]) with inr c => c | inl _ => JNull end.
Definition old_disk : disk := Disk (File (Some (CJson old_cfg)) []) (File (Some (CJson old_cfg)) []) (File None []).
Definition old_sup : state_t :=
  (start binary_digest (Env true (Some (CJson old_cfg)) Spawned (Some 0) (Some 9) (Some [PollReady])) init).2.
Definition lost : hist host := (Gateway (granted_db [laptop]) old_disk old_sup fresh, []).

Definition fine_writes : oracle := fun _ => WDone Fsynced.
Definition full_disk : oracle := fun _ => WRaise.
(** Everything works; nothing can be written, and xray dies on SIGKILL only. *)
Definition sunny : around :=
  Around true true Switch.calm fine_writes fine_writes None well fine_writes fine_writes well None fine_writes fine_writes 0 ClearTaken.
Definition broken : around :=
  Around true true Switch.calm full_disk full_disk None well full_disk full_disk
    (Env true None Spawned None (Some (-9)) None) None full_disk full_disk 0 ClearTaken.

Definition no_text (_ : exn + apply_result) : string := "".
Definition revoked := rw_revoke default_settings xray_ok binary_digest loads0 no_text sunny lost.
Definition retried := rw_reconcile_pending default_settings xray_ok binary_digest loads0 broken lost.

Lemma lost_constraints : constraints (g_db lost.1).
Proof. apply (bool_decide_unpack _). by vm_compute. Defined.
Lemma lost_inv : inv binary_digest (g_sup lost.1).
Proof. apply reachable_inv. apply (reach_step binary_digest CStart init); [apply reach_init|apply s_start]. Defined.

(** The pairs the calls give, without their states computed. *)
Lemma revoked_eq : rw_revoke default_settings xray_ok binary_digest loads0 no_text sunny lost = ("reapplied", revoked.2).
Proof. assert (revoked.1 = "reapplied") as <- by (by vm_compute). apply surjective_pairing. Qed.
Lemma retried_eq : rw_reconcile_pending default_settings xray_ok binary_digest loads0 broken lost = (true, retried.2).
Proof. assert (retried.1 = true) as <- by (by vm_compute). apply surjective_pairing. Qed.

Example phone_still_served : serves_granted loads0 lost.1 -> False.
Proof.
  intros Hs. assert (file_excess loads0 (g_db lost.1) (Some (CJson old_cfg)) = true) as E by (by vm_compute).
  rewrite (Hs 1 (Some (CJson old_cfg))) in E; [done|by vm_compute].
Qed.

Lemma revoke_outcome_true_witness :
  revoked.1 = "reapplied" /\ serves_granted loads0 revoked.2.1 /\ rw_reconcile_is_pending (g_db revoked.2.1) = false /\
  forall lg, rollback_target binary_digest (g_disk revoked.2.1) <> inr (Some lg).
Proof.
  split; [exact (f_equal fst revoked_eq)|].
  destruct (revoke_outcome_true default_settings xray_ok binary_digest loads0 no_text sunny lost "reapplied" revoked.2
    binary_digest_collision_free lost_constraints lost_inv revoked_eq) as (Hs & Hp & _ & Hr).
  - apply (bool_decide_unpack _). by vm_compute.
  - split; [done|]. split; [by apply Hp|]. by apply Hr.
Defined.

Lemma revoke_crash_safe_witness :
  exists past, revoked.2.2 = past ++ [] /\ Forall (recoverable loads0) (revoked.2.1 :: past).
Proof.
  apply (revoke_crash_safe default_settings xray_ok binary_digest loads0 no_text sunny lost "reapplied" revoked.2
    binary_digest_collision_free lost_constraints lost_inv eq_refl revoked_eq).
Defined.

(** xray is down: the file is cleaned and nothing is started. *)
Definition down : hist host := (Gateway (granted_db [laptop]) old_disk init fresh, []).
Lemma down_constraints : constraints (g_db down.1).
Proof. exact lost_constraints. Defined.
Lemma down_inv : inv binary_digest (g_sup down.1).
Proof. exact (reachable_inv binary_digest init (reach_init binary_digest)). Defined.
Lemma down_dead : dead (g_sup down.1).
Proof. intros pid c. simpl. by rewrite lookup_empty. Defined.

Lemma revoke_never_starts_witness :
  (rw_revoke default_settings xray_ok binary_digest loads0 no_text sunny down).1 = "cleaned" /\
  dead (g_sup (rw_revoke default_settings xray_ok binary_digest loads0 no_text sunny down).2.1).
Proof.
  split; [by vm_compute|].
  exact (proj1 (revoke_never_starts default_settings xray_ok binary_digest loads0 no_text sunny down
    binary_digest_collision_free down_constraints down_inv) down_dead).
Defined.

Lemma starts_granted_witness :
  exists h', h' = (sup_start default_settings xray_ok binary_digest loads0 sunny down).2 /\
    running (g_sup h'.1) = true /\
    forall pid c, procs (g_sup h'.1).2 !! pid = Some (Alive c) -> procs (g_sup down.1).2 !! pid <> Some (Alive c) ->
      file_excess loads0 (g_db h'.1) c = false.
Proof.
  exists (sup_start default_settings xray_ok binary_digest loads0 sunny down).2. split; [reflexivity|]. split; [by vm_compute|].
  exact (proj2 (starts_granted default_settings xray_ok binary_digest loads0 sunny down binary_digest_collision_free
    down_constraints down_inv _ (or_introl eq_refl))).
Defined.

Lemma recovery_sound_witness :
  retried.1 = true /\ rw_reconcile_is_pending (g_db retried.2.1) = false /\
  serves_granted loads0 retried.2.1.
Proof.
  split; [exact (f_equal fst retried_eq)|].
  destruct (recovery_sound default_settings xray_ok binary_digest loads0 broken lost true retried.2
    binary_digest_collision_free lost_constraints lost_inv eq_refl retried_eq) as (_ & Hm & Hs & _).
  split; [by apply Hm|by apply Hs].
Defined.

(** The same with a store that loses the write: the runtime is caught up and the retry is not called finished. *)
Definition forgetful : around :=
  Around true true Switch.calm full_disk full_disk None well full_disk full_disk
    (Env true None Spawned None (Some (-9)) None) None full_disk full_disk 0 ClearLost.
Lemma recovery_completes_witness :
  (rw_reconcile_pending default_settings xray_ok binary_digest loads0 forgetful lost).1 = false /\
  exists b h', rw_reconcile_pending default_settings xray_ok binary_digest loads0 forgetful lost = (b, h') /\ serves_granted loads0 h'.1 /\
    (b = true -> rw_reconcile_is_pending (g_db h'.1) = false) /\ (a_clear forgetful = ClearTaken -> b = true).
Proof.
  split; [by vm_compute|].
  apply (recovery_completes default_settings xray_ok binary_digest loads0 forgetful lost binary_digest_collision_free
    lost_constraints lost_inv eq_refl eq_refl).
  right. by eexists.
Defined.

End Lost.

(** * Editing the configuration that is there gives the configuration a rebuild would give. *)

(** The configurations [build_config] emits. *)
Definition config_shape (log : json) (dns : list (string * json)) (ib ob : list json) (strategy : json) (rl : list json)
    (tail : list (string * json)) : json :=
  JObj ([("log", log); ("dns", JObj dns); ("inbounds", JArr ib); ("outbounds", JArr ob);
         ("routing", JObj [("domainStrategy", strategy); ("rules", JArr rl)])] ++ tail).

Definition lan_hosts_kv (hosts : list (string * string)) : list (string * json) :=
  if bool_decide (hosts = []) then [] else [("hosts", JObj ((fun h => (h.1, JStr h.2)) <$> hosts))].

(** * Rules *)

Definition not_lan (j : json) : Prop := lan_fragment "outboundTag" j = false.

Lemma drop_none l : Forall not_lan l -> drop_lan_rules l = (l, None).
Proof. induction 1 as [|x l Hx _ IH]; simpl; [done|]. rewrite IH. unfold not_lan in Hx. by rewrite Hx. Qed.

Lemma drop_one l n x :
  Forall not_lan l -> lan_fragment "outboundTag" x = true -> (n <= length l)%nat ->
  drop_lan_rules (insert_at n x l) = (l, Some n).
Proof.
  intros HF Hx. revert n. induction HF as [|y l Hy HF IH]; intros n Hn; unfold insert_at in *; simpl in *.
  - destruct n; [|lia]. simpl. by rewrite Hx.
  - destruct n as [|n]; simpl.
    + rewrite (drop_none l HF). unfold not_lan in Hy. by rewrite Hy, Hx.
    + rewrite IH by lia. unfold not_lan in Hy. by rewrite Hy.
Qed.

Lemma insert_at_cons y n x l : insert_at (S n) x (y :: l) = y :: insert_at n x l.
Proof. done. Qed.

Lemma insert_before_last_at x l : insert_before_last x l = insert_at (length l - 1) x l.
Proof. done. Qed.

(** * The edit on such a configuration *)

Section edit.
Context (s : settings) (log : json) (servers : json) (strategy : json) (tail : list (string * json)).

Lemma reconcile_lan_shape hosts hosts' ib ob rl base at_ :
  Forall (fun o => lan_fragment "tag" o = false) ob ->
  drop_lan_rules rl = (base, at_) ->
  rw_reconcile_lan s hosts'
    (config_shape log (("servers", servers) :: lan_hosts_kv hosts) ib
       (ob ++ if bool_decide (hosts = []) then [] else [rw_lan_outbound s]) strategy rl tail) =
  config_shape log (("servers", servers) :: lan_hosts_kv hosts') ib
    (ob ++ if bool_decide (hosts' = []) then [] else [rw_lan_outbound s]) strategy
    (if bool_decide (hosts' = []) then base
     else insert_at (default (length base - 1)%nat at_) (rw_lan_rule hosts') base) tail.
Proof.
  intros Hob Hrl.
  assert (filter (fun o => lan_fragment "tag" o = false) (ob ++ if bool_decide (hosts = []) then [] else [rw_lan_outbound s]) = ob) as Hf.
  { rewrite filter_app. replace (filter _ (if bool_decide (hosts = []) then [] else [rw_lan_outbound s])) with (@nil json)
      by (by case_bool_decide). rewrite app_nil_r. induction Hob as [|o l Ho _ IH]; [done|]. by rewrite filter_cons, decide_True, IH. }
  unfold rw_reconcile_lan.
  set (ob1 := ob ++ (if bool_decide (hosts = []) then [] else [rw_lan_outbound s])) in *.
  set (dns1 := ("servers", servers) :: lan_hosts_kv hosts).
  change (jget "outbounds" (config_shape log dns1 ib ob1 strategy rl tail)) with (Some (JArr ob1)). cbv iota. rewrite Hf.
  change (jset "outbounds" (JArr ob) (config_shape log dns1 ib ob1 strategy rl tail)) with (config_shape log dns1 ib ob strategy rl tail).
  change (jget "dns" (config_shape log dns1 ib ob strategy rl tail)) with (Some (JObj dns1)). cbv iota.
  assert (jdel "hosts" (JObj dns1) = JObj [("servers", servers)]) as ->.
  { unfold dns1, lan_hosts_kv. by case_bool_decide. }
  change (jset "dns" (JObj [("servers", servers)]) (config_shape log dns1 ib ob strategy rl tail))
    with (config_shape log [("servers", servers)] ib ob strategy rl tail).
  change (cfg_rule_list (config_shape log [("servers", servers)] ib ob strategy rl tail)) with (Some rl). cbv iota. rewrite Hrl.
  change (set_rule_list base (config_shape log [("servers", servers)] ib ob strategy rl tail))
    with (config_shape log [("servers", servers)] ib ob strategy base tail).
  destruct (bool_decide_reflect (hosts' = [])) as [->|Hne]; [by rewrite app_nil_r|].
  change (jget "dns" (config_shape log [("servers", servers)] ib ob strategy base tail)) with (Some (JObj [("servers", servers)])).
  change (jget "outbounds" (config_shape log [("servers", servers)] ib ob strategy base tail)) with (Some (JArr ob)). cbv iota.
  set (dns2 := ("servers", servers) :: lan_hosts_kv hosts').
  assert (jset "hosts" (JObj ((fun h => (h.1, JStr h.2)) <$> hosts')) (JObj [("servers", servers)]) = JObj dns2) as ->.
  { unfold dns2, lan_hosts_kv. by rewrite bool_decide_false. }
  change (jset "outbounds" (JArr (ob ++ [rw_lan_outbound s])) (jset "dns" (JObj dns2) (config_shape log [("servers", servers)] ib ob strategy base tail)))
    with (config_shape log dns2 ib (ob ++ [rw_lan_outbound s]) strategy base tail).
  done.
Qed.

End edit.

(** * The rules the builder emits *)

(** Neither the LAN rule nor one that names the remote-access inbound. *)
Definition own_rule (j : json) : Prop := not_lan j /\ drop_ref j = j.

Lemma fields_own l fs : Forall (fun x => r_action x <> DIRECT_LAN_TAG) l -> fields_of l = inr fs -> Forall own_rule fs.
Proof.
  intros HF. revert fs. induction HF as [|x l Hx _ IH]; intros fs; simpl; [by intros [= <-]|].
  destruct (r_enabled x); [|by apply IH]. unfold rule_to_field. destruct (rule_matcher x) as [|[k v]] eqn:Em; [done|].
  destruct (fields_of l) as [|fs']; [done|]. intros [= <-]. constructor; [|by apply IH].
  assert (k <> "inboundTag") as Hk.
  { unfold rule_matcher in Em. repeat case_bool_decide; try (destruct (values_field x)); simplify_eq; done. }
  split.
  - unfold not_lan, lan_fragment. apply bool_decide_eq_false. simpl. congruence.
  - unfold drop_ref. simpl. by rewrite decide_False by congruence.
Qed.

Definition routed_elsewhere (routing : option (list rule * string)) : Prop :=
  from_option (fun ra => Forall (fun x => r_action x <> DIRECT_LAN_TAG) ra.1 /\ ra.2 <> DIRECT_LAN_TAG) True routing.

Definition base_rules (routing : option (list rule * string)) : routing_error + list json :=
  match routing with
  | None => inr [private_rule; catch_all "proxy"]
  | Some (rs, action) => rules_to_xray rs action
  end.

Lemma catch_all_own a : a <> DIRECT_LAN_TAG -> own_rule (catch_all a).
Proof. intros Ha. split; [|done]. unfold not_lan, lan_fragment. apply bool_decide_eq_false. simpl. congruence. Qed.

Lemma base_own routing l : routed_elsewhere routing -> base_rules routing = inr l -> Forall own_rule l /\ l <> [].
Proof.
  destruct routing as [[rs a]|]; simpl.
  - intros [HF Ha]. unfold rules_to_xray. destruct (fields_of _) as [|fs] eqn:Ef; [done|]. intros [= <-]. split; [|done].
    constructor; [done|]. apply Forall_app. split; [|by constructor; [apply catch_all_own|]].
    eapply fields_own; [|exact Ef]. rewrite Forall_forall in HF |- *. intros x Hx. apply HF.
    by apply stable_sort_elem in Hx.
  - intros _ [= <-]. split; [|done]. by repeat constructor.
Qed.

Lemma insert_after_private_own x l l' : own_rule x -> Forall own_rule l -> insert_after_private x l = Some l' -> Forall own_rule l'.
Proof.
  intros Hx HF. revert l'. induction HF as [|y l Hy HF IH]; simpl; [done|]. intros l'. destruct (is_private_rule y).
  - intros [= <-]. constructor; [done|]. by constructor.
  - destruct (insert_after_private x l) as [m|]; [|done]. intros [= <-]. constructor; auto.
Qed.

Section same_build.
Context (n : node) (s : settings) (p : option profile).
Context (routing : option (list rule * string)) (tunneled : bool) (stats : option Z).
Context (dns : bool) (strategy : string) (ipv6 explicit : bool).

Definition inner_rules (l : list json) : list json := add_api stats (add_dns dns ipv6 (add_quic p l)).

Lemma inner_own l : Forall own_rule l -> l <> [] -> Forall own_rule (inner_rules l) /\ inner_rules l <> [].
Proof.
  intros HF Hne. unfold inner_rules.
  assert (Forall own_rule (add_quic p l) /\ add_quic p l <> []) as [H1 H1'].
  { unfold add_quic. destruct p as [q|]; [|done]. case_bool_decide; [|done].
    set (x := quic_rule _). assert (own_rule x) as Hx by (unfold x; by case_bool_decide).
    destruct (insert_after_private x l) as [m|] eqn:Em; simpl; [|by split; [constructor|]].
    split; [by eapply insert_after_private_own|]. intros ->. revert Em.
    destruct l as [|y l']; simpl; [done|]. destruct (is_private_rule y); [done|]. by destruct (insert_after_private x l'). }
  assert (Forall own_rule (add_dns dns ipv6 (add_quic p l)) /\ add_dns dns ipv6 (add_quic p l) <> []) as [H2 H2'].
  { unfold add_dns. destruct dns; [|done]. split; [|done]. constructor; [|done]. by destruct ipv6. }
  unfold add_api. destruct stats; [|done]. split; [|done]. by constructor.
Qed.

(** The rules for a given remote access. *)
Lemma rules_shape r : rules p routing stats dns ipv6 r =
  match base_rules routing with
  | inl e => inl (BadRouting e)
  | inr l => inr (loopback_block ipv6 r ::
      (if bool_decide (lan_hosts r = []) then inner_rules l
       else insert_at (length (inner_rules l) - 1) (rw_lan_rule (lan_hosts r)) (inner_rules l)))
  end.
Proof.
  unfold rules, base_rules. destruct (match routing with Some _ => _ | None => _ end) as [e|l]; [done|].
  f_equal. f_equal. unfold add_lan, inner_rules. destruct (lan_hosts r); done.
Qed.

Lemma build_shape r cfg :
  build_config n s p routing tunneled stats dns strategy ipv6 explicit r = inr cfg ->
  exists log servers ib ob base tail, base_rules routing = inr base /\
    Forall (fun o => lan_fragment "tag" o = false) ob /\ Forall (fun i => has_tag RW_TAG i = false) ib /\
    forall r', build_config n s p routing tunneled stats dns strategy ipv6 explicit r' = inr
      (config_shape log (("servers", servers) :: lan_hosts_kv (lan_hosts r'))
         (ib ++ match r' with Some x => [rw_inbound_block x] | None => [] end)
         (ob ++ if bool_decide (lan_hosts r' = []) then [] else [rw_lan_outbound s]) (JStr strategy)
         (loopback_block ipv6 r' ::
            (if bool_decide (lan_hosts r' = []) then inner_rules base
             else insert_at (length (inner_rules base) - 1) (rw_lan_rule (lan_hosts r')) (inner_rules base))) tail).
Proof.
  unfold build_config. destruct (dns_servers s p dns) as [|servers] eqn:E1; [done|].
  destruct (proxy_settings n None) as [|[protocol block]] eqn:E2; [done|].
  destruct (negb (bool_decide (node_security n ∈ security_choices n))) eqn:E3; [done|].
  destruct (mux n p) as [|mux_kv] eqn:E4; [done|]. rewrite rules_shape. destruct (base_rules routing) as [|base] eqn:E5; [done|].
  intros _.
  set (ob := [JObj ([("tag", JStr "proxy"); ("protocol", JStr protocol); ("settings", block);
          ("streamSettings", stream n s p explicit)] ++ mux_kv)]
    ++ (match p with Some q => if has_fragment p then [fragment_outbound s q] else [] | None => [] end)
    ++ [JObj [("tag", JStr "direct"); ("protocol", JStr "freedom"); ("settings", JObj []); ("streamSettings", mark_opt s)];
        JObj [("tag", JStr "block"); ("protocol", JStr "blackhole"); ("settings", JObj [])]]
    ++ (if dns then [JObj [("protocol", JStr "dns"); ("tag", JStr "dns-out")]] else [])).
  set (ib := inbounds s tunneled stats ipv6 None).
  eexists (JObj [("loglevel", JStr "warning"); ("access", JStr "none")]), (JArr servers), ib, ob, base, _. split_and!; [done| | |].
  - unfold ob. rewrite !Forall_app. split_and!.
    + by repeat constructor.
    + destruct p as [q|]; [|done]. by destruct (has_fragment (Some q)); repeat constructor.
    + by repeat constructor.
    + by destruct dns; repeat constructor.
  - unfold ib, inbounds. by destruct ipv6, stats, tunneled; repeat constructor.
  - intros r'. rewrite rules_shape, E5. unfold config_shape. do 2 f_equal.
    assert (inbounds s tunneled stats ipv6 r' = ib ++ match r' with Some x => [rw_inbound_block x] | None => [] end) as ->.
    { unfold ib, inbounds. by rewrite <-!app_assoc. }
    assert (outbounds n s p dns explicit r' protocol block mux_kv =
      ob ++ (if bool_decide (lan_hosts r' = []) then [] else [rw_lan_outbound s])) as ->.
    { unfold ob, outbounds. rewrite <-!app_assoc. by destruct (lan_hosts r'). }
    assert ((if bool_decide (length (lan_hosts r') = 0%nat) then [] else [("hosts", JObj ((fun h => (h.1, JStr h.2)) <$> lan_hosts r'))])
      = lan_hosts_kv (lan_hosts r')) as -> by (unfold lan_hosts_kv; by destruct (lan_hosts r')).
    reflexivity.
Qed.

End same_build.

Lemma filter_keep ib rest :
  Forall (fun i => has_tag RW_TAG i = false) ib -> Forall (fun i => has_tag RW_TAG i = true) rest ->
  filter (fun i => has_tag RW_TAG i = false) (ib ++ rest) = ib.
Proof.
  intros H1 H2. rewrite filter_app. assert (filter (fun i => has_tag RW_TAG i = false) rest = []) as ->.
  { induction H2 as [|x l Hx _ IH]; [done|]. by rewrite filter_cons, decide_False by congruence. }
  rewrite app_nil_r. induction H1 as [|x l Hx _ IH]; [done|]. by rewrite filter_cons, decide_True, IH.
Qed.

Lemma map_stable l : Forall (fun x => drop_ref x = x) l -> drop_ref <$> l = l.
Proof. induction 1 as [|x l Hx _ IH]; [done|]. by rewrite fmap_cons, Hx, IH. Qed.

(** C38: cleaning the configuration on disk is as good as rebuilding it.  Take the configuration
    built for a node with remote access on, and what the store resolves remote access to now
    (other clients, keys, short ids, hosts, or off): editing the first configuration gives
    exactly the configuration a rebuild of that node would give, every other input of the build
    being as it was.  So a revocation that cannot
    rebuild loses nothing, in the inbounds, the DNS hosts, the LAN outbound and the order of the
    rules.  The routing is one the validation accepts: no rule of the user names the LAN outbound. *)
Theorem sanitize_is_rebuild n s p routing tunneled stats dns strategy ipv6 explicit r1 r2 cfg
    (Hr : routed_elsewhere routing)
    (E : build_config n s p routing tunneled stats dns strategy ipv6 explicit (Some r1) = inr cfg) :
  build_config n s p routing tunneled stats dns strategy ipv6 explicit r2 = inr (rw_reconciled s r2 cfg).
Proof.
  destruct (build_shape n s p routing tunneled stats dns strategy ipv6 explicit (Some r1) cfg E)
    as (log & servers & ib & ob & base & tail & Hbase & Hob & Hib & Hshape).
  rewrite Hshape in E. injection E as <-. rewrite Hshape. f_equal.
  apply base_own in Hbase as [Hown Hne]; [|done]. apply (inner_own p stats dns ipv6) in Hown as [Hown Hne']; [|done].
  set (inner := inner_rules p stats dns ipv6 base) in *. clearbody inner. clear Hshape Hr Hne base.
  assert (0 < length inner)%nat as Hlen by (destruct inner; [done|simpl; lia]).
  assert (Forall not_lan inner) as Hnl by (eapply Forall_impl; [exact Hown|]; by intros x []).
  change (lan_hosts (Some r1)) with (rw_hosts r1). set (hosts1 := rw_hosts r1).
  set (with_lan h := if bool_decide (h = []) then inner else insert_at (length inner - 1) (rw_lan_rule h) inner).
  assert (forall lb h, not_lan lb -> drop_lan_rules (lb :: with_lan h) =
            (lb :: inner, if bool_decide (h = []) then None else Some (length inner))) as Hdrop.
  { intros lb h Hlb. simpl. unfold with_lan. unfold not_lan in Hlb. rewrite Hlb. case_bool_decide.
    - by rewrite drop_none.
    - rewrite drop_one; [|done|done|lia]. simpl. do 2 f_equal. lia. }
  assert (forall lb at_, at_ = None \/ at_ = Some (length inner) ->
    (if bool_decide (lan_hosts r2 = []) then lb :: inner
     else insert_at (default (length (lb :: inner) - 1)%nat at_) (rw_lan_rule (lan_hosts r2)) (lb :: inner)) =
    lb :: with_lan (lan_hosts r2)) as Hins.
  { intros lb at_ Hat. unfold with_lan. case_bool_decide; [done|]. rewrite <-insert_at_cons. f_equal.
    destruct Hat as [-> | ->]; simpl; lia. }
  assert (forall h : list (string * string), (if bool_decide (h = []) then None else Some (length inner)) = None \/
            (if bool_decide (h = []) then None else Some (length inner)) = Some (length inner)) as Hat
    by (intros h; destruct (bool_decide (h = [])); auto).
  fold (with_lan (lan_hosts r2)). fold (with_lan hosts1). unfold rw_reconciled. cbv zeta.
  change (jget "inbounds" (config_shape ?l ?d ?i ?o ?st ?rl ?t)) with (Some (JArr i)).
  set (cfg1 := config_shape log (("servers", servers) :: lan_hosts_kv hosts1) _ _ _ _ tail).
  cbv iota beta. rewrite filter_keep by (try done; by repeat constructor).
  destruct r2 as [x|]; cbv iota beta.
  - change (jset "inbounds" (JArr (ib ++ [rw_inbound_block x])) cfg1) with
      (config_shape log (("servers", servers) :: lan_hosts_kv hosts1) (ib ++ [rw_inbound_block x])
         (ob ++ if bool_decide (hosts1 = []) then [] else [rw_lan_outbound s]) (JStr strategy)
         (loopback_block ipv6 (Some r1) :: with_lan hosts1) tail).
    rewrite (reconcile_lan_shape s log servers (JStr strategy) tail hosts1 (rw_hosts x) _ ob _ _ _ Hob
      (Hdrop (loopback_block ipv6 (Some r1)) hosts1 eq_refl)).
    by rewrite Hins.
  - assert (rw_drop_routing_refs cfg1 = config_shape log (("servers", servers) :: lan_hosts_kv hosts1) (ib ++ [rw_inbound_block r1])
         (ob ++ if bool_decide (hosts1 = []) then [] else [rw_lan_outbound s]) (JStr strategy)
         (loopback_block ipv6 None :: with_lan hosts1) tail) as ->.
    { unfold rw_drop_routing_refs, cfg1.
      change (cfg_rule_list (config_shape ?l ?d ?i ?o ?st ?rl ?t)) with (Some rl). cbv iota.
      change (set_rule_list ?l2 (config_shape ?l ?d ?i ?o ?st ?rl ?t)) with (config_shape l d i o st l2 t).
      rewrite fmap_cons. f_equal. f_equal; [by destruct ipv6|]. apply map_stable.
      assert (Forall (fun x => drop_ref x = x) inner) as Hst by (eapply Forall_impl; [exact Hown|]; by intros x []).
      unfold with_lan. destruct (bool_decide (hosts1 = [])); [exact Hst|].
      unfold insert_at. rewrite !Forall_app. split_and!; [by apply Forall_take|by repeat constructor|by apply Forall_drop]. }
    change (jset "inbounds" (JArr ib) (config_shape ?l ?d ?i ?o ?st ?rl ?t)) with (config_shape l d ib o st rl t).
    rewrite (reconcile_lan_shape s log servers (JStr strategy) tail hosts1 [] _ ob _ _ _ Hob
      (Hdrop (loopback_block ipv6 None) hosts1 eq_refl)).
    rewrite app_nil_r. simpl. by rewrite app_nil_r.
Qed.

(** A configuration with two clients and a LAN host, cleaned of one client and of the host, and of
    remote access as a whole. *)
Module Cleaning.
Import Demo.

Definition wide : rw := Rw 8443 "www.example.com:443" ["www.example.com"] "priv" ["ab"] [("id1", "phone"); ("id2", "laptop")] [("nas.v2pi", "192.168.1.9")].
Definition narrow : rw := Rw 8443 "www.example.com:443" ["www.example.com"] "priv" ["ab"] [("id2", "laptop")] [].
Definition built (r : option rw) : build_error + json :=
  build_config demo_node default_settings (Some demo_profile) (Some (demo_rules, "proxy")) true (Some 10085) true "AsIs" true true r.
Definition wide_cfg : json := match built (Some wide) with inr c => c | inl _ => JNull end.

Lemma sanitize_is_rebuild_witness :
  built (Some narrow) = inr (rw_reconciled default_settings (Some narrow) wide_cfg) /\
  built None = inr (rw_reconciled default_settings None wide_cfg).
Proof.
  assert (routed_elsewhere (Some (demo_rules, "proxy"))) as Hr.
  { split; [|done]. apply (bool_decide_unpack _). by vm_compute. }
  assert (built (Some wide) = inr wide_cfg) as E by (by vm_compute).
  split; exact (sanitize_is_rebuild _ _ _ _ _ _ _ _ _ _ _ _ _ Hr E).
Defined.

End Cleaning.
