(* ===== verification/RwRoutes.v ===== *)
(** The request handlers of [api/routes.py] around remote access and the xray process: saving the
    settings, adding, suspending and deleting a client, starting and stopping xray,
    disconnecting, and rolling the configuration back.

    A handler gives a refusal (an [HTTPException] and its status; 500 for an exception
    nobody catches) or its answer; the response body of the remote-access screen
    ([_rw_out], which only reads) is reduced to how a revocation was applied.  [in_tx] is
    [with state.store.transaction()] around more than store code: an exception in the
    block takes the database back. *)
From Stdlib Require Import ZArith Lia Ascii.
From stdpp Require Import base gmap strings list.
From S2P Require Import Prelude PyStr Models Json Scrub ConfigFiles Supervisor Config Store Tuning Routing Builder RwInbound Events Plan Enforcement Controller Revocation.
Open Scope string_scope.
Open Scope list_scope.
Open Scope Z_scope.

(** * What counts as taking access away *)

Record credentials := Credentials {
  cr_enabled : bool;
  cr_port : string;
  cr_short_ids : list string;
  cr_server_names : list string;
  cr_private_key : string
}.

Definition rw_credentials (d : db) : credentials :=
  let port raw := match validate_port raw with inr p => str_int p | inl _ => strip raw end in
  Credentials (bool_decide (get "rw_enabled" d = "1")) (port (get "rw_port" d))
    (lower <$> parse_csv (get "rw_short_ids" d)) (lower <$> parse_csv (get "rw_server_names" d))
    (strip (default "" (get_setting "rw_private_key" d))).

(** [a <= b] of two sets. *)
Definition subset_of (a b : list string) : bool := forallb (fun x => bool_decide (x ∈ b)) a.

Definition rw_narrows (before after : credentials) : bool :=
  if negb (cr_enabled before) || bool_decide (cr_private_key before = "") then false
  else negb (cr_enabled after)
       || negb (bool_decide (cr_private_key after = cr_private_key before))
       || negb (bool_decide (cr_port after = cr_port before))
       || negb (subset_of (cr_short_ids before) (cr_short_ids after))
       || negb (subset_of (cr_server_names before) (cr_server_names after)).

(** * Requests *)

Inductive refusal := Refuse (status : Z) (detail : string).
Definition internal_error : refusal := Refuse 500 "Internal Server Error".

(** The body of [PUT /rw], as the schema admits it. *)
Record rw_in := RwIn {
  ri_enabled : bool;
  ri_port : Z;
  ri_dest : string;
  ri_server_names : string;
  ri_short_ids : string;
  ri_public_key : string;
  ri_endpoint : string;
  ri_private_key : string;
  ri_hosts : list (string * string);
  ri_routed_nets : string
}.

Section routes.
Context `{NetHost H}.
Context (s : settings).
Context (xray : json -> test_result).
Context (config_digest : json -> string).
Context (json_loads : string -> option json).
Context (json_dumps : json -> string).
(** The texts of errors. *)
Context (error_text : exn + apply_result -> string).
Context (rw_text : rw_error -> string).

Definition handler (A : Type) : Type := hist H -> (refusal + A) * hist H.

Definition in_tx {A} (f : handler A) : handler A :=
  fun h => match f h with
           | (inl e, h') => (inl e, put_db (g_db h.1) h')
           | r => r
           end.

Definition then_ {A B} (f : handler A) (k : A -> handler B) : handler B :=
  fun h => match f h with (inl e, h') => (inl e, h') | (inr a, h') => k a h' end.
Notation "x <~ f ; k" := (then_ f (fun x => k)) (at level 70, f at level 69, k at level 70, right associativity).

Definition refuse {A} (status : Z) (detail : string) : handler A := fun h => (inl (Refuse status detail), h).
Definition answer {A} (x : A) : handler A := fun h => (inr x, h).
Definition store_call {A} (m : M A) : handler A :=
  fun h => match run_db m h with
           | (inl e, h) => (inl internal_error, h)
           | (inr x, h) => (inr x, h)
           end.
Definition validated {A} (r : rw_error + A) : handler A :=
  match r with inl e => refuse 422 (rw_text e) | inr x => answer x end.

Definition rw_mark_reconcile_pending : M unit := set_setting RW_PENDING_KEY "1".

(** A change that grants: rebuild and apply, if a node is active. *)
Definition rw_apply (a : around) : handler unit :=
  fun h => match reapply_active_node s xray config_digest json_loads false (a_reapply a) h with
           | (inr None, h) | (inr (Some Applied), h) => (inr tt, h)
           | (inr (Some r), h) => (inl (Refuse 502 (error_text (inr r))), h)
           | (inl e, h) => (inl internal_error, h)
           end.

Definition revoke (a : around) : handler string :=
  fun h => let '(how, h) := rw_revoke s xray config_digest json_loads error_text a h in (inr how, h).

(** ** Remote access *)

Definition check_enabling (body : rw_in) (short_ids : list string) (d : db) : option string :=
  if negb (ri_enabled body) then None
  else if bool_decide (strip (ri_private_key body) = "") && bool_decide (strip (default "" (get_setting "rw_private_key" d)) = "")
  then Some "set the Reality private key before enabling the inbound (generate one with `xray x25519`)"
  else if bool_decide (short_ids = []) then Some "set at least one short id before enabling the inbound"
  else if bool_decide (strip (ri_public_key body) = "") then Some "set the Reality public key before enabling the inbound"
  else if bool_decide (strip (ri_endpoint body) = "") then Some "set the external endpoint before enabling the inbound"
  else if bool_decide (parse_csv (ri_server_names body) = []) then Some "set at least one server name before enabling the inbound"
  else None.

Definition hosts_json (hosts : list (string * string)) : json := JObj ((fun h => (h.1, JStr h.2)) <$> hosts).

Definition save_rw (body : rw_in) (hosts : list (string * string)) (nets short_ids : list string) : M unit :=
  set_setting "rw_enabled" (if ri_enabled body then "1" else "0") ;;;
  set_setting "rw_port" (str_int (ri_port body)) ;;;
  set_setting "rw_dest" (strip (ri_dest body)) ;;;
  set_setting "rw_server_names" (join "," (parse_csv (ri_server_names body))) ;;;
  set_setting "rw_short_ids" (join "," short_ids) ;;;
  set_setting "rw_public_key" (strip (ri_public_key body)) ;;;
  set_setting "rw_endpoint" (strip (ri_endpoint body)) ;;;
  set_setting "rw_hosts" (json_dumps (hosts_json hosts)) ;;;
  set_setting "rw_routed_nets" (join "," nets) ;;;
  if bool_decide (strip (ri_private_key body) = "") then mret tt
  else set_setting "rw_private_key" (strip (ri_private_key body)).

Definition put_rw (body : rw_in) (a : around) : handler string :=
  hosts <~ validated (validate_hosts ((fun h => (h.1, JStr h.2)) <$> ri_hosts body));
  nets <~ validated (validate_nets (parse_nets (ri_routed_nets body)));
  short_ids <~ validated (validate_short_ids (parse_csv (ri_short_ids body)));
  fun h =>
    match check_enabling body short_ids (g_db h.1) with
    | Some why => refuse 422 why h
    | None =>
        (narrows <~ in_tx (fun h =>
           let before := rw_credentials (g_db h.1) in
           (_ <~ store_call (save_rw body hosts nets short_ids);
            fun h =>
              if rw_narrows before (rw_credentials (g_db h.1))
              then (_ <~ store_call rw_mark_reconcile_pending; answer true) h
              else (_ <~ rw_apply a; answer false) h) h);
         if narrows then revoke a else answer "") h
    end.

Definition add_rw_client (email fresh : string) (a : around) : handler string :=
  in_tx (r <~ store_call (add_client json_loads json_dumps email fresh);
         _ <~ validated r;
         _ <~ rw_apply a;
         answer "").

Definition patch_rw_client (id : string) (enabled : bool) (a : around) : handler string :=
  _ <~ in_tx (found <~ store_call (set_client_enabled json_loads json_dumps id enabled);
              if negb found then refuse 404 "client not found"
              else if enabled then rw_apply a
              else store_call rw_mark_reconcile_pending);
  if enabled then answer "" else revoke a.

Definition delete_rw_client (id : string) (a : around) : handler string :=
  _ <~ in_tx (found <~ store_call (delete_client json_loads json_dumps id);
              if negb found then refuse 404 "client not found"
              else store_call rw_mark_reconcile_pending);
  revoke a.

(** ** The xray process *)

Definition rw_guard_start (a : around) : handler unit :=
  fun h => match rw_reconcile_before_serving s xray config_digest json_loads a h with
           | (true, h) => (inr tt, h)
           | (false, h) =>
               (inl (Refuse 409 "refusing to serve this config: it still grants remote access that has been revoked, and it could not be rewritten. Reconnect a node to rebuild it."), h)
           end.

Definition xray_start (a : around) : handler unit :=
  fun h => match reapply_active_node s xray config_digest json_loads false (a_reapply a) h with
           | (inr None, h) =>
               (_ <~ rw_guard_start a;
                fun h => match sup_start s xray config_digest json_loads a h with
                         | (None, h) => (inr tt, h)
                         | (Some f, h) => (inl internal_error, h)
                         end) h
           | (inr (Some Applied), h) => (inr tt, h)
           | (inr (Some r), h) => (inl (Refuse 502 (error_text (inr r))), h)
           | (inl e, h) => (inl internal_error, h)
           end.

Definition net_stop : hist H -> net_result * hist H :=
  fun h => let '(r, x) := stop_net s (g_db h.1) (g_net h.1) in (r, put_net x h).

Definition xray_stop (a : around) : handler unit :=
  fun h =>
    match a_stop_raised a with
    | Some exc => (inl internal_error, put_sup (set_want false (g_sup h.1).1, (g_sup h.1).2) h)
    | None =>
        let '(stopped, u) := stop (at_disk (a_stop a) (g_disk h.1)) (g_sup h.1) in
        let '(r, h) := net_stop (put_sup u h) in
        if negb (nr_ok r) then (inl (Refuse 502 (Some (nr_error r) or "network stop failed")), h)
        else if negb stopped then (inl (Refuse 502 "xray did not stop (it survived SIGKILL)"), h)
        else (_ <~ store_call (record "xray-stop" "xray-core stopped" (a_now a)); answer tt) h
    end.

Definition forget_active : M unit :=
  tx (prev <- mget (get_setting "active_node_id") ;;
      set_setting "prev_active_node_id" (prev or "") ;;;
      set_setting "active_node_id" "" ;;;
      set_setting "active_since" "").

(** [not active] covers the empty string. *)
Definition disconnect (node_id : Z) (now : Z) : handler unit :=
  fun h =>
    let active := get_setting "active_node_id" (g_db h.1) in
    if negb (truthy active) then refuse 409 "no node is connected" h
    else if negb (bool_decide (active = Some (str_int node_id))) then
      refuse 409 ("node " +:+ str_int node_id +:+ " is not connected (active is " +:+ default "" active +:+ ")") h
    else
      let '(r, h) := net_stop h in
      if negb (nr_ok r) then (inl (Refuse 502 (Some (nr_error r) or "network stop failed")), h)
      else (_ <~ store_call forget_active;
            _ <~ store_call (record "disconnect" "node disconnected" now);
            answer tt) h.

(** [_bounded_stop] *)
Definition bounded_stop (a : around) (h : hist H) : bool * string * hist H :=
  match a_stop_raised a with
  | Some exc =>
      (false, "xray could not be stopped (" +:+ exc +:+ ") and may still be running on the config it had loaded",
       put_sup (set_want false (g_sup h.1).1, (g_sup h.1).2) h)
  | None =>
      match stop (at_disk (a_stop a) (g_disk h.1)) (g_sup h.1) with
      | (true, u) => (true, "", put_sup u h)
      | (false, u) => (false, "xray survived SIGKILL and is still running on the config it had loaded", put_sup u h)
      end
  end.

Definition and_also (guard : net_result) (stop_detail detail : string) : string :=
  detail +:+ (if nr_ok guard then "" else "; fail-closed recovery failed: " +:+ nr_error guard)
         +:+ (if bool_decide (stop_detail = "") then "" else "; " +:+ stop_detail).

(** The end of a rollback whose configuration is installed: [net] is how the rules went. *)
Definition finish_rollback (prev : option string) (stopped : bool) (stop_detail : string) (attempted : bool)
    (net : net_result) (a : around) : handler bool :=
  fun h =>
    if negb (nr_ok net) then
      let '(stopped, stop_detail, h) := if attempted then (stopped, stop_detail, h) else bounded_stop a h in
      let '(guard, h) := net_stop h in
      (inl (Refuse 502 (and_also guard stop_detail (Some (nr_error net) or "network rollback failed"))), h)
    else if negb stopped then (inl (Refuse 502 ("rolled back, but " +:+ stop_detail)), h)
    else
      (_ <~ store_call (tx (set_setting "active_node_id" (prev or "") ;;;
                            set_setting "active_since" (if truthy prev then str_int (int_sec (a_now a)) else "")));
       answer true) h.

Definition promoted_runtime (a : around) : handler bool :=
  fun h =>
    let prev := get_setting "prev_active_node_id" (g_db h.1) in
    if truthy prev then
      match sup_reload s xray config_digest json_loads a h with
      | (inl f, h) => (inl internal_error, h)
      | (inr false, h) =>
          let '(_, stop_detail, h) := bounded_stop a h in
          let '(guard, h) := net_stop h in
          (inl (Refuse 502 (and_also guard stop_detail "rolled-back Xray did not become ready")), h)
      | (inr true, h) =>
          let '(r, x) := apply_net s (g_db h.1) (g_net h.1) in
          let h := put_net x h in
          match r with
          | inl exc => (inl internal_error, h)
          | inr net => finish_rollback prev true "" false net a h
          end
      end
    else
      let '(stopped, stop_detail, h) := bounded_stop a h in
      let '(net, h) := net_stop h in
      finish_rollback prev stopped stop_detail true net a h.

Definition rollback_route (a : around) : handler bool :=
  fun h =>
    match rollback_target config_digest (g_disk h.1) with
    | inl f => (inl internal_error, h)
    | inr None => (inr false, h)
    | inr (Some candidate) =>
        match rw_guard_promotion s xray config_digest json_loads a candidate h with
        | (Promoted, h) => promoted_runtime a h
        | (NotPromotable, h) => (inl (Refuse 409 "no promotable rollback target"), h)
        | (RefusedExcess, h) =>
            (inl (Refuse 409 "refusing to roll back: the last-good config still grants remote access that has been revoked, and it could not be rewritten. Nothing was promoted."), h)
        | (PromotionRaised f, h) => (inl internal_error, h)
        end
    end.

End routes.
