(* ===== verification/RwRoutesProps.v ===== *)
(** What the handlers guarantee: a client taken off the roster is cut off, a save that takes access
    away is treated as a revocation, a rollback reinstates nothing. *)
From Stdlib Require Import ZArith Lia Ascii.
From stdpp Require Import base gmap strings list.
From S2P Require Import Prelude PyStr Models Json Store StoreFacts Events Scrub ConfigFiles Supervisor SupervisorProps Config Tuning Routing Builder BuilderProps RwInbound RwInboundProps Plan Enforcement EnforcementProps Controller ControllerProps Revocation RevocationFacts RevocationProps RwRoutes.
Open Scope string_scope.
Open Scope list_scope.
Open Scope Z_scope.

Section routes.
Context `{NetHost H}.
Context (s : settings).
Context (xray : json -> test_result).
Context (digest : json -> string).
Context (json_loads : string -> option json).
Context (json_dumps : json -> string).
Context (error_text : exn + apply_result -> string).
Context (rw_text : rw_error -> string).

#[local] Existing Instances tame_preorder same_marks_preorder calm_preorder fewer_preorder.

(** No running child accepts the id. *)
Definition cut_off (id : string) (g : gateway H) : Prop :=
  forall pid c cfg b, procs (g_sup g).2 !! pid = Some (Alive c) -> config_of c = Some cfg -> b ∈ rw_blocks cfg ->
    ("client", Some (JStr id)) ∉ rw_grants b.

Definition off_roster (id : string) (d : db) : Prop :=
  forall c, c ∈ get_clients json_loads d -> cl_enabled c = true -> cl_id c <> id.

Lemma same_roster d d' : get_setting "rw_clients" d' = get_setting "rw_clients" d -> get_clients json_loads d' = get_clients json_loads d.
Proof. intros E. unfold get_clients, roster, get. by rewrite E. Qed.

Lemma granted_cut_off id (g : gateway H) :
  off_roster id (g_db g) -> serves_granted json_loads g -> cut_off id g.
Proof.
  intros Hoff Hs pid c cfg b Hp Hc Hb Hin. specialize (Hs pid c Hp). unfold file_excess in Hs. rewrite Hc in Hs. simpl in Hs.
  rewrite rw_excess_spec in Hs. specialize (Hs b _ Hb Hin). unfold rw_inbound in Hs.
  destruct (resolve json_loads (g_db g)) as [e|[x|]] eqn:Er; simpl in Hs; [by apply elem_of_nil in Hs| |by apply elem_of_nil in Hs].
  apply (granted_ids json_loads (g_db g) x id Er) in Hs as (cl & Hin' & Hen & Hid). by apply (Hoff cl).
Qed.

(** ** A client taken off *)

Notation delete_rw_client := (delete_rw_client s xray digest json_loads json_dumps error_text).
Notation patch_rw_client := (patch_rw_client s xray digest json_loads json_dumps error_text).
Notation revoke := (revoke s xray digest json_loads error_text).

(** Both handlers run the roster operation and the marker in one transaction, then revoke. *)
Definition take_off (op : M bool) (a : around) : handler string :=
  then_ (in_tx (then_ (store_call op) (fun found =>
     if negb found then refuse 404 "client not found" else store_call rw_mark_reconcile_pending)))
    (fun _ => revoke a).

Lemma take_off_run op a (h : hist H) b d :
  op (g_db h.1) = (inr b, d) -> constraints d ->
  take_off op a h =
  if b then
    let h1 := put_db (with_setting RW_PENDING_KEY "1" d) (put_db d h) in
    let '(how, h') := rw_revoke s xray digest json_loads error_text a h1 in (inr how, h')
  else (inl (Refuse 404 "client not found"), put_db (g_db h.1) (put_db d h)).
Proof.
  intros E Hc. unfold take_off, then_, in_tx, then_, store_call, run_db. rewrite E. destruct b; [|done]. simpl.
  unfold rw_mark_reconcile_pending. by rewrite set_setting_with.
Qed.

(** C29: revoking a client cuts it off.  Deleting or suspending a client that is on the roster always
    answers, with the id off the stored roster; if the answer is one of the confirmed outcomes no
    xray child that runs accepts the id, and otherwise the durable marker is set, so that the
    retry comes back to it.  A client that is not on the roster is a 404 that changes nothing.
    [json.loads] is taken to read back the roster [json.dumps] wrote. *)
Theorem client_cut_off id a (h : hist H) f (Hcf : collision_free digest)
    (Hc : constraints (g_db h.1)) (Hi : inv digest (g_sup h.1))
    (Hdel : json_roundtrip json_loads json_dumps (filter (fun c => cl_id c <> id) (get_clients json_loads (g_db h.1))))
    (Hsus : json_roundtrip json_loads json_dumps (enable_in id false <$> get_clients json_loads (g_db h.1)))
    (Hf : f = delete_rw_client id a \/ f = patch_rw_client id false a) :
  if decide (Exists (fun c => cl_id c = id) (get_clients json_loads (g_db h.1)))
  then exists how h', f h = (inr how, h') /\ off_roster id (g_db h'.1) /\
         if decide (how ∈ RW_RECONCILED) then cut_off id h'.1 else rw_reconcile_is_pending (g_db h'.1) = true
  else exists h', f h = (inl (Refuse 404 "client not found"), h') /\
         g_db h'.1 = g_db h.1 /\ g_disk h'.1 = g_disk h.1 /\ g_sup h'.1 = g_sup h.1 /\ g_net h'.1 = g_net h.1.
Proof.
  assert (exists op, f = take_off op a /\
    (op = delete_client json_loads json_dumps id \/ op = set_client_enabled json_loads json_dumps id false)) as (op & -> & Hop).
  { destruct Hf as [-> | ->]; eexists; (split; [reflexivity|auto]). }
  destruct (revoked_roster json_loads json_dumps id (g_db h.1) op Hc Hdel Hsus Hop) as (b & d & E & Hcd & Hk & Hb & Hgone & _).
  rewrite (take_off_run op a h b d E Hcd).
  assert (b = true <-> Exists (fun c => cl_id c = id) (get_clients json_loads (g_db h.1))) as Hex
    by (by rewrite Hb, Exists_exists).
  destruct (decide _) as [Hin|Hout].
  - apply Hex in Hin as ->. cbv zeta iota. set (h1 := put_db (with_setting RW_PENDING_KEY "1" d) (put_db d h)).
    assert (constraints (g_db h1.1)) as Hc1 by (by apply constraints_with).
    assert (rw_reconcile_is_pending (g_db h1.1) = true) as Hp1.
    { unfold rw_reconcile_is_pending, h1. simpl. by rewrite get_with_setting, decide_True. }
    destruct (rw_revoke s xray digest json_loads error_text a h1) as [how h'] eqn:Er. exists how, h'. split; [done|].
    apply revoke_keeps_rw in Er as Hrw; [|done..].
    assert (off_roster id (g_db h'.1)) as Hoff.
    { intros c. rewrite (same_roster d); [apply Hgone|]. rewrite Hrw by (apply (bool_decide_unpack _); by vm_compute).
      unfold h1. simpl. by rewrite get_with_setting. }
    split; [done|]. case_decide as Hin.
    + apply revoke_serves in Er as (Hs & _); [|done..]. by apply granted_cut_off.
    + apply revoke_unconfirmed in Er; [|done..]. by rewrite Er.
  - destruct b; [by destruct Hout; apply Hex|]. eexists. split; [done|]. done.
Qed.

(** ** A rollback *)

(** Steps that only take away: no new child, the files and what the store grants as they were. *)
Definition winds (h h' : hist H) : Prop :=
  same_rw (g_db h.1) (g_db h'.1) /\ g_disk h'.1 = g_disk h.1 /\
  (constraints (g_db h.1) -> constraints (g_db h'.1)) /\
  (inv digest (g_sup h.1) -> inv digest (g_sup h'.1) /\ fewer (g_sup h.1) (g_sup h'.1)).

#[local] Instance winds_preorder : PreOrder winds.
Proof.
  split.
  - intros h. by split_and!.
  - intros h1 h2 h3 (A1 & B1 & C1 & D1) (A2 & B2 & C2 & D2). split_and!.
    + intros k Hk. by rewrite A2, A1.
    + congruence.
    + auto.
    + intros Hi. destruct (D1 Hi) as [Hi2 Hf]. destruct (D2 Hi2) as [Hi3 Hf2]. split; [done|]. by etrans.
Qed.

Lemma put_net_winds x (h : hist H) : winds h (put_net x h).
Proof. by split_and!. Qed.

Lemma net_stop_winds (h : hist H) r h' : net_stop s h = (r, h') -> winds h h'.
Proof. unfold net_stop. destruct (stop_net s (g_db h.1) (g_net h.1)). intros [= <- <-]. apply put_net_winds. Qed.

Lemma bounded_stop_winds a (h : hist H) b t h' : bounded_stop a h = (b, t, h') -> winds h h'.
Proof.
  unfold bounded_stop. destruct (a_stop_raised a).
  - intros [= <- <- <-]. split_and!; try done. intros Hi. split; [|by intros pid c]. destruct (g_sup h.1). by eapply inv_fields.
  - destruct (stop _ _) as [[] u] eqn:E; intros [= <- <- <-]; split_and!; try done;
      intros Hi; apply (stop_facts digest _ _ _ _ E) in Hi as (? & _ & ?); done.
Qed.

Lemma put_db_winds d (h : hist H) : same_rw (g_db h.1) d -> (constraints (g_db h.1) -> constraints d) -> winds h (put_db d h).
Proof. by intros; split_and!. Qed.

Lemma finish_rollback_winds prev stopped t attempted net a (h : hist H) r h' :
  constraints (g_db h.1) -> finish_rollback s prev stopped t attempted net a h = (r, h') -> winds h h'.
Proof.
  intros Hc. unfold finish_rollback. destruct (nr_ok net); simpl.
  - destruct stopped; simpl; [|by intros [= <- <-]].
    unfold then_, store_call, run_db, tx. rewrite seq_setting by done. rewrite set_setting_with by (by apply constraints_with).
    intros [= <- <-]. apply put_db_winds; [|by intros; do 2 apply constraints_with].
    intros k Hk. rewrite !get_with_setting, !decide_False; [done|..]; intros <-; revert Hk; apply (bool_decide_unpack _); by vm_compute.
  - destruct (if attempted then (stopped, t, h) else bounded_stop a h) as [[st dt] h1] eqn:E1.
    assert (winds h h1) as Hw1.
    { destruct attempted; [by injection E1 as <- <- <-|by eapply bounded_stop_winds]. }
    destruct (net_stop s h1) as [g h2] eqn:E2. intros [= <- <-]. etrans; [exact Hw1|by eapply net_stop_winds].
Qed.

(** Every child there was not before is granted by the store. *)
Definition new_granted (h h' : hist H) : Prop :=
  forall pid c, procs (g_sup h'.1).2 !! pid = Some (Alive c) -> procs (g_sup h.1).2 !! pid <> Some (Alive c) ->
    file_excess json_loads (g_db h'.1) c = false.

Lemma winds_granted (h0 h h' : hist H) : inv digest (g_sup h.1) -> new_granted h0 h -> winds h h' -> new_granted h0 h'.
Proof.
  intros Hi Hn (Hrw & _ & _ & Hf) pid c Hp Hno. destruct (Hf Hi) as [_ Hfew]. rewrite (same_rw_excess _ (g_db h.1)) by done.
  apply (Hn pid c); [by apply Hfew|done].
Qed.

Lemma winds_new (h h' : hist H) : inv digest (g_sup h.1) -> winds h h' -> new_granted h h'.
Proof. intros Hi (_ & _ & _ & Hf) pid c Hp Hno. destruct Hno. by apply Hf. Qed.

Lemma promoted_runtime_granted a (h : hist H) r h' :
  collision_free digest -> constraints (g_db h.1) -> inv digest (g_sup h.1) ->
  file_excess json_loads (g_db h.1) (cur (f_config (g_disk h.1))) = false ->
  promoted_runtime s xray digest json_loads a h = (r, h') ->
  same_rw (g_db h.1) (g_db h'.1) /\ g_disk h'.1 = g_disk h.1 /\ new_granted h h'.
Proof.
  intros Hcf Hc Hi Hf. unfold promoted_runtime. destruct (truthy _).
  - destruct (sup_reload s xray digest json_loads a h) as [rr h1] eqn:Er.
    apply sup_reload_facts in Er as (Hca & Hi1 & _ & _ & Hnew & Hsame); [|done..]. destruct (Hsame Hf) as [Hd1 Hdb1].
    assert (forall h2, winds h1 h2 -> same_rw (g_db h.1) (g_db h2.1) /\ g_disk h2.1 = g_disk h.1 /\ new_granted h h2) as Hgo.
    { intros h2 Hw. split_and!; [|destruct Hw as (_ & -> & _); done|by eapply winds_granted].
      intros k Hk. destruct Hw as (-> & _); [|done]. by rewrite Hdb1. }
    assert (constraints (g_db h1.1)) as Hc1 by (by rewrite Hdb1).
    destruct rr as [f|[]].
    + intros [= <- <-]. by apply Hgo.
    + destruct (apply_net s (g_db h1.1) (g_net h1.1)) as [rn x]. destruct rn as [exc|net].
      * intros [= <- <-]. apply Hgo, put_net_winds.
      * intros E. apply Hgo. etrans; [apply (put_net_winds x)|]. eapply finish_rollback_winds; [|exact E]. done.
    + destruct (bounded_stop a h1) as [[st dt] h2] eqn:Eb. destruct (net_stop s h2) as [g h3] eqn:En. intros [= <- <-].
      apply Hgo. etrans; [by eapply bounded_stop_winds|by eapply net_stop_winds].
  - destruct (bounded_stop a h) as [[st dt] h2] eqn:Eb. destruct (net_stop s h2) as [g h3] eqn:En. intros E.
    apply bounded_stop_winds in Eb. apply net_stop_winds in En.
    assert (winds h h') as Hw.
    { etrans; [exact Eb|]. etrans; [exact En|]. eapply finish_rollback_winds; [|exact E]. apply En. by apply Eb. }
    split_and!; [apply Hw|apply Hw|by apply winds_new].
Qed.

(** a rollback gives nothing back.  Whatever [POST /rollback] answers and whatever fails inside
    it, the live file is the one that was there or one that grants no more than the store, every
    xray child it started runs on such a file, and what the store grants is unchanged. *)
Theorem rollback_never_reinstates a (h : hist H) r h' (Hcf : collision_free digest)
    (Hc : constraints (g_db h.1)) (Hi : inv digest (g_sup h.1))
    (E : rollback_route s xray digest json_loads a h = (r, h')) :
  rw_inbound json_loads (g_db h'.1) = rw_inbound json_loads (g_db h.1) /\
  (f_config (g_disk h'.1) = f_config (g_disk h.1) \/
   file_excess json_loads (g_db h'.1) (cur (f_config (g_disk h'.1))) = false) /\
  forall pid c, procs (g_sup h'.1).2 !! pid = Some (Alive c) -> procs (g_sup h.1).2 !! pid <> Some (Alive c) ->
    file_excess json_loads (g_db h'.1) c = false.
Proof.
  unfold rollback_route in E. destruct (rollback_target digest (g_disk h.1)) as [f|[cand|]] eqn:Et.
  1,3: injection E as <- <-; split_and!; [done|by left|done].
  destruct (rw_guard_promotion s xray digest json_loads a cand h) as [pr h1] eqn:Ep.
  apply promotion_facts in Ep as (Hca & Hsup & Hfile & Hprom & _); [|done..].
  assert (same_rw (g_db h.1) (g_db h1.1)) as Hrw1 by (by apply calm_rw).
  destruct pr; [|by injection E as <- <-; split_and!; [apply same_rw_now|done|rewrite Hsup]..].
  apply promoted_runtime_granted in E as (Hrw & Hd & Hnew); [|done|by apply Hca|by rewrite Hsup|by apply Hprom].
  split_and!.
  - apply same_rw_now. intros k Hk. rewrite Hrw by done. by apply Hrw1.
  - right. rewrite Hd, (same_rw_excess _ (g_db h1.1)) by done. by apply Hprom.
  - intros pid c Hp Hno. apply (Hnew pid c Hp). by rewrite Hsup.
Qed.

End routes.
(** * A save *)

Lemma lower_space c : is_space (lower_char c) = is_space c.
Proof. by destruct c as [[] [] [] [] [] [] [] []]. Qed.

Lemma strip_lower v : strip (lower v) = lower (strip v).
Proof.
  assert (forall v, lstrip (lower v) = lower (lstrip v)) as Hl.
  { induction v0 as [|c v0 IH]; [done|]. simpl. rewrite lower_space. destruct (is_space c); [exact IH|done]. }
  assert (forall v, rstrip (lower v) = lower (rstrip v)) as Hr.
  { induction v0 as [|c v0 IH]; [done|]. simpl. unfold lower in *. rewrite IH. destruct (rstrip v0); simpl; [|done].
    rewrite lower_space. by destruct (is_space c). }
  unfold strip. by rewrite Hl, Hr.
Qed.

Lemma subset_of_spec l l' : subset_of l l' = true -> forall x, x ∈ l -> x ∈ l'.
Proof.
  unfold subset_of. rewrite forallb_forall. intros Hs x Hx. apply list_elem_of_In, Hs in Hx. by apply bool_decide_eq_true in Hx.
Qed.

(** A stored value that survives case folding. *)
Lemma lower_kept l l' x : subset_of (lower <$> l) (lower <$> l') = true -> x ∈ l -> exists y, y ∈ l' /\ lower y = lower x.
Proof.
  intros Hs Hx. assert (lower x ∈ lower <$> l') as Hin by (eapply subset_of_spec; [exact Hs|by apply list_elem_of_fmap_2]).
  apply list_elem_of_fmap in Hin as (y & Hy & Hin). by exists y.
Qed.

Lemma names_of names ns : validate_server_names names = inr ns -> ns = strip <$> names.
Proof.
  unfold validate_server_names. case_bool_decide; [done|]. intros E%rmap_inr. clear -E.
  induction E as [|x y l l' Hxy _ IH]; [done|]. rewrite fmap_cons. f_equal; [|done].
  unfold validate_hostname in Hxy. repeat case_match; by simplify_eq.
Qed.

Lemma short_ids_of ids l : validate_short_ids ids = inr l -> l = ids.
Proof.
  unfold validate_short_ids. intros E%rmap_inr. induction E as [|x y l l' Hxy _ IH]; [done|].
  f_equal; [|done]. by destruct (short_id_ok x); simplify_eq.
Qed.

(** What [resolve] reads, as the credentials of the store. *)
Lemma resolve_credentials loads d r :
  resolve loads d = inr (Some r) ->
  cr_enabled (rw_credentials d) = true /\ cr_private_key (rw_credentials d) <> "" /\
  validate_key (cr_private_key (rw_credentials d)) "the Reality private key" = inr (rw_private_key r) /\
  cr_port (rw_credentials d) = str_int (rw_port r) /\
  rw_short_ids r = parse_csv (get "rw_short_ids" d) /\ rw_server_names r = strip <$> server_names d /\
  rw_clients r = (fun c => (cl_id c, cl_email c)) <$> filter (fun c => cl_enabled c = true) (get_clients loads d).
Proof.
  unfold resolve. destruct (bool_decide_reflect (get "rw_enabled" d = "1")) as [He|]; simpl; [|done].
  assert (strip (get "rw_private_key" d) = cr_private_key (rw_credentials d)) as ->.
  { simpl. unfold get. by destruct (get_setting "rw_private_key" d). }
  destruct (bool_decide_reflect (cr_private_key (rw_credentials d) = "")) as [|Hk]; [done|].
  destruct (bool_decide (length _ = 0%nat)); [done|].
  intros (port & Hp & E)%rbind_inr. apply rbind_inr in E as (dest & Hd & E). apply rbind_inr in E as (ns & Hn & E).
  apply rbind_inr in E as (k & Hk' & E). apply rbind_inr in E as (ss & Hs & E). apply rbind_inr in E as (hs & Hh & E).
  injection E as <-. cbn [rw_port rw_dest rw_server_names rw_private_key rw_short_ids rw_clients rw_hosts].
  split_and!; try done.
  - simpl. by apply bool_decide_eq_true.
  - simpl. by rewrite Hp.
  - by apply short_ids_of.
  - by apply names_of.
Qed.

(** a save that is not treated as a revocation takes nothing away.  When [_rw_narrows] says a
    save of the settings does not narrow, and remote access resolves before and after with the
    same roster, then everything a client needs stays as it was: the port, the private key, every
    client, and (up to case, which Reality ignores) every short id and every server name.  The
    stored list of server names must not be empty before: an empty one means a default that the
    comparison does not see. *)
Theorem widening_keeps_access loads d d' r r' (Hr : resolve loads d = inr (Some r)) (Hr' : resolve loads d' = inr r')
    (Hroster : get_setting "rw_clients" d' = get_setting "rw_clients" d)
    (Hnames : parse_csv (get "rw_server_names" d) <> [])
    (Hn : rw_narrows (rw_credentials d) (rw_credentials d') = false) :
  exists x, r' = Some x /\ rw_port x = rw_port r /\ rw_private_key x = rw_private_key r /\ rw_clients x = rw_clients r /\
    (forall i, i ∈ rw_short_ids r -> exists j, j ∈ rw_short_ids x /\ lower j = lower i) /\
    (forall i, i ∈ rw_server_names r -> exists j, j ∈ rw_server_names x /\ lower j = lower i).
Proof.
  destruct (resolve_credentials loads d r Hr) as (He & Hk & Hkey & Hp & Hs & Hns & Hcl).
  unfold rw_narrows in Hn. rewrite He, bool_decide_false in Hn by done. cbn [negb orb] in Hn.
  repeat (apply orb_false_iff in Hn as [Hn ?]).
  repeat match goal with H : negb _ = false |- _ => apply negb_false_iff in H end.
  repeat match goal with H : bool_decide _ = true |- _ => apply bool_decide_eq_true in H end.
  assert (exists x, r' = Some x) as [x ->].
  { destruct r' as [x|]; [by eexists|]. exfalso. unfold resolve in Hr'.
    destruct (bool_decide (get "rw_enabled" d' = "1")) eqn:Ee; simpl in Hr'; [|by simpl in Hn; rewrite Ee in Hn].
    assert (strip (get "rw_private_key" d') = cr_private_key (rw_credentials d')) as Ek.
    { simpl. unfold get. by destruct (get_setting "rw_private_key" d'). }
    rewrite Ek, bool_decide_false in Hr' by congruence. rewrite (same_roster loads d d' Hroster) in Hr'.
    destruct (resolve_inv loads d r Hr) as (_ & _ & Hc & Hne & _). rewrite Hcl in Hne.
    destruct (bool_decide_reflect (length (filter (fun c => cl_enabled c = true) (get_clients loads d)) = 0%nat)) as [E0|].
    { apply nil_length_inv in E0. by rewrite E0 in Hne. }
    repeat (apply rbind_inr in Hr' as (? & _ & Hr')). done. }
  destruct (resolve_credentials loads d' x Hr') as (_ & _ & Hkey' & Hp' & Hs' & Hns' & Hcl').
  exists x. split_and!; [done| | | | |].
  - apply (inj Some). rewrite <-!py_int_str_int. congruence.
  - congruence.
  - rewrite Hcl', Hcl. by rewrite (same_roster loads d d' Hroster).
  - intros i Hi. rewrite Hs in Hi. rewrite Hs'. apply (lower_kept (parse_csv (get "rw_short_ids" d))); [eassumption|done].
  - intros i Hi. rewrite Hns in Hi. apply list_elem_of_fmap in Hi as (n & -> & Hi).
    unfold server_names in Hi. rewrite bool_decide_false in Hi by done.
    destruct (lower_kept (parse_csv (get "rw_server_names" d)) (parse_csv (get "rw_server_names" d')) n) as (m & Hm & Heq); [eassumption|done|].
    exists (strip m). split; [|by rewrite <-!strip_lower, Heq]. rewrite Hns'. apply list_elem_of_fmap_2.
    unfold server_names. rewrite bool_decide_false; [done|]. intros E. rewrite E in Hm. by apply elem_of_nil in Hm.
Qed.

(** A lost phone again, through the handlers. *)
Module Handlers.
Import TestHost Switch Roster Lost.

Definition rw_msg (_ : rw_error) : string := "".
Definition served : hist host := (Gateway (granted_db [phone; laptop]) old_disk old_sup fresh, []).
Definition deleted := delete_rw_client default_settings xray_ok binary_digest loads0 dumps0 no_text id1 sunny served.

Lemma served_constraints : constraints (g_db served.1).
Proof. apply (bool_decide_unpack _). by vm_compute. Defined.

Lemma client_cut_off_witness :
  exists how h', deleted = (inr how, h') /\ off_roster loads0 id1 (g_db h'.1) /\ how = "reapplied" /\ cut_off id1 h'.1.
Proof.
  assert (deleted.1 = inr "reapplied") as E by (by vm_compute).
  assert (json_roundtrip loads0 dumps0 (filter (fun c => cl_id c <> id1) (get_clients loads0 (g_db served.1)))) as H1 by (by vm_compute).
  assert (json_roundtrip loads0 dumps0 (enable_in id1 false <$> get_clients loads0 (g_db served.1))) as H2 by (by vm_compute).
  pose proof (client_cut_off default_settings xray_ok binary_digest loads0 dumps0 no_text id1 sunny served
    (delete_rw_client default_settings xray_ok binary_digest loads0 dumps0 no_text id1 sunny)
    binary_digest_collision_free served_constraints lost_inv H1 H2 (or_introl eq_refl)) as Ht.
  rewrite decide_True in Ht by (apply (bool_decide_unpack _); by vm_compute).
  destruct Ht as (how & h' & Hd & Hoff & Hcut).
  exists how, h'. split; [exact Hd|]. split; [done|].
  change deleted with (delete_rw_client default_settings xray_ok binary_digest loads0 dumps0 no_text id1 sunny served) in E.
  rewrite Hd in E. injection E as ->.
  split; [done|]. by rewrite decide_True in Hcut by (apply (bool_decide_unpack _); by vm_compute).
Defined.

(** A rollback target from before the loss. *)
Definition pre_disk : disk :=
  Disk (File (Some (CJson JNull)) []) (File (Some (CJson old_cfg)) [])
    (File (Some (CJson (pair_marker binary_digest old_cfg JNull))) []).
Definition before_rollback : hist host := (Gateway (granted_db [laptop]) pre_disk init fresh, []).
Definition rolled := rollback_route default_settings xray_ok binary_digest loads0 sunny before_rollback.

Lemma rollback_never_reinstates_witness :
  rolled.1 = inr true /\ f_config (g_disk rolled.2.1) <> f_config (g_disk before_rollback.1) /\
  file_excess loads0 (g_db rolled.2.1) (cur (f_config (g_disk rolled.2.1))) = false.
Proof.
  split; [by vm_compute|].
  assert (cur (f_config (g_disk rolled.2.1)) <> cur (f_config (g_disk before_rollback.1))) as Hne.
  { assert (match cur (f_config (g_disk rolled.2.1)) with Some (CJson JNull) => true | _ => false end = false) as Hn by (by vm_compute).
    revert Hn. generalize (cur (f_config (g_disk rolled.2.1))). intros c Hn ->. discriminate Hn. }
  split; [intros E; apply Hne; exact (f_equal cur E)|].
  destruct (rollback_never_reinstates default_settings xray_ok binary_digest loads0 sunny before_rollback rolled.1 rolled.2
    binary_digest_collision_free down_constraints down_inv (surjective_pairing _)) as (_ & [Hf|Hf] & _); [|exact Hf].
  destruct Hne. exact (f_equal cur Hf).
Defined.

(** A short id added, none taken away. *)
Definition more_ids : db := set_settings (<["rw_short_ids" := "AB12,cd34"]> (d_settings (granted_db [laptop]))) empty_db.

Lemma widening_keeps_access_witness :
  exists r x, resolve loads0 (granted_db [laptop]) = inr (Some r) /\ resolve loads0 more_ids = inr (Some x) /\
    rw_short_ids r = ["ab12"] /\ rw_short_ids x = ["AB12"; "cd34"] /\ rw_clients x = rw_clients r.
Proof.
  set (r := Rw 443 "www.microsoft.com:443" ["www.microsoft.com"] key43 ["ab12"] [(id2, "laptop")] []).
  set (r' := Rw 443 "www.microsoft.com:443" ["www.microsoft.com"] key43 ["AB12"; "cd34"] [(id2, "laptop")] []).
  destruct (widening_keeps_access loads0 (granted_db [laptop]) more_ids r (Some r')) as (x & [= <-] & _ & _ & Hcl & _).
  - by vm_compute.
  - by vm_compute.
  - by vm_compute.
  - by vm_compute.
  - by vm_compute.
  - exists r, r'. split_and!; try done; by vm_compute.
Defined.

(** What the last hypothesis of that theorem is for: with an empty stored list the default name is
    served, and replacing it is not seen as a narrowing. *)
Example empty_names_not_seen :
  let before := set_settings (<["rw_server_names" := ""]> (d_settings (granted_db [laptop]))) empty_db in
  let after := set_settings (<["rw_server_names" := "example.org"]> (d_settings (granted_db [laptop]))) empty_db in
  rw_narrows (rw_credentials before) (rw_credentials after) = false /\
  rw_server_names <$> (match resolve loads0 before with inr r => r | _ => None end) = Some ["www.microsoft.com"] /\
  rw_server_names <$> (match resolve loads0 after with inr r => r | _ => None end) = Some ["example.org"].
Proof. by vm_compute. Qed.

End Handlers.
